(* ===== verification/_CoqProject ===== *)
-Q . S2P
Prelude.v
Bytes.v
Util.v
Words.v
Queue.v
QueueFacts.v
UuidNames.v
SharedUtil.v
Uuid.v
Shell.v
ShellFacts.v
ShellRun.v
GDBus.v
GDBusFacts.v
Gatt.v
AddrPool.v
Alg.v
Ccm.v
Crypto.v
Packet.v
Pdu.v
Keys.v
NetState.v
Send.v
Beacon.v
Recv.v
Reassembly.v
Dispatch.v
Node.v
NodeFacts.v
NodeOps.v
Composition.v
ConfigModel.v
Messages.v
ConfigMenu.v
OnOff.v
Light.v
Models.v
ConfigFacts.v
LightFacts.v
Json.v
JsonFacts.v
ProvDb.v
ProvDbFacts.v
ProvRead.v
DbComposition.v
DbNodes.v
DbFacts.v
DbStart.v
Vli.v
VliMod.v
Ecc.v
Prov.v
ProvFacts.v
ProvRun.v
ProvStored.v
Events.v
Session.v
SessionFacts.v
SessionInv.v
