(* ===== verification/Prelude.v ===== *)
(** * Verification of the Bluetooth Mesh core of meshctl

    The repository is a GUI around [meshctl], the Bluetooth Mesh provisioner of
    BlueZ.  What carries the program's own logic is the mesh stack under
    [src/blueZ/mesh] with the arithmetic it takes from [src/blueZ/src/shared];
    this development models that stack and proves what makes it correct, or
    shows by a theorem where it is not.

    ** The program and the files

    A PDU arrives from the GATT proxy as notifications, which [gatt.c]
    reassembles.  [net.c] authenticates and decrypts it with the keys it stores
    and with the packet functions of [crypto.c], reassembles segments,
    acknowledges them, and hands the payload to the nodes of [node.c].  In the
    other direction an access message is encrypted, cut into segments, queued
    and written to GATT.  Beacons move the IV index.  A new device is
    provisioned by [prov.c] over the same bearer, with the elliptic curve of
    [ecc.c], an address from the pool of [net.c] and a key of its store.

    - [Prelude]: outcomes of C code ([res]: a value or a fault), state-passing
      handlers ([St]) with their weakest precondition [wp], machine integers,
      list operations of GLib, the tactics [wp_step], [wp_run], [zlia], [zbool],
      [bool_hyps], [by_evaluation].
    - [Bytes]: bounded buffers; [get_be16] ... [put_le16] of
      [src/shared/util.h].  Every access is checked: outside the object it is
      the fault [Oob].
    - [Util]: [mesh/util.c] (opcodes, hex strings, status names), the small
      arithmetic of [prov.c], and [strtol] and [sscanf] as the commands use them;
      [Words]: numbers as [printf] writes them are read back.
    - [Queue], [QueueFacts]: [src/shared/queue.c], linked cells in a heap with
      callbacks that may change the queue they run on, refined to lists.
    - [SharedUtil]: [src/shared/util.c]: the hexadecimal dump, identifiers from a bit
      map, [strdelimit], [strsuffix], and the names of UUIDs and appearances, whose
      tables are [UuidNames].  [Uuid]: [lib/uuid.c].
    - [Shell]: [src/shared/shell.c]: menus, the arguments a command is described with,
      dispatch, prompts, the environment, completion, the start and the end.
      [wordexp] is a parameter, [WordExp]; the functions of commands, prompts and
      completions are a class, [ShellClient], the interface to the program.
      [ShellFacts], [ShellRun]: which command a line runs, and the shell as a whole.
    - [GDBus]: [gdbus/client.c], the D-Bus client: proxies for the objects of a service,
      their properties, calls and watches.  [Handlers] are the functions of the program,
      which may call back; what arrives from libdbus is a [dbus_arrival].
      [GDBusFacts]: a service as a state machine, and the client in step with it.
    - [Gatt]: [mesh_gatt_sar], [mesh_gatt_write], [pipe_write] of [mesh/gatt.c].
    - [AddrPool]: the pool of unicast addresses ([net_add_address_pool],
      [net_obtain_address], [net_release_address], [net_reserve_address_range]).
    - [Alg]: the kernel's AES sockets, a class with the documented laws of the
      calls, and a concrete backend for evaluation.
    - [Ccm]: AES-CCM as [crypto.c] writes it, buffer by buffer, in place and
      between objects, refined against counter mode with CBC-MAC.
    - [Crypto]: key derivation, nonces, identities, beacon authentication.
    - [Packet]: [mesh_crypto_packet_encode] and [mesh_crypto_packet_decode].
    - [Pdu]: the field macros [PKT_*] and [TRANS_*].
    - [Keys]: the network and application keys, key refresh included.
    - [NetState]: [struct mesh_net], messages in progress, timers, sessions, and
      the [world] record around them.  A pointer to a message is its id; using
      one that has been freed is the fault [UseAfterFree].  [NodeIface] is what
      the network layer needs of the node layer.
    - [Send], [Beacon], [Recv]: the handlers of [net.c], from
      [net_access_layer_send] to [net_data_ready].  [DataHandler] is the call
      from [net.c] up into [node.c].
    - [Reassembly], [Dispatch]: the theorems about receiving, end to end.
    - [Node]: the node list of [node.c] as a store.  A pointer to a node is its
      identity, one to a model its node, element and model identifier; following
      one to a freed node is the fault [UseAfterFree].  Callbacks of models are
      [ModelCode], a class, as the models call back into the node layer.
    - [NodeFacts], [NodeOps], [Composition]: delivery to the models, and the node
      layer as an instance of the [DataHandler] the network layer is proved
      against; the operations as data with their invariant; composition pages.
    - [ConfigModel], [OnOff], [Light]: [config-server.c], [config-client.c],
      [onoff-model.c], and the five files [light-*-model.c] and [time-model.c],
      callbacks and menu commands.  [Messages]: the messages commands build;
      [ConfigMenu]: those of the configuration menu, octet by octet.
      [Models]: the callbacks of all models; [model_code] ties the knot between
      models and node layer, to a given depth of nested calls; their registration
      by [main.c].  [ConfigFacts], [LightFacts]: what they do.
    - [Json], [JsonFacts]: JSON documents as trees, the pointers into them as
      paths, and the texts of numbers and keys; json-c's parser, printer and
      conversions are a parameter, [JsonC], with its documented laws.  A [schema] is
      the shape of a document, which changes at a path keep.
    - [ProvDb], [ProvRead]: the changes of the two files of [prov-db.c], and what is
      read of them when the program starts; a text or a document is [Live], [Freed]
      or [Null].  [db_event] runs the calls that the layers above emit as events.
      [ProvDbFacts]: every change is safe and keeps the shape.  [DbComposition],
      [DbNodes]: what is written for a node, and that it is read back.  [DbFacts],
      [DbStart]: the theorems on calls and on the start of the program.
    - [Vli], [VliMod], [Ecc]: [src/shared/ecc.c] from the digits up.
    - [Prov]: the provisioner of [prov.c], the agent of [agent.c] with the prompt
      of [src/shared/shell.c] it uses, and [mesh_prov_done] of [main.c].  Sessions
      live in a store of their own; a write completes at once when the pipe is
      open, and otherwise with [acquire_reply].
    - [ProvFacts], [ProvRun]: how sessions end, what they send, whole runs of the
      protocol; [ProvStored]: a run, its call into the database and the next start.
    - [Events]: the hand-over of events from [main.c] to the thread of the Java
      virtual machine in [src/jni/Home.c], two threads with semaphores and a lock.
    - [Session]: devices, connections and commands of [main.c] with the
      notifications of [gatt.c], over a parameter, [Bus], for the daemon's objects;
      [run_main_op] is everything the main loop runs.  [SessionFacts],
      [SessionInv]: from an advertisement to an open provisioning session, and
      every order of events.

    ** What the theorems show

    - Packets and keys: encoding and decoding are inverse, acceptance means
      authenticity, CCM is refined against its definition, nonces are unique, the
      key store keeps its invariant through key refresh.
    - The network layer: a message cut into segments is handed up exactly once in
      any order of arrival; every PDU accepted is the encoding of what is
      dispatched; sending never faults; beacons and acknowledgements change
      exactly what they should; the address pool loses and doubles nothing, but
      for the merge of released blocks.
    - Nodes and models: every operation of callers that keep to stated conditions keeps
      the store well formed (composition pages must be complete); a message is offered to
      the right models, in order, on every branch; composition pages are read back;
      configuring the local node through its own models ends; every command of the
      configuration menu sends exactly the octets that are given for it, or fails.
    - The database: every call of a provisioner, with complete composition pages, goes
      through and leaves files of the right shape; any
      files of that shape are read at the start without a fault, into well-formed
      nodes; a device that was provisioned is known at the next start, and its composition is
      read back, but for key indexes from ten on, the low power feature and the
      locations.
    - The curve: reduction equals the remainder, inversion terminates and
      inverts, multiplication is right up to a carry that is lost, a key is
      accepted exactly if it is a point.
    - Provisioning: a run with an honest device completes with the same keys at
      both ends; the network key is sent only after a confirmation has been
      checked; every unexpected message ends the session and gives back what it
      held; but the check can be passed without the key exchange, or by a
      reflection, or around it by a failure with code 0.
    - Lights and time: for the four lights what is typed is what is sent, at the width of
      its fields, and the time client sends the same whatever is typed;
      every operation returns and keeps its variables at their types.
    - The shared code: any operations on any queues return what lists return; a
      command runs exactly if its arguments fit its description, and a line runs the one
      command it names; every line goes through; completion ends and is complete, but
      for abbreviated submenus; a UUID is read back from its text; the proxies of the
      D-Bus client are the objects of the service, and the program is told of them.
    - The program around the stack: a device that is advertised is shown, chosen
      and invited without a fault, a node that was provisioned is found again; the
      selected adapter is never used after it was freed; ending a session cancels
      its timers; each event reaches the interface once, in order, under every
      schedule.
    - What goes wrong is stated as a theorem about the same definitions, with the
      inputs for which it does.

    ** Bounds and fuel

    Integers are [Z] with the wrap-around of their C type written out ([u8],
    [u16], [u32], [u64], [s32]).  [send_mesh_pkt] and [send_pkt_cmplt] call each
    other through the GATT completion callback; [fuel] bounds the nesting, and
    [access_send_safe] shows that two levels for each outgoing message that may
    have to be resent, and two more, are enough.  [flush_sar_loop] and the block
    loops of CCM get exactly the number of rounds the code makes;
    [gatt_write_read] gives the number of frames that completes [pipe_write],
    and [pipe_write_diverges] the MTU for which no number does.
    The loops of [vli_mmod_fast] get sixteen rounds and those of [vli_mod_inv]
    512; [vli_mmod_fast_spec] and [vli_mod_inv_spec] show that they end before.
    [ecc_make_key] makes at most the [MAX_TRIES] draws of the code.  In
    [model_code] the depth bounds callbacks that call callbacks;
    [config_ttl_self] shows that two are enough for the longest chain there is,
    a command to ourselves.  The loops over a queue get one round for each cell of the
    heap, which [queue_run_refines] shows to be enough; those of [strdelimit] twice
    the length of the text ([strdelimit_spec]), but there are delimiters for which no
    number is ([strdelimit_diverges]).

    ** What is not modelled

    The sockets behind [Alg] are the kernel's, and the text of a JSON document is
    that of json-c.  The database reads whole files: a read that comes short and a
    closed standard input are left out.  The calls into it are events of the world,
    which [db_events] runs.  Of
    [main.c] the tables of commands and what only prints are left out, as is printing
    everywhere, but not what is read to be printed.  In [Session] the D-Bus proxies are a
    parameter, whose answers may change between two events; the client that answers is
    [GDBus], where libdbus and the watches of [gdbus/watch.c] are what arrives.  The packet that the
    network layer decrypts in the buffer of the reassembly is not written back
    there.  But for [Events], concurrency is that of the GLib main loop: handlers
    run one at a time, a call from a lower layer to [main.c] at the end of a handler
    runs after it, and what may happen between two handlers is left to the callers
    of the definitions.  Of readline the display, the history and the choice between
    completions are left out, and of [util.c] what only calls the C library.  The rest of BlueZ, its tools and tests, and the Java front
    end are not part of the mesh stack. *)

From Stdlib Require Export ZArith Lia Bool.
From stdpp Require Export prelude.

#[export] Set Default Goal Selector "!".
#[global] Open Scope Z_scope.

(** ** Outcomes of C code

    A C function either returns, or performs an operation whose behaviour the
    language does not define.  [res] keeps the two apart, so that memory safety
    of a handler is the statement that it is never [Fault]. *)

Inductive fault :=
| Oob          (* read or write outside an object *)
| NullDeref    (* dereference of NULL *)
| UseAfterFree (* access to a freed object *)
| BadShift     (* shift by a negative count or by the width or more *)
| Uninit       (* use of an indeterminate value *)
| WrongType    (* an object passed to a library that asks for another kind of object *)
| Abort        (* an allocation that cannot succeed: GLib ends the program *)
| OutOfFuel.   (* the model's bound on a loop was reached *)

#[export] Instance fault_eq_dec : EqDecision fault.
Proof. solve_decision. Defined.

Inductive res (A : Type) :=
| Ok (a : A)
| Fault (f : fault).
Arguments Ok {A} a.
Arguments Fault {A} f.

#[export] Instance res_ret : MRet res := fun A a => Ok a.
#[export] Instance res_bind : MBind res := fun A B f m =>
  match m with Ok a => f a | Fault e => Fault e end.

#[export] Instance res_fmap : FMap res := fun A B f m =>
  match m with Ok a => Ok (f a) | Fault e => Fault e end.

Definition is_ok {A} (r : res A) : bool :=
  match r with Ok _ => true | Fault _ => false end.

Definition of_option {A} (e : fault) (o : option A) : res A :=
  match o with Some a => Ok a | None => Fault e end.

(** A handler over a state [S]: it threads the state and may fault. *)
Definition St (S A : Type) : Type := S -> res (A * S).
#[export] Instance st_ret {S} : MRet (St S) := fun A a s => Ok (a, s).
#[export] Instance st_bind {S} : MBind (St S) := fun A B f m s =>
  match m s with Ok (a, s') => f a s' | Fault e => Fault e end.

Definition get {S} : St S S := fun s => Ok (s, s).
Definition gets {S A} (f : S -> A) : St S A := fun s => Ok (f s, s).
Definition put {S} (s : S) : St S unit := fun _ => Ok (tt, s).
Definition modify {S} (f : S -> S) : St S unit := fun s => Ok (tt, f s).
Definition fail {S A} (e : fault) : St S A := fun _ => Fault e.
Definition lift {S A} (r : res A) : St S A := fun s =>
  match r with Ok a => Ok (a, s) | Fault e => Fault e end.

(** [mapM_ f l] runs [f] on every element, in order: [g_list_foreach]. *)
Fixpoint mapM_ {S A} (f : A -> St S unit) (l : list A) : St S unit :=
  match l with
  | [] => mret tt
  | x :: l' => f x ≫= fun _ => mapM_ f l'
  end.

(** [foldM f l b] passes [b] along the list in any of these monads. *)
Fixpoint foldM {F : Type -> Type} `{MRet F, MBind F} {A B} (f : A -> B -> F B) (l : list A) (b : B)
    : F B :=
  match l with
  | [] => mret b
  | x :: l' => b ← f x b; foldM f l' b
  end.

Lemma res_bind_ok {A B} (m : res A) (f : A -> res B) b :
  (m ≫= f) = Ok b <-> exists a, m = Ok a /\ f a = Ok b.
Proof.
  destruct m as [a | e]; simpl; split.
  - intros H. by exists a.
  - by intros (a' & [= <-] & H).
  - done.
  - by intros (a' & ? & _).
Qed.

Lemma st_bind_ok {S A B} (m : St S A) (f : A -> St S B) s b s'' :
  (m ≫= f) s = Ok (b, s'') <->
  exists a s', m s = Ok (a, s') /\ f a s' = Ok (b, s'').
Proof.
  unfold mbind, st_bind. destruct (m s) as [[a s'] | e]; split.
  - intros H. by exists a, s'.
  - by intros (? & ? & [= <- <-] & H).
  - done.
  - by intros (? & ? & ? & _).
Qed.

(** *** Total correctness of handlers

    [wp m Q s]: from [s], [m] returns without a fault, with a result and a state
    that satisfy [Q]. *)
Definition wp {S A} (m : St S A) (Q : A -> S -> Prop) (s : S) : Prop :=
  match m s with Ok (a, s') => Q a s' | Fault _ => False end.

Section Wp.
Context {S : Type}.

Lemma wp_ok {A} (m : St S A) Q s :
  wp m Q s <-> exists a s', m s = Ok (a, s') /\ Q a s'.
Proof.
  unfold wp. destruct (m s) as [[a s'] | e]; split.
  - intros H. by exists a, s'.
  - by intros (? & ? & [= <- <-] & H).
  - done.
  - by intros (? & ? & ? & _).
Qed.

Lemma wp_mono {A} (m : St S A) (Q Q' : A -> S -> Prop) s :
  wp m Q s -> (∀ a s', Q a s' -> Q' a s') -> wp m Q' s.
Proof. unfold wp. destruct (m s) as [[a s'] | e]; auto. Qed.

Lemma wp_bind {A B} (m : St S A) (f : A -> St S B) Q s :
  wp m (fun a => wp (f a) Q) s -> wp (m ≫= f) Q s.
Proof. unfold wp, mbind, st_bind. by destruct (m s) as [[a s'] | e]. Qed.

Lemma bind_lift {A B} (r : res A) a (f : A -> St S B) s : r = Ok a -> (lift r ≫= f) s = f a s.
Proof. by intros ->. Qed.
Lemma bind_get {B} (f : S -> St S B) s : (get ≫= f) s = f s s.
Proof. done. Qed.

Lemma wp_bind_inv {A B} (m : St S A) (f : A -> St S B) Q s :
  wp (m ≫= f) Q s -> wp m (fun a => wp (f a) Q) s.
Proof. unfold wp, mbind, st_bind. by destruct (m s) as [[a s'] | e]. Qed.

(** What a handler does after [m] has done its part. *)
Lemma wp_bind_eq {A B} (m : St S A) (f : A -> St S B) r s :
  wp m (fun a s' => f a s' = r) s -> (m ≫= f) s = r.
Proof. unfold wp, mbind, st_bind. by destruct (m s) as [[a s'] |]. Qed.

(** A handler that goes wrong after [m]. *)
Lemma wp_bind_fault {A B} (m : St S A) (f : A -> St S B) e s :
  wp m (fun a s' => f a s' = Fault e) s -> (m ≫= f) s = Fault e.
Proof. apply wp_bind_eq. Qed.

Lemma bind_fault {A B} (m : St S A) (f : A -> St S B) e s :
  m s = Fault e -> (m ≫= f) s = Fault e.
Proof. unfold mbind, st_bind. by intros ->. Qed.

Lemma wp_ret {A} (a : A) (Q : A -> S -> Prop) s : Q a s -> wp (mret a) Q s.
Proof. done. Qed.
Lemma wp_get (Q : S -> S -> Prop) s : Q s s -> wp get Q s.
Proof. done. Qed.
Lemma wp_gets {A} (f : S -> A) Q s : Q (f s) s -> wp (gets f) Q s.
Proof. done. Qed.
Lemma wp_modify f (Q : unit -> S -> Prop) s : Q tt (f s) -> wp (modify f) Q s.
Proof. done. Qed.
Lemma wp_lift {A} (r : res A) a (Q : A -> S -> Prop) s : r = Ok a -> Q a s -> wp (lift r) Q s.
Proof. by intros ->. Qed.

(** A loop over a list keeps an invariant. *)
Lemma wp_mapM {A} (f : A -> St S unit) (I : S -> Prop) l s :
  (∀ x s, x ∈ l -> I s -> wp (f x) (fun _ => I) s) -> I s ->
  wp (mapM_ f l) (fun _ => I) s.
Proof.
  intros Hf. revert s. induction l as [|x l IH]; intros s Hs; [done|].
  simpl. apply wp_bind. apply (wp_mono _ (fun _ => I)).
  - apply Hf; [left | done].
  - intros _ s' Hs'. apply IH; [|done]. intros y s1 Hy. apply Hf. by right.
Qed.
End Wp.

(** Runs the next operation of a handler. *)
Ltac wp_step :=
  first [ apply wp_bind
        | apply wp_ret | apply wp_get | apply wp_gets | apply wp_modify ]; cbn beta.
Ltac wp_run := repeat wp_step.

(** ** Machine integers *)

Definition u8 (x : Z) : Z := x mod 0x100.
Definition u16 (x : Z) : Z := x mod 0x10000.
Definition u32 (x : Z) : Z := x mod 0x100000000.
Definition u64 (x : Z) : Z := x mod 0x10000000000000000.
(** Conversion of an unsigned 32-bit value to a C [int]. *)
Definition s32 (x : Z) : Z :=
  let y := u32 x in if y <? 0x80000000 then y else y - 0x100000000.

Abbreviation is_u8 x := (0 <= x < 0x100).
Abbreviation is_u16 x := (0 <= x < 0x10000).
Abbreviation is_u32 x := (0 <= x < 0x100000000).
Abbreviation is_u64 x := (0 <= x < 0x10000000000000000).

(** C's truth of an integer, and the integer of a truth value. *)
Definition truth (x : Z) : bool := negb (x =? 0).
Definition b2z (b : bool) : Z := if b then 1 else 0.

(** [lia] with division and modulo by constants. *)
Ltac zlia := Z.to_euclidean_division_equations; lia.

Lemma u8_small x : is_u8 x -> u8 x = x.
Proof. intros. by apply Z.mod_small. Qed.
Lemma u16_small x : is_u16 x -> u16 x = x.
Proof. intros. by apply Z.mod_small. Qed.
Lemma u32_small x : is_u32 x -> u32 x = x.
Proof. intros. by apply Z.mod_small. Qed.
Lemma u64_small x : is_u64 x -> u64 x = x.
Proof. intros. by apply Z.mod_small. Qed.
Lemma u8_range x : is_u8 (u8 x).
Proof. unfold u8. zlia. Qed.
Lemma u16_range x : is_u16 (u16 x).
Proof. unfold u16. zlia. Qed.
Lemma u32_range x : is_u32 (u32 x).
Proof. unfold u32. zlia. Qed.
Lemma u64_range x : is_u64 (u64 x).
Proof. unfold u64. zlia. Qed.

Create HintDb width.
Create Rewrite HintDb width.
#[export] Hint Resolve u8_range u16_range u32_range u64_range : width.
#[export] Hint Rewrite u8_small u16_small u32_small u64_small using lia : width.

Lemma truth_false x : truth x = false <-> x = 0.
Proof. unfold truth. destruct (Z.eqb_spec x 0); naive_solver. Qed.
Lemma truth_true x : truth x = true <-> x <> 0.
Proof. unfold truth. destruct (Z.eqb_spec x 0); naive_solver. Qed.

Lemma b2z_range b : 0 <= b2z b <= 1.
Proof. destruct b; cbn; lia. Qed.

(** *** Bit fields

    A field placed above [n] bits that hold [a]. *)
Lemma land_shiftl_0 a b n : 0 <= n -> 0 <= a < 2 ^ n -> Z.land a (Z.shiftl b n) = 0.
Proof.
  intros Hn Ha. apply Z.bits_inj'. intros i Hi.
  rewrite Z.land_spec, Z.shiftl_spec, Z.bits_0 by lia.
  destruct (Z.lt_ge_cases i n) as [Hlt | Hge].
  - rewrite (Z.testbit_neg_r b) by lia. apply andb_false_r.
  - rewrite <-(Z.mod_small a (2 ^ n)), Z.mod_pow2_bits_high by lia. done.
Qed.

Lemma lor_shiftl_add a b n :
  0 <= n -> 0 <= a < 2 ^ n -> Z.lor a (Z.shiftl b n) = a + b * 2 ^ n.
Proof.
  intros Hn Ha. rewrite <-(Z.shiftl_mul_pow2 b n) by done.
  rewrite <-Z.add_lor_land, land_shiftl_0 by done. lia.
Qed.

Lemma land_ones_mod a n : 0 <= n -> Z.land a (2 ^ n - 1) = a mod 2 ^ n.
Proof. intros. rewrite <-Z.land_ones, Z.ones_equiv by done. f_equal. Qed.

(** The masks of the packet formats. *)
Lemma lor_below x y n : 0 <= n -> 0 <= x < 2 ^ n -> 0 <= y < 2 ^ n -> 0 <= Z.lor x y < 2 ^ n.
Proof.
  intros Hn Hx Hy. assert (H : Z.lor x y mod 2 ^ n = Z.lor x y).
  { rewrite <-Z.land_ones, Z.land_lor_distr_l, !Z.land_ones, !Z.mod_small by lia. done. }
  pose proof (Z.mod_pos_bound (Z.lor x y) (2 ^ n)). lia.
Qed.

Lemma land_ff a : Z.land a 0xff = a mod 0x100.
Proof. exact (land_ones_mod a 8 ltac:(lia)). Qed.
Lemma land_7f a : Z.land a 0x7f = a mod 0x80.
Proof. exact (land_ones_mod a 7 ltac:(lia)). Qed.
Lemma land_3f a : Z.land a 0x3f = a mod 0x40.
Proof. exact (land_ones_mod a 6 ltac:(lia)). Qed.
Lemma land_1f a : Z.land a 0x1f = a mod 0x20.
Proof. exact (land_ones_mod a 5 ltac:(lia)). Qed.
Lemma land_1fff a : Z.land a 0x1fff = a mod 0x2000.
Proof. exact (land_ones_mod a 13 ltac:(lia)). Qed.
Lemma land_3fff a : Z.land a 0x3fff = a mod 0x4000.
Proof. exact (land_ones_mod a 14 ltac:(lia)). Qed.
Lemma land_ffffff a : Z.land a 0xffffff = a mod 0x1000000.
Proof. exact (land_ones_mod a 24 ltac:(lia)). Qed.

(** *** Finite checks

    A boolean property of a byte (or of any bounded integer) that computes to
    [true] on the whole range holds on the range: the masks and shifts of the
    packet macros are decided this way. *)
Definition all_below (n : Z) (f : Z -> bool) : bool := forallb f (seqZ 0 n).

Lemma all_below_spec n f x : all_below n f = true -> 0 <= x < n -> f x = true.
Proof.
  unfold all_below. intros Hall Hx. apply (proj1 (forallb_forall f _) Hall).
  apply list_elem_of_In, elem_of_seqZ. lia.
Qed.

(** Proves [∀ x, 0 ≤ x < n → f x = g x] by evaluation. *)
Ltac by_evaluation x :=
  match goal with
  | H : 0 <= x < ?n |- ?l = ?r =>
      apply Z.eqb_eq;
      match eval pattern x in (Z.eqb l r) with
      | ?f _ => change (f x = true);
                refine (all_below_spec n f x _ H); vm_compute; reflexivity
      end
  end.

(** ** Lists *)

(** The first element satisfying a test: [g_list_find_custom] with a comparison
    that returns 0 exactly when the test holds. *)
Definition find_first {A} (p : A -> bool) (l : list A) : option A := List.find p l.

(** Replaces the first element satisfying a test: a write through the pointer
    that [g_list_find_custom] returned. *)
Fixpoint update_first {A} (p : A -> bool) (f : A -> A) (l : list A) : list A :=
  match l with
  | [] => []
  | x :: l' => if p x then f x :: l' else x :: update_first p f l'
  end.

(** Removes the first element satisfying a test: [g_list_delete_link] of the
    link found by [g_list_find_custom]. *)
Fixpoint remove_first {A} (p : A -> bool) (l : list A) : list A :=
  match l with
  | [] => []
  | x :: l' => if p x then l' else x :: remove_first p l'
  end.

(** [g_list_insert_sorted]: before the first element that does not compare
    below the new one. *)
Fixpoint insert_sorted {A} (cmp : A -> A -> Z) (x : A) (l : list A) : list A :=
  match l with
  | [] => [x]
  | y :: l' => if 0 <? cmp x y then y :: insert_sorted cmp x l' else x :: y :: l'
  end.

Section Lists.
Context {A : Type}.
Implicit Types (p : A -> bool) (f : A -> A) (l : list A).

Lemma find_first_some p l x :
  find_first p l = Some x -> x ∈ l /\ p x = true.
Proof.
  intros H. apply List.find_some in H as [Hin Hp].
  split; [by apply list_elem_of_In | done].
Qed.

Lemma find_first_none p l :
  find_first p l = None <-> Forall (fun x => p x = false) l.
Proof.
  split.
  - intros H. apply Forall_forall. intros x Hx.
    apply (List.find_none _ _ H). by apply list_elem_of_In.
  - unfold find_first. induction 1 as [|x l Hx _ IH]; simpl; [done | by rewrite Hx].
Qed.

Lemma find_first_key (K : A -> Z) l x :
  NoDup (K <$> l) -> x ∈ l -> find_first (fun y => K y =? K x) l = Some x.
Proof.
  unfold find_first. induction l as [|y l IH]; [by intros _ ?%not_elem_of_nil|].
  rewrite fmap_cons. intros [Hy Hl]%NoDup_cons [->|Hx]%elem_of_cons; cbn [find];
    [by rewrite Z.eqb_refl|].
  destruct (Z.eqb_spec (K y) (K x)) as [E|]; [|by apply IH].
  exfalso. apply Hy. rewrite E. by apply list_elem_of_fmap_2.
Qed.

Lemma find_first_app p l1 l2 :
  find_first p (l1 ++ l2) =
  match find_first p l1 with Some x => Some x | None => find_first p l2 end.
Proof.
  induction l1 as [|x l1 IH]; [done|]. simpl. destruct (p x); [done|]. apply IH.
Qed.

Lemma existsb_find_first p l :
  existsb p l = match find_first p l with Some _ => true | None => false end.
Proof.
  unfold find_first. induction l as [|x l IH]; simpl; [done|]. by destruct (p x).
Qed.

Lemma find_update_first p f l x :
  (∀ y, p (f y) = p y) ->
  find_first p l = Some x -> find_first p (update_first p f l) = Some (f x).
Proof.
  intros Hp. unfold find_first. induction l as [|y l IH]; simpl; [done|].
  destruct (p y) eqn:E.
  - intros [= ->]. simpl. by rewrite Hp, E.
  - intros H. simpl. rewrite E. by apply IH.
Qed.

Lemma find_update_first_other p q f l :
  (∀ y, p y = true -> q (f y) = q y /\ q y = false) ->
  find_first q (update_first p f l) = find_first q l.
Proof.
  intros Hq. unfold find_first in *. induction l as [|y l IH]; simpl; [done|].
  destruct (p y) eqn:E; simpl; [|by rewrite IH].
  destruct (Hq y E) as [H1 H2]. by rewrite H1, H2.
Qed.

Lemma map_update_first {B} (g : A -> B) p f l :
  (∀ y, g (f y) = g y) -> g <$> update_first p f l = g <$> l.
Proof.
  intros Hg. induction l as [|y l IH]; [done|]. simpl.
  destruct (p y); rewrite !fmap_cons; [by rewrite Hg | by rewrite IH].
Qed.

Lemma Forall_update_first (P : A -> Prop) p f l :
  (∀ y, P y -> p y = true -> P (f y)) -> Forall P l -> Forall P (update_first p f l).
Proof.
  intros Hf. induction 1 as [|y l Hy Hl IH]; simpl; [done|].
  destruct (p y) eqn:E; constructor; auto.
Qed.

Lemma Forall_update_found (P : A -> Prop) p f l x :
  find_first p l = Some x -> Forall P l -> P (f x) -> Forall P (update_first p f l).
Proof.
  unfold find_first. induction l as [|y l IH]; simpl; [done|]. intros Hf [Hy Hl]%Forall_cons Hx.
  destruct (p y); [injection Hf as ->; by constructor | constructor; auto].
Qed.

Lemma update_first_found p f l x :
  find_first p l = Some x -> update_first p f l = update_first p (fun _ => f x) l.
Proof.
  unfold find_first. induction l as [|y l IH]; [done|]. cbn [find update_first].
  destruct (p y); [by intros [= ->] | intros H; by rewrite IH].
Qed.

Lemma update_first_same p l x :
  find_first p l = Some x -> update_first p (fun _ => x) l = l.
Proof.
  unfold find_first. induction l as [|y l IH]; [done|]. cbn [find update_first].
  destruct (p y); [by intros [= ->] | intros H; by rewrite IH].
Qed.

Lemma update_first_twice p l x y : p x = true ->
  update_first p (fun _ => y) (update_first p (fun _ => x) l) = update_first p (fun _ => y) l.
Proof.
  intros Hx. induction l as [|z l IH]; [done|]. cbn [update_first].
  destruct (p z) eqn:E; cbn [update_first]; [by rewrite Hx | by rewrite E, IH].
Qed.

Lemma remove_first_sublist p l : remove_first p l `sublist_of` l.
Proof.
  induction l as [|y l IH]; simpl; [done|].
  destruct (p y); [by apply sublist_cons | by apply sublist_skip].
Qed.

Lemma find_remove_first p (K : A -> Z) k l :
  (∀ y, p y = true <-> K y = k) -> NoDup (K <$> l) ->
  find_first p (remove_first p l) = None.
Proof.
  intros Hp. induction l as [|y l IH]; simpl; [done|].
  rewrite NoDup_cons. intros [Hy Hnd]. destruct (p y) eqn:E.
  - apply find_first_none, Forall_forall. intros z Hz.
    destruct (p z) eqn:Ez; [|done]. exfalso. apply Hy.
    apply Hp in E, Ez. rewrite E, <-Ez. by apply list_elem_of_fmap_2.
  - unfold find_first in *. simpl. rewrite E. by apply IH.
Qed.

Lemma find_remove_first_other p q l :
  (∀ y, p y = true -> q y = false) ->
  find_first q (remove_first p l) = find_first q l.
Proof.
  intros Hq. unfold find_first in *. induction l as [|y l IH]; simpl; [done|].
  destruct (p y) eqn:E; simpl; [by rewrite (Hq y E) | by rewrite IH].
Qed.

Lemma Forall_remove_first (P : A -> Prop) p l : Forall P l -> Forall P (remove_first p l).
Proof.
  induction 1 as [|y l Hy Hl IH]; simpl; [done|].
  destruct (p y); [done | by constructor].
Qed.

(** Removing an element by its key. *)
Lemma remove_first_perm (K : A -> Z) l x :
  NoDup (K <$> l) -> x ∈ l -> l ≡ₚ x :: remove_first (fun y => K y =? K x) l.
Proof.
  induction l as [|y l IH]; intros Hnd Hx; [by apply elem_of_nil in Hx|].
  rewrite fmap_cons, NoDup_cons in Hnd. destruct Hnd as [Hy Hnd]. simpl.
  destruct (Z.eqb_spec (K y) (K x)) as [Hk | Hk].
  - apply elem_of_cons in Hx as [-> | Hx]; [done|].
    exfalso. apply Hy. rewrite Hk. by apply list_elem_of_fmap_2.
  - apply elem_of_cons in Hx as [-> | Hx]; [done|].
    rewrite IH at 1 by done. constructor.
Qed.

Lemma NoDup_remove_first {B} (g : A -> B) p l :
  NoDup (g <$> l) -> NoDup (g <$> remove_first p l).
Proof.
  intros Hl. apply (sublist_NoDup _ (g <$> l)); [done|].
  apply fmap_sublist, remove_first_sublist.
Qed.

Lemma NoDup_snoc {B} (g : A -> B) l x :
  NoDup (g <$> l) -> Forall (fun y => g y <> g x) l -> NoDup (g <$> (l ++ [x])).
Proof.
  intros Hl Hx. rewrite fmap_app, NoDup_app. split_and!; [done | | by apply NoDup_singleton].
  intros b (y & -> & Hy)%list_elem_of_fmap Hb. apply list_elem_of_singleton in Hb.
  rewrite Forall_forall in Hx. by apply (Hx y).
Qed.

Lemma update_first_app p f l1 l2 :
  Forall (fun x => p x = false) l1 -> update_first p f (l1 ++ l2) = l1 ++ update_first p f l2.
Proof. induction 1 as [|x l1 Hx _ IH]; [done|]. simpl. by rewrite Hx, IH. Qed.

Lemma NoDup_snoc_elem {B} (g : A -> B) l x :
  NoDup (g <$> l) -> g x ∉ g <$> l -> NoDup (g <$> (l ++ [x])).
Proof.
  intros Hl Hx. rewrite fmap_app, NoDup_app. split_and!; [done | | by apply NoDup_singleton].
  intros b Hb Hb'. apply list_elem_of_singleton in Hb'. by subst.
Qed.

Lemma filter_remove_first (P : A -> Prop) `{∀ x, Decision (P x)} p l :
  (length (filter P (remove_first p l)) <= length (filter P l))%nat.
Proof.
  induction l as [|y l IH]; simpl; [done|].
  destruct (p y); rewrite !filter_cons; case_decide; simpl; lia.
Qed.

Lemma insert_sorted_perm cmp (x : A) l : insert_sorted cmp x l ≡ₚ x :: l.
Proof.
  induction l as [|y l IH]; simpl; [done|].
  destruct (0 <? cmp x y); [|done].
  rewrite IH. constructor.
Qed.
End Lists.

(** ** Automation *)

(** Case analysis on the scrutinee of the first conditional or match of the
    goal. *)
Ltac case_goal :=
  match goal with
  | |- context [if ?b then _ else _] => destruct b eqn:?
  | |- context [match ?x with _ => _ end] => destruct x eqn:?
  end.

(** The same in a hypothesis. *)
Ltac case_in H :=
  match type of H with
  | context [if ?b then _ else _] => destruct b eqn:?
  | context [match ?x with _ => _ end] => destruct x eqn:?
  end.

(** Turns boolean comparisons of the context into propositions. *)
Ltac bool_hyps :=
  repeat match goal with
  | H : (_ && _) = true |- _ => apply andb_true_iff in H as [? ?]
  | H : (_ || _) = false |- _ => apply orb_false_iff in H as [? ?]
  | H : negb _ = true |- _ => apply negb_true_iff in H
  | H : negb _ = false |- _ => apply negb_false_iff in H
  | H : (_ =? _) = true |- _ => apply Z.eqb_eq in H
  | H : (_ =? _) = false |- _ => apply Z.eqb_neq in H
  | H : (_ <? _) = true |- _ => apply Z.ltb_lt in H
  | H : (_ <? _) = false |- _ => apply Z.ltb_ge in H
  | H : (_ <=? _) = true |- _ => apply Z.leb_le in H
  | H : (_ <=? _) = false |- _ => apply Z.leb_gt in H
  | H : truth _ = true |- _ => apply truth_true in H
  | H : truth _ = false |- _ => apply truth_false in H
  end.

(** Case analysis on every integer comparison, then linear arithmetic: decides
    equations between truth values of comparisons. *)
Ltac zbool :=
  repeat match goal with
  | H : context [_ <=? _] |- _ => revert H
  | H : context [_ <? _] |- _ => revert H
  | H : context [_ =? _] |- _ => revert H
  end;
  repeat (match goal with
  | |- context [?x <=? ?y] => destruct (Z.leb_spec x y)
  | |- context [?x <? ?y] => destruct (Z.ltb_spec x y)
  | |- context [?x =? ?y] => destruct (Z.eqb_spec x y)
  end; try (exfalso; lia));
  unfold b2z; simpl; intros; try done; try lia.
