(* ===== verification/Bytes.v ===== *)
(** * Bytes and buffers

    Octets, objects in memory as lists of octets with bounds-checked access,
    and the byte-order helpers of [src/shared/util.h].  A pointer into an object
    is the object and an offset; reading or writing outside the object is
    [Fault Oob]. *)

From Stdlib Require String Ascii.
From S2P Require Import Prelude.

Definition bytes (l : list Z) : Prop := Forall (fun b => is_u8 b) l.

#[export] Instance is_u8_dec b : Decision (is_u8 b).
Proof. apply _. Defined.
#[export] Instance bytes_dec l : Decision (bytes l).
Proof. unfold bytes. apply _. Defined.

(** A C string ends at the first octet 0. *)
Fixpoint c_string (s : list Z) : list Z :=
  match s with [] => [] | c :: s' => if c =? 0 then [] else c :: c_string s' end.

(** The octets of a string literal. *)
Definition octets (s : String.string) : list Z :=
  (fun a => Z.of_N (Ascii.N_of_ascii a)) <$> String.list_ascii_of_string s.

(** The length of an object, as a C size. *)
Definition len (b : list Z) : Z := Z.of_nat (length b).

(** ** Bounds-checked access *)

Definition rd (b : list Z) (i : Z) : res Z :=
  if 0 <=? i then of_option Oob (b !! Z.to_nat i) else Fault Oob.

Definition wr (b : list Z) (i v : Z) : res (list Z) :=
  if (0 <=? i) && (i <? len b) then Ok (<[Z.to_nat i := v]> b) else Fault Oob.

(** [memcpy] from and to an object. *)
Definition rd_range (b : list Z) (off n : Z) : res (list Z) :=
  if (0 <=? off) && (0 <=? n) && (off + n <=? len b)
  then Ok (take (Z.to_nat n) (drop (Z.to_nat off) b)) else Fault Oob.

Definition wr_range (b : list Z) (off : Z) (src : list Z) : res (list Z) :=
  if (0 <=? off) && (off + len src <=? len b)
  then Ok (take (Z.to_nat off) b ++ src ++ drop (Z.to_nat off + length src) b)
  else Fault Oob.

(** [n] octets of value [v]: [memset]. *)
Definition rep (n : Z) (v : Z) : list Z := replicate (Z.to_nat n) v.

(** ** Byte order *)

Fixpoint to_be (n : nat) (v : Z) : list Z :=
  match n with
  | O => []
  | S n' => to_be n' (v / 0x100) ++ [v mod 0x100]
  end.
Fixpoint to_le (n : nat) (v : Z) : list Z :=
  match n with
  | O => []
  | S n' => v mod 0x100 :: to_le n' (v / 0x100)
  end.
Definition of_be (l : list Z) : Z := fold_left (fun a b => a * 0x100 + b) l 0.
Fixpoint of_le (l : list Z) : Z :=
  match l with [] => 0 | b :: l' => b + 0x100 * of_le l' end.

Definition get_be16 (p : list Z) (off : Z) : res Z := of_be <$> rd_range p off 2.
Definition get_be32 (p : list Z) (off : Z) : res Z := of_be <$> rd_range p off 4.
Definition get_be64 (p : list Z) (off : Z) : res Z := of_be <$> rd_range p off 8.
Definition get_le16 (p : list Z) (off : Z) : res Z := of_le <$> rd_range p off 2.
Definition put_be16 (v : Z) (p : list Z) (off : Z) : res (list Z) :=
  wr_range p off (to_be 2 v).
Definition put_be32 (v : Z) (p : list Z) (off : Z) : res (list Z) :=
  wr_range p off (to_be 4 v).
Definition put_be64 (v : Z) (p : list Z) (off : Z) : res (list Z) :=
  wr_range p off (to_be 8 v).
Definition put_le16 (v : Z) (p : list Z) (off : Z) : res (list Z) :=
  wr_range p off (to_le 2 v).

Create HintDb buf.
Create Rewrite HintDb buf.

(** *** Lemmas on byte order *)

Lemma of_be_app l1 l2 :
  of_be (l1 ++ l2) = of_be l1 * 0x100 ^ len l2 + of_be l2.
Proof.
  unfold of_be, len. rewrite fold_left_app.
  generalize (fold_left (λ a b : Z, a * 256 + b) l1 0) as x.
  induction l2 as [|b l2 IH] using rev_ind; intros x; simpl; [lia|].
  rewrite !fold_left_app, length_app. simpl. rewrite IH.
  replace (Z.of_nat (length l2 + 1)) with (Z.of_nat (length l2) + 1) by lia.
  rewrite Z.pow_add_r by lia. lia.
Qed.

Lemma length_to_be n v : length (to_be n v) = n.
Proof.
  revert v. induction n as [|n IH]; intros v; simpl; [done|].
  rewrite length_app, IH. simpl. lia.
Qed.
Lemma length_to_le n v : length (to_le n v) = n.
Proof. revert v. induction n as [|n IH]; intros v; simpl; [done|]. by rewrite IH. Qed.
Lemma bytes_to_be n v : bytes (to_be n v).
Proof.
  unfold bytes. revert v. induction n as [|n IH]; intros v; simpl; [constructor|].
  apply Forall_app. split; [apply IH|]. repeat constructor; apply u8_range.
Qed.

Lemma to_be_0 n : to_be n 0 = replicate n 0.
Proof.
  induction n as [|n IH]; [done|]. simpl to_be. rewrite Z.div_0_l, IH by done.
  by rewrite <-replicate_cons_app.
Qed.

Lemma of_be_to_be n v : of_be (to_be n v) = v mod 0x100 ^ Z.of_nat n.
Proof.
  revert v. induction n as [|n IH]; intros v; simpl to_be.
  - by rewrite Z.mod_1_r.
  - rewrite of_be_app, IH. change (of_be [v mod 256]) with (v mod 256).
    change (0x100 ^ len [v mod 256]) with 0x100.
    replace (Z.of_nat (S n)) with (1 + Z.of_nat n) by lia.
    rewrite Z.pow_add_r, Z.pow_1_r, Z.rem_mul_r by lia. lia.
Qed.

Lemma of_be_range l : bytes l -> 0 <= of_be l < 0x100 ^ len l.
Proof.
  induction l as [|b l IH] using rev_ind; intros Hb; [done|].
  apply Forall_app in Hb as [Hl Hb]. inversion_clear Hb.
  specialize (IH Hl). rewrite of_be_app. change (of_be [b]) with b.
  unfold len in *. rewrite length_app. simpl length.
  rewrite Nat2Z.inj_add, Z.pow_add_r by lia. change (0x100 ^ Z.of_nat 1) with 0x100.
  change (0x100 ^ Z.of_nat (length [b])) with 0x100. lia.
Qed.

Lemma to_be_of_be l : bytes l -> to_be (length l) (of_be l) = l.
Proof.
  induction l as [|b l IH] using rev_ind; intros Hb; [done|].
  apply Forall_app in Hb as [Hl Hb]. inversion_clear Hb.
  rewrite length_app, Nat.add_comm. simpl. rewrite of_be_app.
  change (of_be [b]) with b. change (0x100 ^ len [b]) with 0x100.
  rewrite Z.div_add_l, Z.div_small, Z.add_0_r, (IH Hl) by lia.
  do 2 f_equal. zlia.
Qed.

Lemma of_be_inj a b : bytes a -> bytes b -> length a = length b -> of_be a = of_be b -> a = b.
Proof. intros Ha Hb Hl H. by rewrite <-(to_be_of_be a Ha), <-(to_be_of_be b Hb), Hl, H. Qed.

Lemma of_le_to_le n v : of_le (to_le n v) = v mod 0x100 ^ Z.of_nat n.
Proof.
  revert v. induction n as [|n IH]; intros v; simpl to_le; simpl of_le.
  - by rewrite Z.mod_1_r.
  - rewrite IH. replace (Z.of_nat (S n)) with (1 + Z.of_nat n) by lia.
    rewrite Z.pow_add_r, Z.pow_1_r, Z.rem_mul_r by lia. lia.
Qed.

(** *** Lemmas on buffers *)

Lemma len_nonneg b : 0 <= len b.
Proof. unfold len. lia. Qed.
Lemma len_app a b : len (a ++ b) = len a + len b.
Proof. unfold len. rewrite length_app. lia. Qed.
Lemma len_cons x b : len (x :: b) = 1 + len b.
Proof. unfold len. simpl. lia. Qed.
Lemma len_rep n v : 0 <= n -> len (rep n v) = n.
Proof. intros. unfold len, rep. rewrite length_replicate. lia. Qed.
Lemma len_to_be n v : len (to_be n v) = Z.of_nat n.
Proof. unfold len. by rewrite length_to_be. Qed.
Lemma len_insert (b : list Z) i v : len (<[i := v]> b) = len b.
Proof. unfold len. by rewrite length_insert. Qed.
#[export] Hint Rewrite len_app len_cons len_to_be len_insert : buf.
#[export] Hint Resolve len_nonneg : buf.

Lemma rd_range_ok b off n :
  0 <= off -> 0 <= n -> off + n <= len b ->
  rd_range b off n = Ok (take (Z.to_nat n) (drop (Z.to_nat off) b)).
Proof.
  intros. unfold rd_range.
  by rewrite (proj2 (Z.leb_le _ _)), (proj2 (Z.leb_le _ _)), (proj2 (Z.leb_le _ _)).
Qed.

Lemma rd_range_oob b off n : len b < off + n -> rd_range b off n = Fault Oob.
Proof.
  intros. unfold rd_range. rewrite (proj2 (Z.leb_gt (off + n) _)) by done.
  by rewrite andb_false_r.
Qed.

Lemma wr_range_ok b off src :
  0 <= off -> off + len src <= len b ->
  wr_range b off src =
  Ok (take (Z.to_nat off) b ++ src ++ drop (Z.to_nat off + length src) b).
Proof.
  intros. unfold wr_range. by rewrite (proj2 (Z.leb_le _ _)), (proj2 (Z.leb_le _ _)).
Qed.

Lemma wr_range_lookup b off src b' k :
  wr_range b off src = Ok b' ->
  b' !! k = if bool_decide (Z.to_nat off <= k < Z.to_nat off + length src)%nat
            then src !! (k - Z.to_nat off)%nat else b !! k.
Proof.
  unfold wr_range, len. case_goal; [|done]. intros [= <-]. bool_hyps.
  assert (Ho : length (take (Z.to_nat off) b) = Z.to_nat off) by (rewrite length_take; lia).
  destruct (bool_decide_reflect (Z.to_nat off <= k < Z.to_nat off + length src)%nat) as [Hk | Hk].
  - rewrite lookup_app_r, Ho, lookup_app_l by lia. done.
  - destruct (decide (k < Z.to_nat off)%nat).
    + rewrite lookup_app_l, lookup_take_lt by lia. done.
    + rewrite lookup_app_r, Ho, lookup_app_r, lookup_drop by lia. f_equal. lia.
Qed.

Lemma wr_range_oob b off src : len b < off + len src -> wr_range b off src = Fault Oob.
Proof.
  intros. unfold wr_range. rewrite (proj2 (Z.leb_gt (off + len src) _)) by done.
  by rewrite andb_false_r.
Qed.

Lemma wr_range_len b off src b' : wr_range b off src = Ok b' -> len b' = len b.
Proof.
  unfold wr_range. case_goal; [|done]. intros [= <-]. bool_hyps.
  unfold len in *. rewrite !length_app, length_take, length_drop. lia.
Qed.

(** A write in the middle of a buffer given by its parts. *)
Lemma wr_range_mid a old c src off :
  off = len a -> length old = length src ->
  wr_range (a ++ old ++ c) off src = Ok (a ++ src ++ c).
Proof.
  intros -> Hl. rewrite wr_range_ok; [| auto with buf |].
  - unfold len. rewrite Nat2Z.id, take_app_length.
    do 3 f_equal. rewrite drop_app_add, <-Hl, drop_app_length. done.
  - rewrite !len_app. unfold len in *. lia.
Qed.

Lemma wr_range_end a old src off :
  off = len a -> length old = length src -> wr_range (a ++ old) off src = Ok (a ++ src).
Proof. intros Ho Hl. rewrite <-(app_nil_r old), (wr_range_mid a old [] src off Ho Hl). by rewrite app_nil_r. Qed.

Lemma wr_range_begin old c src :
  length old = length src -> wr_range (old ++ c) 0 src = Ok (src ++ c).
Proof. by apply (wr_range_mid [] old c src 0). Qed.

Lemma rd_range_mid a m c off n :
  off = len a -> n = len m -> rd_range (a ++ m ++ c) off n = Ok m.
Proof.
  intros -> ->. rewrite rd_range_ok; auto with buf.
  - unfold len. rewrite !Nat2Z.id, drop_app_length, take_app_length. done.
  - rewrite !len_app. pose proof (len_nonneg c). lia.
Qed.

Lemma rd_range_end a m off n :
  off = len a -> n = len m -> rd_range (a ++ m) off n = Ok m.
Proof. intros. rewrite <-(app_nil_r m) at 1. by apply rd_range_mid. Qed.

Lemma rd_range_begin m c n : n = len m -> rd_range (m ++ c) 0 n = Ok m.
Proof. by apply (rd_range_mid [] m c 0 n). Qed.

Lemma rd_range_all m n : n = len m -> rd_range m 0 n = Ok m.
Proof. intros. by apply (rd_range_end []). Qed.

Lemma rd_range_len b off n m : rd_range b off n = Ok m -> len m = n.
Proof.
  unfold rd_range. case_goal; [|done]. intros [= <-]. bool_hyps.
  unfold len in *. rewrite length_take, length_drop. lia.
Qed.

Lemma rd_ok b i : 0 <= i < len b -> exists v, rd b i = Ok v /\ b !! Z.to_nat i = Some v.
Proof.
  intros Hi. unfold rd. rewrite (proj2 (Z.leb_le _ _)) by lia.
  destruct (lookup_lt_is_Some_2 b (Z.to_nat i)) as [v Hv]; [unfold len in Hi; lia|].
  exists v. by rewrite Hv.
Qed.

Lemma wr_ok b i v : 0 <= i < len b -> wr b i v = Ok (<[Z.to_nat i := v]> b).
Proof.
  intros. unfold wr. by rewrite (proj2 (Z.leb_le _ _)), (proj2 (Z.ltb_lt _ _)) by lia.
Qed.

(** Splitting a buffer at an offset. *)
Lemma buf_split b n :
  0 <= n <= len b -> exists b1 b2, b = b1 ++ b2 /\ len b1 = n.
Proof.
  intros. exists (take (Z.to_nat n) b), (drop (Z.to_nat n) b).
  rewrite take_drop. split; [done|]. unfold len in *. rewrite length_take. lia.
Qed.

(** ** Exclusive or of octet strings *)

Definition xor_bytes : list Z -> list Z -> list Z := zip_with Z.lxor.

Lemma lxor_u8 a b : is_u8 a -> is_u8 b -> is_u8 (Z.lxor a b).
Proof.
  intros Ha Hb.
  assert (Hall : all_below 256 (fun a => all_below 256 (fun b =>
    (0 <=? Z.lxor a b) && (Z.lxor a b <? 256))) = true) by (vm_compute; reflexivity).
  apply (all_below_spec _ _ a Hall) in Ha. apply (all_below_spec _ _ b Ha) in Hb.
  bool_hyps. lia.
Qed.

Lemma xor_bytes_length a b : length a = length b -> length (xor_bytes a b) = length a.
Proof. intros H. unfold xor_bytes. rewrite length_zip_with. lia. Qed.

Lemma xor_bytes_involutive a b :
  (length a <= length b)%nat -> xor_bytes (xor_bytes a b) b = a.
Proof.
  unfold xor_bytes. revert b.
  induction a as [|x a IH]; intros [|y b]; simpl; [done | done | lia |].
  intros H. rewrite IH by lia. f_equal.
  by rewrite Z.lxor_assoc, Z.lxor_nilpotent, Z.lxor_0_r.
Qed.

Lemma xor_bytes_comm a b : xor_bytes a b = xor_bytes b a.
Proof.
  unfold xor_bytes. revert b. induction a as [|x a IH]; intros [|y b]; simpl; [done..|].
  by rewrite Z.lxor_comm, IH.
Qed.

Lemma bytes_xor a b : bytes a -> bytes b -> bytes (xor_bytes a b).
Proof.
  intros Ha. revert b. induction Ha as [|x a Hx Ha IH]; intros [|y b] Hb;
    try constructor; inversion Hb; subst.
  - by apply lxor_u8.
  - by apply IH.
Qed.

Lemma bytes_app a b : bytes (a ++ b) <-> bytes a /\ bytes b.
Proof. apply Forall_app. Qed.
Lemma bytes_take n a : bytes a -> bytes (take n a).
Proof. apply Forall_take. Qed.
Lemma bytes_drop n a : bytes a -> bytes (drop n a).
Proof. apply Forall_drop. Qed.
Lemma bytes_rep n v : is_u8 v -> bytes (rep n v).
Proof. intros. by apply Forall_replicate. Qed.
#[export] Hint Resolve bytes_to_be bytes_xor bytes_take bytes_drop bytes_rep : buf.

(** Access within bounds succeeds. *)
Lemma rd_range_total b off n :
  0 <= off -> 0 <= n -> off + n <= len b -> exists m, rd_range b off n = Ok m /\ len m = n.
Proof.
  intros. eexists. split; [by apply rd_range_ok|].
  eapply rd_range_len. by apply (rd_range_ok b off n).
Qed.

Lemma wr_range_total b off src :
  0 <= off -> off + len src <= len b ->
  exists b', wr_range b off src = Ok b' /\ len b' = len b.
Proof.
  intros. eexists. split; [by apply wr_range_ok|].
  eapply wr_range_len. by apply (wr_range_ok b off src).
Qed.
