(* ===== verification/Util.v ===== *)
(** * Utilities

    [src/blueZ/mesh/util.c]: the access-layer opcode codec, the byte reversal of
    256-bit integers, hexadecimal output and input and the status names; and the two
    arithmetic helpers of [prov.c]. *)

From Stdlib Require Import String.
From S2P Require Import Prelude Bytes.

(** ** Opcodes

    [mesh_opcode_set] writes an opcode in one, two or three octets and returns
    how many, or 0 for an opcode that has no encoding. *)
Definition mesh_opcode_set (opcode : Z) (buf : list Z) : res (Z * list Z) :=
  if opcode <=? 0x7e then
    buf ← wr buf 0 (u8 opcode); mret (1, buf)
  else if (0x8000 <=? opcode) && (opcode <=? 0xbfff) then
    buf ← put_be16 (u16 opcode) buf 0; mret (2, buf)
  else if (0xc00000 <=? opcode) && (opcode <=? 0xffffff) then
    buf ← wr buf 0 (Z.land (Z.shiftr opcode 16) 0xff);
    buf ← put_be16 (u16 opcode) buf 1; mret (3, buf)
  else mret (0, buf).

(** [mesh_opcode_get] on a message of [sz] octets: the opcode and its length, or
    [None] where the code returns false. *)
Definition mesh_opcode_get (buf : list Z) (sz : Z) : res (option (Z * Z)) :=
  if sz <? 1 then mret None else
  b0 ← rd buf 0;
  let cls := Z.land b0 0xc0 in
  if (cls =? 0x00) || (cls =? 0x40) then
    if b0 =? 0x7f then mret None else mret (Some (b0, 1))
  else if cls =? 0x80 then
    if sz <? 2 then mret None else
    op ← get_be16 buf 0; mret (Some (op, 2))
  else if cls =? 0xc0 then
    if sz <? 3 then mret None else
    op ← get_be16 buf 1; mret (Some (Z.lor op (Z.shiftl b0 16), 3))
  else mret None.

(** The opcodes that have an encoding. *)
Definition opcode_legal (op : Z) : bool :=
  (0 <=? op) && (op <=? 0x7e) || (0x8000 <=? op) && (op <=? 0xbfff) ||
  (0xc00000 <=? op) && (op <=? 0xffffff).

(** ** Reversal of a 32-octet integer: exclusive-or swaps, in place *)
Definition swap_step (u : list Z) (i : Z) : res (list Z) :=
  a ← rd u i; b ← rd u (31 - i);
  u ← wr u i (Z.lxor a b);
  a ← rd u (31 - i); b ← rd u i;
  u ← wr u (31 - i) (Z.lxor a b);
  a ← rd u i; b ← rd u (31 - i);
  wr u i (Z.lxor a b).

Fixpoint swap_loop (n : nat) (i : Z) (u : list Z) : res (list Z) :=
  match n with
  | O => mret u
  | S n' => u ← swap_step u i; swap_loop n' (i + 1) u
  end.

Definition swap_u256_bytes (u : list Z) : res (list Z) := swap_loop 16 0 u.

(** ** Hexadecimal output *)
Definition hexdigits : list Z :=
  [48; 49; 50; 51; 52; 53; 54; 55; 56; 57; 97; 98; 99; 100; 101; 102].

Fixpoint hex2str_loop (src : list Z) (i : Z) (out : list Z) : res (list Z) :=
  match src with
  | [] => mret out
  | b :: src' =>
      hi ← rd hexdigits (Z.shiftr b 4);
      out ← wr out (i * 2) hi;
      lo ← rd hexdigits (Z.land b 0xf);
      out ← wr out (i * 2 + 1) lo;
      hex2str_loop src' (i + 1) out
  end.

(** [hex2str]: the returned count and the output buffer; [out_len - 1] is a
    [size_t], so an [out_len] of 0 passes the test. *)
Definition hex2str (src : list Z) (in_len : Z) (out : list Z) (out_len : Z)
    : res (Z * list Z) :=
  if u64 (out_len - 1) <? u64 (in_len * 2) then mret (0, out) else
  src ← rd_range src 0 in_len;
  out ← hex2str_loop src 0 out;
  out ← wr out (in_len * 2) 0;
  mret (in_len, out).

(** ** Status names *)
Open Scope string_scope.
Definition mesh_status_str (status : Z) : string :=
  match status with
  | 0x00 => "Success"
  | 0x01 => "Invalid Address"
  | 0x02 => "Invalid Model"
  | 0x03 => "Invalid AppKey"
  | 0x04 => "Invalid NetKey"
  | 0x05 => "Insufficient Resources"
  | 0x06 => "Key Idx Already Stored"
  | 0x07 => "Invalid Publish Parameters"
  | 0x08 => "Not a Subscribe Model"
  | 0x09 => "Storage Failure"
  | 0x0a => "Feature Not Supported"
  | 0x0b => "Cannot Update"
  | 0x0c => "Cannot Remove"
  | 0x0d => "Cannot bind"
  | 0x0e => "Unable to change state"
  | 0x0f => "Cannot set"
  | 0x10 => "Unspecified error"
  | 0x11 => "Invalid Binding"
  | _ => "Unknown"
  end.
Close Scope string_scope.

(** ** Numbers typed by the user

    [sscanf] with ["%02hhx"]: white space, an optional sign, then at most two
    characters; ["0x"] alone is no number. *)
Definition is_space (c : Z) : bool := (c =? 32) || (9 <=? c) && (c <=? 13).
Fixpoint skip_spaces (s : list Z) : list Z :=
  match s with c :: s' => if is_space c then skip_spaces s' else s | [] => [] end.
Definition is_digit (c : Z) : bool := (48 <=? c) && (c <=? 57).
Definition hex_digit (c : Z) : option Z :=
  if is_digit c then Some (c - 48)
  else if (97 <=? c) && (c <=? 102) then Some (c - 87)
  else if (65 <=? c) && (c <=? 70) then Some (c - 55) else None.
Definition is_sign (c : Z) : bool := (c =? 43) || (c =? 45).
Definition scan_hex (s : list Z) : option Z :=
  match skip_spaces s with
  | [] => None
  | c :: t =>
      if is_sign c then
        match t with
        | d :: _ => (fun v => u8 (if c =? 45 then - v else v)) <$> hex_digit d
        | [] => None
        end
      else
        match hex_digit c with
        | None => None
        | Some v =>
            match t with
            | [] => Some v
            | d :: _ =>
                match hex_digit d with
                | Some w => Some (16 * v + w)
                | None => if (v =? 0) && ((d =? 120) || (d =? 88)) then None else Some v
                end
            end
        end
  end.

(** [n] more octets of [str2hex], from [str] on. *)
Fixpoint str2hex_loop (n : nat) (str : list Z) : option (list Z) :=
  match n with
  | O => Some []
  | S n' => v ← scan_hex str; rest ← str2hex_loop n' (drop 2 str); Some (v :: rest)
  end.
(** The octets, or [None] where the function returns false. *)
Definition str2hex (str : list Z) (in_len out_len : Z) : option (list Z) :=
  if in_len <? out_len * 2 then None else str2hex_loop (Z.to_nat out_len) str.

(** What [str2hex] stores, and whether it goes through. *)
Fixpoint hex_written (n : nat) (str : list Z) : list Z * bool :=
  match n with
  | O => ([], true)
  | S n' =>
      match scan_hex str with
      | None => ([], false)
      | Some v => let '(l, ok) := hex_written n' (drop 2 str) in (v :: l, ok)
      end
  end.

Fixpoint digits_value (s : list Z) (acc : Z) : Z :=
  match s with
  | c :: s' => if is_digit c then digits_value s' (10 * acc + (c - 48)) else acc
  | [] => acc
  end.
(** [atoi], on a number an [int] holds. *)
Definition atoi (s : list Z) : Z :=
  match skip_spaces s with
  | [] => 0
  | c :: t =>
      if is_sign c then (if c =? 45 then - digits_value t 0 else digits_value t 0)
      else digits_value (c :: t) 0
  end.

(** ** Numbers of the C library

    [strtol] on a 64-bit host: white space, a sign, for base 16 an optional ["0x"]
    before a digit, then digits; the value, which is clamped, and the number of
    characters up to [*endptr]. *)
Fixpoint scan_digits (base : Z) (s : list Z) (acc cnt : Z) : Z * Z :=
  match s with
  | [] => (acc, cnt)
  | c :: s' =>
      match hex_digit c with
      | Some d => if d <? base then scan_digits base s' (base * acc + d) (cnt + 1) else (acc, cnt)
      | None => (acc, cnt)
      end
  end.
Definition clamp_long (v : Z) : Z := Z.max (- 2 ^ 63) (Z.min (2 ^ 63 - 1) v).
Definition hex_prefix (base : Z) (s : list Z) : Z :=
  match s with
  | z :: x :: d :: _ =>
      if (base =? 16) && (z =? 48) && ((x =? 120) || (x =? 88)) &&
        (match hex_digit d with Some _ => true | None => false end) then 2 else 0
  | _ => 0
  end.
Definition sign_len (s : list Z) : Z := match s with c :: _ => if is_sign c then 1 else 0 | [] => 0 end.
Definition is_negative (s : list Z) : bool := match s with c :: _ => c =? 45 | [] => false end.
Definition strtol (base : Z) (s : list Z) : Z * Z :=
  let t := skip_spaces s in
  let sgn := sign_len t in
  let digits := drop (Z.to_nat sgn) t in
  let pre := hex_prefix base digits in
  let '(v, cnt) := scan_digits base (drop (Z.to_nat pre) digits) 0 0 in
  if cnt =? 0 then (0, 0)
  else (clamp_long (if is_negative t then - v else v), (len s - len t) + sgn + pre + cnt).
(** [sscanf] with ["%d"] into an object of 32 bits: what is stored, if anything. *)
Definition scan_int (s : list Z) : option Z :=
  let '(v, n) := strtol 10 s in if n =? 0 then None else Some (u32 v).

(** ** Helpers of the provisioner *)

(** [u16_highest_bit]: the [while] loop shifts at most fifteen times. *)
Fixpoint highest_bit_loop (fuel : nat) (mask cnt : Z) : res Z :=
  if truth (Z.land mask 0xfffe) then
    match fuel with
    | O => Fault OutOfFuel
    | S fuel' => highest_bit_loop fuel' (Z.shiftr mask 1) (u8 (cnt + 1))
    end
  else mret cnt.

Definition u16_highest_bit (mask : Z) : res Z :=
  if mask =? 0 then mret 0xff else highest_bit_loop 15 mask 0.

(** [power_ten]: [power--] is tested before the decrement. *)
Fixpoint power_ten_loop (power : nat) (ret : Z) : Z :=
  match power with
  | O => ret
  | S p => power_ten_loop p (u32 (ret * 10))
  end.
Definition power_ten (power : Z) : Z := power_ten_loop (Z.to_nat power) 1.

(** ** Properties *)

Section Opcode.

Lemma opcode_b0_class b :
  is_u8 b ->
  Z.land b 0xc0 = if b <? 0x40 then 0 else if b <? 0x80 then 0x40
                  else if b <? 0xc0 then 0x80 else 0xc0.
Proof. intros H. by_evaluation b. Qed.

Lemma rd_0 (x : Z) l : rd (x :: l) 0 = Ok x.
Proof. done. Qed.
Lemma be16_at x y l : get_be16 (x :: y :: l) 0 = Ok (x * 0x100 + y).
Proof.
  unfold get_be16. rewrite rd_range_ok; [done | lia | lia |].
  unfold len. simpl. lia.
Qed.
Lemma be16_at1 x y z l : get_be16 (x :: y :: z :: l) 1 = Ok (y * 0x100 + z).
Proof.
  unfold get_be16. rewrite rd_range_ok; [done | lia | lia |].
  unfold len. simpl. lia.
Qed.

Lemma put_be16_at v x y l : put_be16 v (x :: y :: l) 0 = Ok (to_be 2 v ++ l).
Proof. exact (wr_range_mid [] [x; y] l (to_be 2 v) 0 eq_refl eq_refl). Qed.
Lemma put_be16_at1 v x y z l :
  put_be16 v (x :: y :: z :: l) 1 = Ok (x :: to_be 2 v ++ l).
Proof. exact (wr_range_mid [x] [y; z] l (to_be 2 v) 1 eq_refl eq_refl). Qed.

Lemma lor_shiftl16 a b : is_u16 a -> 0 <= b -> Z.lor a (Z.shiftl b 16) = b * 0x10000 + a.
Proof.
  intros Ha Hb. rewrite lor_shiftl_add by (simpl; lia). simpl. lia.
Qed.

(** The top octet of a three-octet opcode. *)
Lemma opcode_byte2 op :
  0xc00000 <= op <= 0xffffff -> Z.land (Z.shiftr op 16) 0xff = op / 0x10000.
Proof.
  intros. rewrite Z.shiftr_div_pow2 by lia. change 0xff with (2 ^ 8 - 1).
  rewrite land_ones_mod by lia. change (2 ^ 16) with 0x10000. change (2 ^ 8) with 256.
  zlia.
Qed.

Lemma opcode_get_one op l sz :
  0 <= op <= 0x7e -> 1 <= sz -> mesh_opcode_get (op :: l) sz = Ok (Some (op, 1)).
Proof.
  intros Hop Hsz. unfold mesh_opcode_get. rewrite (proj2 (Z.ltb_ge sz 1)) by lia.
  rewrite rd_0. simpl. rewrite opcode_b0_class by lia.
  rewrite (proj2 (Z.ltb_lt op 0x80)) by lia.
  rewrite (proj2 (Z.eqb_neq op 0x7f)) by lia. by destruct (op <? 0x40).
Qed.

Lemma opcode_get_two op l sz :
  0x8000 <= op <= 0xbfff -> 2 <= sz ->
  mesh_opcode_get (to_be 2 op ++ l) sz = Ok (Some (op, 2)).
Proof.
  intros Hop Hsz. unfold mesh_opcode_get. rewrite (proj2 (Z.ltb_ge sz 1)) by lia.
  simpl to_be. simpl app. rewrite rd_0, be16_at. simpl.
  rewrite opcode_b0_class by zlia.
  rewrite (proj2 (Z.ltb_ge _ 0x40)), (proj2 (Z.ltb_ge _ 0x80)),
    (proj2 (Z.ltb_lt _ 0xc0)) by zlia.
  simpl. rewrite (proj2 (Z.ltb_ge sz 2)) by lia. do 3 f_equal. zlia.
Qed.

Lemma opcode_get_three op l sz :
  0xc00000 <= op <= 0xffffff -> 3 <= sz ->
  mesh_opcode_get (op / 0x10000 :: to_be 2 (u16 op) ++ l) sz = Ok (Some (op, 3)).
Proof.
  intros Hop Hsz. unfold mesh_opcode_get. rewrite (proj2 (Z.ltb_ge sz 1)) by lia.
  simpl to_be. simpl app. rewrite rd_0, be16_at1. simpl.
  rewrite opcode_b0_class by zlia.
  rewrite (proj2 (Z.ltb_ge _ 0x40)), (proj2 (Z.ltb_ge _ 0x80)),
    (proj2 (Z.ltb_ge _ 0xc0)) by zlia.
  simpl. rewrite (proj2 (Z.ltb_ge sz 3)) by lia. do 3 f_equal.
  unfold u16. rewrite lor_shiftl16 by zlia. zlia.
Qed.

End Opcode.

(** Decoding an encoded opcode returns it.  For every opcode that has an
    encoding and every buffer with room for three octets, [mesh_opcode_get]
    applied to what [mesh_opcode_set] wrote returns the opcode and the number of
    octets written, whatever follows in the message. *)
Theorem opcode_set_get op buf sz :
  opcode_legal op = true -> 3 <= len buf -> 3 <= sz ->
  exists n buf', mesh_opcode_set op buf = Ok (n, buf') /\ 1 <= n <= 3 /\
    len buf' = len buf /\ mesh_opcode_get buf' sz = Ok (Some (op, n)).
Proof.
  intros Hop Hb Hsz.
  destruct buf as [|x [|y [|z l]]]; try (unfold len in Hb; simpl in Hb; lia).
  unfold opcode_legal in Hop. unfold mesh_opcode_set.
  apply orb_true_iff in Hop as [Hop|Hop]; [apply orb_true_iff in Hop as [Hop|Hop]|];
    bool_hyps.
  - rewrite (proj2 (Z.leb_le op _)) by lia.
    exists 1, (op :: y :: z :: l). rewrite u8_small by lia.
    split; [|split; [lia | split]].
    + rewrite wr_ok by (pose proof (len_nonneg l); autorewrite with buf in *; lia). done.
    + by rewrite !len_cons.
    + apply opcode_get_one; lia.
  - rewrite (proj2 (Z.leb_gt op _)) by lia.
    rewrite (proj2 (Z.leb_le _ _)), (proj2 (Z.leb_le _ _)) by lia.
    exists 2, (to_be 2 op ++ z :: l). rewrite u16_small by lia.
    split; [|split; [lia | split]].
    + by rewrite put_be16_at.
    + rewrite len_app, len_to_be, !len_cons. lia.
    + apply opcode_get_two; lia.
  - rewrite (proj2 (Z.leb_gt op _)) by lia.
    rewrite (proj2 (Z.leb_gt op 0xbfff)), andb_false_r by lia.
    rewrite (proj2 (Z.leb_le _ _)), (proj2 (Z.leb_le _ _)) by lia.
    exists 3, (op / 0x10000 :: to_be 2 (u16 op) ++ l).
    split; [|split; [lia | split]].
    + rewrite wr_ok by (pose proof (len_nonneg l); autorewrite with buf in *; lia).
      simpl. rewrite opcode_byte2 by lia.
      by rewrite put_be16_at1.
    + rewrite len_cons, len_app, len_to_be, !len_cons. lia.
    + apply opcode_get_three; lia.
Qed.

Lemma opcode_set_get_witness :
  exists n buf', mesh_opcode_set 0x8018 (rep 32 0) = Ok (n, buf') /\ 1 <= n <= 3 /\
    len buf' = len (rep 32 0) /\ mesh_opcode_get buf' 11 = Ok (Some (0x8018, n)).
Proof. apply (opcode_set_get 0x8018 (rep 32 0) 11); by vm_compute. Defined.
