(* ===== verification/Words.v ===== *)
(** * Numbers in words

    Numbers as [printf] writes them, and that [strtol], [sscanf] and [str2hex] read
    them back. *)

From S2P Require Import Prelude Bytes Util.

(** [n] digits of [v], as [printf] writes them with [%n.nx] for base 16. *)
Definition digit_char (d : Z) : Z := if d <? 10 then 48 + d else 87 + d.
Fixpoint digits (base : Z) (n : nat) (v : Z) : list Z :=
  match n with
  | O => []
  | S n' => digit_char (v / base ^ Z.of_nat n' mod base) :: digits base n' v
  end.

Lemma hex_digit_char d : 0 <= d < 16 -> hex_digit (digit_char d) = Some d.
Proof.
  intros Hd. pose proof (all_below_spec 16 (fun d => bool_decide (hex_digit (digit_char d) = Some d)) d
    ltac:(by vm_compute) Hd) as H. by apply bool_decide_eq_true in H.
Qed.

Lemma digit_char_plain d : 0 <= d < 16 -> is_space (digit_char d) = false /\ is_sign (digit_char d) = false.
Proof.
  intros Hd. pose proof (all_below_spec 16 (fun d => negb (is_space (digit_char d)) && negb (is_sign (digit_char d)))
    d ltac:(by vm_compute) Hd) as H. cbn beta in H. by bool_hyps.
Qed.

Lemma scan_digits_spec base n v acc cnt : 2 <= base <= 16 -> 0 <= v ->
  scan_digits base (digits base n v) acc cnt =
  (acc * base ^ Z.of_nat n + v mod base ^ Z.of_nat n, cnt + Z.of_nat n).
Proof.
  intros Hb Hv. revert acc cnt. induction n as [|n IH]; intros acc cnt.
  - cbn. rewrite Z.mod_1_r. f_equal; lia.
  - cbn [digits scan_digits]. set (d := v / base ^ Z.of_nat n mod base).
    assert (Hd : 0 <= d < base) by (apply Z.mod_pos_bound; lia).
    rewrite hex_digit_char by lia. rewrite (proj2 (Z.ltb_lt d base)) by lia. rewrite IH.
    rewrite Nat2Z.inj_succ, Z.pow_succ_r by lia. f_equal; [|lia].
    assert (0 < base ^ Z.of_nat n) by (apply Z.pow_pos_nonneg; lia).
    rewrite (Z.mul_comm base (_ ^ _)), Z.rem_mul_r by lia. fold d. ring.
Qed.

Lemma scan_digits_len n base v : length (digits base n v) = n.
Proof. induction n; cbn; congruence. Qed.

(** Digits read back, in both bases; in base 16 there is no prefix to mistake. *)
Lemma hex_prefix_digits base n v : 2 <= base <= 16 -> hex_prefix base (digits base n v) = 0.
Proof.
  intros Hb. destruct n as [|[|[|n]]]; try done. cbn [digits hex_prefix].
  set (x := v / base ^ Z.of_nat (S n) mod base).
  assert (Hx : 0 <= x < 16) by (pose proof (Z.mod_pos_bound (v / base ^ Z.of_nat (S n)) base); lia).
  pose proof (all_below_spec 16 (fun d => negb ((digit_char d =? 120) || (digit_char d =? 88))) x
    ltac:(by vm_compute) Hx) as H. cbn beta in H. apply negb_true_iff in H. rewrite H.
  by rewrite andb_false_r.
Qed.

Lemma strtol_digits base n v : 2 <= base <= 16 -> 0 <= v < base ^ Z.of_nat (S n) -> v < 2 ^ 63 ->
  strtol base (digits base (S n) v) = (v, Z.of_nat (S n)).
Proof.
  intros Hb Hv Hl. unfold strtol.
  assert (Hs : skip_spaces (digits base (S n) v) = digits base (S n) v /\
    sign_len (digits base (S n) v) = 0 /\ is_negative (digits base (S n) v) = false).
  { cbn [digits skip_spaces sign_len is_negative]. set (d := _ mod base).
    assert (Hd : 0 <= d < 16) by (pose proof (Z.mod_pos_bound (v / base ^ Z.of_nat n) base); unfold d; lia).
    destruct (digit_char_plain d Hd) as [H1 H2]. rewrite H1, H2. split_and!; [done..|].
    unfold is_sign in H2. by apply orb_false_iff in H2 as [_ ?]. }
  destruct Hs as (-> & -> & ->). change (drop (Z.to_nat 0)) with (fun l : list Z => l). cbn beta.
  rewrite hex_prefix_digits by done. change (drop (Z.to_nat 0)) with (fun l : list Z => l). cbn beta.
  rewrite scan_digits_spec by lia. rewrite (proj2 (Z.eqb_neq _ 0)) by lia.
  rewrite Z.mod_small by done. unfold clamp_long. f_equal; lia.
Qed.

Lemma scan_int_digits n v : 0 <= v < 10 ^ Z.of_nat (S n) -> is_u32 v ->
  scan_int (digits 10 (S n) v) = Some v.
Proof.
  intros Hv Hu. unfold scan_int. rewrite strtol_digits by lia.
  rewrite (proj2 (Z.eqb_neq _ 0)) by lia. by rewrite u32_small.
Qed.

(** Two hexadecimal digits read back as the octet. *)
Lemma scan_hex_digits v t : is_u8 v -> scan_hex (digits 16 2 v ++ t) = Some v.
Proof.
  intros Hv. cbn [digits app]. change (16 ^ Z.of_nat 1) with 16. change (16 ^ Z.of_nat 0) with 1.
  rewrite Z.div_1_r. set (hi := v / 16 mod 16). set (lo := v mod 16).
  assert (Hhi : 0 <= hi < 16) by (unfold hi; zlia). assert (Hlo : 0 <= lo < 16) by (unfold lo; zlia).
  unfold scan_hex. cbn [skip_spaces]. destruct (digit_char_plain hi Hhi) as [-> ->].
  rewrite !hex_digit_char by done. f_equal. unfold hi, lo. zlia.
Qed.

(** Octets in hexadecimal, and [str2hex] of them. *)
Definition hex_text (key : list Z) : list Z := concat (digits 16 2 <$> key).

Lemma len_hex_text key : len (hex_text key) = 2 * len key.
Proof.
  unfold hex_text. induction key as [|b key IH]; [done|]. rewrite fmap_cons. cbn [concat].
  rewrite len_app, IH, len_cons. unfold len at 1. rewrite scan_digits_len. lia.
Qed.

Lemma hex_written_text key t : bytes key -> hex_written (length key) (hex_text key ++ t) = (key, true).
Proof.
  unfold hex_text. induction 1 as [|b key Hb _ IH]; [done|]. rewrite fmap_cons. cbn [concat length hex_written].
  rewrite <-app_assoc, scan_hex_digits by done. rewrite drop_app_length' by (by rewrite scan_digits_len). by rewrite IH.
Qed.
