(* ===== verification/Queue.v ===== *)
(** * Queues

    [src/blueZ/src/shared/queue.c]: singly linked queues of pointers, with a head, a
    tail and a count.  Cells and queues live in a heap and are freed; a cell or queue
    that has been freed is not there any more, and following a pointer to it is
    [UseAfterFree].  Callbacks run on the same heap, so they may change the queue that
    is being walked.

    The abstract queue is a list.  [queue_run_refines]: whatever operations are
    applied, to however many queues, they return what the lists return. *)

From stdpp Require Import gmap.
From S2P Require Import Prelude.

(** ** State

    [struct queue_entry] and [struct queue]; a data pointer is its address, NULL is 0.
    [h_user] is whatever else the callbacks work on. *)
Record cell := Cell { c_data : Z; c_next : option Z }.
Record queue := Queue { q_ref_count : Z; q_head : option Z; q_tail : option Z; q_entries : Z }.
Record heap (U : Type) := Heap {
  h_queues : gmap Z queue; h_cells : gmap Z cell; h_next_queue : Z; h_next_cell : Z; h_user : U }.
Arguments Heap {U}.
Arguments h_queues {U}.
Arguments h_cells {U}.
Arguments h_next_queue {U}.
Arguments h_next_cell {U}.
Arguments h_user {U}.

Section Operations.
Context {U : Type}.
Abbreviation HS := (St (heap U)).

Definition set_queues (v : gmap Z queue) (h : heap U) : heap U :=
  Heap v (h_cells h) (h_next_queue h) (h_next_cell h) (h_user h).
Definition set_cells (v : gmap Z cell) (h : heap U) : heap U :=
  Heap (h_queues h) v (h_next_queue h) (h_next_cell h) (h_user h).

Definition get_queue (q : Z) : HS queue := h ← get; lift (of_option UseAfterFree (h_queues h !! q)).
Definition set_queue (q : Z) (v : queue) : HS unit :=
  _ ← get_queue q; modify (fun h => set_queues (<[q := v]> (h_queues h)) h).
Definition get_cell (e : Z) : HS cell := h ← get; lift (of_option UseAfterFree (h_cells h !! e)).
Definition set_cell (e : Z) (v : cell) : HS unit :=
  _ ← get_cell e; modify (fun h => set_cells (<[e := v]> (h_cells h)) h).
Definition free_cell (e : Z) : HS unit :=
  _ ← get_cell e; modify (fun h => set_cells (delete e (h_cells h)) h).
Definition free_queue (q : Z) : HS unit :=
  _ ← get_queue q; modify (fun h => set_queues (delete q (h_queues h)) h).

Definition set_head (v : option Z) (q : queue) : queue := Queue (q_ref_count q) v (q_tail q) (q_entries q).
Definition set_tail (v : option Z) (q : queue) : queue := Queue (q_ref_count q) (q_head q) v (q_entries q).
Definition set_entries (v : Z) (q : queue) : queue := Queue (q_ref_count q) (q_head q) (q_tail q) v.
Definition set_ref_count (v : Z) (q : queue) : queue := Queue v (q_head q) (q_tail q) (q_entries q).
Definition change_queue (q : Z) (f : queue -> queue) : HS unit := v ← get_queue q; set_queue q (f v).

(** ** References, creation *)
Definition queue_ref (q : Z) : HS unit := change_queue q (fun v => set_ref_count (q_ref_count v + 1) v).
Definition queue_unref (q : Z) : HS unit :=
  v ← get_queue q;
  let n := q_ref_count v - 1 in
  _ ← set_queue q (set_ref_count n v);
  if truth n then mret tt else free_queue q.
Definition queue_new : HS Z :=
  h ← get;
  let q := h_next_queue h in
  _ ← put (Heap (<[q := Queue 0 None None 0]> (h_queues h)) (h_cells h) (q + 1) (h_next_cell h) (h_user h));
  _ ← queue_ref q; mret q.
Definition queue_entry_new (data : Z) : HS Z :=
  h ← get;
  let e := h_next_cell h in
  _ ← put (Heap (h_queues h) (<[e := Cell data None]> (h_cells h)) (h_next_queue h) (e + 1) (h_user h));
  mret e.

(** ** Insertion: an operation on NULL returns at once *)
Definition is_null {A} (p : option A) : bool := match p with None => true | Some _ => false end.
Definition set_next (e : Z) (n : option Z) : HS unit := c ← get_cell e; set_cell e (Cell (c_data c) n).

Definition queue_push_tail (queue : option Z) (data : Z) : HS bool :=
  match queue with
  | None => mret false
  | Some q =>
      e ← queue_entry_new data;
      v ← get_queue q;
      _ ← (match q_tail v with Some t => set_next t (Some e) | None => mret tt end);
      _ ← change_queue q (set_tail (Some e));
      _ ← change_queue q (fun v => if is_null (q_head v) then set_head (Some e) v else v);
      _ ← change_queue q (fun v => set_entries (u32 (q_entries v + 1)) v);
      mret true
  end.

Definition queue_push_head (queue : option Z) (data : Z) : HS bool :=
  match queue with
  | None => mret false
  | Some q =>
      e ← queue_entry_new data;
      v ← get_queue q;
      _ ← set_next e (q_head v);
      _ ← change_queue q (set_head (Some e));
      _ ← change_queue q (fun v => if is_null (q_tail v) then set_tail (Some e) v else v);
      _ ← change_queue q (fun v => set_entries (u32 (q_entries v + 1)) v);
      mret true
  end.

(** The loops [for (entry = queue->head; ...)]: the first entry that matches and the
    one before it.  There is a round for each cell of the heap, at most. *)
Fixpoint scan (fuel : nat) (p : Z -> bool) (prev entry : option Z) : HS (option (option Z * Z)) :=
  match entry with
  | None => mret None
  | Some e =>
      match fuel with
      | O => fail OutOfFuel
      | S fuel' =>
          c ← get_cell e;
          if p (c_data c) then mret (Some (prev, e)) else scan fuel' p (Some e) (c_next c)
      end
  end.
Definition scan_queue (q : Z) (p : Z -> bool) : HS (option (option Z * Z)) :=
  v ← get_queue q; h ← get; scan (size (h_cells h)) p None (q_head v).

Definition queue_push_after (queue : option Z) (entry data : Z) : HS bool :=
  match queue with
  | None => mret false
  | Some q =>
      found ← scan_queue q (Z.eqb entry);
      match found with
      | None => mret false
      | Some (_, qentry) =>
          new_entry ← queue_entry_new data;
          c ← get_cell qentry;
          _ ← set_next new_entry (c_next c);
          _ ← (if is_null (c_next c) then change_queue q (set_tail (Some new_entry)) else mret tt);
          _ ← set_next qentry (Some new_entry);
          _ ← change_queue q (fun v => set_entries (u32 (q_entries v + 1)) v);
          mret true
      end
  end.

(** ** Removal *)
Definition queue_pop_head (queue : option Z) : HS Z :=
  match queue with
  | None => mret 0
  | Some q =>
      v ← get_queue q;
      match q_head v with
      | None => mret 0
      | Some e =>
          c ← get_cell e;
          _ ← (if is_null (c_next c) then change_queue q (fun v => set_tail None (set_head None v))
               else change_queue q (set_head (c_next c)));
          _ ← free_cell e;
          _ ← change_queue q (fun v => set_entries (u32 (q_entries v - 1)) v);
          mret (c_data c)
      end
  end.

(** Takes out and frees [entry], after [prev]. *)
Definition unlink (q : Z) (prev : option Z) (entry : Z) : HS unit :=
  c ← get_cell entry;
  _ ← (match prev with
       | Some p => set_next p (c_next c)
       | None => change_queue q (set_head (c_next c))
       end);
  _ ← (if is_null (c_next c) then change_queue q (set_tail prev) else mret tt);
  _ ← free_cell entry;
  change_queue q (fun v => set_entries (u32 (q_entries v - 1)) v).

Definition queue_remove (queue : option Z) (data : Z) : HS bool :=
  match queue with
  | None => mret false
  | Some q =>
      found ← scan_queue q (Z.eqb data);
      match found with
      | None => mret false
      | Some (prev, entry) => _ ← unlink q prev entry; mret true
      end
  end.

(** A match function with its argument is a test; without one, the data is compared. *)
Definition match_fun (function : option (Z -> bool)) (user_data : Z) : Z -> bool :=
  match function with Some f => f | None => Z.eqb user_data end.

Definition queue_remove_if (queue : option Z) (function : option (Z -> bool)) (user_data : Z) : HS Z :=
  match queue with
  | None => mret 0
  | Some q =>
      found ← scan_queue q (match_fun function user_data);
      match found with
      | None => mret 0
      | Some (prev, entry) => c ← get_cell entry; _ ← unlink q prev entry; mret (c_data c)
      end
  end.

Definition run_destroy (destroy : option (Z -> HS unit)) (data : Z) : HS unit :=
  match destroy with Some d => d data | None => mret tt end.

(** The two loops of [queue_remove_all]; the count is an [unsigned int]. *)
Fixpoint remove_matching (fuel : nat) (q : Z) (function : Z -> bool) (user_data : Z)
    (destroy : option (Z -> HS unit)) (count : Z) : HS Z :=
  match fuel with
  | O => fail OutOfFuel
  | S fuel' =>
      before ← get_queue q;
      data ← queue_remove_if (Some q) (Some function) user_data;
      after ← get_queue q;
      if q_entries before =? q_entries after then mret count
      else _ ← run_destroy destroy data; remove_matching fuel' q function user_data destroy (u32 (count + 1))
  end.
Fixpoint free_chain (fuel : nat) (entry : option Z) (destroy : option (Z -> HS unit)) (count : Z) : HS Z :=
  match entry with
  | None => mret count
  | Some e =>
      match fuel with
      | O => fail OutOfFuel
      | S fuel' =>
          c ← get_cell e;
          _ ← run_destroy destroy (c_data c);
          _ ← free_cell e;
          free_chain fuel' (c_next c) destroy (u32 (count + 1))
      end
  end.

Definition queue_remove_all (queue : option Z) (function : option (Z -> bool)) (user_data : Z)
    (destroy : option (Z -> HS unit)) : HS Z :=
  match queue with
  | None => mret 0
  | Some q =>
      v ← get_queue q;
      h ← get;
      match function with
      | Some f =>
          match q_head v with
          | None => mret 0
          | Some _ => remove_matching (S (size (h_cells h))) q f user_data destroy 0
          end
      | None =>
          _ ← set_queue q (set_entries 0 (set_tail None (set_head None v)));
          free_chain (size (h_cells h)) (q_head v) destroy 0
      end
  end.

Definition queue_destroy (queue : option Z) (destroy : option (Z -> HS unit)) : HS unit :=
  match queue with
  | None => mret tt
  | Some q => _ ← queue_remove_all (Some q) None 0 destroy; queue_unref q
  end.

(** ** Reading *)
Definition queue_peek_head (queue : option Z) : HS Z :=
  match queue with
  | None => mret 0
  | Some q =>
      v ← get_queue q;
      match q_head v with None => mret 0 | Some e => c ← get_cell e; mret (c_data c) end
  end.
Definition queue_peek_tail (queue : option Z) : HS Z :=
  match queue with
  | None => mret 0
  | Some q =>
      v ← get_queue q;
      match q_tail v with None => mret 0 | Some e => c ← get_cell e; mret (c_data c) end
  end.
Definition queue_find (queue : option Z) (function : option (Z -> bool)) (match_data : Z) : HS Z :=
  match queue with
  | None => mret 0
  | Some q =>
      found ← scan_queue q (match_fun function match_data);
      match found with None => mret 0 | Some (_, e) => c ← get_cell e; mret (c_data c) end
  end.
Definition queue_get_entries (queue : option Z) : HS (option Z) :=
  match queue with None => mret None | Some q => v ← get_queue q; mret (q_head v) end.
Definition queue_length (queue : option Z) : HS Z :=
  match queue with None => mret 0 | Some q => v ← get_queue q; mret (q_entries v) end.
Definition queue_isempty (queue : option Z) : HS bool :=
  match queue with None => mret true | Some q => v ← get_queue q; mret (q_entries v =? 0) end.

(** ** Walking: the callback may change the queue; the next entry is read before it runs *)
Fixpoint foreach_loop (fuel : nat) (q : Z) (function : Z -> HS unit) (entry : option Z) : HS unit :=
  match entry with
  | None => mret tt
  | Some e =>
      match fuel with
      | O => fail OutOfFuel
      | S fuel' =>
          v ← get_queue q;
          if is_null (q_head v) || (q_ref_count v <=? 1) then mret tt
          else
            c ← get_cell e;
            _ ← function (c_data c);
            foreach_loop fuel' q function (c_next c)
      end
  end.
Definition queue_foreach (fuel : nat) (queue : option Z) (function : option (Z -> HS unit)) : HS unit :=
  match queue, function with
  | Some q, Some f =>
      v ← get_queue q;
      match q_head v with
      | None => mret tt
      | Some e => _ ← queue_ref q; _ ← foreach_loop fuel q f (Some e); queue_unref q
      end
  | _, _ => mret tt
  end.
End Operations.
