(* ===== verification/QueueFacts.v ===== *)
(** * Queues are lists

    The refinement of [Queue]: every operation on the linked cells of the heap does to
    the list of a queue what its name says, and leaves all other queues alone. *)

From stdpp Require Import gmap.
From S2P Require Import Prelude Queue.

(** ** Chains of cells

    [seg cs p l q]: from the pointer [p], the cells of [l] follow each other up to [q]. *)
Fixpoint seg (cs : gmap Z cell) (p : option Z) (l : list (Z * Z)) (q : option Z) : Prop :=
  match l with
  | [] => p = q
  | (e, d) :: l' => p = Some e /\ exists n, cs !! e = Some (Cell d n) /\ seg cs n l' q
  end.
Definition ids (l : list (Z * Z)) : list Z := fst <$> l.
Arguments ids : simpl never.
Definition first_id (l : list (Z * Z)) : option Z := fst <$> head l.
Definition last_id (l : list (Z * Z)) : option Z := fst <$> last l.
Arguments first_id : simpl never.
Arguments last_id : simpl never.
Definition head_or (l : list (Z * Z)) (q : option Z) : option Z :=
  match l with (e, _) :: _ => Some e | [] => q end.

Lemma seg_head cs p l q : seg cs p l q -> p = head_or l q.
Proof. destruct l as [|[e d] l]; [done | by intros [-> _]]. Qed.

Lemma seg_app cs p l1 l2 q :
  seg cs p (l1 ++ l2) q <-> exists r, seg cs p l1 r /\ seg cs r l2 q.
Proof.
  revert p. induction l1 as [|[e d] l1 IH]; intros p; cbn [app seg].
  - split; [intros H; by exists p | by intros (r & -> & H)].
  - split.
    + intros (-> & n & Hn & (r & H1 & H2)%IH). exists r. eauto.
    + intros (r & (-> & n & Hn & H1) & H2). split; [done|]. exists n. split; [done|].
      apply IH. eauto.
Qed.

Lemma seg_frame cs cs' p l q :
  (∀ e, e ∈ ids l -> cs' !! e = cs !! e) -> seg cs p l q -> seg cs' p l q.
Proof.
  revert p. induction l as [|[e d] l IH]; intros p Hf; [done|]. cbn [seg].
  intros (-> & n & Hn & Hl). split; [done|]. exists n. split.
  - rewrite Hf; [done | by left].
  - apply IH; [|done]. intros x Hx. apply Hf. by right.
Qed.

Lemma seg_dom cs p l q e : seg cs p l q -> e ∈ ids l -> e ∈ dom cs.
Proof.
  revert p. induction l as [|[x d] l IH]; intros p; [by intros _ ?%elem_of_nil|].
  cbn [seg]. intros (-> & n & Hn & Hl) [->|He]%elem_of_cons; [by apply elem_of_dom_2 in Hn | eauto].
Qed.

Lemma seg_cell cs p l1 e d l2 q :
  seg cs p (l1 ++ (e, d) :: l2) q -> cs !! e = Some (Cell d (head_or l2 q)).
Proof.
  rewrite seg_app. intros (r & _ & -> & n & Hn & Hl). by rewrite (seg_head _ _ _ _ Hl) in Hn.
Qed.

(** The cell [e] gets a new successor. *)
Lemma seg_relink cs p l1 e d rest q n l2 q' :
  seg cs p (l1 ++ (e, d) :: rest) q -> e ∉ ids l1 -> seg (<[e := Cell d n]> cs) n l2 q' ->
  seg (<[e := Cell d n]> cs) p (l1 ++ (e, d) :: l2) q'.
Proof.
  rewrite !seg_app. intros (r & H1 & -> & _) He H2. exists (Some e). split.
  - eapply seg_frame; [|done]. intros x Hx. apply lookup_insert_ne. by intros ->.
  - split; [done|]. exists n. by rewrite lookup_insert_eq.
Qed.

Lemma seg_fresh cs p l q e c : e ∉ ids l -> seg cs p l q -> seg (<[e := c]> cs) p l q.
Proof. intros He. apply seg_frame. intros x Hx. apply lookup_insert_ne. by intros ->. Qed.
Lemma seg_delete cs p l q e : e ∉ ids l -> seg cs p l q -> seg (delete e cs) p l q.
Proof. intros He. apply seg_frame. intros x Hx. apply lookup_delete_ne. by intros ->. Qed.
Lemma ids_app l1 l2 : ids (l1 ++ l2) = ids l1 ++ ids l2.
Proof. apply fmap_app. Qed.
Lemma first_id_cons e d l : first_id ((e, d) :: l) = Some e.
Proof. done. Qed.
Lemma first_id_nil : first_id [] = None.
Proof. done. Qed.
Lemma first_id_some l1 e d l2 : exists f, first_id (l1 ++ (e, d) :: l2) = Some f.
Proof. destruct l1 as [|[f df] l1]; eauto. Qed.
Lemma last_id_cons2 x y l : last_id (x :: y :: l) = last_id (y :: l).
Proof. done. Qed.
Lemma ids_cons e d l : ids ((e, d) :: l) = e :: ids l.
Proof. done. Qed.
Lemma ids_nil : ids [] = [].
Proof. done. Qed.
Lemma first_id_app l1 l2 : first_id (l1 ++ l2) = match first_id l1 with Some e => Some e | None => first_id l2 end.
Proof. by destruct l1 as [|[e d] l1]. Qed.

(** The cell [e] is taken out, between [t] and what follows. *)
Lemma seg_unlink cs p l1 t dt e d l2 :
  seg cs p (l1 ++ (t, dt) :: (e, d) :: l2) None -> NoDup (ids (l1 ++ (t, dt) :: (e, d) :: l2)) ->
  seg (delete e (<[t := Cell dt (head_or l2 None)]> cs)) p (l1 ++ (t, dt) :: l2) None.
Proof.
  intros Hs Hn. rewrite ids_app, !ids_cons in Hn.
  apply NoDup_app in Hn as (_ & Hn2 & [Ht [He _]%NoDup_cons]%NoDup_cons).
  assert (Ht1 : t ∉ ids l1) by (intros H; apply (Hn2 t H); by left).
  assert (He1 : e ∉ ids l1) by (intros H; apply (Hn2 e H); right; by left).
  apply not_elem_of_cons in Ht as [Hte Ht]. apply seg_delete.
  - rewrite ids_app, ids_cons, not_elem_of_app, not_elem_of_cons. done.
  - eapply seg_relink; [done | done|]. apply seg_fresh; [done|].
    apply seg_app in Hs as (r & _ & _ & n & _ & _ & n' & _ & Hs). by rewrite <-(seg_head _ _ _ _ Hs).
Qed.

Lemma seg_rest cs p e d l q : seg cs p ((e, d) :: l) q -> seg cs (head_or l q) l q.
Proof. intros (_ & n & _ & Hl). by rewrite <-(seg_head _ _ _ _ Hl). Qed.

(** No more cells than the heap has. *)
Lemma seg_size cs p l q : seg cs p l q -> NoDup (ids l) -> (length l <= size cs)%nat.
Proof.
  intros Hl Hn. rewrite <-size_dom, <-(length_fmap fst l). change (fst <$> l) with (ids l). rewrite <-(size_list_to_set (C := gset Z) (ids l)) by done.
  apply subseteq_size. intros e He%elem_of_list_to_set. by eapply seg_dom.
Qed.

Lemma last_id_snoc l e d : last_id (l ++ [(e, d)]) = Some e.
Proof. unfold last_id. by rewrite last_snoc. Qed.
Lemma last_id_app_cons l1 x l2 : last_id (l1 ++ x :: l2) = last_id (x :: l2).
Proof. unfold last_id. by rewrite last_app_cons. Qed.
Lemma last_id_in l e : last_id l = Some e -> exists l' d, l = l' ++ [(e, d)].
Proof.
  destruct l as [|[e' d] l _] using rev_ind; [done|]. rewrite last_id_snoc. intros [= ->]. eauto.
Qed.
Lemma last_id_nil l : last_id l = None -> l = [].
Proof. destruct l as [|[e' d] l _] using rev_ind; [done | by rewrite last_id_snoc]. Qed.
Lemma last_id_cons e d l : exists f, last_id ((e, d) :: l) = Some f.
Proof. destruct (last_id ((e, d) :: l)) eqn:E; [eauto | by apply last_id_nil in E]. Qed.

(** The cells of a list with one more, and with one less. *)
Lemma ids_insert l l' n d :
  l' ≡ₚ (n, d) :: l -> NoDup (ids l) -> n ∉ ids l ->
  NoDup (ids l') /\ (∀ e, e ∈ ids l' -> e ∈ ids l \/ n <= e).
Proof.
  intros Hp%(fmap_Permutation fst) Hn Hfresh.
  change (ids l' ≡ₚ n :: ids l) in Hp. split; [rewrite Hp; by constructor|].
  intros e. rewrite Hp. intros [->|He]%elem_of_cons; [by right | by left].
Qed.
Lemma ids_remove l l' x : l ≡ₚ x :: l' -> NoDup (ids l) -> NoDup (ids l') /\ (∀ e, e ∈ ids l' -> e ∈ ids l).
Proof.
  intros Hp%(fmap_Permutation fst). change (ids l ≡ₚ fst x :: ids l') in Hp. rewrite Hp.
  intros [_ Hn]%NoDup_cons. split; [done|]. intros e He. rewrite Hp. by right.
Qed.

(** Cells allocated so far. *)
Definition below (cs : gmap Z cell) (n : Z) : Prop := ∀ e, e ∈ dom cs -> e < n.
Lemma below_insert cs n e c : e < n -> below cs n -> below (<[e := c]> cs) n.
Proof. intros He Hb x. rewrite dom_insert, elem_of_union, elem_of_singleton. intros [->|]; auto. Qed.
Lemma below_delete cs n e : below cs n -> below (delete e cs) n.
Proof. intros Hb x. rewrite dom_delete, elem_of_difference. intros [? _]. auto. Qed.
Lemma below_next cs n : below cs n -> below cs (n + 1).
Proof. intros Hb x Hx. specialize (Hb x Hx). lia. Qed.
Create HintDb queue.
#[export] Hint Resolve below_insert below_delete below_next : queue.
#[export] Hint Extern 2 (_ < _) => lia : queue.

(** ** The heap and what it stands for

    The abstract state gives each queue its references and its cells in order. *)
Record aqueue := AQueue { a_refs : Z; a_items : list (Z * Z) }.
Definition qv (a : aqueue) : queue :=
  Queue (a_refs a) (first_id (a_items a)) (last_id (a_items a)) (u32 (Z.of_nat (length (a_items a)))).

Section Rep.
Context {U : Type}.
Implicit Types (h : heap U) (m : gmap Z aqueue).

Record rep h m : Prop := Rep {
  rep_queues : h_queues h = qv <$> m;
  rep_seg : ∀ q a, m !! q = Some a -> seg (h_cells h) (first_id (a_items a)) (a_items a) None;
  rep_nodup : ∀ q a, m !! q = Some a -> NoDup (ids (a_items a));
  rep_disjoint : ∀ q1 q2 a1 a2, m !! q1 = Some a1 -> m !! q2 = Some a2 -> q1 <> q2 -> disjoint (ids (a_items a1)) (ids (a_items a2));
  rep_cells : below (h_cells h) (h_next_cell h);
  rep_fresh : ∀ q, q ∈ dom m -> q < h_next_queue h }.

Lemma rep_lookup h m q a : rep h m -> m !! q = Some a -> h_queues h !! q = Some (qv a).
Proof. intros Hr Ha. by rewrite (rep_queues _ _ Hr), lookup_fmap, Ha. Qed.

(** A change of one queue: its cells, and fresh ones, may change. *)
Lemma rep_update h h' m q a a' :
  rep h m -> m !! q = Some a ->
  h_queues h' = <[q := qv a']> (h_queues h) ->
  (∀ e, e ∉ ids (a_items a) -> e < h_next_cell h -> h_cells h' !! e = h_cells h !! e) ->
  seg (h_cells h') (first_id (a_items a')) (a_items a') None ->
  NoDup (ids (a_items a')) ->
  (∀ e, e ∈ ids (a_items a') -> e ∈ ids (a_items a) \/ h_next_cell h <= e) ->
  below (h_cells h') (h_next_cell h') ->
  h_next_queue h' = h_next_queue h ->
  rep h' (<[q := a']> m).
Proof.
  intros Hr Ha Hq Hf Hs Hn Hi Hc Hx.
  assert (Hother : ∀ p b, q <> p -> m !! p = Some b ->
    (∀ e, e ∈ ids (a_items b) -> (e ∉ ids (a_items a)) /\ e < h_next_cell h)).
  { intros p b Hp Hb e He. split.
    - intros He'. by apply (rep_disjoint _ _ Hr q p a b Ha Hb Hp e).
    - apply (rep_cells _ _ Hr). eapply seg_dom; [by eapply rep_seg | done]. }
  split.
  - by rewrite Hq, (rep_queues _ _ Hr), fmap_insert.
  - intros p b. destruct (decide (q = p)) as [<-|Hp]; [by rewrite lookup_insert_eq; intros [= <-]|].
    rewrite lookup_insert_ne by done. intros Hb. eapply seg_frame; [|by eapply rep_seg].
    intros e He. apply Hf; by eapply Hother.
  - intros p b. destruct (decide (q = p)) as [<-|Hp]; [by rewrite lookup_insert_eq; intros [= <-]|].
    rewrite lookup_insert_ne by done. by eapply rep_nodup.
  - intros q1 q2 a1 a2. destruct (decide (q = q1)) as [<-|H1], (decide (q = q2)) as [<-|H2];
      [done|..]; rewrite ?lookup_insert_eq, ?lookup_insert_ne by done.
    + intros [= <-] H2' _ e He1 He2. destruct (Hother _ _ H2 H2' e He2) as [Hna Hlt].
      destruct (Hi e He1); [done | lia].
    + intros H1' [= <-] _ e He1 He2. destruct (Hother _ _ H1 H1' e He1) as [Hna Hlt].
      destruct (Hi e He2); [done | lia].
    + intros. by eapply rep_disjoint.
  - done.
  - intros p. rewrite dom_insert, elem_of_union, elem_of_singleton, Hx.
    intros [->|Hp]; apply (rep_fresh _ _ Hr); [by apply elem_of_dom_2 in Ha | done].
Qed.
End Rep.

(** ** The steps of the operations *)
Section Steps.
Context {U : Type}.
Implicit Types (h : heap U) (m : gmap Z aqueue).

Lemma wp_get_queue q v Q h : h_queues h !! q = Some v -> Q v h -> wp (get_queue q) Q h.
Proof. intros Hv HQ. apply wp_bind, wp_get, (wp_lift _ v); [by rewrite Hv | done]. Qed.
Lemma wp_get_cell e c Q h : h_cells h !! e = Some c -> Q c h -> wp (get_cell e) Q h.
Proof. intros Hv HQ. apply wp_bind, wp_get, (wp_lift _ c); [by rewrite Hv | done]. Qed.
Lemma wp_set_queue q v v' Q h :
  h_queues h !! q = Some v -> Q tt (set_queues (<[q := v']> (h_queues h)) h) -> wp (set_queue q v') Q h.
Proof. intros Hv HQ. unfold set_queue. apply wp_bind, (wp_get_queue _ v); [done | exact HQ]. Qed.
Lemma wp_change_queue q v f Q h :
  h_queues h !! q = Some v -> Q tt (set_queues (<[q := f v]> (h_queues h)) h) -> wp (change_queue q f) Q h.
Proof. intros Hv HQ. apply wp_bind, (wp_get_queue _ v); [done|]. by apply (wp_set_queue _ v). Qed.
Lemma wp_set_next e d n n' Q h :
  h_cells h !! e = Some (Cell d n) -> Q tt (set_cells (<[e := Cell d n']> (h_cells h)) h) ->
  wp (set_next e n') Q h.
Proof.
  intros Hv HQ. unfold set_next, set_cell. do 2 apply wp_bind, (wp_get_cell _ _ _ _ Hv). exact HQ.
Qed.
Lemma wp_free_cell e c Q h :
  h_cells h !! e = Some c -> Q tt (set_cells (delete e (h_cells h)) h) -> wp (free_cell e) Q h.
Proof. intros Hv HQ. unfold free_cell. apply wp_bind, (wp_get_cell _ _ _ _ Hv). exact HQ. Qed.
Lemma wp_entry_new d Q h :
  Q (h_next_cell h) (Heap (h_queues h) (<[h_next_cell h := Cell d None]> (h_cells h)) (h_next_queue h)
    (h_next_cell h + 1) (h_user h)) -> wp (queue_entry_new d) Q h.
Proof. done. Qed.

(** What the loops find: the first entry that matches, with the one before it. *)
Fixpoint find_entry (p : Z -> bool) (prev : option Z) (l : list (Z * Z)) : option (option Z * Z) :=
  match l with
  | [] => None
  | (e, d) :: l' => if p d then Some (prev, e) else find_entry p (Some e) l'
  end.

Lemma wp_scan fuel p prev start l (Q : option (option Z * Z) -> heap U -> Prop) h :
  seg (h_cells h) start l None -> (length l <= fuel)%nat -> Q (find_entry p prev l) h ->
  wp (scan fuel p prev start) Q h.
Proof.
  revert prev start l. induction fuel as [|fuel IH]; intros prev start [|[e d] l] Hs Hf HQ;
    cbn in Hs, Hf; try lia; try by subst.
  destruct Hs as (-> & n & Hn & Hl). cbn [scan]. apply wp_bind, (wp_get_cell _ _ _ _ Hn).
  cbn [find_entry] in HQ. cbn [c_data c_next]. destruct (p d); [done|]. apply (IH _ _ l); [done | lia | done].
Qed.

Lemma wp_scan_queue q p a m (Q : option (option Z * Z) -> heap U -> Prop) h :
  rep h m -> m !! q = Some a -> Q (find_entry p None (a_items a)) h -> wp (scan_queue q p) Q h.
Proof.
  intros Hr Ha HQ. apply wp_bind, (wp_get_queue _ (qv a)); [by eapply rep_lookup|].
  apply wp_bind, wp_get. cbn [qv q_head].
  apply (wp_scan _ _ _ _ (a_items a)); [by eapply rep_seg | | done].
  eapply seg_size; [by eapply rep_seg | by eapply rep_nodup].
Qed.

(** The list with [x] after the cell [e]. *)
Fixpoint insert_after (e : Z) (x : Z * Z) (l : list (Z * Z)) : list (Z * Z) :=
  match l with
  | [] => []
  | (f, d) :: l' => if e =? f then (f, d) :: x :: l' else (f, d) :: insert_after e x l'
  end.
Lemma insert_after_app e d x l1 l2 :
  e ∉ ids l1 -> insert_after e x (l1 ++ (e, d) :: l2) = l1 ++ (e, d) :: x :: l2.
Proof.
  induction l1 as [|[f df] l1 IH]; intros He; cbn [app insert_after]; [by rewrite Z.eqb_refl|].
  rewrite ids_cons in He. destruct (Z.eqb_spec e f) as [->|]; [by destruct He; left|].
  rewrite IH; [done|]. intros H. apply He. by right.
Qed.

(** An entry that was found splits the list. *)
Definition holds_data (p : Z -> bool) (x : Z * Z) : bool := p (snd x).
Lemma find_entry_cases p prev l :
  Forall (fun x => holds_data p x = false) l /\ find_entry p prev l = None \/
  exists l1 e d l2, l = l1 ++ (e, d) :: l2 /\ Forall (fun x => holds_data p x = false) l1 /\ p d = true /\
    find_entry p prev l = Some (match last_id l1 with Some x => Some x | None => prev end, e).
Proof.
  revert prev. induction l as [|[e d] l IH]; intros prev; cbn [find_entry]; [left; by split|].
  destruct (p d) eqn:E; [right; by exists [], e, d, l|].
  destruct (IH (Some e)) as [[Hl Hf] | (l1 & e1 & d1 & l2 & -> & Hl & Hd & Hf)]; [left; auto|].
  right. exists ((e, d) :: l1), e1, d1, l2. split_and!; [done | auto | done|]. rewrite Hf.
  destruct l1 as [|y l1]; [done|]. change ((e, d) :: y :: l1) with ([(e, d)] ++ y :: l1).
  rewrite last_id_app_cons. destruct (last_id (y :: l1)) eqn:E1; [done|]. by apply last_id_nil in E1.
Qed.
End Steps.

(** ** The operations *)

(** A lookup after the writes made so far. *)
Ltac q_lookup :=
  cbn [h_queues h_cells h_next_cell h_next_queue h_user set_queues set_cells];
  first [ apply lookup_insert_eq | eassumption
        | rewrite lookup_insert_ne by (first [done | lia | congruence]); q_lookup
        | rewrite lookup_delete_ne by (first [done | lia | congruence]); q_lookup ].
Ltac q_step :=
  lazymatch goal with
  | |- wp (mbind _ _) _ _ => apply wp_bind
  | |- wp (queue_entry_new _) _ _ => apply wp_entry_new
  | |- wp (get_queue _) _ _ => eapply wp_get_queue; [q_lookup|]
  | |- wp (set_queue _ _) _ _ => eapply wp_set_queue; [q_lookup|]
  | |- wp (change_queue _ _) _ _ => eapply wp_change_queue; [q_lookup|]
  | |- wp (get_cell _) _ _ => eapply wp_get_cell; [q_lookup|]
  | |- wp (set_next _ _) _ _ => eapply wp_set_next; [q_lookup|]
  | |- wp (free_cell _) _ _ => eapply wp_free_cell; [q_lookup|]
  | |- wp (mret _) _ _ => apply wp_ret
  | |- wp get _ _ => apply wp_get
  end; cbn beta.

(** The fields of a queue after the writes made to it. *)
Ltac q_fields := rewrite ?insert_insert_eq; f_equal; unfold qv; cbn;
  rewrite ?length_app, ?length_cons, ?Nat.add_1_r; cbn.
(** The end of an operation: what is left of [changed]. *)
Ltac q_changed h :=
  split; [done|]; split; [done|]; split; [done|];
  eapply (rep_update h); [done | done | | | | | | | done];
  cbn [h_cells h_queues set_cells set_queues h_next_cell a_items].
(** Cells of other queues keep their contents. *)
Ltac q_frame :=
  let e := fresh "e" in let He := fresh "He" in let Hlt := fresh "Hlt" in
  intros e He Hlt; rewrite ?ids_app, ?ids_cons, ?not_elem_of_app, ?not_elem_of_cons in He;
  destruct_and? He; rewrite ?lookup_delete_ne, ?lookup_insert_ne; [done|..]; lia.

Section Ops.
Context {U : Type}.
Implicit Types (h : heap U) (m : gmap Z aqueue).

(** After an operation on the queue [q], which returned [r]. *)
Definition changed h m q a' {A} (r0 : A) (r : A) (h' : heap U) : Prop :=
  r = r0 /\ h_user h' = h_user h /\ h_next_queue h' = h_next_queue h /\ rep h' (<[q := a']> m).

Lemma u32_succ n : u32 (u32 (Z.of_nat n) + 1) = u32 (Z.of_nat (S n)).
Proof. unfold u32. rewrite Zplus_mod_idemp_l. f_equal. lia. Qed.
Lemma u32_push (n k : nat) : k = S n -> u32 (u32 (Z.of_nat n) + 1) = u32 (Z.of_nat k).
Proof. intros ->. apply u32_succ. Qed.
Lemma u32_pred n : u32 (u32 (Z.of_nat (S n)) - 1) = u32 (Z.of_nat n).
Proof. unfold u32. rewrite Zminus_mod_idemp_l. f_equal. lia. Qed.

(** The facts about one queue that the proofs below use. *)
Lemma rep_at h m q a : rep h m -> m !! q = Some a ->
  h_queues h !! q = Some (qv a) /\ seg (h_cells h) (first_id (a_items a)) (a_items a) None /\
  NoDup (ids (a_items a)) /\ (∀ e, e ∈ ids (a_items a) -> e < h_next_cell h) /\
  below (h_cells h) (h_next_cell h).
Proof.
  intros Hr Ha. split_and!.
  - by eapply rep_lookup.
  - by eapply rep_seg.
  - by eapply rep_nodup.
  - intros e He. apply (rep_cells _ _ Hr). eapply seg_dom; [by eapply rep_seg | done].
  - apply (rep_cells _ _ Hr).
Qed.

Lemma fresh_not_in h l : (∀ e, e ∈ ids l -> e < h_next_cell h) -> h_next_cell h ∉ ids l.
Proof. intros Hl He. specialize (Hl _ He). lia. Qed.

Lemma wp_push_tail q d a m h :
  rep h m -> m !! q = Some a ->
  wp (queue_push_tail (Some q) d)
     (changed h m q (AQueue (a_refs a) (a_items a ++ [(h_next_cell h, d)])) true) h.
Proof.
  intros Hr Ha. destruct (rep_at _ _ _ _ Hr Ha) as (Hq & Hs & Hn & Hl & Hc).
  destruct a as [refs l]. cbn [a_refs a_items] in *.
  pose proof (fresh_not_in _ _ Hl) as Hfresh.
  pose proof (ids_insert _ _ _ d (symmetry (Permutation_cons_append l (h_next_cell h, d))) Hn Hfresh) as Hins.
  unfold queue_push_tail. do 4 q_step. cbn [qv q_tail a_items].
  set (n := h_next_cell h) in *.
  destruct (last_id l) as [t|] eqn:E.
  - destruct (last_id_in _ _ E) as (l' & dt & ->).
    rewrite ids_app in Hn, Hfresh. pose proof Hn as (Hn1 & Hn2 & _)%NoDup_app.
    assert (Ht : h_cells h !! t = Some (Cell dt None)) by apply (seg_cell _ _ _ _ _ [] _ Hs).
    assert (t < n) by (apply Hl; rewrite ids_app, elem_of_app; right; left).
    assert (Ht' : t ∉ ids l') by (intros Ht'; apply (Hn2 t Ht'); by left).
    destruct (first_id_some l' t dt []) as [f Hf]. clear E Hn2.
    do 8 q_step. q_changed h.
    + q_fields. rewrite Hf, first_id_app, Hf, !last_id_snoc. cbn. by rewrite u32_succ.
    + q_frame.
    + rewrite first_id_app, Hf, <-Hf, <-app_assoc. cbn [app].
      eapply seg_relink; [apply seg_fresh; [by rewrite ids_app | exact Hs] | done|].
      cbn [seg]. split; [done|]. exists None. rewrite lookup_insert_ne, lookup_insert_eq by lia. done.
    + by apply Hins.
    + by apply Hins.
    + auto with queue.
  - apply last_id_nil in E as ->. do 8 q_step. q_changed h.
    + q_fields.
    + q_frame.
    + cbn. split; [done|]. exists None. by rewrite lookup_insert_eq.
    + by apply Hins.
    + by apply Hins.
    + auto with queue.
Qed.

Lemma wp_push_head q d a m h :
  rep h m -> m !! q = Some a ->
  wp (queue_push_head (Some q) d)
     (changed h m q (AQueue (a_refs a) ((h_next_cell h, d) :: a_items a)) true) h.
Proof.
  intros Hr Ha. destruct (rep_at _ _ _ _ Hr Ha) as (Hq & Hs & Hn & Hl & Hc).
  destruct a as [refs l]. cbn [a_refs a_items] in *.
  pose proof (fresh_not_in _ _ Hl) as Hfresh.
  unfold queue_push_head. do 13 q_step. q_changed h.
  - q_fields. destruct l as [|[e de] l]; [done|]. unfold qv in *. cbn.
    rewrite first_id_cons. change ((h_next_cell h, d) :: (e, de) :: l) with ([(h_next_cell h, d)] ++ (e, de) :: l).
    rewrite last_id_app_cons. destruct (last_id_cons e de l) as [f ->]. cbn. by rewrite u32_succ.
  - q_frame.
  - cbn. split; [done|]. exists (first_id l). rewrite lookup_insert_eq. split; [done|].
    apply seg_fresh; [done|]. by apply seg_fresh.
  - by apply (ids_insert l _ _ d (reflexivity _)).
  - by apply (ids_insert l _ _ d (reflexivity _)).
  - auto with queue.
Qed.

Lemma wp_push_after q d entry a m h :
  rep h m -> m !! q = Some a ->
  wp (queue_push_after (Some q) entry d)
     (match find_entry (Z.eqb entry) None (a_items a) with
      | None => fun r h' => r = false /\ h' = h
      | Some (_, e) =>
          changed h m q (AQueue (a_refs a) (insert_after e (h_next_cell h, d) (a_items a))) true
      end) h.
Proof.
  intros Hr Ha. destruct (rep_at _ _ _ _ Hr Ha) as (Hq & Hs & Hn & Hl & Hc).
  destruct a as [refs l]. cbn [a_refs a_items] in *. pose proof (fresh_not_in _ _ Hl) as Hfresh.
  unfold queue_push_after. apply wp_bind, (wp_scan_queue _ _ (AQueue refs l) m); [done | done|].
  cbn [a_items].
  destruct (find_entry_cases (Z.eqb entry) None l) as [[_ ->] | (l1 & e & de & l2 & -> & _ & _ & ->)]; [done|].
  pose proof (seg_cell _ _ _ _ _ _ _ Hs) as Hcell.
  assert (Hp : l1 ++ (e, de) :: (h_next_cell h, d) :: l2 ≡ₚ (h_next_cell h, d) :: l1 ++ (e, de) :: l2)
    by solve_Permutation.
  pose proof (ids_insert _ _ _ _ Hp Hn Hfresh) as Hins. clear Hp.
  rewrite ids_app, ids_cons in Hn, Hfresh. apply NoDup_app in Hn as (Hn1 & Hn2 & [Hn3 Hn4]%NoDup_cons).
  assert (He1 : e ∉ ids l1) by (intros He; apply (Hn2 e He); by left).
  assert (e < h_next_cell h) by (apply Hl; rewrite ids_app, elem_of_app; right; left).
  rewrite insert_after_app by done.
  rewrite not_elem_of_app, not_elem_of_cons in Hfresh. destruct Hfresh as (Hf1 & Hf2 & Hf3).
  assert (Hx1 : ∀ x, x ∈ ids l1 -> x <> e /\ x <> h_next_cell h) by (intros x Hx; split; intros ->; done).
  assert (Hx2 : ∀ x, x ∈ ids l2 -> x <> e /\ x <> h_next_cell h) by (intros x Hx; split; intros ->; done).
  assert (Hseg : ∀ cs, (∀ x, x ∈ ids l2 -> cs !! x = h_cells h !! x) ->
    cs !! h_next_cell h = Some (Cell d (head_or l2 None)) -> (∀ x, x ∈ ids l1 -> cs !! x = h_cells h !! x) ->
    cs !! e = Some (Cell de (Some (h_next_cell h))) ->
    seg cs (first_id (l1 ++ (e, de) :: (h_next_cell h, d) :: l2)) (l1 ++ (e, de) :: (h_next_cell h, d) :: l2) None).
  { intros cs H2 Hnew H1 He. rewrite first_id_app, first_id_cons in *. rewrite seg_app in Hs |- *.
    destruct Hs as (r & Hs1 & -> & n & Hcn & Hs2). exists (Some e). split; [by eapply seg_frame|].
    split; [done|]. exists (Some (h_next_cell h)). split; [done|]. split; [done|].
    exists (head_or l2 None). split; [done|]. rewrite <-(seg_head _ _ _ _ Hs2). by eapply seg_frame. }
  do 7 q_step. destruct l2 as [|[g dg] l2]; cbn [head_or c_next is_null] in *; do 6 q_step; q_changed h.
  all: first [by apply Hins | q_frame | auto with queue | idtac].
  2,4: apply Hseg; [intros x Hx; specialize (Hx2 x Hx); by rewrite !lookup_insert_ne by lia
    | by rewrite lookup_insert_ne, lookup_insert_eq by lia
    | intros x Hx; specialize (Hx1 x Hx); by rewrite !lookup_insert_ne by lia
    | by rewrite lookup_insert_eq].
  - q_fields. rewrite !first_id_app, !first_id_cons, !last_id_app_cons. erewrite u32_push; [done | lia].
  - q_fields. rewrite !first_id_app, !first_id_cons, !last_id_app_cons, !last_id_cons2. erewrite u32_push; [done | lia].
Qed.

Lemma u32_pop (n k : nat) : n = S k -> u32 (u32 (Z.of_nat n) - 1) = u32 (Z.of_nat k).
Proof. intros ->. apply u32_pred. Qed.

Lemma wp_unlink q refs l1 e d l2 m h :
  rep h m -> m !! q = Some (AQueue refs (l1 ++ (e, d) :: l2)) ->
  wp (unlink q (last_id l1) e) (changed h m q (AQueue refs (l1 ++ l2)) tt) h.
Proof.
  intros Hr Ha. destruct (rep_at _ _ _ _ Hr Ha) as (Hq & Hs & Hn & Hl & Hc). cbn [a_items] in *.
  pose proof (ids_remove _ (l1 ++ l2) (e, d) (symmetry (Permutation_middle l1 l2 (e, d))) Hn) as [Hn' Hin].
  pose proof (seg_cell _ _ _ _ _ _ _ Hs) as Hcell.
  pose proof Hn as Hnd. rewrite ids_app, ids_cons in Hn. apply NoDup_app in Hn as (Hn1 & Hn2 & [Hn3 Hn4]%NoDup_cons).
  assert (He1 : e ∉ ids l1) by (intros He; apply (Hn2 e He); by left).
  unfold unlink. do 2 q_step. cbn [c_next].
  destruct (last_id l1) as [t|] eqn:E.
  - destruct (last_id_in _ _ E) as (l1' & dt & ->). clear E.
    rewrite <-app_assoc in Hs. cbn [app] in Hs.
    pose proof (seg_cell _ _ _ _ _ _ _ Hs) as Ht. cbn [head_or] in Ht.
    rewrite ids_app, ids_cons, not_elem_of_app, not_elem_of_cons in He1.
    assert (t < h_next_cell h) by (apply Hl; rewrite !ids_app, !elem_of_app; left; right; left).
    do 2 q_step. q_step. destruct l2 as [|[g dg] l2]; cbn [head_or is_null]; do 4 q_step; q_changed h.
    all: first [done | by intros x Hx; left; apply Hin | q_frame | auto with queue | idtac].
    all: rewrite <-?app_assoc in *; cbn [app] in *; rewrite ?first_id_app, ?first_id_cons in *.
    2: exact (seg_unlink _ _ _ _ _ _ _ [] Hs Hnd).
    3: exact (seg_unlink _ _ _ _ _ _ _ ((g, dg) :: l2) Hs Hnd).
    + q_fields. rewrite !first_id_app, !first_id_cons, last_id_snoc. erewrite u32_pop; [done | lia].
    + q_fields. rewrite !first_id_app, !first_id_cons, !last_id_app_cons, !last_id_cons2.
      erewrite u32_pop; [done | lia].
  - apply last_id_nil in E as ->. cbn [app] in *. apply seg_rest in Hs.
    do 3 q_step. destruct l2 as [|[g dg] l2]; cbn [head_or is_null] in *; do 4 q_step; q_changed h.
    all: first [done | by intros x Hx; left; apply Hin | q_frame | by auto with queue | by apply seg_delete | idtac].
    + q_fields.
    + q_fields. rewrite !last_id_cons2. erewrite u32_pop; [done | lia].
Qed.

(** What was found, and the list without it. *)
Lemma find_entry_split p l :
  find_entry p None l = None /\ find_first (holds_data p) l = None /\ remove_first (holds_data p) l = l \/
  exists l1 e d l2, l = l1 ++ (e, d) :: l2 /\ find_entry p None l = Some (last_id l1, e) /\
    find_first (holds_data p) l = Some (e, d) /\ remove_first (holds_data p) l = l1 ++ l2.
Proof.
  destruct (find_entry_cases p None l) as [[Hl ->] | (l1 & e & d & l2 & -> & Hl & Hd & ->)]; [left|right].
  - split; [done|]. split; [by apply find_first_none|]. induction Hl as [|x l Hx _ IH]; [done|].
    cbn [remove_first]. by rewrite Hx, IH.
  - exists l1, e, d, l2. split; [done|]. split; [by destruct (last_id l1)|].
    rewrite find_first_app. rewrite (proj2 (find_first_none _ _) Hl). unfold find_first. cbn.
    unfold holds_data at 1. cbn. rewrite Hd. split; [done|].
    induction Hl as [|x l Hx _ IH]; cbn [app remove_first]; [unfold holds_data; cbn; by rewrite Hd | by rewrite Hx, IH].
Qed.

Lemma changed_same h m q a {A} (r : A) : rep h m -> m !! q = Some a -> changed h m q a r r h.
Proof. intros Hr Ha. split_and!; [done..|]. by rewrite insert_id. Qed.

Lemma wp_remove q data a m h :
  rep h m -> m !! q = Some a ->
  wp (queue_remove (Some q) data)
     (changed h m q (AQueue (a_refs a) (remove_first (holds_data (Z.eqb data)) (a_items a)))
       (existsb (holds_data (Z.eqb data)) (a_items a))) h.
Proof.
  intros Hr Ha. destruct a as [refs l]. cbn [a_refs a_items]. rewrite existsb_find_first.
  unfold queue_remove. apply wp_bind, (wp_scan_queue _ _ _ _ _ _ Hr Ha). cbn [a_items].
  destruct (find_entry_split (Z.eqb data) l) as [(-> & -> & ->) | (l1 & e & d & l2 & -> & -> & -> & ->)].
  - by apply wp_ret, changed_same.
  - apply wp_bind. eapply wp_mono; [by eapply wp_unlink|]. by intros ? h' (_ & ? & ? & ?).
Qed.

Lemma wp_remove_if q f data a m h :
  rep h m -> m !! q = Some a ->
  wp (queue_remove_if (Some q) f data)
     (changed h m q (AQueue (a_refs a) (remove_first (holds_data (match_fun f data)) (a_items a)))
       (match find_first (holds_data (match_fun f data)) (a_items a) with Some x => snd x | None => 0 end)) h.
Proof.
  intros Hr Ha. destruct a as [refs l]. cbn [a_refs a_items].
  unfold queue_remove_if. apply wp_bind, (wp_scan_queue _ _ _ _ _ _ Hr Ha). cbn [a_items].
  destruct (find_entry_split (match_fun f data) l) as [(-> & -> & ->) | (l1 & e & d & l2 & -> & -> & -> & ->)].
  - by apply wp_ret, changed_same.
  - apply wp_bind. eapply wp_get_cell; [eapply (seg_cell _ _ l1), (rep_seg _ _ Hr _ _ Ha)|].
    apply wp_bind. eapply wp_mono; [by eapply wp_unlink|]. by intros ? h' (_ & ? & ? & ?).
Qed.

Lemma wp_find q f data a m h :
  rep h m -> m !! q = Some a ->
  wp (queue_find (Some q) f data)
     (fun r h' => h' = h /\
        r = match find_first (holds_data (match_fun f data)) (a_items a) with Some x => snd x | None => 0 end) h.
Proof.
  intros Hr Ha. destruct a as [refs l]. cbn [a_refs a_items].
  unfold queue_find. apply wp_bind, (wp_scan_queue _ _ _ _ _ _ Hr Ha). cbn [a_items].
  destruct (find_entry_split (match_fun f data) l) as [(-> & -> & _) | (l1 & e & d & l2 & -> & -> & -> & _)]; [done|].
  apply wp_bind. eapply wp_get_cell; [eapply (seg_cell _ _ l1), (rep_seg _ _ Hr _ _ Ha)|]. done.
Qed.

Lemma wp_pop_head q a m h :
  rep h m -> m !! q = Some a ->
  wp (queue_pop_head (Some q))
     (changed h m q (AQueue (a_refs a) (tail (a_items a)))
       (match a_items a with x :: _ => snd x | [] => 0 end)) h.
Proof.
  intros Hr Ha. destruct (rep_at _ _ _ _ Hr Ha) as (Hq & Hs & Hn & Hl & Hc).
  destruct a as [refs [|[e d] l]]; cbn [a_refs a_items tail snd] in *; unfold queue_pop_head; do 2 q_step.
  - by apply wp_ret, changed_same.
  - pose proof (seg_cell _ _ [] _ _ _ _ Hs) as Hcell. pose proof (ids_remove _ l (e, d) (reflexivity _) Hn) as [Hn' Hin].
    rewrite ids_cons in Hn. apply NoDup_cons in Hn as [Hn1 Hn2]. apply seg_rest in Hs. cbn [qv q_head a_items].
    rewrite first_id_cons. do 3 q_step. destruct l as [|[g dg] l]; cbn [head_or is_null c_next] in *; do 6 q_step; q_changed h.
    all: first [done | by intros x Hx; left; apply Hin | q_frame | by auto with queue | by apply seg_delete | idtac].
    + q_fields.
    + q_fields. rewrite first_id_cons, last_id_cons2. erewrite u32_pop; [done | lia].
Qed.

(** Reading changes nothing. *)
Lemma wp_peek_head q a m h :
  rep h m -> m !! q = Some a ->
  wp (queue_peek_head (Some q)) (fun r h' => h' = h /\ r = match a_items a with x :: _ => snd x | [] => 0 end) h.
Proof.
  intros Hr Ha. destruct (rep_at _ _ _ _ Hr Ha) as (Hq & Hs & _).
  destruct a as [refs [|[e d] l]]; unfold queue_peek_head; do 2 q_step; [done|]. cbn [qv q_head a_items].
  rewrite first_id_cons. pose proof (seg_cell _ _ [] _ _ _ _ Hs). by do 3 q_step.
Qed.
Lemma wp_peek_tail q a m h :
  rep h m -> m !! q = Some a ->
  wp (queue_peek_tail (Some q))
    (fun r h' => h' = h /\ r = match last (a_items a) with Some x => snd x | None => 0 end) h.
Proof.
  intros Hr Ha. destruct (rep_at _ _ _ _ Hr Ha) as (Hq & Hs & _). destruct a as [refs l].
  unfold queue_peek_tail. do 2 q_step. cbn [qv q_tail a_items] in *.
  destruct l as [|[e d] l _] using rev_ind; [done|]. rewrite last_id_snoc, last_snoc.
  pose proof (seg_cell _ _ _ _ _ [] _ Hs). by do 3 q_step.
Qed.

Lemma wp_new m h :
  rep h m ->
  wp queue_new (fun r h' => r = h_next_queue h /\ h_user h' = h_user h /\ h_next_queue h' = r + 1 /\
    rep h' (<[r := AQueue 1 []]> m)) h.
Proof.
  intros Hr. unfold queue_new, queue_ref. do 2 q_step. apply wp_bind. cbn [put wp]. do 3 q_step.
  split; [done|]. split; [done|]. split; [done|].
  assert (Hm : m !! h_next_queue h = None).
  { destruct (m !! h_next_queue h) as [a|] eqn:E; [|done].
    apply elem_of_dom_2, (rep_fresh _ _ Hr) in E. lia. }
  assert (Hother : ∀ p a, <[h_next_queue h := AQueue 1 []]> m !! p = Some a -> a = AQueue 1 [] \/ m !! p = Some a).
  { intros p a [[_ <-] | [_ H]]%lookup_insert_Some; auto. }
  split; cbn [h_queues h_cells set_queues h_next_queue h_next_cell].
  - by rewrite insert_insert_eq, fmap_insert, (rep_queues _ _ Hr).
  - intros p a [->|H]%Hother; [done | by eapply rep_seg].
  - intros p a [->|H]%Hother; [constructor | by eapply rep_nodup].
  - intros p1 p2 a1 a2 [->|H1]%Hother [->|H2]%Hother Hp; [by intros ? ?%elem_of_nil..| |].
    + by intros ? ? ?%elem_of_nil.
    + by apply (rep_disjoint _ _ Hr p1 p2).
  - apply (rep_cells _ _ Hr).
  - intros p. rewrite dom_insert, elem_of_union, elem_of_singleton.
    intros [->|Hp]; [lia|]. apply (rep_fresh _ _ Hr) in Hp. lia.
Qed.

(** *** Removing all that match, one after the other *)
Lemma u32_pred_neq (n : nat) : u32 (Z.of_nat (S n)) <> u32 (Z.of_nat n).
Proof. unfold u32. zlia. Qed.

Lemma filter_first_none (f : Z * Z -> bool) l :
  find_first f l = None -> List.filter f l = [] /\ List.filter (fun x => negb (f x)) l = l.
Proof.
  intros Hl%find_first_none. induction Hl as [|x l Hx _ [IH1 IH2]]; [done|].
  cbn. rewrite Hx. cbn. by rewrite IH1, IH2.
Qed.
Lemma filter_remove_once (f : Z * Z -> bool) l x :
  find_first f l = Some x ->
  length (List.filter f l) = S (length (List.filter f (remove_first f l))) /\
  List.filter (fun x => negb (f x)) l = List.filter (fun x => negb (f x)) (remove_first f l) /\
  length l = S (length (remove_first f l)).
Proof.
  unfold find_first. induction l as [|y l IH]; [done|]. cbn. destruct (f y) eqn:E; cbn; [done|].
  rewrite E. cbn. intros (H1 & H2 & H3)%IH. split; [done|]. split; congruence.
Qed.

Lemma wp_remove_matching fuel q f data refs l count m h :
  rep h m -> m !! q = Some (AQueue refs l) -> (length l < fuel)%nat -> u32 count = count ->
  wp (remove_matching fuel q f data None count)
     (changed h m q (AQueue refs (List.filter (fun x => negb (holds_data f x)) l))
       (u32 (count + Z.of_nat (length (List.filter (holds_data f) l))))) h.
Proof.
  revert l count m h. induction fuel as [|fuel IH]; intros l count m h Hr Ha Hf Hcnt; [lia|].
  cbn [remove_matching]. apply wp_bind. eapply wp_get_queue; [by eapply rep_lookup|].
  apply wp_bind. eapply wp_mono; [by eapply wp_remove_if|]. cbn [a_refs a_items match_fun].
  intros d h1 (-> & Hu & Hx & Hr1).
  assert (Ha1 := lookup_insert_eq m q (AQueue refs (remove_first (holds_data f) l))).
  apply wp_bind. eapply wp_get_queue; [by eapply rep_lookup|]. cbn [qv q_entries a_items].
  destruct (find_first (holds_data f) l) as [x|] eqn:E.
  - destruct (filter_remove_once _ _ _ E) as (H1 & H2 & H3). rewrite H3.
    rewrite (proj2 (Z.eqb_neq _ _)) by apply u32_pred_neq. cbn [run_destroy]. do 2 q_step.
    eapply wp_mono; [apply (IH _ _ _ _ Hr1 Ha1)|].
    + lia.
    + unfold u32. by rewrite Zmod_mod.
    + rewrite H1, H2. intros r h2 (-> & Hu2 & Hx2 & Hr2). split; [|split; [congruence|split; [congruence|]]].
      * unfold u32. rewrite Zplus_mod_idemp_l. f_equal. lia.
      * by rewrite insert_insert_eq in Hr2.
  - destruct (filter_first_none _ _ E) as [-> ->].
    assert (Hl : remove_first (holds_data f) l = l).
    { clear -E. apply find_first_none in E. induction E as [|y l Hy _ IH]; [done|]. cbn. by rewrite Hy, IH. }
    rewrite Hl in *. rewrite Z.eqb_refl. apply wp_ret.
    split; [by rewrite Z.add_0_r, Hcnt|]. done.
Qed.

(** *** Freeing a detached chain *)
Lemma wp_free_chain fuel p l count h :
  seg (h_cells h) p l None -> NoDup (ids l) -> (length l <= fuel)%nat -> u32 count = count ->
  wp (free_chain fuel p None count) (fun r h' =>
    r = u32 (count + Z.of_nat (length l)) /\ h_queues h' = h_queues h /\
    h_next_queue h' = h_next_queue h /\ h_next_cell h' = h_next_cell h /\ h_user h' = h_user h /\
    (∀ e, e ∉ ids l -> h_cells h' !! e = h_cells h !! e) /\ dom (h_cells h') ⊆ dom (h_cells h)) h.
Proof.
  revert p l count h. induction fuel as [|fuel IH]; intros p [|[e d] l] count h Hs Hn Hf Hcnt;
    cbn in Hf; try lia; try (cbn in Hs; subst p; cbn; rewrite Z.add_0_r; done).
  destruct (Hs) as (-> & _). pose proof (seg_cell _ _ [] _ _ _ _ Hs) as Hcell. apply seg_rest in Hs.
  rewrite ids_cons in Hn. apply NoDup_cons in Hn as [He Hn].
  cbn [free_chain]. do 2 q_step. cbn [run_destroy c_data c_next]. do 4 q_step.
  eapply wp_mono; [apply (IH (head_or l None) l)|].
  - cbn. by apply seg_delete.
  - done.
  - lia.
  - unfold u32. by rewrite Zmod_mod.
  - cbn. intros r h' (-> & Hq & Hx & Hc & Hu & Hfr & Hd). split_and!; [|done..| |].
    + unfold u32. rewrite Zplus_mod_idemp_l. f_equal. lia.
    + intros x. rewrite ids_cons, not_elem_of_cons. intros [Hxe Hxl]. rewrite Hfr by done.
      by apply lookup_delete_ne.
    + intros x Hx'%Hd. rewrite dom_delete in Hx'. by apply elem_of_difference in Hx' as [? _].
Qed.

Definition all_match (f : option (Z -> bool)) (data : Z) : Z -> bool :=
  match f with Some g => g | None => fun _ => true end.

Lemma wp_remove_all q f data a m h :
  rep h m -> m !! q = Some a ->
  wp (queue_remove_all (Some q) f data None)
     (changed h m q (AQueue (a_refs a) (List.filter (fun x => negb (holds_data (all_match f data) x)) (a_items a)))
       (u32 (Z.of_nat (length (List.filter (holds_data (all_match f data)) (a_items a)))))) h.
Proof.
  intros Hr Ha. destruct (rep_at _ _ _ _ Hr Ha) as (Hq & Hs & Hn & Hl & Hc).
  pose proof (seg_size _ _ _ _ Hs Hn) as Hsize. destruct a as [refs l]. cbn [a_refs a_items] in *.
  unfold queue_remove_all. do 4 q_step. destruct f as [f|]; cbn [all_match].
  - cbn [qv q_head a_items]. destruct l as [|[e d] l]; [by apply changed_same|]. rewrite first_id_cons.
    eapply wp_mono; [apply (wp_remove_matching _ _ _ _ _ _ _ _ _ Hr Ha); [lia | done]|]. done.
  - do 2 q_step. cbn [qv q_head a_items].
    eapply wp_mono; [apply (wp_free_chain _ _ l); [done | done | lia | done]|].
    intros r h' (-> & Hq' & Hx & Hc' & Hu & Hfr & Hd).
    assert (Hall : List.filter (holds_data (fun _ => true)) l = l /\
      List.filter (fun x => negb (holds_data (fun _ => true) x)) l = []).
    { clear. unfold holds_data. induction l as [|x l [IH1 IH2]]; [done|]. cbn in *. by rewrite IH1, IH2. }
    destruct Hall as [-> ->]. split; [done|]. split; [done|]. split; [done|].
    eapply (rep_update h); [done | done | exact Hq' | by intros; apply Hfr | done | constructor
      | by intros ? ?%elem_of_nil | rewrite Hc'; intros x Hx'; apply Hc, Hd, Hx' | done].
Qed.

Lemma wp_destroy q l m h :
  rep h m -> m !! q = Some (AQueue 1 l) ->
  wp (queue_destroy (Some q) None) (fun _ h' =>
    h_user h' = h_user h /\ h_next_queue h' = h_next_queue h /\ rep h' (delete q m)) h.
Proof.
  intros Hr Ha. unfold queue_destroy. apply wp_bind. eapply wp_mono; [by eapply wp_remove_all|].
  cbn [a_refs a_items]. intros _ h1 (_ & Hu & Hx & Hr1).
  match type of Hr1 with rep _ (<[_ := ?x]> _) => set (a' := x) in * end. assert (Ha1 := lookup_insert_eq m q a').
  pose proof (rep_lookup _ _ _ _ Hr1 Ha1) as Hq1.
  unfold queue_unref. do 4 q_step. change (truth (q_ref_count (qv a') - 1)) with false.
  unfold free_queue. q_step. q_step. apply wp_modify. cbn [h_user h_next_queue set_queues].
  split; [done|]. split; [done|].
  assert (Hsub : ∀ p b, delete q m !! p = Some b -> q <> p /\ <[q := a']> m !! p = Some b).
  { intros p b [Hp Hb]%lookup_delete_Some. split; [done|]. by rewrite lookup_insert_ne. }
  split; cbn.
  - by rewrite (rep_queues _ _ Hr1), fmap_insert, !delete_insert_eq, fmap_delete.
  - intros p b [_ Hb]%Hsub. by eapply rep_seg.
  - intros p b [_ Hb]%Hsub. by eapply rep_nodup.
  - intros p1 p2 b1 b2 [_ H1]%Hsub [_ H2]%Hsub. by apply (rep_disjoint _ _ Hr1 p1 p2).
  - apply (rep_cells _ _ Hr1).
  - intros p. rewrite dom_delete, elem_of_difference. intros [Hp _].
    apply (rep_fresh _ _ Hr1). rewrite dom_insert. by apply elem_of_union; right.
Qed.
End Ops.

(** ** Any sequence of operations

    The operations as data; a queue is NULL or its address. *)
Inductive queue_op :=
| QNew
| QPushTail (q : option Z) (data : Z)
| QPushHead (q : option Z) (data : Z)
| QPushAfter (q : option Z) (entry data : Z)
| QPopHead (q : option Z)
| QPeekHead (q : option Z)
| QPeekTail (q : option Z)
| QRemove (q : option Z) (data : Z)
| QRemoveIf (q : option Z) (f : option (Z -> bool)) (data : Z)
| QRemoveAll (q : option Z) (f : option (Z -> bool)) (data : Z)
| QFind (q : option Z) (f : option (Z -> bool)) (data : Z)
| QLength (q : option Z)
| QIsEmpty (q : option Z)
| QDestroy (q : option Z).

Definition run_queue_op {U} (op : queue_op) : St (heap U) Z :=
  match op with
  | QNew => queue_new
  | QPushTail q d => r ← queue_push_tail q d; mret (b2z r)
  | QPushHead q d => r ← queue_push_head q d; mret (b2z r)
  | QPushAfter q e d => r ← queue_push_after q e d; mret (b2z r)
  | QPopHead q => queue_pop_head q
  | QPeekHead q => queue_peek_head q
  | QPeekTail q => queue_peek_tail q
  | QRemove q d => r ← queue_remove q d; mret (b2z r)
  | QRemoveIf q f d => queue_remove_if q f d
  | QRemoveAll q f d => queue_remove_all q f d None
  | QFind q f d => queue_find q f d
  | QLength q => queue_length q
  | QIsEmpty q => r ← queue_isempty q; mret (b2z r)
  | QDestroy q => _ ← queue_destroy q None; mret 0
  end.
Fixpoint run_queue_ops {U} (ops : list queue_op) : St (heap U) (list Z) :=
  match ops with
  | [] => mret []
  | op :: ops' => r ← run_queue_op op; rs ← run_queue_ops ops'; mret (r :: rs)
  end.

(** *** The specification: each queue is a list, and NULL is no queue *)
Record spec_state := SpecState { sp_queues : gmap Z (list Z); sp_next : Z }.
Fixpoint insert_after_first (x y : Z) (l : list Z) : option (list Z) :=
  match l with
  | [] => None
  | z :: l' => if x =? z then Some (z :: y :: l') else (fun r => z :: r) <$> insert_after_first x y l'
  end.
(** What an operation returns, and the list after it. *)
Definition spec_list (op : queue_op) (l : list Z) : Z * list Z :=
  match op with
  | QPushTail _ d => (1, l ++ [d])
  | QPushHead _ d => (1, d :: l)
  | QPushAfter _ e d => match insert_after_first e d l with Some l' => (1, l') | None => (0, l) end
  | QPopHead _ => (List.hd 0 l, tail l)
  | QPeekHead _ => (List.hd 0 l, l)
  | QPeekTail _ => (List.last l 0, l)
  | QRemove _ d => (b2z (existsb (Z.eqb d) l), remove_first (Z.eqb d) l)
  | QRemoveIf _ f d => (default 0 (find_first (match_fun f d) l), remove_first (match_fun f d) l)
  | QRemoveAll _ f d =>
      (u32 (Z.of_nat (length (List.filter (all_match f d) l))), List.filter (fun x => negb (all_match f d x)) l)
  | QFind _ f d => (default 0 (find_first (match_fun f d) l), l)
  | QLength _ => (u32 (Z.of_nat (length l)), l)
  | QIsEmpty _ => (b2z (u32 (Z.of_nat (length l)) =? 0), l)
  | QNew | QDestroy _ => (0, l)
  end.
Definition op_queue (op : queue_op) : option Z :=
  match op with
  | QNew => None
  | QPushTail q _ | QPushHead q _ | QPushAfter q _ _ | QPopHead q | QPeekHead q | QPeekTail q | QRemove q _
  | QRemoveIf q _ _ | QRemoveAll q _ _ | QFind q _ _ | QLength q | QIsEmpty q | QDestroy q => q
  end.
(** [None] for an operation on a queue that has been destroyed. *)
Definition spec_op (op : queue_op) (s : spec_state) : option (Z * spec_state) :=
  match op, op_queue op with
  | QNew, _ => Some (sp_next s, SpecState (<[sp_next s := []]> (sp_queues s)) (sp_next s + 1))
  | QIsEmpty _, None => Some (1, s)
  | _, None => Some (0, s)
  | _, Some q =>
      l ← sp_queues s !! q;
      Some (match op with
            | QDestroy _ => (0, SpecState (delete q (sp_queues s)) (sp_next s))
            | _ => (fst (spec_list op l), SpecState (<[q := snd (spec_list op l)]> (sp_queues s)) (sp_next s))
            end)
  end.
Fixpoint spec_ops (ops : list queue_op) (s : spec_state) : option (list Z * spec_state) :=
  match ops with
  | [] => Some ([], s)
  | op :: ops' =>
      '(r, s1) ← spec_op op s; '(rs, s2) ← spec_ops ops' s1; Some (r :: rs, s2)
  end.

(** The heap [h] holds the lists of [s]. *)
Definition refines {U} (h : heap U) (s : spec_state) : Prop :=
  exists m, rep h m /\ (∀ q a, m !! q = Some a -> a_refs a = 1) /\
    sp_queues s = (fun a => snd <$> a_items a) <$> m /\ sp_next s = h_next_queue h.

(** *** The lists of data behind the cells *)
Section Data.
Implicit Types (p : Z -> bool) (l : list (Z * Z)).

Lemma data_find p l : (snd <$> find_first (holds_data p) l) = find_first p (snd <$> l).
Proof.
  unfold find_first. induction l as [|[e d] l IH]; [done|]. rewrite fmap_cons.
  cbn [List.find]. unfold holds_data at 1. cbn [snd]. by destruct (p d).
Qed.
Lemma data_remove p l : snd <$> remove_first (holds_data p) l = remove_first p (snd <$> l).
Proof.
  induction l as [|[e d] l IH]; [done|]. rewrite fmap_cons. cbn [remove_first].
  unfold holds_data at 1. cbn [snd]. destruct (p d); [done|]. by rewrite fmap_cons, IH.
Qed.
Lemma data_exists p l : existsb (holds_data p) l = existsb p (snd <$> l).
Proof. induction l as [|[e d] l IH]; [done|]. rewrite fmap_cons. cbn [existsb]. by rewrite IH. Qed.
Lemma data_filter p l : snd <$> List.filter (holds_data p) l = List.filter p (snd <$> l).
Proof.
  induction l as [|[e d] l IH]; [done|]. rewrite fmap_cons. cbn [List.filter].
  unfold holds_data at 1. cbn [snd]. destruct (p d); [|done]. by rewrite fmap_cons, IH.
Qed.
Lemma data_found p l :
  match find_first (holds_data p) l with Some x => snd x | None => 0 end = default 0 (find_first p (snd <$> l)).
Proof. rewrite <-data_find. by destruct (find_first (holds_data p) l). Qed.
Lemma data_hd l : match l with x :: _ => snd x | [] => 0 end = List.hd 0 (snd <$> l).
Proof. by destruct l. Qed.
Lemma data_last l : match last l with Some x => snd x | None => 0 end = List.last (snd <$> l) 0.
Proof.
  destruct l as [|x l _] using rev_ind; [done|]. rewrite last_snoc, fmap_app. symmetry. apply List.last_last.
Qed.
Lemma data_insert x y n l :
  NoDup (ids l) ->
  match find_entry (Z.eqb x) None l with
  | None => insert_after_first x y (snd <$> l) = None
  | Some (_, e) => insert_after_first x y (snd <$> l) = Some (snd <$> insert_after e (n, y) l)
  end.
Proof.
  intros Hn. destruct (find_entry_cases (Z.eqb x) None l) as [[Hl ->] | (l1 & e & d & l2 & -> & Hl & Hd & ->)].
  - induction Hl as [|[e d] l Hx _ IH]; [done|]. rewrite ids_cons in Hn. apply NoDup_cons in Hn as [_ Hn].
    rewrite fmap_cons. unfold holds_data in Hx. cbn in Hx |- *. by rewrite Hx, IH.
  - rewrite ids_app in Hn. apply NoDup_app in Hn as (_ & Hn & _).
    rewrite insert_after_app by (intros He; apply (Hn e He); by left).
    clear Hn. induction Hl as [|[f df] l Hx _ IH].
    + cbn [app]. rewrite !fmap_cons. cbn. by rewrite Hd.
    + cbn [app]. rewrite !fmap_cons. unfold holds_data in Hx. cbn in Hx |- *. by rewrite Hx, IH.
Qed.
End Data.

Lemma refines_changed {U} (h h' : heap U) m q l l' d s {A} (r r0 : A) :
  (∀ q a, m !! q = Some a -> a_refs a = 1) ->
  sp_queues s = (fun a => snd <$> a_items a) <$> m -> sp_next s = h_next_queue h -> m !! q = Some (AQueue 1 l) ->
  changed h m q (AQueue 1 l') r0 r h' -> snd <$> l' = d ->
  r = r0 /\ refines h' (SpecState (<[q := d]> (sp_queues s)) (sp_next s)).
Proof.
  intros Hm Hs Hx Ha (-> & _ & Hx' & Hr) <-. split; [done|]. exists (<[q := AQueue 1 l']> m). split_and!.
  - done.
  - intros p a [[_ <-] | [_ H]]%lookup_insert_Some; [done | by eapply Hm].
  - cbn. by rewrite fmap_insert, Hs.
  - cbn. by rewrite Hx', Hx.
Qed.

(** One operation. *)
Lemma queue_op_refines {U} op (h : heap U) s r s' :
  refines h s -> spec_op op s = Some (r, s') ->
  wp (run_queue_op op) (fun r' h' => r' = r /\ refines h' s') h.
Proof.
  intros (m & Hr & Hm & Hs & Hx).
  assert (Hsame : refines h s) by by exists m.
  assert (Hl : ∀ q l, sp_queues s !! q = Some l -> exists x, m !! q = Some (AQueue 1 x) /\ snd <$> x = l).
  { intros q l. rewrite Hs, lookup_fmap. destruct (m !! q) as [[refs x]|] eqn:E; [|done].
    intros [= <-]. specialize (Hm q _ E). cbn in Hm. subst refs. eauto. }
  destruct op as [|[q|] d|[q|] d|[q|] e d|[q|]|[q|]|[q|]|[q|] d|[q|] f d|[q|] f d|[q|] f d|[q|]|[q|]|[q|]];
    cbn [spec_op op_queue run_queue_op]; try (by intros [= <- <-]).
  2-14: destruct (sp_queues s !! q) as [l|] eqn:E; [|done]; cbn [mbind option_bind]; intros [= <- <-];
    destruct (Hl _ _ E) as (x & Ha & <-).
  (* [upd]: a changed queue; [same]: only read *)
  all: cbn [fst snd].
  2-14: assert (Hupd : ∀ h' x' d' {A} (r r0 : A), changed h m q (AQueue 1 x') r0 r h' -> snd <$> x' = d' ->
      r = r0 /\ refines h' (SpecState (<[q := d']> (sp_queues s)) (sp_next s)))
    by (intros; by eapply refines_changed);
    assert (Hid : SpecState (<[q := snd <$> x]> (sp_queues s)) (sp_next s) = s)
    by (destruct s; cbn in *; by rewrite insert_id).
  - intros [= <- <-]. eapply wp_mono; [by eapply wp_new|]. intros ? h' (-> & _ & Hx' & Hr').
    split; [done|]. eexists. split; [exact Hr'|]. cbn. rewrite fmap_insert, Hs, Hx, Hx'. split_and!; [|done..].
    intros p a [[_ <-] | [_ H]]%lookup_insert_Some; [done | by eapply Hm].
  - apply wp_bind. eapply wp_mono; [by eapply wp_push_tail|]. intros ? h' Hc.
    eapply Hupd in Hc; [|by rewrite fmap_app]. by destruct Hc as [-> ?].
  - apply wp_bind. eapply wp_mono; [by eapply wp_push_head|]. intros ? h' Hc.
    eapply Hupd in Hc; [|done]. by destruct Hc as [-> ?].
  - apply wp_bind. eapply wp_mono; [by eapply wp_push_after|]. cbn [a_items a_refs].
    pose proof (data_insert e d (h_next_cell h) x (rep_nodup _ _ Hr _ _ Ha)) as Hi.
    destruct (find_entry (Z.eqb e) None x) as [[? ?]|]; rewrite Hi; cbn [fst snd].
    + intros ? h' Hc. eapply Hupd in Hc; [|done]. by destruct Hc as [-> ?].
    + rewrite Hid. by intros ? ? [-> ->].
  - eapply wp_mono; [by eapply wp_pop_head|]. intros ? h' Hc. cbn [a_items a_refs] in Hc. rewrite data_hd in Hc.
    eapply Hupd; [exact Hc | by destruct x].
  - rewrite Hid. eapply wp_mono; [by eapply wp_peek_head|]. intros ? ? [-> ->]. by rewrite <-data_hd.
  - rewrite Hid. eapply wp_mono; [by eapply wp_peek_tail|]. intros ? ? [-> ->]. by rewrite <-data_last.
  - apply wp_bind. eapply wp_mono; [by eapply wp_remove|]. cbn [a_items a_refs]. intros ? h' Hc.
    eapply Hupd in Hc; [|apply data_remove]. destruct Hc as [-> ?]. by rewrite data_exists.
  - eapply wp_mono; [by eapply wp_remove_if|]. cbn [a_items a_refs]. intros ? h' Hc.
    rewrite <-data_found. eapply Hupd; [exact Hc | apply data_remove].
  - eapply wp_mono; [by eapply wp_remove_all|]. cbn [a_items a_refs]. intros ? h' Hc.
    rewrite <-data_filter, length_fmap. eapply Hupd; [exact Hc|].
    apply (data_filter (fun y => negb (all_match f d y))).
  - rewrite Hid. eapply wp_mono; [by eapply wp_find|]. intros ? ? [-> ->]. by rewrite <-data_found.
  - rewrite Hid. apply wp_bind. eapply wp_get_queue; [by eapply rep_lookup|]. by rewrite length_fmap.
  - rewrite Hid. do 2 apply wp_bind. eapply wp_get_queue; [by eapply rep_lookup|]. by rewrite length_fmap.
  - apply wp_bind. eapply wp_mono; [by eapply wp_destroy|]. intros ? h' (_ & Hx' & Hr').
    split; [done|]. eexists. split; [exact Hr'|]. cbn. rewrite fmap_delete, Hs, Hx, Hx'. split_and!; [|done..].
    intros p b [_ H]%lookup_delete_Some. by eapply Hm.
Qed.

Definition empty_heap {U} (u : U) : heap U := Heap ∅ ∅ 1 1 u.
Definition empty_spec : spec_state := SpecState ∅ 1.

Lemma refines_empty {U} (u : U) : refines (empty_heap u) empty_spec.
Proof.
  exists ∅. split_and!; [|by intros ? ? ?%lookup_empty_Some | done | done].
  split; cbn; first [done | by rewrite fmap_empty | by intros ?; rewrite dom_empty, elem_of_empty].
Qed.

Lemma queue_ops_refine {U} ops (h : heap U) s rs s' :
  refines h s -> spec_ops ops s = Some (rs, s') ->
  wp (run_queue_ops ops) (fun rs' h' => rs' = rs /\ refines h' s') h.
Proof.
  revert h s rs. induction ops as [|op ops IH]; intros h s rs Hr; cbn [spec_ops].
  - by intros [= <- <-].
  - destruct (spec_op op s) as [[r s1]|] eqn:E; [|done]. cbn.
    destruct (spec_ops ops s1) as [[rs1 s2]|] eqn:E2; [|done]. intros [= <- <-].
    apply wp_bind. eapply wp_mono; [by eapply queue_op_refines|]. cbn. intros ? h1 [-> Hr1].
    apply wp_bind. eapply wp_mono; [by eapply IH|]. by intros ? h2 [-> Hr2].
Qed.

(** C35: Queues are lists.  Any sequence of the operations of [queue.c] on any number of
    queues, none of which is used after it was destroyed, goes through without
    following a pointer to freed memory, every loop ends, and each operation returns
    what it returns on lists: pushing, popping, removing and finding in order, the
    length modulo 2^32. *)
Theorem queue_run_refines {U} (u : U) ops rs s' :
  spec_ops ops empty_spec = Some (rs, s') ->
  exists h, run_queue_ops ops (empty_heap u) = Ok (rs, h) /\ refines h s'.
Proof.
  intros Hs. pose proof (queue_ops_refine ops _ _ _ _ (refines_empty u) Hs) as H.
  apply wp_ok in H as (? & h & Hrun & -> & Hr). by exists h.
Qed.

Lemma queue_run_refines_witness :
  exists h, run_queue_ops [QNew; QPushTail (Some 1) 7; QPushHead (Some 1) 8; QPushAfter (Some 1) 8 9;
      QRemove (Some 1) 7; QPushTail (Some 1) 5; QPopHead (Some 1); QPeekTail (Some 1); QLength (Some 1)]
      (empty_heap tt) = Ok ([1; 1; 1; 1; 1; 1; 8; 5; 2], h) /\ refines h (SpecState {[1 := [9; 5]]} 2).
Proof.
  refine (queue_run_refines tt _ _ _ _). by vm_compute.
Defined.

(** ** Walking a queue that its callback changes

    A callback may do anything that leaves the entries after its own in place: remove
    its own entry, those before, push at the head.  [I visited h] is what the callbacks
    establish. *)
Section Foreach.
Context {U : Type} (q : Z) (f : Z -> St (heap U) unit) (I : list Z -> heap U -> Prop).

Definition followed_by (h : heap U) (refs : Z) (rest : list (Z * Z)) : Prop :=
  exists m front, rep h m /\ m !! q = Some (AQueue refs (front ++ rest)).
Definition keeps_following : Prop :=
  ∀ visited h refs e d rest, 1 < refs -> I visited h -> followed_by h refs ((e, d) :: rest) ->
    wp (f d) (fun _ h' => I (visited ++ [d]) h' /\ followed_by h' refs rest) h.

Lemma wp_foreach_loop fuel visited h refs rest :
  keeps_following -> 1 < refs -> I visited h -> followed_by h refs rest -> (length rest <= fuel)%nat ->
  wp (foreach_loop fuel q f (head_or rest None))
     (fun _ h' => I (visited ++ (snd <$> rest)) h' /\ followed_by h' refs []) h.
Proof.
  intros Hf Hrefs. revert visited h rest. induction fuel as [|fuel IH]; intros visited h [|[e d] rest] HI Hr Hl;
    cbn in Hl; try lia; try (rewrite app_nil_r; done).
  cbn [head_or foreach_loop]. destruct (Hr) as (m & front & Hrep & Ha).
  apply wp_bind. eapply wp_get_queue; [by eapply rep_lookup|]. cbn [qv q_head q_ref_count a_items a_refs].
  destruct (first_id_some front e d rest) as [x ->]. cbn [is_null orb].
  rewrite (proj2 (Z.leb_gt refs 1)) by done.
  apply wp_bind. eapply wp_get_cell; [eapply (seg_cell _ _ front), (rep_seg _ _ Hrep _ _ Ha)|]. cbn [c_data c_next].
  apply wp_bind. eapply wp_mono; [by eapply Hf|]. intros _ h1 [HI1 Hr1].
  eapply wp_mono; [apply (IH _ _ rest HI1 Hr1); lia|]. intros ? h2. by rewrite fmap_cons, <-app_assoc.
Qed.
End Foreach.

(** The callback sees each element of the queue once, in order, and the reference the
    walk holds is given back: if nothing else destroyed the queue, it is as it was but
    for what the callbacks did. *)
Theorem queue_foreach_visits {U} q f (I : list Z -> heap U -> Prop) h m l fuel :
  keeps_following q f I -> rep h m -> m !! q = Some (AQueue 1 l) -> (length l <= fuel)%nat ->
  (∀ visited h h', h_cells h = h_cells h' -> h_user h = h_user h' -> I visited h -> I visited h') -> I [] h ->
  wp (queue_foreach fuel (Some q) (Some f)) (fun _ h' => I (snd <$> l) h' /\ exists m' l', rep h' m' /\
    m' !! q = Some (AQueue 1 l')) h.
Proof.
  intros Hf Hr Ha Hl HIq HI. pose proof (rep_lookup _ _ _ _ Hr Ha) as Hq.
  unfold queue_foreach. do 2 q_step. cbn [qv q_head a_items].
  destruct l as [|[e d] l]; [split; [done|]; by exists m, []|]. rewrite first_id_cons.
  unfold queue_ref. q_step. q_step. cbn [qv q_ref_count a_refs set_ref_count].
  assert (Hrefs : ∀ (hh : heap U) mm k k' x, rep hh mm -> mm !! q = Some (AQueue k x) ->
    rep (set_queues (<[q := qv (AQueue k' x)]> (h_queues hh)) hh) (<[q := AQueue k' x]> mm)).
  { intros hh mm k k' x Hrep Hx. destruct (rep_at _ _ _ _ Hrep Hx) as (_ & H1 & H2 & _ & H4).
    eapply (rep_update hh); cbn; eauto. }
  apply wp_bind. eapply wp_mono;
    [apply (wp_foreach_loop q f I fuel [] _ 2 ((e, d) :: l)); [done | lia | by eapply HIq; [..|exact HI] | | done]|].
  - exists (<[q := AQueue 2 ((e, d) :: l)]> m), []. rewrite lookup_insert_eq. split; [|done].
    by apply (Hrefs h m 1 2).
  - cbn. intros _ h' [HI' (m' & front & Hr' & Ha')]. rewrite app_nil_r in Ha'.
    pose proof (rep_lookup _ _ _ _ Hr' Ha') as Hq'. unfold queue_unref. do 4 q_step.
    change (truth (q_ref_count (qv (AQueue 2 front)) - 1)) with true. apply wp_ret.
    split; [by eapply HIq; [..|exact HI']|].
    exists (<[q := AQueue 1 front]> m'), front. split; [by apply (Hrefs h' m' 2 1) | by rewrite lookup_insert_eq].
Qed.

(** Removing each element from its own callback empties the queue. *)
Definition three : list queue_op := [QNew; QPushTail (Some 1) 7; QPushTail (Some 1) 8; QPushTail (Some 1) 9].
Example foreach_remove_self :
  (_ ← run_queue_ops three;
   _ ← queue_foreach 3 (Some 1) (Some (fun d => _ ← queue_remove (Some 1) d; mret tt));
   queue_length (Some 1)) (empty_heap tt) = Ok (0, Heap {[1 := Queue 1 None None 0]} ∅ 2 4 tt).
Proof. by vm_compute. Qed.

(** Removing the next one is an access to freed memory. *)
Example foreach_remove_next :
  (_ ← run_queue_ops three;
   queue_foreach 3 (Some 1) (Some (fun d => _ ← queue_remove (Some 1) (d + 1); mret tt))) (empty_heap tt)
  = Fault UseAfterFree.
Proof. by vm_compute. Qed.

(** Destroying the queue ends the walk: the reference keeps the queue itself. *)
Example foreach_destroy :
  (_ ← run_queue_ops three;
   queue_foreach 3 (Some 1) (Some (fun d => queue_destroy (Some 1) None))) (empty_heap tt)
  = Ok (tt, Heap ∅ ∅ 2 4 tt).
Proof. by vm_compute. Qed.
