(* ===== verification/SharedUtil.v ===== *)
(** * Shared utilities

    [src/blueZ/src/shared/util.c]: the hexadecimal dump, identifiers from a bit map,
    the names of UUIDs and appearances, and the two string functions that
    [src/shared/shell.c] parses its command descriptions with.  A C string is the
    list of its characters, without the terminator. *)

From Stdlib Require Import String Sorted.
From S2P Require Import Prelude Bytes Util Words UuidNames.
Open Scope string_scope.
Open Scope list_scope.
Open Scope Z_scope.

(** ** Hexadecimal dump

    [str] is the array of 68 characters, whatever it holds at first; a line is handed
    to the callback up to the terminator.  [isprint] in the C locale. *)
Definition isprint (c : Z) : bool := (32 <=? c) && (c <=? 126).
Definition hexdump_byte (str : list Z) (i b : Z) : res (list Z) :=
  str ← wr str (i mod 16 * 3 + 1) 32;
  hi ← rd hexdigits (Z.shiftr b 4);
  str ← wr str (i mod 16 * 3 + 2) hi;
  lo ← rd hexdigits (Z.land b 0xf);
  str ← wr str (i mod 16 * 3 + 3) lo;
  wr str (i mod 16 + 51) (if isprint b then b else 46).
Definition hexdump_end (str : list Z) : res (list Z) :=
  str ← wr str 49 32; str ← wr str 50 32; wr str 67 0.

Definition hexdump_pad (str : list Z) (j : Z) : res (list Z) :=
  str ← wr str (j * 3 + 1) 32; str ← wr str (j * 3 + 2) 32; str ← wr str (j * 3 + 3) 32; wr str (j + 51) 32.

(** The loop from octet [i] on; the lines in order, the array and the index after it. *)
Fixpoint hexdump_loop (buf : list Z) (i : Z) (str : list Z) : res (list (list Z) * list Z) :=
  match buf with
  | [] =>
      if 0 <? i mod 16 then
        str ← foldM (fun j str => hexdump_pad str j) (seqZ (i mod 16) (16 - i mod 16)) str;
        str ← hexdump_end str; mret ([c_string str], str)
      else mret ([], str)
  | b :: buf' =>
      str ← hexdump_byte str i b;
      if (i + 1) mod 16 =? 0 then
        str ← hexdump_end str;
        str' ← wr str 0 32;
        '(lines, str') ← hexdump_loop buf' (i + 1) str';
        mret (c_string str :: lines, str')
      else hexdump_loop buf' (i + 1) str
  end.
(** [function] is there or NULL; the lines it is called with. *)
Definition util_hexdump (dir : Z) (buf : list Z) (function : bool) (str : list Z) : res (list (list Z)) :=
  if negb function || (len buf =? 0) then mret []
  else str ← wr str 0 dir; '(lines, _) ← hexdump_loop buf 0 str; mret lines.

(** ** Identifiers from a bit map

    [ffs]: the least bit that is set, counted from 1, or 0. *)
Fixpoint ffs_from (n : nat) (i : Z) (x : Z) : Z :=
  match n with
  | O => 0
  | S n' => if Z.testbit x i then i + 1 else ffs_from n' (i + 1) x
  end.
Definition ffs (x : Z) : Z := ffs_from 32 0 x.
(** [~] on an [unsigned int]. *)
Definition not32 (x : Z) : Z := Z.lxor x 0xffffffff.
(** [1 << n] of an [int], as its bits: the count has to be below the width. *)
Definition bit32 (n : Z) : res Z := if (0 <=? n) && (n <? 32) then Ok (Z.shiftl 1 n) else Fault BadShift.

Definition util_get_uid (bitmap max : Z) : res (Z * Z) :=
  let id := u8 (ffs (not32 bitmap)) in
  if (id =? 0) || (max <? id) then mret (0, bitmap)
  else b ← bit32 (id - 1); mret (id, Z.lor bitmap b).
Definition util_clear_uid (bitmap id : Z) : res Z :=
  if id =? 0 then mret bitmap else b ← bit32 (id - 1); mret (Z.land bitmap (not32 b)).

(** ** Names *)
Definition bt_uuid16_to_str (uuid : Z) : string :=
  match find_first (fun x => fst x =? uuid) uuid16_table with Some (_, str) => str | None => "Unknown" end.
Definition bt_uuid32_to_str (uuid : Z) : string :=
  if Z.land uuid 0xffff0000 =? 0 then bt_uuid16_to_str (Z.land uuid 0x0000ffff) else "Unknown".

Definition tolower (c : Z) : Z := if (65 <=? c) && (c <=? 90) then c + 32 else c.
Definition strcaseeq (a b : list Z) : bool := bool_decide (tolower <$> a = tolower <$> b).

(** [strtol] with base 0 takes the base from the digits. *)
Definition strtol0 (s : list Z) : Z * Z :=
  let t := skip_spaces s in
  let digits := drop (Z.to_nat (sign_len t)) t in
  let base :=
    match digits with
    | z :: _ => if z =? 48 then (if 0 <? hex_prefix 16 digits then 16 else 8) else 10
    | [] => 10
    end in
  strtol base s.

(** [%08x]: at most [w] characters after white space; the value and what follows. *)
Fixpoint scan_hex_digits_upto (w : nat) (s : list Z) (acc : Z) (any : bool) : option (Z * list Z) :=
  match w, s with
  | S w', c :: s' =>
      match hex_digit c with
      | Some d => scan_hex_digits_upto w' s' (16 * acc + d) true
      | None => if any then Some (acc, s) else None
      end
  | _, _ => if any then Some (acc, s) else None
  end.
Definition scan_hex_width (w : nat) (s : list Z) : option (Z * list Z) :=
  let t := skip_spaces s in
  let '(neg, w1, t1) :=
    match t with
    | c :: t' => if is_sign c then (c =? 45, pred w, t') else (false, w, t)
    | [] => (false, w, t)
    end in
  let '(w2, t2) :=
    match t1, w1 with
    | z :: x :: t', S (S w') =>
        if (z =? 48) && ((x =? 120) || (x =? 88)) then (w', t') else (w1, t1)
    | _, _ => (w1, t1)
    end in
  '(v, r) ← scan_hex_digits_upto w2 t2 0 false; Some (u32 (if neg then - v else v), r).

Definition base_uuid_suffix : list Z := octets "-0000-1000-8000-00805f9b34fb".
(** What [bt_uuidstr_to_str] returns, or [None] for NULL. *)
Definition bt_uuidstr_to_str (uuid : list Z) : option string :=
  if len uuid <? 36 then
    let '(v, n) := strtol0 uuid in
    if n =? len uuid then
      let val := u32 v in
      Some (if 0xffff <? val then bt_uuid32_to_str val else bt_uuid16_to_str val)
    else None
  else if negb (len uuid =? 36) then None
  else
    match find_first (fun x => strcaseeq (octets (fst x)) uuid) uuid128_table with
    | Some (_, str) => Some str
    | None =>
        if negb (strcaseeq (drop 8 uuid) base_uuid_suffix) then Some "Vendor specific"
        else '(val, _) ← scan_hex_width 8 uuid; Some (bt_uuid32_to_str val)
    end.

(** The loop of [bt_appear_to_str]: [type] is the last category passed. *)
Fixpoint appear_loop (l : list (Z * bool * string)) (appearance : Z) (type : string) : string :=
  match l with
  | [] => type
  | (val, generic, str) :: l' =>
      if generic && (appearance <? val) then type
      else if val =? appearance then str
      else appear_loop l' appearance (if generic then str else type)
  end.
Definition bt_appear_to_str (appearance : Z) : string :=
  appear_loop appearance_table appearance (match appearance_table with (_, _, str) :: _ => str | [] => "" end).

(** ** Strings

    [strdelimit] replaces every character of [del] by [c].  The inner loop calls
    [strchr] on the place of the last replacement. *)
Fixpoint replace_loop (fuel : nat) (d c : Z) (s : list Z) : res (list Z) :=
  match s with
  | [] => mret []
  | x :: s' =>
      match fuel with
      | O => Fault OutOfFuel
      | S fuel' =>
          if x =? d then replace_loop fuel' d c (c :: s')
          else r ← replace_loop fuel' d c s'; mret (x :: r)
      end
  end.
Definition strdelimit_fuel (s : list Z) : nat := 2 * length s.
Definition strdelimit (str : list Z) (del : list Z) (c : Z) : res (list Z) :=
  foldM (fun d s => replace_loop (strdelimit_fuel s) d c s) del str.

(** [strncmp] of two strings that both have [n] characters. *)
Fixpoint strncmp_eq (a b : list Z) : Z :=
  match a, b with
  | x :: a', y :: b' => if x =? y then strncmp_eq a' b' else x - y
  | _, _ => 0
  end.
Definition strsuffix (str suffix : list Z) : Z :=
  if (len str =? 0) && negb (len suffix =? 0) then -1
  else if (len suffix =? 0) && negb (len str =? 0) then -1
  else if len str <? len suffix then -1
  else strncmp_eq (drop (length str - length suffix) str) suffix.

(** ** The dump as text: sixteen octets to a line *)
Definition hi_char (b : Z) : Z := digit_char (b / 16).
Definition lo_char (b : Z) : Z := digit_char (b mod 16).
Definition print_char (b : Z) : Z := if isprint b then b else 46.
Definition hexdump_line (lead : Z) (chunk : list Z) : list Z :=
  let pad := (16 - length chunk)%nat in
  lead :: concat ((fun b => [32; hi_char b; lo_char b]) <$> chunk) ++ replicate (3 * pad) 32 ++
  [32; 32] ++ (print_char <$> chunk) ++ replicate pad 32.
Fixpoint hexdump_lines (n : nat) (lead : Z) (buf : list Z) : list (list Z) :=
  match n, buf with
  | S n', _ :: _ => hexdump_line lead (take 16 buf) :: hexdump_lines n' 32 (drop 16 buf)
  | _, _ => []
  end.

Lemma hexdigit_nibble b : is_u8 b ->
  rd hexdigits (Z.shiftr b 4) = Ok (hi_char b) /\ rd hexdigits (Z.land b 0xf) = Ok (lo_char b).
Proof.
  intros Hb.
  pose proof (all_below_spec 256 (fun b =>
    match rd hexdigits (Z.shiftr b 4), rd hexdigits (Z.land b 0xf) with
    | Ok x, Ok y => (x =? hi_char b) && (y =? lo_char b) | _, _ => false end) b ltac:(by vm_compute) Hb) as H.
  cbn beta in H. destruct (rd hexdigits (Z.shiftr b 4)), (rd hexdigits (Z.land b 15)); try done.
  bool_hyps. by subst.
Qed.

(** The array after one octet, and after the octets of a chunk. *)
Definition put_byte (str : list Z) (j : nat) (b : Z) : list Z :=
  <[(51 + j)%nat := print_char b]> (<[(3 * j + 3)%nat := lo_char b]>
    (<[(3 * j + 2)%nat := hi_char b]> (<[(3 * j + 1)%nat := 32]> str))).
Fixpoint put_bytes (chunk : list Z) (j : nat) (str : list Z) : list Z :=
  match chunk with [] => str | b :: chunk' => put_bytes chunk' (S j) (put_byte str j b) end.
Definition put_pad (str : list Z) (j : nat) : list Z :=
  <[(51 + j)%nat := 32]> (<[(3 * j + 3)%nat := 32]> (<[(3 * j + 2)%nat := 32]> (<[(3 * j + 1)%nat := 32]> str))).
Definition put_end (str : list Z) : list Z := <[67%nat := 0]> (<[50%nat := 32]> (<[49%nat := 32]> str)).

Lemma len_put_bytes chunk j str : length (put_bytes chunk j str) = length str.
Proof.
  revert j str. induction chunk as [|b chunk IH]; intros j str; [done|]. cbn [put_bytes].
  rewrite IH. unfold put_byte. by rewrite !length_insert.
Qed.

Lemma put_bytes_snoc chunk b j str :
  put_bytes (chunk ++ [b]) j str = put_byte (put_bytes chunk j str) (j + length chunk) b.
Proof.
  revert j str. induction chunk as [|c chunk IH]; intros j str; cbn [app put_bytes length].
  - by rewrite Nat.add_0_r.
  - rewrite IH. f_equal. lia.
Qed.
Lemma len_put_pads l str : length (fold_left put_pad l str) = length str.
Proof.
  revert str. induction l as [|j l IH]; intros str; [done|]. cbn [fold_left].
  rewrite IH. unfold put_pad. by rewrite !length_insert.
Qed.

Lemma hexdump_byte_ok str i j b :
  length str = 68%nat -> is_u8 b -> i mod 16 = Z.of_nat j -> hexdump_byte str i b = Ok (put_byte str j b).
Proof.
  intros Hs Hb Hj. destruct (hexdigit_nibble b Hb) as [Hhi Hlo].
  assert (Hj' : (j < 16)%nat) by (pose proof (Z.mod_pos_bound i 16); lia).
  unfold hexdump_byte. rewrite Hj.
  rewrite wr_ok by (unfold len; lia). cbn [mbind res_bind]. rewrite Hhi. cbn [mbind res_bind].
  rewrite wr_ok by (unfold len; rewrite !length_insert; lia). cbn [mbind res_bind]. rewrite Hlo. cbn [mbind res_bind].
  rewrite wr_ok by (unfold len; rewrite !length_insert; lia). cbn [mbind res_bind].
  rewrite wr_ok by (unfold len; rewrite !length_insert; lia). unfold put_byte. repeat f_equal; lia.
Qed.
Lemma hexdump_end_ok str : length str = 68%nat -> hexdump_end str = Ok (put_end str).
Proof.
  intros Hs. unfold hexdump_end, put_end.
  rewrite wr_ok by (unfold len; lia). cbn [mbind res_bind].
  rewrite wr_ok by (unfold len; rewrite !length_insert; lia). cbn [mbind res_bind].
  by rewrite wr_ok by (unfold len; rewrite !length_insert; lia).
Qed.

(** Explicit lists. *)
Ltac explode l H :=
  destruct l as [|? l];
  [first [discriminate H | clear H] | first [discriminate H | injection H as H; explode l H]].

Lemma digit_char_pos d : 0 <= d < 16 -> digit_char d <> 0.
Proof.
  intros Hd. pose proof (all_below_spec 16 (fun d => negb (digit_char d =? 0)) d ltac:(by vm_compute) Hd) as H.
  cbn beta in H. by bool_hyps.
Qed.

(** A line, from whatever the array held before. *)
Lemma put_line lead chunk rest :
  (length chunk <= 16)%nat -> length rest = 67%nat ->
  put_end (fold_left put_pad (seq (length chunk) (16 - length chunk)) (put_bytes chunk 0 (lead :: rest))) =
  hexdump_line lead chunk ++ [0].
Proof.
  intros Hc Hr. explode rest Hr.
  do 17 (destruct chunk as [|? chunk]; [lazy -[hi_char lo_char print_char]; reflexivity|]). cbn in Hc. lia.
Qed.

Lemma c_string_terminated l : Forall (fun c => c <> 0) l -> c_string (l ++ [0]) = l.
Proof.
  induction 1 as [|c l Hc _ IH]; [done|]. cbn. rewrite (proj2 (Z.eqb_neq _ _)) by done. by rewrite IH.
Qed.
Lemma hexdump_line_text lead chunk :
  lead <> 0 -> bytes chunk -> Forall (fun c => c <> 0) (hexdump_line lead chunk).
Proof.
  intros Hl Hc. unfold hexdump_line. constructor; [done|]. rewrite !Forall_app. split_and!.
  - induction Hc as [|b chunk Hb _ IH]; [constructor|]. rewrite fmap_cons. cbn [concat]. apply Forall_app.
    split; [|done]. repeat constructor; [done | apply digit_char_pos; zlia | apply digit_char_pos; zlia].
  - by apply Forall_replicate.
  - by repeat constructor.
  - apply Forall_fmap. eapply Forall_impl; [exact Hc|]. intros b Hb. cbn. unfold print_char, isprint.
    destruct (Z.leb_spec 32 b), (b <=? 126); cbn; lia.
  - by apply Forall_replicate.
Qed.

Lemma hexdump_pads_ok n j str :
  length str = 68%nat -> (j + n = 16)%nat ->
  foldM (fun j str => hexdump_pad str j) (seqZ (Z.of_nat j) (Z.of_nat n)) str =
  Ok (fold_left put_pad (seq j n) str).
Proof.
  revert j str. induction n as [|n IH]; intros j str Hs Hj; [done|].
  rewrite seqZ_cons by lia. cbn [foldM seq fold_left].
  assert (Hp : hexdump_pad str (Z.of_nat j) = Ok (put_pad str j)).
  { unfold hexdump_pad. do 4 (rewrite wr_ok by (unfold len; rewrite ?length_insert; lia); cbn [mbind res_bind]).
    unfold put_pad. repeat f_equal; lia. }
  rewrite Hp. cbn [mbind res_bind]. rewrite <-IH; [|by unfold put_pad; rewrite !length_insert | lia].
  do 2 f_equal; lia.
Qed.

(** Where a line starts, the loop runs to its end. *)
Lemma hexdump_fill chunk : ∀ buf i j str,
  length str = 68%nat -> bytes chunk -> i mod 16 = Z.of_nat j -> (j + length chunk < 16)%nat ->
  hexdump_loop (chunk ++ buf) i str = hexdump_loop buf (i + len chunk) (put_bytes chunk j str).
Proof.
  induction chunk as [|b chunk IH]; intros buf i j str Hs Hb Hi Hl.
  - cbn [app put_bytes]. f_equal. unfold len. cbn. lia.
  - apply Forall_cons in Hb as [Hb Hbs]. cbn [app hexdump_loop put_bytes length] in *.
    rewrite (hexdump_byte_ok _ _ _ _ Hs Hb Hi). cbn [mbind res_bind].
    assert (Hi1 : (i + 1) mod 16 = Z.of_nat (S j)) by zlia.
    rewrite Hi1. rewrite (proj2 (Z.eqb_neq _ 0)) by lia.
    rewrite (IH buf (i + 1) (S j)); [f_equal; rewrite len_cons; lia | by unfold put_byte; rewrite !length_insert | done..|lia].
Qed.

Lemma hexdump_loop_lines n : ∀ buf i lead rest,
  (length buf < 16 * n)%nat -> i mod 16 = 0 -> bytes buf -> lead <> 0 -> length rest = 67%nat ->
  exists str, hexdump_loop buf i (lead :: rest) = Ok (hexdump_lines n lead buf, str).
Proof.
  induction n as [|n IH]; intros buf i lead rest Hl Hi Hb Hlead Hr; [lia|].
  destruct buf as [|b0 buf0]; [exists (lead :: rest); cbn; by rewrite Hi|].
  set (buf := b0 :: buf0) in *.
  change (hexdump_lines (S n) lead buf) with
    (hexdump_line lead (take 16 buf) :: hexdump_lines n 32 (drop 16 buf)).
  assert (Hs : length (lead :: rest) = 68%nat) by (cbn; lia).
  assert (Hpos : (0 < length buf)%nat) by (cbn; lia). clearbody buf. clear b0 buf0.
  assert (Hline : ∀ k, length (take 16 buf) = k ->
    c_string (put_end (fold_left put_pad (seq k (16 - k)) (put_bytes (take 16 buf) 0 (lead :: rest)))) =
    hexdump_line lead (take 16 buf)).
  { intros k <-. rewrite put_line by (rewrite ?length_take; lia).
    by apply c_string_terminated, hexdump_line_text, Forall_take. }
  destruct (le_lt_dec 16 (length buf)) as [Hge | Hlt].
  - (* a full line, whose last octet is [b] *)
    destruct (lookup_lt_is_Some_2 buf 15) as [b Hb15]; [lia|].
    rewrite length_take, (Nat.min_l 16) in Hline by done. specialize (Hline _ eq_refl). cbn [seq Nat.sub fold_left] in Hline.
    rewrite (take_S_r _ _ _ Hb15) in Hline |- *. rewrite put_bytes_snoc, length_take, (Nat.min_l 15) in Hline by lia.
    assert (Hsplit := take_drop_middle buf 15 b Hb15).
    replace (hexdump_loop buf) with (hexdump_loop (take 15 buf ++ b :: drop 16 buf)) by by rewrite Hsplit.
    rewrite (hexdump_fill _ _ _ 0); [|done | by apply Forall_take | done | rewrite length_take; lia].
    assert (Hi15 : (i + len (take 15 buf)) mod 16 = Z.of_nat 15).
    { unfold len. rewrite length_take, Nat.min_l by lia. zlia. }
    cbn [hexdump_loop].
    assert (Hub : is_u8 b) by exact (Forall_lookup_1 _ _ _ _ Hb Hb15).
    rewrite (hexdump_byte_ok _ _ 15 b) by first [done | by rewrite len_put_bytes].
    cbn [mbind res_bind]. rewrite (proj2 (Z.eqb_eq _ 0)) by zlia.
    set (str := put_byte _ 15 b) in *.
    assert (Hstr : length str = 68%nat) by (unfold str, put_byte; by rewrite !length_insert, len_put_bytes).
    rewrite hexdump_end_ok by done. cbn [mbind res_bind].
    assert (Hend : length (put_end str) = 68%nat) by (unfold put_end; by rewrite !length_insert).
    rewrite wr_ok by (unfold len; lia). cbn [mbind res_bind].
    destruct (put_end str) as [|x str'] eqn:E; [done|].
    change (<[Z.to_nat 0 := 32]> (x :: str')) with (32 :: str').
    destruct (IH (drop 16 buf) (i + len (take 15 buf) + 1) 32 str') as [str2 Hstr2];
      [rewrite length_drop; lia | zlia | by apply Forall_drop | done | cbn in Hend; lia|].
    exists str2. rewrite Hstr2. change (0 + 15)%nat with 15%nat in Hline. fold str in Hline.
    rewrite E in Hline. cbn [mbind res_bind]. by rewrite Hline.
  - (* the last line *)
    rewrite take_ge in Hline |- * by lia. rewrite drop_ge by lia. specialize (Hline _ eq_refl).
    replace (hexdump_loop buf) with (hexdump_loop (buf ++ [])) by by rewrite app_nil_r.
    rewrite (hexdump_fill _ _ _ 0) by first [done | lia].
    assert (Hi' : (i + len buf) mod 16 = Z.of_nat (length buf)) by (unfold len; zlia).
    cbn [hexdump_loop]. rewrite Hi'. rewrite (proj2 (Z.ltb_lt 0 _)) by lia.
    replace (16 - Z.of_nat (length buf)) with (Z.of_nat (16 - length buf)) by lia.
    rewrite hexdump_pads_ok by first [lia | by rewrite len_put_bytes]. cbn [mbind res_bind].
    rewrite hexdump_end_ok; [|rewrite len_put_pads, len_put_bytes; done]. cbn [mbind res_bind].
    eexists. rewrite Hline. by destruct n.
Qed.

(** The dump is right.  From any array of 68 characters, [util_hexdump] of any octets
    never reads or writes outside its buffers, and its lines are sixteen octets each in
    hexadecimal and as text, the last one filled with blanks, the first marked with the
    direction. *)
Theorem hexdump_text dir buf str :
  bytes buf -> dir <> 0 -> length str = 68%nat ->
  util_hexdump dir buf true str = Ok (hexdump_lines (S (length buf / 16)) dir buf).
Proof.
  intros Hb Hd Hs. unfold util_hexdump. destruct buf as [|b buf]; [done|]. cbn [negb orb].
  rewrite (proj2 (Z.eqb_neq _ 0)) by (unfold len; cbn; lia).
  destruct str as [|x rest]; [done|]. rewrite wr_ok by (unfold len; lia). cbn [mbind res_bind].
  change (<[Z.to_nat 0 := dir]> (x :: rest)) with (dir :: rest).
  destruct (hexdump_loop_lines (S (length (b :: buf) / 16)) (b :: buf) 0 dir rest) as [str' ->]; try done.
  - pose proof (Nat.mod_upper_bound (length (b :: buf)) 16). pose proof (Nat.div_mod_eq (length (b :: buf)) 16). lia.
  - cbn in Hs. lia.
Qed.
Lemma hexdump_text_witness :
  util_hexdump 62 [0; 65; 255] true (rep 68 0) = Ok (hexdump_lines (S (length [0; 65; 255] / 16)) 62 [0; 65; 255]).
Proof. apply (hexdump_text 62 [0; 65; 255] (rep 68 0)); [by repeat constructor | done | done]. Defined.

(** ** Identifiers *)
Section Uid.
Implicit Types (bitmap max id : Z).

Lemma ffs_from_spec n : ∀ i x, 0 <= i ->
  (ffs_from n i x = 0 /\ ∀ j, i <= j < i + Z.of_nat n -> Z.testbit x j = false) \/
  (exists k, ffs_from n i x = k + 1 /\ i <= k < i + Z.of_nat n /\ Z.testbit x k = true /\
    ∀ j, i <= j < k -> Z.testbit x j = false).
Proof.
  induction n as [|n IH]; intros i x Hi; cbn [ffs_from]; [left; split; [done | lia]|].
  destruct (Z.testbit x i) eqn:E; [right; exists i; split_and!; [done | lia | lia | done | lia]|].
  destruct (IH (i + 1) x) as [[-> H] | (k & -> & Hk & Hx & H)]; [lia|left|right].
  - split; [done|]. intros j Hj. destruct (decide (j = i)) as [->|]; [done | apply H; lia].
  - exists k. split_and!; [done | lia | lia | done|]. intros j Hj.
    destruct (decide (j = i)) as [->|]; [done | apply H; lia].
Qed.

Lemma not32_bit x i : 0 <= i < 32 -> Z.testbit (not32 x) i = negb (Z.testbit x i).
Proof.
  intros Hi. unfold not32. rewrite Z.lxor_spec. change 0xffffffff with (Z.ones 32).
  rewrite Z.ones_spec_low by lia. by rewrite xorb_true_r.
Qed.
Lemma bit32_bit n i : 0 <= n -> 0 <= i -> Z.testbit (Z.shiftl 1 n) i = (i =? n).
Proof.
  intros Hn Hi. rewrite Z.shiftl_1_l, Z.pow2_bits_eqb by done. apply Z.eqb_sym.
Qed.

(** The identifiers of a bit map: those from 1 on whose bit is set. *)
Definition uid_used bitmap id : bool := Z.testbit bitmap (id - 1).

(** [util_get_uid] takes the least free identifier up to [max], if there is one, and
    marks exactly that one; otherwise it returns 0 and changes nothing. *)
Theorem get_uid_spec bitmap max :
  0 <= max -> exists id bitmap', util_get_uid bitmap max = Ok (id, bitmap') /\
    (id = 0 /\ bitmap' = bitmap /\ (∀ i, 1 <= i <= Z.min max 32 -> uid_used bitmap i = true) \/
     1 <= id <= Z.min max 32 /\ uid_used bitmap id = false /\ (∀ i, 1 <= i < id -> uid_used bitmap i = true) /\
     (∀ i, 1 <= i -> uid_used bitmap' i = uid_used bitmap i || (i =? id))).
Proof.
  intros Hmax. unfold util_get_uid, ffs, uid_used.
  destruct (ffs_from_spec 32 0 (not32 bitmap)) as [[-> H] | (k & -> & Hk & Hx & H)]; [done| |].
  - exists 0, bitmap. split; [done|]. left. split_and!; [done | done|]. intros i Hi.
    specialize (H (i - 1)). rewrite not32_bit in H by lia. apply negb_false_iff, H. lia.
  - rewrite u8_small by lia. rewrite (proj2 (Z.eqb_neq (k + 1) 0)) by lia.
    assert (Hlow : ∀ i, 1 <= i < k + 1 -> Z.testbit bitmap (i - 1) = true).
    { intros i Hi. specialize (H (i - 1)). rewrite not32_bit in H by lia. apply negb_false_iff, H. lia. }
    rewrite not32_bit in Hx by lia. apply negb_true_iff in Hx. cbn [orb].
    destruct (Z.ltb_spec max (k + 1)).
    + exists 0, bitmap. split; [done|]. left. split_and!; [done | done|]. intros i Hi. apply Hlow. lia.
    + exists (k + 1), (Z.lor bitmap (Z.shiftl 1 k)). unfold bit32.
      rewrite Z.add_simpl_r, (proj2 (Z.leb_le 0 k)), (proj2 (Z.ltb_lt k 32)) by lia. split; [done|]. right.
      split_and!; [lia | lia | done | done|]. intros i Hi. rewrite Z.lor_spec, bit32_bit by lia. f_equal. zbool.
Qed.
Lemma get_uid_spec_witness :
  exists id bitmap', util_get_uid 5 8 = Ok (id, bitmap') /\
    (id = 0 /\ bitmap' = 5 /\ (∀ i, 1 <= i <= Z.min 8 32 -> uid_used 5 i = true) \/
     1 <= id <= Z.min 8 32 /\ uid_used 5 id = false /\ (∀ i, 1 <= i < id -> uid_used 5 i = true) /\
     (∀ i, 1 <= i -> uid_used bitmap' i = uid_used 5 i || (i =? id))).
Proof. apply (get_uid_spec 5 8). lia. Defined.

(** Giving an identifier back frees it and no other; 0 frees nothing, and beyond 32
    there is no bit. *)
Theorem clear_uid_spec bitmap id :
  0 <= id ->
  if id =? 0 then util_clear_uid bitmap id = Ok bitmap
  else if 32 <? id then util_clear_uid bitmap id = Fault BadShift
  else exists bitmap', util_clear_uid bitmap id = Ok bitmap' /\
    ∀ i, 1 <= i <= 32 -> uid_used bitmap' i = uid_used bitmap i && negb (i =? id).
Proof.
  intros Hid. unfold util_clear_uid, bit32, uid_used. destruct (Z.eqb_spec id 0); [done|].
  rewrite (proj2 (Z.leb_le 0 (id - 1))) by lia. cbn [andb].
  destruct (Z.ltb_spec 32 id).
  - by rewrite (proj2 (Z.ltb_ge (id - 1) 32)) by lia.
  - rewrite (proj2 (Z.ltb_lt (id - 1) 32)) by lia. eexists. split; [done|]. intros i Hi.
    rewrite Z.land_spec, not32_bit, bit32_bit by lia. f_equal. f_equal. zbool.
Qed.
End Uid.

(** ** Strings *)
Lemma replace_loop_cons fuel d c x s :
  replace_loop (S fuel) d c (x :: s) =
  if x =? d then replace_loop fuel d c (c :: s) else r ← replace_loop fuel d c s; mret (x :: r).
Proof. done. Qed.

Lemma replace_loop_map d c s fuel :
  c <> d -> (2 * length s <= fuel)%nat ->
  replace_loop fuel d c s = Ok ((fun x => if x =? d then c else x) <$> s).
Proof.
  intros Hc. revert fuel. induction s as [|x s IH]; intros fuel Hf; [by destruct fuel|].
  cbn in Hf. destruct fuel as [|[|fuel]]; [lia.. |]. rewrite fmap_cons, replace_loop_cons.
  destruct (x =? d) eqn:E.
  - rewrite replace_loop_cons, (proj2 (Z.eqb_neq c d)) by done. by rewrite IH by lia.
  - by rewrite IH by lia.
Qed.

(** Every delimiter is replaced, as long as the replacement is not one itself. *)
Theorem strdelimit_spec str del c :
  c ∉ del -> strdelimit str del c = Ok ((fun x => if bool_decide (x ∈ del) then c else x) <$> str).
Proof.
  unfold strdelimit. revert str. induction del as [|d del IH]; intros str Hc; cbn [foldM].
  - rewrite <-(list_fmap_id str) at 1. do 2 f_equal.
  - apply not_elem_of_cons in Hc as [Hd Hc]. rewrite replace_loop_map by done. cbn [mbind res_bind].
    rewrite IH by done. rewrite <-list_fmap_compose. f_equal. apply list_fmap_ext. intros _ x _. cbn.
    destruct (Z.eqb_spec x d) as [->|Hx].
    + rewrite (bool_decide_eq_false_2 (c ∈ del)) by done. by rewrite bool_decide_eq_true_2 by left.
    + rewrite (bool_decide_ext (x ∈ d :: del) (x ∈ del)); [done|]. rewrite elem_of_cons. split; [intros [?|?]; done | by right].
Qed.

(** If it is one, the loop stays at the first place where it stands. *)
Theorem strdelimit_diverges c s : c ∈ s -> ∀ fuel, replace_loop fuel c c s = Fault OutOfFuel.
Proof.
  intros Hc fuel. revert s Hc. induction fuel as [|fuel IH]; intros [|x s] Hc; [by apply elem_of_nil in Hc | done
    | by apply elem_of_nil in Hc |].
  cbn [replace_loop]. destruct (Z.eqb_spec x c) as [->|Hx]; [apply IH; by left|].
  apply elem_of_cons in Hc as [->|Hc]; [done|]. by rewrite IH.
Qed.

Lemma strncmp_eq_spec a b : length a = length b -> strncmp_eq a b = 0 <-> a = b.
Proof.
  revert b. induction a as [|x a IH]; intros [|y b] Hl; try done. cbn in Hl |- *.
  destruct (Z.eqb_spec x y) as [->|Hx].
  - rewrite IH by lia. split; [by intros -> | by intros [= ->]].
  - split; [lia | by intros [= ? ?]].
Qed.

(** [strsuffix] is 0 exactly for a suffix. *)
Theorem strsuffix_spec str suffix :
  suffix <> [] -> strsuffix str suffix = 0 <-> suffix `suffix_of` str.
Proof.
  intros Hs. unfold strsuffix. destruct suffix as [|y suffix]; [done|]. clear Hs. set (suf := y :: suffix) in *.
  assert (Hpos : 0 < len suf) by (unfold suf; rewrite len_cons; pose proof (len_nonneg suffix); lia).
  clearbody suf. rewrite (proj2 (Z.eqb_neq (len suf) 0)) by lia. cbn [negb andb]. rewrite andb_true_r.
  destruct (Z.eqb_spec (len str) 0) as [E|E].
  - split; [done|]. intros Hsuf. apply suffix_length in Hsuf. unfold len in *. lia.
  - destruct (Z.ltb_spec (len str) (len suf)) as [Hlt|Hge].
    + split; [done|]. intros Hsuf%suffix_length. unfold len in *. lia.
    + unfold len in *. rewrite strncmp_eq_spec by (rewrite length_drop; lia). split.
      * intros H. exists (take (length str - length suf) str). rewrite <-H at 2. by rewrite take_drop.
      * intros [p ->]. rewrite length_app. replace (length p + length suf - length suf)%nat with (length p) by lia.
        apply drop_app_length.
Qed.

(** ** Names

    The name of the last category up to an appearance. *)
Definition appear_last (l : list (Z * bool * string)) (a : Z) (type : string) : string :=
  match last (List.filter (fun x => snd (fst x) && (fst (fst x) <=? a)) l) with
  | Some (_, str) => str | None => type end.
Lemma appear_loop_spec l a type :
  StronglySorted (fun x y => fst (fst x) < fst (fst y)) l ->
  appear_loop l a type =
  match find_first (fun x => fst (fst x) =? a) l with Some (_, str) => str | None => appear_last l a type end.
Proof.
  unfold find_first, appear_last. intros Hs. revert type.
  induction Hs as [|[[v g] s] l Hs IH Hl]; intros type; [done|].
  assert (Hbig : a < v -> List.find (fun x => fst (fst x) =? a) l = None /\
    List.filter (fun x : Z * bool * string => snd (fst x) && (fst (fst x) <=? a)) l = []).
  { intros Ha. clear IH Hs. induction Hl as [|[[w h] t] l Hw _ [IH1 IH2]]; [done|]. cbn in Hw |- *.
    rewrite (proj2 (Z.eqb_neq w a)), (proj2 (Z.leb_gt w a)), andb_false_r by lia. done. }
  cbn [appear_loop List.find List.filter fst snd].
  destruct (Z.ltb_spec a v) as [Hlt|Hge].
  - rewrite andb_true_r, (proj2 (Z.eqb_neq v a)), (proj2 (Z.leb_gt v a)), andb_false_r by lia.
    destruct (Hbig Hlt) as [H1 H2]. rewrite IH, H1, H2. by destruct g.
  - rewrite andb_false_r. destruct (Z.eqb_spec v a); [done|]. rewrite IH, (proj2 (Z.leb_le v a)), andb_true_r by lia.
    destruct (List.find _ l) as [[? ?]|]; [done|]. destruct g; [|done].
    set (f := List.filter _ l). destruct f as [|x f]; [done|]. change ((v, true, s) :: x :: f) with ([(v, true, s)] ++ x :: f).
    rewrite last_app_cons. by destruct (last (x :: f)) as [[? ?]|] eqn:E; [|apply last_None in E].
Qed.

Fixpoint strictly_below (v : Z) (l : list (Z * bool * string)) : bool :=
  match l with [] => true | x :: l' => (v <? fst (fst x)) && strictly_below (fst (fst x)) l' end.
Lemma strictly_below_sorted v l :
  strictly_below v l = true ->
  StronglySorted (fun x y => fst (fst x) < fst (fst y)) l /\ Forall (fun x => v < fst (fst x)) l.
Proof.
  revert v. induction l as [|x l IH]; intros v; [by repeat constructor|]. cbn. intros [Hv%Z.ltb_lt H]%andb_true_iff.
  destruct (IH _ H) as [H1 H2]. split; [by constructor|]. constructor; [done|].
  eapply Forall_impl; [exact H2|]. cbn. lia.
Qed.

(** [bt_appear_to_str] names an appearance as the table does, or by its category. *)
Theorem appear_names a : bt_appear_to_str a =
  match find_first (fun x => fst (fst x) =? a) appearance_table with
  | Some (_, str) => str
  | None => appear_last appearance_table a "Unknown"
  end.
Proof.
  unfold bt_appear_to_str. rewrite appear_loop_spec; [done|].
  exact (proj1 (strictly_below_sorted (-1) appearance_table eq_refl)).
Qed.
Example appear_200 : bt_appear_to_str 200 = "Watch".
Proof. reflexivity. Qed.

(** No UUID has two names in a table, so every entry is found. *)
Lemma uuid16_table_nodup : NoDup (fst <$> uuid16_table).
Proof. apply (bool_decide_unpack _). by vm_compute. Qed.
Theorem uuid16_names uuid str : (uuid, str) ∈ uuid16_table -> bt_uuid16_to_str uuid = str.
Proof.
  intros H. unfold bt_uuid16_to_str.
  assert (Hf := find_first_key fst uuid16_table (uuid, str) uuid16_table_nodup H). cbn [fst] in Hf. by rewrite Hf.
Qed.
