(* ===== verification/Uuid.v ===== *)
(** * UUIDs

    [src/blueZ/lib/uuid.c]: UUIDs of 16, 32 and 128 bits, their comparison, and their
    text, by which [main.c] and [gatt.c] tell the services and characteristics of the
    mesh. *)

From Stdlib Require Import String.
From S2P Require Import Prelude Bytes Util Words UuidNames SharedUtil.
Open Scope string_scope.
Open Scope list_scope.
Open Scope Z_scope.

(** ** Values: [bt_uuid_t], a type and a union *)
Inductive bt_uuid :=
| BT_UUID_UNSPEC
| BT_UUID16 (v : Z)
| BT_UUID32 (v : Z)
| BT_UUID128 (data : list Z).

Definition bluetooth_base_uuid : list Z :=
  [0x00; 0x00; 0x00; 0x00; 0x00; 0x00; 0x10; 0x00; 0x80; 0x00; 0x00; 0x80; 0x5F; 0x9B; 0x34; 0xFB].
Definition BASE_UUID16_OFFSET : nat := 2.
Definition BASE_UUID32_OFFSET : nat := 0.

(** [htons] and [htonl] put the value in big-endian order, [memcpy] over the base. *)
Definition over (base : list Z) (off : nat) (src : list Z) : list Z :=
  take off base ++ src ++ drop (off + length src) base.
Definition bt_uuid16_to_uuid128 (v : Z) : list Z := over bluetooth_base_uuid BASE_UUID16_OFFSET (to_be 2 v).
Definition bt_uuid32_to_uuid128 (v : Z) : list Z := over bluetooth_base_uuid BASE_UUID32_OFFSET (to_be 4 v).

(** The 128-bit value; for an unspecified UUID the destination is not written. *)
Definition bt_uuid_to_uuid128 (src : bt_uuid) : res (list Z) :=
  match src with
  | BT_UUID128 data => mret data
  | BT_UUID32 v => mret (bt_uuid32_to_uuid128 v)
  | BT_UUID16 v => mret (bt_uuid16_to_uuid128 v)
  | BT_UUID_UNSPEC => Fault Uninit
  end.

(** [memcmp]: the sign is that of the first octets that differ. *)
Fixpoint memcmp (a b : list Z) : Z :=
  match a, b with
  | x :: a', y :: b' => if x =? y then memcmp a' b' else x - y
  | _, _ => 0
  end.
Definition bt_uuid_cmp (uuid1 uuid2 : bt_uuid) : res Z :=
  u1 ← bt_uuid_to_uuid128 uuid1; u2 ← bt_uuid_to_uuid128 uuid2; mret (memcmp u1 u2).

(** ** Text *)
Definition EINVAL : Z := 22.
Definition dash : list Z := [45].
Definition uuid_string (data : list Z) : list Z :=
  let part (off n : nat) := digits 16 (2 * n) (of_be (take n (drop off data))) in
  part 0%nat 4%nat ++ dash ++ part 4%nat 2%nat ++ dash ++ part 6%nat 2%nat ++ dash ++ part 8%nat 2%nat ++ dash ++
  part 10%nat 4%nat ++ part 14%nat 2%nat.
(** [snprintf] into [n] characters: what is kept before the terminator. *)
Definition snprintf (text : list Z) (n : Z) : list Z := take (Z.to_nat (n - 1)) text.
Definition bt_uuid_to_string (uuid : option bt_uuid) (n : Z) : res (Z * list Z) :=
  match uuid with
  | None | Some BT_UUID_UNSPEC => mret (- EINVAL, snprintf (octets "NULL") n)
  | Some u => data ← bt_uuid_to_uuid128 u; mret (0, snprintf (uuid_string data) n)
  end.

(** ** Reading a text *)
Definition char_at (s : list Z) (i : nat) (c : Z) : bool := bool_decide (s !! i = Some c).
Definition is_uuid128 (s : list Z) : bool :=
  (len s =? 36) && char_at s 8 45 && char_at s 13 45 && char_at s 18 45 && char_at s 23 45.

(** The formats of [sscanf]: characters that stand for themselves, and [%1[...]]. *)
Fixpoint scan_lit (lit s : list Z) : option (list Z) :=
  match lit, s with
  | [], _ => Some s
  | c :: lit', x :: s' => if c =? x then scan_lit lit' s' else None
  | _ :: _, [] => None
  end.
Definition scan_set (a b : Z) (s : list Z) : option (list Z) :=
  match s with x :: s' => if (x =? a) || (x =? b) then Some s' else None | [] => None end.
Definition is_base_uuid128 (s : list Z) : bool :=
  if negb (is_uuid128 s) then false
  else
    match
      s ← scan_lit (octets "0000") s; '(_, s) ← scan_hex_width 4 s;
      s ← scan_lit (octets "-0000-1000-8000-00805") s; s ← scan_set 102 70 s;
      s ← scan_lit (octets "9") s; s ← scan_set 98 66 s;
      s ← scan_lit (octets "34") s; s ← scan_set 102 70 s; scan_set 98 66 s
    with Some _ => true | None => false end.
Definition is_uuid32 (s : list Z) : bool := (len s =? 8) || (len s =? 10).
Definition is_uuid16 (s : list Z) : bool := (len s =? 4) || (len s =? 6).

(** [strtol] ends at the terminator, or at a dash. *)
Definition bt_string_to_uuid16 (s : list Z) : option bt_uuid :=
  let '(v, n) := strtol 16 s in
  match s !! Z.to_nat n with
  | None => Some (BT_UUID16 (u16 v))
  | Some c => if c =? 45 then Some (BT_UUID16 (u16 v)) else None
  end.
Definition bt_string_to_uuid32 (s : list Z) : option bt_uuid :=
  let '(v, n) := strtol 16 s in
  match s !! Z.to_nat n with None => Some (BT_UUID32 (u32 v)) | Some _ => None end.
(** The six numbers of the format; [%hx] stores 16 bits. *)
Definition bt_string_to_uuid128 (s : list Z) : option bt_uuid :=
  '(data0, s) ← scan_hex_width 8 s; s ← scan_lit dash s;
  '(data1, s) ← scan_hex_width 4 s; s ← scan_lit dash s;
  '(data2, s) ← scan_hex_width 4 s; s ← scan_lit dash s;
  '(data3, s) ← scan_hex_width 4 s; s ← scan_lit dash s;
  '(data4, s) ← scan_hex_width 8 s;
  '(data5, _) ← scan_hex_width 4 s;
  Some (BT_UUID128 (to_be 4 data0 ++ to_be 2 data1 ++ to_be 2 data2 ++ to_be 2 data3 ++
                    to_be 4 data4 ++ to_be 2 data5)).

(** [None] is [-EINVAL]. *)
Definition bt_string_to_uuid (s : list Z) : option bt_uuid :=
  if is_base_uuid128 s then bt_string_to_uuid16 (drop 4 s)
  else if is_uuid128 s then bt_string_to_uuid128 s
  else if is_uuid32 s then bt_string_to_uuid32 s
  else if is_uuid16 s then bt_string_to_uuid16 s
  else None.
Definition bt_uuid_strcmp (a b : list Z) : res Z :=
  match bt_string_to_uuid a with
  | None => mret (- EINVAL)
  | Some u1 =>
      match bt_string_to_uuid b with
      | None => mret (- EINVAL)
      | Some u2 => bt_uuid_cmp u1 u2
      end
  end.

(** Little-endian for the air: [bswap_128] reverses the sixteen octets. *)
Definition bt_uuid_to_le (src : bt_uuid) : option (list Z) :=
  match src with
  | BT_UUID16 v => Some (to_le 2 v)
  | BT_UUID32 v => Some (reverse (bt_uuid32_to_uuid128 v))
  | BT_UUID128 data => Some (reverse data)
  | BT_UUID_UNSPEC => None
  end.

(** Values of their types. *)
Definition uuid_ok (u : bt_uuid) : Prop :=
  match u with
  | BT_UUID_UNSPEC => False
  | BT_UUID16 v => is_u16 v
  | BT_UUID32 v => is_u32 v
  | BT_UUID128 data => bytes data /\ length data = 16%nat
  end.

Example read_back_16 : bt_string_to_uuid (uuid_string (bt_uuid16_to_uuid128 0x1827)) = Some (BT_UUID16 0x1827).
Proof. reflexivity. Qed.
Example read_dash : bt_string_to_uuid (octets "12-4") = Some (BT_UUID16 0x12).
Proof. reflexivity. Qed.

(** ** The text, character by character *)
Lemma hi_lo_digit b : is_u8 b ->
  hex_digit (hi_char b) = Some (b / 16) /\ hex_digit (lo_char b) = Some (b mod 16).
Proof. intros Hb. split; apply hex_digit_char; zlia. Qed.
Lemma hi_lo_plain b : is_u8 b ->
  is_space (hi_char b) = false /\ is_sign (hi_char b) = false /\
  ((lo_char b =? 120) || (lo_char b =? 88)) = false.
Proof.
  intros Hb. destruct (digit_char_plain (b / 16)) as [H1 H2]; [zlia|]. split_and!; [done | done|].
  pose proof (all_below_spec 16 (fun d => negb ((digit_char d =? 120) || (digit_char d =? 88))) (b mod 16)
    ltac:(by vm_compute) ltac:(zlia)) as H. by apply negb_true_iff in H.
Qed.
Lemma digit_char_inj d e : 0 <= d < 16 -> 0 <= e < 16 -> digit_char d = digit_char e -> d = e.
Proof.
  intros Hd He H. assert (Some d = Some e) as [=]; [|done]. by rewrite <-!hex_digit_char, H.
Qed.
Lemma hi_char_const b d : is_u8 b -> 0 <= d < 16 -> digit_char d = hi_char b -> b / 16 = d.
Proof. intros Hb Hd H. symmetry. apply digit_char_inj; [done | zlia | done]. Qed.
Lemma lo_char_const b d : is_u8 b -> 0 <= d < 16 -> digit_char d = lo_char b -> b mod 16 = d.
Proof. intros Hb Hd H. symmetry. apply digit_char_inj; [done | zlia | done]. Qed.
Lemma lo_char_upper b c : is_u8 b -> 65 <= c <= 70 -> (lo_char b =? c) = false /\ (hi_char b =? c) = false.
Proof.
  intros Hb Hc. assert (H : ∀ d, 0 <= d < 16 -> (digit_char d =? c) = false).
  { intros d Hd. unfold digit_char. destruct (Z.ltb_spec d 10); apply Z.eqb_neq; lia. }
  split; apply H; zlia.
Qed.

Lemma hex_pair b : is_u8 b -> digits 16 2 b = [hi_char b; lo_char b].
Proof.
  intros Hb. cbn [digits]. change (16 ^ Z.of_nat 1) with 16. change (16 ^ Z.of_nat 0) with 1.
  rewrite Z.div_1_r, (Z.mod_small (b / 16)) by zlia. done.
Qed.
Lemma digits_app n k v : 0 <= v -> digits 16 (n + k) v = digits 16 n (v / 16 ^ Z.of_nat k) ++ digits 16 k v.
Proof.
  intros Hv. induction n as [|n IH]; [done|]. cbn [Nat.add digits app]. rewrite IH.
  rewrite Nat2Z.inj_add, Z.pow_add_r by lia.
  rewrite Z.div_div by (first [lia | apply Z.pow_nonzero; lia | apply Z.pow_pos_nonneg; lia]).
  by rewrite (Z.mul_comm (16 ^ Z.of_nat n)).
Qed.
(** Two digits for each octet. *)
Definition octet_chars (l : list Z) : list Z := concat ((fun b => [hi_char b; lo_char b]) <$> l).
Lemma digits_of_be l n : bytes l -> length l = n -> digits 16 (2 * n) (of_be l) = octet_chars l.
Proof.
  intros Hl <-. induction l as [|b l IH] using rev_ind; [done|].
  apply Forall_app in Hl as [Hl Hb]. apply Forall_cons in Hb as [Hb _]. pose proof (of_be_range l Hl) as Hr.
  unfold octet_chars in *. rewrite of_be_app, fmap_app, concat_app, <-IH by done. rewrite length_app.
  change (of_be [b]) with b. change (0x100 ^ len [b]) with 256. cbn [length].
  replace (2 * (length l + 1))%nat with (2 * length l + 2)%nat by lia. rewrite (digits_app (2 * length l) 2) by lia.
  change (16 ^ Z.of_nat 2) with 256. rewrite Z.div_add_l, (Z.div_small b), Z.add_0_r by lia. f_equal.
  rewrite fmap_cons, fmap_nil. cbn [concat app]. rewrite <-hex_pair by done. cbn [digits].
  change (16 ^ Z.of_nat 1) with 16. change (16 ^ Z.of_nat 0) with 1. rewrite !Z.div_1_r.
  f_equal; [f_equal; zlia|]. f_equal. f_equal. zlia.
Qed.

(** The 36 characters of the text. *)
Definition uuid_chars (l : list Z) : list Z :=
  octet_chars (take 4 l) ++ dash ++ octet_chars (take 2 (drop 4 l)) ++ dash ++ octet_chars (take 2 (drop 6 l)) ++
  dash ++ octet_chars (take 2 (drop 8 l)) ++ dash ++ octet_chars (take 4 (drop 10 l)) ++
  octet_chars (take 2 (drop 14 l)).
Lemma uuid_string_chars data : bytes data -> length data = 16%nat -> uuid_string data = uuid_chars data.
Proof.
  intros Hb Hl. unfold uuid_string, uuid_chars.
  rewrite !digits_of_be; try reflexivity; try (by apply Forall_take; first [done | by apply Forall_drop]);
    rewrite length_take, ?length_drop; lia.
Qed.

(** ** Reading numbers back *)
Lemma scan_byte a t w acc any :
  is_u8 a ->
  scan_hex_digits_upto (S (S w)) (hi_char a :: lo_char a :: t) acc any =
  scan_hex_digits_upto w t (256 * acc + a) true.
Proof.
  intros Ha. destruct (hi_lo_digit a Ha) as [H1 H2]. cbn [scan_hex_digits_upto]. rewrite H1, H2. f_equal. zlia.
Qed.
Lemma scan_start a t w :
  is_u8 a ->
  scan_hex_width (S (S w)) (hi_char a :: lo_char a :: t) =
  ('(v, r) ← scan_hex_digits_upto (S (S w)) (hi_char a :: lo_char a :: t) 0 false; Some (u32 v, r)).
Proof.
  intros Ha. destruct (hi_lo_plain a Ha) as (H1 & H2 & H3). unfold scan_hex_width. cbn [skip_spaces].
  rewrite H1, H2. by rewrite H3, andb_false_r.
Qed.

Lemma scan4 a b t : is_u8 a -> is_u8 b ->
  scan_hex_width 4 (octet_chars [a; b] ++ t) = Some (of_be [a; b], t).
Proof.
  intros Ha Hb. cbn [octet_chars fmap list_fmap concat app]. rewrite scan_start, !scan_byte by done. cbn.
  do 2 f_equal. rewrite u32_small by lia. unfold of_be. cbn [fold_left]. lia.
Qed.
Lemma scan8 a b c d t : is_u8 a -> is_u8 b -> is_u8 c -> is_u8 d ->
  scan_hex_width 8 (octet_chars [a; b; c; d] ++ t) = Some (of_be [a; b; c; d], t).
Proof.
  intros Ha Hb Hc Hd. cbn [octet_chars fmap list_fmap concat app]. rewrite scan_start, !scan_byte by done. cbn.
  do 2 f_equal. rewrite u32_small by lia. unfold of_be. cbn [fold_left]. lia.
Qed.

(** [strtol] stops at the dash. *)
Lemma strtol_dash a b t : is_u8 a -> is_u8 b ->
  strtol 16 (octet_chars [a; b] ++ 45 :: t) = (of_be [a; b], 4).
Proof.
  intros Ha Hb. destruct (hi_lo_plain a Ha) as (H1 & H2 & H3).
  destruct (hi_lo_digit a Ha) as [D1 D2]. destruct (hi_lo_digit b Hb) as [D3 D4].
  unfold strtol. cbn [octet_chars fmap list_fmap concat app skip_spaces]. rewrite H1.
  cbn [sign_len is_negative]. rewrite H2. change (Z.to_nat 0) with 0%nat. cbn [drop].
  assert (Hx : ∀ u, hex_prefix 16 (hi_char a :: lo_char a :: hi_char b :: u) = 0).
  { intros u. cbn [hex_prefix]. by rewrite H3, andb_false_r. }
  rewrite Hx. change (Z.to_nat 0) with 0%nat. cbn [drop scan_digits].
  rewrite D1, D2, D3, D4, !(proj2 (Z.ltb_lt _ 16)) by zlia. cbn [hex_digit is_digit]. cbn.
  assert ((hi_char a =? 45) = false) as -> by (unfold is_sign in H2; by apply orb_false_iff in H2 as [_ ?]).
  unfold of_be, clamp_long. cbn [fold_left]. f_equal; [zlia | lia].
Qed.

(** ** Whole texts *)
Lemma bytes_cons b l : bytes (b :: l) <-> is_u8 b /\ bytes l.
Proof. unfold bytes. by rewrite Forall_cons. Qed.
Lemma bytes_nil : bytes [].
Proof. constructor. Qed.
Ltac octets_ok := first [done | rewrite ?bytes_cons; auto 6 using bytes_nil; tauto].
Ltac uuid_octets data Hb Hl :=
  explode data Hl; unfold bytes in Hb;
  repeat match type of Hb with Forall _ (_ :: _) => apply Forall_cons in Hb as [? Hb] end; cbn beta in *.

Lemma uuid_chars_128 data : length data = 16%nat -> is_uuid128 (uuid_chars data) = true.
Proof. intros Hl. explode data Hl. reflexivity. Qed.

Lemma scan_lit_dash t : scan_lit dash (dash ++ t) = Some t.
Proof. done. Qed.
Lemma to_be_of_be_n l n : bytes l -> length l = n -> to_be n (of_be l) = l.
Proof. intros Hl <-. by apply to_be_of_be. Qed.

Lemma read_uuid128 data : bytes data -> length data = 16%nat ->
  bt_string_to_uuid128 (uuid_chars data) = Some (BT_UUID128 data).
Proof.
  intros Hb Hl. pose proof Hb as Hall. uuid_octets data Hb Hl.
  unfold bt_string_to_uuid128, uuid_chars. cbn [take drop].
  rewrite scan8 by done. cbn [mbind option_bind]. rewrite scan_lit_dash. cbn [mbind option_bind].
  rewrite scan4 by done. cbn [mbind option_bind]. rewrite scan_lit_dash. cbn [mbind option_bind].
  rewrite scan4 by done. cbn [mbind option_bind]. rewrite scan_lit_dash. cbn [mbind option_bind].
  rewrite scan4 by done. cbn [mbind option_bind]. rewrite scan_lit_dash. cbn [mbind option_bind].
  rewrite scan8 by done. cbn [mbind option_bind]. rewrite <-(app_nil_r (octet_chars _)), scan4 by done.
  cbn [mbind option_bind].
  rewrite !to_be_of_be_n by octets_ok. done.
Qed.

(** The base form: read and recognised. *)
Lemma base_chars a b :
  over bluetooth_base_uuid BASE_UUID16_OFFSET [a; b] =
  [0; 0; a; b; 0; 0; 0x10; 0; 0x80; 0; 0; 0x80; 0x5f; 0x9b; 0x34; 0xfb].
Proof. done. Qed.

Lemma base_text a b :
  is_u8 a -> is_u8 b ->
  is_base_uuid128 (uuid_chars (over bluetooth_base_uuid BASE_UUID16_OFFSET [a; b])) = true.
Proof.
  intros Ha Hb. unfold is_base_uuid128. rewrite uuid_chars_128 by done. cbn [negb].
  set (s := uuid_chars _).
  assert (Hs : s = octets "0000" ++ octet_chars [a; b] ++ octets "-0000-1000-8000-00805f9b34fb") by reflexivity.
  rewrite Hs. change (scan_lit (octets "0000") (octets "0000" ++ ?t)) with (Some t).
  cbn [mbind option_bind]. rewrite scan4 by done. reflexivity.
Qed.

(** Each step of the match says what a character is. *)
Lemma scan_lit_cons c lit x s r : scan_lit (c :: lit) (x :: s) = Some r -> c = x /\ scan_lit lit s = Some r.
Proof. cbn. by destruct (Z.eqb_spec c x). Qed.
Lemma scan_set_cons a b x s r : scan_set a b (x :: s) = Some r -> (x = a \/ x = b) /\ r = s.
Proof. cbn. destruct (Z.eqb_spec x a), (Z.eqb_spec x b); cbn; naive_solver. Qed.
Definition char_value (c : Z) : Z := if c <? 58 then c - 48 else c - 87.
Lemma char_value_digit d : 0 <= d < 16 -> char_value (digit_char d) = d.
Proof. intros Hd. by_evaluation d. Qed.
Lemma hi_lo_value b : is_u8 b -> b / 16 = char_value (hi_char b) /\ b mod 16 = char_value (lo_char b).
Proof. intros Hb. split; symmetry; apply char_value_digit; zlia. Qed.
Lemma octet_from_chars b h l : is_u8 b -> h = hi_char b -> l = lo_char b -> b = 16 * char_value h + char_value l.
Proof. intros Hb -> ->. destruct (hi_lo_value b Hb) as [<- <-]. zlia. Qed.
(** No digit is written as a capital letter. *)
Lemma lower_f b : is_u8 b -> (lo_char b = 102 \/ lo_char b = 70 -> 102 = lo_char b) /\
  (hi_char b = 102 \/ hi_char b = 70 -> 102 = hi_char b) /\ (lo_char b = 98 \/ lo_char b = 66 -> 98 = lo_char b).
Proof.
  intros Hb. destruct (lo_char_upper b 70 Hb ltac:(lia)) as [H1%Z.eqb_neq H2%Z.eqb_neq].
  destruct (lo_char_upper b 66 Hb ltac:(lia)) as [H3%Z.eqb_neq _].
  split_and!; intros [?|?]; congruence.
Qed.

Ltac scan_lits E :=
  repeat (let H := fresh "C" in apply scan_lit_cons in E as [H E]); injection E as E.

Lemma is_base_inv data : bytes data -> length data = 16%nat ->
  is_base_uuid128 (uuid_chars data) = true ->
  data = over bluetooth_base_uuid BASE_UUID16_OFFSET (take 2 (drop 2 data)).
Proof.
  intros Hb Hl. unfold is_base_uuid128. rewrite uuid_chars_128 by done. cbn [negb].
  uuid_octets data Hb Hl. rename z into b0, z0 into b1, z1 into b2, z2 into b3, z3 into b4, z4 into b5, z5 into b6,
    z6 into b7, z7 into b8, z8 into b9, z9 into b10, z10 into b11, z11 into b12, z12 into b13, z13 into b14, z14 into b15.
  unfold uuid_chars. cbn [take drop].
  change (octet_chars [b0; b1; b2; b3]) with (octet_chars [b0; b1] ++ octet_chars [b2; b3]). rewrite <-app_assoc.
  destruct (scan_lit (octets "0000") _) as [s1|] eqn:E1; [|done]. cbn [mbind option_bind].
  change (octets "0000") with [48; 48; 48; 48] in E1. cbn [octet_chars fmap list_fmap concat app] in E1.
  scan_lits E1. subst s1.
  change (hi_char b2 :: lo_char b2 :: hi_char b3 :: lo_char b3 :: ?t) with (octet_chars [b2; b3] ++ t).
  rewrite scan4 by done. cbn [mbind option_bind].
  change (octets "-0000-1000-8000-00805") with
    [45; 48; 48; 48; 48; 45; 49; 48; 48; 48; 45; 56; 48; 48; 48; 45; 48; 48; 56; 48; 53].
  destruct (scan_lit _ _) as [s2|] eqn:E2; [|done]. scan_lits E2. subst s2. cbn [mbind option_bind].
  destruct (scan_set 102 70 _) as [s3|] eqn:E3; [|done]. apply scan_set_cons in E3 as [D1 ->]. cbn [mbind option_bind].
  destruct (scan_lit (octets "9") _) as [s4|] eqn:E4; [|done].
  change (octets "9") with [57] in E4. scan_lits E4. subst s4. cbn [mbind option_bind].
  destruct (scan_set 98 66 _) as [s5|] eqn:E5; [|done]. apply scan_set_cons in E5 as [D2 ->]. cbn [mbind option_bind].
  destruct (scan_lit (octets "34") _) as [s6|] eqn:E6; [|done].
  change (octets "34") with [51; 52] in E6. scan_lits E6. subst s6. cbn [mbind option_bind].
  destruct (scan_set 102 70 _) as [s7|] eqn:E7; [|done]. apply scan_set_cons in E7 as [D3 ->]. cbn [mbind option_bind].
  destruct (scan_set 98 66 _) as [s8|] eqn:E8; [|done]. apply scan_set_cons in E8 as [D4 _]. intros _.
  apply lower_f in D1; [|done]. apply lower_f in D2; [|done]. apply lower_f in D3; [|done]. apply lower_f in D4; [|done].
  rewrite base_chars. repeat f_equal.
  all: match goal with
    | Hh : _ = hi_char ?b, Hl : _ = lo_char ?b |- ?b = _ =>
        rewrite (octet_from_chars b _ _ ltac:(assumption) Hh Hl); reflexivity
    end.
Qed.

(** ** The theorems *)

(** A text is read back: as 16 bits if it has the base form, and whole otherwise. *)
Lemma read_back data : bytes data -> length data = 16%nat ->
  bt_string_to_uuid (uuid_string data) =
  Some (if bool_decide (data = over bluetooth_base_uuid BASE_UUID16_OFFSET (take 2 (drop 2 data)))
        then BT_UUID16 (of_be (take 2 (drop 2 data))) else BT_UUID128 data).
Proof.
  intros Hb Hl. rewrite uuid_string_chars by done. unfold bt_string_to_uuid.
  case_bool_decide as Hd.
  - assert (H2 : bytes (take 2 (drop 2 data))) by by apply Forall_take, Forall_drop.
    assert (Hlen : length (take 2 (drop 2 data)) = 2%nat) by (rewrite length_take, length_drop; lia).
    remember (take 2 (drop 2 data)) as w eqn:E. destruct w as [|a [|b [|c l]]]; try done. clear E.
    apply bytes_cons in H2 as [Ha [Hb2 _]%bytes_cons]. rewrite Hd, base_text by done.
    change (drop 4 (uuid_chars (over bluetooth_base_uuid BASE_UUID16_OFFSET [a; b]))) with
      (octet_chars [a; b] ++ 45 :: octets "0000-1000-8000-00805f9b34fb").
    unfold bt_string_to_uuid16. rewrite strtol_dash by done. cbn.
    rewrite u16_small; [done|]. unfold of_be. cbn [fold_left]. lia.
  - destruct (is_base_uuid128 (uuid_chars data)) eqn:E; [by apply is_base_inv in E|].
    rewrite uuid_chars_128 by done. by apply read_uuid128.
Qed.

Lemma to_uuid128_ok u : uuid_ok u ->
  exists data, bt_uuid_to_uuid128 u = Ok data /\ bytes data /\ length data = 16%nat.
Proof.
  assert (Hbase : bytes bluetooth_base_uuid) by (apply (bool_decide_unpack _); by vm_compute).
  destruct u as [|v|v|data]; cbn [bt_uuid_to_uuid128 uuid_ok]; [done| | |].
  - intros Hv. eexists. split; [done|]. split; [|done]. unfold bt_uuid16_to_uuid128, over, bytes.
    rewrite !Forall_app. split_and!; [by apply Forall_take | apply bytes_to_be | by apply Forall_drop].
  - intros Hv. eexists. split; [done|]. split; [|done]. unfold bt_uuid32_to_uuid128, over, bytes.
    rewrite !Forall_app. split_and!; [by apply Forall_take | apply bytes_to_be | by apply Forall_drop].
  - intros [? ?]. eauto.
Qed.

(** Every UUID survives being printed and read: the text reads back as a UUID with the
    same 128-bit value, and one of 16 bits as itself. *)
Theorem uuid_text_roundtrip u n :
  uuid_ok u -> 37 <= n ->
  exists text u', bt_uuid_to_string (Some u) n = Ok (0, text) /\ len text = 36 /\
    bt_string_to_uuid text = Some u' /\ bt_uuid_to_uuid128 u' = bt_uuid_to_uuid128 u /\
    (∀ v, u = BT_UUID16 v -> u' = u).
Proof.
  intros Hu Hn. destruct (to_uuid128_ok u Hu) as (data & Hd & Hb & Hl).
  assert (Htext : len (uuid_string data) = 36).
  { rewrite uuid_string_chars by done. explode data Hl. reflexivity. }
  assert (Hs : bt_uuid_to_string (Some u) n = Ok (0, uuid_string data)).
  { unfold bt_uuid_to_string. destruct u; [done | ..]; rewrite Hd; cbn [mbind res_bind]; unfold snprintf;
      rewrite take_ge by (unfold len in Htext; lia); done. }
  exists (uuid_string data). eexists. split; [exact Hs|]. split; [done|]. split; [by apply read_back|].
  assert (H16 : ∀ v, is_u16 v -> of_be (take 2 (drop 2 (bt_uuid16_to_uuid128 v))) = v).
  { intros v Hv. change (take 2 (drop 2 (bt_uuid16_to_uuid128 v))) with (to_be 2 v).
    rewrite of_be_to_be. by apply Z.mod_small. }
  case_bool_decide as Hbase.
  - split.
    + rewrite Hd. cbn [bt_uuid_to_uuid128]. unfold bt_uuid16_to_uuid128. rewrite to_be_of_be_n.
      * by rewrite <-Hbase.
      * by apply Forall_take, Forall_drop.
      * rewrite length_take, length_drop. lia.
    + intros v ->. cbn in Hd. injection Hd as <-. f_equal. by apply H16.
  - split; [by rewrite Hd|]. intros v ->. injection Hd as <-. by destruct Hbase.
Qed.
Lemma uuid_text_roundtrip_witness :
  exists text u', bt_uuid_to_string (Some (BT_UUID16 0x1827)) 64 = Ok (0, text) /\ len text = 36 /\
    bt_string_to_uuid text = Some u' /\ bt_uuid_to_uuid128 u' = bt_uuid_to_uuid128 (BT_UUID16 0x1827) /\
    (∀ v, BT_UUID16 0x1827 = BT_UUID16 v -> u' = BT_UUID16 0x1827).
Proof. apply (uuid_text_roundtrip (BT_UUID16 0x1827) 64); [by vm_compute | lia]. Defined.

Lemma memcmp_eq a b : length a = length b -> memcmp a b = 0 <-> a = b.
Proof.
  revert b. induction a as [|x a IH]; intros [|y b] Hl; try done. cbn in Hl |- *.
  destruct (Z.eqb_spec x y) as [->|Hx].
  - rewrite IH by lia. split; [by intros -> | by intros [= ->]].
  - split; [lia | by intros [= ? ?]].
Qed.

Lemma read_back_value data : bytes data -> length data = 16%nat ->
  exists u, bt_string_to_uuid (uuid_string data) = Some u /\ bt_uuid_to_uuid128 u = Ok data.
Proof.
  intros Hb Hl. eexists. split; [by apply read_back|]. case_bool_decide as Hd; [|done].
  cbn [bt_uuid_to_uuid128]. unfold bt_uuid16_to_uuid128.
  rewrite to_be_of_be_n; [by rewrite <-Hd | by apply Forall_take, Forall_drop | rewrite length_take, length_drop; lia].
Qed.

(** [bt_uuid_strcmp] on the texts of two UUIDs is 0 exactly if their values are the
    same, whatever their widths were. *)
Theorem uuid_strcmp_texts data1 data2 :
  bytes data1 -> length data1 = 16%nat -> bytes data2 -> length data2 = 16%nat ->
  exists r, bt_uuid_strcmp (uuid_string data1) (uuid_string data2) = Ok r /\ (r = 0 <-> data1 = data2).
Proof.
  intros Hb1 Hl1 Hb2 Hl2. unfold bt_uuid_strcmp.
  destruct (read_back_value data1) as (u1 & -> & H1); [done..|].
  destruct (read_back_value data2) as (u2 & -> & H2); [done..|].
  unfold bt_uuid_cmp. rewrite H1, H2. eexists. split; [done|]. apply memcmp_eq. congruence.
Qed.

(** Between services: the text of a 16-bit UUID is that of another one, or of any
    number, only if the numbers are equal.  This is what lets the mesh services and
    characteristics stand as numbers. *)
Theorem service_strcmp v w :
  is_u16 v -> is_u16 w ->
  exists r, bt_uuid_strcmp (uuid_string (bt_uuid16_to_uuid128 v)) (uuid_string (bt_uuid16_to_uuid128 w)) = Ok r /\
    (r = 0 <-> v = w).
Proof.
  intros Hv Hw. destruct (to_uuid128_ok (BT_UUID16 v) Hv) as (d1 & [= <-] & Hb1 & Hl1).
  destruct (to_uuid128_ok (BT_UUID16 w) Hw) as (d2 & [= <-] & Hb2 & Hl2).
  destruct (uuid_strcmp_texts _ _ Hb1 Hl1 Hb2 Hl2) as (r & Hr & Heq). exists r. split; [done|]. rewrite Heq.
  split; [|by intros ->]. intros E. apply (f_equal (fun l => of_be (take 2 (drop 2 l)))) in E.
  change (of_be (to_be 2 v) = of_be (to_be 2 w)) in E. by rewrite !of_be_to_be, !Z.mod_small in E.
Qed.
Lemma service_strcmp_witness :
  exists r, bt_uuid_strcmp (uuid_string (bt_uuid16_to_uuid128 0x1827)) (uuid_string (bt_uuid16_to_uuid128 0x1828)) = Ok r /\
    (r = 0 <-> 0x1827 = 0x1828).
Proof. apply (service_strcmp 0x1827 0x1828); lia. Defined.

(** The name shown for the text of a 16-bit UUID is that of the number. *)
Theorem uuid_text_name v :
  is_u16 v -> bt_uuidstr_to_str (uuid_string (bt_uuid16_to_uuid128 v)) = Some (bt_uuid16_to_str v).
Proof.
  intros Hv. destruct (to_uuid128_ok (BT_UUID16 v) Hv) as (d & [= <-] & Hb & Hl).
  assert (Htext : uuid_string (bt_uuid16_to_uuid128 v) =
    octet_chars ([0; 0] ++ to_be 2 v) ++ octets "-0000-1000-8000-00805f9b34fb").
  { rewrite uuid_string_chars by done. reflexivity. }
  rewrite Htext. unfold bt_uuidstr_to_str. set (s := octet_chars _ ++ _).
  assert (Hlen : len s = 36) by reflexivity. rewrite Hlen. cbn [Z.ltb Z.eqb negb].
  assert (Hdrop : drop 8 s = base_uuid_suffix) by reflexivity.
  assert (Hnone : find_first (fun x => strcaseeq (octets (fst x)) s) uuid128_table = None).
  { apply find_first_none, Forall_forall. intros x Hx. apply bool_decide_eq_false_2. intros E.
    apply (f_equal (drop 8)) in E. rewrite <-!fmap_drop, Hdrop in E.
    assert (Hall : Forall (fun x => tolower <$> drop 8 (octets (fst x)) <> tolower <$> base_uuid_suffix) uuid128_table)
      by (apply (bool_decide_unpack _); by vm_compute).
    rewrite Forall_forall in Hall. by apply (Hall x). }
  rewrite Hnone, Hdrop. unfold strcaseeq. rewrite bool_decide_eq_true_2 by done. cbn [negb].
  unfold s. cbn [app to_be]. rewrite scan8 by (first [lia | apply u8_range]). cbn [mbind option_bind].
  assert (Hof : of_be [0; 0; v / 256 mod 256; v mod 256] = v) by (unfold of_be; cbn [fold_left]; zlia).
  rewrite Hof. unfold bt_uuid32_to_str. change 0xffff with (2 ^ 16 - 1).
  rewrite (land_ones_mod v 16) by lia.  rewrite (Z.mod_small v (2 ^ 16) Hv).
  assert (Hhi : Z.land v 0xffff0000 = 0).
  { change 0xffff0000 with (Z.shiftl 0xffff 16). apply land_shiftl_0; [lia | by change (2 ^ 16) with 0x10000]. }
  by rewrite Hhi.
Qed.
Lemma uuid_text_name_witness : bt_uuidstr_to_str (uuid_string (bt_uuid16_to_uuid128 0x1827)) = Some "Mesh Provisioning".
Proof. exact (uuid_text_name 0x1827 ltac:(lia)). Defined.
