(* ===== verification/Shell.v ===== *)
(** * The shell

    [src/blueZ/src/shared/shell.c]: menus and submenus, the check of a command's
    arguments against its description, the prompt, the environment, completion, and how
    the shell starts and ends.

    A menu is told from another by its address.  The functions of the commands, of the
    prompts and of the completions are code of the programs that use the shell:
    [ShellClient].  [wordexp] is the C library's: [WordExp], known on texts without
    characters that it expands. *)

From Stdlib Require Import String.
From S2P Require Import Prelude Bytes Util SharedUtil.

Definition cstr := list Z.
Definition QUOTE : Z := 34.
Definition LT : Z := 60.
Definition GT : Z := 62.
Definition DOT : Z := 46.
Definition SLASH : Z := 47.

(** ** Words: [wordexp]

    Blanks separate the words, double quotes hold one together; a quote that is not
    closed is an error. *)
Definition is_blank (c : Z) : bool := (c =? 32) || (c =? 9).
Fixpoint split_words (s : cstr) (cur : option cstr) (quoted : bool) : option (list cstr) :=
  match s with
  | [] => if quoted then None else Some (match cur with Some w => [w] | None => [] end)
  | c :: s' =>
      if c =? QUOTE then split_words s' (Some (default [] cur)) (negb quoted)
      else if is_blank c && negb quoted then
        match cur with
        | Some w => cons w <$> split_words s' None false
        | None => split_words s' None false
        end
      else split_words s' (Some (default [] cur ++ [c])) quoted
  end.
(** The characters that [wordexp] takes as they are: no expansion, no quoting other
    than by double quotes, none it refuses. *)
Definition plain_char (c : Z) : bool :=
  is_blank c || (c =? QUOTE) || (c =? 33) || (c =? 35) || (c =? 37) || (43 <=? c) && (c <=? 58) || (c =? 61) ||
  (64 <=? c) && (c <=? 90) || (c =? 93) || (c =? 94) || (c =? 95) || (97 <=? c) && (c <=? 122).
Definition plain (s : cstr) : bool := forallb plain_char s.
Class WordExp := {
  wordexp : cstr -> option (list cstr);
  wordexp_plain : ∀ s, plain s = true -> wordexp s = split_words s None false }.
(** One that does nothing else. *)
Definition plain_wordexp (s : cstr) : option (list cstr) := if plain s then split_words s None false else None.

(** ** What the shell calls *)
Class ShellCode := { Cmd : Type; Prompt : Type; Gen : Type; Exists : Type }.

Section Types.
Context `{ShellCode}.

(** A command is one of the shell's own or one of the program's. *)
Inductive func := cmd_back_f | cmd_menu_f | cmd_version_f | cmd_quit_f | cmd_help_f | cmd_export_f | UserCmd (c : Cmd).
Inductive gen := menu_generator_g | UserGen (g : Gen).
Inductive exists_fn := cmd_back_exists_f | cmd_menu_exists_f | UserExists (e : Exists).

(** [struct bt_shell_menu_entry] and [struct bt_shell_menu], without the entry that
    ends a table. *)
Record entry := Entry {
  en_cmd : cstr; en_arg : option cstr; en_func : option func; en_desc : option cstr;
  en_gen : option gen; en_exists : option exists_fn }.
Record menu := Menu { mn_addr : Z; mn_name : cstr; mn_desc : option cstr; mn_entries : list entry }.

(** What is printed, as far as it says what happened. *)
Inductive message :=
| TooManyArguments
| TooManyThan (given most : Z)
| MissingArgument (name : cstr)
| UnableMandatory (text : cstr)
| UnableOptional (text : cstr)
| InvalidCommand (menu cmd : cstr)
| ShortHelp
| MissingName
| NoSuchMenu (name : cstr)
| AlreadyMain
| MenuTitle (name : cstr)
| MenuLine (cmd arg desc : cstr)
| SubmenuLine (name desc : cstr)
| EnvLine (name : cstr) (value : Z)
| UsageLine (cmd arg : cstr)
| PromptLine (label msg : cstr)
| TextLine (text : cstr).

(** [data], and the requests to end the main loop, last first.  A list of printed
    messages, last first.  [sh_envs] and [sh_submenus] are queues; the first is NULL or
    there. *)
Record shell := Shell {
  sh_init : bool; sh_name : cstr; sh_history : cstr; sh_argv : list cstr; sh_mode : bool; sh_timeout : Z;
  sh_input : bool; sh_prompt : option Prompt;
  sh_menu : option menu; sh_main : option menu; sh_submenus : list menu; sh_exec : option entry;
  sh_envs : option (list (cstr * Z)); sh_out : list message; sh_ends : list bool; sh_terminated : bool;
  sh_timer : option Z }.

Definition set_init v s := Shell v (sh_name s) (sh_history s) (sh_argv s) (sh_mode s) (sh_timeout s) (sh_input s)
  (sh_prompt s) (sh_menu s) (sh_main s) (sh_submenus s) (sh_exec s) (sh_envs s) (sh_out s) (sh_ends s) (sh_terminated s) (sh_timer s).
Definition set_start v w x y z s := Shell (sh_init s) v w x y z (sh_input s)
  (sh_prompt s) (sh_menu s) (sh_main s) (sh_submenus s) (sh_exec s) (sh_envs s) (sh_out s) (sh_ends s) (sh_terminated s) (sh_timer s).
Definition set_input v s := Shell (sh_init s) (sh_name s) (sh_history s) (sh_argv s) (sh_mode s) (sh_timeout s) v
  (sh_prompt s) (sh_menu s) (sh_main s) (sh_submenus s) (sh_exec s) (sh_envs s) (sh_out s) (sh_ends s) (sh_terminated s) (sh_timer s).
Definition set_prompt v s := Shell (sh_init s) (sh_name s) (sh_history s) (sh_argv s) (sh_mode s) (sh_timeout s) (sh_input s)
  v (sh_menu s) (sh_main s) (sh_submenus s) (sh_exec s) (sh_envs s) (sh_out s) (sh_ends s) (sh_terminated s) (sh_timer s).
Definition set_menus v w x s := Shell (sh_init s) (sh_name s) (sh_history s) (sh_argv s) (sh_mode s) (sh_timeout s)
  (sh_input s) (sh_prompt s) v w x (sh_exec s) (sh_envs s) (sh_out s) (sh_ends s) (sh_terminated s) (sh_timer s).
Definition set_exec v s := Shell (sh_init s) (sh_name s) (sh_history s) (sh_argv s) (sh_mode s) (sh_timeout s) (sh_input s)
  (sh_prompt s) (sh_menu s) (sh_main s) (sh_submenus s) v (sh_envs s) (sh_out s) (sh_ends s) (sh_terminated s) (sh_timer s).
Definition set_envs v s := Shell (sh_init s) (sh_name s) (sh_history s) (sh_argv s) (sh_mode s) (sh_timeout s) (sh_input s)
  (sh_prompt s) (sh_menu s) (sh_main s) (sh_submenus s) (sh_exec s) v (sh_out s) (sh_ends s) (sh_terminated s) (sh_timer s).
Definition set_out v s := Shell (sh_init s) (sh_name s) (sh_history s) (sh_argv s) (sh_mode s) (sh_timeout s) (sh_input s)
  (sh_prompt s) (sh_menu s) (sh_main s) (sh_submenus s) (sh_exec s) (sh_envs s) v (sh_ends s) (sh_terminated s) (sh_timer s).
Definition set_ends v w s := Shell (sh_init s) (sh_name s) (sh_history s) (sh_argv s) (sh_mode s) (sh_timeout s) (sh_input s)
  (sh_prompt s) (sh_menu s) (sh_main s) (sh_submenus s) (sh_exec s) (sh_envs s) (sh_out s) v w (sh_timer s).
Definition set_timer v s := Shell (sh_init s) (sh_name s) (sh_history s) (sh_argv s) (sh_mode s) (sh_timeout s) (sh_input s)
  (sh_prompt s) (sh_menu s) (sh_main s) (sh_submenus s) (sh_exec s) (sh_envs s) (sh_out s) (sh_ends s) (sh_terminated s) v.
End Types.

(** The code of the program: what its functions do to the shell. *)
Class ShellClient `{ShellCode} := {
  run_cmd : Cmd -> list cstr -> St shell unit;
  run_prompt : Prompt -> cstr -> St shell unit;
  run_gen : Gen -> cstr -> list cstr;
  run_exists : Exists -> menu -> bool }.

Section Code.
Context `{WordExp, ShellClient}.
Abbreviation SM := (St shell).

Definition EINVAL : Z := 22.
Definition ENOENT : Z := 2.

(** ** Printing: [print_text] always, [bt_shell_printf] once there is an input *)
Definition print_text (m : message) : SM unit := modify (fun s => set_out (m :: sh_out s) s).
Definition bt_shell_printf (m : message) : SM unit :=
  s ← get; if sh_input s then print_text m else mret tt.
(** The lines of the dump; [stack] is what the array of [util_hexdump] held. *)
Definition bt_shell_hexdump (stack buf : list Z) : SM unit :=
  lines ← lift (util_hexdump 32 buf true stack); mapM_ (fun l => bt_shell_printf (TextLine l)) lines.

(** ** Ending *)
Definition mainloop_quit : SM unit := modify (fun s => set_ends (true :: sh_ends s) (sh_terminated s) s).
Definition EXIT_SUCCESS : Z := 0.
Definition EXIT_FAILURE : Z := 1.
Definition bt_shell_quit (status : Z) : SM unit :=
  modify (fun s => set_ends ((status =? EXIT_SUCCESS) :: sh_ends s) (sh_terminated s) s).
Definition bt_shell_noninteractive_quit (status : Z) : SM unit :=
  s ← get; if negb (sh_mode s) || truth (sh_timeout s) then mret tt else bt_shell_quit status.

(** ** Menus *)
Definition same_menu (a b : option menu) : bool :=
  match a, b with
  | Some m, Some n => mn_addr m =? mn_addr n
  | None, None => true
  | _, _ => false
  end.
(** [strncmp] of the first [len name] characters: a name stands for every menu it is
    the beginning of. *)
Definition begins (name full : cstr) : bool := bool_decide (name `prefix_of` full).
Definition find_menu (name : cstr) : SM (option menu) :=
  gets (fun s => find_first (fun m => begins name (mn_name m)) (sh_submenus s)).
Definition bt_shell_set_menu (m : option menu) : SM bool :=
  match m with
  | None => mret false
  | Some _ =>
      _ ← modify (fun s => set_menus m (match sh_main s with None => m | Some _ => sh_main s end) (sh_submenus s) s);
      mret true
  end.
Definition bt_shell_add_submenu (m : option menu) : SM bool :=
  match m with
  | None => mret false
  | Some x => _ ← modify (fun s => set_menus (sh_menu s) (sh_main s) (sh_submenus s ++ [x]) s); mret true
  end.

Definition cmd_menu_exists (s : shell) (m : option menu) : bool :=
  negb (negb (same_menu m (sh_main s)) || (match sh_submenus s with [] => true | _ => false end)).
Definition cmd_back_exists (s : shell) (m : option menu) : bool := negb (same_menu m (sh_main s)).
Definition entry_exists (s : shell) (m : menu) (e : entry) : bool :=
  match en_exists e with
  | None => true
  | Some cmd_back_exists_f => cmd_back_exists s (Some m)
  | Some cmd_menu_exists_f => cmd_menu_exists s (Some m)
  | Some (UserExists x) => run_exists x m
  end.

Definition str_back : cstr := octets "back".
Definition str_menu : cstr := octets "menu".
Definition default_menu : list entry := [
  Entry str_back None (Some cmd_back_f) (Some (octets "Return to main menu")) None (Some cmd_back_exists_f);
  Entry str_menu (Some (octets "<name>")) (Some cmd_menu_f) (Some (octets "Select submenu"))
    (Some menu_generator_g) (Some cmd_menu_exists_f);
  Entry (octets "version") None (Some cmd_version_f) (Some (octets "Display version")) None None;
  Entry (octets "quit") None (Some cmd_quit_f) (Some (octets "Quit program")) None None;
  Entry (octets "exit") None (Some cmd_quit_f) (Some (octets "Quit program")) None None;
  Entry (octets "help") None (Some cmd_help_f) (Some (octets "Display help about this program")) None None;
  Entry (octets "export") None (Some cmd_export_f) (Some (octets "Print evironment variables")) None None ].

Definition print_entry (e : entry) : SM unit :=
  print_text (MenuLine (en_cmd e) (default [] (en_arg e)) (default [] (en_desc e))).
Definition shell_print_menu : SM unit :=
  s ← get;
  match sh_menu s with
  | None => mret tt
  | Some m =>
      _ ← print_text (MenuTitle (mn_name m));
      _ ← (if same_menu (Some m) (sh_main s)
           then mapM_ (fun x => print_text (SubmenuLine (mn_name x) (default (octets "Submenu") (mn_desc x)))) (sh_submenus s)
           else mret tt);
      _ ← mapM_ print_entry (mn_entries m);
      mapM_ print_entry (List.filter (entry_exists s m) default_menu)
  end.

(** ** The shell's own commands *)
Definition cmd_version : SM unit := bt_shell_noninteractive_quit EXIT_SUCCESS.
Definition cmd_quit : SM unit := mainloop_quit.
Definition cmd_help : SM unit := _ ← shell_print_menu; bt_shell_noninteractive_quit EXIT_SUCCESS.
Definition cmd_menu (argv : list cstr) : SM unit :=
  match argv !! 1%nat with
  | None | Some [] => _ ← bt_shell_printf MissingName; bt_shell_noninteractive_quit EXIT_FAILURE
  | Some name =>
      m ← find_menu name;
      match m with
      | None => _ ← bt_shell_printf (NoSuchMenu name); bt_shell_noninteractive_quit EXIT_FAILURE
      | Some _ =>
          _ ← bt_shell_set_menu m; _ ← shell_print_menu; bt_shell_noninteractive_quit EXIT_SUCCESS
      end
  end.
Definition cmd_back : SM unit :=
  s ← get;
  if same_menu (sh_menu s) (sh_main s) then bt_shell_printf AlreadyMain
  else _ ← bt_shell_set_menu (sh_main s); shell_print_menu.
Definition cmd_export : SM unit :=
  s ← get; mapM_ (fun '(n, v) => print_text (EnvLine n v)) (default [] (sh_envs s)).
Definition call_func (f : func) (argv : list cstr) : SM unit :=
  match f with
  | cmd_back_f => cmd_back
  | cmd_menu_f => cmd_menu argv
  | cmd_version_f => cmd_version
  | cmd_quit_f => cmd_quit
  | cmd_help_f => cmd_help
  | cmd_export_f => cmd_export
  | UserCmd c => run_cmd c argv
  end.

(** ** The arguments a command is described with

    [wordexp_t]: the words so far, and [we_offs], which the shell uses as a mark of
    descriptions that end in dots.  [WRDE_APPEND] adds words; where they are put when
    the mark is set makes no difference to what is read of them here. *)
Record wordexp_t := Wordexp { we_wordv : list cstr; we_offs : bool }.
Definition str_dots : cstr := octets "...".
Definition parse_args (arg : cstr) (w : option wordexp_t) (del : cstr) : res (option wordexp_t) :=
  str ← strdelimit arg del QUOTE;
  match wordexp str with
  | None => mret None
  | Some words =>
      let all := match w with Some w => we_wordv w ++ words | None => words end in
      let offs := match w with Some w => we_offs w | None => false end in
      mret (Some (Wordexp all
        (match last all with Some x => if strsuffix x str_dots =? 0 then true else offs | None => offs end)))
  end.

(** [strrchr]: where a character stands last. *)
Fixpoint strrchr (s : cstr) (c : Z) : option nat :=
  match s with
  | [] => None
  | x :: s' => match strrchr s' c with Some n => Some (S n) | None => if x =? c then Some 0%nat else None end
  end.

Definition check_optional (opt : cstr) (w : option wordexp_t) (optargs : bool) (argc : Z) : SM bool :=
  r ← lift (parse_args opt w (octets "[]"));
  match r with
  | None => _ ← print_text (UnableOptional opt); mret false
  | Some w =>
      let wordc := Z.of_nat (length (we_wordv w)) in
      if negb optargs && ((wordc <? u32 (argc - 1)) && negb (we_offs w))
      then _ ← print_text (TooManyThan (argc - 1) wordc); mret false
      else mret true
  end.
Definition check_mandatory (man opt : cstr) (optargs : bool) (argc : Z) : SM bool :=
  r ← lift (parse_args man None (octets "<>"));
  match r with
  | None => _ ← print_text (UnableMandatory man); mret false
  | Some w =>
      if u32 (argc - 1) <? Z.of_nat (length (we_wordv w)) then
        name ← lift (of_option Oob (we_wordv w !! Z.to_nat (argc - 1)));
        _ ← print_text (MissingArgument name); mret false
      else check_optional opt (Some w) optargs argc
  end.
(** Whether the arguments fit [arg], which is not empty. *)
Definition check_args (arg : cstr) (argc : Z) : SM bool :=
  match strrchr arg GT with
  | None => check_optional arg None false argc
  | Some man =>
      let rest := drop (S man) arg in
      if bool_decide (head arg = Some LT) then check_mandatory (take (S man) arg) rest false argc
      else
        match strrchr arg LT with
        | None => check_optional arg None false argc
        | Some opt =>
            if (man <? opt)%nat then check_optional arg None false argc
            else check_mandatory (take (S (man - opt)) (drop opt arg)) rest true argc
        end
  end.

Definition exec_entry (e : entry) (argv : list cstr) : SM Z :=
  _ ← modify (set_exec (Some e));
  _ ← (match en_func e with Some f => call_func f argv | None => mret tt end);
  _ ← modify (set_exec None);
  mret 0.
Definition argc_of (argv : list cstr) : Z := Z.of_nat (length argv).
Definition cmd_exec (e : entry) (argv : list cstr) : SM Z :=
  match en_arg e with
  | None | Some [] =>
      if 1 <? argc_of argv then _ ← print_text TooManyArguments; mret (- EINVAL) else exec_entry e argv
  | Some arg =>
      ok ← check_args arg (argc_of argv);
      if ok : bool then exec_entry e argv else mret (- EINVAL)
  end.

(** ** Finding a command *)
Fixpoint menu_exec (entries : list entry) (argv : list cstr) : SM Z :=
  match entries with
  | [] => mret (- ENOENT)
  | e :: entries' =>
      s ← get;
      name ← lift (of_option Oob (head argv));
      if negb (bool_decide (name = en_cmd e)) then menu_exec entries' argv
      else if negb (same_menu (sh_menu s) (sh_main s)) && bool_decide (en_cmd e = str_menu)
      then menu_exec entries' argv
      else if same_menu (sh_menu s) (sh_main s) && bool_decide (en_cmd e = str_back)
      then menu_exec entries' argv
      else cmd_exec e argv
  end.

(** [strchr]: where a character stands first. *)
Fixpoint strchr (s : cstr) (c : Z) : option nat :=
  match s with [] => None | x :: s' => if x =? c then Some 0%nat else S <$> strchr s' c end.
(** The command is written over the place of [argv[0]]: its new value is returned. *)
Definition submenu_exec (argv : list cstr) : SM (Z * list cstr) :=
  s ← get;
  if negb (same_menu (sh_menu s) (sh_main s)) then mret (- ENOENT, argv)
  else
    arg0 ← lift (of_option Oob (head argv));
    match strchr arg0 DOT with
    | None => mret (- ENOENT, argv)
    | Some len =>
        let argv1 := take len arg0 :: tail argv in
        m ← find_menu (take len arg0);
        match m with
        | None => mret (- ENOENT, argv1)
        | Some m =>
            let argv2 := drop (S len) arg0 :: tail argv in
            err ← menu_exec (mn_entries m) argv2; mret (err, argv2)
        end
    end.

Definition shell_print_help : SM unit := print_text ShortHelp.
Definition shell_exec (argv : list cstr) : SM Z :=
  s ← get;
  match sh_menu s, argv with
  | None, _ | _, [] => mret (- EINVAL)
  | Some _, _ =>
      err ← menu_exec default_menu argv;
      if negb (err =? - ENOENT) then mret err
      else
        s ← get;
        m ← lift (of_option NullDeref (sh_menu s));
        err ← menu_exec (mn_entries m) argv;
        if negb (err =? - ENOENT) then mret err
        else
          '(err, argv) ← submenu_exec argv;
          if negb (err =? - ENOENT) then mret err
          else
            s ← get;
            m ← lift (of_option NullDeref (sh_menu s));
            _ ← print_text (InvalidCommand (mn_name m) (default [] (head argv)));
            _ ← shell_print_help; mret err
  end.

Definition bt_shell_usage : SM unit :=
  s ← get;
  match sh_exec s with None => mret tt | Some e => bt_shell_printf (UsageLine (en_cmd e) (default [] (en_arg e))) end.
End Code.

(** ** The prompt, lines, the environment *)
Section Lines.
Context `{WordExp, ShellClient}.
Abbreviation SM := (St shell).

(** A second prompt is ignored while one waits. *)
Definition bt_shell_prompt_input (label msg : cstr) (f : Prompt) : SM unit :=
  s ← get;
  if negb (sh_init s) || sh_mode s then mret tt
  else
    match sh_prompt s with
    | Some _ => mret tt
    | None => _ ← modify (set_prompt (Some f)); bt_shell_printf (PromptLine label msg)
    end.
(** Forgets the function before it calls it; false where the code returns -1. *)
Definition bt_shell_release_prompt (input : cstr) : SM bool :=
  s ← get;
  match sh_prompt s with
  | None => mret false
  | Some f => _ ← modify (set_prompt None); _ ← run_prompt f input; mret true
  end.

(** A line from the user, or the end of the input.  The history is readline's. *)
Definition rl_handler (input : option cstr) : SM unit :=
  match input with
  | None => mainloop_quit
  | Some [] => mret tt
  | Some line =>
      taken ← bt_shell_release_prompt line;
      if taken : bool then mret tt
      else
        match wordexp line with
        | None | Some [] => mret tt
        | Some argv => _ ← shell_exec argv; mret tt
        end
  end.

(** A value is a pointer; NULL is 0. *)
Definition match_env (name : cstr) (env : cstr * Z) : bool := bool_decide (fst env = name).
Definition bt_shell_set_env (name : cstr) (value : Z) : SM unit :=
  s ← get;
  match sh_envs s with
  | None => if value =? 0 then mret tt else modify (set_envs (Some [(name, value)]))
  | Some envs =>
      let envs := remove_first (match_env name) envs in
      if value =? 0 then modify (set_envs (Some envs))
      else modify (set_envs (Some (envs ++ [(name, value)])))
  end.
Definition bt_shell_get_env (name : cstr) : SM Z :=
  gets (fun s =>
    match sh_envs s with
    | None => 0
    | Some envs => match find_first (match_env name) envs with Some (_, v) => v | None => 0 end
    end).

(** ** Input *)
Definition bt_shell_set_prompt : SM unit :=
  s ← get; if negb (sh_init s) || sh_mode s then mret tt else bt_shell_printf (TextLine [13]).
Definition io_hup : SM bool := _ ← mainloop_quit; mret false.
Definition shell_quit : SM bool := _ ← mainloop_quit; mret false.
Definition bt_shell_attach : SM bool :=
  s ← get;
  if sh_input s then mret false
  else
    _ ← modify (set_input true);
    if sh_mode s then
      err ← shell_exec (sh_argv s);
      if err <? 0 then _ ← bt_shell_noninteractive_quit EXIT_FAILURE; mret true
      else
        s ← get;
        if truth (sh_timeout s) then _ ← modify (set_timer (Some (sh_timeout s * 1000))); mret true
        else mret true
    else mret true.
Definition bt_shell_detach : SM bool :=
  s ← get; if negb (sh_input s) then mret false else _ ← modify (set_input false); mret true.

(** [SIGINT] clears the line; without an interactive input it ends the program, as
    [SIGTERM] does.  The result tells whether the handler stays installed. *)
Inductive signal := SIGINT | SIGTERM | OtherSignal.
Definition signal_end : SM bool :=
  s ← get;
  _ ← (if sh_terminated s then mret tt else mainloop_quit);
  _ ← modify (fun s => set_ends (sh_ends s) true s);
  mret false.
Definition signal_read (complete : bool) (sig : signal) : SM bool :=
  if negb complete then mret false
  else
    s ← get;
    match sig with
    | SIGINT => if sh_input s && negb (sh_mode s) then mret true else signal_end
    | SIGTERM => signal_end
    | OtherSignal => mret false
    end.

(** ** Start and end *)
Definition str_history : cstr := octets "_history".
Definition history_path (dir middle name : cstr) : cstr := take 255 (dir ++ middle ++ name ++ str_history).
Definition base_name (name : cstr) : cstr := match strrchr name SLASH with Some n => drop (S n) name | None => name end.
(** [getenv] is the environment of the process. *)
Definition rl_init_history (getenv : cstr -> option cstr) (address : Z) : SM unit :=
  s ← get;
  let name := base_name (sh_name s) in
  let path :=
    match getenv (octets "XDG_CACHE_HOME") with
    | Some dir => Some (history_path dir (octets "/.") name)
    | None =>
        match getenv (octets "HOME") with
        | Some dir => Some (history_path dir (octets "/.cache/.") name)
        | None =>
            match getenv (octets "PWD") with
            | Some dir => Some (history_path dir (octets "/.") name)
            | None => None
            end
        end
    end in
  _ ← modify (fun s => set_start (sh_name s) (default [] path) (sh_argv s) (sh_mode s) (sh_timeout s) s);
  match path with None => mret tt | Some _ => bt_shell_set_env (octets "HISTORY") address end.
Definition rl_init (getenv : cstr -> option cstr) (address : Z) : SM unit :=
  s ← get; if sh_mode s then mret tt else rl_init_history getenv address.

(** What [getopt_long] returned for each option: the value, the index that a long
    option sets, the argument. *)
Record option_seen := OptionSeen { os_c : Z; os_index : option nat; os_arg : cstr }.
(** [struct bt_shell_opt]: the values of its options; [optarg] receives arguments. *)
Definition main_options : list Z := [118; 104; 116].
Inductive init_result := Continue (optarg : list (nat * cstr)) | Exits.
Fixpoint first_val (vals : list Z) (c : Z) (i : nat) : option nat :=
  match vals with
  | [] => None
  | v :: vals' => if v =? 0 then Some i else if c =? v then Some i else first_val vals' c (S i)
  end.
(** One round of the loop of [bt_shell_init].  [opts] are the values of the options of
    the program, up to and with the 0 that ends them; without them, nothing ends the
    array of all options, and [opt->options] is a NULL pointer. *)
Definition read_option (opts : option (list Z)) (o : option_seen) (optarg : list (nat * cstr)) (timeout : Z)
    : res (init_result * Z) :=
  if os_c o =? 118 then mret (Exits, timeout)
  else if os_c o =? 104 then mret (Exits, timeout)
  else if os_c o =? 116 then mret (Continue optarg, atoi (os_arg o))
  else
    let all := main_options ++ default [] opts in
    index ← (match os_index o with Some i => mret i | None => of_option Uninit (first_val all (os_c o) 0) end);
    opts ← of_option NullDeref opts;
    let k := (index - length main_options)%nat in
    val ← (if (index <? length main_options)%nat then Fault Oob else of_option Oob (opts !! k));
    if negb (os_c o =? val) then mret (Exits, timeout)
    else mret (Continue (optarg ++ [(k, os_arg o)]), timeout).
Fixpoint read_options (opts : option (list Z)) (l : list option_seen) (optarg : list (nat * cstr)) (timeout : Z)
    : res (init_result * Z) :=
  match l with
  | [] => mret (Continue optarg, timeout)
  | o :: l' =>
      '(r, timeout) ← read_option opts o optarg timeout;
      match r with Exits => mret (Exits, timeout) | Continue optarg => read_options opts l' optarg timeout end
  end.
(** [rest] are the arguments from [optind] on; the addresses are those of [data.name],
    [data.mode] and [data.history]. *)
Definition bt_shell_init (getenv : cstr -> option cstr) (addresses : Z * Z * Z) (opts : option (list Z))
    (arg0 : cstr) (seen : list option_seen) (rest : list cstr) : SM init_result :=
  let '(a_name, a_mode, a_history) := addresses in
  s ← get;
  '(r, timeout) ← lift (read_options opts seen [] (sh_timeout s));
  match r with
  | Exits => mret Exits
  | Continue _ =>
      _ ← modify (fun s => set_start arg0 (sh_history s) (sh_argv s) (sh_mode s) timeout s);
      _ ← bt_shell_set_env (octets "SHELL") a_name;
      let mode := match rest with [] => false | _ => true end in
      _ ← modify (fun s => set_start (sh_name s) (sh_history s) rest mode (sh_timeout s) s);
      _ ← (if mode then bt_shell_set_env (octets "NON_INTERACTIVE") a_mode else mret tt);
      _ ← rl_init getenv a_history;
      _ ← modify (set_init true);
      mret r
  end.

Definition bt_shell_cleanup : SM unit :=
  _ ← bt_shell_release_prompt [];
  _ ← bt_shell_detach;
  _ ← modify (set_envs None);
  modify (set_init false).
End Lines.

(** ** Completion

    The generators keep static variables between calls: the first call, with state 0,
    sets them. *)
Section Completion.
Context `{WordExp, ShellClient}.

(** [menu_generator]: the length of the text and the submenus not seen. *)
Definition menu_gen : Type := nat * list menu.
Fixpoint next_menu (text : cstr) (len : nat) (l : list menu) : option cstr * menu_gen :=
  match l with
  | [] => (None, (len, []))
  | m :: l' => if begins (take len text) (mn_name m) then (Some (mn_name m), (len, l')) else next_menu text len l'
  end.
Definition menu_generator (s : shell) (text : cstr) (state : Z) (g : menu_gen) : option cstr * menu_gen :=
  let '(len, l) := if state =? 0 then (length text, sh_submenus s) else g in next_menu text len l.

(** [arg_generator], over the words of [args]. *)
Definition arg_gen : Type := nat * list cstr.
Fixpoint next_arg (text : cstr) (len : nat) (l : list cstr) : option cstr * arg_gen :=
  match l with
  | [] => (None, (len, []))
  | a :: l' => if begins (take len text) a then (Some a, (len, l')) else next_arg text len l'
  end.
Definition arg_generator (args : list cstr) (text : cstr) (state : Z) (g : arg_gen) : option cstr * arg_gen :=
  let '(len, l) := if state =? 0 then (length text, args) else g in next_arg text len l.

(** [find_cmd]: from an index on, which may be that of the entry that ends the table. *)
Fixpoint find_cmd_from (s : shell) (m : menu) (text : cstr) (l : list entry) (index : nat) : option cstr * nat :=
  match l with
  | [] => (None, S index)
  | e :: l' =>
      if entry_exists s m e && begins text (en_cmd e) then (Some (en_cmd e), S index)
      else find_cmd_from s m text l' (S index)
  end.
Definition find_cmd (s : shell) (m : menu) (text : cstr) (entries : list entry) (index : nat) : res (option cstr * nat) :=
  if (length entries <? index)%nat then Fault Oob else mret (find_cmd_from s m text (drop index entries) index).

Record cmd_gen := CmdGen { cg_index : nat; cg_default : bool; cg_submenu : bool; cg_menu : option menu }.
(** The commands of the submenu [m], as [submenu.command].  [text + strlen(menu->name)
    + 1] has to be inside the text. *)
Definition gen_submenu (s : shell) (cur m : menu) (text : cstr) (index : nat) : res (option cstr * cmd_gen) :=
  if (length text <? S (length (mn_name m)))%nat then Fault Oob
  else
    '(cmd, index) ← find_cmd s cur (drop (S (length (mn_name m))) text) (mn_entries m) index;
    mret (option_map (fun c => mn_name m ++ DOT :: c) cmd, CmdGen index false true (Some m)).
(** The commands of the menu, then, on the main menu, those of the submenu the text
    names. *)
Definition gen_menu (s : shell) (cur : menu) (text : cstr) (g : cmd_gen) : res (option cstr * cmd_gen) :=
  m ← of_option NullDeref (cg_menu g);
  '(cmd, index) ← find_cmd s cur text (mn_entries m) (cg_index g);
  match cmd with
  | Some _ => mret (cmd, CmdGen index false false (Some m))
  | None =>
      if negb (same_menu (Some m) (sh_main s)) then mret (None, CmdGen index false false (Some m))
      else
        match strrchr text DOT with
        | None => mret (None, CmdGen index false false (Some m))
        | Some n =>
            match find_first (fun x => begins (take n text) (mn_name x)) (sh_submenus s) with
            | None => mret (None, CmdGen index false false None)
            | Some x => gen_submenu s cur x text 0
            end
        end
  end.
Definition cmd_generator (s : shell) (cur : menu) (text : cstr) (state : Z) (g : cmd_gen) : res (option cstr * cmd_gen) :=
  let g := if state =? 0 then CmdGen 0 true false None else g in
  if cg_default g then
    '(cmd, index) ← find_cmd s cur text default_menu (cg_index g);
    match cmd with
    | Some _ => mret (cmd, CmdGen index true (cg_submenu g) (cg_menu g))
    | None => gen_menu s cur text (CmdGen 0 false (cg_submenu g) (Some cur))
    end
  else if negb (cg_submenu g) then gen_menu s cur text g
  else m ← of_option NullDeref (cg_menu g); gen_submenu s cur m text (cg_index g).

(** [rl_completion_matches] is readline's: a parameter, as the generator it is given. *)
Inductive generator := GenCmds | GenArgs (args : list cstr) | GenEntry (g : gen).
Context (rl_completion_matches : cstr -> generator -> option (list cstr)).

Definition args_completion (e : entry) (argc : Z) (text : cstr) : St shell (option (list cstr)) :=
  let index := if bool_decide (text = []) then argc - 1 else argc - 2 in
  if index <? 0 then mret None
  else
    matches ←
      (match en_arg e with
       | None => mret None
       | Some arg =>
           r ← lift (parse_args arg None (octets "<>[]"));
           match r with
           | None => mret None
           | Some w =>
               if u64 (Z.of_nat (length (we_wordv w)) - 1) <? u32 index then mret None
               else
                 match strrchr arg SLASH with
                 | None => mret None
                 | Some _ =>
                     word ← lift (of_option Oob (we_wordv w !! Z.to_nat index));
                     str ← lift (strdelimit word (octets "/") 32);
                     match wordexp str with
                     | None => mret None
                     | Some words => mret (rl_completion_matches text (GenArgs words))
                     end
                 end
           end
       end);
    _ ← (match matches with
         | None => if bool_decide (text = []) then bt_shell_printf (UsageLine (en_cmd e) (default [] (en_arg e))) else mret tt
         | Some _ => mret tt
         end);
    mret matches.
Fixpoint menu_completion (entries : list entry) (text : cstr) (argc : Z) (input_cmd : cstr)
    : St shell (option (list cstr)) :=
  match entries with
  | [] => mret None
  | e :: entries' =>
      if negb (bool_decide (en_cmd e = input_cmd)) then menu_completion entries' text argc input_cmd
      else
        match en_gen e with
        | None => args_completion e argc text
        | Some g => mret (rl_completion_matches text (GenEntry g))
        end
  end.
(** [line] is readline's buffer; [start] where the text begins in it. *)
Definition shell_completion (line text : cstr) (start : Z) : St shell (option (list cstr)) :=
  s ← get;
  match sh_menu s with
  | None => mret None
  | Some m =>
      if 0 <? start then
        match wordexp line with
        | None => mret None
        | Some words =>
            let argc := Z.of_nat (length words) in
            cmd ← lift (of_option NullDeref (head words));
            matches ← menu_completion default_menu text argc cmd;
            match matches with
            | Some _ => mret matches
            | None => menu_completion (mn_entries m) text argc cmd
            end
        end
      else mret (rl_completion_matches text GenCmds)
  end.
End Completion.
