(* ===== verification/ShellFacts.v ===== *)
(** * What the shell does with a line

    The check of arguments against a description, the choice of the command that runs,
    and a program with one command on which both are evaluated. *)

From Stdlib Require Import String.
From S2P Require Import Prelude Bytes Util SharedUtil Shell.

(** ** Descriptions

    A description lists the mandatory arguments in angle brackets, then the optional
    ones in square brackets. *)
Definition bracket (l r : Z) (x : cstr) : cstr := l :: x ++ [r].
Fixpoint join (l : list cstr) : cstr :=
  match l with [] => [] | [x] => x | x :: l' => x ++ 32 :: join l' end.
Definition arg_text (man opt : list cstr) : cstr := join ((bracket LT GT <$> man) ++ (bracket 91 93 <$> opt)).
Definition name_char (c : Z) : bool := plain_char c && negb (c =? QUOTE) && negb (c =? 93).
Definition good_name (x : cstr) : Prop := Forall (fun c => name_char c = true) x.

Example arg_text_ex : arg_text [octets "addr"; octets "model id"] [octets "on/off"] = octets "<addr> <model id> [on/off]".
Proof. reflexivity. Qed.

Lemma name_char_ne c : name_char c = true -> c <> QUOTE /\ c <> LT /\ c <> GT /\ c <> 91 /\ c <> 93.
Proof.
  intros H. unfold name_char in H. bool_hyps. split_and!; [done | | | | done]; intros ->; discriminate.
Qed.

Lemma join_cons x y l : join (x :: y :: l) = x ++ 32 :: join (y :: l).
Proof. done. Qed.
Lemma join_app a b : a <> [] -> b <> [] -> join (a ++ b) = join a ++ 32 :: join b.
Proof.
  intros Ha Hb. induction a as [|x a IH]; [done|]. destruct a as [|y a].
  - destruct b as [|y b]; [done|]. cbn [app]. by rewrite join_cons.
  - cbn [app] in *. rewrite !join_cons, IH by done. by rewrite <-app_assoc.
Qed.

(** *** Delimiters become quotes *)
Definition quoted (x : cstr) : cstr := bracket QUOTE QUOTE x.
Definition requote (del : cstr) (c : Z) : Z := if bool_decide (c ∈ del) then QUOTE else c.

Lemma requote_name del x :
  good_name x -> del ⊆ [LT; GT; 91; 93] -> requote del <$> x = x.
Proof.
  intros Hx Hdel. induction Hx as [|c x Hc _ IH]; [done|]. rewrite fmap_cons, IH. f_equal.
  unfold requote. rewrite bool_decide_eq_false_2; [done|]. intros Hin%Hdel.
  apply name_char_ne in Hc as (_ & ? & ? & ? & ?).
  rewrite !elem_of_cons, elem_of_nil in Hin. destruct Hin as [->|[->|[->|[->|[]]]]]; done.
Qed.
Lemma requote_join del l r names :
  Forall good_name names -> del ⊆ [LT; GT; 91; 93] -> l ∈ del -> r ∈ del ->
  requote del <$> join (bracket l r <$> names) = join (quoted <$> names).
Proof.
  intros Hn Hdel Hl Hr.
  assert (H32 : requote del 32 = 32).
  { unfold requote. rewrite bool_decide_eq_false_2; [done|]. intros Hin%Hdel.
    rewrite !elem_of_cons, elem_of_nil in Hin. unfold LT, GT in Hin. lia. }
  assert (Hb : ∀ x, good_name x -> requote del <$> bracket l r x = quoted x).
  { intros x Hx. unfold bracket, quoted, bracket. rewrite fmap_cons, fmap_app, (requote_name del x Hx Hdel).
    rewrite fmap_cons, fmap_nil. unfold requote. by rewrite !bool_decide_eq_true_2 by done. }
  induction Hn as [|x names Hx Hn IH]; [done|]. destruct names as [|y names]; [by apply Hb|].
  rewrite !fmap_cons, !join_cons in *. by rewrite fmap_app, Hb, fmap_cons, H32, IH by done.
Qed.

(** *** Quoted names are words *)
Lemma split_inside x t acc :
  good_name x -> split_words (x ++ QUOTE :: t) (Some acc) true = split_words t (Some (acc ++ x)) false.
Proof.
  intros Hx. revert acc. induction Hx as [|c x Hc _ IH]; intros acc.
  - rewrite app_nil_r. reflexivity.
  - cbn [app split_words]. apply name_char_ne in Hc as (Hq & _). rewrite (proj2 (Z.eqb_neq c QUOTE)) by done.
    rewrite andb_false_r. cbn [default]. rewrite IH. by rewrite <-app_assoc.
Qed.
Lemma split_quoted x t : good_name x -> split_words (quoted x ++ t) None false = split_words t (Some x) false.
Proof.
  intros Hx. unfold quoted, bracket. cbn [app split_words]. rewrite Z.eqb_refl. cbn [default negb].
  rewrite <-app_assoc. cbn [app]. by rewrite split_inside.
Qed.
Lemma split_join names : Forall good_name names -> split_words (join (quoted <$> names)) None false = Some names.
Proof.
  induction 1 as [|x names Hx Hn IH]; [done|]. destruct names as [|y names].
  - change (join (quoted <$> [x])) with (quoted x). rewrite <-(app_nil_r (quoted x)). by rewrite split_quoted.
  - rewrite !fmap_cons, !join_cons in *. rewrite split_quoted by done. cbn [split_words].
    change (32 =? QUOTE) with false. cbn iota. change (is_blank 32) with true. cbn [andb negb].
    by rewrite IH.
Qed.

Lemma plain_quoted_join names : Forall good_name names -> plain (join (quoted <$> names)) = true.
Proof.
  assert (Hq : ∀ x, good_name x -> plain (quoted x) = true).
  { intros x Hx. unfold quoted, bracket, plain. cbn [forallb]. rewrite forallb_app. cbn [forallb].
    change (plain_char QUOTE) with true. rewrite andb_true_r. cbn [andb].
    apply forallb_forall. intros c Hc%list_elem_of_In. unfold good_name in Hx. rewrite Forall_forall in Hx. specialize (Hx c Hc).
    unfold name_char in Hx. by bool_hyps. }
  unfold plain in *. induction 1 as [|x names Hx Hn IH]; [done|].
  destruct names as [|y names]; [by apply Hq|].
  rewrite !fmap_cons, !join_cons in *. by rewrite forallb_app, Hq by done.
Qed.

Definition open_ended (names : list cstr) (offs : bool) : bool :=
  match last names with Some x => if strsuffix x str_dots =? 0 then true else offs | None => offs end.

Section Args.
Context `{WordExp}.

Lemma strdelimit_quote str del : del ⊆ [LT; GT; 91; 93] -> strdelimit str del QUOTE = Ok (requote del <$> str).
Proof.
  intros Hdel. apply strdelimit_spec. intros Hin%Hdel.
  rewrite !elem_of_cons, elem_of_nil in Hin. unfold LT, GT, QUOTE in Hin. lia.
Qed.
(** Text that [wordexp] splits; a blank before it makes no difference. *)
Lemma parse_args_words arg w del names blank :
  Forall good_name names -> del ⊆ [LT; GT; 91; 93] ->
  requote del <$> arg = (if blank : bool then [32] else []) ++ join (quoted <$> names) ->
  parse_args arg w del =
  let all := match w with Some w => we_wordv w ++ names | None => names end in
  Ok (Some (Wordexp all (open_ended all (match w with Some w => we_offs w | None => false end)))).
Proof.
  intros Hn Hdel Ha. unfold parse_args. rewrite strdelimit_quote by done. cbn [mbind res_bind]. rewrite Ha.
  assert (Hw : wordexp ((if blank then [32] else []) ++ join (quoted <$> names)) = Some names).
  { rewrite wordexp_plain.
    - destruct blank; [|by apply split_join]. cbn [app split_words]. by apply split_join.
    - unfold plain. rewrite forallb_app. destruct blank; by apply plain_quoted_join. }
  rewrite Hw. done.
Qed.
End Args.

(** *** Where the mandatory arguments end *)
Lemma strrchr_none s c : c ∉ s -> strrchr s c = None.
Proof.
  induction s as [|x s IH]; intros Hc; [done|]. apply not_elem_of_cons in Hc as [Hx Hs]. cbn [strrchr].
  rewrite IH by done. by rewrite (proj2 (Z.eqb_neq x c)).
Qed.
Lemma strrchr_last a b c : c ∉ b -> strrchr (a ++ c :: b) c = Some (length a).
Proof.
  intros Hc. induction a as [|x a IH]; cbn [app strrchr]; [by rewrite strrchr_none, Z.eqb_refl|].
  by rewrite IH.
Qed.

Lemma join_bracket_last l r names :
  names <> [] -> exists p, join (bracket l r <$> names) = p ++ [r].
Proof.
  intros Hn. destruct names as [|x names _] using rev_ind; [done|]. rewrite fmap_app.
  destruct names as [|y names]; [exists (l :: x); by cbn|].
  rewrite join_app by done. exists (join (bracket l r <$> y :: names) ++ 32 :: l :: x).
  rewrite <-app_assoc. done.
Qed.
Lemma join_bracket_free l r names c :
  Forall good_name names -> c <> l -> c <> r -> c <> 32 -> name_char c = false -> c ∉ join (bracket l r <$> names).
Proof.
  intros Hn Hl Hr Hc Hname.
  assert (Hb : ∀ x, good_name x -> c ∉ bracket l r x).
  { intros x Hx. unfold bracket. rewrite not_elem_of_cons, not_elem_of_app, not_elem_of_cons. split_and!; [done | | done|].
    - intros Hin. unfold good_name in Hx. rewrite Forall_forall in Hx. specialize (Hx c Hin). congruence.
    - by apply not_elem_of_nil. }
  induction Hn as [|x names Hx Hn IH]; [by apply not_elem_of_nil|]. destruct names as [|y names]; [by apply Hb|].
  rewrite !fmap_cons, !join_cons in *. rewrite not_elem_of_app, not_elem_of_cons. auto.
Qed.

Definition opt_text (opt : list cstr) : cstr := match opt with [] => [] | _ => 32 :: join (bracket 91 93 <$> opt) end.
Lemma arg_text_split man opt : man <> [] -> arg_text man opt = join (bracket LT GT <$> man) ++ opt_text opt.
Proof.
  intros Hm. unfold arg_text, opt_text. destruct opt as [|y opt]; [by rewrite fmap_nil, !app_nil_r|].
  rewrite join_app; [done | by destruct man | done].
Qed.

Lemma square_delims : octets "[]" ⊆ [LT; GT; 91; 93].
Proof. intros c. change (octets "[]") with [91; 93]. rewrite !elem_of_cons. tauto. Qed.
Lemma angle_delims : octets "<>" ⊆ [LT; GT; 91; 93].
Proof. intros c. change (octets "<>") with [LT; GT]. rewrite !elem_of_cons. tauto. Qed.

(** What the description demands of [n] arguments: all that are mandatory, and no more
    than there are names, unless the last mandatory or the last of all ends in dots. *)
Inductive verdict := Fits | Misses (name : cstr) | TooMany (most : Z).
Definition judge_all (all : list cstr) (offs : bool) (n : Z) : verdict :=
  if open_ended all offs then Fits
  else if Z.of_nat (length all) <? n then TooMany (Z.of_nat (length all)) else Fits.
Definition judge (man opt : list cstr) (n : Z) : verdict :=
  match man !! Z.to_nat n with
  | Some name => Misses name
  | None => judge_all (man ++ opt) (open_ended man false) n
  end.

Section Check.
Context `{WordExp, ShellClient}.
Implicit Types (s : shell) (man opt : list cstr).

Definition verdict_run (v : verdict) (n : Z) : St shell bool :=
  match v with
  | Fits => mret true
  | Misses name => _ ← print_text (MissingArgument name); mret false
  | TooMany most => _ ← print_text (TooManyThan n most); mret false
  end.

Lemma check_optional_text text opt blank argc w s :
  Forall good_name opt -> requote (octets "[]") <$> text = (if blank : bool then [32] else []) ++ join (quoted <$> opt) ->
  1 <= argc < 0x100000000 ->
  check_optional text w false argc s =
  verdict_run (judge_all (match w with Some w => we_wordv w ++ opt | None => opt end)
    (match w with Some w => we_offs w | None => false end) (argc - 1)) (argc - 1) s.
Proof.
  intros Ho Htext Hargc. unfold check_optional.
  rewrite (bind_lift _ _ _ _ (parse_args_words _ w _ opt blank Ho square_delims Htext)). cbn [we_wordv we_offs negb andb].
  rewrite u32_small by lia. unfold judge_all. set (all := match w with Some _ => _ | None => _ end).
  destruct (open_ended all _); [by rewrite andb_false_r|]. rewrite andb_true_r. by destruct (_ <? _).
Qed.

Lemma requote_opt_text opt : Forall good_name opt ->
  requote (octets "[]") <$> opt_text opt = (if negb (bool_decide (opt = [])) then [32] else []) ++ join (quoted <$> opt).
Proof.
  intros Ho. destruct opt as [|y opt]; [done|]. rewrite bool_decide_eq_false_2 by done. unfold opt_text.
  rewrite fmap_cons, requote_join by first [done | exact square_delims | by repeat constructor]. done.
Qed.

(** The check is the judgement. *)
Lemma check_args_judge man opt argc s :
  Forall good_name man -> Forall good_name opt -> man ++ opt <> [] -> 1 <= argc < 0x100000000 ->
  check_args (arg_text man opt) argc s = verdict_run (judge man opt (argc - 1)) (argc - 1) s.
Proof.
  intros Hm Ho Hne Hargc. unfold check_args.
  assert (Hgt : GT ∉ join (bracket 91 93 <$> opt)) by by apply join_bracket_free.
  destruct man as [|x man].
  - (* only optional arguments *)
    change (arg_text [] opt) with (join (bracket 91 93 <$> opt)). rewrite strrchr_none by done.
    rewrite (check_optional_text _ opt false); [done | done | | done].
    apply requote_join; [done | exact square_delims | by repeat constructor..].
  - set (names := x :: man) in *. rewrite arg_text_split by done.
    destruct (join_bracket_last LT GT names) as [p Hp]; [done|].
    assert (Hrest : GT ∉ opt_text opt).
    { unfold opt_text. destruct opt; [by apply not_elem_of_nil|]. by apply not_elem_of_cons. }
    assert (Hhead : head (join (bracket LT GT <$> names) ++ opt_text opt) = Some LT).
    { unfold names. rewrite fmap_cons. by destruct man. }
    rewrite Hhead, bool_decide_eq_true_2 by done. rewrite Hp, <-app_assoc. cbn [app].
    rewrite strrchr_last by done.
    assert (Hlen : length (p ++ [GT]) = S (length p)) by (rewrite length_app; cbn; lia).
    assert (Ht : take (S (length p)) (p ++ GT :: opt_text opt) = p ++ [GT]).
    { rewrite cons_middle, app_assoc. by apply take_app_length'. }
    assert (Hd : drop (S (length p)) (p ++ GT :: opt_text opt) = opt_text opt).
    { rewrite cons_middle, app_assoc. by apply drop_app_length'. }
    rewrite Ht, Hd, <-Hp. unfold check_mandatory.
    assert (Hman : requote (octets "<>") <$> join (bracket LT GT <$> names) = [] ++ join (quoted <$> names)).
    { apply requote_join; [done | exact angle_delims | by repeat constructor..]. }
    rewrite (bind_lift _ _ _ _ (parse_args_words _ None _ names false Hm angle_delims Hman)). cbn [we_wordv we_offs].
    rewrite u32_small by lia. unfold judge.
    destruct (Z.ltb_spec (argc - 1) (Z.of_nat (length names))).
    + destruct (lookup_lt_is_Some_2 names (Z.to_nat (argc - 1))) as [name Hname]; [lia|]. by rewrite Hname.
    + rewrite lookup_ge_None_2 by lia.
      exact (check_optional_text _ opt _ argc (Some (Wordexp names _)) s Ho (requote_opt_text opt Ho) Hargc).
Qed.

(** C31: Arguments are counted against the description.  For every description of mandatory
    and optional arguments, a command runs exactly if none of the mandatory ones is
    missing and no more are given than it names, unless it ends in dots; otherwise
    nothing but the message of what is wrong happens. *)
Theorem args_checked man opt e argv s :
  Forall good_name man -> Forall good_name opt -> man ++ opt <> [] ->
  en_arg e = Some (arg_text man opt) -> 1 <= argc_of argv < 0x100000000 ->
  cmd_exec e argv s =
  let n := argc_of argv - 1 in
  match judge man opt n with
  | Fits => exec_entry e argv s
  | Misses name => Ok (- EINVAL, set_out (MissingArgument name :: sh_out s) s)
  | TooMany most => Ok (- EINVAL, set_out (TooManyThan n most :: sh_out s) s)
  end.
Proof.
  intros Hm Ho Hne He Hargc. unfold cmd_exec. rewrite He.
  assert (Htext : exists c t, arg_text man opt = c :: t).
  { unfold arg_text. destruct man as [|x [|? ?]], opt as [|y [|? ?]]; try done; cbn; eauto. }
  destruct Htext as (c & t & Htext). rewrite Htext, <-Htext. unfold mbind, st_bind.
  rewrite check_args_judge by done. by destruct (judge man opt (argc_of argv - 1)).
Qed.
End Check.

(** ** Which command runs *)
Section Dispatch.
Context `{WordExp, ShellClient}.
Implicit Types (s : shell) (e : entry).

(** "menu" is a command of the main menu only, "back" of the others. *)
Definition offered s e : bool :=
  let main := same_menu (sh_menu s) (sh_main s) in
  negb (negb main && bool_decide (en_cmd e = str_menu)) && negb (main && bool_decide (en_cmd e = str_back)).
Definition named s (name : cstr) (entries : list entry) : option entry :=
  find_first (fun e => bool_decide (name = en_cmd e) && offered s e) entries.

Lemma menu_exec_named entries name args s :
  menu_exec entries (name :: args) s =
  match named s name entries with Some e => cmd_exec e (name :: args) s | None => Ok (- ENOENT, s) end.
Proof.
  unfold named, find_first. induction entries as [|e entries IH]; [done|].
  cbn [menu_exec List.find]. rewrite bind_get. cbn [head of_option]. rewrite (bind_lift _ name) by done.
  destruct (bool_decide (name = en_cmd e)); [|done]. cbn [negb andb].
  assert (Hoff : offered s e =
    negb (negb (same_menu (sh_menu s) (sh_main s)) && bool_decide (en_cmd e = str_menu)) &&
    negb (same_menu (sh_menu s) (sh_main s) && bool_decide (en_cmd e = str_back))) by done.
  rewrite Hoff. destruct (same_menu (sh_menu s) (sh_main s)); cbn [negb andb].
  - destruct (bool_decide (en_cmd e = str_back)); [exact IH | done].
  - destruct (bool_decide (en_cmd e = str_menu)); [exact IH | done].
Qed.

Lemma cmd_exec_err e argv s err s' : cmd_exec e argv s = Ok (err, s') -> err = 0 \/ err = - EINVAL.
Proof.
  assert (Hexec : ∀ s s', exec_entry e argv s = Ok (err, s') -> err = 0).
  { intros s1 s2. unfold exec_entry. intros (? & ? & _ & (? & ? & _ & (? & ? & _ & [= <- _])%st_bind_ok)%st_bind_ok)%st_bind_ok.
    done. }
  unfold cmd_exec. destruct (en_arg e) as [[|c arg]|].
  - destruct (_ <? _); [intros [= <- _]; by right | left; by eapply Hexec].
  - intros ([|] & s1 & _ & Hr)%st_bind_ok; [left; by eapply Hexec | injection Hr as <- _; by right].
  - destruct (_ <? _); [intros [= <- _]; by right | left; by eapply Hexec].
Qed.

(** The entry that a name stands for, and the name it is called with: a command of the
    shell, of the menu, or on the main menu of the submenu before the dot.  For a name
    that stands for none, what is left of it. *)
Definition resolve s (m : menu) (name : cstr) : entry * cstr + cstr :=
  match named s name default_menu with
  | Some e => inl (e, name)
  | None =>
      match named s name (mn_entries m) with
      | Some e => inl (e, name)
      | None =>
          match (if same_menu (sh_menu s) (sh_main s) then strchr name DOT else None) with
          | None => inr name
          | Some n =>
              match find_first (fun x => begins (take n name) (mn_name x)) (sh_submenus s) with
              | None => inr (take n name)
              | Some x =>
                  match named s (drop (S n) name) (mn_entries x) with
                  | Some e => inl (e, drop (S n) name)
                  | None => inr (drop (S n) name)
                  end
              end
          end
      end
  end.

Lemma submenu_exec_resolve name args s :
  submenu_exec (name :: args) s =
  match (if same_menu (sh_menu s) (sh_main s) then strchr name DOT else None) with
  | None => Ok (- ENOENT, name :: args, s)
  | Some n =>
      match find_first (fun x => begins (take n name) (mn_name x)) (sh_submenus s) with
      | None => Ok (- ENOENT, take n name :: args, s)
      | Some x =>
          match named s (drop (S n) name) (mn_entries x) with
          | Some e => (cmd_exec e (drop (S n) name :: args) ≫= fun err => mret (err, drop (S n) name :: args)) s
          | None => Ok (- ENOENT, drop (S n) name :: args, s)
          end
      end
  end.
Proof.
  unfold submenu_exec. rewrite bind_get. destruct (same_menu (sh_menu s) (sh_main s)); [|done]. cbn [negb].
  cbn [head of_option]. rewrite (bind_lift _ name) by done. destruct (strchr name DOT) as [n|]; [|done].
  cbn [tail]. unfold find_menu. unfold mbind at 1, st_bind at 1, gets at 1.
  destruct (find_first _ (sh_submenus s)) as [x|]; [|done]. unfold mbind, st_bind.
  rewrite menu_exec_named. by destruct (named s (drop (S n) name) (mn_entries x)).
Qed.

(** C32: A line runs the one command that its first word stands for, or none.  Whatever the
    menus hold, [shell_exec] calls exactly the entry that [resolve] finds, once, with
    the arguments of the line; if there is none it prints the two messages and changes
    nothing else. *)
Theorem shell_dispatch name args m s :
  sh_menu s = Some m ->
  shell_exec (name :: args) s =
  match resolve s m name with
  | inl (e, name') => cmd_exec e (name' :: args) s
  | inr rest => Ok (- ENOENT, set_out (ShortHelp :: InvalidCommand (mn_name m) rest :: sh_out s) s)
  end.
Proof.
  intros Hm. unfold shell_exec. rewrite bind_get, Hm. unfold resolve.
  unfold mbind at 1, st_bind at 1. rewrite menu_exec_named.
  destruct (named s name default_menu) as [e|].
  { destruct (cmd_exec e (name :: args) s) as [[err s']|] eqn:E; [|done]. by apply cmd_exec_err in E as [-> | ->]. }
  rewrite Z.eqb_refl. cbn [negb]. rewrite bind_get, Hm. cbn [of_option]. rewrite (bind_lift _ m) by done.
  unfold mbind at 1, st_bind at 1. rewrite menu_exec_named.
  destruct (named s name (mn_entries m)) as [e|].
  { destruct (cmd_exec e (name :: args) s) as [[err s']|] eqn:E; [|done]. by apply cmd_exec_err in E as [-> | ->]. }
  rewrite Z.eqb_refl. cbn [negb]. unfold mbind at 1, st_bind at 1. rewrite submenu_exec_resolve, Hm.
  assert (Hnone : ∀ rest,
    (if negb (- ENOENT =? - ENOENT) then mret (- ENOENT)
     else s ← get; m ← lift (of_option NullDeref (sh_menu s));
          _ ← print_text (InvalidCommand (mn_name m) (default [] (head (rest :: args))));
          _ ← shell_print_help; mret (- ENOENT)) s =
    Ok (- ENOENT, set_out (ShortHelp :: InvalidCommand (mn_name m) rest :: sh_out s) s)).
  { intros rest. rewrite Z.eqb_refl. cbn [negb]. rewrite bind_get, Hm. done. }
  destruct (if same_menu (Some m) (sh_main s) then strchr name DOT else None) as [n|]; [|apply Hnone].
  destruct (find_first _ (sh_submenus s)) as [x|]; [|apply Hnone].
  destruct (named s (drop (S n) name) (mn_entries x)) as [e|]; [|apply Hnone].
  unfold mbind, st_bind.
  destruct (cmd_exec e (drop (S n) name :: args) s) as [[err s']|] eqn:E; refine (eq_trans _ (eq_sym E)); [|done].
  by apply cmd_exec_err in E as [-> | ->].
Qed.
End Dispatch.

(** ** A program with one command and one submenu *)
Section Concrete.
Definition plain_words : WordExp.
Proof. refine {| wordexp := plain_wordexp |}. intros s Hs. unfold plain_wordexp. by rewrite Hs. Defined.
Definition one_code : ShellCode := {| Cmd := unit; Prompt := unit; Gen := unit; Exists := unit |}.
(** Its command prints its arguments, its prompt what was typed. *)
Definition one_client : @ShellClient one_code :=
  @Build_ShellClient one_code
    (fun _ argv => @print_text one_code (@TextLine (join (tail argv))))
    (fun _ input => @print_text one_code (@TextLine input)) (fun _ _ => []) (fun _ _ => true).
#[local] Existing Instance plain_words.
#[local] Existing Instance one_code.
#[local] Existing Instance one_client.

Definition send_entry : entry :=
  Entry (octets "send") (Some (octets "<addr> <text> [ttl]")) (Some (UserCmd tt)) (Some (octets "Send")) None None.
Definition get_entry : entry :=
  Entry (octets "ttl-get") None (Some (UserCmd tt)) (Some (octets "Get the TTL")) None None.
Definition main_menu : menu := Menu 1 (octets "main") None [send_entry].
Definition config_menu : menu := Menu 2 (octets "config") None [get_entry].
Definition shell0 : shell :=
  Shell true (octets "test") [] [] false 0 true None (Some main_menu) (Some main_menu) [config_menu] None None [] [] false None.

Example run_quoted : exists s, rl_handler (Some (octets "send 0100 " ++ quoted (octets "hi there"))) shell0 = Ok (tt, s) /\
  sh_out s = [TextLine (octets "0100 hi there")].
Proof. eexists. split; [vm_compute; reflexivity | reflexivity]. Qed.

Lemma args_checked_witness :
  let argv := [octets "send"; octets "0100"; octets "hi"; octets "3"; octets "4"] in
  cmd_exec send_entry argv shell0 = Ok (- EINVAL, set_out [TooManyThan 4 3] shell0).
Proof.
  intros argv.
  refine (eq_trans (args_checked [octets "addr"; octets "text"] [octets "ttl"] send_entry argv shell0 _ _ _ _ _) _);
    [by repeat constructor | by repeat constructor | done | reflexivity | unfold argc_of; cbn; lia | vm_compute; reflexivity].
Defined.

Lemma shell_dispatch_witness :
  exists s, shell_exec [octets "config.ttl-get"] shell0 = Ok (0, s) /\ sh_out s = [TextLine []].
Proof.
  eexists. split; [|by instantiate (1 := set_out [TextLine []] shell0)].
  refine (eq_trans (shell_dispatch _ _ main_menu shell0 _) _); [reflexivity | vm_compute; reflexivity].
Defined.
End Concrete.
