(* ===== verification/ShellRun.v ===== *)
(** * The shell as a whole

    Any line goes through without a fault when the functions of the program do;
    completion lists exactly the commands that begin with the text; the environment is
    a map; and where completion and the start of the shell go wrong. *)

From Stdlib Require Import String.
From S2P Require Import Prelude Bytes Util SharedUtil Shell ShellFacts.

(** ** Lines are safe *)
Create HintDb stay.
Section Safe.
Context `{WordExp, ShellClient}.
Implicit Types (s : shell) (e : entry).

(** A menu is set, as it is from the start of the program on. *)
Definition has_menu s : Prop := is_Some (sh_menu s).
Definition stays {A} (m : St shell A) : Prop := ∀ s, has_menu s -> wp m (fun _ => has_menu) s.

Lemma stays_bind {A B} (m : St shell A) (f : A -> St shell B) :
  stays m -> (∀ a, stays (f a)) -> stays (m ≫= f).
Proof. intros Hm Hf s Hs. apply wp_bind. eapply wp_mono; [by apply Hm|]. intros a s'. apply Hf. Qed.
Lemma stays_ret {A} (a : A) : stays (mret a).
Proof. exact (fun s Hs => Hs). Qed.
Lemma stays_lift {A} (r : res A) a : r = Ok a -> stays (lift r).
Proof. intros ->. exact (fun s Hs => Hs). Qed.
Lemma stays_get : stays get.
Proof. exact (fun s Hs => Hs). Qed.
Lemma stays_gets {A} (f : shell -> A) : stays (gets f).
Proof. exact (fun s Hs => Hs). Qed.
Lemma stays_mapM {A} (f : A -> St shell unit) l : (∀ x, stays (f x)) -> stays (mapM_ f l).
Proof. intros Hf s Hs. apply wp_mapM; [|done]. intros x s' _. apply Hf. Qed.
Lemma stays_if {A} (b : bool) (m n : St shell A) : stays m -> stays n -> stays (if b then m else n).
Proof. by destruct b. Qed.
Lemma stays_modify f : (∀ s, has_menu s -> has_menu (f s)) -> stays (modify f).
Proof. intros Hf s Hs. by apply Hf. Qed.
Hint Resolve stays_ret stays_get stays_gets stays_if : stay.
(** Operations in sequence. *)
Ltac stay :=
  repeat first
    [ solve [auto with stay]
    | apply stays_bind; [|intros ?]
    | apply stays_if
    | apply stays_mapM; intros ?
    | apply stays_modify; intros ? ?; done
    | match goal with |- stays (match ?x with _ => _ end) => destruct x end ].

Lemma stays_print m : stays (print_text m).
Proof. exact (fun s Hs => Hs). Qed.
Hint Resolve stays_print : stay.
Lemma stays_printf m : stays (bt_shell_printf m).
Proof. unfold bt_shell_printf. stay. Qed.
Lemma stays_quit n : stays (bt_shell_noninteractive_quit n).
Proof. unfold bt_shell_noninteractive_quit, bt_shell_quit. stay. Qed.
Lemma stays_set_menu m : stays (bt_shell_set_menu m).
Proof. intros s Hs. destruct m; [by eexists | exact Hs]. Qed.
Lemma stays_print_menu : stays shell_print_menu.
Proof. unfold shell_print_menu, print_entry. stay. Qed.
Hint Resolve stays_printf stays_quit stays_set_menu stays_print_menu : stay.

Context (Hcmd : ∀ c argv, stays (run_cmd c argv)).

Lemma stays_func f argv : stays (call_func f argv).
Proof.
  destruct f; cbn [call_func]; [| | | | | |apply Hcmd];
    unfold cmd_back, cmd_menu, cmd_version, cmd_quit, cmd_help, cmd_export, mainloop_quit, find_menu; stay.
Qed.
Hint Resolve stays_func : stay.
Lemma stays_exec_entry e argv : stays (exec_entry e argv).
Proof. unfold exec_entry. stay. Qed.

(** The delimiters of descriptions never contain the quote that replaces them. *)
Lemma parse_args_returns arg w del : del ⊆ [LT; GT; 91; 93] -> exists r, parse_args arg w del = Ok r.
Proof.
  intros Hd. unfold parse_args. rewrite strdelimit_quote by done. cbn [mbind res_bind].
  destruct (wordexp _); by eexists.
Qed.
Lemma stays_optional opt w oargs argc : stays (check_optional opt w oargs argc).
Proof.
  unfold check_optional. destruct (parse_args_returns opt w _ square_delims) as [r Hr].
  apply stays_bind; [by eapply stays_lift|]. intros r'. stay.
Qed.
Hint Resolve stays_optional : stay.
Lemma stays_mandatory man opt oargs argc : 1 <= argc < 0x80000000 -> stays (check_mandatory man opt oargs argc).
Proof.
  intros Hargc. unfold check_mandatory. destruct (parse_args_returns man None _ angle_delims) as [r Hr].
  apply stays_bind; [by eapply stays_lift|]. intros [w|]; [|stay]. rewrite u32_small by lia.
  destruct (Z.ltb_spec (argc - 1) (Z.of_nat (length (we_wordv w)))); [|stay].
  destruct (lookup_lt_is_Some_2 (we_wordv w) (Z.to_nat (argc - 1))) as [x Hx]; [lia|].
  apply stays_bind; [apply (stays_lift _ x); by rewrite Hx|]. stay.
Qed.
Lemma stays_cmd_exec e argv : 1 <= argc_of argv < 0x80000000 -> stays (cmd_exec e argv).
Proof.
  intros Hargc. pose proof (stays_exec_entry e argv). unfold cmd_exec, check_args.
  pose proof (fun m o a => stays_mandatory m o a _ Hargc). destruct (en_arg e) as [[|c arg]|]; stay.
Qed.

Lemma stays_menu_exec entries argv : 1 <= argc_of argv < 0x80000000 -> stays (menu_exec entries argv).
Proof.
  intros Hargc. destruct argv as [|name args]; [unfold argc_of in Hargc; cbn in Hargc; lia|].
  intros s Hs. unfold wp. rewrite menu_exec_named. destruct (named s name entries); [|done].
  by apply stays_cmd_exec.
Qed.
Lemma stays_submenu_exec argv : 1 <= argc_of argv < 0x80000000 -> stays (submenu_exec argv).
Proof.
  intros Hargc. destruct argv as [|name args]; [unfold argc_of in Hargc; cbn in Hargc; lia|].
  unfold submenu_exec. cbn [head of_option tail].
  pose proof (fun l x => stays_menu_exec l (x :: args) Hargc).
  apply stays_bind; [stay|]. intros s0. destruct (negb _); [stay|].
  apply stays_bind; [by apply (stays_lift _ name)|]. intros arg0. unfold find_menu. stay.
Qed.
Lemma stays_menu {B} (f : menu -> St shell B) :
  (∀ m, stays (f m)) -> stays (s ← get; m ← lift (of_option NullDeref (sh_menu s)); f m).
Proof.
  intros Hf s [m Hm]. unfold wp, mbind, st_bind, get. rewrite Hm. by apply Hf; exists m.
Qed.
Lemma stays_shell_exec argv : argc_of argv < 0x80000000 -> stays (shell_exec argv).
Proof.
  intros Hargc. unfold shell_exec. apply stays_bind; [stay|]. intros s0.
  destruct (sh_menu s0) as [m0|]; [|stay]. destruct argv as [|name args] eqn:Hargv; [stay|]. rewrite <-Hargv in *.
  assert (Hn : 1 <= argc_of argv < 0x80000000) by (split; [subst; unfold argc_of; cbn; lia | done]).
  pose proof (fun l => stays_menu_exec l argv Hn). pose proof (stays_submenu_exec argv Hn).
  apply stays_bind; [stay|]. intros err. destruct (negb _); [stay|].
  apply stays_menu. intros m. apply stays_bind; [stay|]. intros err2. destruct (negb _); [stay|].
  apply stays_bind; [stay|]. intros [err3 argv']. destruct (negb _); [stay|].
  apply stays_menu. intros m'. unfold shell_print_help. stay.
Qed.

Context (Hprompt : ∀ f input, stays (run_prompt f input)).

(** C37: A line goes through.  Whatever the user types, however commands are described and
    whichever menus there are: with functions of the program that go through, and a menu
    set, handling the line (or the end of the input) reads nothing outside an
    object, uses no pointer that is not set and leaves a menu set. *)
Theorem line_safe input s :
  has_menu s -> (∀ line argv, input = Some line -> wordexp line = Some argv -> argc_of argv < 0x80000000) ->
  wp (rl_handler input) (fun _ => has_menu) s.
Proof.
  intros Hs Hline. destruct input as [line|]; [|done]. specialize (Hline line). revert s Hs. change (stays (rl_handler (Some line))).
  unfold rl_handler. destruct line as [|c line]; [stay|]. apply stays_bind.
  - unfold bt_shell_release_prompt. stay.
  - intros [|]; [stay|]. destruct (wordexp (c :: line)) as [argv|] eqn:E; [|stay].
    pose proof (stays_shell_exec argv (Hline argv eq_refl eq_refl)). destruct argv; stay.
Qed.
End Safe.

(** ** Completion

    readline calls the generator until it returns NULL, with state 0 first. *)
Section Complete.
Context `{WordExp, ShellClient}.
Implicit Types (s : shell) (cur : menu) (text : cstr).

Fixpoint generate (fuel : nat) s cur text (state : Z) (g : cmd_gen) : res (list cstr) :=
  match fuel with
  | 0%nat => Fault OutOfFuel
  | S fuel =>
      '(cmd, g) ← cmd_generator s cur text state g;
      match cmd with None => mret [] | Some c => cons c <$> generate fuel s cur text (state + 1) g end
  end.

(** What should be listed: the commands that begin with the text. *)
Definition matching s cur text (entries : list entry) : list cstr :=
  en_cmd <$> List.filter (fun e => entry_exists s cur e && begins text (en_cmd e)) entries.
Definition sub_matching s cur text : list cstr :=
  if same_menu (Some cur) (sh_main s) then
    match strrchr text DOT with
    | None => []
    | Some n =>
        match find_first (fun x => begins (take n text) (mn_name x)) (sh_submenus s) with
        | None => []
        | Some x => (fun c => mn_name x ++ DOT :: c) <$> matching s cur (drop (S n) text) (mn_entries x)
        end
    end
  else [].
(** The text names a submenu in full. *)
Definition full_name s cur text : Prop :=
  same_menu (Some cur) (sh_main s) = true -> ∀ n x, strrchr text DOT = Some n ->
  find_first (fun x => begins (take n text) (mn_name x)) (sh_submenus s) = Some x -> length (mn_name x) = n.

(** The next command of a table, after a part that has been seen. *)
Lemma find_cmd_from_next s cur text l i :
  (matching s cur text l = [] /\ exists j, find_cmd_from s cur text l i = (None, j)) \/
  (exists l1 e l2, l = l1 ++ e :: l2 /\ matching s cur text l = en_cmd e :: matching s cur text l2 /\
    find_cmd_from s cur text l i = (Some (en_cmd e), (i + S (length l1))%nat)).
Proof.
  revert i. induction l as [|e l IH]; intros i; [by left; eauto|]. unfold matching. cbn [find_cmd_from List.filter].
  destruct (entry_exists s cur e && begins text (en_cmd e)).
  - right. exists [], e, l. split_and!; [done | done | f_equal; cbn; lia].
  - destruct (IH (S i)) as [[Hm [j Hj]] | (l1 & e' & l2 & -> & Hm & Hf)]; [by left; eauto|].
    right. exists (e :: l1), e', l2. split_and!; [done | done |]. rewrite Hf. f_equal. cbn. lia.
Qed.
Lemma find_cmd_next s cur text pre l :
  (matching s cur text l = [] /\ exists j, find_cmd s cur text (pre ++ l) (length pre) = Ok (None, j)) \/
  (exists l1 e l2, l = l1 ++ e :: l2 /\ matching s cur text l = en_cmd e :: matching s cur text l2 /\
    find_cmd s cur text (pre ++ l) (length pre) = Ok (Some (en_cmd e), length ((pre ++ l1) ++ [e]))).
Proof.
  unfold find_cmd. rewrite length_app. destruct (Nat.ltb_spec (length pre + length l) (length pre)); [lia|].
  rewrite drop_app_length. destruct (find_cmd_from_next s cur text l (length pre)) as [[Hm [j Hj]] | (l1 & e & l2 & Hl & Hm & Hf)].
  - left. split; [done|]. exists j. by rewrite Hj.
  - right. exists l1, e, l2. split_and!; [done | done |]. rewrite Hf.
    replace (length ((pre ++ l1) ++ [e])) with (length pre + S (length l1))%nat; [done|]. rewrite !length_app. cbn. lia.
Qed.

(** One phase: a generator that goes through a table, and then does as [rest] says. *)
Lemma generate_phase s cur text (wrap : cstr -> cstr) text' entries (at_ : nat -> cmd_gen) rest :
  (∀ st i c j, 0 < st -> find_cmd s cur text' entries i = Ok (Some c, j) ->
    cmd_generator s cur text st (at_ i) = Ok (Some (wrap c), at_ j)) ->
  (∀ fuel st i j, 0 < st -> find_cmd s cur text' entries i = Ok (None, j) -> (length rest < fuel)%nat ->
    generate fuel s cur text st (at_ i) = Ok rest) ->
  ∀ pre l st fuel, entries = pre ++ l -> 0 < st -> (length (wrap <$> matching s cur text' l) + length rest < fuel)%nat ->
  generate fuel s cur text st (at_ (length pre)) = Ok ((wrap <$> matching s cur text' l) ++ rest).
Proof.
  intros Hfound Hrest pre l. remember (length l) as n eqn:Hn. revert pre l Hn.
  induction n as [n IH] using lt_wf_ind. intros pre l Hn st fuel Hl Hst Hfuel.
  destruct (find_cmd_next s cur text' pre l) as [[Hm [j Hj]] | (l1 & e & l2 & Hl2 & Hm & Hf)]; rewrite <-Hl in *; rewrite Hm in *.
  - by eapply Hrest.
  - rewrite !fmap_cons in *. cbn [length app] in *. destruct fuel as [|fuel]; [lia|]. cbn [generate].
    rewrite (Hfound _ _ _ _ Hst Hf). cbn [mbind res_bind].
    rewrite (IH (length l2)) with (l := l2); [done | rewrite Hn, Hl2, length_app; cbn; lia | done | | lia | lia].
    rewrite Hl, Hl2, <-!app_assoc. done.
Qed.

Lemma generate_submenu s cur text x n :
  (S (length (mn_name x)) <= length text)%nat -> n = length (mn_name x) ->
  ∀ st fuel, 0 < st -> let found := (fun c => mn_name x ++ DOT :: c) <$> matching s cur (drop (S n) text) (mn_entries x) in
  (length found < fuel)%nat ->
  generate fuel s cur text st (CmdGen 0 false true (Some x)) = Ok found.
Proof.
  intros Hlen -> st fuel Hst found Hfuel.
  assert (Hlt : (length text <? S (length (mn_name x)))%nat = false) by by apply Nat.ltb_ge.
  assert (Hgen : ∀ st i, 0 < st -> cmd_generator s cur text st (CmdGen i false true (Some x)) = gen_submenu s cur x text i).
  { intros st' i Hst'. unfold cmd_generator. rewrite (proj2 (Z.eqb_neq st' 0)) by lia. done. }
  rewrite <-(app_nil_r found). apply (generate_phase s cur text (fun c => mn_name x ++ DOT :: c)
    (drop (S (length (mn_name x))) text) (mn_entries x) (fun i => CmdGen i false true (Some x)) []) with (pre := []); [| | done | done |].
  - intros st' i c j Hst' Hf. rewrite Hgen by done. unfold gen_submenu. by rewrite Hlt, Hf.
  - intros [|f] st' i j Hst' Hf Hfl; [cbn in Hfl; lia|]. cbn [generate]. rewrite Hgen by done.
    unfold gen_submenu. by rewrite Hlt, Hf.
  - rewrite Nat.add_0_r. exact Hfuel.
Qed.

Lemma strrchr_bound t c n : strrchr t c = Some n -> (n < length t)%nat.
Proof.
  revert n. induction t as [|x t IH]; intros n; cbn [strrchr length]; [done|].
  destruct (strrchr t c) as [k|]; [intros [= <-]; specialize (IH k eq_refl); lia|].
  destruct (x =? c); [intros [= <-]; lia | done].
Qed.

(** The commands of the menu, and after them those of the submenu. *)
Lemma generate_menu s cur text :
  full_name s cur text -> ∀ st fuel, 0 < st ->
  let found := matching s cur text (mn_entries cur) ++ sub_matching s cur text in (length found < fuel)%nat ->
  generate fuel s cur text st (CmdGen 0 false false (Some cur)) = Ok found.
Proof.
  intros Hfull st fuel Hst found Hfuel.
  assert (Hgen : ∀ st i, 0 < st ->
    cmd_generator s cur text st (CmdGen i false false (Some cur)) = gen_menu s cur text (CmdGen i false false (Some cur))).
  { intros st' i Hst'. unfold cmd_generator. rewrite (proj2 (Z.eqb_neq st' 0)) by lia. done. }
  unfold found. rewrite <-(list_fmap_id (matching s cur text (mn_entries cur))).
  apply (generate_phase s cur text id text (mn_entries cur) (fun i => CmdGen i false false (Some cur))) with (pre := []);
    [| | done | done | rewrite list_fmap_id, <-length_app; exact Hfuel].
  - intros st' i c j Hst' Hf. rewrite Hgen by done. unfold gen_menu. cbn [cg_menu of_option cg_index mbind res_bind]. by rewrite Hf.
  - intros f st' i j Hst' Hf Hlen.
    assert (Hstep : cmd_generator s cur text st' (CmdGen i false false (Some cur)) =
      if negb (same_menu (Some cur) (sh_main s)) then Ok (None, CmdGen j false false (Some cur))
      else match strrchr text DOT with
        | None => Ok (None, CmdGen j false false (Some cur))
        | Some n => match find_first (fun x => begins (take n text) (mn_name x)) (sh_submenus s) with
            | None => Ok (None, CmdGen j false false None)
            | Some x => gen_submenu s cur x text 0 end end).
    { rewrite Hgen by done. unfold gen_menu. cbn [cg_menu of_option cg_index mbind res_bind]. by rewrite Hf. }
    unfold sub_matching, full_name in *. destruct (same_menu (Some cur) (sh_main s)).
    + destruct (strrchr text DOT) as [n|] eqn:En; [destruct (find_first _ (sh_submenus s)) as [x|] eqn:Ex|].
      * assert (Hn : length (mn_name x) = n) by by apply Hfull.
        transitivity (generate f s cur text st' (CmdGen 0 false true (Some x)));
          [|apply (generate_submenu s cur text x n); [apply strrchr_bound in En; lia | done | done | done]].
        destruct f as [|f]; [done|]. cbn [generate]. rewrite Hstep. unfold cmd_generator.
        by rewrite (proj2 (Z.eqb_neq st' 0)) by lia.
      * destruct f as [|f]; [cbn in Hlen; lia|]. cbn [generate]. by rewrite Hstep.
      * destruct f as [|f]; [cbn in Hlen; lia|]. cbn [generate]. by rewrite Hstep.
    + destruct f as [|f]; [cbn in Hlen; lia|]. cbn [generate]. by rewrite Hstep.
Qed.

Lemma generate_later s cur text fuel st st' g :
  0 < st -> 0 < st' -> generate fuel s cur text st g = generate fuel s cur text st' g.
Proof.
  revert st st' g. induction fuel as [|fuel IH]; intros st st' g Hst Hst2; [done|]. cbn [generate].
  assert (Hg : cmd_generator s cur text st g = cmd_generator s cur text st' g).
  { unfold cmd_generator. by rewrite (proj2 (Z.eqb_neq st 0)), (proj2 (Z.eqb_neq st' 0)) by lia. }
  rewrite Hg. destruct (cmd_generator s cur text st' g) as [[[c|] g']|]; [|done | done].
  cbn [mbind res_bind]. by rewrite (IH (st + 1) (st' + 1)) by lia.
Qed.
(** The first call sets the static variables. *)
Lemma generate_first s cur text fuel g :
  generate fuel s cur text 0 g = generate fuel s cur text 1 (CmdGen 0 true false None).
Proof.
  destruct fuel as [|fuel]; [done|]. cbn [generate].
  change (cmd_generator s cur text 1 (CmdGen 0 true false None)) with (cmd_generator s cur text 0 g).
  destruct (cmd_generator s cur text 0 g) as [[[c|] g']|]; [|done | done].
  cbn [mbind res_bind]. by rewrite (generate_later _ _ _ _ (0 + 1) (1 + 1)) by lia.
Qed.

(** C38: Completion is complete.  readline's loop over the generator ends, and lists each
    command that begins with the text once: those of the shell, those of the menu, and
    on the main menu those of a submenu whose name is written out before the last dot,
    as "submenu.command". *)
Theorem completion_lists s cur text g fuel :
  full_name s cur text ->
  let found := matching s cur text default_menu ++ matching s cur text (mn_entries cur) ++ sub_matching s cur text in
  (length found < fuel)%nat ->
  generate fuel s cur text 0 g = Ok found.
Proof.
  intros Hfull found Hfuel.
  assert (Hgen : ∀ st i, 0 < st -> cmd_generator s cur text st (CmdGen i true false None) =
    '(cmd, index) ← find_cmd s cur text default_menu i;
    match cmd with
    | Some _ => mret (cmd, CmdGen index true false None)
    | None => gen_menu s cur text (CmdGen 0 false false (Some cur)) end).
  { intros st' i Hst'. unfold cmd_generator. rewrite (proj2 (Z.eqb_neq st' 0)) by lia. done. }
  transitivity (generate fuel s cur text 1 (CmdGen 0 true false None)); [by apply generate_first|].
  unfold found. rewrite <-(list_fmap_id (matching s cur text default_menu)).
  apply (generate_phase s cur text id text default_menu (fun i => CmdGen i true false None)) with (pre := []);
    [| | done | lia | rewrite list_fmap_id, <-length_app; exact Hfuel].
  - intros st' i c j Hst' Hf. rewrite Hgen by done. by rewrite Hf.
  - intros f st' i j Hst' Hf Hlen. rewrite <-(generate_menu s cur text Hfull st' f Hst' Hlen).
    destruct f as [|f]; [done|]. cbn [generate]. rewrite Hgen by done. rewrite Hf. unfold cmd_generator.
    by rewrite (proj2 (Z.eqb_neq st' 0)) by lia.
Qed.
End Complete.

(** ** The environment is a map *)
Section Environment.
Context `{WordExp, ShellClient}.
Implicit Types (s : shell) (name : cstr).

Definition env_names s : list cstr := fst <$> default [] (sh_envs s).
Definition env_at s name : Z :=
  match find_first (match_env name) (default [] (sh_envs s)) with Some (_, v) => v | None => 0 end.

Lemma get_env_at name s : bt_shell_get_env name s = Ok (env_at s name, s).
Proof. unfold bt_shell_get_env, env_at, gets. by destruct (sh_envs s). Qed.

Lemma match_env_iff name x : match_env name x = true <-> fst x = name.
Proof. unfold match_env. apply bool_decide_eq_true. Qed.
Lemma find_removed name (l : list (cstr * Z)) :
  NoDup (fst <$> l) -> find_first (match_env name) (remove_first (match_env name) l) = None.
Proof.
  unfold find_first. induction l as [|y l IH]; [done|]. rewrite fmap_cons. intros [Hy Hl]%NoDup_cons.
  cbn [remove_first]. destruct (match_env name y) eqn:E; [|cbn [List.find]; rewrite E; auto].
  apply match_env_iff in E as <-. apply find_first_none, Forall_forall. intros z Hz.
  apply not_true_iff_false. intros Hm%match_env_iff. apply Hy. rewrite <-Hm. by apply list_elem_of_fmap_2.
Qed.
Lemma find_kept name other (l : list (cstr * Z)) :
  other <> name -> find_first (match_env other) (remove_first (match_env name) l) = find_first (match_env other) l.
Proof.
  intros Hne. apply find_remove_first_other. intros y Hy%match_env_iff. apply not_true_iff_false.
  intros Hm%match_env_iff. congruence.
Qed.

(** Setting a variable sets it and no other; NULL removes it.  Names stay distinct. *)
Theorem env_is_map name v s :
  NoDup (env_names s) ->
  exists envs, bt_shell_set_env name v s = Ok (tt, set_envs envs s) /\ NoDup (env_names (set_envs envs s)) /\
    ∀ other, bt_shell_get_env other (set_envs envs s) =
      Ok (if decide (other = name) then v else env_at s other, set_envs envs s).
Proof.
  unfold env_names. intros Hnd.
  assert (Hself : ∀ t, set_envs (sh_envs t) t = t) by by intros [].
  assert (Hrun : exists envs, bt_shell_set_env name v s = Ok (tt, set_envs envs s) /\
    default [] envs = remove_first (match_env name) (default [] (sh_envs s)) ++ (if v =? 0 then [] else [(name, v)])).
  { unfold bt_shell_set_env. rewrite bind_get. destruct (sh_envs s) as [l|] eqn:E; destruct (v =? 0).
    - eexists. split; [done|]. by rewrite app_nil_r.
    - by eexists.
    - exists None. split; [|done]. by rewrite <-E, Hself.
    - by eexists. }
  destruct Hrun as (envs & Hrun & Hl). exists envs. split; [done|].
  pose proof (find_removed name _ Hnd) as Hgone. cbn [sh_envs set_envs]. split.
  - rewrite Hl, fmap_app. destruct (v =? 0); [rewrite app_nil_r; by apply NoDup_remove_first|].
    apply NoDup_app. split_and!; [by apply NoDup_remove_first | | by apply NoDup_singleton].
    intros n (x & -> & Hx)%list_elem_of_fmap Hn. apply list_elem_of_singleton in Hn.
    apply find_first_none in Hgone. rewrite Forall_forall in Hgone. specialize (Hgone x Hx).
    apply (proj2 (match_env_iff name x)) in Hn. congruence.
  - intros other. rewrite get_env_at. do 2 f_equal. unfold env_at. cbn [sh_envs set_envs].
    rewrite Hl, find_first_app. destruct (decide (other = name)) as [->|Hne].
    + rewrite Hgone. destruct (Z.eqb_spec v 0) as [->|]; [done|].
      unfold find_first. cbn [List.find]. by rewrite (proj2 (match_env_iff name (name, v))).
    + rewrite find_kept by done. destruct (find_first (match_env other) (default [] (sh_envs s))) as [[]|]; [done|].
      destruct (v =? 0); [done|]. unfold find_first. cbn [List.find].
      rewrite (not_true_is_false (match_env other (name, v))); [done|]. by intros Hm%match_env_iff.
Qed.
End Environment.

(** ** On the program with one command *)
Section Concrete.
#[local] Existing Instance plain_words.
#[local] Existing Instance one_code.
#[local] Existing Instance one_client.

Lemma line_safe_witness :
  wp (rl_handler (Some (octets "send 0100 hi"))) (fun _ => has_menu) shell0.
Proof.
  apply line_safe.
  - intros c argv s Hs. exact Hs.
  - intros f input s Hs. exact Hs.
  - by eexists.
  - intros line argv [= <-] Hw. assert (Hl : wordexp (octets "send 0100 hi") = Some [octets "send"; octets "0100"; octets "hi"]) by (vm_compute; reflexivity).
    assert (Ha : argv = [octets "send"; octets "0100"; octets "hi"]) by congruence. subst argv. unfold argc_of. cbn. lia.
Defined.

Lemma completion_lists_witness :
  generate 3 shell0 main_menu (octets "config.t") 0 (CmdGen 7 false true None) = Ok [octets "config.ttl-get"].
Proof.
  refine (eq_trans (completion_lists shell0 main_menu (octets "config.t") _ 3 _ _) _).
  - intros _ n x Hn Hx. vm_compute in Hn. injection Hn as <-. vm_compute in Hx. injection Hx as <-. reflexivity.
  - vm_compute. lia.
  - vm_compute. reflexivity.
Defined.

Lemma env_is_map_witness : exists envs,
  bt_shell_set_env (octets "SHELL") 7 shell0 = Ok (tt, set_envs envs shell0) /\ NoDup (env_names (set_envs envs shell0)) /\
    ∀ other, bt_shell_get_env other (set_envs envs shell0) =
      Ok (if decide (other = octets "SHELL") then 7 else env_at shell0 other, set_envs envs shell0).
Proof. apply env_is_map. constructor. Defined.

(** Completing a submenu's name that is abbreviated reads beyond the text. *)
Theorem completion_abbreviated g : generate 9 shell0 main_menu (octets "conf.") 0 g = Fault Oob.
Proof. vm_compute. reflexivity. Qed.
(** Completing after blanks only compares with a word that is not there. *)
Theorem completion_blank matches :
  shell_completion matches (octets "  ") [] 2 shell0 = Fault NullDeref.
Proof. vm_compute. reflexivity. Qed.
(** An option that is not known, in a program without options of its own. *)
Theorem unknown_option_init getenv addresses rest :
  bt_shell_init getenv addresses None (octets "obexctl") [OptionSeen 63 None []] rest shell0 = Fault Uninit.
Proof. destruct addresses as [[a b] c]. reflexivity. Qed.
End Concrete.
