(* ===== verification/GDBus.v ===== *)
(** * The D-Bus client

    [src/blueZ/gdbus/client.c]: proxies for the objects of a service, kept in step with
    its signals, their properties, and the calls to it.

    libdbus is not part of the repository: a message is the tree of its arguments, an
    iterator what is left of a level of it, a watch is what it waits for, and a call
    that can wait for its answer is in the state until the answer comes.  Whether a
    message can be sent is a parameter, [Transport].  Memory for messages and structures
    is always there.  The functions that the program registers are [Handlers]; they may
    do anything to the state, so they may call back into this file. *)

From Stdlib Require Import String.
From stdpp Require Import gmap.
From S2P Require Import Prelude Bytes.

Definition text := list Z.

(** ** Messages *)
Inductive dvalue :=
| DString (s : text)
| DObjectPath (s : text)
| DBasic (type value : Z)
| DArray (l : list dvalue)
| DStruct (l : list dvalue)
| DDictEntry (k v : dvalue)
| DVariant (v : dvalue).
Definition DBUS_TYPE_STRING : Z := 115.
Definition DBUS_TYPE_OBJECT_PATH : Z := 111.
Definition DBUS_TYPE_SIGNATURE : Z := 103.
Definition fixed_types : list Z := [121; 98; 110; 113; 105; 117; 120; 116; 100; 104].
Definition dbus_type_is_fixed (type : Z) : bool := bool_decide (type ∈ fixed_types).
Definition dbus_type_is_basic (type : Z) : bool :=
  dbus_type_is_fixed type || (type =? DBUS_TYPE_STRING) || (type =? DBUS_TYPE_OBJECT_PATH) || (type =? DBUS_TYPE_SIGNATURE).
(** [dbus_message_iter_get_arg_type]. *)
Definition type_of (v : dvalue) : Z :=
  match v with
  | DString _ => DBUS_TYPE_STRING | DObjectPath _ => DBUS_TYPE_OBJECT_PATH | DBasic t _ => t
  | DArray _ => 97 | DStruct _ => 114 | DDictEntry _ _ => 101 | DVariant _ => 118
  end.

(** A copy: basic values, and containers level by level. *)
Fixpoint iter_append_iter (v : dvalue) : dvalue :=
  match v with
  | DArray l => DArray (List.map iter_append_iter l)
  | DStruct l => DStruct (List.map iter_append_iter l)
  | DDictEntry k w => DDictEntry (iter_append_iter k) (iter_append_iter w)
  | DVariant w => DVariant (iter_append_iter w)
  | _ => v
  end.

(** What is appended to arguments; a NULL string is [None]. *)
Definition append_variant (val : dvalue) : dvalue := DVariant val.
Definition append_array_variant (type : Z) (vals : list dvalue) : dvalue :=
  DVariant (DArray (if dbus_type_is_fixed type || (type =? DBUS_TYPE_STRING) || (type =? DBUS_TYPE_OBJECT_PATH)
                    then vals else [])).
Definition dict_append_basic (dict : list dvalue) (key : dvalue) (val : option dvalue) : list dvalue :=
  match val with None => dict | Some v => dict ++ [DDictEntry key (append_variant v)] end.
Definition g_dbus_dict_append_entry (dict : list dvalue) (key : text) (val : option dvalue) : list dvalue :=
  dict_append_basic dict (DString key) val.
Definition g_dbus_dict_append_basic_array (dict : list dvalue) (key : dvalue) (type : Z) (vals : list dvalue) : list dvalue :=
  dict ++ [DDictEntry key (append_array_variant type vals)].
Definition g_dbus_dict_append_array (dict : list dvalue) (key : text) (type : Z) (vals : list dvalue) : list dvalue :=
  g_dbus_dict_append_basic_array dict (DString key) type vals.

Definition DBUS_INTERFACE_INTROSPECTABLE : text := octets "org.freedesktop.DBus.Introspectable".
Definition DBUS_INTERFACE_PROPERTIES : text := octets "org.freedesktop.DBus.Properties".

(** ** State *)

(** [struct prop_entry]; its message holds one value. *)
Record prop_entry := PropEntry { pe_type : Z; pe_msg : dvalue }.
(** [px_client]: whether [client] is set.  A function and its data are one number. *)
Record proxy := Proxy {
  px_ref_count : Z; px_client : bool; px_obj_path : text; px_interface : text;
  px_prop_list : gmap text prop_entry; px_prop_func : option Z; px_removed_func : option Z;
  px_get_all_call : bool; px_pending : bool }.
(** Which functions of the program are set. *)
Record functions := Functions {
  fn_connect : bool; fn_disconn : bool; fn_signal : bool; fn_ready : bool;
  fn_proxy_added : bool; fn_proxy_removed : bool; fn_property_changed : bool }.
Record client := Client {
  cl_ref_count : Z; cl_service_name : text; cl_base_path : option text; cl_root_path : option text;
  cl_match_rules : list text; cl_get_objects_call : bool; cl_connected : bool; cl_functions : functions;
  cl_proxy_list : list Z }.

Inductive watch := WFilter | WService | WAdded | WRemoved | WProperties (proxy : Z).
#[global] Instance watch_eq_dec : EqDecision watch.
Proof. solve_decision. Defined.
(** What is sent. *)
Inductive outgoing :=
| ModifyMatch (add : bool) (rule : text)
| GetManagedObjects (root_path : text)
| GetAll (path interface : text)
| StartServiceByName (name : text)
| GetProperty (path interface name : text)
| SetProperty (path interface name : text) (value : dvalue)
| MethodCall (path interface method : text) (args : list dvalue).
(** Calls whose answer goes to the program, or to a property; functions are optional. *)
Inductive pending_call :=
| RefreshProperty (proxy : Z) (name : text)
| SetCall (function destroy : option Z)
| MethodPending (function : Z) (destroy : option Z).
(** An error, or the arguments. *)
Definition reply := option (list dvalue).

(** One client, or none after it has been freed. *)
Record gstate (U : Type) := GState {
  gs_client : option client; gs_proxies : gmap Z proxy; gs_next : Z; gs_watches : list watch;
  gs_calls : list pending_call; gs_sent : list outgoing; gs_user : U }.
Arguments GState {U}.
Arguments gs_client {U}.
Arguments gs_proxies {U}.
Arguments gs_next {U}.
Arguments gs_watches {U}.
Arguments gs_calls {U}.
Arguments gs_sent {U}.
Arguments gs_user {U}.

Class Transport := { sends : outgoing -> bool }.
Class Handlers (U : Type) := {
  connect_func : St (gstate U) unit;
  disconn_func : St (gstate U) unit;
  signal_func : list dvalue -> St (gstate U) unit;
  ready : St (gstate U) unit;
  proxy_added_func : Z -> St (gstate U) unit;
  proxy_removed_func : Z -> St (gstate U) unit;
  property_changed_func : Z -> text -> option dvalue -> St (gstate U) unit;
  prop_func : Z -> Z -> text -> option dvalue -> St (gstate U) unit;
  removed_func : Z -> Z -> St (gstate U) unit;
  result_func : Z -> bool -> St (gstate U) unit;
  return_func : Z -> reply -> St (gstate U) unit;
  destroy_func : Z -> St (gstate U) unit }.

Section Access.
Context {U : Type}.
Abbreviation GS := (St (gstate U)).
Definition set_client (v : option client) (s : gstate U) : gstate U :=
  GState v (gs_proxies s) (gs_next s) (gs_watches s) (gs_calls s) (gs_sent s) (gs_user s).
Definition set_proxies (v : gmap Z proxy) (s : gstate U) : gstate U :=
  GState (gs_client s) v (gs_next s) (gs_watches s) (gs_calls s) (gs_sent s) (gs_user s).
Definition set_watches (v : list watch) (s : gstate U) : gstate U :=
  GState (gs_client s) (gs_proxies s) (gs_next s) v (gs_calls s) (gs_sent s) (gs_user s).
Definition set_gs_calls (v : list pending_call) (s : gstate U) : gstate U :=
  GState (gs_client s) (gs_proxies s) (gs_next s) (gs_watches s) v (gs_sent s) (gs_user s).
Definition set_sent (v : list outgoing) (s : gstate U) : gstate U :=
  GState (gs_client s) (gs_proxies s) (gs_next s) (gs_watches s) (gs_calls s) v (gs_user s).
Definition set_user (v : U) (s : gstate U) : gstate U :=
  GState (gs_client s) (gs_proxies s) (gs_next s) (gs_watches s) (gs_calls s) (gs_sent s) v.

Definition get_client : GS client := s ← get; lift (of_option UseAfterFree (gs_client s)).
Definition get_proxy (p : Z) : GS proxy := s ← get; lift (of_option UseAfterFree (gs_proxies s !! p)).
Definition mod_client (f : client -> client) : GS unit := c ← get_client; modify (set_client (Some (f c))).
Definition mod_proxy (p : Z) (f : proxy -> proxy) : GS unit :=
  px ← get_proxy p; modify (fun s => set_proxies (<[p := f px]> (gs_proxies s)) s).

Definition set_cl_ref_count v c := Client v (cl_service_name c) (cl_base_path c) (cl_root_path c) (cl_match_rules c)
  (cl_get_objects_call c) (cl_connected c) (cl_functions c) (cl_proxy_list c).
Definition set_get_objects_call v c := Client (cl_ref_count c) (cl_service_name c) (cl_base_path c) (cl_root_path c)
  (cl_match_rules c) v (cl_connected c) (cl_functions c) (cl_proxy_list c).
Definition set_connected v c := Client (cl_ref_count c) (cl_service_name c) (cl_base_path c) (cl_root_path c)
  (cl_match_rules c) (cl_get_objects_call c) v (cl_functions c) (cl_proxy_list c).
Definition set_functions v c := Client (cl_ref_count c) (cl_service_name c) (cl_base_path c) (cl_root_path c)
  (cl_match_rules c) (cl_get_objects_call c) (cl_connected c) v (cl_proxy_list c).
Definition set_proxy_list v c := Client (cl_ref_count c) (cl_service_name c) (cl_base_path c) (cl_root_path c)
  (cl_match_rules c) (cl_get_objects_call c) (cl_connected c) (cl_functions c) v.
Definition set_px_ref_count v x := Proxy v (px_client x) (px_obj_path x) (px_interface x) (px_prop_list x)
  (px_prop_func x) (px_removed_func x) (px_get_all_call x) (px_pending x).
Definition set_px_client v x := Proxy (px_ref_count x) v (px_obj_path x) (px_interface x) (px_prop_list x)
  (px_prop_func x) (px_removed_func x) (px_get_all_call x) (px_pending x).
Definition set_prop_list v x := Proxy (px_ref_count x) (px_client x) (px_obj_path x) (px_interface x) v
  (px_prop_func x) (px_removed_func x) (px_get_all_call x) (px_pending x).
Definition set_prop_func v x := Proxy (px_ref_count x) (px_client x) (px_obj_path x) (px_interface x) (px_prop_list x)
  v (px_removed_func x) (px_get_all_call x) (px_pending x).
Definition set_removed_func v x := Proxy (px_ref_count x) (px_client x) (px_obj_path x) (px_interface x) (px_prop_list x)
  (px_prop_func x) v (px_get_all_call x) (px_pending x).
Definition set_get_all_call v x := Proxy (px_ref_count x) (px_client x) (px_obj_path x) (px_interface x) (px_prop_list x)
  (px_prop_func x) (px_removed_func x) v (px_pending x).
Definition set_px_pending v x := Proxy (px_ref_count x) (px_client x) (px_obj_path x) (px_interface x) (px_prop_list x)
  (px_prop_func x) (px_removed_func x) (px_get_all_call x) v.

Definition add_watch (w : watch) : GS unit := modify (fun s => set_watches (gs_watches s ++ [w]) s).
Definition g_dbus_remove_watch (w : watch) : GS unit :=
  modify (fun s => set_watches (List.filter (fun x => negb (bool_decide (x = w))) (gs_watches s)) s).
Definition add_call (c : pending_call) : GS unit := modify (fun s => set_gs_calls (gs_calls s ++ [c]) s).
(** [g_dbus_send_message] and [g_dbus_send_message_with_reply]: false if not sent. *)
Definition g_dbus_send_message `{Transport} (m : outgoing) : GS bool :=
  if sends m then _ ← modify (fun s => set_sent (gs_sent s ++ [m]) s); mret true else mret false.
End Access.

(** ** Properties and proxies *)
Section Code.
Context {U : Type} `{Transport} `{Handlers U}.
Abbreviation GS := (St (gstate U)).

Definition modify_match (add : bool) (rule : text) : GS bool := g_dbus_send_message (ModifyMatch add rule).

(** The client that a proxy pointed to. *)
Definition client_of (linked : bool) : GS client := if linked then get_client else fail NullDeref.
(** [function] when it is set. *)
Definition when (b : bool) (m : GS unit) : GS unit := if b then m else mret tt.

Definition prop_entry_update (prop : prop_entry) (value : dvalue) : prop_entry :=
  PropEntry (pe_type prop) (iter_append_iter value).
Definition prop_entry_new (value : dvalue) : prop_entry := PropEntry (type_of value) (iter_append_iter value).

Definition add_property (p : Z) (name : text) (iter : list dvalue) (send_changed : bool) : GS unit :=
  px ← get_proxy p;
  match iter with
  | DVariant value :: _ =>
      let prop := match px_prop_list px !! name with
                  | Some prop => prop_entry_update prop value
                  | None => prop_entry_new value
                  end in
      _ ← mod_proxy p (set_prop_list (<[name := prop]> (px_prop_list px)));
      _ ← (match px_prop_func px with Some f => prop_func f p name (Some value) | None => mret tt end);
      if negb (px_client px) || negb send_changed then mret tt
      else c ← get_client; when (fn_property_changed (cl_functions c)) (property_changed_func p name (Some value))
  | _ => mret tt
  end.

Fixpoint update_loop (p : Z) (dict : list dvalue) (send_changed : bool) : GS unit :=
  match dict with
  | DDictEntry (DString name) value :: dict' =>
      _ ← add_property p name [value] send_changed; update_loop p dict' send_changed
  | _ => mret tt
  end.
Definition update_properties (p : Z) (iter : list dvalue) (send_changed : bool) : GS unit :=
  match iter with DArray dict :: _ => update_loop p dict send_changed | _ => mret tt end.

(** [client] is NULL or the client. *)
Definition proxy_added (client : bool) (p : Z) : GS unit :=
  px ← get_proxy p;
  if negb (px_pending px) then mret tt
  else
    c ← client_of client;
    _ ← when (fn_proxy_added (cl_functions c)) (proxy_added_func p);
    mod_proxy p (set_px_pending false).

(** A property that is not sent its answer waits for nothing. *)
Definition get_all_properties (p : Z) : GS unit :=
  px ← get_proxy p;
  _ ← client_of (px_client px);
  if px_get_all_call px then mret tt
  else
    sent ← g_dbus_send_message (GetAll (px_obj_path px) (px_interface px));
    if sent : bool then mod_proxy p (set_get_all_call true) else mret tt.

(** From the index on, if there is one; the new index with the result. *)
Fixpoint lookup_loop (l : list Z) (path interface : text) (index : nat) : GS (option Z * nat) :=
  match l with
  | [] => mret (None, index)
  | p :: l' =>
      px ← get_proxy p;
      if bool_decide (px_interface px = interface) && bool_decide (px_obj_path px = path)
      then mret (Some p, S index) else lookup_loop l' path interface (S index)
  end.
Definition g_dbus_proxy_lookup (l : list Z) (index : nat) (path : text) (interface : option text) : GS (option Z * nat) :=
  match interface with None => mret (None, index) | Some i => lookup_loop (drop index l) path i index end.
(** [strncasecmp] of the length of the path. *)
Definition lower (c : Z) : Z := if (65 <=? c) && (c <=? 90) then c + 32 else c.
Fixpoint path_loop (l : list Z) (path : text) (index : nat) : GS (option text * nat) :=
  match l with
  | [] => mret (None, index)
  | p :: l' =>
      px ← get_proxy p;
      if bool_decide ((lower <$> path) `prefix_of` (lower <$> px_obj_path px))
      then mret (Some (px_obj_path px), S index) else path_loop l' path (S index)
  end.
Definition g_dbus_proxy_path_lookup (l : list Z) (index : nat) (path : text) : GS (option text * nat) :=
  path_loop (drop index l) path index.

(** Names of properties that have lost their value. *)
Fixpoint invalidate_loop (p : Z) (linked : bool) (names : list dvalue) : GS unit :=
  match names with
  | DString name :: names' =>
      _ ← mod_proxy p (fun px => set_prop_list (delete name (px_prop_list px)) px);
      px ← get_proxy p;
      _ ← (match px_prop_func px with Some f => prop_func f p name None | None => mret tt end);
      c ← client_of linked;
      _ ← when (fn_property_changed (cl_functions c)) (property_changed_func p name None);
      invalidate_loop p linked names'
  | _ => mret tt
  end.
Definition properties_changed (p : Z) (msg : list dvalue) : GS unit :=
  px ← get_proxy p;
  match msg with
  | DString _ :: iter =>
      _ ← update_properties p iter true;
      match tail iter with DArray entry :: _ => invalidate_loop p (px_client px) entry | _ => mret tt end
  | _ => mret tt
  end.

Definition g_dbus_proxy_ref (p : Z) : GS unit := mod_proxy p (fun px => set_px_ref_count (px_ref_count px + 1) px).
Definition g_dbus_proxy_unref (p : Z) : GS unit :=
  _ ← mod_proxy p (fun px => set_px_ref_count (px_ref_count px - 1) px);
  px ← get_proxy p;
  if 0 <? px_ref_count px then mret tt else modify (fun s => set_proxies (delete p (gs_proxies s)) s).

Definition proxy_new (path interface : text) : GS Z :=
  c ← get_client;
  s ← get;
  let p := gs_next s in
  _ ← modify (fun s => GState (gs_client s) (<[p := Proxy 0 true path interface ∅ None None false true]> (gs_proxies s))
                         (p + 1) (gs_watches s) (gs_calls s) (gs_sent s) (gs_user s));
  _ ← add_watch (WProperties p);
  _ ← mod_client (fun c => set_proxy_list (cl_proxy_list c ++ [p]) c);
  _ ← g_dbus_proxy_ref p;
  mret p.
Definition proxy_free (p : Z) : GS unit :=
  px ← get_proxy p;
  _ ← when (px_client px)
        (_ ← mod_proxy p (set_get_all_call false);
         c ← get_client;
         _ ← when (fn_proxy_removed (cl_functions c)) (proxy_removed_func p);
         _ ← get_client;
         _ ← get_proxy p;
         _ ← g_dbus_remove_watch (WProperties p);
         mod_proxy p (fun px => set_px_client false (set_prop_list ∅ px)));
  px ← get_proxy p;
  _ ← (match px_removed_func px with Some f => removed_func f p | None => mret tt end);
  g_dbus_proxy_unref p.

Fixpoint remove_loop (l : list Z) (path interface : text) : GS unit :=
  match l with
  | [] => mret tt
  | p :: l' =>
      px ← get_proxy p;
      if bool_decide (px_interface px = interface) && bool_decide (px_obj_path px = path) then
        _ ← mod_client (fun c => set_proxy_list (remove_first (Z.eqb p) (cl_proxy_list c)) c);
        proxy_free p
      else remove_loop l' path interface
  end.
Definition proxy_remove (path interface : text) : GS unit :=
  c ← get_client; remove_loop (cl_proxy_list c) path interface.

Definition start_service (p : Z) : GS unit :=
  px ← get_proxy p; c ← client_of (px_client px); _ ← g_dbus_send_message (StartServiceByName (cl_service_name c)); mret tt.
(** [client] is NULL or the client. *)
Definition g_dbus_proxy_new (client : bool) (path interface : text) : GS (option Z) :=
  if negb client then mret None
  else
    c ← get_client;
    '(found, _) ← g_dbus_proxy_lookup (cl_proxy_list c) 0 path (Some interface);
    match found with
    | Some p => _ ← g_dbus_proxy_ref p; mret (Some p)
    | None =>
        p ← proxy_new path interface;
        c ← get_client;
        if negb (cl_connected c) then _ ← start_service p; _ ← g_dbus_proxy_ref p; mret (Some p)
        else
          _ ← when (negb (cl_get_objects_call c)) (get_all_properties p);
          _ ← g_dbus_proxy_ref p; mret (Some p)
    end.

(** On a proxy that may be NULL. *)
Definition g_dbus_proxy_get_path (p : option Z) : GS (option text) :=
  match p with None => mret None | Some p => px ← get_proxy p; mret (Some (px_obj_path px)) end.
Definition g_dbus_proxy_get_interface (p : option Z) : GS (option text) :=
  match p with None => mret None | Some p => px ← get_proxy p; mret (Some (px_interface px)) end.
Definition g_dbus_proxy_get_property (p : option Z) (name : option text) : GS (option dvalue) :=
  match p, name with
  | Some p, Some name => px ← get_proxy p; mret (pe_msg <$> px_prop_list px !! name)
  | _, _ => mret None
  end.

(** ** Calls *)

(** A call on the object of a proxy, if that still has a client. *)
Definition proxy_send (p : Z) (m : proxy -> outgoing) (call : option pending_call) : GS bool :=
  px ← get_proxy p;
  if negb (px_client px) then mret false
  else
    _ ← get_client;
    sent ← g_dbus_send_message (m px);
    _ ← (match call with Some c => when sent (add_call c) | None => mret tt end);
    mret sent.
Definition g_dbus_proxy_refresh_property (p : option Z) (name : option text) : GS bool :=
  match p, name with
  | Some p, Some name =>
      proxy_send p (fun px => GetProperty (px_obj_path px) (px_interface px) name) (Some (RefreshProperty p name))
  | _, _ => mret false
  end.
Definition refresh_property_reply (p : Z) (name : text) (r : reply) : GS unit :=
  match r with Some args => add_property p name args true | None => mret tt end.
Definition set_property_reply (function destroy : option Z) (r : reply) : GS unit :=
  _ ← (match function with Some f => result_func f (bool_decide (r = None)) | None => mret tt end);
  match destroy with Some d => destroy_func d | None => mret tt end.
Definition g_dbus_proxy_set_property_basic (p : option Z) (name : option text) (type : Z) (value : option dvalue)
    (function destroy : option Z) : GS bool :=
  match p, name, value with
  | Some p, Some name, Some v =>
      if negb (dbus_type_is_basic type) then mret false
      else proxy_send p (fun px => SetProperty (px_obj_path px) (px_interface px) name (append_variant v))
             (Some (SetCall function destroy))
  | _, _, _ => mret false
  end.
Definition g_dbus_proxy_set_property_array (p : option Z) (name : option text) (type : Z) (values : option (list dvalue))
    (function destroy : option Z) : GS bool :=
  match p, name, values with
  | Some p, Some name, Some vs =>
      if negb (dbus_type_is_basic type) then mret false
      else proxy_send p (fun px => SetProperty (px_obj_path px) (px_interface px) name (append_array_variant type vs))
             (Some (SetCall function destroy))
  | _, _, _ => mret false
  end.
Definition method_call_reply (function : Z) (destroy : option Z) (r : reply) : GS unit :=
  _ ← return_func function r; match destroy with Some d => destroy_func d | None => mret tt end.
(** [args] is what [setup] appends; without a function the answer is not waited for. *)
Definition g_dbus_proxy_method_call (p : option Z) (method : option text) (args : list dvalue)
    (function destroy : option Z) : GS bool :=
  match p, method with
  | Some p, Some method =>
      proxy_send p (fun px => MethodCall (px_obj_path px) (px_interface px) method args)
        (option_map (fun f => MethodPending f destroy) function)
  | _, _ => mret false
  end.
Definition g_dbus_proxy_set_property_watch (p : option Z) (function : option Z) : GS bool :=
  match p with None => mret false | Some p => _ ← mod_proxy p (set_prop_func function); mret true end.
Definition g_dbus_proxy_set_removed_watch (p : option Z) (function : option Z) : GS bool :=
  match p with None => mret false | Some p => _ ← mod_proxy p (set_removed_func function); mret true end.

(** ** The objects of the service *)

(** A round for each proxy; the proxy is that at the head of the list each time. *)
Definition refresh_properties (l : list Z) : GS unit :=
  mapM_ (fun _ =>
    p ← lift (of_option NullDeref (head l));
    px ← get_proxy p;
    when (px_pending px) (get_all_properties p)) l.

Definition parse_properties (path interface : text) (iter : list dvalue) : GS unit :=
  if bool_decide (interface = DBUS_INTERFACE_INTROSPECTABLE) then mret tt
  else if bool_decide (interface = DBUS_INTERFACE_PROPERTIES) then mret tt
  else
    c ← get_client;
    '(found, _) ← g_dbus_proxy_lookup (cl_proxy_list c) 0 path (Some interface);
    known ← (match found with Some p => px ← get_proxy p; mret (negb (px_pending px)) | None => mret false end);
    match found, known : bool with
    | Some p, true => update_properties p iter false
    | _, _ =>
        p ← (match found with Some p => mret p | None => proxy_new path interface end);
        _ ← update_properties p iter false;
        proxy_added true p
    end.
Fixpoint interfaces_loop (path : text) (dict : list dvalue) : GS unit :=
  match dict with
  | DDictEntry (DString interface) props :: dict' =>
      _ ← parse_properties path interface [props]; interfaces_loop path dict'
  | _ => mret tt
  end.
Definition parse_interfaces (path : text) (iter : list dvalue) : GS unit :=
  match iter with DArray dict :: _ => interfaces_loop path dict | _ => mret tt end.

Definition g_dbus_client_ref : GS unit := mod_client (fun c => set_cl_ref_count (cl_ref_count c + 1) c).
Definition unmatch (rules : list text) : GS unit :=
  mapM_ (fun r => _ ← get_client; _ ← modify_match false r; mret tt) rules.
(** [g_list_free_full]: the list is freed when every element has been. *)
Definition free_proxies : GS unit := c ← get_client; mapM_ proxy_free (cl_proxy_list c).
Definition g_dbus_client_unref : GS unit :=
  _ ← mod_client (fun c => set_cl_ref_count (cl_ref_count c - 1) c);
  c ← get_client;
  if 0 <? cl_ref_count c then mret tt
  else
    _ ← mod_client (set_get_objects_call false);
    _ ← unmatch (cl_match_rules c);
    _ ← g_dbus_remove_watch WFilter;
    _ ← free_proxies;
    c ← get_client;
    _ ← when (fn_disconn (cl_functions c) && cl_connected c) disconn_func;
    _ ← get_client;
    _ ← g_dbus_remove_watch WService;
    _ ← g_dbus_remove_watch WAdded;
    _ ← g_dbus_remove_watch WRemoved;
    modify (set_client None).
(** While [m] runs, the client stays. *)
Definition with_client (m : GS unit) : GS unit := _ ← g_dbus_client_ref; _ ← m; g_dbus_client_unref.

(** [g_dbus_client_ref] and [g_dbus_client_unref] do nothing to NULL. *)
Definition get_all_properties_reply (p : Z) (r : reply) : GS unit :=
  px ← get_proxy p;
  let handle :=
    _ ← (match r with Some args => update_properties p args false | None => mret tt end);
    _ ← proxy_added (px_client px) p;
    mod_proxy p (set_get_all_call false) in
  if px_client px then with_client handle else handle.

Definition interfaces_added (msg : list dvalue) : GS unit :=
  match msg with
  | DObjectPath path :: iter => with_client (parse_interfaces path iter)
  | _ => mret tt
  end.
Fixpoint removed_loop (path : text) (l : list dvalue) : GS unit :=
  match l with
  | DString interface :: l' => _ ← proxy_remove path interface; removed_loop path l'
  | _ => mret tt
  end.
Definition interfaces_removed (msg : list dvalue) : GS unit :=
  match msg with
  | DObjectPath path :: DArray entry :: _ => with_client (removed_loop path entry)
  | _ => mret tt
  end.

Fixpoint objects_loop (dict : list dvalue) : GS unit :=
  match dict with
  | DDictEntry (DObjectPath path) interfaces :: dict' =>
      _ ← parse_interfaces path [interfaces]; objects_loop dict'
  | _ => mret tt
  end.
Definition parse_managed_objects (msg : list dvalue) : GS unit :=
  match msg with DArray dict :: _ => objects_loop dict | _ => mret tt end.
Definition get_managed_objects_reply (r : reply) : GS unit :=
  with_client
    (_ ← (match r with Some args => parse_managed_objects args | None => mret tt end);
     c ← get_client;
     _ ← when (fn_ready (cl_functions c)) ready;
     _ ← mod_client (set_get_objects_call false);
     c ← get_client;
     refresh_properties (cl_proxy_list c)).
Definition get_managed_objects : GS unit :=
  c ← get_client;
  if negb (cl_connected c) then mret tt
  else
    match cl_root_path c with
    | Some root =>
        if negb (fn_proxy_added (cl_functions c)) && negb (fn_proxy_removed (cl_functions c))
        then refresh_properties (cl_proxy_list c)
        else if cl_get_objects_call c then mret tt
        else
          sent ← g_dbus_send_message (GetManagedObjects root);
          when sent (mod_client (set_get_objects_call true))
    | None => refresh_properties (cl_proxy_list c)
    end.

Definition service_connect : GS unit :=
  with_client
    (_ ← mod_client (set_connected true);
     _ ← get_managed_objects;
     c ← get_client;
     when (fn_connect (cl_functions c)) connect_func).
Definition service_disconnect : GS unit :=
  _ ← mod_client (set_connected false);
  _ ← free_proxies;
  _ ← mod_client (set_proxy_list []);
  c ← get_client;
  when (fn_disconn (cl_functions c)) disconn_func.

(** A signal from a sender, at a path, of an interface. *)
Definition message_filter (signal : bool) (sender : option text) (path interface : text) (msg : list dvalue) : GS unit :=
  match signal, sender with
  | true, Some _ =>
      c ← get_client;
      match cl_base_path c with
      | Some base =>
          if negb (bool_decide (base `prefix_of` path)) then mret tt
          else if bool_decide (interface = DBUS_INTERFACE_PROPERTIES) then mret tt
          else when (fn_signal (cl_functions c)) (signal_func msg)
      | None => mret tt
      end
  | _, _ => mret tt
  end.

(** ** The client *)
Definition no_functions : functions := Functions false false false false false false false.
Definition match_rule (service base : text) : text :=
  octets "type='signal',sender='" ++ service ++ octets "',path_namespace='" ++ base ++ octets "'".
(** [printf] writes a NULL string as (null). *)
Definition printed (s : option text) : text := default (octets "(null)") s.
Definition g_dbus_client_new_full (service : option text) (path root_path : option text) : GS bool :=
  match service with
  | None => mret false
  | Some service =>
      _ ← add_watch WFilter;
      _ ← modify (set_client (Some (Client 0 service path root_path [] false false no_functions [])));
      _ ← add_watch WService;
      match root_path with
      | None => _ ← g_dbus_client_ref; mret true
      | Some _ =>
          _ ← add_watch WAdded;
          _ ← add_watch WRemoved;
          let rule := match_rule service (printed path) in
          _ ← modify (set_client (Some (Client 0 service path root_path [rule] false false no_functions [])));
          _ ← modify_match true rule;
          _ ← g_dbus_client_ref; mret true
      end
  end.
Definition g_dbus_client_new (service : option text) (path : option text) : GS bool :=
  g_dbus_client_new_full service path (Some (octets "/")).

(** [client] is NULL or the client. *)
Definition set_function (client : bool) (f : functions -> functions) : GS bool :=
  if negb client then mret false else _ ← mod_client (fun c => set_functions (f (cl_functions c)) c); mret true.
Definition g_dbus_client_set_connect_watch (client function : bool) : GS bool :=
  set_function client (fun f => Functions function (fn_disconn f) (fn_signal f) (fn_ready f) (fn_proxy_added f)
    (fn_proxy_removed f) (fn_property_changed f)).
Definition g_dbus_client_set_disconnect_watch (client function : bool) : GS bool :=
  set_function client (fun f => Functions (fn_connect f) function (fn_signal f) (fn_ready f) (fn_proxy_added f)
    (fn_proxy_removed f) (fn_property_changed f)).
Definition g_dbus_client_set_signal_watch (client function : bool) : GS bool :=
  set_function client (fun f => Functions (fn_connect f) (fn_disconn f) function (fn_ready f) (fn_proxy_added f)
    (fn_proxy_removed f) (fn_property_changed f)).
Definition g_dbus_client_set_ready_watch (client function : bool) : GS bool :=
  set_function client (fun f => Functions (fn_connect f) (fn_disconn f) (fn_signal f) function (fn_proxy_added f)
    (fn_proxy_removed f) (fn_property_changed f)).
Definition g_dbus_client_set_proxy_handlers (client added removed changed : bool) : GS bool :=
  ok ← set_function client (fun f => Functions (fn_connect f) (fn_disconn f) (fn_signal f) (fn_ready f) added removed changed);
  if negb ok then mret false else _ ← when (added || removed || changed) get_managed_objects; mret true.

(** ** What arrives

    A signal goes to the watches for it, an answer to the call that waits for it. *)
Inductive dbus_arrival :=
| ServiceAppeared | ServiceVanished
| InterfacesAdded (msg : list dvalue) | InterfacesRemoved (msg : list dvalue)
| PropertiesChanged (path interface : text) (msg : list dvalue)
| AnyMessage (signal : bool) (sender : option text) (path interface : text) (msg : list dvalue)
| ObjectsReply (r : reply) | AllReply (proxy : Z) (r : reply) | CallReply (n : nat) (r : reply).

Definition watched (w : watch) (m : GS unit) : GS unit :=
  s ← get; if bool_decide (w ∈ gs_watches s) then m else mret tt.
Definition listens (path interface : text) (s : gstate U) (w : watch) : option Z :=
  match w with
  | WProperties p =>
      match gs_proxies s !! p with
      | Some px => if bool_decide (px_obj_path px = path) && bool_decide (px_interface px = interface) then Some p else None
      | None => Some p
      end
  | _ => None
  end.
Definition answered (c : pending_call) (r : reply) : GS unit :=
  match c with
  | RefreshProperty p name => refresh_property_reply p name r
  | SetCall function destroy => set_property_reply function destroy r
  | MethodPending function destroy => method_call_reply function destroy r
  end.
Definition arrives (a : dbus_arrival) : GS unit :=
  match a with
  | ServiceAppeared => watched WService service_connect
  | ServiceVanished => watched WService service_disconnect
  | InterfacesAdded msg => watched WAdded (interfaces_added msg)
  | InterfacesRemoved msg => watched WRemoved (interfaces_removed msg)
  | PropertiesChanged path interface msg =>
      s ← get; mapM_ (fun p => properties_changed p msg) (omap (listens path interface s) (gs_watches s))
  | AnyMessage signal sender path interface msg =>
      watched WFilter (message_filter signal sender path interface msg)
  | ObjectsReply r =>
      s ← get; match gs_client s with Some c => when (cl_get_objects_call c) (get_managed_objects_reply r) | None => mret tt end
  | AllReply p r =>
      s ← get; match gs_proxies s !! p with Some px => when (px_get_all_call px) (get_all_properties_reply p r) | None => mret tt end
  | CallReply n r =>
      s ← get;
      match gs_calls s !! n with
      | Some c => _ ← modify (fun s => set_gs_calls (delete n (gs_calls s)) s); answered c r
      | None => mret tt
      end
  end.
Fixpoint all_arrive (l : list dbus_arrival) : GS unit :=
  match l with [] => mret tt | a :: l' => _ ← arrives a; all_arrive l' end.
End Code.
