(* ===== verification/GDBusFacts.v ===== *)
(** * The proxies mirror the objects of the service

    For functions of the program that leave the client alone, as those of [main.c] do,
    and a service that announces its objects as D-Bus asks of it: the proxies are the
    objects of the service, with the properties they have there, and the program has
    been told of exactly these. *)

From Stdlib Require Import String.
From stdpp Require Import gmap.
From S2P Require Import Prelude Bytes GDBus.

(** A copy of a value is the value. *)
Lemma iter_append_same v : iter_append_iter v = v.
Proof.
  revert v. fix IH 1. assert (Hl : ∀ l, List.map iter_append_iter l = l).
  { fix IHl 1. intros [|x l]; [done|]. cbn [List.map]. by rewrite IH, IHl. }
  intros [s|s|t w|l|l|k w|w]; cbn [iter_append_iter]; try done; by rewrite ?Hl, ?IH.
Qed.

#[global] Instance dvalue_eq_dec : EqDecision dvalue.
Proof.
  unfold EqDecision, Decision. fix IH 1. decide equality; first [apply Z.eq_dec | apply (List.list_eq_dec Z.eq_dec) | apply (List.list_eq_dec IH)].
Defined.

(** What the program is told. *)
Inductive note := NAdded (p : Z) | NRemoved (p : Z) | NChanged (p : Z) (name : text) (value : option dvalue).
(** The proxies it knows after that, if it has been told of each before anything else
    about it, and not again, and of nothing after its removal. *)
Definition hear (n : note) (live : list Z) : option (list Z) :=
  match n with
  | NAdded p => if bool_decide (p ∈ live) then None else Some (live ++ [p])
  | NRemoved p => if bool_decide (p ∈ live) then Some (remove_first (Z.eqb p) live) else None
  | NChanged p _ _ => if bool_decide (p ∈ live) then Some live else None
  end.
Fixpoint replay (l : list note) (live : list Z) : option (list Z) :=
  match l with [] => Some live | n :: l' => live ← hear n live; replay l' live end.
Lemma replay_app a b live : replay (a ++ b) live = replay a live ≫= replay b.
Proof.
  revert live. induction a as [|n a IH]; intros live; [done|]. cbn [app replay].
  destruct (hear n live) as [live'|]; [apply IH | done].
Qed.

Notation key := (text * text)%type.
Notation props := (gmap text dvalue).
Notation objects := (gmap key props).
(** A proxy: its address, object and interface, the values of its properties, and
    whether the program is yet to be told of it. *)
Record item := Item { it_id : Z; it_key : key; it_props : props; it_pending : bool }.

Create HintDb gdbus.

Section Facts.
Context {U : Type} `{Transport} `{Handlers U} (seen : U -> list note).
Implicit Types (s : gstate U) (p : Z) (l : list item) (x : item) (live : list Z) (refs : Z) (asked up : bool).

Definition same_core s s' : Prop :=
  gs_client s' = gs_client s /\ gs_proxies s' = gs_proxies s /\ gs_next s' = gs_next s /\ gs_watches s' = gs_watches s.
Definition observed (m : St (gstate U) unit) (notes : list note) : Prop :=
  ∀ s, wp m (fun _ s' => same_core s s' /\ seen (gs_user s') = seen (gs_user s) ++ notes) s.

Context (service : text) (base : option text) (root : text) (rules : list text) (fns : functions).
Definition the_client (refs : Z) (asked up : bool) (list : list Z) : client :=
  Client refs service base (Some root) rules asked up fns list.

Definition holds s x : Prop :=
  exists px, gs_proxies s !! it_id x = Some px /\ px_client px = true /\ px_pending px = it_pending x /\
    px_get_all_call px = false /\ 1 <= px_ref_count px /\ (px_obj_path px, px_interface px) = it_key x /\
    pe_msg <$> px_prop_list px = it_props x.
Definition proxy_watch (w : watch) : option Z := match w with WProperties p => Some p | _ => None end.

(** The state shows the items [l]; [list] is the list of the client, and [live] what the
    program knows. *)
Record shows (refs : Z) (asked up : bool) (list : list Z) l live s : Prop := Shows {
  sh_client : gs_client s = Some (the_client refs asked up list);
  sh_ids : NoDup (it_id <$> l);
  sh_keys : NoDup (it_key <$> l);
  sh_items : Forall (holds s) l;
  sh_next : ∀ p, p ∈ dom (gs_proxies s) -> p < gs_next s;
  sh_fixed : WService ∈ gs_watches s /\ WAdded ∈ gs_watches s /\ WRemoved ∈ gs_watches s;
  sh_watches : omap proxy_watch (gs_watches s) = it_id <$> l;
  sh_told : replay (seen (gs_user s)) [] = Some live }.

Lemma wp_get_client (Q : client -> gstate U -> Prop) s c : gs_client s = Some c -> Q c s -> wp get_client Q s.
Proof. intros Hc HQ. unfold get_client. wp_step. wp_step. by eapply wp_lift; [rewrite Hc|]. Qed.
Lemma wp_get_proxy (Q : proxy -> gstate U -> Prop) s p px : gs_proxies s !! p = Some px -> Q px s -> wp (get_proxy p) Q s.
Proof. intros Hp HQ. unfold get_proxy. wp_step. wp_step. by eapply wp_lift; [rewrite Hp|]. Qed.
Lemma wp_mod_client (Q : unit -> gstate U -> Prop) f s c :
  gs_client s = Some c -> Q tt (set_client (Some (f c)) s) -> wp (mod_client f) Q s.
Proof. intros Hc HQ. unfold mod_client. wp_step. by eapply wp_get_client; [|]. Qed.
Lemma wp_mod_proxy (Q : unit -> gstate U -> Prop) f s p px :
  gs_proxies s !! p = Some px -> Q tt (set_proxies (<[p := f px]> (gs_proxies s)) s) -> wp (mod_proxy p f) Q s.
Proof. intros Hp HQ. unfold mod_proxy. wp_step. by eapply wp_get_proxy; [|]. Qed.

Lemma wp_remove_watch (Q : unit -> gstate U -> Prop) w s :
  Q tt (set_watches (List.filter (fun v : watch => negb (bool_decide (v = w))) (gs_watches s)) s) -> wp (g_dbus_remove_watch w) Q s.
Proof. done. Qed.

Lemma wp_observed m notes live' refs asked up list l live s :
  observed m notes -> shows refs asked up list l live s -> replay notes live = Some live' ->
  wp m (fun _ s' => shows refs asked up list l live' s' /\ gs_proxies s' = gs_proxies s) s.
Proof.
  intros Hm Hs Hr. eapply wp_mono; [apply Hm|]. intros _ s' ((Hc & Hp & Hn & Hw) & Hseen).
  split; [|done]. destruct Hs as [E1 E2 E3 E4 E5 E6 E7 E8]. split; try congruence; rewrite ?Hw; try done.
  - eapply Forall_impl; [exact E4|]. intros x (px & Hx & Hrest). exists px. by rewrite Hp.
  - intros p. rewrite Hp, Hn. apply E5.
  - by rewrite Hseen, replay_app, E8.
Qed.

(** A proxy that is not shown may change. *)
Lemma shows_other refs asked up list l live s p px :
  shows refs asked up list l live s -> p ∉ it_id <$> l -> p ∈ dom (gs_proxies s) ->
  shows refs asked up list l live (set_proxies (<[p := px]> (gs_proxies s)) s).
Proof.
  intros [E1 E2 E3 E4 E5 E6 E7 E8] Hp Hd. split; try done; cbn [set_proxies gs_proxies gs_next].
  - rewrite Forall_forall in *. intros x Hx. destruct (E4 x Hx) as (px' & Hx' & Hrest). exists px'.
    cbn [set_proxies gs_proxies]. rewrite lookup_insert_ne; [done|]. intros ->. apply Hp. by apply list_elem_of_fmap_2.
  - intros q. rewrite dom_insert, elem_of_union, elem_of_singleton. intros [->|Hq]; by apply E5.
Qed.
Lemma shows_delete refs asked up list l live s p :
  shows refs asked up list l live s -> p ∉ it_id <$> l ->
  shows refs asked up list l live (set_proxies (delete p (gs_proxies s)) s).
Proof.
  intros [E1 E2 E3 E4 E5 E6 E7 E8] Hp. split; try done; cbn [set_proxies gs_proxies gs_next].
  - rewrite Forall_forall in *. intros x Hx. destruct (E4 x Hx) as (px' & Hx' & Hrest). exists px'.
    cbn [set_proxies gs_proxies]. rewrite lookup_delete_ne; [done|]. intros ->. apply Hp. by apply list_elem_of_fmap_2.
  - intros q. rewrite dom_delete, elem_of_difference. intros [Hq _]; by apply E5.
Qed.
(** One that is shown, with what is shown of it. *)
Lemma shows_update refs asked up list l1 x l2 live s px props pending :
  shows refs asked up list (l1 ++ x :: l2) live s ->
  let x' := Item (it_id x) (it_key x) props pending in
  holds (set_proxies (<[it_id x := px]> (gs_proxies s)) s) x' ->
  shows refs asked up list (l1 ++ x' :: l2) live (set_proxies (<[it_id x := px]> (gs_proxies s)) s).
Proof.
  intros [E1 E2 E3 E4 E5 E6 E7 E8] x' Hx'.
  assert (Hids : it_id <$> l1 ++ x' :: l2 = it_id <$> l1 ++ x :: l2) by by rewrite !fmap_app, !fmap_cons.
  assert (Hkeys : it_key <$> l1 ++ x' :: l2 = it_key <$> l1 ++ x :: l2) by by rewrite !fmap_app, !fmap_cons.
  split; try done; [by rewrite Hids | by rewrite Hkeys | | | by rewrite Hids].
  - rewrite Forall_app, Forall_cons in *. destruct E4 as (H1 & Hx & H2).
    assert (Hne : ∀ y, y ∈ l1 ++ l2 -> it_id y <> it_id x).
    { intros y Hy Heq. rewrite fmap_app, fmap_cons, NoDup_app, NoDup_cons in E2. destruct E2 as (_ & Hd & Hn & _).
      apply elem_of_app in Hy as [Hy|Hy].
      - apply (Hd (it_id x)); [rewrite <-Heq; by apply list_elem_of_fmap_2 | left].
      - apply Hn. rewrite <-Heq. by apply list_elem_of_fmap_2. }
    assert (Hkeep : ∀ y, y ∈ l1 ++ l2 -> holds s y -> holds (set_proxies (<[it_id x := px]> (gs_proxies s)) s) y).
    { intros y Hy (py & Hpy & Hrest). exists py. cbn [set_proxies gs_proxies]. rewrite lookup_insert_ne; [done|].
      intros Heq. by apply (Hne y Hy). }
    split_and!; [| done |].
    + rewrite Forall_forall in *. intros y Hy. apply Hkeep; [by apply elem_of_app; left | by apply H1].
    + rewrite Forall_forall in *. intros y Hy. apply Hkeep; [by apply elem_of_app; right | by apply H2].
  - cbn [set_proxies gs_proxies gs_next]. intros q. rewrite dom_insert, elem_of_union, elem_of_singleton.
    intros [->|Hq]; [|by apply E5]. apply E5. rewrite Forall_app, Forall_cons in E4. destruct E4 as (_ & (py & Hpy & _) & _).
    by apply elem_of_dom_2 in Hpy.
Qed.

(** ** Properties *)
Definition set_props (v : props) x : item := Item (it_id x) (it_key x) v (it_pending x).
Definition merge (ps : props) (kvs : list (text * dvalue)) : props := foldl (fun m kv => <[kv.1 := kv.2]> m) ps kvs.
Definition encode (kvs : list (text * dvalue)) : list dvalue := (fun kv => DDictEntry (DString kv.1) (DVariant kv.2)) <$> kvs.

Context (Hprop : ∀ f p n v, observed (prop_func f p n v) []) (Hchanged : ∀ p n v, observed (property_changed_func p n v) [NChanged p n v]).

(** Who may be told of a change: the program, when it knows the proxy. *)
Definition may_tell (send : bool) x live : Prop := send = true -> it_id x ∈ live.

Lemma hear_changed p n v live : p ∈ live -> replay [NChanged p n v] live = Some live.
Proof. intros Hp. cbn [replay hear]. by rewrite bool_decide_eq_true_2. Qed.

(** Tells of a change, as the end of both loops does. *)
Lemma wp_tell refs asked up list l live s p n v (b : bool) :
  shows refs asked up list l live s -> (b = true -> p ∈ live) ->
  wp (when b (property_changed_func p n v)) (fun _ s' => shows refs asked up list l live s' /\ gs_proxies s' = gs_proxies s) s.
Proof.
  intros Hs Hp. destruct b; [|by apply wp_ret]. cbn [when].
  eapply wp_observed; [apply Hchanged | done|]. by apply hear_changed, Hp.
Qed.
Lemma wp_prop_func refs asked up list l live s f p n v :
  shows refs asked up list l live s ->
  wp (match f with Some f => prop_func f p n v | None => mret tt end)
    (fun _ s' => shows refs asked up list l live s' /\ gs_proxies s' = gs_proxies s) s.
Proof. intros Hs. destruct f; [by eapply wp_observed | by apply wp_ret]. Qed.

Lemma shown_item refs asked up list l1 x l2 live s : shows refs asked up list (l1 ++ x :: l2) live s -> holds s x.
Proof. intros [_ _ _ E4 _ _ _ _]. rewrite Forall_app, Forall_cons in E4. tauto. Qed.

Lemma wp_add_property refs asked up list l1 x l2 live name v send s :
  shows refs asked up list (l1 ++ x :: l2) live s -> may_tell send x live ->
  wp (add_property (it_id x) name [DVariant v] send)
    (fun _ => shows refs asked up list (l1 ++ set_props (<[name := v]> (it_props x)) x :: l2) live) s.
Proof.
  intros Hs Hsend. destruct (shown_item _ _ _ _ _ _ _ _ _ Hs) as (px & Hpx & Hcl & Hpend & Hcall & Href & Hkey & Hprops).
  unfold add_property. wp_step. eapply wp_get_proxy; [done|]. wp_step. eapply wp_mod_proxy; [done|].
  set (prop := match px_prop_list px !! name with Some _ => _ | None => _ end).
  set (px' := set_prop_list _ px).
  assert (Hs1 : shows refs asked up list (l1 ++ set_props (<[name := v]> (it_props x)) x :: l2) live
    (set_proxies (<[it_id x := px']> (gs_proxies s)) s)).
  { apply (shows_update _ _ _ _ l1 x l2 live s px' _ _ Hs). exists px'. cbn [set_proxies gs_proxies it_id].
    rewrite lookup_insert_eq. split_and!; try done. cbn [it_props px' set_prop_list px_prop_list].
    rewrite fmap_insert, Hprops. f_equal. unfold prop. destruct (px_prop_list px !! name); apply iter_append_same. }
  wp_step. eapply wp_mono; [by eapply wp_prop_func|]. intros _ s2 (Hs2 & _). rewrite Hcl. cbn [negb orb].
  destruct send; [|by apply wp_ret]. cbn [negb]. wp_step. eapply wp_get_client; [apply Hs2|].
  eapply wp_mono; [eapply wp_tell; [exact Hs2|]; intros _; by apply Hsend|]. by intros _ s3 (? & _).
Qed.

Lemma wp_update_loop refs asked up list l1 x l2 live kvs send s :
  shows refs asked up list (l1 ++ x :: l2) live s -> may_tell send x live ->
  wp (update_loop (it_id x) (encode kvs) send)
    (fun _ => shows refs asked up list (l1 ++ set_props (merge (it_props x) kvs) x :: l2) live) s.
Proof.
  revert x s. induction kvs as [|[n v] kvs IH]; intros x s Hs Hsend.
  - apply wp_ret. by destruct x.
  - unfold encode. rewrite fmap_cons. cbn [update_loop fst snd]. wp_step.
    eapply wp_mono; [by eapply wp_add_property|]. intros ? s1 Hs1.
    exact (IH (set_props (<[n := v]> (it_props x)) x) s1 Hs1 Hsend).
Qed.

Definition lose (ps : props) (names : list text) : props := foldl (fun m n => delete n m) ps names.
Lemma wp_invalidate_loop refs asked up list l1 x l2 live names s :
  shows refs asked up list (l1 ++ x :: l2) live s -> it_id x ∈ live ->
  wp (invalidate_loop (it_id x) true (DString <$> names))
    (fun _ => shows refs asked up list (l1 ++ set_props (lose (it_props x) names) x :: l2) live) s.
Proof.
  revert x s. induction names as [|n names IH]; intros x s Hs Hlive.
  - apply wp_ret. by destruct x.
  - rewrite fmap_cons. cbn [invalidate_loop].
    destruct (shown_item _ _ _ _ _ _ _ _ _ Hs) as (px & Hpx & Hcl & Hpend & Hcall & Href & Hkey & Hprops).
    wp_step. eapply wp_mod_proxy; [done|]. set (px' := set_prop_list _ px).
    assert (Hs1 : shows refs asked up list (l1 ++ set_props (delete n (it_props x)) x :: l2) live
      (set_proxies (<[it_id x := px']> (gs_proxies s)) s)).
    { apply (shows_update _ _ _ _ l1 x l2 live s px' _ _ Hs). exists px'. cbn [set_proxies gs_proxies it_id].
      rewrite lookup_insert_eq. split_and!; try done. cbn [it_props px' set_prop_list px_prop_list].
      by rewrite fmap_delete, Hprops. }
    wp_step. eapply wp_get_proxy; [apply lookup_insert_eq|]. wp_step.
    eapply wp_mono; [by eapply wp_prop_func|]. intros _ s2 (Hs2 & _). wp_step. eapply wp_get_client; [apply Hs2|]. wp_step.
    eapply wp_mono; [eapply wp_tell; [exact Hs2 | done]|]. intros _ s3 (Hs3 & _).
    exact (IH (set_props (delete n (it_props x)) x) s3 Hs3 Hlive).
Qed.

Lemma wp_properties_changed refs asked up list l1 x l2 live kvs names i s :
  shows refs asked up list (l1 ++ x :: l2) live s -> it_id x ∈ live ->
  wp (properties_changed (it_id x) [DString i; DArray (encode kvs); DArray (DString <$> names)])
    (fun _ => shows refs asked up list (l1 ++ set_props (lose (merge (it_props x) kvs) names) x :: l2) live) s.
Proof.
  intros Hs Hlive. destruct (shown_item _ _ _ _ _ _ _ _ _ Hs) as (px & Hpx & Hcl & _).
  unfold properties_changed. wp_step. eapply wp_get_proxy; [done|]. cbn [update_properties tail]. wp_step.
  eapply wp_mono; [eapply wp_update_loop; [exact Hs | by intros _]|]. intros ? s1 Hs1. rewrite Hcl.
  exact (wp_invalidate_loop _ _ _ _ l1 (set_props (merge (it_props x) kvs) x) l2 live names s1 Hs1 Hlive).
Qed.

(** ** Proxies come and go *)
Lemma wp_lookup_loop refs asked up list l live s path i index : shows refs asked up list l live s ->
  wp (lookup_loop (it_id <$> l) path i index)
    (fun r s' => s' = s /\ r.1 = it_id <$> find_first (fun x => bool_decide (it_key x = (path, i))) l) s.
Proof.
  intros Hs. pose proof (sh_items _ _ _ _ _ _ _ Hs) as Hi. clear Hs. revert index.
  induction Hi as [|x l (px & Hpx & _ & _ & _ & _ & Hkey & _) _ IH]; intros index; [done|].
  rewrite fmap_cons. cbn [lookup_loop]. wp_step. eapply wp_get_proxy; [done|].
  unfold find_first. cbn [List.find]. rewrite <-Hkey.
  destruct (decide ((px_obj_path px, px_interface px) = (path, i))) as [Heq|Hne].
  - rewrite (bool_decide_eq_true_2 ((px_obj_path px, px_interface px) = (path, i))) by done. injection Heq as -> ->.
    rewrite !bool_decide_eq_true_2 by done. by apply wp_ret.
  - rewrite (bool_decide_eq_false_2 ((px_obj_path px, px_interface px) = (path, i))) by done.
    assert (Hb : bool_decide (px_interface px = i) && bool_decide (px_obj_path px = path) = false).
    { apply not_true_iff_false. intros [Hi Hp]%andb_true_iff. apply bool_decide_eq_true in Hi, Hp. congruence. }
    rewrite Hb. apply IH.
Qed.

Lemma wp_proxy_new refs asked up list l live s path i :
  shows refs asked up list l live s -> (path, i) ∉ it_key <$> l ->
  wp (proxy_new path i) (fun p s' =>
    (p ∉ it_id <$> l) /\ gs_proxies s !! p = None /\
    shows refs asked up (list ++ [p]) (l ++ [Item p (path, i) ∅ true]) live s') s.
Proof.
  intros Hs Hk. pose proof Hs as [E1 E2 E3 E4 E5 E6 E7 E8]. unfold proxy_new. wp_step. eapply wp_get_client; [done|].
  do 4 wp_step.
  eapply wp_mod_client; [done|]. unfold g_dbus_proxy_ref. wp_step. eapply wp_mod_proxy; [apply lookup_insert_eq|].
  apply wp_ret. set (p := gs_next s) in *.
  assert (Hfresh : p ∉ it_id <$> l).
  { intros (x & Hx & Hin)%list_elem_of_fmap. rewrite Forall_forall in E4. destruct (E4 x Hin) as (px & Hpx & _).
    specialize (E5 (it_id x) ltac:(by apply elem_of_dom_2 in Hpx)). unfold p in Hx. lia. }
  assert (Hnone : gs_proxies s !! p = None).
  { apply not_elem_of_dom. intros Hd. specialize (E5 p Hd). unfold p in E5. lia. }
  split_and!; [done | done |]. split.
  - reflexivity.
  - by apply NoDup_snoc_elem.
  - by apply NoDup_snoc_elem.
  - rewrite Forall_app, Forall_singleton. split.
    + rewrite Forall_forall in *. intros x Hx. destruct (E4 x Hx) as (px & Hpx & Hrest). exists px. split; [|done].
      assert (it_id x <> p) by (intros <-; apply Hfresh; by apply list_elem_of_fmap_2).
      cbn. by rewrite !lookup_insert_ne by done.
    + eexists. split; [cbn; apply lookup_insert_eq|]. cbn. split_and!; try done.
  - intros q. cbn. rewrite !dom_insert, !elem_of_union, !elem_of_singleton. intros [->|[->|Hq]]; unfold p; [lia | lia |].
    specialize (E5 q Hq). lia.
  - cbn. destruct E6 as (? & ? & ?). split_and!; apply elem_of_app; by left.
  - cbn. by rewrite omap_app, E7, fmap_app.
  - done.
Qed.

Context (Hadded : ∀ p, observed (proxy_added_func p) [NAdded p]).
Context (Hfns : fn_proxy_added fns = true /\ fn_proxy_removed fns = true /\ fn_property_changed fns = true).

(** The program is told, and the proxy is a settled one. *)
Lemma wp_proxy_added refs asked up list l1 x l2 live s :
  shows refs asked up list (l1 ++ x :: l2) live s -> it_pending x = true -> it_id x ∉ live ->
  wp (GDBus.proxy_added true (it_id x))
    (fun _ => shows refs asked up list (l1 ++ Item (it_id x) (it_key x) (it_props x) false :: l2) (live ++ [it_id x])) s.
Proof.
  intros Hs Hpend Hlive. destruct (shown_item _ _ _ _ _ _ _ _ _ Hs) as (px & Hpx & Hcl & Hp & Hrest).
  unfold GDBus.proxy_added. wp_step. eapply wp_get_proxy; [done|]. rewrite Hp, Hpend. cbn [negb]. wp_step.
  eapply wp_get_client; [apply Hs|]. cbn [cl_functions the_client]. rewrite (proj1 Hfns). cbn [when]. wp_step.
  eapply wp_mono; [eapply wp_observed; [apply Hadded | done | cbn [replay hear]; by rewrite bool_decide_eq_false_2]|].
  intros ? s1 (Hs1 & Hsame). eapply wp_mod_proxy; [by rewrite Hsame|].
  apply (shows_update _ _ _ _ l1 x l2 _ s1 _ (it_props x) false Hs1). exists (set_px_pending false px).
  cbn [set_proxies gs_proxies it_id]. rewrite lookup_insert_eq. split; [done|]. by destruct px.
Qed.

Context (Hremoved : ∀ p, observed (proxy_removed_func p) [NRemoved p]) (Hgone : ∀ f p, observed (removed_func f p) []).

Lemma remove_first_ids (l1 l2 : list Z) p : p ∉ l1 -> remove_first (Z.eqb p) (l1 ++ p :: l2) = l1 ++ l2.
Proof.
  induction l1 as [|q l1 IH]; intros Hp; cbn [app remove_first]; [by rewrite Z.eqb_refl|].
  apply not_elem_of_cons in Hp as [Hq Hp]. rewrite (proj2 (Z.eqb_neq p q)) by done. by rewrite IH.
Qed.
Lemma unwatch ws (l1 l2 : list Z) p :
  omap proxy_watch ws = l1 ++ p :: l2 -> p ∉ l1 ++ l2 ->
  omap proxy_watch (List.filter (fun w : watch => negb (bool_decide (w = WProperties p))) ws) = l1 ++ l2.
Proof.
  revert l1. induction ws as [|w ws IH]; intros l1 Hw Hp; [by destruct l1|]. cbn [List.filter].
  destruct w as [| | | |q]; try (rewrite bool_decide_eq_false_2 by done; exact (IH l1 Hw Hp)).
  cbn in Hw. destruct l1 as [|r l1]; cbn [app] in *; injection Hw as -> Hw.
  - rewrite bool_decide_eq_true_2 by done. cbn [negb]. clear IH. rewrite <-Hw in Hp |- *. clear Hw.
    induction ws as [|w ws IH]; [done|]. cbn [List.filter].
    destruct w as [| | | |q]; try (rewrite bool_decide_eq_false_2 by done; exact (IH Hp)).
    cbn in Hp. apply not_elem_of_cons in Hp as [Hq Hp]. rewrite bool_decide_eq_false_2 by congruence. cbn. by rewrite IH.
  - apply not_elem_of_cons in Hp as [Hq Hp]. rewrite bool_decide_eq_false_2 by congruence. cbn. by rewrite (IH l1).
Qed.

Lemma NoDup_middle {B} (f : item -> B) l1 x l2 : NoDup (f <$> l1 ++ x :: l2) -> NoDup (f <$> l1 ++ l2).
Proof. intros Hn. eapply sublist_NoDup; [exact Hn|]. apply fmap_sublist, sublist_app; [done | by apply sublist_cons]. Qed.

(** A proxy that is freed is shown no more; the program has been told. *)
Lemma wp_proxy_free refs asked up list l1 x l2 s :
  let live l := it_id <$> l in
  shows refs asked up list (l1 ++ x :: l2) (live (l1 ++ x :: l2)) s ->
  wp (proxy_free (it_id x)) (fun _ => shows refs asked up list (l1 ++ l2) (live (l1 ++ l2))) s.
Proof.
  intros live Hs. destruct (shown_item _ _ _ _ _ _ _ _ _ Hs) as (px & Hpx & Hcl & Hpend & Hcall & Href & Hkey & Hprops).
  pose proof (sh_ids _ _ _ _ _ _ _ Hs) as Hids. rewrite fmap_app, fmap_cons, NoDup_app, NoDup_cons in Hids.
  destruct Hids as (Hn1 & Hd & Hx2 & Hn2).
  assert (Hx1 : it_id x ∉ it_id <$> l1) by (intros Hin; apply (Hd _ Hin); left).
  assert (Hx : it_id x ∉ it_id <$> l1 ++ l2) by (rewrite fmap_app, elem_of_app; tauto).
  unfold proxy_free. wp_step. eapply wp_get_proxy; [done|]. rewrite Hcl. cbn [when]. wp_step. wp_step.
  eapply wp_mod_proxy; [done|]. set (px1 := set_get_all_call false px).
  assert (Hs1 : shows refs asked up list (l1 ++ x :: l2) (live (l1 ++ x :: l2)) (set_proxies (<[it_id x := px1]> (gs_proxies s)) s)).
  { destruct x as [id k ps pend]. apply (shows_update _ _ _ _ l1 (Item id k ps pend) l2 _ s px1 ps pend Hs).
    exists px1. cbn [set_proxies gs_proxies it_id]. rewrite lookup_insert_eq. by destruct px. }
  wp_step. eapply wp_get_client; [apply Hs1|]. cbn [cl_functions the_client]. rewrite (proj1 (proj2 Hfns)). cbn [when]. wp_step.
  assert (Hhear : replay [NRemoved (it_id x)] (live (l1 ++ x :: l2)) = Some (live (l1 ++ l2))).
  { unfold live. rewrite !fmap_app, fmap_cons. cbn [replay hear].
    rewrite bool_decide_eq_true_2 by (apply elem_of_app; right; left). by rewrite remove_first_ids. }
  eapply wp_mono; [eapply wp_observed; [apply Hremoved | exact Hs1 | exact Hhear]|]. intros ? s2 (Hs2 & Hsame2).
  assert (Hpx2 : gs_proxies s2 !! it_id x = Some px1) by (rewrite Hsame2; apply lookup_insert_eq).
  wp_step. eapply wp_get_client; [apply Hs2|]. wp_step. eapply wp_get_proxy; [done|]. wp_step.
  apply wp_remove_watch. set (s3 := set_watches _ s2).
  assert (Hs3 : shows refs asked up list (l1 ++ l2) (live (l1 ++ l2)) s3).
  { destruct Hs2 as [E1 E2 E3 E4 E5 E6 E7 E8]. split; try done.
    - by eapply NoDup_middle.
    - by eapply NoDup_middle.
    - rewrite Forall_app, Forall_cons in E4. apply Forall_app; tauto.
    - cbn. destruct E6 as (? & ? & ?). split_and!; apply list_elem_of_In, List.filter_In;
        (split; [by apply list_elem_of_In | by rewrite bool_decide_eq_false_2]).
    - cbn. rewrite fmap_app, fmap_cons in E7. rewrite fmap_app. apply unwatch; [done|]. by rewrite fmap_app in Hx. }
  eapply wp_mod_proxy; [exact Hpx2|]. set (px4 := set_px_client false _).
  set (s4 := set_proxies _ s3).
  assert (Hs4 : shows refs asked up list (l1 ++ l2) (live (l1 ++ l2)) s4).
  { apply shows_other; [done | done | by apply elem_of_dom_2 in Hpx2]. }
  wp_step. eapply wp_get_proxy; [apply lookup_insert_eq|]. wp_step.
  eapply (wp_mono _ (fun _ s' => shows refs asked up list (l1 ++ l2) (live (l1 ++ l2)) s' /\ gs_proxies s' = gs_proxies s4)).
  { destruct (px_removed_func px4); [by eapply wp_observed | by apply wp_ret]. }
  intros ? s5 (Hs5 & Hsame5). unfold g_dbus_proxy_unref. wp_step.
  assert (Hpx5 : gs_proxies s5 !! it_id x = Some px4) by (rewrite Hsame5; apply lookup_insert_eq).
  eapply wp_mod_proxy; [exact Hpx5|]. set (px6 := set_px_ref_count _ px4). set (s6 := set_proxies _ s5).
  assert (Hs6 : shows refs asked up list (l1 ++ l2) (live (l1 ++ l2)) s6).
  { apply shows_other; [done | done | by apply elem_of_dom_2 in Hpx5]. }
  wp_step. eapply wp_get_proxy; [apply lookup_insert_eq|].
  destruct (0 <? px_ref_count px6); [by apply wp_ret|]. wp_step. by apply shows_delete.
Qed.

(** The list of the client is that of the items when nothing is under way. *)
Definition ready_state refs asked up l s : Prop :=
  shows refs asked up (it_id <$> l) l (it_id <$> l) s /\ Forall (fun x => it_pending x = false) l.

Lemma key_match x path i : bool_decide (it_key x = (path, i)) = true <-> it_key x = (path, i).
Proof. apply bool_decide_eq_true. Qed.

Definition is_key (k : key) x : bool := bool_decide (it_key x = k).
Lemma find_split k l x : find_first (is_key k) l = Some x ->
  exists l1 l2, l = l1 ++ x :: l2 /\ it_key x = k /\ Forall (fun y => is_key k y = false) l1.
Proof.
  unfold find_first. induction l as [|y l IH]; [done|]. cbn [List.find]. destruct (is_key k y) eqn:E.
  - intros [= ->]. exists [], l. split_and!; [done | by apply bool_decide_eq_true in E | done].
  - intros Hf. destruct (IH Hf) as (l1 & l2 & -> & Hk & Hl). exists (y :: l1), l2. split_and!; [done | done | by constructor].
Qed.
Lemma remove_split k l1 x l2 :
  Forall (fun y => is_key k y = false) l1 -> it_key x = k -> remove_first (is_key k) (l1 ++ x :: l2) = l1 ++ l2.
Proof.
  induction 1 as [|y l1 Hy _ IH]; intros Hx; cbn [app remove_first].
  - assert (Hk : is_key k x = true) by by apply bool_decide_eq_true_2. by rewrite Hk.
  - by rewrite Hy, IH.
Qed.
Lemma remove_missing k l : find_first (is_key k) l = None -> remove_first (is_key k) l = l.
Proof.
  unfold find_first. induction l as [|y l IH]; [done|]. cbn [List.find remove_first].
  destruct (is_key k y); [done|]. intros Hf. by rewrite IH.
Qed.

Lemma shows_client refs asked up list refs' asked' up' list' l live s :
  shows refs asked up list l live s ->
  shows refs' asked' up' list' l live (set_client (Some (the_client refs' asked' up' list')) s).
Proof. by intros [E1 E2 E3 E4 E5 E6 E7 E8]. Qed.

Lemma wp_remove_loop refs asked up l path i s :
  ready_state refs asked up l s ->
  wp (remove_loop (it_id <$> l) path i) (fun _ => ready_state refs asked up (remove_first (is_key (path, i)) l)) s.
Proof.
  intros (Hs & Hp).
  assert (Hloop : ∀ la lb, l = la ++ lb -> Forall (fun y => is_key (path, i) y = false) la ->
    wp (remove_loop (it_id <$> lb) path i) (fun _ => ready_state refs asked up (remove_first (is_key (path, i)) l)) s);
    [|exact (Hloop [] l eq_refl (Forall_nil_2 _))].
  intros la lb. revert la. induction lb as [|x lb IH]; intros la Hl Hla.
  - apply wp_ret. rewrite remove_missing; [done|]. rewrite Hl, app_nil_r. by apply find_first_none.
  - rewrite fmap_cons. cbn [remove_loop]. pose proof Hs as Hs'. rewrite Hl in Hs'.
    destruct (shown_item _ _ _ _ _ _ _ _ _ Hs') as (px & Hpx & _ & _ & _ & _ & Hkey & _).
    wp_step. eapply wp_get_proxy; [done|].
    destruct (decide (it_key x = (path, i))) as [Hk|Hk].
    + rewrite Hk in Hkey. injection Hkey as -> ->. rewrite !bool_decide_eq_true_2 by done. cbn [andb].
      wp_step. eapply wp_mod_client; [apply Hs|]. rewrite Hl, remove_split by done.
      pose proof (sh_ids _ _ _ _ _ _ _ Hs') as Hids. rewrite fmap_app, fmap_cons, NoDup_app in Hids.
      eapply wp_mono; [apply wp_proxy_free; eapply shows_client; exact Hs'|].
      intros ? s1 Hs1. split.
      * replace (it_id <$> la ++ lb) with (remove_first (Z.eqb (it_id x)) (it_id <$> la ++ x :: lb)) at 1; [exact Hs1|].
        rewrite !fmap_app, fmap_cons, remove_first_ids; [done|]. destruct Hids as (_ & Hd & _). intros Hin. apply (Hd _ Hin). left.
      * rewrite Hl, Forall_app, Forall_cons in Hp. apply Forall_app; tauto.
    + assert (Hb : bool_decide (px_interface px = i) && bool_decide (px_obj_path px = path) = false).
      { apply not_true_iff_false. intros [Hi Hq]%andb_true_iff. apply bool_decide_eq_true in Hi, Hq. congruence. }
      rewrite Hb. apply (IH (la ++ [x])); [by rewrite <-app_assoc|]. apply Forall_app. split; [done|].
      constructor; [by apply bool_decide_eq_false_2 | done].
Qed.
Lemma wp_proxy_remove refs asked up l path i s :
  ready_state refs asked up l s ->
  wp (proxy_remove path i) (fun _ => ready_state refs asked up (remove_first (is_key (path, i)) l)) s.
Proof. intros Hs. unfold proxy_remove. wp_step. eapply wp_get_client; [apply Hs|]. by apply wp_remove_loop. Qed.

(** ** What the items show, as a map *)
Definition tab l : objects := list_to_map ((fun x => (it_key x, it_props x)) <$> l).

Lemma tab_lookup l k : tab l !! k = it_props <$> find_first (is_key k) l.
Proof.
  unfold tab, find_first. induction l as [|x l IH]; [done|]. rewrite fmap_cons. cbn beta. rewrite list_to_map_cons. cbn [List.find].
  unfold is_key at 1. destruct (decide (it_key x = k)) as [<-|Hne].
  - by rewrite bool_decide_eq_true_2, lookup_insert_eq by done.
  - rewrite bool_decide_eq_false_2, lookup_insert_ne by done. exact IH.
Qed.
Lemma is_key_self x : is_key (it_key x) x = true.
Proof. by apply bool_decide_eq_true_2. Qed.
Lemma is_key_other k x : it_key x <> k -> is_key k x = false.
Proof. apply bool_decide_eq_false_2. Qed.
Lemma find_none_key k l : find_first (is_key k) l = None <-> k ∉ it_key <$> l.
Proof.
  rewrite find_first_none, Forall_forall. split.
  - intros Hl (x & -> & Hx)%list_elem_of_fmap. specialize (Hl x Hx). by rewrite is_key_self in Hl.
  - intros Hk x Hx. apply is_key_other. intros <-. apply Hk. by apply list_elem_of_fmap_2.
Qed.

Lemma tab_update l1 x l2 v k :
  Forall (fun y => is_key k y = false) l1 -> it_key x = k -> tab (l1 ++ set_props v x :: l2) = <[k := v]> (tab (l1 ++ x :: l2)).
Proof.
  intros Hl <-. apply map_eq. intros k'. rewrite tab_lookup, find_first_app.
  destruct (decide (k' = it_key x)) as [->|Hne].
  - rewrite lookup_insert_eq, (proj2 (find_first_none _ _) Hl). unfold find_first. cbn [List.find].
    assert (Hk : is_key (it_key x) (set_props v x) = true) by apply (is_key_self (set_props v x)). by rewrite Hk.
  - rewrite lookup_insert_ne, tab_lookup, find_first_app by done. unfold find_first. cbn [List.find].
    assert (Hk : is_key k' (set_props v x) = false) by (by apply (is_key_other k' (set_props v x))).
    by rewrite Hk, (is_key_other k' x).
Qed.
Lemma tab_snoc l x : find_first (is_key (it_key x)) l = None -> tab (l ++ [x]) = <[it_key x := it_props x]> (tab l).
Proof.
  intros Hl. apply map_eq. intros k. rewrite tab_lookup, find_first_app. destruct (decide (k = it_key x)) as [->|Hne].
  - rewrite lookup_insert_eq, Hl. unfold find_first. cbn [List.find]. by rewrite is_key_self.
  - rewrite lookup_insert_ne, tab_lookup by done. destruct (find_first (is_key k) l); [done|].
    unfold find_first. cbn [List.find]. by rewrite is_key_other.
Qed.
Lemma tab_remove l k : NoDup (it_key <$> l) -> tab (remove_first (is_key k) l) = delete k (tab l).
Proof.
  intros Hn. apply map_eq. intros k'. rewrite tab_lookup. destruct (decide (k' = k)) as [->|Hne].
  - rewrite lookup_delete_eq. destruct (find_first (is_key k) l) as [x|] eqn:E; [|by rewrite remove_missing, E].
    apply find_split in E as (l1 & l2 & -> & Hx & Hl). rewrite remove_split by done.
    rewrite fmap_app, fmap_cons, NoDup_app, NoDup_cons in Hn. destruct Hn as (_ & Hd & Hx2 & _).
    rewrite (proj2 (find_none_key k (l1 ++ l2))); [done|]. rewrite fmap_app, elem_of_app, <-Hx. intros [Hin|Hin]; [|done].
    apply (Hd _ Hin). left.
  - rewrite lookup_delete_ne by done. rewrite tab_lookup. f_equal. apply find_remove_first_other.
    intros y Hy%bool_decide_eq_true. apply is_key_other. congruence.
Qed.

(** ** The handlers, on that map *)
Definition hidden (i : text) : bool :=
  bool_decide (i = DBUS_INTERFACE_INTROSPECTABLE) || bool_decide (i = DBUS_INTERFACE_PROPERTIES).
Definition put_object (path i : text) (kvs : list (text * dvalue)) (m : objects) : objects :=
  if hidden i then m else <[(path, i) := merge (default ∅ (m !! (path, i))) kvs]> m.
(** The state shows the map [m]. *)
Definition mirrors refs asked up (m : objects) s : Prop := exists l, ready_state refs asked up l s /\ tab l = m.

Lemma ready_set refs asked up l1 x l2 v s :
  Forall (fun y => it_pending y = false) (l1 ++ x :: l2) ->
  shows refs asked up (it_id <$> l1 ++ x :: l2) (l1 ++ set_props v x :: l2) (it_id <$> l1 ++ x :: l2) s ->
  ready_state refs asked up (l1 ++ set_props v x :: l2) s.
Proof.
  intros Hp Hs. assert (Hids : it_id <$> l1 ++ set_props v x :: l2 = it_id <$> l1 ++ x :: l2) by by rewrite !fmap_app, !fmap_cons.
  split; [by rewrite Hids|]. rewrite Forall_app, Forall_cons in Hp |- *. exact Hp.
Qed.

Lemma wp_parse_properties refs asked up m path i kvs s :
  mirrors refs asked up m s ->
  wp (parse_properties path i [DArray (encode kvs)]) (fun _ => mirrors refs asked up (put_object path i kvs m)) s.
Proof.
  intros (l & (Hs & Hp) & <-). unfold parse_properties, put_object, hidden.
  destruct (bool_decide (i = DBUS_INTERFACE_INTROSPECTABLE)); [apply wp_ret; by exists l|]. cbn [orb].
  destruct (bool_decide (i = DBUS_INTERFACE_PROPERTIES)); [apply wp_ret; by exists l|].
  wp_step. eapply wp_get_client; [apply Hs|]. cbn [cl_proxy_list the_client g_dbus_proxy_lookup]. wp_step.
  eapply wp_mono; [by eapply wp_lookup_loop|]. intros [found n] s' (-> & Hfound). cbn [fst] in Hfound. subst found.
  rewrite tab_lookup. change (fun x => bool_decide (it_key x = (path, i))) with (is_key (path, i)).
  destruct (find_first (is_key (path, i)) l) as [x|] eqn:E; cbn [fmap option_fmap option_map default].
  - destruct (find_split _ _ _ E) as (l1 & l2 & -> & Hk & Hl).
    destruct (shown_item _ _ _ _ _ _ _ _ _ Hs) as (px & Hpx & Hcl & Hpend & _).
    assert (Hpx' : it_pending x = false) by (rewrite Forall_app, Forall_cons in Hp; tauto).
    wp_step. wp_step. eapply wp_get_proxy; [done|]. apply wp_ret. rewrite Hpend, Hpx'. cbn [negb update_properties].
    eapply wp_mono; [eapply wp_update_loop; [exact Hs | done]|]. intros ? s1 Hs1.
    exists (l1 ++ set_props (merge (it_props x) kvs) x :: l2). split; [by apply ready_set|].
    by rewrite (tab_update _ _ _ _ (path, i)).
  - wp_step. apply wp_ret. wp_step. eapply wp_mono; [apply wp_proxy_new; [exact Hs | by apply find_none_key]|].
    intros p s1 (Hfresh & _ & Hs1). wp_step. cbn [update_properties].
    eapply wp_mono; [exact (wp_update_loop _ _ _ _ l (Item p (path, i) ∅ true) [] _ kvs false s1 Hs1 ltac:(done))|].
    intros ? s2 Hs2. eapply wp_mono.
    + exact (wp_proxy_added _ _ _ _ l (set_props (merge ∅ kvs) (Item p (path, i) ∅ true)) [] _ s2 Hs2 eq_refl Hfresh).
    + intros ? s3 Hs3. exists (l ++ [Item p (path, i) (merge ∅ kvs) false]). split; [split|].
      * by rewrite !fmap_app in *.
      * apply Forall_app. by split; [|constructor].
      * by apply tab_snoc.
Qed.

(** Interfaces of an object with their properties, and objects with their interfaces. *)
Definition interfaces : Type := list (text * list (text * dvalue)).
Definition encode_interfaces (ifs : interfaces) : list dvalue :=
  (fun i => DDictEntry (DString i.1) (DArray (encode i.2))) <$> ifs.
Definition encode_objects (os : list (text * interfaces)) : list dvalue :=
  (fun o => DDictEntry (DObjectPath o.1) (DArray (encode_interfaces o.2))) <$> os.
Definition put_interfaces (path : text) (m : objects) (ifs : interfaces) : objects :=
  foldl (fun m i => put_object path i.1 i.2 m) m ifs.
Definition put_objects (m : objects) (os : list (text * interfaces)) : objects :=
  foldl (fun m o => put_interfaces o.1 m o.2) m os.
Definition drop_interfaces (path : text) (m : objects) (ifs : list text) : objects := foldl (fun m i => delete (path, i) m) m ifs.

Lemma wp_interfaces_loop refs asked up m path ifs s :
  mirrors refs asked up m s ->
  wp (interfaces_loop path (encode_interfaces ifs)) (fun _ => mirrors refs asked up (put_interfaces path m ifs)) s.
Proof.
  revert m s. induction ifs as [|[i kvs] ifs IH]; intros m s Hs; [by apply wp_ret|].
  unfold encode_interfaces. rewrite fmap_cons. cbn [interfaces_loop fst snd]. wp_step.
  eapply wp_mono; [by apply wp_parse_properties|]. intros ? s1 Hs1. by apply IH.
Qed.
Lemma wp_objects_loop refs asked up m os s :
  mirrors refs asked up m s ->
  wp (objects_loop (encode_objects os)) (fun _ => mirrors refs asked up (put_objects m os)) s.
Proof.
  revert m s. induction os as [|[path ifs] os IH]; intros m s Hs; [by apply wp_ret|].
  unfold encode_objects. rewrite fmap_cons. cbn [objects_loop parse_interfaces fst snd]. wp_step.
  eapply wp_mono; [by apply wp_interfaces_loop|]. intros ? s1 Hs1. by apply IH.
Qed.
Lemma wp_removed_loop refs asked up m path ifs s :
  mirrors refs asked up m s ->
  wp (removed_loop path (DString <$> ifs)) (fun _ => mirrors refs asked up (drop_interfaces path m ifs)) s.
Proof.
  revert m s. induction ifs as [|i ifs IH]; intros m s Hs; [by apply wp_ret|].
  rewrite fmap_cons. cbn [removed_loop]. wp_step. destruct Hs as (l & Hs & <-).
  eapply wp_mono; [by apply wp_proxy_remove|]. intros ? s1 Hs1. apply (IH (delete (path, i) (tab l))).
  exists (remove_first (is_key (path, i)) l). split; [done|]. apply tab_remove, Hs.
Qed.

Lemma wp_with_client (m : St (gstate U) unit) refs asked up v asked' up' v' s :
  1 <= refs -> mirrors refs asked up v s ->
  (∀ s, mirrors (refs + 1) asked up v s -> wp m (fun _ => mirrors (refs + 1) asked' up' v') s) ->
  wp (with_client m) (fun _ => mirrors refs asked' up' v') s.
Proof.
  intros Hrefs (l & (Hs & Hp) & Hv) Hm. unfold with_client, g_dbus_client_ref. wp_step. eapply wp_mod_client; [apply Hs|].
  wp_step. eapply wp_mono.
  { apply Hm. exists l. split; [split; [|exact Hp]|exact Hv]. eapply shows_client. exact Hs. }
  intros ? s1 (l1 & (Hs1 & Hp1) & Hv1). unfold g_dbus_client_unref. wp_step. eapply wp_mod_client; [apply Hs1|].
  wp_step. eapply wp_get_client; [done|]. cbn [cl_ref_count set_cl_ref_count the_client].
  replace (refs + 1 - 1) with refs by lia. rewrite (proj2 (Z.ltb_lt 0 refs)) by lia. apply wp_ret.
  exists l1. split; [split; [|exact Hp1]|exact Hv1]. change (set_cl_ref_count (refs + 1 - 1) _) with (the_client (refs + 1 - 1) asked' up' (it_id <$> l1)).
  replace (refs + 1 - 1) with refs by lia. eapply shows_client. exact Hs1.
Qed.

Lemma wp_interfaces_added asked up m path ifs s :
  mirrors 1 asked up m s ->
  wp (interfaces_added [DObjectPath path; DArray (encode_interfaces ifs)]) (fun _ => mirrors 1 asked up (put_interfaces path m ifs)) s.
Proof. intros Hs. eapply wp_with_client; [lia | exact Hs|]. intros s1 Hs1. by apply wp_interfaces_loop. Qed.
Lemma wp_interfaces_removed asked up m path ifs s :
  mirrors 1 asked up m s ->
  wp (interfaces_removed [DObjectPath path; DArray (DString <$> ifs)]) (fun _ => mirrors 1 asked up (drop_interfaces path m ifs)) s.
Proof. intros Hs. eapply wp_with_client; [lia | exact Hs|]. intros s1 Hs1. by apply wp_removed_loop. Qed.

(** Nothing is left to ask for. *)
Lemma wp_refresh refs asked up list l live s :
  shows refs asked up list l live s -> Forall (fun x => it_pending x = false) l ->
  wp (refresh_properties (it_id <$> l)) (fun _ s' => s' = s) s.
Proof.
  intros Hs Hp. unfold refresh_properties. destruct l as [|x l]; [by apply wp_ret|].
  assert (Hx : holds s x) by (apply (shown_item _ _ _ _ [] x l _ _ Hs)). destruct Hx as (px & Hpx & _ & Hpend & _).
  apply Forall_cons in Hp as [Hp _].
  eapply (wp_mapM _ (fun s' => s' = s)); [|done]. intros q s' _ ->. cbn [head fmap list_fmap of_option].
  wp_step. eapply wp_lift; [done|]. wp_step. eapply wp_get_proxy; [done|]. rewrite Hpend, Hp. by apply wp_ret.
Qed.

Context (Hready : observed ready []) (Hconnect : observed connect_func []) (Hdisconn : observed disconn_func []).

Lemma wp_silent (b : bool) m refs asked up list l live s :
  observed m [] -> shows refs asked up list l live s -> wp (when b m) (fun _ => shows refs asked up list l live) s.
Proof.
  intros Hm Hs. destruct b; [|by apply wp_ret]. cbn [when].
  eapply wp_mono; [by eapply wp_observed|]. by intros ? s1 (Hs1 & _).
Qed.

(** The answer to [GetManagedObjects]: an error, or the objects. *)
Definition listed (m : objects) (r : option (list (text * interfaces))) : objects :=
  match r with Some os => put_objects m os | None => m end.
Definition encode_reply (r : option (list (text * interfaces))) : reply := (fun os => [DArray (encode_objects os)]) <$> r.
Lemma wp_objects_reply asked up m r s :
  mirrors 1 asked up m s ->
  wp (get_managed_objects_reply (encode_reply r)) (fun _ => mirrors 1 false up (listed m r)) s.
Proof.
  intros Hs. eapply wp_with_client; [lia | exact Hs|]. intros s1 Hs1. wp_step.
  eapply (wp_mono _ (fun _ => mirrors (1 + 1) asked up (listed m r))).
  { destruct r as [os|]; cbn [encode_reply fmap option_fmap option_map parse_managed_objects listed]; [by apply wp_objects_loop | by apply wp_ret]. }
  intros ? s2 (l & (Hs2 & Hp) & Hl). wp_step. eapply wp_get_client; [apply Hs2|]. wp_step.
  eapply wp_mono; [eapply wp_silent; [exact Hready | exact Hs2]|]. intros ? s3 Hs3. wp_step.
  eapply wp_mod_client; [apply Hs3|]. wp_step. eapply wp_get_client; [done|].
  assert (Hs4 : shows (1 + 1) false up (it_id <$> l) l (it_id <$> l)
    (set_client (Some (set_get_objects_call false (the_client (1 + 1) asked up (it_id <$> l)))) s3)).
  { eapply (shows_client (1 + 1) asked up _ (1 + 1) false up). exact Hs3. }
  eapply wp_mono; [exact (wp_refresh _ _ _ _ l _ _ Hs4 Hp)|]. intros ? s5 ->. by exists l.
Qed.

Context (Hsend : sends (GetManagedObjects root) = true).

(** The service appears: its objects are asked for. *)
Lemma wp_service_connect m s :
  mirrors 1 false false m s -> wp service_connect (fun _ => mirrors 1 true true m) s.
Proof.
  intros Hs. eapply wp_with_client; [lia | exact Hs|]. intros s1 (l & (Hs1 & Hp) & Hl). wp_step.
  eapply wp_mod_client; [apply Hs1|]. unfold get_managed_objects. wp_step. wp_step. eapply wp_get_client; [done|].
  cbn [cl_connected set_connected negb cl_root_path the_client cl_functions cl_get_objects_call]. rewrite (proj1 Hfns). cbn [negb andb].
  unfold g_dbus_send_message. rewrite Hsend. do 3 wp_step. apply wp_ret. cbn [when].
  wp_step. eapply wp_get_client; [done|].
  eapply wp_mono.
  - eapply (wp_silent _ _ (1 + 1) true true (it_id <$> l) l (it_id <$> l)); [exact Hconnect|]. by destruct Hs1.
  - intros ? s2 Hs2. by exists l.
Qed.

(** The service vanishes: every proxy goes. *)
Lemma wp_free_all refs asked up list l s :
  shows refs asked up list l (it_id <$> l) s ->
  wp (mapM_ proxy_free (it_id <$> l)) (fun _ => shows refs asked up list [] []) s.
Proof.
  revert s. induction l as [|x l IH]; intros s Hs; [by apply wp_ret|]. rewrite fmap_cons. cbn [mapM_]. wp_step.
  eapply wp_mono; [exact (wp_proxy_free _ _ _ _ [] x l s Hs)|]. intros ? s1 Hs1. by apply IH.
Qed.
Lemma wp_service_disconnect asked m s :
  mirrors 1 asked true m s -> wp service_disconnect (fun _ => mirrors 1 asked false ∅) s.
Proof.
  intros (l & (Hs & Hp) & _). unfold service_disconnect. wp_step. eapply wp_mod_client; [apply Hs|]. wp_step.
  unfold free_proxies. wp_step. eapply wp_get_client; [done|]. cbn [cl_proxy_list set_connected the_client].
  eapply wp_mono; [eapply wp_free_all, (shows_client 1 asked true _ 1 asked false); exact Hs|]. intros ? s1 Hs1. wp_step.
  eapply wp_mod_client; [apply Hs1|]. wp_step. eapply wp_get_client; [done|].
  eapply wp_mono.
  - eapply (wp_silent _ _ 1 asked false [] [] []); [exact Hdisconn|]. eapply (shows_client 1 asked false _ 1 asked false). exact Hs1.
  - intros ? s2 Hs2. by exists [].
Qed.

(** ** A change of properties reaches the one proxy it is for *)
Definition change_object (path i : text) (kvs : list (text * dvalue)) (names : list text) (m : objects) : objects :=
  match m !! (path, i) with Some ps => <[(path, i) := lose (merge ps kvs) names]> m | None => m end.

Lemma omap_listens path i s (ws : list watch) :
  omap (listens path i s) ws =
  omap (fun p => match gs_proxies s !! p with
    | Some px => if bool_decide (px_obj_path px = path) && bool_decide (px_interface px = i) then Some p else None
    | None => Some p end) (omap proxy_watch ws).
Proof. induction ws as [|[| | | |p] ws IH]; cbn; try done. destruct (match gs_proxies s !! p with _ => _ end); by rewrite ?IH. Qed.
Lemma listeners refs asked up list l live path i s :
  shows refs asked up list l live s ->
  omap (listens path i s) (gs_watches s) = match find_first (is_key (path, i)) l with Some x => [it_id x] | None => [] end.
Proof.
  intros [_ _ E3 E4 _ _ E7 _]. rewrite omap_listens, E7. clear E7. induction E4 as [|x l Hx Hl IH]; [done|].
  rewrite fmap_cons in *. apply NoDup_cons in E3 as [Hx3 E3]. cbn [omap list_omap].
  destruct Hx as (px & Hpx & _ & _ & _ & _ & Hkey & _). rewrite Hpx. unfold find_first. cbn [List.find]. fold (find_first (is_key (path, i)) l).
  specialize (IH E3). destruct (decide (it_key x = (path, i))) as [Hk|Hk].
  - rewrite Hk in Hkey. injection Hkey as -> ->. rewrite !bool_decide_eq_true_2 by done. cbn [andb].
    assert (Hself : is_key (path, i) x = true) by by apply bool_decide_eq_true_2. rewrite Hself.
    f_equal. refine (eq_trans IH _). rewrite Hk in Hx3. by rewrite (proj2 (find_none_key (path, i) l)).
  - rewrite (is_key_other _ _ Hk).
    assert (Hb : bool_decide (px_obj_path px = path) && bool_decide (px_interface px = i) = false).
    { apply not_true_iff_false. intros [Hi Hq]%andb_true_iff. apply bool_decide_eq_true in Hi, Hq. congruence. }
    rewrite Hb. exact IH.
Qed.

Lemma wp_changed_arrives asked up m path i kvs names s :
  mirrors 1 asked up m s ->
  wp (arrives (PropertiesChanged path i [DString i; DArray (encode kvs); DArray (DString <$> names)]))
    (fun _ => mirrors 1 asked up (change_object path i kvs names m)) s.
Proof.
  intros (l & (Hs & Hp) & <-). cbn [arrives]. wp_step. wp_step. rewrite (listeners _ _ _ _ _ _ _ _ _ Hs).
  unfold change_object. rewrite tab_lookup. destruct (find_first (is_key (path, i)) l) as [x|] eqn:E; cbn [fmap option_fmap option_map mapM_].
  - destruct (find_split _ _ _ E) as (l1 & l2 & -> & Hk & Hl). wp_step. eapply wp_mono.
    { eapply wp_properties_changed; [exact Hs|]. rewrite fmap_app, fmap_cons. apply elem_of_app; right; left. }
    intros ? s1 Hs1. apply wp_ret. eexists. split; [exact (ready_set _ _ _ _ _ _ _ s1 Hp Hs1)|].
    by apply tab_update.
  - apply wp_ret. by exists l.
Qed.

(** ** The service

    It is up or not, the client waits for the answer to [GetManagedObjects], it has had
    it, and there are the objects. *)
Record service_state := Service { sv_up : bool; sv_asked : bool; sv_synced : bool; sv_objects : objects }.
Inductive service_event :=
| Appears (o : objects)
| Vanishes
| Adds (path : text) (ifs : interfaces)
| Removes (path : text) (ifs : list text)
| Changes (path i : text) (kvs : list (text * dvalue)) (names : list text)
| Answers (os : list (text * interfaces))
| Refuses.

(** New interfaces one after the other, none that is there already. *)
Fixpoint add_new (path : text) (o : objects) (ifs : interfaces) : option objects :=
  match ifs with
  | [] => Some o
  | (i, kvs) :: ifs' =>
      match o !! (path, i) with Some _ => None | None => add_new path (<[(path, i) := merge ∅ kvs]> o) ifs' end
  end.
Fixpoint add_listed (o : objects) (os : list (text * interfaces)) : option objects :=
  match os with [] => Some o | (path, ifs) :: os' => o ← add_new path o ifs; add_listed o os' end.
(** What the service may do: it announces what is new, changes what is there, lists
    all there is when it is asked, and answers before it is seen to appear again. *)
Definition service_step (e : service_event) (d : service_state) : option service_state :=
  match e with
  | Appears o => if sv_up d || sv_asked d then None else Some (Service true true false o)
  | Vanishes => if sv_up d then Some (Service false (sv_asked d) false ∅) else None
  | Adds path ifs =>
      if sv_up d then o ← add_new path (sv_objects d) ifs; Some (Service true (sv_asked d) (sv_synced d) o) else None
  | Removes path ifs =>
      if sv_up d then Some (Service true (sv_asked d) (sv_synced d) (drop_interfaces path (sv_objects d) ifs)) else None
  | Changes path i kvs names =>
      if sv_up d && bool_decide (is_Some (sv_objects d !! (path, i)))
      then Some (Service true (sv_asked d) (sv_synced d) (change_object path i kvs names (sv_objects d))) else None
  | Answers os =>
      if sv_up d && sv_asked d && bool_decide (add_listed ∅ os = Some (sv_objects d))
      then Some (Service true false true (sv_objects d)) else None
  | Refuses => if sv_asked d then Some (Service (sv_up d) false (sv_synced d) (sv_objects d)) else None
  end.
Definition event_arrival (e : service_event) : dbus_arrival :=
  match e with
  | Appears _ => ServiceAppeared
  | Vanishes => ServiceVanished
  | Adds path ifs => InterfacesAdded [DObjectPath path; DArray (encode_interfaces ifs)]
  | Removes path ifs => InterfacesRemoved [DObjectPath path; DArray (DString <$> ifs)]
  | Changes path i kvs names => PropertiesChanged path i [DString i; DArray (encode kvs); DArray (DString <$> names)]
  | Answers os => ObjectsReply (encode_reply (Some os))
  | Refuses => ObjectsReply (encode_reply None)
  end.
Fixpoint service_steps (l : list service_event) (d : service_state) : option service_state :=
  match l with [] => Some d | e :: l' => d ← service_step e d; service_steps l' d end.

(** The objects that have proxies. *)
Definition visible (o : objects) : objects := filter (fun kv => hidden kv.1.2 = false) o.
Definition in_step (d : service_state) (m : objects) : Prop :=
  (if sv_synced d then m = visible (sv_objects d) else m ⊆ visible (sv_objects d)) /\
  (sv_synced d = true -> sv_up d = true /\ sv_asked d = false) /\ (sv_up d = false -> m = ∅).

Lemma visible_lookup o k : visible o !! k = if hidden k.2 then None else o !! k.
Proof.
  unfold visible. destruct (hidden k.2) eqn:E.
  - apply map_lookup_filter_None. right. intros x _. cbn. by rewrite E.
  - destruct (o !! k) as [x|] eqn:Eo; [by apply map_lookup_filter_Some | apply map_lookup_filter_None; by left].
Qed.
Lemma visible_put path i kvs o : o !! (path, i) = None ->
  visible (<[(path, i) := merge ∅ kvs]> o) = put_object path i kvs (visible o).
Proof.
  intros Ho. apply map_eq. intros k. unfold put_object. rewrite !visible_lookup, Ho. cbn [snd].
  destruct (decide (k = (path, i))) as [->|Hne].
  - cbn [snd]. destruct (hidden i) eqn:E; [by rewrite visible_lookup; cbn [snd]; rewrite E | by rewrite !lookup_insert_eq].
  - rewrite lookup_insert_ne by done. destruct (hidden i); [|rewrite lookup_insert_ne by done]; by rewrite visible_lookup.
Qed.

(** *** One event at a time *)
Lemma merge_lookup ps kvs n :
  merge ps kvs !! n = foldl (fun a kv => if decide (kv.1 = n) then Some kv.2 else a) (ps !! n) kvs.
Proof.
  revert ps. induction kvs as [|[k v] kvs IH]; intros ps; [done|]. cbn [merge foldl fst snd]. refine (eq_trans (IH _) _).
  destruct (decide (k = n)) as [->|Hne]; [by rewrite lookup_insert_eq | by rewrite lookup_insert_ne].
Qed.
Lemma merge_twice ps kvs : merge (merge ps kvs) kvs = merge ps kvs.
Proof.
  apply map_eq. intros n. rewrite merge_lookup. set (g := fun (a : option dvalue) (kv : text * dvalue) => _).
  assert (Hg : ∀ kl, (∀ a, foldl g a kl = a) \/ (exists c, ∀ a, foldl g a kl = c)).
  { induction kl as [|[k v] kl [IH|[c IH]]]; [by left | | right; exists c; intros a; apply IH].
    destruct (decide (k = n)) as [Hk|Hk]; [right; exists (Some v) | left]; intros a; cbn [foldl]; rewrite IH; unfold g; cbn [fst snd];
      [by rewrite decide_True | by rewrite decide_False]. }
  rewrite merge_lookup. fold g. destruct (Hg kvs) as [Hk|[c Hk]]; by rewrite !Hk.
Qed.

Lemma absent o m k : m ⊆ visible o -> o !! k = None -> m !! k = None.
Proof.
  intros Hm Ho. destruct (m !! k) as [x|] eqn:E; [|done]. apply (lookup_weaken _ _ _ _ E) in Hm.
  rewrite visible_lookup, Ho in Hm. by destruct (hidden k.2).
Qed.
Lemma put_mono o m path i kvs : m ⊆ visible o -> o !! (path, i) = None ->
  put_object path i kvs m ⊆ visible (<[(path, i) := merge ∅ kvs]> o).
Proof.
  intros Hm Ho. rewrite visible_put by done. unfold put_object. destruct (hidden i); [done|].
  rewrite (absent _ _ _ Hm Ho), visible_lookup, Ho. destruct (hidden (path, i).2); by apply insert_mono.
Qed.
Lemma add_new_mono path ifs o o' m : add_new path o ifs = Some o' -> m ⊆ visible o -> put_interfaces path m ifs ⊆ visible o'.
Proof.
  revert o m. induction ifs as [|[i kvs] ifs IH]; intros o m; cbn [add_new]; [by intros [= <-]|].
  destruct (o !! (path, i)) eqn:E; [done|]. intros Ha Hm. apply (IH _ _ Ha). by apply put_mono.
Qed.
Lemma add_new_visible path ifs o o' : add_new path o ifs = Some o' -> put_interfaces path (visible o) ifs = visible o'.
Proof.
  revert o. induction ifs as [|[i kvs] ifs IH]; intros o; cbn [add_new]; [by intros [= <-]|].
  destruct (o !! (path, i)) eqn:E; [done|]. intros Ha. rewrite <-(IH _ Ha), visible_put by done. done.
Qed.
Lemma add_new_grows path ifs o o' : add_new path o ifs = Some o' -> o ⊆ o'.
Proof.
  revert o. induction ifs as [|[i kvs] ifs IH]; intros o; cbn [add_new]; [by intros [= <-]|].
  destruct (o !! (path, i)) eqn:E; [done|]. intros Ha. etrans; [by apply insert_subseteq | by apply IH].
Qed.
Lemma add_listed_grows os o o' : add_listed o os = Some o' -> o ⊆ o'.
Proof.
  revert o. induction os as [|[path ifs] os IH]; intros o; cbn [add_listed]; [by intros [= <-]|].
  destruct (add_new path o ifs) as [o1|] eqn:E; [|done]. intros Ha. etrans; [by eapply add_new_grows | by apply IH].
Qed.
Lemma visible_mono o o' : o ⊆ o' -> visible o ⊆ visible o'.
Proof.
  intros Ho. apply map_subseteq_spec. intros k x. rewrite !visible_lookup. destruct (hidden k.2); [done|].
  intros Hx. by eapply lookup_weaken.
Qed.

(** Listing what is partly known completes it. *)
Lemma put_listed acc o m path i kvs :
  acc !! (path, i) = None -> <[(path, i) := merge ∅ kvs]> acc ⊆ o -> visible acc ⊆ m -> m ⊆ visible o ->
  visible (<[(path, i) := merge ∅ kvs]> acc) ⊆ put_object path i kvs m /\ put_object path i kvs m ⊆ visible o.
Proof.
  intros Ha Ho Hm1 Hm2. rewrite visible_put by done. unfold put_object. destruct (hidden i) eqn:Ei; [done|].
  assert (Hk : o !! (path, i) = Some (merge ∅ kvs)) by (eapply lookup_weaken; [apply lookup_insert_eq | done]).
  rewrite visible_lookup, Ha. cbn [snd]. rewrite Ei. cbn [default].
  assert (Hv : visible o !! (path, i) = Some (merge ∅ kvs)) by (rewrite visible_lookup; cbn [snd]; by rewrite Ei).
  destruct (m !! (path, i)) as [ps|] eqn:E; cbn [default id].
  - pose proof (lookup_weaken _ _ _ _ E Hm2) as Hps. rewrite Hv in Hps. injection Hps as <-. rewrite merge_twice, (insert_id m) by done.
    split; [|done]. rewrite <-(insert_id m (path, i) (merge ∅ kvs)) by done. by apply insert_mono.
  - split; [by apply insert_mono|]. rewrite <-(insert_id (visible o) (path, i) (merge ∅ kvs)) by done. by apply insert_mono.
Qed.
Lemma put_interfaces_listed path ifs acc acc' o m :
  add_new path acc ifs = Some acc' -> acc' ⊆ o -> visible acc ⊆ m -> m ⊆ visible o ->
  visible acc' ⊆ put_interfaces path m ifs /\ put_interfaces path m ifs ⊆ visible o.
Proof.
  revert acc m. induction ifs as [|[i kvs] ifs IH]; intros acc m; cbn [add_new]; [by intros [= <-]|].
  destruct (acc !! (path, i)) eqn:E; [done|]. intros Ha Ho Hm1 Hm2.
  destruct (put_listed acc o m path i kvs E) as [H1' H2']; [|done | done | by apply (IH _ _ Ha Ho H1' H2')].
  etrans; [by eapply add_new_grows | done].
Qed.
Lemma put_objects_listed os acc o m :
  add_listed acc os = Some o -> visible acc ⊆ m -> m ⊆ visible o -> put_objects m os = visible o.
Proof.
  revert acc m. induction os as [|[path ifs] os IH]; intros acc m; cbn [add_listed].
  - intros [= ->] H1' H2'. by apply (anti_symm (⊆)).
  - destruct (add_new path acc ifs) as [acc'|] eqn:E; [|done]. intros Ha Hm1 Hm2.
    destruct (put_interfaces_listed path ifs acc acc' o m E) as [H1' H2']; [by eapply add_listed_grows | done | done|].
    exact (IH acc' (put_interfaces path m ifs) Ha H1' H2').
Qed.

Lemma drop_mono path ifs o m : m ⊆ visible o -> drop_interfaces path m ifs ⊆ visible (drop_interfaces path o ifs).
Proof.
  revert o m. induction ifs as [|i ifs IH]; intros o m Hm; [done|]. apply IH. apply map_subseteq_spec. intros k x.
  rewrite visible_lookup, !lookup_delete_Some. intros [Hne Hk]. rewrite lookup_delete_ne by done.
  rewrite <-visible_lookup. by eapply lookup_weaken.
Qed.
Lemma drop_visible path ifs o : drop_interfaces path (visible o) ifs = visible (drop_interfaces path o ifs).
Proof.
  revert o. induction ifs as [|i ifs IH]; intros o; [done|]. refine (eq_trans _ (IH (delete (path, i) o))).
  cbn [drop_interfaces foldl]. unfold drop_interfaces. f_equal. apply map_eq. intros k. rewrite visible_lookup.
  destruct (decide (k = (path, i))) as [->|Hne]; [rewrite !lookup_delete_eq; by destruct (hidden _)|].
  by rewrite !lookup_delete_ne, visible_lookup by done.
Qed.
Lemma change_mono path i kvs names o m : m ⊆ visible o -> change_object path i kvs names m ⊆ visible (change_object path i kvs names o).
Proof.
  intros Hm. unfold change_object. destruct (m !! (path, i)) as [ps|] eqn:E.
  - pose proof (lookup_weaken _ _ _ _ E Hm) as Hv. rewrite visible_lookup in Hv. cbn [snd] in Hv.
    destruct (hidden i) eqn:Ei; [done|]. rewrite Hv. apply map_subseteq_spec. intros k x. rewrite visible_lookup.
    destruct (decide (k = (path, i))) as [->|Hne]; [cbn [snd]; by rewrite Ei, !lookup_insert_eq|].
    rewrite !lookup_insert_ne by done. rewrite <-visible_lookup. intros Hk. by eapply lookup_weaken.
  - destruct (o !! (path, i)) as [ps|] eqn:Eo; [|done]. apply map_subseteq_spec. intros k x Hk. rewrite visible_lookup.
    rewrite lookup_insert_ne by (intros <-; congruence). rewrite <-visible_lookup. by eapply lookup_weaken.
Qed.
Lemma change_visible path i kvs names o : change_object path i kvs names (visible o) = visible (change_object path i kvs names o).
Proof.
  unfold change_object. rewrite visible_lookup. cbn [snd]. destruct (o !! (path, i)) as [ps|] eqn:Eo; [|by destruct (hidden i)].
  apply map_eq. intros k. rewrite visible_lookup. destruct (hidden i) eqn:Ei; destruct (decide (k = (path, i))) as [->|Hne].
  - cbn [snd]. by rewrite visible_lookup; cbn [snd]; rewrite Ei.
  - by rewrite visible_lookup, lookup_insert_ne.
  - cbn [snd]. by rewrite Ei, !lookup_insert_eq.
  - by rewrite !lookup_insert_ne, visible_lookup.
Qed.

Lemma wp_watched (w : watch) m (Q : unit -> gstate U -> Prop) s : w ∈ gs_watches s -> wp m Q s -> wp (watched w m) Q s.
Proof. intros Hw Hm. unfold watched. wp_step. wp_step. by rewrite bool_decide_eq_true_2. Qed.
Lemma mirrors_watches refs asked up m s : mirrors refs asked up m s ->
  WService ∈ gs_watches s /\ WAdded ∈ gs_watches s /\ WRemoved ∈ gs_watches s.
Proof. by intros (l & (Hs & _) & _); apply Hs. Qed.

(** The client keeps step with the service. *)
Lemma wp_event e d d' m s :
  mirrors 1 (sv_asked d) (sv_up d) m s -> in_step d m -> service_step e d = Some d' ->
  wp (arrives (event_arrival e)) (fun _ s' => exists m', mirrors 1 (sv_asked d') (sv_up d') m' s' /\ in_step d' m') s.
Proof.
  intros Hm (Hstep & Hsync & Hdown) He. destruct (mirrors_watches _ _ _ _ _ Hm) as (Hw1 & Hw2 & Hw3).
  destruct d as [up asked synced o]. cbn [sv_up sv_asked sv_synced sv_objects] in *.
  destruct e as [o'| |path ifs|path ifs|path i kvs names|os|]; cbn [service_step sv_up sv_asked sv_synced sv_objects] in He.
  - destruct up, asked; try done. injection He as <-. apply wp_watched; [done|]. rewrite (Hdown eq_refl) in Hm.
    eapply wp_mono; [by apply wp_service_connect|]. intros ? s' Hs'. exists ∅. split; [done|].
    split; [apply map_empty_subseteq | done].
  - destruct up; [|done]. injection He as <-. apply wp_watched; [done|].
    eapply wp_mono; [by eapply wp_service_disconnect|]. intros ? s' Hs'. exists ∅. split; [done|].
    split; [apply map_empty_subseteq | done].
  - destruct up; [|done]. destruct (add_new path o ifs) as [o1|] eqn:Ea; [|done]. injection He as <-. apply wp_watched; [done|].
    eapply wp_mono; [by eapply wp_interfaces_added|]. intros ? s' Hs'. eexists. split; [exact Hs'|]. split; [|done].
    cbn [sv_synced sv_objects]. destruct synced; [subst m; by apply add_new_visible | by eapply add_new_mono].
  - destruct up; [|done]. injection He as <-. apply wp_watched; [done|].
    eapply wp_mono; [by eapply wp_interfaces_removed|]. intros ? s' Hs'. eexists. split; [exact Hs'|]. split; [|done].
    cbn [sv_synced sv_objects]. destruct synced; [subst m; apply drop_visible | by apply drop_mono].
  - destruct up; [|done]. destruct (bool_decide (is_Some (o !! (path, i)))); [|done]. injection He as <-.
    eapply wp_mono; [by eapply wp_changed_arrives|]. intros ? s' Hs'. eexists. split; [exact Hs'|]. split; [|done].
    cbn [sv_synced sv_objects]. destruct synced; [subst m; apply change_visible | by apply change_mono].
  - destruct up, asked; try done. cbn [andb] in He. destruct (bool_decide (add_listed ∅ os = Some o)) eqn:Ea; [|done].
    apply bool_decide_eq_true in Ea. injection He as <-. destruct synced; [by destruct (Hsync eq_refl)|].
    cbn [event_arrival arrives]. wp_step. wp_step. destruct Hm as (l & Hl & <-). rewrite (sh_client _ _ _ _ _ _ _ (proj1 Hl)).
    cbn [cl_get_objects_call the_client when].
    eapply wp_mono; [eapply (wp_objects_reply true true (tab l)); by exists l|]. intros ? s' Hs'. eexists. split; [exact Hs'|].
    split; [|done]. cbn [sv_synced sv_objects listed]. apply (put_objects_listed os ∅ o (tab l) Ea); [|exact Hstep].
    apply map_subseteq_spec. intros k x. rewrite visible_lookup, lookup_empty. by destruct (hidden k.2).
  - destruct asked; [|done]. injection He as <-. cbn [event_arrival arrives]. wp_step. wp_step. destruct Hm as (l & Hl & <-).
    rewrite (sh_client _ _ _ _ _ _ _ (proj1 Hl)). cbn [cl_get_objects_call the_client when].
    eapply wp_mono; [eapply (wp_objects_reply true up (tab l) None); by exists l|]. intros ? s' Hs'. exists (tab l). split; [exact Hs'|].
    destruct synced; [by destruct (Hsync eq_refl)|]. by split.
Qed.

Lemma wp_events es d d' m s :
  mirrors 1 (sv_asked d) (sv_up d) m s -> in_step d m -> service_steps es d = Some d' ->
  wp (all_arrive (event_arrival <$> es)) (fun _ s' => exists m', mirrors 1 (sv_asked d') (sv_up d') m' s' /\ in_step d' m') s.
Proof.
  revert d m s. induction es as [|e es IH]; intros d m s Hm Hd; cbn [service_steps]; [intros [= <-]; by exists m|].
  destruct (service_step e d) as [d1|] eqn:E; [|done]. intros Hes. rewrite fmap_cons. cbn [all_arrive]. wp_step.
  eapply wp_mono; [by eapply wp_event|]. intros ? s1 (m1 & Hm1 & Hd1). by eapply IH.
Qed.
End Facts.

(** ** The whole client

    What the program's functions must do: nothing to the client, and keep a record of
    what they are told. *)
Class Observer {U} `{Handlers U} (seen : U -> list note) : Prop := {
  ob_prop : ∀ f p n v, observed seen (prop_func f p n v) [];
  ob_changed : ∀ p n v, observed seen (property_changed_func p n v) [NChanged p n v];
  ob_added : ∀ p, observed seen (proxy_added_func p) [NAdded p];
  ob_removed : ∀ p, observed seen (proxy_removed_func p) [NRemoved p];
  ob_gone : ∀ f p, observed seen (removed_func f p) [];
  ob_ready : observed seen ready [];
  ob_connect : observed seen connect_func [];
  ob_disconn : observed seen disconn_func [] }.

Section Client.
Context {U : Type} `{Transport} `{Handlers U} (seen : U -> list note) `{!Observer seen}.

(** As [mesh_init] sets the client up. *)
Definition client_setup (service base : text) : St (gstate U) unit :=
  _ ← g_dbus_client_new (Some service) (Some base);
  _ ← g_dbus_client_set_connect_watch true true;
  _ ← g_dbus_client_set_disconnect_watch true true;
  _ ← g_dbus_client_set_signal_watch true true;
  _ ← g_dbus_client_set_proxy_handlers true true true true;
  _ ← g_dbus_client_set_ready_watch true true;
  mret tt.
Definition start_state (u : U) : gstate U := GState None ∅ 1 [] [] [] u.
Definition all_functions : functions := Functions true true true true true true true.

Lemma run_bind {A B} (m : St (gstate U) A) (f : A -> St (gstate U) B) s a s' : m s = Ok (a, s') -> (m ≫= f) s = f a s'.
Proof. unfold mbind, st_bind. by intros ->. Qed.
Lemma set_function_run f (s : gstate U) c : gs_client s = Some c ->
  set_function true f s = Ok (true, set_client (Some (set_functions (f (cl_functions c)) c)) s).
Proof. intros Hc. unfold set_function. cbn [negb]. apply wp_bind_eq. by eapply wp_mod_client. Qed.
Lemma set_handlers_run (s : gstate U) c : gs_client s = Some c -> cl_connected c = false ->
  exists fns, g_dbus_client_set_proxy_handlers true true true true s = Ok (true, set_client (Some (set_functions fns c)) s) /\
    fns = Functions (fn_connect (cl_functions c)) (fn_disconn (cl_functions c)) (fn_signal (cl_functions c)) (fn_ready (cl_functions c)) true true true.
Proof.
  intros Hc Hd. eexists. split; [|reflexivity]. unfold g_dbus_client_set_proxy_handlers.
  rewrite (run_bind _ _ _ _ _ (set_function_run _ s c Hc)). cbn [negb when orb].
  apply wp_bind_eq. unfold get_managed_objects. wp_step. eapply wp_get_client; [done|]. cbn [cl_connected set_functions].
  rewrite Hd. by apply wp_ret.
Qed.
Lemma new_run service base u : exists sent, g_dbus_client_new (Some service) (Some base) (start_state u) =
  Ok (true, GState (Some (Client 1 service (Some base) (Some (octets "/")) [match_rule service base] false false no_functions []))
           ∅ 1 [WFilter; WService; WAdded; WRemoved] [] sent u).
Proof.
  unfold g_dbus_client_new, g_dbus_client_new_full, modify_match, g_dbus_send_message. change (printed (Some base)) with base.
  generalize (octets "/") (match_rule service base). intros root rule. destruct (sends (ModifyMatch true rule)); by eexists.
Qed.
Lemma setup_run service base u : exists sent, client_setup service base (start_state u) =
  Ok (tt, GState (Some (the_client service (Some base) (octets "/") [match_rule service base] all_functions 1 false false []))
           ∅ 1 [WFilter; WService; WAdded; WRemoved] [] sent u).
Proof.
  destruct (new_run service base u) as [sent Hnew]. exists sent. unfold client_setup. rewrite (run_bind _ _ _ _ _ Hnew).
  generalize (octets "/") (match_rule service base). intros root rule.
  unfold g_dbus_client_set_connect_watch, g_dbus_client_set_disconnect_watch, g_dbus_client_set_signal_watch, g_dbus_client_set_ready_watch.
  do 3 (erewrite run_bind; [|by apply set_function_run]; cbn [cl_functions set_functions set_client gs_client]).
  edestruct set_handlers_run as (fns & Hf & Hfns); [| |rewrite (run_bind _ _ _ _ _ Hf)]; [done | done|]. subst fns.
  erewrite run_bind; [|by apply set_function_run]. reflexivity.
Qed.
Lemma setup_mirrors service base u :
  seen u = [] ->
  wp (client_setup service base)
    (fun _ => mirrors seen service (Some base) (octets "/") [match_rule service base] all_functions 1 false false ∅) (start_state u).
Proof.
  intros Hu. destruct (setup_run service base u) as [sent Hrun]. apply wp_ok. eexists _, _. split; [exact Hrun|].
  exists []. split; [split; [|done]|done]. split; try done.
  - apply NoDup_nil_2.
  - apply NoDup_nil_2.
  - cbn. rewrite !elem_of_cons. tauto.
  - cbn. by rewrite Hu.
Qed.

(** The proxies of a list, by object and interface, with the values of their
    properties. *)
Definition proxies_map (s : gstate U) (ids : list Z) : objects :=
  list_to_map (omap (fun p => px ← gs_proxies s !! p; Some ((px_obj_path px, px_interface px), pe_msg <$> px_prop_list px)) ids).
Lemma proxies_tab (s : gstate U) l : Forall (holds s) l -> proxies_map s (it_id <$> l) = tab l.
Proof.
  unfold proxies_map, tab. intros Hl. f_equal. induction Hl as [|x l (px & Hpx & _ & _ & _ & _ & Hkey & Hps) _ IH]; [done|].
  rewrite !fmap_cons. cbn [omap list_omap]. rewrite Hpx. cbn [mbind option_bind]. rewrite Hkey, Hps. f_equal. exact IH.
Qed.

(** C39: The proxies are the objects.  Set up as [mesh_init] does, for every sequence of
    what a service may do, starting, stopping, announcing and changing objects and
    answering: the client handles it without a fault; when its question for the objects
    has been answered, its proxies are exactly the objects of the service that are not
    introspection or properties, with the same values; before that, some of them; and
    the program has been told, each time first of the proxy and last of its removal, of
    exactly these proxies, none of which has been freed. *)
Theorem client_mirrors service base u es d :
  seen u = [] -> sends (GetManagedObjects (octets "/")) = true ->
  service_steps es (Service false false false ∅) = Some d ->
  exists s c, (_ ← client_setup service base; all_arrive (event_arrival <$> es)) (start_state u) = Ok (tt, s) /\
    gs_client s = Some c /\ cl_connected c = sv_up d /\
    (if sv_synced d then proxies_map s (cl_proxy_list c) = visible (sv_objects d)
     else proxies_map s (cl_proxy_list c) ⊆ visible (sv_objects d)) /\
    Forall (fun p => is_Some (gs_proxies s !! p)) (cl_proxy_list c) /\
    replay (seen (gs_user s)) [] = Some (cl_proxy_list c).
Proof.
  intros Hu Hsend Hes.
  assert (Hw : wp (_ ← client_setup service base; all_arrive (event_arrival <$> es))
    (fun _ s => exists m, mirrors seen service (Some base) (octets "/") [match_rule service base] all_functions 1 (sv_asked d) (sv_up d) m s /\
       in_step d m) (start_state u)).
  { wp_step. eapply wp_mono; [by apply setup_mirrors|]. intros ? s1 Hs1. destruct Observer0.
    eapply (wp_events seen service (Some base) (octets "/") [match_rule service base] all_functions)
      with (d := Service false false false ∅) (m := ∅); try done. }
  apply wp_ok in Hw as ([] & s & Hrun & m & (l & (Hs & _) & <-) & Hd & _).
  exists s, (the_client service (Some base) (octets "/") [match_rule service base] all_functions 1 (sv_asked d) (sv_up d) (it_id <$> l)).
  split_and!; [done | apply Hs | done | | | apply Hs].
  - cbn [cl_proxy_list the_client]. by rewrite (proxies_tab s l (sh_items _ _ _ _ _ _ _ _ _ _ _ _ _ Hs)).
  - cbn [cl_proxy_list the_client]. apply Forall_fmap. eapply Forall_impl; [exact (sh_items _ _ _ _ _ _ _ _ _ _ _ _ _ Hs)|].
    intros x (px & Hpx & _). by exists px.
Qed.
End Client.

(** ** A client on concrete services

    A program that writes down what it is told. *)
Module Recorder.
#[local] Instance everything : Transport := { sends _ := true }.
Definition write (n : note) : St (gstate (list note)) unit := modify (fun s => set_user (gs_user s ++ [n]) s).
#[local] Instance recorder : Handlers (list note) := {
  connect_func := mret tt; disconn_func := mret tt; signal_func _ := mret tt; ready := mret tt;
  proxy_added_func p := write (NAdded p); proxy_removed_func p := write (NRemoved p);
  property_changed_func p n v := write (NChanged p n v); prop_func _ _ _ _ := mret tt;
  removed_func _ _ := mret tt; result_func _ _ := mret tt; return_func _ _ := mret tt; destroy_func _ := mret tt }.
#[local] Instance recorder_observes : Observer (fun u : list note => u).
Proof.
  assert (Hquiet : observed (fun u : list note => u) (mret tt) []).
  { intros s. apply wp_ret. split; [done|]. by rewrite app_nil_r. }
  assert (Hwrite : ∀ n, observed (fun u : list note => u) (write n) [n]).
  { intros n s. by apply wp_ok; eexists _, _. }
  split; intros; first [exact Hquiet | apply Hwrite].
Qed.

Definition service : text := octets "org.bluez".
Definition base : text := octets "/org/bluez".
Definition network : text := octets "org.bluez.mesh.Network1".
Definition node : text := octets "org.bluez.mesh.Node1".
Definition connected (b : Z) : text * dvalue := (octets "Connected", DBasic 98 b).
Definition at_start : interfaces := [(network, [connected 0]); (DBUS_INTERFACE_PROPERTIES, [])].
Definition nowhere : service_state := Service false false false ∅.
(** It appears with one object, announces another before it answers and one after,
    changes one and removes another. *)
Definition a_day : list service_event :=
  [Appears (default ∅ (add_new base ∅ at_start));
   Adds (octets "/n1") [(node, [])];
   Answers [(octets "/n1", [(node, [])]); (base, at_start)];
   Adds (octets "/n2") [(node, [connected 1]); (DBUS_INTERFACE_INTROSPECTABLE, [])];
   Changes base network [connected 1] [];
   Removes (octets "/n1") [node]].
Definition evening : service_state := default nowhere (service_steps a_day nowhere).

Lemma some_default {B} (d : B) (o : option B) : bool_decide (is_Some o) = true -> o = Some (default d o).
Proof. intros Ho%bool_decide_eq_true. by destruct o; [|destruct Ho]. Qed.
Lemma client_mirrors_witness :
  service_steps a_day nowhere = Some evening /\ sv_synced evening = true /\ size (visible (sv_objects evening)) = 2%nat /\
  exists s c, (_ ← client_setup service base; all_arrive (event_arrival <$> a_day)) (start_state []) = Ok (tt, s) /\
    gs_client s = Some c /\ cl_connected c = sv_up evening /\
    (if sv_synced evening then proxies_map s (cl_proxy_list c) = visible (sv_objects evening)
     else proxies_map s (cl_proxy_list c) ⊆ visible (sv_objects evening)) /\
    Forall (fun p => is_Some (gs_proxies s !! p)) (cl_proxy_list c) /\
    replay (gs_user s) [] = Some (cl_proxy_list c).
Proof.
  assert (Hday : service_steps a_day nowhere = Some evening) by (apply some_default; by vm_compute).
  split; [exact Hday|]. split; [by vm_compute|]. split; [by vm_compute|].
  by apply (client_mirrors (fun u : list note => u) service base [] a_day evening).
Defined.

(** Two proxies that the program makes itself while the service is away, of a client
    without a root path: when the service comes, only the first is asked about. *)
Example only_the_first_refreshed :
  exists s, (_ ← g_dbus_client_new_full (Some service) (Some base) None;
             _ ← g_dbus_proxy_new true (octets "/n1") node; _ ← g_dbus_proxy_new true (octets "/n2") node;
             arrives ServiceAppeared) (start_state []) = Ok (tt, s) /\
    px_pending <$> gs_proxies s !! 1 = Some true /\ px_pending <$> gs_proxies s !! 2 = Some true /\
    gs_sent s = [StartServiceByName service; StartServiceByName service; GetAll (octets "/n1") node].
Proof. eexists. split; [by vm_compute|]. by vm_compute. Qed.

(** A property that is asked about, and answered after the object has been removed. *)
Example refresh_after_removal :
  (_ ← client_setup service base;
   _ ← all_arrive (event_arrival <$> [Appears (default ∅ (add_new base ∅ at_start)); Answers [(base, at_start)]]);
   _ ← g_dbus_proxy_refresh_property (Some 1) (Some (octets "Connected"));
   _ ← all_arrive (event_arrival <$> [Removes base [network]]);
   arrives (CallReply 0 (Some [DVariant (DBasic 98 1)]))) (start_state []) = Fault UseAfterFree.
Proof. by vm_compute. Qed.
End Recorder.
