(* ===== verification/Gatt.v ===== *)
(** * GATT bearer: proxy PDU segmentation and reassembly

    [src/blueZ/mesh/gatt.c].  [mesh_gatt_sar] reassembles the proxy PDUs that
    arrive as notifications; [mesh_gatt_write] and [pipe_write] cut an outgoing
    PDU into frames of the negotiated size.  The D-Bus calls and the socket are
    not modelled: [io_send] is the argument [ok], which says whether the k-th
    send succeeds. *)

From S2P Require Import Prelude Bytes.

Definition MAX_GATT_SIZE : Z := 66.
Definition GATT_SAR_MASK : Z := 0xc0.
Definition GATT_SAR_COMPLETE : Z := 0x00.
Definition GATT_SAR_FIRST : Z := 0x40.
Definition GATT_SAR_CONTINUE : Z := 0x80.
Definition GATT_SAR_LAST : Z := 0xc0.
Definition GATT_TYPE_INVALID : Z := 0xff.
Definition GATT_TYPE_MASK : Z := 0x3f.
Definition GATT_MTU : Z := 23.

(** ** Reassembly *)

(** The two static variables of [mesh_gatt_sar]. *)
Record gatt_rx := GattRx { gatt_size : Z; gatt_pkt : list Z }.

Definition gatt_rx_init : gatt_rx := GattRx 0 (rep 67 0).

(** [gatt_size = 1; gatt_pkt[0] = type] *)
Definition sar_begin (type : Z) (st : gatt_rx) : res gatt_rx :=
  p ← wr (gatt_pkt st) 0 type; mret (GattRx 1 p).

Definition sar_invalidate (st : gatt_rx) : res gatt_rx :=
  p ← wr (gatt_pkt st) 0 GATT_TYPE_INVALID; mret (GattRx (gatt_size st) p).

(** The check and the copy shared by the CONTINUE and the LAST case; the boolean
    is false when the packet was invalidated. *)
Definition sar_append (type : Z) (pkt : list Z) (size : Z) (st : gatt_rx)
    : res (bool * gatt_rx) :=
  t ← rd (gatt_pkt st) 0;
  if negb (t =? type) || (MAX_GATT_SIZE <? gatt_size st + size) then
    st ← sar_invalidate st; mret (false, st)
  else
    data ← rd_range pkt 1 size;
    p ← wr_range (gatt_pkt st) (gatt_size st) data;
    mret (true, GattRx (u8 (gatt_size st + size)) p).

(** [mesh_gatt_sar(&pkt, size)]: the returned size, the buffer [pkt] points to
    afterwards, and the static state. *)
Definition mesh_gatt_sar (pkt : list Z) (size : Z) (st : gatt_rx)
    : res (Z * list Z * gatt_rx) :=
  gatt_hdr ← rd pkt 0;
  let type := Z.land gatt_hdr GATT_TYPE_MASK in
  if size <? 1 then st ← sar_invalidate st; mret (0, pkt, st) else
  let size := size - 1 in
  let sar := Z.land gatt_hdr GATT_SAR_MASK in
  let continue st :=
    '(_, st) ← sar_append type pkt size st; mret (0, pkt, st) in
  let last st :=
    '(good, st) ← sar_append type pkt size st;
    mret (if good : bool then (gatt_size st, gatt_pkt st, st) else (0, pkt, st)) in
  if sar =? GATT_SAR_FIRST then sar_begin type st ≫= continue
  else if sar =? GATT_SAR_CONTINUE then continue st
  else if sar =? GATT_SAR_LAST then last st
  else sar_begin type st ≫= last.

(** Successive notifications; the PDUs handed to the upper layer, in order. *)
Fixpoint gatt_rx_all (frames : list (list Z)) (st : gatt_rx)
    : res (list (list Z) * gatt_rx) :=
  match frames with
  | [] => mret ([], st)
  | f :: fs =>
      '(n, p, st) ← mesh_gatt_sar f (len f) st;
      '(out, st) ← gatt_rx_all fs st;
      if n =? 0 then mret (out, st) else
      pdu ← rd_range p 0 n; mret (pdu :: out, st)
  end.

(** ** Segmentation *)

(** [uint8_t max_len] *)
Definition pipe_max_len (write_mtu : Z) : Z :=
  u8 (if truth write_mtu then write_mtu - 3 - 1 else GATT_MTU - 3 - 1).

(** The [while (1)] loop of [pipe_write]: [base] and [ilen] are [data->iov],
    [glen] is [data->gatt_len].  The frames are those [io_send] accepted; the
    boolean is false when a send failed (and the callback did not run). *)
Fixpoint pipe_loop (fuel : nat) (ok : nat -> bool) (k : nat) (data : list Z)
    (max_len sar glen base ilen : Z) : res (bool * list (list Z)) :=
  match fuel with
  | O => Fault OutOfFuel
  | S fuel' =>
      chunk ← rd_range data base ilen;
      if negb (ok k) then mret (false, []) else
      let s := Z.land sar GATT_SAR_MASK in
      if (s =? GATT_SAR_FIRST) || (s =? GATT_SAR_CONTINUE) then
        let glen := u8 (glen - max_len) in
        let base := base + max_len in
        let t := Z.land sar GATT_TYPE_MASK in
        '(r, fs) ←
          (if max_len <? glen
           then pipe_loop fuel' ok (S k) data max_len
                  (Z.lor t GATT_SAR_CONTINUE) glen base max_len
           else pipe_loop fuel' ok (S k) data max_len
                  (Z.lor t GATT_SAR_LAST) glen base glen);
        mret (r, (sar :: chunk) :: fs)
      else mret (true, [sar :: chunk])
  end.

(** [pipe_write] on [data->gatt_data] of [data->gatt_len] octets. *)
Definition pipe_write (fuel : nat) (write_mtu : Z) (ok : nat -> bool)
    (data : list Z) (gatt_len : Z) : res (bool * list (list Z)) :=
  let max_len := pipe_max_len write_mtu in
  b0 ← rd data 0;
  let sar := Z.land b0 GATT_TYPE_MASK in
  let ilen := gatt_len - 1 in
  let glen := u8 (gatt_len - 1) in
  if max_len <? glen
  then pipe_loop fuel ok 0 data max_len (Z.lor sar GATT_SAR_FIRST) glen 1 max_len
  else pipe_loop fuel ok 0 data max_len sar glen 1 ilen.

(** The outcome of [mesh_gatt_write]: refused, written through the pipe, or
    queued behind [AcquireWrite]. *)
Inductive gatt_write_result :=
| GwRefused
| GwSent (r : bool) (frames : list (list Z))
| GwAcquire (data : list Z).

Definition mesh_gatt_write (fuel : nat) (write_io : option Z) (ok : nat -> bool)
    (buf : option (list Z)) (n : Z) : res gatt_write_result :=
  match buf with
  | None => mret GwRefused
  | Some buf =>
      if (n =? 0) || (69 <? n) then mret GwRefused else
      data ← rd_range buf 0 n;
      b0 ← rd data 0;
      data ← wr data 0 (Z.land b0 GATT_TYPE_MASK);
      match write_io with
      | Some mtu => '(r, fs) ← pipe_write fuel mtu ok data n; mret (GwSent r fs)
      | None => mret (GwAcquire data)
      end
  end.

(** [acquire_write_reply] with a successful reply: the queued PDU is written
    with the negotiated MTU. *)
Definition acquire_write_reply (fuel : nat) (write_mtu : Z) (ok : nat -> bool)
    (data : list Z) : res (bool * list (list Z)) :=
  pipe_write fuel write_mtu ok data (len data).

(** ** Properties *)

(** The invariant of the static buffer. *)
Definition gatt_rx_ok (st : gatt_rx) : Prop :=
  len (gatt_pkt st) = 67 /\ 0 <= gatt_size st <= MAX_GATT_SIZE.

Section Rx.
Implicit Types (st : gatt_rx) (pkt data : list Z).

Lemma wr_head b v : 0 < len b -> wr b 0 v = Ok (v :: drop 1 b).
Proof.
  intros H. rewrite wr_ok by lia. destruct b as [|x b]; [done|]. simpl.
  by rewrite drop_0.
Qed.

Lemma sar_invalidate_ok st :
  gatt_rx_ok st -> exists st', sar_invalidate st = Ok st' /\ gatt_rx_ok st'.
Proof.
  intros [Hl Hs]. unfold sar_invalidate. rewrite wr_ok by lia. eexists.
  split; [done|]. split; [simpl; by rewrite len_insert | done].
Qed.

Lemma sar_begin_ok type st :
  gatt_rx_ok st ->
  exists st', sar_begin type st = Ok st' /\ gatt_rx_ok st' /\ gatt_size st' = 1 /\
              gatt_pkt st' = type :: drop 1 (gatt_pkt st).
Proof.
  intros [Hl Hs]. unfold sar_begin. rewrite wr_head by lia. eexists.
  split; [done|]. repeat split; simpl; try (unfold MAX_GATT_SIZE; lia).
  unfold len in *. simpl. rewrite length_drop. lia.
Qed.

Lemma sar_append_ok type pkt size st :
  gatt_rx_ok st -> 0 <= size -> 1 + size <= len pkt ->
  exists good st', sar_append type pkt size st = Ok (good, st') /\ gatt_rx_ok st'.
Proof.
  intros Hst Hsz Hp. pose proof Hst as [Hl Hs]. unfold sar_append.
  destruct (rd_ok (gatt_pkt st) 0) as (t & -> & _); [lia|]. simpl.
  case_goal.
  - destruct (sar_invalidate_ok st Hst) as (st' & -> & Hok). eexists _, _. by split.
  - bool_hyps. unfold MAX_GATT_SIZE in *.
    destruct (rd_range_total pkt 1 size) as (m & -> & Hm); [lia..|]. simpl.
    destruct (wr_range_total (gatt_pkt st) (gatt_size st) m) as (p & -> & Hlp);
      [lia..|].
    eexists _, _. split; [done|]. unfold gatt_rx_ok. simpl.
    rewrite u8_small by lia. unfold MAX_GATT_SIZE. lia.
Qed.
End Rx.

(** Reassembly is memory safe.  Whatever notification arrives - any header,
    any length up to the buffer it was read into, in any state the function left
    behind - [mesh_gatt_sar] returns without touching memory outside its static
    67-octet packet or the notification, and keeps the static state within its
    bounds. *)
Theorem gatt_sar_memory_safe pkt size st :
  gatt_rx_ok st -> 0 <= size <= len pkt -> 0 < len pkt ->
  exists n p st', mesh_gatt_sar pkt size st = Ok (n, p, st') /\ gatt_rx_ok st' /\
    0 <= n <= MAX_GATT_SIZE.
Proof.
  intros Hst Hsz Hp. unfold mesh_gatt_sar.
  destruct (rd_ok pkt 0) as (h & -> & _); [lia|]. simpl.
  case_goal; bool_hyps.
  { destruct (sar_invalidate_ok st Hst) as (st' & -> & Hok).
    eexists _, _, _. split; [done|]. unfold MAX_GATT_SIZE. split; [done | lia]. }
  set (type := Z.land h GATT_TYPE_MASK).
  destruct (sar_begin_ok type st Hst) as (st1 & Hb & Hst1 & _).
  assert (Happ : ∀ s, gatt_rx_ok s -> exists good s',
    sar_append type pkt (size - 1) s = Ok (good, s') /\ gatt_rx_ok s').
  { intros s Hs. apply sar_append_ok; [done | lia | lia]. }
  rewrite Hb. repeat case_goal; simpl.
  all: match goal with
       | |- context [sar_append _ _ _ ?s] =>
           destruct (Happ s ltac:(done)) as (good & s' & -> & Hs')
       end.
  all: simpl; try destruct good; eexists _, _, _; split; try done.
  all: split; [done|]; destruct Hs' as [? ?]; unfold MAX_GATT_SIZE in *; lia.
Qed.

(** The values of the segmentation bits. *)
Definition sar_flag (f : Z) : Prop := f = 0 \/ f = 0x40 \/ f = 0x80 \/ f = 0xc0.
Ltac flag := first [done | unfold sar_flag, GATT_SAR_FIRST, GATT_SAR_CONTINUE, GATT_SAR_LAST in *; lia].

Section RoundTrip.
Implicit Types (st : gatt_rx) (t max : Z).

(** The header octet: type and segmentation bits do not interfere. *)
Lemma hdr_sar t f :
  0 <= t < 64 -> sar_flag f -> Z.land (Z.lor t f) GATT_SAR_MASK = f.
Proof.
  intros Ht Hf. unfold GATT_SAR_MASK. destruct Hf as [-> | [-> | [-> | ->]]]; by_evaluation t.
Qed.
Lemma hdr_type t f :
  0 <= t < 64 -> sar_flag f -> Z.land (Z.lor t f) GATT_TYPE_MASK = t.
Proof.
  intros Ht Hf. unfold GATT_TYPE_MASK. destruct Hf as [-> | [-> | [-> | ->]]]; by_evaluation t.
Qed.
Lemma type_range b : is_u8 b -> 0 <= Z.land b GATT_TYPE_MASK < 64.
Proof.
  intros. unfold GATT_TYPE_MASK. change 0x3f with (2 ^ 6 - 1).
  rewrite land_ones_mod by lia. zlia.
Qed.

(** What the receiver holds in the middle of a packet of type [t]: the octets
    [acc] so far, the type among them, and [room] behind them. *)
Definition rx_holds (st : gatt_rx) (t : Z) (acc room : list Z) : Prop :=
  gatt_pkt st = acc ++ room /\ gatt_size st = len acc /\ head acc = Some t /\
  len acc + len room = 67.

Lemma sar_append_eq t h chunk st acc room :
  rx_holds st t acc room -> len acc + len chunk <= MAX_GATT_SIZE ->
  exists room', sar_append t (h :: chunk) (len chunk) st =
    Ok (true, GattRx (len acc + len chunk) ((acc ++ chunk) ++ room')) /\
    rx_holds (GattRx (len acc + len chunk) ((acc ++ chunk) ++ room')) t
      (acc ++ chunk) room'.
Proof.
  intros (Hp & Hs & Hh & Hl) Hmax. unfold MAX_GATT_SIZE in *.
  assert (Hrd : rd (gatt_pkt st) 0 = Ok t).
  { rewrite Hp. destruct acc; [done|]. by injection Hh as ->. }
  destruct (buf_split room (len chunk)) as (r1 & r2 & -> & Hr1).
  { pose proof (len_nonneg chunk). lia. }
  unfold sar_append, MAX_GATT_SIZE. rewrite Hrd, Hs. simpl. rewrite Z.eqb_refl.
  rewrite (proj2 (Z.ltb_ge _ _)) by lia. simpl.
  rewrite (rd_range_end [h] chunk) by done. simpl.
  rewrite Hp, wr_range_mid; [| done | unfold len in *; lia].
  simpl. rewrite u8_small by (pose proof (len_nonneg acc); pose proof (len_nonneg chunk); lia).
  exists r2. rewrite app_assoc. split; [done|].
  unfold rx_holds. rewrite !len_app in *. repeat split; simpl; try lia.
  destruct acc; [done|]. by injection Hh as ->.
Qed.

Lemma gatt_sar_frame t f chunk st :
  0 <= t < 64 -> sar_flag f ->
  mesh_gatt_sar (Z.lor t f :: chunk) (len (Z.lor t f :: chunk)) st =
  (let fin good st : res (Z * list Z * gatt_rx) :=
     mret (if good : bool then (gatt_size st, gatt_pkt st, st)
           else (0, Z.lor t f :: chunk, st)) in
   st ← (if (f =? 0) || (f =? 0x40) then sar_begin t st else mret st);
   '(good, st) ← sar_append t (Z.lor t f :: chunk) (len chunk) st;
   fin (good && ((f =? 0) || (f =? 0xc0))) st).
Proof.
  intros Ht Hf. unfold mesh_gatt_sar. simpl rd. unfold of_option. simpl mbind.
  rewrite hdr_sar, hdr_type, len_cons by done.
  rewrite (proj2 (Z.ltb_ge _ _)) by (pose proof (len_nonneg chunk); lia).
  replace (1 + len chunk - 1) with (len chunk) by lia.
  destruct Hf as [-> | [-> | [-> | ->]]]; simpl.
  1, 2: destruct (sar_begin t st) as [st1 |]; simpl; [|done].
  all: destruct (sar_append _ _ _ _) as [[[] ?] |]; done.
Qed.

Lemma gatt_sar_continue t chunk st acc room :
  0 <= t < 64 -> rx_holds st t acc room -> len acc + len chunk <= MAX_GATT_SIZE ->
  exists room' p st',
    mesh_gatt_sar (Z.lor t 0x80 :: chunk) (len (Z.lor t 0x80 :: chunk)) st =
      Ok (0, p, st') /\ rx_holds st' t (acc ++ chunk) room'.
Proof.
  intros Ht Hst Hmax. rewrite gatt_sar_frame by flag. simpl.
  destruct (sar_append_eq t (Z.lor t 128) chunk st acc room Hst Hmax)
    as (room' & -> & Hst'). simpl. eauto.
Qed.

Lemma gatt_sar_last t chunk st acc room :
  0 <= t < 64 -> rx_holds st t acc room -> len acc + len chunk <= MAX_GATT_SIZE ->
  exists room' st',
    mesh_gatt_sar (Z.lor t 0xc0 :: chunk) (len (Z.lor t 0xc0 :: chunk)) st =
      Ok (len (acc ++ chunk), (acc ++ chunk) ++ room', st') /\
    rx_holds st' t (acc ++ chunk) room'.
Proof.
  intros Ht Hst Hmax. rewrite gatt_sar_frame by flag. simpl.
  destruct (sar_append_eq t (Z.lor t 192) chunk st acc room Hst Hmax)
    as (room' & -> & Hst'). simpl. rewrite len_app. eauto.
Qed.

(** A fresh packet: [sar_begin] leaves the type octet alone in the buffer. *)
Lemma sar_begin_holds t st :
  gatt_rx_ok st -> exists st' room, sar_begin t st = Ok st' /\ rx_holds st' t [t] room.
Proof.
  intros Hst. destruct (sar_begin_ok t st Hst) as (st' & -> & [Hl _] & Hs & Hp).
  exists st', (drop 1 (gatt_pkt st)). rewrite Hp in Hl. rewrite len_cons in Hl.
  split; [done|]. by repeat split.
Qed.

(** The frames after the first: the sender is in the middle of the PDU
    [pre ++ rem] and the receiver holds [acc]. *)
Lemma pipe_rest fuel max t : 0 <= t < 64 -> 0 < max -> ∀ pre rem k st acc room,
  0 < len rem < Z.of_nat fuel -> rx_holds st t acc room ->
  len acc + len rem <= MAX_GATT_SIZE ->
  exists frames st',
    pipe_loop fuel (fun _ => true) k (pre ++ rem) max
      (Z.lor t (if max <? len rem then 0x80 else 0xc0)) (len rem) (len pre)
      (if max <? len rem then max else len rem) = Ok (true, frames) /\
    Forall (fun f => len f <= 1 + max) frames /\
    gatt_rx_all frames st = Ok ([acc ++ rem], st').
Proof.
  intros Ht Hmax. induction fuel as [|fuel IH]; intros pre rem k st acc room Hr Hst Hsz;
    [lia|]. simpl pipe_loop. unfold MAX_GATT_SIZE in *. pose proof (len_nonneg acc).
  destruct (Z.ltb_spec max (len rem)) as [Hlt | Hge].
  - destruct (buf_split rem max) as (c & rem' & -> & Hc); [lia|].
    rewrite len_app in *. rewrite (rd_range_mid pre c rem') by done. simpl.
    rewrite hdr_sar, hdr_type by flag. simpl.
    replace (u8 (len c + len rem' - max)) with (len rem') by (rewrite u8_small; lia).
    destruct (gatt_sar_continue t c st acc room) as (room' & p & st1 & Hf & Hst1);
      [done | done | unfold MAX_GATT_SIZE; lia |].
    destruct (IH (pre ++ c) rem' (S k) st1 (acc ++ c) room') as (fs & st' & Hl & Hfs & Hrx);
      [lia | done | rewrite len_app; lia |].
    rewrite <-app_assoc in Hl. rewrite len_app, Hc in Hl.
    exists ((Z.lor t 0x80 :: c) :: fs), st'. split; [|split].
    + unfold GATT_SAR_CONTINUE, GATT_SAR_LAST. destruct (max <? len rem'); by rewrite Hl.
    + constructor; [rewrite len_cons; lia | done].
    + simpl gatt_rx_all. rewrite Hf. simpl. by rewrite Hrx, <-app_assoc.
  - rewrite (rd_range_end pre rem) by done. simpl.
    rewrite hdr_sar by flag. simpl.
    destruct (gatt_sar_last t rem st acc room) as (room' & st1 & Hf & Hst1);
      [done | done | unfold MAX_GATT_SIZE; lia |].
    exists [Z.lor t 0xc0 :: rem], st1. split; [done | split].
    + repeat constructor. rewrite len_cons. lia.
    + simpl gatt_rx_all. rewrite Hf. simpl.
      rewrite (proj2 (Z.eqb_neq _ _)) by (rewrite len_app; lia).
      by rewrite rd_range_begin.
Qed.
End RoundTrip.

(** The round trip for any sufficient fuel. *)
Lemma gatt_write_read_fuel fuel mtu t body st :
  0 <= t < 64 -> len body <= 65 -> len body < Z.of_nat fuel ->
  0 < pipe_max_len mtu -> gatt_rx_ok st ->
  exists frames st',
    pipe_write (S fuel) mtu (fun _ => true) (t :: body) (len (t :: body)) =
      Ok (true, frames) /\
    Forall (fun f => len f <= 1 + pipe_max_len mtu) frames /\
    gatt_rx_all frames st = Ok ([t :: body], st').
Proof.
  intros Ht Hb Hfuel Hmax Hst. set (max := pipe_max_len mtu) in *. unfold pipe_write.
  pose proof (len_nonneg body).
  change (rd (t :: body) 0) with (Ok t). cbn [mbind res_bind]. fold max.
  rewrite !len_cons. replace (1 + len body - 1) with (len body) by lia.
  rewrite u8_small by lia.
  replace (Z.land t GATT_TYPE_MASK) with t
    by (symmetry; unfold GATT_TYPE_MASK; by_evaluation t).
  destruct (sar_begin_holds t st Hst) as (st1 & room & Hbeg & Hst1).
  destruct (Z.ltb_spec max (len body)) as [Hlt | Hge].
  - destruct (buf_split body max) as (c & rem & -> & Hc); [lia|].
    rewrite len_app in *. rewrite app_comm_cons. cbn [pipe_loop].
    rewrite (rd_range_mid [t] c rem) by done. simpl.
    rewrite hdr_sar, hdr_type by flag. simpl.
    replace (u8 (len c + len rem - max)) with (len rem) by (rewrite u8_small; lia).
    destruct (sar_append_eq t (Z.lor t 64) c st1 [t] room) as (room2 & Happ & Hst2);
      [done | unfold MAX_GATT_SIZE, len; simpl; unfold len in *; lia |].
    destruct (pipe_rest fuel max t Ht Hmax (t :: c) rem 1 _ _ _ ltac:(lia) Hst2)
      as (fs & st' & Hl & Hfs & Hrx).
    { unfold MAX_GATT_SIZE. simpl. rewrite len_cons. lia. }
    rewrite len_cons, Hc in Hl. simpl app in Hl.
    exists ((Z.lor t 0x40 :: c) :: fs), st'. split; [|split].
    + unfold GATT_SAR_CONTINUE, GATT_SAR_LAST. destruct (max <? len rem); by rewrite Hl.
    + constructor; [rewrite len_cons; lia | done].
    + simpl gatt_rx_all. rewrite gatt_sar_frame by flag. simpl.
      rewrite Hbeg. simpl. rewrite Happ. simpl in *. by rewrite Hrx.
  - cbn [pipe_loop]. rewrite (rd_range_end [t] body) by done. simpl.
    replace (Z.land t GATT_SAR_MASK) with 0
      by (symmetry; unfold GATT_SAR_MASK; by_evaluation t). simpl.
    destruct (sar_append_eq t t body st1 [t] room) as (room2 & Happ & Hst2);
      [done | unfold MAX_GATT_SIZE, len; simpl; unfold len in *; lia |].
    eexists [t :: body], _. split; [done | split].
    + repeat constructor. rewrite len_cons. lia.
    + pose proof (gatt_sar_frame t 0 body st Ht) as Hf. rewrite Z.lor_0_r in Hf.
      simpl gatt_rx_all. rewrite Hf by flag. simpl.
      rewrite Hbeg. simpl. rewrite Happ. simpl. change (len [t]) with 1.
      rewrite (proj2 (Z.eqb_neq _ _)) by lia.
      by rewrite app_comm_cons, rd_range_begin by (rewrite len_cons; done).
Qed.

(** Segmentation and reassembly are inverse.  Every PDU of 1 to 66 octets
    whose head is a proxy PDU type, written with any MTU that leaves room for at
    least one payload octet, is cut into frames of at most [max_len + 1] octets
    in finitely many iterations, and the peer running [mesh_gatt_sar] on those
    frames - from any state, so whatever was pending before - delivers exactly
    that PDU, once, after the last frame. *)
Theorem gatt_write_read mtu t body st :
  0 <= t < 64 -> len body <= 65 -> 0 < pipe_max_len mtu -> gatt_rx_ok st ->
  exists frames st',
    pipe_write 67 mtu (fun _ => true) (t :: body) (len (t :: body)) = Ok (true, frames) /\
      Forall (fun f => len f <= 1 + pipe_max_len mtu) frames /\
      gatt_rx_all frames st = Ok ([t :: body], st').
Proof. intros. apply (gatt_write_read_fuel 66); [done.. | lia | done | done]. Qed.

Lemma gatt_write_read_witness :
  exists frames st',
    pipe_write 67 23 (fun _ => true) (3 :: rep 65 7) (len (3 :: rep 65 7)) =
      Ok (true, frames) /\
    Forall (fun f => len f <= 1 + pipe_max_len 23) frames /\
    gatt_rx_all frames gatt_rx_init = Ok ([3 :: rep 65 7], st').
Proof.
  apply (gatt_write_read 23 3 (rep 65 7) gatt_rx_init); [lia | by vm_compute.. |].
  split; [by vm_compute | by vm_compute].
Defined.

Lemma gatt_sar_memory_safe_witness :
  exists n p st', mesh_gatt_sar [0xc0; 1; 2] 3 gatt_rx_init = Ok (n, p, st') /\
    gatt_rx_ok st' /\ 0 <= n <= MAX_GATT_SIZE.
Proof.
  apply (gatt_sar_memory_safe [0xc0; 1; 2] 3 gatt_rx_init);
    [split; by vm_compute | by vm_compute.. ].
Defined.

(** *** Where the bearer departs from the profile *)

Lemma pipe_loop_stuck fuel ok k data t base glen f :
  (∀ k, ok k = true) -> 0 <= base <= len data -> 0 <= t < 64 -> 0 < glen < 256 ->
  f = 0x40 \/ f = 0x80 ->
  pipe_loop fuel ok k data 0 (Z.lor t f) glen base 0 = Fault OutOfFuel.
Proof.
  intros Hok Hb Ht Hg Hf. revert k f Hf.
  induction fuel as [|fuel IH]; intros k f Hf; [done|]. cbn [pipe_loop].
  rewrite rd_range_ok by lia. simpl. rewrite Hok.
  assert (Hin : sar_flag f) by flag.
  rewrite hdr_sar, hdr_type by done.
  replace ((f =? GATT_SAR_FIRST) || (f =? GATT_SAR_CONTINUE)) with true
    by (by destruct Hf as [-> | ->]).
  rewrite Z.sub_0_r, Z.add_0_r, u8_small by lia.
  rewrite (proj2 (Z.ltb_lt 0 glen)) by lia. unfold GATT_SAR_CONTINUE. simpl.
  by rewrite IH by auto.
Qed.

(** An MTU of 4 octets modulo 256 makes [pipe_write] loop for ever.  The
    frame size is kept in a [uint8_t], so an MTU such as 260 leaves a payload of
    0 octets; with any non-empty PDU and a socket that accepts every write, no
    number of iterations completes the loop. *)
Theorem pipe_write_diverges mtu t body fuel :
  pipe_max_len mtu = 0 -> 0 <= t < 64 -> 0 < len body < 256 ->
  pipe_write fuel mtu (fun _ => true) (t :: body) (len (t :: body)) = Fault OutOfFuel.
Proof.
  intros Hmax Ht Hb. unfold pipe_write. change (rd (t :: body) 0) with (Ok t).
  cbn [mbind res_bind]. rewrite Hmax, len_cons.
  replace (u8 (1 + len body - 1)) with (len body) by (rewrite u8_small; lia).
  rewrite (proj2 (Z.ltb_lt _ _)) by lia.
  apply pipe_loop_stuck; [done | rewrite len_cons; lia | | done | auto].
  unfold GATT_TYPE_MASK. change 63 with (2 ^ 6 - 1). rewrite land_ones_mod by lia. zlia.
Qed.

Lemma pipe_write_diverges_witness :
  pipe_max_len 260 = 0 /\
  pipe_write 1000 260 (fun _ => true) (0 :: rep 20 1) (len (0 :: rep 20 1)) =
    Fault OutOfFuel.
Proof.
  split; [done|].
  apply (pipe_write_diverges 260 0 (rep 20 1) 1000); [done | lia | by vm_compute].
Defined.

(** A stray final segment is delivered.  After a complete PDU has been
    received, a LAST segment of the same type that no FIRST segment opened is
    appended to the PDU already delivered, and the concatenation is delivered as
    a new PDU. *)
Theorem gatt_stray_last t a b st :
  0 <= t < 64 -> gatt_rx_ok st -> len a + len b <= 65 ->
  exists st', gatt_rx_all [t :: a; Z.lor t GATT_SAR_LAST :: b] st =
    Ok ([t :: a; t :: a ++ b], st').
Proof.
  intros Ht Hst Hl. pose proof (len_nonneg a). pose proof (len_nonneg b).
  destruct (sar_begin_holds t st Hst) as (st1 & room & Hbeg & Hst1).
  destruct (sar_append_eq t t a st1 [t] room) as (room2 & Happ & Hst2);
    [done | unfold MAX_GATT_SIZE; rewrite len_cons; change (len []) with 0; lia |].
  pose proof (gatt_sar_frame t 0 a st Ht) as Hf. rewrite Z.lor_0_r in Hf.
  simpl gatt_rx_all. rewrite Hf by flag. simpl. rewrite Hbeg. simpl. rewrite Happ. simpl.
  destruct (gatt_sar_last t b _ _ _ Ht Hst2) as (room3 & st3 & Hlast & _);
    [simpl; rewrite len_cons; unfold MAX_GATT_SIZE; lia|].
  unfold GATT_SAR_LAST. simpl in Hlast. rewrite Hlast. simpl.
  change (len [t]) with 1. rewrite (proj2 (Z.eqb_neq (1 + len a) 0)) by lia.
  rewrite (app_comm_cons (a ++ b) room3), (rd_range_begin (t :: a ++ b)) by done. simpl.
  rewrite (app_comm_cons a room2), (rd_range_begin (t :: a)) by (by rewrite len_cons).
  simpl. eauto.
Qed.

Lemma gatt_stray_last_witness :
  exists st', gatt_rx_all [[0; 1]; [0xc0; 2]] gatt_rx_init = Ok ([[0; 1]; [0; 1; 2]], st').
Proof.
  apply (gatt_stray_last 0 [1] [2] gatt_rx_init);
    [lia | split; by vm_compute | by vm_compute].
Defined.
