(* ===== verification/AddrPool.v ===== *)
(** * The pool of unicast addresses

    The address pool of [src/blueZ/mesh/net.c] from which the provisioner
    assigns element addresses: a list of 32-bit words, each a range with the
    lowest address in its lower half and the highest in its upper half. *)

From S2P Require Import Prelude.

(** ** Ranges *)

(** [min + (max << 16)], stored through [GUINT_TO_POINTER]. *)
Definition mk_range (min max : Z) : Z := u32 (min + max * 0x10000).
(** [uint16_t max = range >> 16; uint16_t min = range & 0xffff;] *)
Definition range_max (range : Z) : Z := u16 (Z.shiftr range 16).
Definition range_min (range : Z) : Z := Z.land range 0xffff.

Definition UNASSIGNED_ADDRESS : Z := 0.

(** ** Operations *)

Definition net_add_address_pool (min max : Z) (pool : list Z) : bool * list Z :=
  if max <? min then (false, pool) else (true, pool ++ [mk_range min max]).

Definition match_address_range (num_elements range : Z) : bool :=
  u8 num_elements - 1 <=? range_max range - range_min range.

Definition net_obtain_address (num_eles : Z) (pool : list Z) : Z * list Z :=
  match find_first (match_address_range num_eles) pool with
  | Some range =>
      let max := range_max range in
      let addr := range_min range in
      let min := u16 (range_min range + num_eles) in
      if max <? min then (addr, remove_first (match_address_range num_eles) pool)
      else (addr, update_first (match_address_range num_eles)
                    (fun _ => mk_range min max) pool)
  | None => (UNASSIGNED_ADDRESS, pool)
  end.

(** [range2 - range1] on unsigned words, returned as an [int]. *)
Definition range_cmp (range1 range2 : Z) : Z := s32 (range2 - range1).

(** The test and the update of the loop of [net_release_address]: the range the
    released block is merged into, if any. *)
Definition release_merge (addr num_elements range : Z) : option Z :=
  let max := range_max range in
  let min := range_min range in
  if min =? addr + num_elements + 1 then Some (mk_range addr max)
  else if truth addr && (max =? addr - 1)
  then Some (mk_range min (u16 (addr + num_elements + 1)))
  else None.

Definition release_merges (addr num_elements range : Z) : bool :=
  match release_merge addr num_elements range with Some _ => true | None => false end.

Definition net_release_address (addr num_elements : Z) (pool : list Z) : list Z :=
  if existsb (release_merges addr num_elements) pool then
    update_first (release_merges addr num_elements)
      (fun r => default r (release_merge addr num_elements r)) pool
  else
    insert_sorted range_cmp (u32 (addr + (addr + num_elements - 1) * 0x10000)) pool.

Definition reserve_match (base num_elements range : Z) : bool :=
  (range_min range <=? base) && (base + num_elements - 1 <=? range_max range).

Definition net_reserve_address_range (base num_elements : Z) (pool : list Z)
    : bool * list Z :=
  match find_first (reserve_match base num_elements) pool with
  | None => (false, pool)
  | Some range =>
      let pool := remove_first (reserve_match base num_elements) pool in
      let at_min := base =? range_min range in
      let min := if at_min then u16 (base + num_elements) else range_min range in
      let at_max := range_max range =? base + num_elements - 1 in
      let max := if at_max then u16 (range_max range - num_elements)
                 else range_max range in
      let shrink := at_min || at_max in
      if max <? min then (true, pool) else
      let range := if shrink then mk_range min max else mk_range min (base - 1) in
      let pool := insert_sorted range_cmp range pool in
      if shrink then (true, pool) else
      (true, insert_sorted range_cmp (mk_range (base + num_elements) max) pool)
  end.

(** ** Accounting *)

Definition in_range (a range : Z) : bool :=
  (range_min range <=? a) && (a <=? range_max range).
Definition in_block (a base n : Z) : bool := (base <=? a) && (a <? base + n).

(** How many ranges of the pool hold an address. *)
Fixpoint cover (pool : list Z) (a : Z) : Z :=
  match pool with [] => 0 | r :: l => b2z (in_range a r) + cover l a end.

(** A range of unicast addresses. *)
Definition range_ok (r : Z) : Prop :=
  is_u32 r /\ 0 < range_min r /\ range_min r <= range_max r < 0x8000.
Definition pool_ok (pool : list Z) : Prop := Forall range_ok pool.

#[export] Instance range_ok_dec r : Decision (range_ok r).
Proof. unfold range_ok. apply _. Defined.
#[export] Instance pool_ok_dec pool : Decision (pool_ok pool).
Proof. unfold pool_ok. apply _. Defined.

Section Lemmas.
Implicit Types (pool : list Z) (r a n : Z).

Lemma range_min_eq r : is_u32 r -> range_min r = r mod 0x10000.
Proof.
  intros. unfold range_min. change 0xffff with (2 ^ 16 - 1).
  by rewrite land_ones_mod by lia.
Qed.
Lemma range_max_eq r : is_u32 r -> range_max r = r / 0x10000.
Proof.
  intros. unfold range_max, u16. rewrite Z.shiftr_div_pow2 by lia.
  change (2 ^ 16) with 0x10000. zlia.
Qed.

Lemma mk_range_u32 min max : is_u32 (mk_range min max).
Proof. apply u32_range. Qed.
Lemma mk_range_min min max : is_u16 min -> range_min (mk_range min max) = min.
Proof.
  intros. rewrite range_min_eq by apply mk_range_u32. unfold mk_range, u32. zlia.
Qed.
Lemma mk_range_max min max :
  is_u16 min -> is_u16 max -> range_max (mk_range min max) = max.
Proof.
  intros. rewrite range_max_eq by apply mk_range_u32. unfold mk_range.
  rewrite u32_small by lia. zlia.
Qed.

Lemma mk_range_ok min max :
  0 < min -> min <= max < 0x8000 -> range_ok (mk_range min max).
Proof.
  intros. split; [apply mk_range_u32|].
  rewrite mk_range_min, mk_range_max by lia. lia.
Qed.

Lemma in_range_mk a min max :
  is_u16 min -> is_u16 max ->
  in_range a (mk_range min max) = (min <=? a) && (a <=? max).
Proof. intros. unfold in_range. by rewrite mk_range_min, mk_range_max. Qed.

Lemma cover_perm pool1 pool2 a : pool1 ≡ₚ pool2 -> cover pool1 a = cover pool2 a.
Proof. induction 1; simpl; lia. Qed.

Lemma cover_app pool1 pool2 a :
  cover (pool1 ++ pool2) a = cover pool1 a + cover pool2 a.
Proof. induction pool1; simpl; lia. Qed.

Lemma cover_insert_sorted cmp r pool a :
  cover (insert_sorted cmp r pool) a = b2z (in_range a r) + cover pool a.
Proof. by rewrite (cover_perm _ _ a (insert_sorted_perm cmp r pool)). Qed.

Lemma cover_remove_first p pool r a :
  find_first p pool = Some r ->
  cover (remove_first p pool) a + b2z (in_range a r) = cover pool a.
Proof.
  unfold find_first. induction pool as [|x pool IH]; simpl; [done|].
  destruct (p x); [intros [= ->]; lia | intros H; specialize (IH H); simpl; lia].
Qed.

Lemma cover_update_first p f pool r a :
  find_first p pool = Some r ->
  cover (update_first p f pool) a + b2z (in_range a r) =
  cover pool a + b2z (in_range a (f r)).
Proof.
  unfold find_first. induction pool as [|x pool IH]; simpl; [done|].
  destruct (p x); simpl; [intros [= ->]; lia | intros H; specialize (IH H); lia].
Qed.

Lemma pool_ok_find p pool r : pool_ok pool -> find_first p pool = Some r -> range_ok r.
Proof.
  intros Hok Hf. apply find_first_some in Hf as [Hin _].
  by apply (Forall_forall range_ok pool).
Qed.
Lemma pool_ok_remove p pool : pool_ok pool -> pool_ok (remove_first p pool).
Proof.
  intros H. induction H as [|x pool Hx H IH]; simpl; [constructor|].
  destruct (p x); [done | by constructor].
Qed.
Lemma pool_ok_update p f pool :
  (∀ r, range_ok r -> p r = true -> range_ok (f r)) ->
  pool_ok pool -> pool_ok (update_first p f pool).
Proof.
  intros Hf H. induction H as [|x pool Hx H IH]; simpl; [constructor|].
  destruct (p x) eqn:E; constructor; auto.
Qed.
Lemma pool_ok_insert cmp r pool :
  range_ok r -> pool_ok pool -> pool_ok (insert_sorted cmp r pool).
Proof.
  intros Hr H. unfold pool_ok. rewrite insert_sorted_perm. by constructor.
Qed.
End Lemmas.

(** ** Properties *)

(** Assignment of addresses.  On a pool of unicast ranges and for a device
    of 1 to 255 elements, [net_obtain_address] either returns a block of
    consecutive unicast addresses and takes exactly those addresses out of the
    pool - every address is held by one range less if it is in the block and by
    as many as before otherwise - or returns 0, leaves the pool alone, and no
    range of the pool has room for the block.  The pool stays well formed. *)
Theorem obtain_address_accounting pool n :
  pool_ok pool -> 1 <= n <= 255 ->
  let '(addr, pool') := net_obtain_address n pool in
  pool_ok pool' /\
  (if addr =? UNASSIGNED_ADDRESS
   then pool' = pool /\ Forall (fun r => range_max r - range_min r < n - 1) pool
   else 0 < addr /\ addr + n <= 0x8000 /\
        ∀ a, cover pool' a + b2z (in_block a addr n) = cover pool a).
Proof.
  intros Hok Hn. unfold net_obtain_address, UNASSIGNED_ADDRESS.
  destruct (find_first _ pool) as [r|] eqn:Hf.
  - pose proof (pool_ok_find _ _ _ Hok Hf) as Hr. pose proof Hr as (Hu & Hmin & Hmax).
    pose proof (find_first_some _ _ _ Hf) as [_ Hm].
    unfold match_address_range in Hm. rewrite u8_small in Hm by lia. bool_hyps.
    rewrite (u16_small (range_min r + n)) by lia.
    destruct (Z.ltb_spec (range_max r) (range_min r + n)).
    + rewrite (proj2 (Z.eqb_neq _ _)) by lia.
      split; [by apply pool_ok_remove|]. split; [done|]. split; [lia|]. intros a.
      rewrite <-(cover_remove_first _ _ _ a Hf). do 2 f_equal.
      unfold in_block, in_range. zbool.
    + rewrite (proj2 (Z.eqb_neq _ _)) by lia.
      split; [|split; [done | split; [lia|]]].
      * apply pool_ok_update; [|done]. intros _ _ _. apply mk_range_ok; lia.
      * intros a.
        pose proof (cover_update_first (match_address_range n)
          (fun _ => mk_range (range_min r + n) (range_max r)) _ _ a Hf) as Hc.
        cbv beta in Hc. rewrite in_range_mk in Hc by lia.
        unfold in_block, in_range in *. zbool.
  - simpl. split; [done|]. split; [done|].
    apply find_first_none in Hf. eapply Forall_impl; [exact Hf|]. intros r Hm.
    unfold match_address_range in Hm. rewrite u8_small in Hm by lia. bool_hyps. lia.
Qed.

Lemma obtain_address_accounting_witness :
  let '(addr, pool') := net_obtain_address 4 [mk_range 0x100 0x101; mk_range 0x200 0x7fff] in
  pool_ok pool' /\
  (if addr =? UNASSIGNED_ADDRESS
   then pool' = [mk_range 0x100 0x101; mk_range 0x200 0x7fff] /\
        Forall (fun r => range_max r - range_min r < 4 - 1)
          [mk_range 0x100 0x101; mk_range 0x200 0x7fff]
   else 0 < addr /\ addr + 4 <= 0x8000 /\
        ∀ a, cover pool' a + b2z (in_block a addr 4) =
             cover [mk_range 0x100 0x101; mk_range 0x200 0x7fff] a).
Proof.
  apply (obtain_address_accounting [mk_range 0x100 0x101; mk_range 0x200 0x7fff] 4);
    [by apply (bool_decide_unpack _); vm_compute | lia].
Defined.

(** Reservation of a block in use.  For a block of 1 to 255 unicast
    addresses, [net_reserve_address_range] answers true exactly when one range of
    the pool contains the whole block; it then takes exactly the block out of the
    pool - shrinking, splitting or dropping the range - and otherwise leaves the
    pool alone.  The pool stays well formed. *)
Theorem reserve_range_accounting pool base n :
  pool_ok pool -> 1 <= n <= 255 -> 0 < base -> base + n <= 0x8000 ->
  let '(ok, pool') := net_reserve_address_range base n pool in
  ok = existsb (reserve_match base n) pool /\ pool_ok pool' /\
  (if ok then ∀ a, cover pool' a + b2z (in_block a base n) = cover pool a
   else pool' = pool).
Proof.
  intros Hok Hn Hbase Hmaxb. unfold net_reserve_address_range.
  rewrite existsb_find_first. destruct (find_first _ pool) as [r|] eqn:Hf; [|done].
  pose proof (pool_ok_find _ _ _ Hok Hf) as (Hu & Hmin & Hmax).
  pose proof (find_first_some _ _ _ Hf) as [_ Hm]. unfold reserve_match in Hm. bool_hyps.
  assert (Hrem : ∀ a, cover (remove_first (reserve_match base n) pool) a =
    cover pool a - b2z ((range_min r <=? a) && (a <=? range_max r))).
  { intros a. pose proof (cover_remove_first _ _ _ a Hf). unfold in_range in *. lia. }
  pose proof (pool_ok_remove (reserve_match base n) _ Hok).
  rewrite !u16_small by lia. unfold in_block.
  destruct (Z.eqb_spec base (range_min r)), (Z.eqb_spec (range_max r) (base + n - 1)).
  all: cbn [orb]; match goal with |- context [?x <? ?y] => destruct (Z.ltb_spec x y) end.
  all: try (exfalso; clear Hrem; lia).
  all: split; [done|].
  all: split; [repeat (apply pool_ok_insert; [apply mk_range_ok; lia|]); done | intros a].
  all: rewrite ?cover_insert_sorted, ?in_range_mk, Hrem by lia; clear Hrem; zbool.
Qed.

Lemma reserve_range_accounting_witness :
  let '(ok, pool') := net_reserve_address_range 0x180 4 [mk_range 0x100 0x1ff] in
  ok = existsb (reserve_match 0x180 4) [mk_range 0x100 0x1ff] /\ pool_ok pool' /\
  (if ok then ∀ a, cover pool' a + b2z (in_block a 0x180 4) = cover [mk_range 0x100 0x1ff] a
   else pool' = [mk_range 0x100 0x1ff]).
Proof.
  apply (reserve_range_accounting [mk_range 0x100 0x1ff] 0x180 4);
    [by apply (bool_decide_unpack _); vm_compute | lia | lia | lia].
Defined.

(** What a release does to the number of ranges that hold an address: the block
    is [n] addresses long, but a merge with a neighbouring range claims more. *)
Definition released_length (pool : list Z) (addr n : Z) : Z :=
  match find_first (release_merges addr n) pool with
  | None => n
  | Some r => if range_min r =? addr + n + 1 then n + 1 else n + 2
  end.

Lemma release_merge_spec addr n r :
  0 < addr -> 1 <= n -> addr + n + 2 <= 0x8000 ->
  release_merge addr n r =
  if range_min r =? addr + n + 1 then Some (mk_range addr (range_max r))
  else if range_max r =? addr - 1 then Some (mk_range (range_min r) (addr + n + 1))
  else None.
Proof.
  intros. unfold release_merge. rewrite u16_small by lia.
  by rewrite (proj2 (truth_true addr)) by lia.
Qed.

(** Release of a block.  After [net_release_address] on a well-formed pool,
    exactly the addresses of the block are held once more if no range of the pool
    is merged; a merge with the range that starts at [addr + n + 1] also claims
    the address [addr + n], and a merge with the range that ends at [addr - 1]
    also claims [addr + n] and [addr + n + 1], whoever uses them. *)
Theorem release_accounting pool addr n :
  pool_ok pool -> 1 <= n <= 255 -> 0 < addr -> addr + n + 2 <= 0x8000 ->
  pool_ok (net_release_address addr n pool) /\
  ∀ a, cover (net_release_address addr n pool) a =
       cover pool a + b2z (in_block a addr (released_length pool addr n)).
Proof.
  intros Hok Hn Ha Hmax. unfold net_release_address, released_length.
  rewrite existsb_find_first. destruct (find_first _ pool) as [r|] eqn:Hf.
  - pose proof (pool_ok_find _ _ _ Hok Hf) as Hr. destruct Hr as (Hu & Hmin & Hrmax).
    pose proof (find_first_some _ _ _ Hf) as [_ Hm].
    split.
    + apply pool_ok_update; [|done]. intros r' (Hu' & Hmin' & Hmax') Hm'.
      unfold release_merges in Hm'. rewrite release_merge_spec in * by lia.
      destruct (Z.eqb_spec (range_min r') (addr + n + 1)); [apply mk_range_ok; lia|].
      destruct (Z.eqb_spec (range_max r') (addr - 1)); [apply mk_range_ok; lia | done].
    + intros a.
      pose proof (cover_update_first _ (fun r => default r (release_merge addr n r))
        _ _ a Hf) as Hc. cbv beta in Hc.
      unfold release_merges in Hm. rewrite release_merge_spec in Hm, Hc by lia.
      destruct (Z.eqb_spec (range_min r) (addr + n + 1));
        [|destruct (Z.eqb_spec (range_max r) (addr - 1)); [|done]];
        simpl in Hc; rewrite in_range_mk in Hc by lia;
        unfold in_range, in_block in *; clear Hm; zbool.
  - change (addr + (addr + n - 1) * 65536) with (addr + (addr + n - 1) * 0x10000).
    change (u32 _) with (mk_range addr (addr + n - 1)).
    split; [apply pool_ok_insert; [apply mk_range_ok; lia | done]|]. intros a.
    rewrite cover_insert_sorted, in_range_mk by lia. unfold in_block. zbool.
Qed.

Lemma release_accounting_witness :
  pool_ok (net_release_address 0x100 2 [mk_range 0x103 0x7fff]) /\
  ∀ a, cover (net_release_address 0x100 2 [mk_range 0x103 0x7fff]) a =
       cover [mk_range 0x103 0x7fff] a +
       b2z (in_block a 0x100 (released_length [mk_range 0x103 0x7fff] 0x100 2)).
Proof.
  apply (release_accounting [mk_range 0x103 0x7fff] 0x100 2);
    [by apply (bool_decide_unpack _); vm_compute | lia | lia | lia].
Defined.

(** An address can be assigned twice.  Three devices are provisioned from
    one range and the first leaves the network: the first range is merged over
    the address of the second device, and the next device of three elements is
    given a block that contains that address while it is still in use. *)
Theorem release_reassigns_live_address :
  let pool0 := [mk_range 0x100 0x7fff] in
  let '(dev1, pool1) := net_obtain_address 2 pool0 in
  let '(dev2, pool2) := net_obtain_address 1 pool1 in
  let pool3 := net_release_address dev1 2 pool2 in
  let '(dev3, pool4) := net_obtain_address 3 pool3 in
  dev2 = 0x102 /\ in_block dev2 dev3 3 = true.
Proof. by vm_compute. Qed.
