(* ===== verification/Alg.v ===== *)
(** * The kernel's cryptographic sockets

    [src/blueZ/mesh/crypto.c] reaches AES through AF_ALG sockets.  The kernel is
    not part of the sources: a backend is a parameter, a pair of functions that
    may fail, with the documented properties of AES-128 in ECB mode and of
    AES-CMAC as laws. *)

From S2P Require Import Prelude Bytes.

(** [alg_ecb key block] and [alg_cmac key msg]: [None] where a socket call
    fails. *)
Class Alg := {
  alg_ecb : list Z -> list Z -> option (list Z);
  alg_cmac : list Z -> list Z -> option (list Z);
}.

(** What a successful call returns: sixteen octets. *)
Class AlgOk (A : Alg) : Prop := {
  alg_ecb_block k p c : alg_ecb k p = Some c -> len c = 16 /\ bytes c;
  alg_cmac_block k m c : alg_cmac k m = Some c -> len c = 16 /\ bytes c;
}.

(** A backend whose calls succeed on arguments of the right size. *)
Class AlgTotal (A : Alg) : Prop := {
  alg_ecb_total k p : len k = 16 -> len p = 16 -> is_Some (alg_ecb k p);
  alg_cmac_total k m : len k = 16 -> is_Some (alg_cmac k m);
}.

(** ** A concrete backend

    Not a cipher: it adds the octets of key and block.  It satisfies the laws,
    so theorems about every backend can be exercised by evaluation. *)
Definition toy_block (k p : list Z) : list Z :=
  (fun i => (nth i k 0 + nth i p 0 + 7 * Z.of_nat i) mod 0x100) <$> seq 0 16.

Fixpoint toy_fold (k m acc : list Z) (n : nat) : list Z :=
  match n with
  | O => acc
  | S n' =>
      match m with
      | [] => acc
      | _ => toy_fold k (drop 16 m) (toy_block k (toy_block acc (take 16 m))) n'
      end
  end.

Definition toy_mac (k m : list Z) : list Z :=
  toy_fold k (len m mod 0x100 :: m) (toy_block k []) (S (length m)).

#[export] Instance toy_alg : Alg := {
  alg_ecb k p := Some (toy_block k p);
  alg_cmac k m := Some (toy_mac k m);
}.

Lemma toy_block_ok k p : len (toy_block k p) = 16 /\ bytes (toy_block k p).
Proof.
  unfold toy_block, len, bytes. rewrite length_fmap, length_seq. split; [done|].
  apply Forall_fmap, Forall_forall. intros i _. simpl. apply u8_range.
Qed.

Lemma toy_fold_ok k m acc n :
  len acc = 16 /\ bytes acc -> len (toy_fold k m acc n) = 16 /\ bytes (toy_fold k m acc n).
Proof.
  revert m acc. induction n as [|n IH]; intros m acc Hacc; simpl; [done|].
  destruct m; [done|]. apply IH, toy_block_ok.
Qed.

#[export] Instance toy_alg_ok : AlgOk toy_alg.
Proof.
  split; intros k m c [= <-]; [apply toy_block_ok|].
  apply toy_fold_ok, toy_block_ok.
Qed.

#[export] Instance toy_alg_total : AlgTotal toy_alg.
Proof. split; intros; eexists; reflexivity. Qed.
