(* ===== verification/Ccm.v ===== *)
(** * AES-CCM

    [mesh_crypto_aes_ccm_encrypt] and [mesh_crypto_aes_ccm_decrypt] of
    [src/blueZ/mesh/crypto.c], block by block as the code runs them, against a
    reference definition of CCM (counter mode and CBC-MAC).  The message and the
    output are the same object in the callers that encrypt a packet in place and
    two objects elsewhere; both are modelled. *)

From S2P Require Import Prelude Bytes Alg.

(** ** Source and destination of a pass *)

Inductive ccm_io :=
| InPlace (buf : list Z) (off : Z)
| Separate (src : list Z) (soff : Z) (dst : list Z) (doff : Z)
| NoOut (src : list Z) (soff : Z).   (* out_msg == NULL *)

Definition io_read (io : ccm_io) (i n : Z) : res (list Z) :=
  match io with
  | InPlace b o | Separate b o _ _ | NoOut b o => rd_range b (o + i) n
  end.

Definition io_write (io : ccm_io) (i : Z) (bs : list Z) : res ccm_io :=
  match io with
  | InPlace b o => b ← wr_range b (o + i) bs; mret (InPlace b o)
  | Separate s so d dof => d ← wr_range d (dof + i) bs; mret (Separate s so d dof)
  | NoOut s so => mret io
  end.

(** A computation that may also stop early because an encryption failed
    ([goto done] with [result] false); what has been written stays written. *)
Definition CM (A : Type) : Type := ccm_io -> res (option A * ccm_io).
#[export] Instance cm_ret : MRet CM := fun A a io => Ok (Some a, io).
#[export] Instance cm_bind : MBind CM := fun A B f m io =>
  match m io with
  | Ok (Some a, io') => f a io'
  | Ok (None, io') => Ok (None, io')
  | Fault e => Fault e
  end.
Definition cm_pure {A} (r : res A) : CM A := fun io =>
  match r with Ok a => Ok (Some a, io) | Fault e => Fault e end.
Definition cm_read (i n : Z) : CM (list Z) := fun io =>
  match io_read io i n with Ok m => Ok (Some m, io) | Fault e => Fault e end.
Definition cm_write (i : Z) (bs : list Z) : CM unit := fun io =>
  match io_write io i bs with Ok io' => Ok (Some tt, io') | Fault e => Fault e end.
Definition cm_fail {A} : CM A := fun io => Ok (None, io).

Section Code.
Context `{Alg}.

(** [aes_ecb(fd, block, ...)] on a socket bound to [key]. *)
Definition aes_ecb (key block : list Z) : CM (list Z) := fun io =>
  Ok (alg_ecb key block, io).

(** [pmsg = 0x01 || nonce || i]: the counter blocks. *)
Definition ccm_ctr_block (nonce : list Z) (i : Z) : list Z := 0x01 :: nonce ++ to_be 2 (u16 i).

(** [pmsg = flags || nonce || length]. *)
Definition ccm_first_block (nonce : list Z) (aad_len msg_len mic_size : Z) : list Z :=
  Z.lor (if mic_size =? 8 then 0x19 else 0x09) (if truth aad_len then 0x40 else 0x00)
    :: nonce ++ to_be 2 msg_len.

(** [for (i = 0; i < n; i++) pmsg[i] = Xn[i] ^ m[i]; for (i = n; i < 16; i++)
    pmsg[i] = Xn[i]]. *)
Definition xor_pad (Xn m : list Z) : list Z :=
  xor_bytes (take (length m) Xn) m ++ drop (length m) Xn.

(** The [while (aad_len > 16)] loop and the final block: [i] is the octet of
    [pmsg] where the inner loop resumes, [j] the position in the AAD. *)
Fixpoint ccm_aad_loop (fuel : nat) (key aad : list Z) (aad_len i j : Z)
    (pmsg Xn : list Z) : CM (list Z) :=
  match fuel with
  | O => cm_pure (Fault OutOfFuel)
  | S fuel' =>
      if 16 <? aad_len then
        a ← cm_pure (rd_range aad j (16 - i));
        let pmsg := take (Z.to_nat i) pmsg ++ xor_bytes (drop (Z.to_nat i) Xn) a in
        Xn ← aes_ecb key pmsg;
        ccm_aad_loop fuel' key aad (aad_len - 16) 0 (j + (16 - i)) pmsg Xn
      else
        a ← cm_pure (rd_range aad j aad_len);
        aes_ecb key (xor_pad Xn a)
  end.

Definition ccm_aad (key aad : list Z) (aad_len : Z) (Xn : list Z) : CM (list Z) :=
  if truth aad_len then
    let pmsg := xor_bytes (take 2 Xn) (to_be 2 aad_len) ++ drop 2 Xn in
    ccm_aad_loop 4096 key aad (u16 (aad_len + 2)) 2 0 pmsg Xn
  else mret Xn.

(** The block loop of encryption from block [j] on, [n] blocks left, the last of
    [last_blk] octets; the final [Xn]. *)
Fixpoint ccm_enc_loop (n : nat) (key nonce : list Z) (j last_blk : Z) (Xn : list Z)
    : CM (list Z) :=
  match n with
  | O => mret Xn
  | S n' =>
      let size := match n' with O => last_blk | _ => 16 end in
      m ← cm_read (j * 16) size;
      Xn ← aes_ecb key (xor_pad Xn m);
      cmsg ← aes_ecb key (ccm_ctr_block nonce (j + 1));
      _ ← cm_write (j * 16) (xor_bytes m (take (length m) cmsg));
      ccm_enc_loop n' key nonce (j + 1) last_blk Xn
  end.

(** The block loop of decryption: the counter block comes first. *)
Fixpoint ccm_dec_loop (n : nat) (key nonce : list Z) (j last_blk : Z) (Xn : list Z)
    : CM (list Z) :=
  match n with
  | O => mret Xn
  | S n' =>
      let size := match n' with O => last_blk | _ => 16 end in
      cmsg ← aes_ecb key (ccm_ctr_block nonce (j + 1));
      c ← cm_read (j * 16) size;
      let m := xor_bytes c (take (length c) cmsg) in
      _ ← cm_write (j * 16) m;
      Xn ← aes_ecb key (xor_pad Xn m);
      ccm_dec_loop n' key nonce (j + 1) last_blk Xn
  end.

Definition ccm_last_blk (msg_len : Z) : Z :=
  if msg_len mod 16 =? 0 then 16 else msg_len mod 16.
Definition ccm_blk_cnt (msg_len : Z) : Z := (msg_len + 15) / 16.

(** The sixteen octets of [mic]; with an empty message the loop never assigns
    them. *)
Definition ccm_mic (msg_len : Z) (cmic Xn : list Z) : res (list Z) :=
  if msg_len =? 0 then Fault Uninit else Ok (xor_bytes cmic Xn).

(** [mesh_crypto_aes_ccm_encrypt]: [Some mic] when it returns true. *)
Definition mesh_crypto_aes_ccm_encrypt (nonce key aad : list Z) (aad_len msg_len mic_size : Z)
    : CM (list Z) :=
  if 0xff00 <=? aad_len then cm_fail else
  cmic ← aes_ecb key (ccm_ctr_block nonce 0);
  Xn ← aes_ecb key (ccm_first_block nonce aad_len msg_len mic_size);
  Xn ← ccm_aad key aad aad_len Xn;
  Xn ← ccm_enc_loop (Z.to_nat (ccm_blk_cnt msg_len)) key nonce 0 (ccm_last_blk msg_len) Xn;
  mic ← cm_pure (ccm_mic msg_len cmic Xn);
  m ← cm_pure (rd_range mic 0 mic_size);
  _ ← cm_write msg_len m;
  mret mic.

(** [*out_mic] for the two supported sizes. *)
Definition ccm_out_mic (mic_size : Z) (mic : list Z) : Z :=
  of_be (take (Z.to_nat mic_size) mic).

(** [mesh_crypto_aes_ccm_decrypt]: [Some (r, mic)], where [r] is the returned
    truth value; with [out_mic] the MIC is returned unchecked. *)
Definition mesh_crypto_aes_ccm_decrypt (nonce key aad : list Z)
    (aad_len enc_msg_len mic_size : Z) (out_mic : bool) : CM (bool * list Z) :=
  let msg_len := u16 (enc_msg_len - mic_size) in
  if (enc_msg_len <? 5) || (0xff00 <=? aad_len) then mret (false, []) else
  cmic ← aes_ecb key (ccm_ctr_block nonce 0);
  Xn ← aes_ecb key (ccm_first_block nonce aad_len msg_len mic_size);
  Xn ← ccm_aad key aad aad_len Xn;
  Xn ← ccm_dec_loop (Z.to_nat (ccm_blk_cnt msg_len)) key nonce 0 (ccm_last_blk msg_len) Xn;
  if (mic_size =? 4) || (mic_size =? 8) then
    mic ← cm_pure (ccm_mic msg_len cmic Xn);
    if out_mic then mret (true, mic) else
    rx ← cm_read (enc_msg_len - mic_size) mic_size;
    mret (of_be rx =? ccm_out_mic mic_size mic, mic)
  else mret (false, []).

End Code.

(** ** Reference definition

    CCM for one key: [E] is the block cipher under it. *)
Section Reference.
Variable E : list Z -> list Z.
Variable nonce : list Z.

(** CBC-MAC of [n] blocks of [m] from [X], the last one padded with zeros. *)
Fixpoint cbc_mac (n : nat) (X m : list Z) : list Z :=
  match n with
  | O => X
  | S n' => cbc_mac n' (E (xor_pad X (take 16 m))) (drop 16 m)
  end.

(** Counter mode over [n] blocks of [m], the first one under counter [j + 1]. *)
Fixpoint ctr_xor (n : nat) (j : Z) (m : list Z) : list Z :=
  match n with
  | O => []
  | S n' =>
      xor_bytes (take 16 m) (take (length (take 16 m)) (E (ccm_ctr_block nonce (j + 1))))
        ++ ctr_xor n' (j + 1) (drop 16 m)
  end.

Definition nblocks (m : list Z) : nat := Z.to_nat (ccm_blk_cnt (len m)).

(** The authenticated data: its length in two octets, then the data. *)
Definition ref_aad (X aad : list Z) : list Z :=
  match aad with
  | [] => X
  | _ => let b := to_be 2 (len aad) ++ aad in cbc_mac (nblocks b) X b
  end.

Definition ref_tag (aad msg : list Z) (mic_size : Z) : list Z :=
  xor_bytes (E (ccm_ctr_block nonce 0))
    (cbc_mac (nblocks msg)
       (ref_aad (E (ccm_first_block nonce (len aad) (len msg) mic_size)) aad) msg).

Definition ref_cipher (msg : list Z) : list Z := ctr_xor (nblocks msg) 0 msg.

End Reference.

(** ** Frames: the objects around the message and the output *)

Inductive frame :=
| FIn (a z : list Z)
| FSep (sa sz da out dz : list Z).

(** The objects after the output [c] has been written over the head of the
    message (or of the output area [out]). *)
Definition io_of (F : frame) (msg c : list Z) : ccm_io :=
  match F with
  | FIn a z => InPlace (a ++ c ++ drop (length c) msg ++ z) (len a)
  | FSep sa sz da out dz =>
      Separate (sa ++ msg ++ sz) (len sa) (da ++ c ++ drop (length c) out ++ dz) (len da)
  end.

(** The objects after a complete output [c] and the MIC. *)
Definition io_done (F : frame) (msg c mic : list Z) : ccm_io :=
  match F with
  | FIn a z => InPlace (a ++ c ++ mic ++ drop (length mic) z) (len a)
  | FSep sa sz da out dz =>
      Separate (sa ++ msg ++ sz) (len sa) (da ++ c ++ mic ++ drop (length mic) dz) (len da)
  end.

Definition frame_fits (F : frame) (msg : list Z) (mic_size : Z) : Prop :=
  match F with
  | FIn a z => mic_size <= len z
  | FSep sa sz da out dz => length out = length msg /\ mic_size <= len dz
  end.

Section Frames.
Implicit Types (F : frame) (msg c w : list Z).

Lemma drop_cut (l w : list Z) :
  (length w <= length l)%nat -> exists o, l = o ++ drop (length w) l /\ length o = length w.
Proof.
  intros. exists (take (length w) l). rewrite take_drop, length_take. split; [done | lia].
Qed.

Lemma io_read_at F msg c n mic_size :
  frame_fits F msg mic_size -> 0 <= n -> len c + n <= len msg ->
  io_read (io_of F msg c) (len c) n = Ok (take (Z.to_nat n) (drop (length c) msg)).
Proof.
  intros HF Hn Hl. destruct (buf_split msg (len c)) as (m1 & m' & -> & Hm1).
  { pose proof (len_nonneg c). lia. }
  rewrite len_app in Hl.
  destruct (buf_split m' n) as (m2 & m3 & -> & Hm2); [lia|].
  replace (drop (length c) (m1 ++ m2 ++ m3)) with (m2 ++ m3)
    by (unfold len in Hm1; by rewrite drop_app_length' by lia).
  replace (Z.to_nat n) with (length m2) by (unfold len in Hm2; lia).
  rewrite take_app_length.
  destruct F; simpl.
  - replace (drop (length c) (m1 ++ m2 ++ m3)) with (m2 ++ m3)
      by (unfold len in Hm1; by rewrite drop_app_length' by lia).
    rewrite <-app_assoc, (app_assoc a c). apply rd_range_mid; [by rewrite len_app | done].
  - rewrite <-!app_assoc, (app_assoc sa m1). apply rd_range_mid; [|done].
    by rewrite len_app, Hm1.
Qed.

Lemma io_write_at F msg c w mic_size :
  frame_fits F msg mic_size -> len c + len w <= len msg ->
  io_write (io_of F msg c) (len c) w = Ok (io_of F msg (c ++ w)).
Proof.
  intros HF Hl.
  assert (Hcut : ∀ l, len l = len msg ->
    exists o, drop (length c) l = o ++ drop (length (c ++ w)) l /\ length o = length w).
  { intros l Hll. unfold len in *. destruct (drop_cut (drop (length c) l) w) as (o & Ho & Hlo).
    - rewrite length_drop. lia.
    - rewrite drop_drop in Ho. exists o. by rewrite length_app, <-Ho. }
  destruct F as [a z | sa sz da out dz]; simpl.
  - destruct (Hcut msg eq_refl) as (o & -> & Ho).
    rewrite <-!app_assoc, (app_assoc a c), wr_range_mid by (by rewrite ?len_app). simpl.
    by rewrite !app_assoc.
  - destruct HF as [Hout _]. destruct (Hcut out) as (o & -> & Ho); [by unfold len; rewrite Hout|].
    rewrite <-!app_assoc, (app_assoc da c), wr_range_mid by (by rewrite ?len_app). simpl.
    by rewrite <-!app_assoc.
Qed.

Lemma io_write_mic F msg c mic :
  frame_fits F msg (len mic) -> length c = length msg ->
  io_write (io_of F msg c) (len msg) mic = Ok (io_done F msg c mic).
Proof.
  intros HF Hl. replace (len msg) with (len c) by (unfold len; lia).
  destruct F as [a z | sa sz da out dz]; simpl in *.
  - rewrite drop_ge by lia. destruct (drop_cut z mic) as (o & Ho & Hlo); [unfold len in *; lia|].
    rewrite Ho at 1. simpl. rewrite (app_assoc a c), wr_range_mid by (by rewrite ?len_app).
    simpl. by rewrite <-!app_assoc.
  - destruct HF as [Hout HF]. rewrite drop_ge by lia.
    destruct (drop_cut dz mic) as (o & Ho & Hlo); [unfold len in *; lia|].
    rewrite Ho at 1. simpl. rewrite (app_assoc da c), wr_range_mid by (by rewrite ?len_app).
    simpl. by rewrite <-!app_assoc.
Qed.
End Frames.

(** ** The loops implement the reference *)

Section Refinement.
Context {A : Alg} {AO : AlgOk A} {AT : AlgTotal A}.
Variable key : list Z.
Hypothesis Hkey : len key = 16.

(** The block cipher of the backend under [key]. *)
Definition ecb_of (p : list Z) : list Z := default [] (alg_ecb key p).

Lemma ecb_of_ok p : len p = 16 -> alg_ecb key p = Some (ecb_of p).
Proof. intros Hp. unfold ecb_of. by destruct (alg_ecb_total key p Hkey Hp) as [c ->]. Qed.

Lemma ecb_of_len p : len p = 16 -> len (ecb_of p) = 16 /\ bytes (ecb_of p).
Proof. intros Hp. eapply alg_ecb_block, ecb_of_ok, Hp. Qed.

Lemma aes_ecb_ok p io : len p = 16 -> aes_ecb key p io = Ok (Some (ecb_of p), io).
Proof. intros. unfold aes_ecb. by rewrite ecb_of_ok. Qed.

Lemma ctr_block_len nonce i : len nonce = 13 -> len (ccm_ctr_block nonce i) = 16.
Proof. intros. unfold ccm_ctr_block. rewrite len_cons, len_app, len_to_be. lia. Qed.
Lemma first_block_len nonce a m k : len nonce = 13 -> len (ccm_first_block nonce a m k) = 16.
Proof. intros. unfold ccm_first_block. rewrite len_cons, len_app, len_to_be. lia. Qed.

Lemma xor_pad_len X m : len X = 16 -> len m <= 16 -> len (xor_pad X m) = 16.
Proof.
  unfold len, xor_pad, xor_bytes. intros.
  rewrite length_app, length_zip_with, length_take, length_drop. lia.
Qed.

Lemma cm_bind_ok {X Y} (m : CM X) (f : X -> CM Y) io x io' :
  m io = Ok (Some x, io') -> (m ≫= f) io = f x io'.
Proof. intros Hm. unfold mbind, cm_bind. by rewrite Hm. Qed.

Lemma cm_bind_fault {X Y} (m : CM X) (f : X -> CM Y) io e :
  m io = Fault e -> (m ≫= f) io = Fault e.
Proof. intros Hm. unfold mbind, cm_bind. by rewrite Hm. Qed.

Lemma xor_mask_len m k :
  len m <= len k -> length (xor_bytes m (take (length m) k)) = length m.
Proof. unfold len, xor_bytes. intros. rewrite length_zip_with, length_take. lia. Qed.

Section Loops.
Variables (nonce : list Z) (F : frame) (msg : list Z) (mic_size : Z).
Hypothesis Hnonce : len nonce = 13.
Hypothesis HF : frame_fits F msg mic_size.

(** Block sizes: [n] blocks are left of [m], all but the last of 16 octets. *)
Definition tiles (n : nat) (last : Z) (m : list Z) : Prop :=
  match n with
  | O => m = []
  | S n' => len m = 16 * Z.of_nat n' + last /\ 1 <= last <= 16
  end.

Lemma tiles_next n last m :
  tiles (S n) last m ->
  len (take 16 m) = (match n with O => last | _ => 16 end) /\ tiles n last (drop 16 m).
Proof.
  unfold tiles, len. intros [Hl Hr]. rewrite length_take. split.
  - destruct n; lia.
  - destruct n as [|n]; [apply drop_ge; lia | rewrite length_drop; lia].
Qed.

Lemma take_size n last m :
  tiles (S n) last m ->
  take (Z.to_nat (match n with O => last | _ => 16 end)) m = take 16 m.
Proof.
  intros [Hl Hr]. destruct n; [|done].
  unfold len in *. rewrite !take_ge by lia. done.
Qed.

Lemma enc_loop_ref n last j c X :
  len c = 16 * j -> len c + len (drop (length c) msg) = len msg ->
  tiles n last (drop (length c) msg) -> len X = 16 ->
  ccm_enc_loop n key nonce j last X (io_of F msg c) =
  Ok (Some (cbc_mac ecb_of n X (drop (length c) msg)),
      io_of F msg (c ++ ctr_xor ecb_of nonce n j (drop (length c) msg))).
Proof.
  revert j c X. induction n as [|n IH]; intros j c X Hc Hcm Ht HX.
  { simpl. by rewrite app_nil_r. }
  destruct (tiles_next _ _ _ Ht) as [Hsz Ht']. pose proof (take_size _ _ _ Ht) as Htk.
  cbn [ccm_enc_loop cbc_mac ctr_xor]. replace (j * 16) with (len c) by lia.
  set (m := drop (length c) msg) in *. set (sz := match n with O => last | _ => 16 end) in *.
  assert (Hle : len (take 16 m) <= 16) by (unfold len; rewrite length_take; lia).
  assert (Hmm : len (take 16 m) <= len m) by (unfold len; rewrite length_take; lia).
  erewrite cm_bind_ok; [| unfold cm_read; rewrite (io_read_at F msg c sz mic_size HF)
    by (pose proof (len_nonneg (take 16 m)); lia); fold m; by rewrite Htk].
  erewrite cm_bind_ok by (apply aes_ecb_ok, xor_pad_len; lia).
  pose proof (ctr_block_len nonce (j + 1) Hnonce) as Hcb.
  erewrite cm_bind_ok by (by apply aes_ecb_ok).
  set (w := xor_bytes (take 16 m) _).
  assert (Hw : length w = length (take 16 m)).
  { apply xor_mask_len. destruct (ecb_of_len _ Hcb) as [-> _]. lia. }
  erewrite cm_bind_ok; [| unfold cm_write; rewrite (io_write_at F msg c w mic_size HF)
    by (unfold len in *; lia); done].
  assert (Hd : drop (length (c ++ w)) msg = drop 16 m).
  { unfold m. rewrite length_app, Hw, length_take, <-drop_drop. fold m.
    destruct (Nat.le_ge_cases 16 (length m)).
    - by rewrite Nat.min_l.
    - rewrite Nat.min_r, !drop_ge by lia. done. }
  rewrite <-Hd in Ht' |- *. destruct n as [|n'].
  - simpl. rewrite app_nil_r. done.
  - assert (Hw16 : length w = 16%nat) by (unfold len in Hsz; subst sz; lia).
    rewrite IH, <-app_assoc; [done | | | done |].
    + rewrite len_app. unfold len. rewrite Hw16. unfold len in Hc. lia.
    + unfold len in *. rewrite length_drop, length_app in *. lia.
    + apply ecb_of_len, xor_pad_len; lia.
Qed.

Lemma dec_loop_ref n last j c X :
  len c = 16 * j -> len c + len (drop (length c) msg) = len msg ->
  tiles n last (drop (length c) msg) -> len X = 16 ->
  ccm_dec_loop n key nonce j last X (io_of F msg c) =
  Ok (Some (cbc_mac ecb_of n X (ctr_xor ecb_of nonce n j (drop (length c) msg))),
      io_of F msg (c ++ ctr_xor ecb_of nonce n j (drop (length c) msg))).
Proof.
  revert j c X. induction n as [|n IH]; intros j c X Hc Hcm Ht HX.
  { simpl. by rewrite app_nil_r. }
  destruct (tiles_next _ _ _ Ht) as [Hsz Ht']. pose proof (take_size _ _ _ Ht) as Htk.
  cbn [ccm_dec_loop cbc_mac ctr_xor]. replace (j * 16) with (len c) by lia.
  set (m := drop (length c) msg) in *. set (sz := match n with O => last | _ => 16 end) in *.
  assert (Hle : len (take 16 m) <= 16) by (unfold len; rewrite length_take; lia).
  assert (Hmm : len (take 16 m) <= len m) by (unfold len; rewrite length_take; lia).
  pose proof (ctr_block_len nonce (j + 1) Hnonce) as Hcb.
  erewrite cm_bind_ok by (by apply aes_ecb_ok).
  erewrite cm_bind_ok; [| unfold cm_read; rewrite (io_read_at F msg c sz mic_size HF)
    by (pose proof (len_nonneg (take 16 m)); lia); fold m; by rewrite Htk].
  set (w := xor_bytes (take 16 m) _).
  assert (Hw : length w = length (take 16 m)).
  { apply xor_mask_len. destruct (ecb_of_len _ Hcb) as [-> _]. lia. }
  erewrite cm_bind_ok; [| unfold cm_write; rewrite (io_write_at F msg c w mic_size HF)
    by (unfold len in *; lia); done].
  erewrite cm_bind_ok by (apply aes_ecb_ok, xor_pad_len; unfold len in *; lia).
  assert (Hd : drop (length (c ++ w)) msg = drop 16 m).
  { unfold m. rewrite length_app, Hw, length_take, <-drop_drop. fold m.
    destruct (Nat.le_ge_cases 16 (length m)).
    - by rewrite Nat.min_l.
    - rewrite Nat.min_r, !drop_ge by lia. done. }
  rewrite <-Hd in Ht' |- *. destruct n as [|n'].
  - simpl. rewrite app_nil_r, (take_ge w) by (unfold len in Hle; lia). done.
  - assert (Hw16 : length w = 16%nat) by (unfold len in Hsz; subst sz; lia).
    rewrite (take_app_length' w) by lia. rewrite (drop_app_length' w) by lia.
    rewrite IH, <-app_assoc; [done | | | done |].
    + rewrite len_app. unfold len. rewrite Hw16. unfold len in Hc. lia.
    + unfold len in *. rewrite length_drop, length_app in *. lia.
    + apply ecb_of_len, xor_pad_len; unfold len in *; lia.
Qed.
End Loops.

(** *** Block counts *)

Lemma nblocks_step m : 16 < len m -> nblocks m = S (nblocks (drop 16 m)).
Proof.
  intros. unfold nblocks, ccm_blk_cnt, len in *. rewrite length_drop.
  rewrite <-Z2Nat.inj_succ by zlia. f_equal.
  replace (Z.of_nat (length m) + 15)
    with (Z.of_nat (length m - 16) + 15 + 1 * 16) by lia.
  rewrite Z.div_add by lia. lia.
Qed.

Lemma nblocks_one m : 1 <= len m <= 16 -> nblocks m = 1%nat.
Proof.
  intros. unfold nblocks, ccm_blk_cnt. by replace ((len m + 15) / 16) with 1 by zlia.
Qed.

Lemma nblocks_tiles m : 1 <= len m -> tiles (nblocks m) (ccm_last_blk (len m)) m.
Proof.
  intros Hm. unfold nblocks, ccm_blk_cnt, ccm_last_blk.
  destruct (Z.to_nat ((len m + 15) / 16)) as [|n] eqn:E; [zlia|].
  assert (Hn : (len m + 15) / 16 = Z.of_nat n + 1) by lia. simpl.
  destruct (Z.eqb_spec (len m mod 16) 0); zlia.
Qed.

(** *** Authenticated data *)

(** The data the code processes as CCM prescribes: none, or at least fifteen
    octets (the only non-empty use is a 16-octet virtual label). *)
Definition aad_ok (aad : list Z) : Prop := aad = [] \/ 15 <= len aad < 0xff00.

Lemma aad_tail fuel aad j X pmsg io :
  0 <= j -> 1 <= len aad - j <= 16 * Z.of_nat fuel -> len X = 16 ->
  ccm_aad_loop fuel key aad (len aad - j) 0 j pmsg X io =
  Ok (Some (cbc_mac ecb_of (nblocks (drop (Z.to_nat j) aad)) X (drop (Z.to_nat j) aad)), io).
Proof.
  revert j X pmsg. induction fuel as [|fuel IH]; intros j X pmsg Hj Hl HX; [lia|].
  cbn [ccm_aad_loop]. set (rest := drop (Z.to_nat j) aad).
  assert (Hrest : len rest = len aad - j).
  { unfold rest, len in *. rewrite length_drop. lia. }
  destruct (Z.ltb_spec 16 (len aad - j)).
  - erewrite cm_bind_ok by (unfold cm_pure; by rewrite (rd_range_ok aad j) by lia).
    fold rest. change (Z.to_nat (16 - 0)) with 16%nat. change (Z.to_nat 0) with 0%nat.
    rewrite take_0, drop_0. simpl app.
    assert (H16 : len (take 16 rest) = 16).
    { unfold len in *. rewrite length_take. lia. }
    assert (Hx : xor_bytes X (take 16 rest) = xor_pad X (take 16 rest)).
    { unfold xor_pad. unfold len in H16, HX. rewrite (drop_ge X), app_nil_r, (take_ge X) by lia.
      done. }
    rewrite Hx. erewrite cm_bind_ok by (apply aes_ecb_ok, xor_pad_len; lia).
    replace (len aad - j - 16) with (len aad - (j + 16)) by lia.
    rewrite Z.sub_0_r, IH; [| lia | lia | apply ecb_of_len, xor_pad_len; lia].
    rewrite (nblocks_step rest) by lia. simpl.
    replace (drop (Z.to_nat (j + 16)) aad) with (drop 16 rest); [done|].
    unfold rest. rewrite drop_drop. f_equal. lia.
  - erewrite cm_bind_ok by (unfold cm_pure; by rewrite (rd_range_ok aad j) by lia).
    fold rest. rewrite (take_ge rest) by (unfold len in *; lia).
    rewrite aes_ecb_ok by (apply xor_pad_len; lia).
    rewrite nblocks_one by lia. simpl. by rewrite (take_ge rest) by (unfold len in *; lia).
Qed.

(** The first block, whose first two octets are the length. *)
Lemma aad_head X aad :
  len X = 16 -> 14 <= len aad ->
  take 2 (xor_bytes (take 2 X) (to_be 2 (len aad)) ++ drop 2 X) ++
    xor_bytes (drop 2 X) (take 14 aad) =
  xor_pad X (take 16 (to_be 2 (len aad) ++ aad)).
Proof.
  intros HX Ha. unfold len in HX, Ha.
  do 16 (destruct X as [|? X]; [simpl in HX; lia|]).
  destruct X; [|simpl in HX; lia].
  do 14 (destruct aad as [|? aad]; [simpl in Ha; lia|]).
  reflexivity.
Qed.

Lemma ccm_aad_ref aad X io :
  aad_ok aad -> len X = 16 ->
  ccm_aad key aad (len aad) X io = Ok (Some (ref_aad ecb_of X aad), io).
Proof.
  intros [-> | Haad] HX; [done|]. unfold ccm_aad.
  rewrite (proj2 (truth_true (len aad))), u16_small by lia.
  assert (Hf : exists f, 4096%nat = S f /\ Z.of_nat f = 4095) by (by exists 4095%nat).
  destruct Hf as (fuel & -> & Hfuel). cbn [ccm_aad_loop].
  rewrite (proj2 (Z.ltb_lt 16 _)) by lia.
  erewrite cm_bind_ok by (unfold cm_pure; by rewrite (rd_range_ok aad 0) by lia).
  change (Z.to_nat 2) with 2%nat. change (Z.to_nat 0) with 0%nat.
  change (Z.to_nat (16 - 2)) with 14%nat. rewrite drop_0, aad_head by lia.
  set (b := to_be 2 (len aad) ++ aad).
  assert (Hb : len b = len aad + 2) by (unfold b; rewrite len_app, len_to_be; lia).
  assert (Hb16 : len (take 16 b) <= 16) by (unfold len; rewrite length_take; lia).
  erewrite cm_bind_ok by (apply aes_ecb_ok, xor_pad_len; lia).
  replace (len aad + 2 - 16) with (len aad - (0 + (16 - 2))) by lia.
  rewrite aad_tail; [| lia | lia | apply ecb_of_len, xor_pad_len; lia].
  unfold ref_aad. destruct aad as [|x aad']; [unfold len in Haad; simpl in Haad; lia|].
  fold b. rewrite (nblocks_step b) by lia. simpl cbc_mac.
  by change (drop (Z.to_nat (0 + (16 - 2))) (x :: aad')) with (drop 16 b).
Qed.

Lemma cbc_mac_len n X m : len X = 16 -> len (cbc_mac ecb_of n X m) = 16.
Proof.
  revert X m. induction n as [|n IH]; intros X m HX; simpl; [done|].
  apply IH, ecb_of_len, xor_pad_len; [done|]. unfold len. rewrite length_take. lia.
Qed.
Lemma ref_aad_len X aad : len X = 16 -> len (ref_aad ecb_of X aad) = 16.
Proof. intros. unfold ref_aad. destruct aad; [done|]. by apply cbc_mac_len. Qed.
Lemma ref_tag_len nonce aad msg k :
  len nonce = 13 -> len (ref_tag ecb_of nonce aad msg k) = 16.
Proof.
  intros Hn. unfold ref_tag, len. rewrite xor_bytes_length.
  - by apply (ecb_of_len _ (ctr_block_len nonce 0 Hn)).
  - apply Nat2Z.inj. change (len (ecb_of (ccm_ctr_block nonce 0)) =
      len (cbc_mac ecb_of (nblocks msg) (ref_aad ecb_of
        (ecb_of (ccm_first_block nonce (len aad) (len msg) k)) aad) msg)).
    rewrite cbc_mac_len.
    + by apply ecb_of_len, ctr_block_len.
    + by apply ref_aad_len, ecb_of_len, first_block_len.
Qed.

Lemma cbc_mac_bytes n X m : len X = 16 -> bytes X -> bytes (cbc_mac ecb_of n X m).
Proof.
  revert X m. induction n as [|n IH]; intros X m HX Hb; simpl; [done|].
  assert (Hl : len (xor_pad X (take 16 m)) = 16)
    by (apply xor_pad_len; [done | unfold len; rewrite length_take; lia]).
  destruct (ecb_of_len _ Hl). by apply IH.
Qed.
Lemma ref_tag_bytes nonce aad msg k : len nonce = 13 -> bytes (ref_tag ecb_of nonce aad msg k).
Proof.
  intros Hn. destruct (ecb_of_len _ (ctr_block_len nonce 0 Hn)).
  destruct (ecb_of_len _ (first_block_len nonce (len aad) (len msg) k Hn)).
  apply bytes_xor; [done|]. apply cbc_mac_bytes; [by apply ref_aad_len|].
  unfold ref_aad. destruct aad; [done|]. by apply cbc_mac_bytes.
Qed.

Lemma ctr_xor_len nonce n j m last :
  len nonce = 13 -> tiles n last m -> length (ctr_xor ecb_of nonce n j m) = length m.
Proof.
  intros Hn. revert j m. induction n as [|n IH]; intros j m Ht; [by simpl in Ht; subst m|].
  destruct (tiles_next _ _ _ Ht) as [_ Ht']. simpl.
  rewrite length_app, xor_mask_len, IH by
    (done || (destruct (ecb_of_len _ (ctr_block_len nonce (j + 1) Hn)) as [-> _];
              unfold len; rewrite length_take; lia)).
  rewrite <-length_app, take_drop. done.
Qed.

Lemma ctr_xor_involutive nonce n j m last :
  len nonce = 13 -> tiles n last m ->
  ctr_xor ecb_of nonce n j (ctr_xor ecb_of nonce n j m) = m.
Proof.
  intros Hn. revert j m. induction n as [|n IH]; intros j m Ht; [by simpl in Ht; subst m|].
  destruct (tiles_next _ _ _ Ht) as [Hsz Ht'].
  destruct (ecb_of_len _ (ctr_block_len nonce (j + 1) Hn)) as [Hk _].
  set (k := ecb_of (ccm_ctr_block nonce (j + 1))) in *. simpl. fold k.
  set (w := xor_bytes (take 16 m) (take (length (take 16 m)) k)).
  assert (Hw : length w = length (take 16 m)).
  { apply xor_mask_len. rewrite Hk. unfold len. rewrite length_take. lia. }
  assert (Htw : take 16 (w ++ ctr_xor ecb_of nonce n (j + 1) (drop 16 m)) = w /\
                drop 16 (w ++ ctr_xor ecb_of nonce n (j + 1) (drop 16 m)) =
                ctr_xor ecb_of nonce n (j + 1) (drop 16 m)).
  { rewrite length_take in Hw. destruct n as [|n'].
    - simpl. rewrite app_nil_r, take_ge, drop_ge by lia. done.
    - assert (length w = 16%nat) by (unfold len in Hsz; rewrite length_take in Hsz; lia).
      rewrite take_app_length', drop_app_length' by lia. done. }
  destruct Htw as [-> ->]. rewrite Hw. unfold w.
  rewrite xor_bytes_involutive, IH by
    (done || (rewrite !length_take; unfold len in Hk; lia)).
  apply take_drop.
Qed.

(** ** Encryption and decryption compute the reference *)

Definition ccm_size_ok (mic_size : Z) : Prop := mic_size = 4 \/ mic_size = 8.

Lemma ccm_encrypt_eq nonce aad msg mic_size F :
  len nonce = 13 -> aad_ok aad -> 1 <= len msg < 0x10000 -> ccm_size_ok mic_size ->
  frame_fits F msg mic_size ->
  mesh_crypto_aes_ccm_encrypt nonce key aad (len aad) (len msg) mic_size (io_of F msg []) =
  Ok (Some (ref_tag ecb_of nonce aad msg mic_size),
      io_done F msg (ref_cipher ecb_of nonce msg)
        (take (Z.to_nat mic_size) (ref_tag ecb_of nonce aad msg mic_size))).
Proof.
  intros Hn Haad Hmsg Hmic HF. unfold mesh_crypto_aes_ccm_encrypt.
  rewrite (proj2 (Z.leb_gt 0xff00 (len aad))) by (destruct Haad as [-> | ?]; [done | lia]).
  erewrite cm_bind_ok by (by apply aes_ecb_ok, ctr_block_len).
  erewrite cm_bind_ok by (by apply aes_ecb_ok, first_block_len).
  set (X0 := ecb_of (ccm_first_block _ _ _ _)).
  assert (HX0 : len X0 = 16) by (by apply ecb_of_len, first_block_len).
  erewrite cm_bind_ok by (by apply ccm_aad_ref). fold (nblocks msg).
  pose proof (nblocks_tiles msg ltac:(lia)) as Ht.
  erewrite cm_bind_ok by (apply (enc_loop_ref nonce F msg mic_size Hn HF _ _ 0 []);
    [done | done | done | by apply ref_aad_len]).
  simpl drop. rewrite drop_0. unfold ccm_mic. rewrite (proj2 (Z.eqb_neq (len msg) 0)) by lia.
  erewrite cm_bind_ok by done. set (tag := ref_tag ecb_of nonce aad msg mic_size).
  change (xor_bytes (ecb_of (ccm_ctr_block nonce 0))
    (cbc_mac ecb_of (nblocks msg) (ref_aad ecb_of X0 aad) msg)) with tag.
  assert (Htag : len tag = 16) by by apply ref_tag_len.
  assert (Hmr : 4 <= mic_size <= 8) by (destruct Hmic; lia).
  erewrite cm_bind_ok by (unfold cm_pure; by rewrite (rd_range_ok tag 0) by lia).
  change (drop (Z.to_nat 0) tag) with tag. simpl app.
  assert (Hlm : len (take (Z.to_nat mic_size) tag) = mic_size).
  { unfold len in *. rewrite length_take. lia. }
  erewrite cm_bind_ok; [done|]. unfold cm_write. rewrite io_write_mic; [done | by rewrite Hlm |].
  by eapply ctr_xor_len.
Qed.

(** Everything before the block loop of a decryption without associated data:
    what remains is the loop and the MIC. *)
Lemma ccm_decrypt_front nonce enc_msg_len mic_size out_mic io :
  len nonce = 13 -> 5 <= enc_msg_len ->
  exists X0 cmic, len X0 = 16 /\
  mesh_crypto_aes_ccm_decrypt nonce key [] 0 enc_msg_len mic_size out_mic io =
  (Xn ← ccm_dec_loop (Z.to_nat (ccm_blk_cnt (u16 (enc_msg_len - mic_size)))) key nonce 0
          (ccm_last_blk (u16 (enc_msg_len - mic_size))) X0;
   if (mic_size =? 4) || (mic_size =? 8) then
     mic ← cm_pure (ccm_mic (u16 (enc_msg_len - mic_size)) cmic Xn);
     if out_mic then mret (true, mic) else
     rx ← cm_read (enc_msg_len - mic_size) mic_size;
     mret (of_be rx =? ccm_out_mic mic_size mic, mic)
   else mret (false, [])) io.
Proof.
  intros Hn Hl. unfold mesh_crypto_aes_ccm_decrypt. rewrite (proj2 (Z.ltb_ge _ 5)) by lia.
  change (0xff00 <=? 0) with false. cbn [orb].
  set (b0 := ccm_first_block nonce 0 (u16 (enc_msg_len - mic_size)) mic_size).
  assert (Hb0 : len b0 = 16) by by apply first_block_len.
  exists (ecb_of b0), (ecb_of (ccm_ctr_block nonce 0)).
  split; [by apply ecb_of_len|].
  erewrite cm_bind_ok by (by apply aes_ecb_ok, ctr_block_len).
  erewrite cm_bind_ok by (by apply aes_ecb_ok). done.
Qed.

(** A decryption whose last block lies outside the source faults, wherever the
    output runs out. *)
Lemma dec_loop_oob nonce n j last X s so d dof :
  len nonce = 13 -> 1 <= last <= 16 -> 0 <= j -> 0 <= so -> 0 <= dof -> len X = 16 ->
  len s < so + (j + Z.of_nat n) * 16 + last ->
  ccm_dec_loop (S n) key nonce j last X (Separate s so d dof) = Fault Oob.
Proof.
  intros Hn Hlast. revert j X d. induction n as [|n IH]; intros j X d Hj Hso Hdo HX Hs.
  - cbn [ccm_dec_loop]. erewrite cm_bind_ok by (by apply aes_ecb_ok, ctr_block_len).
    unfold mbind at 1, cm_bind at 1, cm_read, io_read. by rewrite rd_range_oob by lia.
  - cbn [ccm_dec_loop]. erewrite cm_bind_ok by (by apply aes_ecb_ok, ctr_block_len).
    unfold mbind at 1, cm_bind at 1, cm_read, io_read.
    destruct (Z.le_gt_cases (so + j * 16 + 16) (len s)) as [Hr | Hr];
      [|by rewrite rd_range_oob by lia].
    destruct (rd_range_total s (so + j * 16) 16) as (c & -> & Hc); [lia..|].
    set (k := ecb_of (ccm_ctr_block nonce (j + 1))).
    assert (Hk : len k = 16) by by apply ecb_of_len, ctr_block_len.
    assert (Hm : len (xor_bytes c (take (length c) k)) = 16)
      by (rewrite <-Hc; unfold len; rewrite xor_mask_len; unfold len in *; lia).
    set (m := xor_bytes c (take (length c) k)) in *.
    unfold mbind at 1, cm_bind at 1, cm_write, io_write.
    destruct (Z.le_gt_cases (dof + j * 16 + 16) (len d)) as [Hw | Hw];
      [|by rewrite wr_range_oob by lia].
    destruct (wr_range_total d (dof + j * 16) m) as (d' & -> & _); [lia..|].
    cbn [mbind res_bind mret res_ret].
    erewrite cm_bind_ok by (apply aes_ecb_ok, xor_pad_len; lia).
    apply IH; try lia. by apply ecb_of_len, xor_pad_len; lia.
Qed.

(** Decryption of the ciphertext [c] followed by [sz] into another object: the
    plaintext, and whether the MIC that follows is the tag of that plaintext. *)
Lemma ccm_decrypt_eq nonce aad c mic_size sa sz da out dz out_mic :
  len nonce = 13 -> aad_ok aad -> 1 <= len c -> len c + mic_size < 0x10000 ->
  5 <= len c + mic_size -> ccm_size_ok mic_size ->
  length out = length c -> mic_size <= len sz -> mic_size <= len dz ->
  let p := ref_cipher ecb_of nonce c in
  let tag := ref_tag ecb_of nonce aad p mic_size in
  mesh_crypto_aes_ccm_decrypt nonce key aad (len aad) (len c + mic_size) mic_size out_mic
    (io_of (FSep sa sz da out dz) c []) =
  Ok (Some (if out_mic then true
            else of_be (take (Z.to_nat mic_size) sz) =? ccm_out_mic mic_size tag, tag),
      io_of (FSep sa sz da out dz) c p).
Proof.
  intros Hn Haad Hc Hcm H5 Hmic Hout Hsz Hdz p tag.
  assert (HF : frame_fits (FSep sa sz da out dz) c mic_size) by done.
  assert (Hmr : 4 <= mic_size <= 8) by (destruct Hmic; lia).
  unfold mesh_crypto_aes_ccm_decrypt.
  replace (len c + mic_size - mic_size) with (len c) by lia. rewrite u16_small by lia.
  rewrite (proj2 (Z.ltb_ge _ 5)) by lia.
  rewrite (proj2 (Z.leb_gt 0xff00 (len aad))) by (destruct Haad as [-> | ?]; [done | lia]).
  cbn [orb]. erewrite cm_bind_ok by (by apply aes_ecb_ok, ctr_block_len).
  erewrite cm_bind_ok by (by apply aes_ecb_ok, first_block_len).
  set (X0 := ecb_of (ccm_first_block _ _ _ _)).
  assert (HX0 : len X0 = 16) by (by apply ecb_of_len, first_block_len).
  erewrite cm_bind_ok by (by apply ccm_aad_ref). fold (nblocks c).
  pose proof (nblocks_tiles c ltac:(lia)) as Ht.
  erewrite cm_bind_ok by (apply (dec_loop_ref nonce _ c mic_size Hn HF _ _ 0 []);
    [done | done | done | by apply ref_aad_len]).
  change (drop (length (@nil Z)) c) with (drop 0 c). rewrite drop_0. simpl app.
  fold (ref_cipher ecb_of nonce c). fold p.
  assert (Hp : length p = length c) by (by eapply ctr_xor_len).
  rewrite (proj2 (orb_true_iff _ _)) by (destruct Hmic as [-> | ->]; auto).
  unfold ccm_mic. rewrite (proj2 (Z.eqb_neq (len c) 0)) by lia.
  erewrite cm_bind_ok by done.
  replace (xor_bytes _ _) with tag; last first.
  { unfold tag, ref_tag, nblocks, len, X0. rewrite Hp. done. }
  destruct out_mic; [done|].
  destruct (buf_split sz mic_size) as (s1 & s2 & -> & Hs1); [lia|].
  replace (take (Z.to_nat mic_size) (s1 ++ s2)) with s1
    by (unfold len in Hs1; rewrite take_app_length' by lia; done).
  erewrite cm_bind_ok; [done|]. unfold cm_read. simpl.
  rewrite (app_assoc sa c), rd_range_mid; [done | rewrite len_app; lia | done].
Qed.

(** What encryption sends. *)
Definition sealed_msg (nonce aad msg : list Z) (mic_size : Z) : list Z :=
  ref_cipher ecb_of nonce msg ++ take (Z.to_nat mic_size) (ref_tag ecb_of nonce aad msg mic_size).

Lemma sealed_msg_len nonce aad msg mic_size :
  len nonce = 13 -> 1 <= len msg -> ccm_size_ok mic_size ->
  len (sealed_msg nonce aad msg mic_size) = len msg + mic_size.
Proof.
  intros Hn Hm Hmic. unfold sealed_msg. rewrite len_app.
  pose proof (ctr_xor_len nonce _ 0 msg _ Hn (nblocks_tiles msg Hm)) as Hc.
  pose proof (ref_tag_len nonce aad msg mic_size Hn) as Ht.
  assert (mic_size = 4 \/ mic_size = 8) by (destruct Hmic; auto).
  unfold ref_cipher, len in *. rewrite length_take, Hc. lia.
Qed.

(** It is read back by the same key, whatever follows it. *)
Lemma ccm_unseal nonce aad msg mic_size out dz z :
  len nonce = 13 -> aad_ok aad -> 1 <= len msg -> 5 <= len msg + mic_size < 0x10000 ->
  ccm_size_ok mic_size -> length out = length msg -> mic_size <= len dz ->
  let tag := ref_tag ecb_of nonce aad msg mic_size in
  let sent := sealed_msg nonce aad msg mic_size in
  mesh_crypto_aes_ccm_decrypt nonce key aad (len aad) (len msg + mic_size) mic_size false
    (Separate (sent ++ z) 0 (out ++ dz) 0) = Ok (Some (true, tag), Separate (sent ++ z) 0 (msg ++ dz) 0).
Proof.
  intros Hn Haad Hm Hl Hmic Hout Hdz tag sent. unfold sent, sealed_msg. fold tag.
  set (c := ref_cipher ecb_of nonce msg). pose proof (nblocks_tiles msg Hm) as Ht.
  assert (Hc : length c = length msg) by (by eapply ctr_xor_len).
  assert (Hr : 4 <= mic_size <= 8) by (destruct Hmic; lia).
  assert (Htag : len tag = 16) by by apply ref_tag_len.
  set (m := take (Z.to_nat mic_size) tag).
  assert (Htk : length m = Z.to_nat mic_size) by (unfold m; unfold len in Htag; rewrite length_take; lia).
  assert (Hlc : len c = len msg) by (unfold len; lia).
  assert (Hp : ref_cipher ecb_of nonce c = msg).
  { unfold ref_cipher at 1. replace (nblocks c) with (nblocks msg) by (unfold nblocks; by rewrite Hlc).
    by eapply (ctr_xor_involutive nonce (nblocks msg)). }
  pose proof (ccm_decrypt_eq nonce aad c mic_size [] (m ++ z) [] out dz false Hn Haad
    ltac:(lia) ltac:(lia) ltac:(lia) Hmic ltac:(lia)) as Hx.
  rewrite Hp in Hx. fold tag in Hx. simpl in Hx. change (len []) with 0 in Hx.
  rewrite drop_0, Hlc, (take_app_length' m) in Hx by done. rewrite <-app_assoc.
  rewrite Hx; [| rewrite len_app; unfold len in *; lia | done].
  unfold m, ccm_out_mic. rewrite Z.eqb_refl. do 3 f_equal. by rewrite drop_ge by lia.
Qed.
End Refinement.

(** ** Theorems *)

(** C14: encryption implements CCM.  Over any working cipher backend, for a
    message of 1 to 65535 octets, no associated data or at least 15 octets of it,
    and a MIC of 4 or 8 octets, [mesh_crypto_aes_ccm_encrypt] - in place or into
    another object - leaves the counter-mode ciphertext followed by the truncated
    CBC-MAC tag of the reference definition where the message or the output area
    was, changes nothing else, and touches no memory outside the objects. *)
Theorem ccm_encrypt_refines (A : Alg) (AO : AlgOk A) (AT : AlgTotal A) key nonce aad msg
    mic_size F :
  len key = 16 -> len nonce = 13 -> aad_ok aad -> 1 <= len msg < 0x10000 ->
  ccm_size_ok mic_size -> frame_fits F msg mic_size ->
  let tag := ref_tag (ecb_of key) nonce aad msg mic_size in
  mesh_crypto_aes_ccm_encrypt nonce key aad (len aad) (len msg) mic_size (io_of F msg []) =
  Ok (Some tag, io_done F msg (ref_cipher (ecb_of key) nonce msg)
                  (take (Z.to_nat mic_size) tag)).
Proof. intros. by apply ccm_encrypt_eq. Qed.

Lemma ccm_encrypt_refines_witness :
  mesh_crypto_aes_ccm_encrypt (rep 13 5) (rep 16 9) (rep 16 3) (len (rep 16 3))
    (len (rep 20 1)) 4 (io_of (FIn [7; 7] (rep 6 0)) (rep 20 1) []) =
  Ok (Some (ref_tag (ecb_of (rep 16 9)) (rep 13 5) (rep 16 3) (rep 20 1) 4),
      io_done (FIn [7; 7] (rep 6 0)) (rep 20 1)
        (ref_cipher (ecb_of (rep 16 9)) (rep 13 5) (rep 20 1))
        (take (Z.to_nat 4) (ref_tag (ecb_of (rep 16 9)) (rep 13 5) (rep 16 3) (rep 20 1) 4))).
Proof.
  apply (ccm_encrypt_refines toy_alg _ _ (rep 16 9) (rep 13 5) (rep 16 3) (rep 20 1) 4
    (FIn [7; 7] (rep 6 0))); try by vm_compute.
  - right. by vm_compute.
  - by left.
Defined.

(** C26: decryption inverts encryption.  The ciphertext and the truncated tag
    that encryption produces, decrypted under the same key, nonce and associated
    data, give back the message, and the MIC check answers true. *)
Theorem ccm_decrypt_encrypt (A : Alg) (AO : AlgOk A) (AT : AlgTotal A) key nonce aad msg
    mic_size out dz :
  len key = 16 -> len nonce = 13 -> aad_ok aad -> 1 <= len msg ->
  5 <= len msg + mic_size < 0x10000 -> ccm_size_ok mic_size ->
  length out = length msg -> mic_size <= len dz ->
  let tag := ref_tag (ecb_of key) nonce aad msg mic_size in
  let sent := ref_cipher (ecb_of key) nonce msg ++ take (Z.to_nat mic_size) tag in
  mesh_crypto_aes_ccm_encrypt nonce key aad (len aad) (len msg) mic_size
    (Separate msg 0 (out ++ dz) 0) =
    Ok (Some tag, Separate msg 0 (sent ++ drop (Z.to_nat mic_size) dz) 0) /\
  mesh_crypto_aes_ccm_decrypt nonce key aad (len aad) (len sent) mic_size false
    (Separate sent 0 (out ++ dz) 0) =
    Ok (Some (true, tag), Separate sent 0 (msg ++ dz) 0).
Proof.
  intros Hk Hn Haad Hm Hl Hmic Hout Hdz tag sent.
  set (c := ref_cipher (ecb_of key) nonce msg) in *.
  pose proof (nblocks_tiles msg Hm) as Ht.
  assert (Hc : length c = length msg) by (by eapply ctr_xor_len).
  assert (Hr : 4 <= mic_size <= 8) by (destruct Hmic; lia).
  assert (Htag : len tag = 16) by by apply ref_tag_len.
  assert (Htk : length (take (Z.to_nat mic_size) tag) = Z.to_nat mic_size).
  { unfold len in Htag. rewrite length_take. lia. }
  assert (Hlc : len c = len msg) by (unfold len; lia).
  split.
  - pose proof (ccm_encrypt_eq key Hk nonce aad msg mic_size (FSep [] [] [] out dz)
      Hn Haad ltac:(lia) Hmic (conj Hout Hdz)) as Hx.
    simpl in Hx. rewrite app_nil_r, drop_0 in Hx. change (len []) with 0 in Hx.
    rewrite Hx. fold tag c. rewrite Htk. unfold sent. by rewrite <-app_assoc.
  - pose proof (ccm_unseal key Hk nonce aad msg mic_size out dz [] Hn Haad Hm Hl Hmic Hout Hdz) as Hx.
    cbn zeta in Hx. unfold sealed_msg in Hx. fold tag c in Hx. rewrite app_nil_r in Hx. fold sent in Hx.
    replace (len sent) with (len msg + mic_size); [exact Hx|].
    unfold sent. rewrite len_app. unfold len. lia.
Qed.

Lemma ccm_decrypt_encrypt_witness :
  let msg := rep 21 4 in
  let tag := ref_tag (ecb_of (rep 16 9)) (rep 13 5) [] msg 8 in
  let sent := ref_cipher (ecb_of (rep 16 9)) (rep 13 5) msg ++ take (Z.to_nat 8) tag in
  mesh_crypto_aes_ccm_encrypt (rep 13 5) (rep 16 9) [] (len []) (len msg) 8
    (Separate msg 0 (rep 21 0 ++ rep 8 0) 0) =
    Ok (Some tag, Separate msg 0 (sent ++ drop (Z.to_nat 8) (rep 8 0)) 0) /\
  mesh_crypto_aes_ccm_decrypt (rep 13 5) (rep 16 9) [] (len []) (len sent) 8 false
    (Separate sent 0 (rep 21 0 ++ rep 8 0) 0) =
    Ok (Some (true, tag), Separate sent 0 (msg ++ rep 8 0) 0).
Proof.
  apply (ccm_decrypt_encrypt toy_alg _ _ (rep 16 9) (rep 13 5) [] (rep 21 4) 8
    (rep 21 0) (rep 8 0)); try by vm_compute.
  - by left.
  - by right.
Defined.

(** Short associated data is over-read.  With 1 to 14 octets of associated
    data the loop of the first block never runs, the final block starts again at
    octet 0 of the block - over the length field - and reads two octets past the
    end of the data. *)
Theorem ccm_short_aad_overread (A : Alg) (AO : AlgOk A) (AT : AlgTotal A) key nonce aad
    msg_len mic_size io :
  len key = 16 -> len nonce = 13 -> 1 <= len aad <= 14 ->
  mesh_crypto_aes_ccm_encrypt nonce key aad (len aad) msg_len mic_size io = Fault Oob.
Proof.
  intros Hk Hn Ha. unfold mesh_crypto_aes_ccm_encrypt.
  rewrite (proj2 (Z.leb_gt 0xff00 (len aad))) by lia.
  erewrite cm_bind_ok by (by apply aes_ecb_ok, ctr_block_len).
  erewrite cm_bind_ok by (by apply aes_ecb_ok, first_block_len).
  unfold ccm_aad. rewrite (proj2 (truth_true (len aad))), u16_small by lia.
  assert (Hf : exists f, 4096%nat = S f) by (by exists 4095%nat). destruct Hf as [f ->].
  cbn [ccm_aad_loop]. rewrite (proj2 (Z.ltb_ge 16 _)) by lia.
  unfold mbind, cm_bind, cm_pure. by rewrite rd_range_oob by lia.
Qed.

Lemma ccm_short_aad_overread_witness :
  mesh_crypto_aes_ccm_encrypt (rep 13 5) (rep 16 9) [1; 2; 3] (len [1; 2; 3]) 4 4
    (InPlace (rep 8 0) 0) = Fault Oob.
Proof.
  apply (ccm_short_aad_overread toy_alg _ _ (rep 16 9) (rep 13 5) [1; 2; 3] 4 4
    (InPlace (rep 8 0) 0)); by vm_compute.
Defined.
