(* ===== verification/Crypto.v ===== *)
(** * Key derivation, nonces and packet security functions

    The functions of [src/blueZ/mesh/crypto.c] on top of AES-CMAC, AES-ECB and
    AES-CCM.  A function with an output array takes the old contents of the
    array and returns its truth value with the new contents, so that a caller
    which ignores the result sees what the code leaves there. *)

From Stdlib Require Import String Ascii.
From S2P Require Import Prelude Bytes Alg Ccm.

Definition CTL : Z := 0x80.
Definition TTL_MASK : Z := 0x7f.
Definition SEQ_MASK : Z := 0xffffff.

Section Code.
Context `{Alg}.

Definition CMAC_MSG_MAX : Z := 64 + 64 + 17.

Definition aes_cmac_one (key msg res : list Z) : bool * list Z :=
  if CMAC_MSG_MAX <? len msg then (false, res) else
  match alg_cmac key msg with Some c => (true, c) | None => (false, res) end.

Definition mesh_crypto_aes_cmac (key msg res : list Z) : bool * list Z :=
  aes_cmac_one key msg res.

Definition aes_ecb_one (key plaintext encrypted : list Z) : bool * list Z :=
  match alg_ecb key plaintext with Some c => (true, c) | None => (false, encrypted) end.

Definition mesh_crypto_s1 (info salt : list Z) : bool * list Z :=
  aes_cmac_one (rep 16 0) info salt.

Definition mesh_crypto_k1 (ikm salt info okm : list Z) : bool * list Z :=
  let '(ok, res) := aes_cmac_one salt ikm (rep 16 0) in
  if negb ok then (false, okm) else aes_cmac_one res info okm.

(** The outputs of [mesh_crypto_k2]: NID, encryption key, privacy key. *)
Record k2_out := K2 { k2_nid : Z; k2_enc : list Z; k2_priv : list Z }.

Definition mesh_crypto_k2 (n p : list Z) (out : k2_out) : bool * k2_out :=
  let '(ok, salt) := mesh_crypto_s1 (octets "smk2") (rep 16 0) in
  if negb ok then (false, out) else
  let '(ok, t) := aes_cmac_one salt n (rep 16 0) in
  if negb ok then (false, out) else
  let '(ok, output) := aes_cmac_one t (p ++ [1]) (rep 16 0) in
  if negb ok then (false, out) else
  let out := K2 (Z.land (nth 15 output 0) 0x7f) (k2_enc out) (k2_priv out) in
  let '(ok, output) := aes_cmac_one t (output ++ p ++ [2]) output in
  if negb ok then (false, out) else
  let out := K2 (k2_nid out) output (k2_priv out) in
  let '(ok, output) := aes_cmac_one t (output ++ p ++ [3]) output in
  if negb ok then (false, out) else
  (true, K2 (k2_nid out) (k2_enc out) output).

Definition crypto_128 (n s out128 : list Z) : bool * list Z :=
  let '(ok, salt) := mesh_crypto_s1 s (rep 16 0) in
  if negb ok then (false, out128) else
  mesh_crypto_k1 n salt (octets "id128" ++ [0x01]) out128.

Definition mesh_crypto_nkik (n identity_key : list Z) : bool * list Z :=
  crypto_128 n (octets "nkik") identity_key.

Definition mesh_crypto_nkbk (n beacon_key : list Z) : bool * list Z :=
  crypto_128 n (octets "nkbk") beacon_key.

(** [id] is sixteen octets, the hash and the random number; [random] is what
    [mesh_get_random_bytes] stores when a fresh identity is made. *)
Definition identity_calc (net_key : list Z) (addr : Z) (check : bool) (random id : list Z)
    : bool * list Z :=
  let '(ok, id_key) := mesh_crypto_nkik net_key (rep 16 0) in
  if negb ok then (false, id) else
  let r := if check then drop 8 id else random in
  let tmp := rep 6 0 ++ r ++ to_be 2 addr in
  let id := if check then id else take 8 id ++ random in
  let '(ok, tmp) := aes_ecb_one id_key tmp tmp in
  if negb ok then (false, id) else
  if check then (bool_decide (take 8 id = drop 8 tmp), id)
  else (true, drop 8 tmp ++ drop 8 id).

Definition mesh_crypto_identity (net_key : list Z) (addr : Z) (random id : list Z)
    : bool * list Z :=
  identity_calc net_key addr false random id.

Definition mesh_crypto_identity_check (net_key : list Z) (addr : Z) (id : list Z) : bool :=
  fst (identity_calc net_key addr true [] id).

Definition mesh_crypto_k3 (n out64 : list Z) : bool * list Z :=
  let '(ok, tmp) := mesh_crypto_s1 (octets "smk3") (rep 16 0) in
  if negb ok then (false, out64) else
  let '(ok, t) := aes_cmac_one tmp n (rep 16 0) in
  if negb ok then (false, out64) else
  let '(ok, tmp) := aes_cmac_one t (octets "id64" ++ [0x01]) tmp in
  if negb ok then (false, out64) else (true, drop 8 tmp).

Definition mesh_crypto_k4 (a : list Z) (out6 : Z) : bool * Z :=
  let '(ok, tmp) := mesh_crypto_s1 (octets "smk4") (rep 16 0) in
  if negb ok then (false, out6) else
  let '(ok, t) := aes_cmac_one tmp a (rep 16 0) in
  if negb ok then (false, out6) else
  let '(ok, tmp) := aes_cmac_one t (octets "id6" ++ [0x01]) tmp in
  if negb ok then (false, out6) else (true, Z.land (nth 15 tmp 0) 0x3f).

(** [None] where it returns false. *)
Definition mesh_crypto_beacon_cmac (encryption_key network_id : list Z) (iv_index : Z)
    (kr iu : bool) : option Z :=
  let b := Z.lor (if kr then 0x01 else 0x00) (if iu then 0x02 else 0x00) in
  let msg := b :: network_id ++ to_be 4 iv_index in
  let '(ok, tmp) := aes_cmac_one encryption_key msg (rep 16 0) in
  if negb ok then None else Some (of_be (take 8 tmp)).

(** ** Nonces *)

Definition mesh_crypto_network_nonce (ctl : bool) (ttl seq src iv_index : Z) : list Z :=
  [0; Z.lor (Z.land ttl TTL_MASK) (if ctl then CTL else 0x00);
   Z.land (Z.shiftr seq 16) 0xff; Z.land (Z.shiftr seq 8) 0xff; Z.land seq 0xff]
  ++ to_be 2 src ++ to_be 2 0 ++ to_be 4 iv_index.

Definition access_nonce (kind seq src dst iv_index : Z) (aszmic : bool) : list Z :=
  [kind; if aszmic then 0x80 else 0x00;
   Z.shiftr (Z.land seq 0x00ff0000) 16; Z.shiftr (Z.land seq 0x0000ff00) 8;
   Z.land seq 0x000000ff;
   Z.shiftr (Z.land src 0xff00) 8; Z.land src 0x00ff;
   Z.shiftr (Z.land dst 0xff00) 8; Z.land dst 0x00ff]
  ++ to_be 4 iv_index.

Definition mesh_crypto_application_nonce (seq src dst iv_index : Z) (aszmic : bool)
    : list Z := access_nonce 0x01 seq src dst iv_index aszmic.
Definition mesh_crypto_device_nonce (seq src dst iv_index : Z) (aszmic : bool)
    : list Z := access_nonce 0x02 seq src dst iv_index aszmic.

(** ** Encryption with the nonces: the message length is one octet wide *)

Definition mesh_crypto_network_encrypt (ctl : bool) (ttl seq src iv_index : Z)
    (net_key : list Z) (enc_msg_len : Z) : CM (list Z) :=
  mesh_crypto_aes_ccm_encrypt (mesh_crypto_network_nonce ctl ttl seq src iv_index) net_key
    [] 0 (u8 enc_msg_len) (if ctl then 8 else 4).

Definition mesh_crypto_network_decrypt (ctl : bool) (ttl seq src iv_index : Z)
    (net_key : list Z) (enc_msg_len : Z) (net_mic : bool) (mic_size : Z)
    : CM (bool * list Z) :=
  mesh_crypto_aes_ccm_decrypt (mesh_crypto_network_nonce ctl ttl seq src iv_index) net_key
    [] 0 (u8 enc_msg_len) mic_size net_mic.

Definition mesh_crypto_application_encrypt (key_id seq src dst iv_index : Z)
    (app_key aad : list Z) (aad_len msg_len mic_size : Z) : CM (list Z) :=
  let aszmic := mic_size =? 8 in
  let nonce := if truth key_id
    then mesh_crypto_application_nonce seq src dst iv_index aszmic
    else mesh_crypto_device_nonce seq src dst iv_index aszmic in
  mesh_crypto_aes_ccm_encrypt nonce app_key aad (u8 aad_len) (u8 msg_len) mic_size.

Definition mesh_crypto_application_decrypt (key_id seq src dst iv_index : Z)
    (app_key aad : list Z) (aad_len enc_msg_len : Z) (app_mic : bool) (mic_size : Z)
    : CM (bool * list Z) :=
  let aszmic := mic_size =? 8 in
  let nonce := if truth key_id
    then mesh_crypto_application_nonce seq src dst iv_index aszmic
    else mesh_crypto_device_nonce seq src dst iv_index aszmic in
  mesh_crypto_aes_ccm_decrypt nonce app_key aad (u8 aad_len) (u8 enc_msg_len) mic_size app_mic.

(** ** Provisioning *)

(** The two chained MACs of the provisioning keys. *)
Definition mesh_crypto_session_key (secret salt session_key : list Z) : bool * list Z :=
  let '(ok, session_key) := aes_cmac_one salt secret session_key in
  if negb ok then (false, session_key) else
  aes_cmac_one session_key (octets "prsk") session_key.

Definition mesh_crypto_nonce (secret salt nonce : list Z) : bool * list Z :=
  let '(ok, tmp) := aes_cmac_one salt secret (rep 16 0) in
  if negb ok then (false, nonce) else
  let '(result, tmp) := aes_cmac_one tmp (octets "prsn") tmp in
  (result, if result then drop 3 tmp else nonce).

Definition mesh_crypto_prov_prov_salt (conf_salt prov_rand dev_rand prov_salt : list Z)
    : bool * list Z :=
  aes_cmac_one (rep 16 0) (conf_salt ++ prov_rand ++ dev_rand) prov_salt.

Definition mesh_crypto_prov_conf_key (secret salt conf_key : list Z) : bool * list Z :=
  let '(ok, conf_key) := aes_cmac_one salt secret conf_key in
  if negb ok then (false, conf_key) else
  aes_cmac_one conf_key (octets "prck") conf_key.

Definition mesh_crypto_device_key (secret salt device_key : list Z) : bool * list Z :=
  let '(ok, device_key) := aes_cmac_one salt secret device_key in
  if negb ok then (false, device_key) else
  aes_cmac_one device_key (octets "prdk") device_key.

(** The virtual address of a label UUID, [None] where it returns false. *)
Definition mesh_crypto_virtual_addr (virtual_label : list Z) : option Z :=
  let '(ok, tmp) := mesh_crypto_s1 (octets "vtad") (rep 16 0) in
  if negb ok then None else
  let '(ok, tmp) := aes_cmac_one tmp virtual_label tmp in
  if negb ok then None else
  Some (Z.lor (Z.land (of_be (take 2 (drop 14 tmp))) 0x3fff) 0x8000).

End Code.

(** ** With a working backend the derivations are functions of the key *)

Section Derivation.
Context {A : Alg} {AO : AlgOk A} {AT : AlgTotal A}.

Definition cmac (key msg : list Z) : list Z := default [] (alg_cmac key msg).

Lemma cmac_ok key msg : len key = 16 -> len (cmac key msg) = 16 /\ bytes (cmac key msg).
Proof.
  intros Hk. unfold cmac. destruct (alg_cmac_total key msg Hk) as [c Hc].
  rewrite Hc. by eapply alg_cmac_block.
Qed.

Lemma aes_cmac_one_ok key msg res :
  len key = 16 -> len msg <= 145 -> aes_cmac_one key msg res = (true, cmac key msg).
Proof.
  intros Hk Hm. unfold aes_cmac_one, CMAC_MSG_MAX. rewrite (proj2 (Z.ltb_ge _ _)) by done.
  unfold cmac. by destruct (alg_cmac_total key msg Hk) as [c ->].
Qed.

Definition s1_of (info : list Z) : list Z := cmac (rep 16 0) info.
Definition k1_of (ikm salt info : list Z) : list Z := cmac (cmac salt ikm) info.
Definition nkbk_of (n : list Z) : list Z := k1_of n (s1_of (octets "nkbk")) (octets "id128" ++ [1]).
Definition k2_of (n : list Z) : k2_out :=
  let t := cmac (s1_of (octets "smk2")) n in
  let t1 := cmac t [0; 1] in let t2 := cmac t (t1 ++ [0; 2]) in
  let t3 := cmac t (t2 ++ [0; 3]) in
  K2 (Z.land (nth 15 t1 0) 0x7f) t2 t3.
Definition k3_of (n : list Z) : list Z :=
  drop 8 (cmac (cmac (s1_of (octets "smk3")) n) (octets "id64" ++ [1])).
Definition k4_of (n : list Z) : Z :=
  Z.land (nth 15 (cmac (cmac (s1_of (octets "smk4")) n) (octets "id6" ++ [1])) 0) 0x3f.

(** Rewrites every MAC of the goal; the lengths are constants or follow from
    [cmac_ok]. *)
Ltac cmac_len :=
  rewrite ?len_app, ?len_cons; unfold s1_of;
  repeat match goal with
  | |- context [len (cmac ?k ?m)] => rewrite (proj1 (cmac_ok k m ltac:(cmac_len)))
  end; first [done | lia | by vm_compute].
Ltac cmac_run := repeat (rewrite aes_cmac_one_ok by cmac_len; cbn [negb]).

Lemma s1_ok info o : len info <= 145 -> mesh_crypto_s1 info o = (true, s1_of info).
Proof. intros. unfold mesh_crypto_s1. by apply aes_cmac_one_ok. Qed.

Lemma nkbk_ok n o : len n = 16 -> mesh_crypto_nkbk n o = (true, nkbk_of n).
Proof.
  intros Hn. unfold mesh_crypto_nkbk, crypto_128, mesh_crypto_k1.
  rewrite s1_ok by done. cbn [negb]. cmac_run. done.
Qed.

Lemma k2_ok n o : len n = 16 -> mesh_crypto_k2 n [0] o = (true, k2_of n).
Proof.
  intros Hn. unfold mesh_crypto_k2. rewrite s1_ok by done. cbn [negb app]. cmac_run. done.
Qed.

Lemma k3_ok n o : len n = 16 -> mesh_crypto_k3 n o = (true, k3_of n).
Proof.
  intros Hn. unfold mesh_crypto_k3. rewrite s1_ok by done. cbn [negb]. cmac_run. done.
Qed.

Lemma k4_ok n o : len n = 16 -> mesh_crypto_k4 n o = (true, k4_of n).
Proof.
  intros Hn. unfold mesh_crypto_k4. rewrite s1_ok by done. cbn [negb]. cmac_run. done.
Qed.

Lemma k2_nid_range n : 0 <= k2_nid (k2_of n) < 0x80.
Proof. unfold k2_of. cbn [k2_nid]. rewrite land_7f. zlia. Qed.
Lemma k4_range n : 0 <= k4_of n < 0x40.
Proof. unfold k4_of. rewrite land_3f. zlia. Qed.
Lemma k2_keys_len n : len n = 16 -> len (k2_enc (k2_of n)) = 16 /\ len (k2_priv (k2_of n)) = 16.
Proof. intros Hn. unfold k2_of. cbn [k2_enc k2_priv]. split; cmac_len. Qed.
End Derivation.

(** ** Theorems *)

(** What a nonce stands for. *)
Inductive nonce_id :=
| NetNonce (ctl : bool) (ttl seq src iv_index : Z)
| AppNonce (seq src dst iv_index : Z) (aszmic : bool)
| DevNonce (seq src dst iv_index : Z) (aszmic : bool).

Definition nonce_of (i : nonce_id) : list Z :=
  match i with
  | NetNonce c t s a iv => mesh_crypto_network_nonce c t s a iv
  | AppNonce s a d iv m => mesh_crypto_application_nonce s a d iv m
  | DevNonce s a d iv m => mesh_crypto_device_nonce s a d iv m
  end.

(** Fields within the widths of the packet. *)
Definition nonce_wf (i : nonce_id) : bool :=
  match i with
  | NetNonce _ t s a iv =>
      (0 <=? t) && (t <? 128) && (0 <=? s) && (s <? 0x1000000) && (0 <=? a) && (a <? 0x10000)
      && (0 <=? iv) && (iv <? 0x100000000)
  | AppNonce s a d iv _ | DevNonce s a d iv _ =>
      (0 <=? s) && (s <? 0x1000000) && (0 <=? a) && (a <? 0x10000)
      && (0 <=? d) && (d <? 0x10000) && (0 <=? iv) && (iv <? 0x100000000)
  end.

Lemma to_be_inj n v w :
  0 <= v < 0x100 ^ Z.of_nat n -> 0 <= w < 0x100 ^ Z.of_nat n -> to_be n v = to_be n w -> v = w.
Proof.
  intros Hv Hw H. apply (f_equal of_be) in H. rewrite !of_be_to_be in H.
  by rewrite !Z.mod_small in H.
Qed.

Lemma land_byte x k : 0 <= k -> Z.land (Z.shiftr x k) 0xff = x / 2 ^ k mod 0x100.
Proof. intros. by rewrite land_ff, Z.shiftr_div_pow2. Qed.

(** [(x & 0xff << k) >> k] *)
Lemma land_field x k : 0 <= k ->
  Z.shiftr (Z.land x (Z.shiftl 0xff k)) k = x / 2 ^ k mod 0x100.
Proof.
  intros Hk. rewrite Z.shiftr_land, <-land_byte by done. f_equal.
  by rewrite Z.shiftr_shiftl_l, Z.sub_diag by done.
Qed.

Lemma network_nonce_fields c t s a iv :
  nonce_wf (NetNonce c t s a iv) = true ->
  mesh_crypto_network_nonce c t s a iv =
  [0; t + 128 * b2z c] ++ to_be 3 s ++ to_be 2 a ++ to_be 2 0 ++ to_be 4 iv.
Proof.
  unfold nonce_wf. intros. bool_hyps. unfold mesh_crypto_network_nonce.
  replace (Z.lor (Z.land t TTL_MASK) (if c then CTL else 0)) with (t + 128 * b2z c).
  - rewrite !land_byte, land_ff by lia. simpl.
    repeat (f_equal; try zlia).
  - unfold TTL_MASK. rewrite land_7f, Z.mod_small by lia. symmetry.
    replace (if c then CTL else 0) with (Z.shiftl (b2z c) 7) by by destruct c.
    rewrite lor_shiftl_add by lia. destruct c; simpl b2z; lia.
Qed.

Lemma access_nonce_fields k s a d iv m :
  nonce_wf (AppNonce s a d iv m) = true ->
  access_nonce k s a d iv m =
  [k; 128 * b2z m] ++ to_be 3 s ++ to_be 2 a ++ to_be 2 d ++ to_be 4 iv.
Proof.
  unfold nonce_wf. intros. bool_hyps. unfold access_nonce.
  change 0x00ff0000 with (Z.shiftl 0xff 16). change 0xff00 with (Z.shiftl 0xff 8).
  rewrite (land_field s 16 ltac:(lia)), (land_field s 8 ltac:(lia)), land_ff by lia.
  rewrite (land_field a 8 ltac:(lia)), land_ff by lia.
  rewrite (land_field d 8 ltac:(lia)), land_ff by lia. simpl.
  destruct m; simpl; repeat (f_equal; try zlia).
Qed.

Lemma app_inj_len {X} (a b c d : list X) : length a = length c -> a ++ b = c ++ d -> a = c /\ b = d.
Proof. intros Hl H. by apply app_inj_1. Qed.

Lemma header_inj (k x : Z) (s a d iv k' x' s' a' d' iv' : Z) :
  0 <= s < 0x1000000 -> 0 <= a < 0x10000 -> 0 <= d < 0x10000 -> 0 <= iv < 0x100000000 ->
  0 <= s' < 0x1000000 -> 0 <= a' < 0x10000 -> 0 <= d' < 0x10000 -> 0 <= iv' < 0x100000000 ->
  [k; x] ++ to_be 3 s ++ to_be 2 a ++ to_be 2 d ++ to_be 4 iv =
  [k'; x'] ++ to_be 3 s' ++ to_be 2 a' ++ to_be 2 d' ++ to_be 4 iv' ->
  k = k' /\ x = x' /\ s = s' /\ a = a' /\ d = d' /\ iv = iv'.
Proof.
  intros ???????? Heq. apply app_inj_len in Heq as [[= -> ->] Heq]; [|done].
  apply app_inj_len in Heq as [Hs Heq]; [|by rewrite !length_to_be].
  apply app_inj_len in Heq as [Ha Heq]; [|by rewrite !length_to_be].
  apply app_inj_len in Heq as [Hd Hiv]; [|by rewrite !length_to_be].
  apply to_be_inj in Hs, Ha, Hd, Hiv; tauto || done.
Qed.

(** C36: no two packets share a nonce.  Nonces made for different keys' purposes
    (network, application, device) or from different fields - CTL, TTL,
    sequence number, addresses, IV index, MIC size - differ, for all fields
    within their widths. *)
Theorem nonce_unique i j :
  nonce_wf i = true -> nonce_wf j = true -> nonce_of i = nonce_of j -> i = j.
Proof.
  intros Hi Hj Heq.
  assert (Hb : ∀ t b t' b', 0 <= t < 128 -> 0 <= t' < 128 ->
    t + 128 * b2z b = t' + 128 * b2z b' -> t = t' /\ b = b').
  { intros t b t' b' ?? ?. destruct b, b'; simpl in *; split; (done || lia). }
  destruct i, j; simpl in Heq;
    unfold mesh_crypto_application_nonce, mesh_crypto_device_nonce in Heq;
    repeat (rewrite (network_nonce_fields _ _ _ _ _ Hi) in Heq
      || rewrite (access_nonce_fields _ _ _ _ _ _ Hi) in Heq
      || rewrite (network_nonce_fields _ _ _ _ _ Hj) in Heq
      || rewrite (access_nonce_fields _ _ _ _ _ _ Hj) in Heq);
    unfold nonce_wf in Hi, Hj; bool_hyps;
    apply header_inj in Heq as (Hk & Hx & -> & -> & Hd & ->); try lia; try done; subst.
  - apply Hb in Hx as [-> ->]; [done | lia | lia].
  - apply (Hb 0 _ 0) in Hx as [_ ->]; [done | lia | lia].
  - apply (Hb 0 _ 0) in Hx as [_ ->]; [done | lia | lia].
Qed.

Lemma nonce_unique_witness :
  NetNonce true 5 7 9 11 = NetNonce true 5 7 9 11.
Proof.
  apply nonce_unique; [by vm_compute | by vm_compute | by vm_compute].
Defined.

(** A node recognises its own identity.  The sixteen octets that
    [mesh_crypto_identity] advertises for a network key and an address pass
    [mesh_crypto_identity_check] for them, whatever the random part. *)
Theorem identity_check_accepts (A : Alg) (AO : AlgOk A) net_key addr random id id' :
  len random = 8 -> len id = 16 ->
  mesh_crypto_identity net_key addr random id = (true, id') ->
  mesh_crypto_identity_check net_key addr id' = true /\ len id' = 16.
Proof.
  intros Hr Hid. unfold mesh_crypto_identity, mesh_crypto_identity_check, identity_calc.
  destruct (mesh_crypto_nkik net_key (rep 16 0)) as [ok id_key].
  destruct ok; [|done]. cbn [negb]. unfold aes_ecb_one.
  assert (Hd : drop 8 (take 8 id ++ random) = random).
  { unfold len in *. rewrite drop_app_length' by (rewrite length_take; lia). done. }
  rewrite Hd.
  destruct (alg_ecb id_key (rep 6 0 ++ random ++ to_be 2 addr)) as [c|] eqn:E; [|done].
  cbn [negb]. intros [= <-].
  destruct (alg_ecb_block _ _ _ E) as [Hc _].
  assert (Hl : length (drop 8 c) = 8%nat) by (unfold len in Hc; rewrite length_drop; lia).
  rewrite (drop_app_length' (drop 8 c)), E by done. cbn [negb fst].
  rewrite (take_app_length' (drop 8 c)) by done.
  split; [by apply bool_decide_eq_true_2|].
  rewrite len_app. unfold len in *. lia.
Qed.

Lemma identity_check_accepts_witness :
  exists id', mesh_crypto_identity (rep 16 3) 0x1234 (rep 8 7) (rep 16 0) = (true, id') /\
  mesh_crypto_identity_check (rep 16 3) 0x1234 id' = true /\ len id' = 16.
Proof.
  eexists. split; [vm_compute; reflexivity|].
  apply (identity_check_accepts toy_alg _ (rep 16 3) 0x1234 (rep 8 7) (rep 16 0));
    vm_compute; reflexivity.
Defined.

(** Derived identifiers stay in their ranges.  A virtual address lies in
    0x8000..0xbfff - never a unicast or a group address -, a NID below 0x80 and
    an AID below 0x40, whatever the cipher returns. *)
Theorem derived_ids_in_range (A : Alg) label n p out a aid0 :
  (match mesh_crypto_virtual_addr label with
   | Some addr => 0x8000 <= addr <= 0xbfff | None => True end) /\
  (let '(ok, out') := mesh_crypto_k2 n p out in if ok then 0 <= k2_nid out' < 0x80 else True) /\
  (let '(ok, aid) := mesh_crypto_k4 a aid0 in if ok then 0 <= aid < 0x40 else True).
Proof.
  split; [|split].
  - unfold mesh_crypto_virtual_addr.
    destruct (mesh_crypto_s1 _ _) as [[] t]; cbn [negb]; [|done].
    destruct (aes_cmac_one _ _ _) as [[] t']; cbn [negb]; [|done].
    rewrite land_3fff. set (x := of_be _).
    pose proof (lor_shiftl_add (x mod 0x4000) 2 14 ltac:(lia) ltac:(zlia)) as Hor.
    change (Z.shiftl 2 14) with 0x8000 in Hor. rewrite Hor. zlia.
  - unfold mesh_crypto_k2.
    repeat (match goal with
      | |- context [mesh_crypto_s1 ?x ?y] => destruct (mesh_crypto_s1 x y) as [[] ?]
      | |- context [aes_cmac_one ?x ?y ?z] => destruct (aes_cmac_one x y z) as [[] ?]
      end; cbn [negb]; try done). cbn [k2_nid]. rewrite land_7f. zlia.
  - unfold mesh_crypto_k4.
    repeat (match goal with
      | |- context [mesh_crypto_s1 ?x ?y] => destruct (mesh_crypto_s1 x y) as [[] ?]
      | |- context [aes_cmac_one ?x ?y ?z] => destruct (aes_cmac_one x y z) as [[] ?]
      end; cbn [negb]; try done). rewrite land_3f. zlia.
Qed.

(** Access messages of more than 255 octets are truncated.  The length
    parameter of [mesh_crypto_application_encrypt] is one octet wide: of a message
    of 256 + n octets the first n are encrypted, the MIC covers only them and
    is written after them, and the rest of the output is left as it was. *)
Theorem application_encrypt_truncates (A : Alg) (AO : AlgOk A) (AT : AlgTotal A)
    key_id seq src dst iv key msg out n mic_size :
  len key = 16 -> len msg = 256 + n -> 1 <= n < 256 -> ccm_size_ok mic_size ->
  n + mic_size <= len out ->
  let nonce := nonce_of (if truth key_id then AppNonce seq src dst iv (mic_size =? 8)
                         else DevNonce seq src dst iv (mic_size =? 8)) in
  let m := take (Z.to_nat n) msg in
  let tag := ref_tag (ecb_of key) nonce [] m mic_size in
  mesh_crypto_application_encrypt key_id seq src dst iv key [] 0 (len msg) mic_size
    (Separate msg 0 out 0) =
  Ok (Some tag, Separate msg 0
        (ref_cipher (ecb_of key) nonce m ++ take (Z.to_nat mic_size) tag
          ++ drop (Z.to_nat (n + mic_size)) out) 0).
Proof.
  intros Hk Hm Hn Hmic Hout nonce m tag.
  assert (Hr : 4 <= mic_size <= 8) by (destruct Hmic; lia).
  assert (Hlm : len m = n) by (unfold m, len in *; rewrite length_take; lia).
  assert (Hnon : len nonce = 13).
  { unfold nonce. by destruct (truth key_id). }
  destruct (buf_split out n) as (o & dz & -> & Ho); [lia|]. rewrite len_app in Hout.
  pose proof (ccm_encrypt_eq key Hk nonce [] m mic_size
    (FSep [] (drop (Z.to_nat n) msg) [] o dz) Hnon ltac:(by left) ltac:(lia) Hmic) as Hx.
  specialize (Hx ltac:(simpl; unfold len in *; split; lia)). fold tag in Hx.
  assert (Htk : length (take (Z.to_nat mic_size) tag) = Z.to_nat mic_size).
  { pose proof (ref_tag_len key Hk nonce [] m mic_size Hnon) as Ht.
    fold tag in Ht. unfold len in Ht. rewrite length_take. lia. }
  unfold io_of, io_done in Hx. change (drop (length (@nil Z)) o) with (drop 0 o) in Hx.
  rewrite drop_0, Htk in Hx. simpl app in Hx. change (len []) with 0 in Hx.
  replace (m ++ drop (Z.to_nat n) msg) with msg in Hx by (symmetry; apply take_drop).
  unfold mesh_crypto_application_encrypt. change (u8 0) with 0.
  replace (u8 (len msg)) with (len m) by (rewrite Hm, Hlm; unfold u8; zlia).
  replace (if truth key_id then mesh_crypto_application_nonce seq src dst iv (mic_size =? 8)
    else mesh_crypto_device_nonce seq src dst iv (mic_size =? 8)) with nonce
    by (unfold nonce; by destruct (truth key_id)).
  rewrite Hx. do 5 f_equal. rewrite Z2Nat.inj_add, <-drop_drop by lia.
  f_equal. rewrite drop_app_length'; [done | unfold len in Ho; lia].
Qed.

Lemma application_encrypt_truncates_witness :
  let nonce := nonce_of (AppNonce 1 2 3 4 false) in
  let tag := ref_tag (ecb_of (rep 16 9)) nonce [] (take (Z.to_nat 2) (rep 258 1)) 4 in
  mesh_crypto_application_encrypt 0x41 1 2 3 4 (rep 16 9) [] 0 (len (rep 258 1)) 4
    (Separate (rep 258 1) 0 (rep 300 0) 0) =
  Ok (Some tag, Separate (rep 258 1) 0
        (ref_cipher (ecb_of (rep 16 9)) nonce (take (Z.to_nat 2) (rep 258 1))
          ++ take (Z.to_nat 4) tag ++ drop (Z.to_nat (2 + 4)) (rep 300 0)) 0).
Proof.
  apply (application_encrypt_truncates toy_alg _ _ 0x41 1 2 3 4 (rep 16 9) (rep 258 1)
    (rep 300 0) 2 4); try by vm_compute.
  by left.
Defined.
