(* ===== verification/Packet.v ===== *)
(** * Network packets: encryption and obfuscation

    [mesh_crypto_packet_encode] and [mesh_crypto_packet_decode] of
    [src/blueZ/mesh/crypto.c], over the packet buffers of the callers. *)

From S2P Require Import Prelude Bytes Alg Ccm Crypto.

Definition io_packet (io : ccm_io) : list Z :=
  match io with InPlace b _ => b | Separate _ _ d _ => d | NoOut s _ => s end.

Section Code.
Context `{Alg}.

(** [privacy_counter]: five zeros, the IV index and seven octets of the
    packet from the encrypted destination on. *)
Definition privacy_counter (iv_index : Z) (packet : list Z) : res (list Z) :=
  r ← rd_range packet 7 7; mret (rep 5 0 ++ to_be 4 iv_index ++ r).

(** [for (i = 0; i < 6; i++) p[1 + i] ^= tmp[i]]. *)
Definition obfuscate (p tmp : list Z) : res (list Z) :=
  h ← rd_range p 1 6; wr_range p 1 (xor_bytes h (take 6 tmp)).

(** The network nonce of the header in [p]; [proxy] when CTL is set and the
    packet is a proxy configuration message. *)
Definition packet_nonce (p : list Z) (proxy : bool) (iv_index : Z) : res (list Z) :=
  b1 ← rd p 1;
  r ← rd_range p 2 5;
  mret ((if proxy then [0x03; 0x00] else [0x00; b1]) ++ r ++ [0; 0] ++ to_be 4 iv_index).

(** The length of a packet is a [uint8_t] here and below; the definitions are of any
    number, and of the code where that is at most 255, as it is for every caller. *)
Definition mesh_crypto_packet_encode (packet : list Z) (packet_len : Z)
    (network_key : list Z) (iv_index : Z) (privacy_key : list Z) : res (bool * list Z) :=
  b1 ← rd packet 1;
  let ctl := truth (Z.land b1 CTL) in
  proxy ← (if ctl then dst ← get_be16 packet 7; mret (dst =? 0) else mret false);
  nonce ← packet_nonce packet proxy iv_index;
  let mic_size := if ctl then 8 else 4 in
  '(r, io) ← mesh_crypto_aes_ccm_encrypt nonce network_key [] 0
               (u16 (packet_len - 7 - mic_size)) mic_size (InPlace packet 7);
  let packet := io_packet io in
  match r with
  | None => mret (false, packet)
  | Some _ =>
      counter ← privacy_counter iv_index packet;
      let '(ok, tmp) := aes_ecb_one privacy_key counter (rep 16 0) in
      if negb ok then mret (false, packet) else
      packet ← obfuscate packet tmp;
      mret (true, packet)
  end.

(** Decryption of a packet whose header [out] holds in the clear, and the
    check of the MIC. *)
Definition packet_decrypt (packet : list Z) (packet_len : Z) (proxy : bool)
    (out : list Z) (iv_index : Z) (network_key : list Z) : res (bool * list Z) :=
  b1 ← rd out 1;
  let ctl := truth (Z.land b1 CTL) in
  nonce ← packet_nonce out (ctl && proxy) iv_index;
  let mic_size := if ctl then 8 else 4 in
  '(r, io) ← mesh_crypto_aes_ccm_decrypt nonce network_key [] 0
               (u16 (packet_len - 7)) mic_size true (Separate packet 7 out 7);
  let out := io_packet io in
  match r with
  | Some (true, mic) =>
      rx ← rd_range out (packet_len - mic_size) mic_size;
      let mic := Z.lxor (ccm_out_mic mic_size mic) (of_be rx) in
      out ← wr_range out (packet_len - mic_size) (to_be (Z.to_nat mic_size) mic);
      mret (mic =? 0, out)
  | _ => mret (false, out)
  end.

Definition mesh_crypto_packet_decode (packet : list Z) (packet_len : Z) (proxy : bool)
    (out : list Z) (iv_index : Z) (network_key privacy_key : list Z) : res (bool * list Z) :=
  if packet_len <? 14 then mret (false, out) else
  counter ← privacy_counter iv_index packet;
  let '(ok, tmp) := aes_ecb_one privacy_key counter (rep 16 0) in
  if negb ok then mret (false, out) else
  m ← rd_range packet 0 packet_len;
  out ← wr_range out 0 m;
  out ← obfuscate out tmp;
  src ← get_be16 out 5;
  if (src =? 0) || (0x8000 <=? src) then mret (false, out) else
  packet_decrypt packet packet_len proxy out iv_index network_key.

End Code.

(** ** The format on the air *)

Section Format.
Context {A : Alg} {AO : AlgOk A} {AT : AlgTotal A}.
Variables (nk pk : list Z).
Hypothesis Hnk : len nk = 16.
Hypothesis Hpk : len pk = 16.

(** The nonce of a header: [b1] is CTL and TTL, [r] the sequence number and the
    source address. *)
Definition header_nonce (b1 : Z) (r : list Z) (proxy : bool) (iv : Z) : list Z :=
  (if proxy then [0x03; 0x00] else [0x00; b1]) ++ r ++ [0; 0] ++ to_be 4 iv.

Definition is_ctl (b1 : Z) : bool := truth (Z.land b1 CTL).
Definition net_mic_size (b1 : Z) : Z := if is_ctl b1 then 8 else 4.

Definition pad_tag (b1 : Z) (r p : list Z) (proxy : bool) (iv : Z) : list Z :=
  ref_tag (ecb_of nk) (header_nonce b1 r proxy iv) [] p (net_mic_size b1).

(** The encrypted part: destination and payload, then the MIC. *)
Definition sealed (b1 : Z) (r p : list Z) (proxy : bool) (iv : Z) : list Z :=
  ref_cipher (ecb_of nk) (header_nonce b1 r proxy iv) p
    ++ take (Z.to_nat (net_mic_size b1)) (pad_tag b1 r p proxy iv).

(** The obfuscation mask of an encrypted part. *)
Definition pecb (iv : Z) (e : list Z) : list Z :=
  take 6 (ecb_of pk (rep 5 0 ++ to_be 4 iv ++ take 7 e)).

Definition on_air (b0 b1 : Z) (r p : list Z) (proxy : bool) (iv : Z) : list Z :=
  let e := sealed b1 r p proxy iv in b0 :: xor_bytes (b1 :: r) (pecb iv e) ++ e.

Lemma net_mic_size_ok b1 : ccm_size_ok (net_mic_size b1).
Proof. unfold net_mic_size. destruct (is_ctl b1); [by right | by left]. Qed.

Lemma net_mic_size_range b1 : 4 <= net_mic_size b1 <= 8.
Proof. destruct (net_mic_size_ok b1); lia. Qed.

Lemma header_nonce_len b1 r proxy iv : len r = 5 -> len (header_nonce b1 r proxy iv) = 13.
Proof.
  intros Hr. unfold header_nonce. rewrite !len_app, len_to_be, Hr. by destruct proxy.
Qed.

Lemma cipher_len b1 r p proxy iv :
  len r = 5 -> 1 <= len p ->
  length (ref_cipher (ecb_of nk) (header_nonce b1 r proxy iv) p) = length p.
Proof.
  intros. eapply ctr_xor_len; [done | by apply header_nonce_len | by apply nblocks_tiles].
Qed.

Lemma pad_tag_len b1 r p proxy iv :
  len r = 5 -> len (take (Z.to_nat (net_mic_size b1)) (pad_tag b1 r p proxy iv)) = net_mic_size b1.
Proof.
  intros. pose proof (net_mic_size_range b1) as Hr.
  pose proof (ref_tag_len nk Hnk (header_nonce b1 r proxy iv) [] p (net_mic_size b1)
    ltac:(by apply header_nonce_len)) as Hl.
  unfold pad_tag, len in *. rewrite length_take. lia.
Qed.

Lemma sealed_len b1 r p proxy iv :
  len r = 5 -> 1 <= len p -> len (sealed b1 r p proxy iv) = len p + net_mic_size b1.
Proof.
  intros. unfold sealed. rewrite len_app, pad_tag_len by done.
  unfold len. by rewrite cipher_len.
Qed.

Lemma packet_nonce_app b0 b1 r t proxy iv :
  len r = 5 -> packet_nonce (b0 :: b1 :: r ++ t) proxy iv = Ok (header_nonce b1 r proxy iv).
Proof.
  intros Hr. unfold packet_nonce. change (rd (b0 :: b1 :: r ++ t) 1) with (Ok b1). simpl.
  by rewrite (rd_range_mid [b0; b1] r t).
Qed.

Lemma obfuscate_app b0 h t tmp :
  len h = 6 -> len tmp = 16 ->
  obfuscate (b0 :: h ++ t) tmp = Ok (b0 :: xor_bytes h (take 6 tmp) ++ t).
Proof.
  intros Hh Ht. unfold obfuscate. rewrite (rd_range_mid [b0] h t) by done. simpl.
  apply (wr_range_mid [b0] h t); [done|].
  rewrite xor_bytes_length; [done|]. unfold len in *. rewrite length_take. lia.
Qed.

Lemma privacy_counter_app b0 h e t iv :
  len h = 6 -> 7 <= len e ->
  privacy_counter iv (b0 :: h ++ e ++ t) = Ok (rep 5 0 ++ to_be 4 iv ++ take 7 e).
Proof.
  intros Hh He. unfold privacy_counter. destruct (buf_split e 7) as (e1 & e2 & -> & He1); [lia|].
  replace (b0 :: h ++ (e1 ++ e2) ++ t) with ((b0 :: h) ++ e1 ++ e2 ++ t)
    by (by rewrite <-!app_assoc).
  rewrite rd_range_mid by (rewrite ?len_cons; lia). simpl.
  do 3 f_equal. unfold len in He1. rewrite take_app_length'; [done | lia].
Qed.

Lemma privacy_ecb iv e :
  7 <= len e ->
  aes_ecb_one pk (rep 5 0 ++ to_be 4 iv ++ take 7 e) (rep 16 0) =
  (true, ecb_of pk (rep 5 0 ++ to_be 4 iv ++ take 7 e)) /\
  len (ecb_of pk (rep 5 0 ++ to_be 4 iv ++ take 7 e)) = 16.
Proof.
  intros He. assert (Hl : len (rep 5 0 ++ to_be 4 iv ++ take 7 e) = 16).
  { rewrite !len_app, len_to_be. unfold len in *. rewrite length_take.
    change (length (rep 5 0)) with 5%nat. lia. }
  destruct (ecb_of_len pk Hpk _ Hl) as [Hc _]. split; [|done].
  unfold aes_ecb_one, ecb_of. by destruct (alg_ecb_total pk _ Hpk Hl) as [c ->].
Qed.

(** Reads of the header, and the cipher at its place in the packet. *)
Lemma proxy_detect b0 b1 r p t :
  len r = 5 -> 2 <= len p ->
  let packet := b0 :: b1 :: r ++ p ++ t in
  (if is_ctl b1 then dst ← get_be16 packet 7; mret (dst =? 0) else mret false) =
  Ok (is_ctl b1 && (of_be (take 2 p) =? 0)).
Proof.
  intros Hr Hp packet. unfold packet, get_be16. destruct (is_ctl b1); [|done].
  destruct (buf_split p 2) as (p1 & p2 & -> & Hp1); [lia|].
  replace (b0 :: b1 :: r ++ (p1 ++ p2) ++ t) with ((b0 :: b1 :: r) ++ p1 ++ p2 ++ t)
    by (simpl; by rewrite <-!app_assoc).
  rewrite rd_range_mid by (rewrite ?len_cons; lia). simpl.
  unfold len in Hp1. rewrite take_app_length' by lia. done.
Qed.

Lemma packet_parts packet n :
  14 <= n <= len packet ->
  exists b0 h e t, packet = b0 :: h ++ e ++ t /\ len h = 6 /\ len e = n - 7.
Proof.
  intros Hn. destruct packet as [|b0 l]; [unfold len in Hn; simpl in Hn; lia|].
  rewrite len_cons in Hn.
  destruct (buf_split l 6) as (h & l' & -> & Hh); [lia|]. rewrite len_app in Hn.
  destruct (buf_split l' (n - 7)) as (e & t & -> & He); [lia|].
  by exists b0, h, e, t.
Qed.

Lemma src_at b0 b1 r t :
  len r = 5 -> rd_range (b0 :: b1 :: r ++ t) 5 2 = Ok (drop 3 r).
Proof.
  intros Hr. destruct (buf_split r 3) as (r1 & r2 & -> & Hr1); [lia|]. rewrite len_app in Hr.
  replace (drop 3 (r1 ++ r2)) with r2
    by (unfold len in Hr1; rewrite drop_app_length' by lia; done).
  replace (b0 :: b1 :: (r1 ++ r2) ++ t) with ((b0 :: b1 :: r1) ++ r2 ++ t)
    by (simpl; by rewrite <-!app_assoc).
  apply rd_range_mid; rewrite ?len_cons; lia.
Qed.

Lemma encrypt_at b0 b1 r p z t proxy iv :
  len r = 5 -> 1 <= len p < 0x10000 -> len z = net_mic_size b1 ->
  mesh_crypto_aes_ccm_encrypt (header_nonce b1 r proxy iv) nk [] 0 (len p) (net_mic_size b1)
    (InPlace (b0 :: b1 :: r ++ p ++ z ++ t) 7) =
  Ok (Some (pad_tag b1 r p proxy iv),
      InPlace (b0 :: (b1 :: r) ++ sealed b1 r p proxy iv ++ t) 7).
Proof.
  intros Hr Hp Hz. pose proof (net_mic_size_range b1) as Hm.
  pose proof (ccm_encrypt_eq nk Hnk (header_nonce b1 r proxy iv) [] p (net_mic_size b1)
    (FIn (b0 :: b1 :: r) (z ++ t)) (header_nonce_len _ _ _ _ Hr) ltac:(by left) Hp
    (net_mic_size_ok b1)) as Hx.
  specialize (Hx ltac:(simpl; rewrite len_app; pose proof (len_nonneg t); lia)).
  unfold io_of, io_done in Hx. change (drop (length (@nil Z)) p) with (drop 0 p) in Hx.
  rewrite drop_0 in Hx. change (len []) with 0 in Hx. cbn [app] in Hx.
  replace (len (b0 :: b1 :: r)) with 7 in Hx by (rewrite !len_cons; lia).
  rewrite Hx. fold (pad_tag b1 r p proxy iv). unfold sealed.
  pose proof (pad_tag_len b1 r p proxy iv Hr) as Hmic.
  set (mic := take (Z.to_nat (net_mic_size b1)) (pad_tag b1 r p proxy iv)) in *.
  replace (drop (length mic) (z ++ t)) with t
    by (unfold len in *; rewrite drop_app_length' by lia; done).
  cbn [app]. by rewrite <-!app_assoc.
Qed.

Lemma decrypt_at b0 h b1 r c m t dz proxy iv :
  len h = 6 -> len r = 5 -> 1 <= len c -> 5 <= len c + len m -> len c + len m < 0x10000 ->
  len m = net_mic_size b1 ->
  let p := ref_cipher (ecb_of nk) (header_nonce b1 r proxy iv) c in
  mesh_crypto_aes_ccm_decrypt (header_nonce b1 r proxy iv) nk [] 0
    (len c + net_mic_size b1) (net_mic_size b1) true
    (Separate (b0 :: h ++ c ++ m ++ t) 7 (b0 :: b1 :: r ++ c ++ m ++ dz) 7) =
  Ok (Some (true, pad_tag b1 r p proxy iv),
      Separate (b0 :: h ++ c ++ m ++ t) 7 (b0 :: b1 :: r ++ p ++ m ++ dz) 7).
Proof.
  intros Hh Hr Hc H5 Hw Hm p.
  pose proof (ccm_decrypt_eq nk Hnk (header_nonce b1 r proxy iv) [] c (net_mic_size b1)
    (b0 :: h) (m ++ t) (b0 :: b1 :: r) c (m ++ dz) true (header_nonce_len _ _ _ _ Hr)
    ltac:(by left) Hc ltac:(lia) ltac:(lia) (net_mic_size_ok b1) eq_refl) as Hd.
  specialize (Hd ltac:(rewrite len_app; pose proof (len_nonneg t); lia)
                 ltac:(rewrite len_app; pose proof (len_nonneg dz); lia)).
  cbn zeta in Hd. unfold io_of in Hd.
  change (drop (length (@nil Z)) c) with (drop 0 c) in Hd. rewrite drop_0 in Hd.
  change (len []) with 0 in Hd. cbn [app] in Hd.
  replace (len (b0 :: h)) with 7 in Hd by (rewrite len_cons; lia).
  replace (len (b0 :: b1 :: r)) with 7 in Hd by (rewrite !len_cons; lia).
  rewrite Hd. fold p. rewrite drop_ge; [done|].
  pose proof (cipher_len b1 r c proxy iv Hr Hc). unfold p. lia.
Qed.

(** Encoding puts the packet into the format; [z] is the room for the MIC. *)
Lemma encode_on_air b0 b1 r p z t iv :
  len r = 5 -> 3 <= len p < 0xff00 -> len z = net_mic_size b1 ->
  let proxy := is_ctl b1 && (of_be (take 2 p) =? 0) in
  mesh_crypto_packet_encode (b0 :: b1 :: r ++ p ++ z ++ t) (7 + len p + net_mic_size b1)
    nk iv pk = Ok (true, on_air b0 b1 r p proxy iv ++ t).
Proof.
  intros Hr Hp Hz proxy. pose proof (net_mic_size_range b1) as Hm.
  unfold mesh_crypto_packet_encode.
  change (rd (b0 :: b1 :: r ++ p ++ z ++ t) 1) with (Ok b1). cbn [mbind res_bind].
  fold (is_ctl b1). fold (net_mic_size b1).
  pose proof (proxy_detect b0 b1 r p (z ++ t) Hr ltac:(lia)) as Hpx. cbn zeta in Hpx.
  fold proxy in Hpx.
  rewrite Hpx. cbn [mbind res_bind]. rewrite packet_nonce_app by done. cbn [mbind res_bind].
  replace (u16 (7 + len p + net_mic_size b1 - 7 - net_mic_size b1)) with (len p)
    by (rewrite u16_small; lia).
  pose proof (encrypt_at b0 b1 r p z t proxy iv Hr ltac:(lia) Hz) as Hx.
  rewrite Hx. cbn [mbind res_bind io_packet].
  pose proof (sealed_len b1 r p proxy iv Hr ltac:(lia)) as Hsl.
  rewrite privacy_counter_app by (rewrite ?len_cons; lia). cbn [mbind res_bind].
  destruct (privacy_ecb iv (sealed b1 r p proxy iv)) as [-> Hkl]; [lia|]. cbn [negb].
  rewrite obfuscate_app by (rewrite ?len_cons; lia). cbn [mbind res_bind].
  unfold on_air, pecb. cbn [app]. by rewrite <-!app_assoc.
Qed.

Lemma mask_len iv e : 7 <= len e -> length (pecb iv e) = 6%nat.
Proof.
  intros He. destruct (privacy_ecb iv e He) as [_ Hk].
  unfold pecb, len in *. rewrite length_take. lia.
Qed.

(** The header of a received packet: [e] is its encrypted part. *)
Lemma decode_front b0 h b1 r e t pf out iv :
  len h = 6 -> xor_bytes h (pecb iv e) = b1 :: r -> 7 <= len e -> 7 + len e <= len out ->
  len r = 5 /\
  let out' := b0 :: b1 :: r ++ e ++ drop (Z.to_nat (7 + len e)) out in
  let src := of_be (drop 3 r) in
  mesh_crypto_packet_decode (b0 :: h ++ e ++ t) (7 + len e) pf out iv nk pk =
  if (src =? 0) || (0x8000 <=? src) then Ok (false, out')
  else packet_decrypt (b0 :: h ++ e ++ t) (7 + len e) pf out' iv nk.
Proof.
  intros Hh Hx H7 Hout. pose proof (mask_len iv e H7) as Hml.
  assert (Hr : len r = 5).
  { assert (Hlx : length (xor_bytes h (pecb iv e)) = length h)
      by (apply xor_bytes_length; unfold len in Hh; lia).
    rewrite Hx in Hlx. unfold len in *. simpl in Hlx. lia. }
  split; [done|]. intros out' src. unfold mesh_crypto_packet_decode.
  rewrite (proj2 (Z.ltb_ge _ 14)), privacy_counter_app by lia. cbn [mbind res_bind].
  destruct (privacy_ecb iv e) as [-> Hkl]; [lia|]. cbn [negb].
  replace (rd_range (b0 :: h ++ e ++ t) 0 (7 + len e)) with (Ok (b0 :: h ++ e)).
  2: { replace (b0 :: h ++ e ++ t) with ((b0 :: h ++ e) ++ t)
         by (cbn [app]; by rewrite <-app_assoc).
       rewrite rd_range_begin; [done|]. rewrite len_cons, len_app. lia. }
  cbn [mbind res_bind]. unfold out'.
  destruct (buf_split out (7 + len e)) as (o & dz & -> & Ho); [pose proof (len_nonneg e); lia|].
  replace (drop (Z.to_nat (7 + len e)) (o ++ dz)) with dz
    by (unfold len in *; rewrite drop_app_length' by lia; done).
  rewrite (wr_range_begin o dz (b0 :: h ++ e)).
  2: { apply Nat2Z.inj. fold (len o). fold (len (b0 :: h ++ e)). rewrite len_cons, len_app. lia. }
  cbn [mbind res_bind app].
  replace (b0 :: (h ++ e) ++ dz) with (b0 :: h ++ (e ++ dz)) by (by rewrite <-app_assoc).
  rewrite obfuscate_app by done. cbn [mbind res_bind].
  change (take 6 (ecb_of pk (rep 5 0 ++ to_be 4 iv ++ take 7 e))) with (pecb iv e).
  rewrite Hx. unfold get_be16. cbn [app]. rewrite src_at by done.
  cbn [fmap res_fmap mbind res_bind]. done.
Qed.

(** Decoding of any packet with a legal source: [c] is the ciphertext and [m]
    the MIC. *)
Lemma decode_eq b0 h b1 r c m t pf out iv :
  len h = 6 -> xor_bytes h (pecb iv (c ++ m)) = b1 :: r ->
  1 <= len c -> 7 <= len c + len m -> 7 + len c + len m < 0x10000 ->
  len m = net_mic_size b1 -> 7 + len c + len m <= len out ->
  let src := of_be (drop 3 r) in
  let proxy := is_ctl b1 && pf in
  let p := ref_cipher (ecb_of nk) (header_nonce b1 r proxy iv) c in
  let tag := take (Z.to_nat (net_mic_size b1)) (pad_tag b1 r p proxy iv) in
  1 <= src < 0x8000 ->
  mesh_crypto_packet_decode (b0 :: h ++ c ++ m ++ t) (7 + len c + len m) pf out iv nk pk =
  Ok (of_be tag =? of_be m,
      b0 :: b1 :: r ++ p ++ to_be (length m) (Z.lxor (of_be tag) (of_be m))
        ++ drop (Z.to_nat (7 + len c + len m)) out).
Proof.
  intros Hh Hx Hc H7 Hw Hm Hout src proxy p tag Hsrc.
  pose proof (net_mic_size_range b1) as Hmr.
  assert (Hlc : 7 + len (c ++ m) = 7 + len c + len m) by (rewrite len_app; lia).
  destruct (decode_front b0 h b1 r (c ++ m) t pf out iv Hh Hx ltac:(lia) ltac:(lia)) as [Hr Hf].
  cbn zeta in Hf. rewrite <-!app_assoc, Hlc in Hf. rewrite Hf. fold src.
  rewrite (proj2 (Z.eqb_neq src 0)), (proj2 (Z.leb_gt 0x8000 src)) by lia. cbn [orb].
  set (dz := drop _ out). unfold packet_decrypt.
  change (rd (b0 :: b1 :: r ++ c ++ m ++ dz) 1) with (Ok b1). cbn [mbind res_bind].
  fold (is_ctl b1). fold (net_mic_size b1). fold proxy.
  rewrite packet_nonce_app by done. cbn [mbind res_bind].
  replace (u16 (7 + len c + len m - 7)) with (len c + net_mic_size b1) by (rewrite u16_small; lia).
  pose proof (decrypt_at b0 h b1 r c m t dz proxy iv Hh Hr Hc ltac:(lia) ltac:(lia) Hm) as Hd.
  cbn zeta in Hd. rewrite Hd. cbn [mbind res_bind io_packet]. fold p.
  assert (Hp : length p = length c) by by apply cipher_len.
  replace (b0 :: b1 :: r ++ p ++ m ++ dz) with ((b0 :: b1 :: r ++ p) ++ m ++ dz)
    by (simpl; by rewrite <-!app_assoc).
  assert (Hpos : 7 + len c + len m - net_mic_size b1 = len (b0 :: b1 :: r ++ p)).
  { rewrite !len_cons, len_app. unfold len in *. lia. }
  rewrite rd_range_mid by (done || lia). cbn [mbind res_bind].
  fold (pad_tag b1 r p proxy iv). unfold ccm_out_mic. fold tag.
  rewrite wr_range_mid by (rewrite ?length_to_be; unfold len in *; lia).
  replace (Z.to_nat (net_mic_size b1)) with (length m) by (unfold len in Hm; lia).
  cbn [mbind res_bind mret res_ret app]. rewrite <-!app_assoc.
  do 2 f_equal. apply eq_true_iff_eq. by rewrite !Z.eqb_eq, Z.lxor_eq_0_iff.
Qed.

Lemma mask_bytes iv e : 7 <= len e -> bytes (pecb iv e).
Proof.
  intros He. apply bytes_take, ecb_of_len; [done|]. rewrite !len_app, len_to_be.
  change (len (rep 5 0)) with 5. unfold len in *. rewrite length_take. lia.
Qed.

Lemma cipher_involutive b1 r p proxy iv :
  len r = 5 -> 1 <= len p ->
  let E := ref_cipher (ecb_of nk) (header_nonce b1 r proxy iv) in E (E p) = p.
Proof.
  intros Hr Hp E. pose proof (cipher_len b1 r p proxy iv Hr Hp) as Hl. fold E in Hl.
  unfold E at 1. unfold ref_cipher at 1. unfold nblocks at 1.
  replace (len (E p)) with (len p) by (unfold len; lia). fold (nblocks p).
  eapply (ctr_xor_involutive nk Hnk); [by apply header_nonce_len | by apply nblocks_tiles].
Qed.

Lemma decode_on_air b0 b1 r p pf t out iv :
  len r = 5 -> 3 <= len p < 0xf000 -> 1 <= of_be (drop 3 r) < 0x8000 ->
  let n := 7 + len p + net_mic_size b1 in
  let proxy := is_ctl b1 && pf in
  n <= len out ->
  mesh_crypto_packet_decode (on_air b0 b1 r p proxy iv ++ t) n pf out iv nk pk =
  Ok (true, b0 :: b1 :: r ++ p ++ rep (net_mic_size b1) 0 ++ drop (Z.to_nat n) out).
Proof.
  intros Hr Hp Hsrc n proxy Hout. pose proof (net_mic_size_range b1) as Hmr.
  pose proof (cipher_len b1 r p proxy iv Hr ltac:(lia)) as Hlc.
  pose proof (cipher_involutive b1 r p proxy iv Hr ltac:(lia)) as Hinv. cbn zeta in Hinv.
  pose proof (pad_tag_len b1 r p proxy iv Hr) as Hlm.
  unfold on_air, sealed.
  set (c := ref_cipher (ecb_of nk) (header_nonce b1 r proxy iv) p) in *.
  set (m := take (Z.to_nat (net_mic_size b1)) (pad_tag b1 r p proxy iv)) in *.
  assert (Hlc' : len c = len p) by (unfold len; lia).
  pose proof (mask_len iv (c ++ m) ltac:(rewrite len_app; lia)) as Hml.
  assert (Hl6 : length (b1 :: r) = 6%nat) by (unfold len in Hr; simpl; lia).
  set (h := xor_bytes (b1 :: r) (pecb iv (c ++ m))).
  pose proof (decode_eq b0 h b1 r c m t pf out iv) as Hd. cbn zeta in Hd. fold proxy in Hd.
  rewrite Hinv in Hd. fold m in Hd.
  rewrite Z.lxor_nilpotent, Z.eqb_refl, Hlc', Hlm, to_be_0 in Hd.
  replace ((b0 :: h ++ c ++ m) ++ t) with (b0 :: h ++ c ++ m ++ t)
    by (cbn [app]; by rewrite <-!app_assoc).
  unfold n. rewrite Hd; try done; try lia.
  - replace (replicate (length m) 0) with (rep (net_mic_size b1) 0); [done|].
    unfold rep. f_equal. unfold len in Hlm. lia.
  - unfold h, len. rewrite xor_bytes_length; lia.
  - unfold h. apply xor_bytes_involutive. lia.
Qed.

(** Too short for the long MIC: decryption leaves the objects or uses a MIC that
    was never computed. *)
Lemma decrypt_short b0 b1 r e t t' proxy iv :
  len r = 5 -> is_ctl b1 = true -> 7 <= len e <= 8 -> len t < 0xf000 ->
  packet_decrypt (b0 :: t) (7 + len e) proxy (b0 :: b1 :: r ++ t') iv nk =
  Fault (if len e =? 7 then Oob else Uninit).
Proof.
  intros Hr Hctl He Ht. unfold packet_decrypt.
  change (rd (b0 :: b1 :: r ++ t') 1) with (Ok b1). cbn [mbind res_bind].
  fold (is_ctl b1). rewrite Hctl, packet_nonce_app by done. cbn [mbind res_bind andb].
  replace (u16 (7 + len e - 7)) with (len e) by (rewrite u16_small; lia).
  destruct (ccm_decrypt_front nk Hnk (header_nonce b1 r proxy iv) (len e) 8 true
    (Separate (b0 :: t) 7 (b0 :: b1 :: r ++ t') 7)) as (X0 & cmic & HX0 & ->);
    [by apply header_nonce_len | lia |].
  assert (len e = 7 \/ len e = 8) as [-> | ->] by lia.
  - change (Z.to_nat (ccm_blk_cnt (u16 (7 - 8)))) with (S 4095).
    erewrite cm_bind_fault; [done|]. apply (dec_loop_oob nk Hnk); try done.
    + by apply header_nonce_len.
    + rewrite len_cons. change (ccm_last_blk (u16 (7 - 8))) with 15. lia.
  - done.
Qed.

(** Every packet is the image of some header and contents, if its MIC is right. *)
Lemma on_air_surjective b0 h b1 r c m proxy iv :
  len h = 6 -> len r = 5 -> 1 <= len c -> 7 <= len c + len m -> len m = net_mic_size b1 ->
  bytes m -> xor_bytes h (pecb iv (c ++ m)) = b1 :: r ->
  let p := ref_cipher (ecb_of nk) (header_nonce b1 r proxy iv) c in
  of_be (take (Z.to_nat (net_mic_size b1)) (pad_tag b1 r p proxy iv)) = of_be m ->
  len p = len c /\ b0 :: h ++ c ++ m = on_air b0 b1 r p proxy iv.
Proof.
  intros Hh Hr Hc H7 Hm Hbm Hx p Htag.
  pose proof (cipher_len b1 r c proxy iv Hr Hc) as Hlp. fold p in Hlp.
  assert (Hp : len p = len c) by (unfold len; lia). split; [done|].
  pose proof (pad_tag_len b1 r p proxy iv Hr) as Htl.
  apply of_be_inj in Htag; [|by apply bytes_take, ref_tag_bytes, header_nonce_len | done
                            | unfold len in *; lia].
  unfold on_air, sealed. rewrite Htag.
  pose proof (cipher_involutive b1 r c proxy iv Hr Hc) as Hinv. cbn zeta in Hinv. fold p in Hinv.
  rewrite Hinv, <-Hx, xor_bytes_involutive; [done|].
  rewrite mask_len; [unfold len in Hh; lia | rewrite len_app; lia].
Qed.
End Format.

(** ** Theorems *)

(** C20: decoding inverts encoding.  A network packet with a unicast source, a
    destination and a payload (at least three octets together), encrypted and
    obfuscated by [mesh_crypto_packet_encode] and received as what it is - a proxy
    configuration message or not - is decoded with the same keys and IV index to
    its header and contents, with the MIC area zeroed. *)
Theorem packet_decode_encode (A : Alg) (AO : AlgOk A) (AT : AlgTotal A) nk pk iv
    b0 b1 r p z out :
  len nk = 16 -> len pk = 16 -> len r = 5 -> 3 <= len p < 0xf000 ->
  len z = net_mic_size b1 -> 1 <= of_be (drop 3 r) < 0x8000 ->
  let n := 7 + len p + net_mic_size b1 in
  let proxy := is_ctl b1 && (of_be (take 2 p) =? 0) in
  len out = n ->
  exists sent,
    mesh_crypto_packet_encode (b0 :: b1 :: r ++ p ++ z) n nk iv pk = Ok (true, sent) /\
    mesh_crypto_packet_decode sent n proxy out iv nk pk =
      Ok (true, b0 :: b1 :: r ++ p ++ rep (net_mic_size b1) 0).
Proof.
  intros Hnk Hpk Hr Hp Hz Hsrc n proxy Hout.
  exists (on_air nk pk b0 b1 r p proxy iv). split.
  - pose proof (encode_on_air nk pk Hnk Hpk b0 b1 r p z [] iv Hr ltac:(lia) Hz) as He.
    cbn zeta in He. rewrite !app_nil_r in He. exact He.
  - pose proof (decode_on_air nk pk Hnk Hpk b0 b1 r p proxy [] out iv Hr Hp Hsrc) as Hd.
    cbn zeta in Hd. fold n in Hd.
    replace (is_ctl b1 && proxy) with proxy in Hd by (unfold proxy; by destruct (is_ctl b1)).
    rewrite drop_ge in Hd by (unfold len in Hout; lia). rewrite !app_nil_r in Hd.
    apply Hd. lia.
Qed.

Lemma packet_decode_encode_witness :
  let n := 7 + len (rep 20 9) + net_mic_size 0x85 in
  exists sent,
    mesh_crypto_packet_encode (0x68 :: 0x85 :: [0; 0; 1; 0x12; 0x34] ++ rep 20 9 ++ rep 8 0)
      n (rep 16 1) 5 (rep 16 2) = Ok (true, sent) /\
    mesh_crypto_packet_decode sent n false (rep n 0) 5 (rep 16 1) (rep 16 2) =
      Ok (true, 0x68 :: 0x85 :: [0; 0; 1; 0x12; 0x34] ++ rep 20 9 ++ rep (net_mic_size 0x85) 0).
Proof.
  apply (packet_decode_encode toy_alg _ _ (rep 16 1) (rep 16 2) 5 0x68 0x85
    [0; 0; 1; 0x12; 0x34] (rep 20 9) (rep 8 0) (rep 35 0)); by vm_compute.
Defined.

Lemma decode_authentic (A : Alg) (AO : AlgOk A) (AT : AlgTotal A) nk pk iv
    packet n pf out out' :
  len nk = 16 -> len pk = 16 -> bytes packet -> n <= len packet < 0x1000 -> n <= len out ->
  mesh_crypto_packet_decode packet n pf out iv nk pk = Ok (true, out') ->
  exists b0 b1 r p,
    len r = 5 /\ 1 <= of_be (drop 3 r) < 0x8000 /\ n = 7 + len p + net_mic_size b1 /\
    take (Z.to_nat n) packet = on_air nk pk b0 b1 r p (is_ctl b1 && pf) iv /\
    take (Z.to_nat (7 + len p)) out' = b0 :: b1 :: r ++ p.
Proof.
  intros Hnk Hpk Hb Hn Hout Hdec.
  destruct (Z.lt_ge_cases n 14) as [|H14].
  { unfold mesh_crypto_packet_decode in Hdec. by rewrite (proj2 (Z.ltb_lt _ _)) in Hdec. }
  destruct (packet_parts packet n ltac:(lia)) as (b0 & h & e & t & -> & Hh & He).
  apply Forall_cons in Hb as [_ Hb]. rewrite !bytes_app in Hb. destruct Hb as (Hbh & Hbe & _).
  assert (Hml := mask_len nk pk Hpk iv e ltac:(lia)).
  destruct (xor_bytes h (pecb pk iv e)) as [|b1 r] eqn:Hx.
  { apply (f_equal length) in Hx. rewrite xor_bytes_length in Hx; unfold len in Hh; simpl in *; lia. }
  destruct (decode_front nk pk Hpk b0 h b1 r e t pf out iv Hh Hx ltac:(lia) ltac:(lia))
    as [Hr Hf].
  cbn zeta in Hf. replace n with (7 + len e) in * by lia. pose proof Hdec as Hdec'. rewrite Hf in Hdec.
  destruct ((of_be (drop 3 r) =? 0) || (0x8000 <=? of_be (drop 3 r))) eqn:Hs; [done|].
  bool_hyps. pose proof (net_mic_size_range b1) as Hmr.
  destruct (Z.le_gt_cases (len e) (net_mic_size b1)) as [Hshort | Hlong].
  { assert (Hctl : is_ctl b1 = true)
      by (unfold net_mic_size in *; destruct (is_ctl b1); [done | lia]).
    rewrite len_cons in Hn. erewrite decrypt_short in Hdec; try done; lia. }
  destruct (buf_split e (len e - net_mic_size b1)) as (c & m & -> & Hc); [lia|].
  rewrite len_app in *. rewrite bytes_app in Hbe. destruct Hbe as [_ Hbm].
  assert (Hm : len m = net_mic_size b1) by lia.
  assert (Hsrc : 1 <= of_be (drop 3 r) < 0x8000).
  { assert (Hbr : bytes (b1 :: r)).
    { rewrite <-Hx. apply bytes_xor; [done|]. apply (mask_bytes nk pk Hpk). rewrite len_app. lia. }
    apply Forall_cons in Hbr as [_ Hbr].
    pose proof (of_be_range (drop 3 r) (bytes_drop 3 _ Hbr)). lia. }
  pose proof (decode_eq nk pk Hnk Hpk b0 h b1 r c m t pf out iv Hh Hx ltac:(lia) ltac:(lia)
    ltac:(lia) Hm ltac:(lia) Hsrc) as Hd. cbn zeta in Hd.
  rewrite <-app_assoc, Z.add_assoc, Hd in Hdec'. injection Hdec' as Htag <-. bool_hyps.
  destruct (on_air_surjective nk pk Hnk Hpk b0 h b1 r c m _ iv Hh Hr ltac:(lia) ltac:(lia) Hm
    Hbm Hx Htag) as [Hlp Hair].
  set (p := ref_cipher (ecb_of nk) _ c) in *.
  exists b0, b1, r, p. split_and!; try done; try lia.
  - rewrite <-Hair.
    replace (b0 :: h ++ (c ++ m) ++ t) with ((b0 :: h ++ c ++ m) ++ t)
      by (cbn [app]; by rewrite <-!app_assoc).
    apply take_app_length'. apply Nat2Z.inj. fold (len (b0 :: h ++ c ++ m)).
    rewrite len_cons, !len_app. lia.
  - rewrite (app_assoc r p). change (b0 :: b1 :: (r ++ p) ++ ?x) with ((b0 :: b1 :: r ++ p) ++ x).
    apply take_app_length'. apply Nat2Z.inj. fold (len (b0 :: b1 :: r ++ p)).
    rewrite !len_cons, !len_app. lia.
Qed.

(** From 16 octets on, decoding returns, whatever the octets are. *)
Lemma decode_total (A : Alg) (AO : AlgOk A) (AT : AlgTotal A) nk pk iv packet n pf out :
  len nk = 16 -> len pk = 16 -> bytes packet -> 16 <= n <= len packet -> n < 0x1000 -> n <= len out ->
  exists b out', mesh_crypto_packet_decode packet n pf out iv nk pk = Ok (b, out') /\ len out' = len out.
Proof.
  intros Hnk Hpk Hb Hn Hn' Hout.
  destruct (packet_parts packet n ltac:(lia)) as (b0 & h & e & t & -> & Hh & He).
  apply Forall_cons in Hb as [_ Hb]. rewrite !bytes_app in Hb. destruct Hb as (Hbh & Hbe & _).
  assert (Hml := mask_len nk pk Hpk iv e ltac:(lia)).
  destruct (xor_bytes h (pecb pk iv e)) as [|b1 r] eqn:Hx.
  { apply (f_equal length) in Hx. rewrite xor_bytes_length in Hx; unfold len in Hh; simpl in *; lia. }
  assert (Hbr : bytes (b1 :: r)).
  { rewrite <-Hx. apply bytes_xor; [done|]. apply (mask_bytes nk pk Hpk). lia. }
  apply Forall_cons in Hbr as [_ Hbr].
  destruct (decode_front nk pk Hpk b0 h b1 r e t pf out iv Hh Hx ltac:(lia) ltac:(lia))
    as [Hr Hf].
  cbn zeta in Hf. replace n with (7 + len e) in * by lia.
  pose proof (of_be_range (drop 3 r) (bytes_drop 3 _ Hbr)) as Hsr.
  assert (Hlo : ∀ x y z : list Z, len x = 5 -> len y + len z = len e ->
    len (b0 :: b1 :: x ++ y ++ z ++ drop (Z.to_nat (7 + len e)) out) = len out).
  { intros x y z Hx1 Hyz. unfold len in *. rewrite !length_cons, !length_app, length_drop. lia. }
  destruct ((of_be (drop 3 r) =? 0) || (0x8000 <=? of_be (drop 3 r))) eqn:Hs.
  { rewrite Hf. eexists _, _. split; [done|].
    by apply (Hlo r e []); [|rewrite Z.add_0_r]. }
  bool_hyps. pose proof (net_mic_size_range b1) as Hmr.
  destruct (buf_split e (len e - net_mic_size b1)) as (c & m & -> & Hc); [lia|].
  rewrite len_app in *. assert (Hm : len m = net_mic_size b1) by lia.
  pose proof (decode_eq nk pk Hnk Hpk b0 h b1 r c m t pf out iv Hh Hx ltac:(lia) ltac:(lia)
    ltac:(lia) Hm ltac:(lia) ltac:(lia)) as Hd. cbn zeta in Hd.
  rewrite <-app_assoc, Z.add_assoc, Hd. eexists _, _. split; [done|].
  rewrite <-Z.add_assoc. apply Hlo; [done|].
  pose proof (cipher_len nk Hnk b1 r c (is_ctl b1 && pf) iv Hr ltac:(lia)).
  unfold len in *. rewrite length_to_be. lia.
Qed.

(** C21: only packets made with the keys are accepted.  Whenever
    [mesh_crypto_packet_decode] returns true for a received packet of [n] octets, the
    packet is, octet for octet, the encoding under the same keys and IV index of
    the header and contents the function leaves in the output, and their source
    is a unicast address. *)
Theorem packet_decode_authentic (A : Alg) (AO : AlgOk A) (AT : AlgTotal A) nk pk iv
    packet n pf out out' :
  len nk = 16 -> len pk = 16 -> bytes packet -> n <= len packet < 0x1000 -> n <= len out ->
  mesh_crypto_packet_decode packet n pf out iv nk pk = Ok (true, out') ->
  exists b0 b1 r p,
    len r = 5 /\ 1 <= of_be (drop 3 r) < 0x8000 /\ n = 7 + len p + net_mic_size b1 /\
    take (Z.to_nat n) packet = on_air nk pk b0 b1 r p (is_ctl b1 && pf) iv /\
    take (Z.to_nat (7 + len p)) out' = b0 :: b1 :: r ++ p.
Proof. intros. by eapply decode_authentic. Qed.

Lemma packet_decode_authentic_witness :
  let sent := on_air (rep 16 1) (rep 16 2) 0x68 0x05 [0; 0; 1; 0x12; 0x34] (rep 20 9) false 5 in
  exists out',
  mesh_crypto_packet_decode sent 31 false (rep 31 0) 5 (rep 16 1) (rep 16 2) = Ok (true, out') /\
  exists b0 b1 r p,
    len r = 5 /\ 1 <= of_be (drop 3 r) < 0x8000 /\ 31 = 7 + len p + net_mic_size b1 /\
    take (Z.to_nat 31) sent = on_air (rep 16 1) (rep 16 2) b0 b1 r p (is_ctl b1 && false) 5 /\
    take (Z.to_nat (7 + len p)) out' = b0 :: b1 :: r ++ p.
Proof.
  eexists. split; [vm_compute; reflexivity|].
  apply (packet_decode_authentic toy_alg _ _ (rep 16 1) (rep 16 2) 5
    (on_air (rep 16 1) (rep 16 2) 0x68 0x05 [0; 0; 1; 0x12; 0x34] (rep 20 9) false 5)
    31 false (rep 31 0)); try by vm_compute.
  apply (bool_decide_unpack (bytes _)). by vm_compute.
Defined.

(** Short control packets are decrypted out of bounds.  The length check of
    [mesh_crypto_packet_decode] leaves room for the short MIC only: a packet of 14
    octets whose header comes out with CTL set makes the message length wrap to
    65535 and the decryption leave the objects, one of 15 octets uses a MIC that
    was never computed.  No key is needed to send either. *)
Theorem packet_decode_short_ctl (A : Alg) (AO : AlgOk A) (AT : AlgTotal A) nk pk iv
    b0 b1 r e t pf out :
  len nk = 16 -> len pk = 16 -> len r = 5 -> 7 <= len e <= 8 -> is_ctl b1 = true ->
  1 <= of_be (drop 3 r) < 0x8000 -> len t < 0x1000 -> 7 + len e <= len out ->
  mesh_crypto_packet_decode (b0 :: xor_bytes (b1 :: r) (pecb pk iv e) ++ e ++ t) (7 + len e)
    pf out iv nk pk = Fault (if len e =? 7 then Oob else Uninit).
Proof.
  intros Hnk Hpk Hr He Hctl Hsrc Ht Hout.
  pose proof (mask_len nk pk Hpk iv e ltac:(lia)) as Hml.
  assert (Hl6 : length (b1 :: r) = 6%nat) by (unfold len in Hr; simpl; lia).
  assert (Hh : len (xor_bytes (b1 :: r) (pecb pk iv e)) = 6)
    by (unfold len; rewrite xor_bytes_length; lia).
  destruct (decode_front nk pk Hpk b0 _ b1 r e t pf out iv Hh
    ltac:(apply xor_bytes_involutive; lia) ltac:(lia) Hout) as [_ Hf].
  cbn zeta in Hf. rewrite Hf.
  rewrite (proj2 (Z.eqb_neq (of_be (drop 3 r)) 0)), (proj2 (Z.leb_gt 0x8000 _)) by lia.
  cbn [orb]. apply decrypt_short; try done. rewrite !len_app. lia.
Qed.

Lemma packet_decode_short_ctl_witness :
  mesh_crypto_packet_decode
    (0x68 :: xor_bytes (0x85 :: [0; 0; 1; 0x12; 0x34]) (pecb (rep 16 2) 5 (rep 7 3)) ++ rep 7 3 ++ [])
    (7 + len (rep 7 3)) false (rep 29 0) 5 (rep 16 1) (rep 16 2) = Fault Oob.
Proof.
  apply (packet_decode_short_ctl toy_alg _ _ (rep 16 1) (rep 16 2) 5 0x68 0x85
    [0; 0; 1; 0x12; 0x34] (rep 7 3) []); by vm_compute.
Defined.
