(* ===== verification/Pdu.v ===== *)
(** * Fields of network and transport packets

    The accessor macros at the head of [src/blueZ/mesh/net.c].  [p] is a network
    packet, [t] its transport part (the packet from octet 9 on). *)

From S2P Require Import Prelude Bytes.

Definition AKF_BIT : Z := 0x40.

(** [(p)[i] = f ((p)[i])] *)
Definition upd (p : list Z) (i : Z) (f : Z -> Z) : res (list Z) :=
  b ← rd p i; wr p i (f b).

(** A flag in the top bit: [{(p)[i] &= 0x7f; (p)[i] |= v ? 0x80 : 0}]. *)
Definition set_flag (v : bool) (b : Z) : Z := Z.lor (Z.land b 0x7f) (if v then 0x80 else 0).
(** A field below it: [{(p)[i] &= mask; (p)[i] |= v}]. *)
Definition set_field (mask v b : Z) : Z := u8 (Z.lor (Z.land b mask) v).

(** ** Network packet *)

Definition PKT_IVI (p : list Z) : res bool := b ← rd p 0; mret (truth (Z.land b 0x80)).
Definition SET_PKT_IVI (p : list Z) (v : bool) := upd p 0 (set_flag v).
Definition PKT_NID (p : list Z) : res Z := b ← rd p 0; mret (Z.land b 0x7f).
Definition SET_PKT_NID (p : list Z) (v : Z) := upd p 0 (set_field 0x80 v).
Definition PKT_CTL (p : list Z) : res bool := b ← rd p 1; mret (truth (Z.land b 0x80)).
Definition SET_PKT_CTL (p : list Z) (v : bool) := upd p 1 (set_flag v).
Definition PKT_TTL (p : list Z) : res Z := b ← rd p 1; mret (Z.land b 0x7f).
Definition SET_PKT_TTL (p : list Z) (v : Z) := upd p 1 (set_field 0x80 v).
Definition PKT_SEQ (p : list Z) : res Z := w ← get_be32 p 1; mret (Z.land w 0xffffff).
Definition SET_PKT_SEQ (p : list Z) (v : Z) : res (list Z) :=
  b ← rd p 1; put_be32 (u32 (Z.shiftl b 24 + Z.land v 0xffffff)) p 1.
Definition PKT_SRC (p : list Z) : res Z := get_be16 p 5.
Definition SET_PKT_SRC (p : list Z) (v : Z) := put_be16 v p 5.
Definition PKT_DST (p : list Z) : res Z := get_be16 p 7.
Definition SET_PKT_DST (p : list Z) (v : Z) := put_be16 (u16 v) p 7.
Definition PKT_TRANS (p : list Z) : list Z := drop 9 p.
Definition PKT_TRANS_LEN (l : Z) : Z := l - 9.

Definition PKT_SEGMENTED (p : list Z) : res bool := b ← rd p 9; mret (truth (Z.land b 0x80)).
Definition SET_PKT_SEGMENTED (p : list Z) (v : bool) := upd p 9 (set_flag v).
Definition SET_PKT_AKF_AID (p : list Z) (v : Z) := upd p 9 (set_field 0x80 v).
Definition PKT_OPCODE (p : list Z) : res Z := b ← rd p 9; mret (Z.land b 0x7f).
Definition SET_PKT_OPCODE (p : list Z) (v : Z) := upd p 9 (set_field 0x80 v).
Definition PKT_OBO (p : list Z) : res bool := b ← rd p 10; mret (truth (Z.land b 0x80)).
Definition SET_PKT_SZMIC (p : list Z) (v : bool) := upd p 10 (set_flag v).
Definition PKT_SEQ0 (p : list Z) : res Z :=
  w ← get_be16 p 10; mret (Z.land (Z.shiftr w 2) 0x1fff).
Definition SET_PKT_SEQ0 (p : list Z) (v : Z) : res (list Z) :=
  w ← get_be16 p 10;
  put_be16 (u16 (Z.lor (Z.land w 0x8003) (Z.shiftl (Z.land v 0x1fff) 2))) p 10.
Definition SET_PKT_SEGO (p : list Z) (v : Z) : res (list Z) :=
  w ← get_be16 p 11; put_be16 (u16 (Z.lor (Z.land w 0xfc1f) (Z.shiftl v 5))) p 11.
Definition SET_PKT_SEGN (p : list Z) (v : Z) := upd p 12 (set_field 0xe0 v).
Definition PKT_ACK (p : list Z) : res Z := get_be32 p 12.

(** The three fields of a segment header, in the order [send_seg] sets them. *)
Definition set_seg_fields (p : list Z) (seq0 segO segN : Z) : res (list Z) :=
  p ← SET_PKT_SEQ0 p seq0; p ← SET_PKT_SEGO p segO; SET_PKT_SEGN p segN.

(** ** Transport part *)

Definition TRANS_SEGMENTED (t : list Z) : res bool := b ← rd t 0; mret (truth (Z.land b 0x80)).
Definition SET_TRANS_OPCODE (t : list Z) (v : Z) := upd t 0 (set_field 0x80 v).
Definition TRANS_AKF_AID (t : list Z) : res Z := b ← rd t 0; mret (Z.land b 0x7f).
Definition TRANS_AKF (t : list Z) : res bool := b ← rd t 0; mret (truth (Z.land b AKF_BIT)).
Definition TRANS_SZMIC (t : list Z) : res bool :=
  s ← TRANS_SEGMENTED t;
  if (s : bool) then b ← rd t 1; mret (truth (Z.land b 0x80)) else mret false.
Definition TRANS_SEQ0 (t : list Z) : res Z :=
  w ← get_be16 t 1; mret (Z.land (Z.shiftr w 2) 0x1fff).
Definition SET_TRANS_SEQ0 (t : list Z) (v : Z) : res (list Z) :=
  w ← get_be16 t 1;
  put_be16 (u16 (Z.lor (Z.land w 0x8003) (Z.shiftl (Z.land v 0x1fff) 2))) t 1.
Definition SET_TRANS_ACK (t : list Z) (v : Z) : res (list Z) := put_be32 v t 3.
Definition TRANS_SEGO (t : list Z) : res Z :=
  w ← get_be16 t 2; mret (Z.land (Z.shiftr w 5) 0x1f).
Definition TRANS_SEGN (t : list Z) : res Z := b ← rd t 3; mret (Z.land b 0x1f).

(** Offset and length of the payload of a transport part of [l] octets. *)
Definition TRANS_PAYLOAD (t : list Z) : res Z :=
  s ← TRANS_SEGMENTED t; mret (if (s : bool) then 4 else 1).
Definition TRANS_LEN (t : list Z) (l : Z) : res Z :=
  s ← TRANS_SEGMENTED t; mret (l - (if (s : bool) then 4 else 1)).

(** ** The setters on a packet given by its octets *)

Lemma rd_mid a b c i : i = len a -> rd (a ++ b :: c) i = Ok b.
Proof.
  intros ->. unfold rd. rewrite (proj2 (Z.leb_le _ _)) by auto with buf.
  unfold len. rewrite Nat2Z.id, lookup_app_r, Nat.sub_diag by lia. done.
Qed.

Lemma wr_mid a b c i v : i = len a -> wr (a ++ b :: c) i v = Ok (a ++ v :: c).
Proof.
  intros ->. rewrite wr_ok.
  - unfold len. rewrite Nat2Z.id, insert_app_r_alt, Nat.sub_diag by lia. done.
  - rewrite len_app, len_cons. pose proof (len_nonneg a). pose proof (len_nonneg c). lia.
Qed.

Lemma upd_mid a b c i f : i = len a -> upd (a ++ b :: c) i f = Ok (a ++ f b :: c).
Proof. intros Hi. unfold upd. rewrite rd_mid by done. cbn. by apply wr_mid. Qed.

Lemma top_bit b : is_u8 b -> truth (Z.land b 0x80) = (0x80 <=? b).
Proof.
  intros Hb. apply eqb_prop.
  refine (all_below_spec 256 (fun b => Bool.eqb (truth (Z.land b 0x80)) (0x80 <=? b)) b _ Hb).
  vm_compute. reflexivity.
Qed.

Lemma set_flag_eq b v : 0 <= v < 0x80 -> set_flag b v = v + 0x80 * b2z b.
Proof. intros Hv. destruct b; unfold set_flag, b2z; by_evaluation v. Qed.

Lemma set_field_eq v b : 0 <= v < 0x80 -> set_field 0x80 v (set_flag b 0) = v + 0x80 * b2z b.
Proof. intros Hv. destruct b; unfold set_field, b2z; by_evaluation v. Qed.

Lemma set_field_0 v : 0 <= v < 0x80 -> set_field 0x80 v 0 = v.
Proof. intros Hv. unfold set_field. by_evaluation v. Qed.

Section Octets.
Variables (p0 p1 p2 p3 p4 p5 p6 p7 p8 p9 p10 p11 p12 : Z) (r : list Z).

Lemma set_nid_eq v : SET_PKT_NID (p0 :: r) v = Ok (set_field 0x80 v p0 :: r).
Proof. by apply (upd_mid []). Qed.
Lemma set_ivi_eq v : SET_PKT_IVI (p0 :: r) v = Ok (set_flag v p0 :: r).
Proof. by apply (upd_mid []). Qed.
Lemma set_ctl_eq v : SET_PKT_CTL (p0 :: p1 :: r) v = Ok (p0 :: set_flag v p1 :: r).
Proof. by apply (upd_mid [p0]). Qed.
Lemma set_ttl_eq v : SET_PKT_TTL (p0 :: p1 :: r) v = Ok (p0 :: set_field 0x80 v p1 :: r).
Proof. by apply (upd_mid [p0]). Qed.

(** The sequence number goes below the octet that holds CTL and TTL. *)
Lemma set_seq_eq v : is_u8 p1 ->
  SET_PKT_SEQ (p0 :: p1 :: p2 :: p3 :: p4 :: r) v = Ok (p0 :: p1 :: to_be 3 v ++ r).
Proof.
  intros Hp. unfold SET_PKT_SEQ.
  change (rd (p0 :: p1 :: p2 :: p3 :: p4 :: r) 1) with (Ok p1). cbn [mbind res_bind].
  unfold put_be32. rewrite (wr_range_mid [p0] [p1; p2; p3; p4] r) by done.
  rewrite land_ffffff, Z.shiftl_mul_pow2, u32_small by zlia.
  change (p0 :: p1 :: to_be 3 v ++ r) with ([p0] ++ (p1 :: to_be 3 v) ++ r).
  cbn [app to_be]. do 2 f_equal. repeat (f_equal; try zlia).
Qed.

Lemma set_src_eq v :
  SET_PKT_SRC (p0 :: p1 :: p2 :: p3 :: p4 :: p5 :: p6 :: r) v =
  Ok (p0 :: p1 :: p2 :: p3 :: p4 :: to_be 2 v ++ r).
Proof. by apply (wr_range_mid [p0; p1; p2; p3; p4] [p5; p6] r). Qed.
Lemma set_dst_eq v :
  SET_PKT_DST (p0 :: p1 :: p2 :: p3 :: p4 :: p5 :: p6 :: p7 :: p8 :: r) v =
  Ok (p0 :: p1 :: p2 :: p3 :: p4 :: p5 :: p6 :: to_be 2 (u16 v) ++ r).
Proof. by apply (wr_range_mid [p0; p1; p2; p3; p4; p5; p6] [p7; p8] r). Qed.
End Octets.

(** The transport part, behind the nine octets [h] of the network header. *)
Section Trans.
Variables (h : list Z) (t0 t1 t2 t3 : Z) (r : list Z).
Hypothesis Hh : len h = 9.

Lemma set_segmented_eq v : SET_PKT_SEGMENTED (h ++ t0 :: r) v = Ok (h ++ set_flag v t0 :: r).
Proof. by apply upd_mid. Qed.
Lemma set_akf_aid_eq v : SET_PKT_AKF_AID (h ++ t0 :: r) v = Ok (h ++ set_field 0x80 v t0 :: r).
Proof. by apply upd_mid. Qed.
Lemma set_opcode_eq v : SET_PKT_OPCODE (h ++ t0 :: r) v = Ok (h ++ set_field 0x80 v t0 :: r).
Proof. by apply upd_mid. Qed.
Lemma set_szmic_eq v :
  SET_PKT_SZMIC (h ++ t0 :: t1 :: r) v = Ok (h ++ t0 :: set_flag v t1 :: r).
Proof.
  replace (h ++ t0 :: t1 :: r) with ((h ++ [t0]) ++ t1 :: r) by (by rewrite <-app_assoc).
  unfold SET_PKT_SZMIC. rewrite upd_mid by (rewrite len_app, Hh; done). by rewrite <-app_assoc.
Qed.

(** [SEQ0], [SEGO] and [SEGN] over a cleared header: the 24 bits hold SZMIC,
    13 bits of [SeqZero], five of [SegO] and five of [SegN]. *)
Lemma set_seg_eq (m : bool) v o n :
  0 <= o < 32 -> 0 <= n < 32 ->
  set_seg_fields (h ++ t0 :: (if m then 0x80 else 0) :: 0 :: 0 :: r) v o n =
  Ok (h ++ t0 :: to_be 3 (b2z m * 0x800000 + v mod 0x2000 * 0x400 + o * 0x20 + n) ++ r).
Proof.
  intros Ho Hn. unfold set_seg_fields, SET_PKT_SEQ0, get_be16, put_be16.
  set (b := if m then 0x80 else 0).
  replace (h ++ t0 :: b :: 0 :: 0 :: r) with ((h ++ [t0]) ++ [b; 0] ++ 0 :: r)
    by (by rewrite <-app_assoc).
  assert (Hh1 : len (h ++ [t0]) = 10) by (rewrite len_app, Hh; done).
  rewrite rd_range_mid by done. cbn [fmap res_fmap mbind res_bind].
  rewrite wr_range_mid by done. cbn [mbind res_bind].
  set (x := v mod 0x2000). assert (Hx : 0 <= x < 0x2000) by (unfold x; zlia).
  assert (Hw : u16 (Z.lor (Z.land (of_be [b; 0]) 0x8003) (Z.shiftl (Z.land v 0x1fff) 2)) =
               b2z m * 0x8000 + x * 4).
  { rewrite land_1fff. fold x. unfold b.
    destruct m; simpl b2z; [change (Z.land (of_be [0x80; 0]) 0x8003) with (Z.shiftl 1 15)
                           | change (Z.land (of_be [0; 0]) 0x8003) with 0].
    - rewrite Z.lor_comm, lor_shiftl_add by (rewrite ?Z.shiftl_mul_pow2; lia).
      rewrite Z.shiftl_mul_pow2, u16_small by lia. lia.
    - rewrite Z.lor_0_l, Z.shiftl_mul_pow2, u16_small by lia. lia. }
  rewrite Hw. unfold SET_PKT_SEGO, get_be16, put_be16.
  set (y := b2z m * 0x8000 + x * 4). assert (Hy : 0 <= y < 0x10000)
    by (unfold y; destruct m; simpl b2z; lia).
  change (to_be 2 y) with [y / 256 mod 256; y mod 256].
  replace ((h ++ [t0]) ++ [y / 256 mod 256; y mod 256] ++ 0 :: r)
    with ((h ++ [t0; y / 256 mod 256]) ++ [y mod 256; 0] ++ r) by (by rewrite <-!app_assoc).
  assert (Hh2 : len (h ++ [t0; y / 256 mod 256]) = 11) by (rewrite len_app, Hh; done).
  rewrite rd_range_mid by done. cbn [fmap res_fmap mbind res_bind].
  rewrite wr_range_mid by done. cbn [mbind res_bind].
  assert (Hw2 : u16 (Z.lor (Z.land (of_be [y mod 256; 0]) 0xfc1f) (Z.shiftl o 5)) =
                (y mod 256) * 0x100 + o * 0x20).
  { replace (Z.land (of_be [y mod 256; 0]) 0xfc1f) with (Z.shiftl (y mod 256 / 4) 10).
    - rewrite Z.lor_comm. rewrite lor_shiftl_add by (rewrite ?Z.shiftl_mul_pow2; lia).
      rewrite Z.shiftl_mul_pow2, u16_small by zlia. unfold y in *. destruct m; simpl b2z in *; zlia.
    - assert (Hb : 0 <= y mod 256 < 256) by zlia. revert Hb. generalize (y mod 256). intros q Hb.
      unfold of_be. simpl. by_evaluation q. }
  rewrite Hw2. set (z := (y mod 256) * 0x100 + o * 0x20).
  change (to_be 2 z) with [z / 256 mod 256; z mod 256].
  replace ((h ++ [t0; y / 256 mod 256]) ++ [z / 256 mod 256; z mod 256] ++ r)
    with ((h ++ [t0; y / 256 mod 256; z / 256 mod 256]) ++ z mod 256 :: r)
    by (by rewrite <-!app_assoc).
  unfold SET_PKT_SEGN. rewrite upd_mid by (rewrite len_app, Hh; done).
  assert (Hn2 : set_field 0xe0 n (z mod 256) = (o mod 8) * 0x20 + n).
  { unfold set_field. replace (Z.land (z mod 256) 0xe0) with (Z.shiftl (o mod 8) 5).
    - rewrite Z.lor_comm, lor_shiftl_add, u8_small by zlia. lia.
    - replace (z mod 256) with (o mod 8 * 0x20) by (unfold z; zlia).
      assert (Hb : 0 <= o mod 8 < 8) by zlia. revert Hb. generalize (o mod 8). intros q Hb.
      by_evaluation q. }
  rewrite Hn2, <-app_assoc. do 2 f_equal. cbn [to_be app]. f_equal.
  unfold z, y, x. repeat (f_equal; try (destruct m; simpl b2z; zlia)).
Qed.
End Trans.
