(* ===== verification/Keys.v ===== *)
(** * Network and application keys

    The key lists of [src/blueZ/mesh/net.c]: lookup, addition, key refresh,
    deletion.  A list node is never held across a call, so a list of values
    stands for the GList of pointers. *)

From S2P Require Import Prelude Bytes Alg Ccm Crypto Pdu.

Definition NET_IDX_INVALID : Z := 0xffff.
Definition KR_PHASE_NONE : Z := 0x00.
Definition KR_PHASE_INVALID : Z := 0xff.

Record net_key_parts := NetKeyParts {
  nid : Z; enc_key : list Z; privacy_key : list Z;
  net_key : list Z; beacon_key : list Z; net_id : list Z }.

Record mesh_net_key := NetKey {
  nk_idx : Z; phase : Z; nk_current : net_key_parts; nk_new : net_key_parts }.

Record app_key_parts := AppKeyParts { ak_key : list Z; akf_aid : Z }.

Record mesh_app_key := AppKey {
  ak_idx : Z; ak_net_idx : Z; ak_current : app_key_parts; ak_new : app_key_parts }.

Record mesh_virt_addr := VirtAddr { va16 : Z; va32 : Z; va128 : list Z }.

(** The static lists of the file. *)
Record key_store := KeyStore {
  net_keys : list mesh_net_key;
  app_keys : list mesh_app_key;
  virt_addrs : list mesh_virt_addr }.

Definition set_net_keys (l : list mesh_net_key) (s : key_store) : key_store :=
  KeyStore l (app_keys s) (virt_addrs s).
Definition set_app_keys (l : list mesh_app_key) (s : key_store) : key_store :=
  KeyStore (net_keys s) l (virt_addrs s).

(** ** Lookup *)

Definition match_net_id (id : list Z) (k : mesh_net_key) : bool :=
  if negb (nid (nk_current k) =? 0xff) && bool_decide (net_id (nk_current k) = id) then true
  else negb (nid (nk_new k) =? 0xff) && bool_decide (net_id (nk_new k) = id).

Definition find_net_key_by_id (s : key_store) (id : list Z) : option mesh_net_key :=
  find_first (match_net_id id) (net_keys s).

Definition net_validate_proxy_beacon (s : key_store) (proxy_beacon : list Z) : Z :=
  match find_net_key_by_id s proxy_beacon with
  | None => NET_IDX_INVALID
  | Some k => nk_idx k
  end.

(** [match_key_index] on either kind of key. *)
Definition match_net_index (index : Z) (k : mesh_net_key) : bool := nk_idx k =? index.
Definition match_app_index (index : Z) (k : mesh_app_key) : bool := ak_idx k =? index.

Definition find_net_key_by_idx (s : key_store) (net_idx : Z) : option mesh_net_key :=
  find_first (match_net_index net_idx) (net_keys s).
Definition find_app_key_by_idx (s : key_store) (app_idx : Z) : option mesh_app_key :=
  find_first (match_app_index app_idx) (app_keys s).

Definition match_virt_dst (dst : Z) (v : mesh_virt_addr) : bool :=
  if (dst <? 0x10000) && (dst =? va16 v) then true else dst =? va32 v.
Definition find_virt_by_dst (s : key_store) (dst : Z) : option mesh_virt_addr :=
  find_first (match_virt_dst dst) (virt_addrs s).

(** [get_key(list, index)]: [app] when [list == app_keys]. *)
Definition get_key (s : key_store) (app : bool) (index : Z) : option (list Z) :=
  if app then
    match find_app_key_by_idx s index with
    | None => None
    | Some ak =>
        match find_net_key_by_idx s (ak_net_idx ak) with
        | None => None
        | Some nk =>
            if (phase nk =? 2) && negb (akf_aid (ak_new ak) =? 0xff)
            then Some (ak_key (ak_new ak))
            else if negb (akf_aid (ak_current ak) =? 0xff) then Some (ak_key (ak_current ak))
            else None
        end
    end
  else
    match find_net_key_by_idx s index with
    | None => None
    | Some nk =>
        if (phase nk =? 2) && negb (nid (nk_new nk) =? 0xff) then Some (net_key (nk_new nk))
        else if negb (nid (nk_current nk) =? 0xff) then Some (net_key (nk_current nk))
        else None
    end.

(** The sixteen octets, or [None] where it returns false. *)
Definition net_get_key (s : key_store) (net_idx : Z) : option (list Z) :=
  get_key s false net_idx.

Definition keys_net_key_get (s : key_store) (net_idx : Z) (current : bool) : option (list Z) :=
  k ← find_net_key_by_idx s net_idx;
  Some (if current then net_key (nk_current k) else net_key (nk_new k)).

Definition keys_app_key_get (s : key_store) (app_idx : Z) (current : bool) : option (list Z) :=
  k ← find_app_key_by_idx s app_idx;
  Some (if current then ak_key (ak_current k) else ak_key (ak_new k)).

Definition keys_app_key_get_bound (s : key_store) (app_idx : Z) : Z :=
  match find_app_key_by_idx s app_idx with None => NET_IDX_INVALID | Some k => ak_net_idx k end.

Definition keys_get_kr_phase (s : key_store) (net_idx : Z) : Z :=
  match find_net_key_by_idx s net_idx with None => KR_PHASE_INVALID | Some k => phase k end.

(** [iv_update] is [net.iv_update]; [None] where it returns false. *)
Definition net_get_flags (s : key_store) (iv_update : bool) (net_idx : Z) : option Z :=
  let phase := keys_get_kr_phase s net_idx in
  if phase =? KR_PHASE_INVALID then None else
  let flags := if negb (phase =? KR_PHASE_NONE) then 0x01 else 0x00 in
  Some (if iv_update then Z.lor flags 0x02 else flags).

(** ** Changes *)

Definition keys_set_kr_phase (s : key_store) (index ph : Z) : bool * key_store :=
  match find_net_key_by_idx s index with
  | None => (false, s)
  | Some _ =>
      (true, set_net_keys (update_first (match_net_index index)
         (fun k => NetKey (nk_idx k) ph (nk_current k) (nk_new k)) (net_keys s)) s)
  end.

Definition keys_app_key_delete (s : key_store) (app_idx : Z) : bool * key_store :=
  match find_app_key_by_idx s app_idx with
  | None => (false, s)
  | Some _ => (true, set_app_keys (remove_first (match_app_index app_idx) (app_keys s)) s)
  end.

Definition keys_net_key_delete (s : key_store) (net_idx : Z) : bool * key_store :=
  match find_net_key_by_idx s net_idx with
  | None => (false, s)
  | Some _ => (true, set_net_keys (remove_first (match_net_index net_idx) (net_keys s)) s)
  end.

Definition keys_cleanup_all (s : key_store) : key_store := KeyStore [] [] (virt_addrs s).

Section Add.
Context `{Alg}.

(** [junk] is what [g_new] leaves in the fields the function does not assign. *)
Definition keys_app_key_add (s : key_store) (junk : mesh_app_key) (net_idx app_idx : Z)
    (key : list Z) (update : bool) : bool * key_store :=
  let '(ok, aid) := mesh_crypto_k4 key 0 in
  if negb ok then (false, s) else
  let aid := Z.lor aid AKF_BIT in
  match find_app_key_by_idx s app_idx with
  | Some k =>
      if update then
        if negb (ak_net_idx k =? net_idx) then (false, s) else
        (true, set_app_keys (update_first (match_app_index app_idx)
           (fun k => AppKey (ak_idx k) (ak_net_idx k) (ak_current k) (AppKeyParts key aid))
           (app_keys s)) s)
      else if negb (bool_decide (ak_key (ak_current k) = key)) || negb (ak_net_idx k =? net_idx)
      then (false, s) else (true, s)
  | None =>
      (true, set_app_keys (app_keys s ++
         [AppKey app_idx net_idx (AppKeyParts key aid)
            (AppKeyParts (ak_key (ak_new junk)) 0xff)]) s)
  end.

(** The component parts of a network key, in the order they are computed: the
    parts as they stand when the computation stops, and whether it was
    complete. *)
Definition key_parts (key : list Z) (old : net_key_parts) : bool * net_key_parts :=
  let old := NetKeyParts (nid old) (enc_key old) (privacy_key old) key (beacon_key old) (net_id old) in
  let '(ok, bk) := mesh_crypto_nkbk key (beacon_key old) in
  let p := NetKeyParts (nid old) (enc_key old) (privacy_key old) key bk (net_id old) in
  if negb ok then (false, p) else
  let '(ok, id) := mesh_crypto_k3 key (net_id p) in
  let p := NetKeyParts (nid p) (enc_key p) (privacy_key p) key bk id in
  if negb ok then (false, p) else
  let '(ok, o) := mesh_crypto_k2 key [0] (K2 (nid p) (enc_key p) (privacy_key p)) in
  (ok, NetKeyParts (if ok then k2_nid o else 0xff) (k2_enc o) (k2_priv o) key bk id).

Definition keys_net_key_add (s : key_store) (junk : mesh_net_key) (net_idx : Z)
    (key : list Z) (update : bool) : bool * key_store :=
  match find_net_key_by_idx s net_idx with
  | Some k =>
      if update then
        let '(ok, p) := key_parts key (nk_new k) in
        (ok, set_net_keys (update_first (match_net_index net_idx)
           (fun k => NetKey (nk_idx k) (phase k) (nk_current k) p) (net_keys s)) s)
      else if negb (bool_decide (net_key (nk_current k) = key)) then (false, s) else (true, s)
  | None =>
      let '(ok, p) := key_parts key (nk_current junk) in
      if negb ok then (false, s) else
      let n := nk_new junk in
      (true, set_net_keys (net_keys s ++
         [NetKey net_idx (phase junk) p
            (NetKeyParts 0xff (enc_key n) (privacy_key n) (net_key n) (beacon_key n) (net_id n))]) s)
  end.
End Add.

(** ** The invariant of the store *)

Section Invariant.
Context {A : Alg} {AO : AlgOk A} {AT : AlgTotal A}.

Definition parts_of (key : list Z) : net_key_parts :=
  NetKeyParts (k2_nid (k2_of key)) (k2_enc (k2_of key)) (k2_priv (k2_of key)) key
    (nkbk_of key) (k3_of key).
Definition app_parts_of (key : list Z) : app_key_parts :=
  AppKeyParts key (Z.lor (k4_of key) AKF_BIT).

(** The component parts of a key belong to it; a "new" key may be absent. *)
Definition net_key_wf (k : mesh_net_key) : Prop :=
  (exists key, len key = 16 /\ nk_current k = parts_of key) /\
  (nid (nk_new k) = 0xff \/ exists key, len key = 16 /\ nk_new k = parts_of key).
Definition app_key_wf (k : mesh_app_key) : Prop :=
  (exists key, len key = 16 /\ ak_current k = app_parts_of key) /\
  (akf_aid (ak_new k) = 0xff \/ exists key, len key = 16 /\ ak_new k = app_parts_of key).

Definition keys_wf (s : key_store) : Prop :=
  NoDup (nk_idx <$> net_keys s) /\ NoDup (ak_idx <$> app_keys s) /\
  Forall net_key_wf (net_keys s) /\ Forall app_key_wf (app_keys s).

Lemma key_parts_ok key old : len key = 16 -> key_parts key old = (true, parts_of key).
Proof.
  intros Hk. unfold key_parts. rewrite nkbk_ok by done. cbn [negb].
  rewrite k3_ok by done. cbn [negb]. by rewrite k2_ok by done.
Qed.

Lemma nid_valid key : (nid (parts_of key) =? 0xff) = false.
Proof.
  apply Z.eqb_neq. cbn [parts_of nid]. pose proof (k2_nid_range key). lia.
Qed.

(** The operations that change the store. *)
Inductive key_op :=
| AddNet (junk : mesh_net_key) (net_idx : Z) (key : list Z) (update : bool)
| AddApp (junk : mesh_app_key) (net_idx app_idx : Z) (key : list Z) (update : bool)
| DelNet (net_idx : Z)
| DelApp (app_idx : Z)
| SetPhase (net_idx ph : Z)
| Cleanup.

Definition key_step (s : key_store) (op : key_op) : key_store :=
  match op with
  | AddNet junk i key u => snd (keys_net_key_add s junk i key u)
  | AddApp junk n i key u => snd (keys_app_key_add s junk n i key u)
  | DelNet i => snd (keys_net_key_delete s i)
  | DelApp i => snd (keys_app_key_delete s i)
  | SetPhase i ph => snd (keys_set_kr_phase s i ph)
  | Cleanup => keys_cleanup_all s
  end.

Definition op_ok (op : key_op) : bool :=
  match op with AddNet _ _ key _ | AddApp _ _ _ key _ => len key =? 16 | _ => true end.

Lemma find_net_none s i :
  find_net_key_by_idx s i = None <-> Forall (fun k => nk_idx k <> i) (net_keys s).
Proof.
  unfold find_net_key_by_idx. rewrite find_first_none.
  apply Forall_iff. intros k. apply Z.eqb_neq.
Qed.
Lemma find_app_none s i :
  find_app_key_by_idx s i = None <-> Forall (fun k => ak_idx k <> i) (app_keys s).
Proof.
  unfold find_app_key_by_idx. rewrite find_first_none.
  apply Forall_iff. intros k. apply Z.eqb_neq.
Qed.

(** Lookup by index after a change of the entry of an index, or its removal. *)
Lemma find_net_update s i j f :
  (∀ k, nk_idx (f k) = nk_idx k) ->
  find_net_key_by_idx (set_net_keys (update_first (match_net_index i) f (net_keys s)) s) j =
  if j =? i then f <$> find_net_key_by_idx s i else find_net_key_by_idx s j.
Proof.
  intros Hf. unfold find_net_key_by_idx. cbn [net_keys set_net_keys].
  destruct (Z.eqb_spec j i) as [-> | Hj].
  - destruct (find_first (match_net_index i) (net_keys s)) as [k|] eqn:E.
    + erewrite find_update_first; [done | | done]. intros y. unfold match_net_index. by rewrite Hf.
    + apply find_first_none. apply find_first_none in E.
      apply Forall_update_first; [|done]. intros y Hy Hy'. by rewrite Hy in Hy'.
  - apply find_update_first_other. unfold match_net_index. intros y Hy. rewrite Hf.
    bool_hyps. split; [done|]. apply Z.eqb_neq. congruence.
Qed.

Lemma find_net_delete s i j :
  NoDup (nk_idx <$> net_keys s) ->
  find_net_key_by_idx (snd (keys_net_key_delete s i)) j =
  if j =? i then None else find_net_key_by_idx s j.
Proof.
  intros Hnd. unfold keys_net_key_delete.
  destruct (find_net_key_by_idx s i) as [k|] eqn:E; unfold find_net_key_by_idx in *.
  - cbn [snd net_keys set_net_keys]. destruct (Z.eqb_spec j i) as [-> | Hj].
    + apply (find_remove_first _ nk_idx i); [|done].
      intros y. unfold match_net_index. apply Z.eqb_eq.
    + apply find_remove_first_other. unfold match_net_index. intros y Hy. bool_hyps.
      apply Z.eqb_neq. congruence.
  - cbn [snd]. by destruct (Z.eqb_spec j i) as [-> | Hj].
Qed.

Lemma net_key_add_wf s junk i key u :
  len key = 16 -> keys_wf s -> keys_wf (snd (keys_net_key_add s junk i key u)).
Proof.
  intros Hk (Hn & Ha & Hnw & Haw). unfold keys_net_key_add.
  destruct (find_net_key_by_idx s i) as [k|] eqn:E; rewrite ?key_parts_ok by done.
  - destruct u; [|by case_goal]. unfold keys_wf, set_net_keys; cbn [snd net_keys app_keys].
    split_and!; try done.
    + by rewrite map_update_first.
    + apply Forall_update_first; [|done]. intros y [Hc _] _. split; [done|].
      right. by exists key.
  - unfold keys_wf, set_net_keys; cbn [negb snd net_keys app_keys].
    split_and!; try done.
    + apply NoDup_snoc; [done|]. by apply find_net_none.
    + apply Forall_app. split; [done|]. constructor; [|done]. split; [by exists key | by left].
Qed.

Lemma app_key_add_wf s junk n i key u :
  len key = 16 -> keys_wf s -> keys_wf (snd (keys_app_key_add s junk n i key u)).
Proof.
  intros Hk (Hn & Ha & Hnw & Haw). unfold keys_app_key_add. rewrite k4_ok by done.
  cbn [negb]. destruct (find_app_key_by_idx s i) as [k|] eqn:E.
  - destruct u.
    + case_goal; [done|]. unfold keys_wf, set_app_keys; cbn [snd net_keys app_keys].
      split_and!; try done.
      * by rewrite map_update_first.
      * apply Forall_update_first; [|done]. intros y [Hc _] _. split; [done|].
        right. by exists key.
    + by case_goal.
  - unfold keys_wf, set_app_keys; cbn [snd net_keys app_keys]. split_and!; try done.
    + apply NoDup_snoc; [done|]. by apply find_app_none.
    + apply Forall_app. split; [done|]. constructor; [|done]. split; [by exists key | by left].
Qed.

Lemma key_step_wf s op : op_ok op = true -> keys_wf s -> keys_wf (key_step s op).
Proof.
  intros Hop Hs. destruct op as [j i key u | j n i key u | i | i | i ph |]; simpl in *; bool_hyps.
  - by apply net_key_add_wf.
  - by apply app_key_add_wf.
  - unfold keys_net_key_delete. destruct (find_net_key_by_idx s i); [|done].
    destruct Hs as (? & ? & ? & ?). split_and!; try done; cbn.
    + by apply NoDup_remove_first.
    + by apply Forall_remove_first.
  - unfold keys_app_key_delete. destruct (find_app_key_by_idx s i); [|done].
    destruct Hs as (? & ? & ? & ?). split_and!; try done; cbn.
    + by apply NoDup_remove_first.
    + by apply Forall_remove_first.
  - unfold keys_set_kr_phase. destruct (find_net_key_by_idx s i); [|done].
    destruct Hs as (? & ? & ? & ?). split_and!; try done; cbn.
    + by rewrite map_update_first.
    + apply Forall_update_first; [|done]. by intros y [? ?].
  - destruct Hs as (? & ? & ? & ?). split_and!; try done; constructor.
Qed.
End Invariant.

(** ** Theorems *)

(** C28: the key store stays well formed.  After any sequence of additions,
    updates, deletions and key refresh phase changes, with a working cipher
    backend and 16-octet keys, no index occurs twice in either list, the NID,
    encryption, privacy and beacon keys, network id and AID stored with a key
    are the ones derived from it, and a key under refresh is either absent or
    complete. *)
Theorem keys_invariant (A : Alg) (AO : AlgOk A) (AT : AlgTotal A) ops s :
  keys_wf s -> forallb op_ok ops = true -> keys_wf (fold_left key_step ops s).
Proof.
  revert s. induction ops as [|op ops IH]; intros s Hs Hops; [done|].
  simpl in *. bool_hyps. apply IH; [|done]. by apply key_step_wf.
Qed.

Definition no_parts : net_key_parts := NetKeyParts 0 [] [] [] [] [].

Lemma keys_invariant_witness :
  keys_wf (fold_left key_step
    [AddNet (NetKey 0 9 no_parts no_parts) 0 (rep 16 1) false;
     AddNet (NetKey 0 9 no_parts no_parts) 1 (rep 16 2) false;
     AddNet (NetKey 0 9 no_parts no_parts) 1 (rep 16 3) true; SetPhase 1 2; DelNet 0]
    (KeyStore [] [] [])).
Proof.
  apply (keys_invariant toy_alg _ _); [|by vm_compute].
  split_and!; constructor.
Defined.

(** Key refresh.  Updating a stored network key leaves the key in use as it
    was until the phase becomes 2; from then on the new key is used for that
    index.  Keys of other indexes are not affected, and deleting the index
    makes it unknown. *)
Theorem key_refresh_switch (A : Alg) (AO : AlgOk A) (AT : AlgTotal A) s junk i key :
  keys_wf s -> len key = 16 -> keys_get_kr_phase s i <> 2 -> net_get_key s i <> None ->
  let '(ok, s1) := keys_net_key_add s junk i key true in
  let '(ok2, s2) := keys_set_kr_phase s1 i 2 in
  let '(ok3, s3) := keys_net_key_delete s2 i in
  ok = true /\ ok2 = true /\ ok3 = true /\
  net_get_key s1 i = net_get_key s i /\ net_get_key s2 i = Some key /\ net_get_key s3 i = None /\
  (∀ j, j <> i -> net_get_key s1 j = net_get_key s j /\ net_get_key s2 j = net_get_key s j /\
                  net_get_key s3 j = net_get_key s j).
Proof.
  intros (Hnd & _ & Hw & _) Hk Hph Hkey.
  unfold net_get_key, get_key, keys_get_kr_phase in *.
  destruct (find_net_key_by_idx s i) as [k|] eqn:E; [|done].
  rewrite (proj2 (Z.eqb_neq (phase k) 2)) in * by done. cbn [andb] in *.
  destruct (nid (nk_current k) =? 0xff) eqn:Hcur; [done|]. cbn [negb] in *.
  unfold keys_net_key_add. rewrite E, key_parts_ok by done.
  set (s1 := set_net_keys _ s).
  assert (H1 : ∀ j, find_net_key_by_idx s1 j = if j =? i
    then Some (NetKey (nk_idx k) (phase k) (nk_current k) (parts_of key))
    else find_net_key_by_idx s j).
  { intros j. unfold s1. rewrite find_net_update by done. by rewrite E. }
  unfold keys_set_kr_phase. rewrite (H1 i), Z.eqb_refl.
  set (s2 := set_net_keys _ s1).
  assert (H2 : ∀ j, find_net_key_by_idx s2 j = if j =? i
    then Some (NetKey (nk_idx k) 2 (nk_current k) (parts_of key))
    else find_net_key_by_idx s j).
  { intros j. unfold s2. rewrite find_net_update, (H1 i), (H1 j), Z.eqb_refl by done.
    by destruct (j =? i). }
  assert (Hnd2 : NoDup (nk_idx <$> net_keys s2)).
  { unfold s2, s1. cbn [net_keys set_net_keys]. by rewrite !map_update_first. }
  pose proof (find_net_delete s2 i) as H3.
  destruct (keys_net_key_delete s2 i) as [ok3 s3] eqn:E3.
  assert (ok3 = true) as ->.
  { unfold keys_net_key_delete in E3. rewrite (H2 i), Z.eqb_refl in E3. by injection E3. }
  cbn [snd] in H3. split_and!; try done.
  - cbn [phase nk_current nk_new].
    by rewrite (proj2 (Z.eqb_neq (phase k) 2)), Hcur.
  - rewrite (H2 i), Z.eqb_refl. cbn [phase nk_current nk_new Z.eqb Pos.eqb andb].
    by rewrite nid_valid.
  - by rewrite H3, Z.eqb_refl.
  - intros j Hj. rewrite (H1 j), H3, (H2 j) by done.
    by rewrite (proj2 (Z.eqb_neq j i)).
Qed.

Lemma key_refresh_switch_witness :
  let s := key_step (KeyStore [] [] []) (AddNet (NetKey 0 9 no_parts no_parts) 1 (rep 16 2) false) in
  let '(ok, s1) := keys_net_key_add s (NetKey 0 9 no_parts no_parts) 1 (rep 16 3) true in
  let '(ok2, s2) := keys_set_kr_phase s1 1 2 in
  let '(ok3, s3) := keys_net_key_delete s2 1 in
  ok = true /\ ok2 = true /\ ok3 = true /\
  net_get_key s1 1 = net_get_key s 1 /\ net_get_key s2 1 = Some (rep 16 3) /\
  net_get_key s3 1 = None /\
  (∀ j, j <> 1 -> net_get_key s1 j = net_get_key s j /\ net_get_key s2 j = net_get_key s j /\
                  net_get_key s3 j = net_get_key s j).
Proof.
  intros s. apply (key_refresh_switch toy_alg _ _ s (NetKey 0 9 no_parts no_parts) 1 (rep 16 3)).
  - apply key_step_wf; [by vm_compute|]. split_and!; constructor.
  - by vm_compute.
  - by vm_compute.
  - by vm_compute.
Defined.

(** Adding a network key.  [keys_net_key_add] without update succeeds exactly
    when the index is free or already holds that very key; afterwards the key
    in use for the index is that key (unless a refresh had switched it), and no
    other index has changed. *)
Theorem net_key_add_spec (A : Alg) (AO : AlgOk A) (AT : AlgTotal A) s junk i key :
  len key = 16 ->
  let '(ok, s') := keys_net_key_add s junk i key false in
  ok = bool_decide (keys_net_key_get s i true = None \/ keys_net_key_get s i true = Some key) /\
  (if ok then keys_net_key_get s' i true = Some key else s' = s) /\
  (∀ j, j <> i -> find_net_key_by_idx s' j = find_net_key_by_idx s j).
Proof.
  intros Hk. unfold keys_net_key_add, keys_net_key_get.
  destruct (find_net_key_by_idx s i) as [k|] eqn:E; cbn [mbind option_bind].
  - destruct (bool_decide_reflect (net_key (nk_current k) = key)) as [Hkey | Hkey]; cbn [negb].
    + split_and!; [|by rewrite E; cbn; rewrite Hkey | done].
      symmetry. apply bool_decide_eq_true. right. by rewrite Hkey.
    + split_and!; try done. symmetry. apply bool_decide_eq_false. by intros [? | [= ?]].
  - rewrite key_parts_ok by done. cbn [negb]. split_and!.
    + symmetry. apply bool_decide_eq_true. by left.
    + unfold find_net_key_by_idx in *. cbn [net_keys set_net_keys].
      rewrite find_first_app, E. unfold find_first. simpl. unfold match_net_index. simpl.
      by rewrite Z.eqb_refl.
    + intros j Hj. unfold find_net_key_by_idx. cbn [net_keys set_net_keys].
      rewrite find_first_app. case_goal; [done|]. unfold find_first. simpl.
      unfold match_net_index. simpl. by rewrite (proj2 (Z.eqb_neq i j)) by done.
Qed.

Lemma net_key_add_spec_witness :
  let '(ok, s') := keys_net_key_add (KeyStore [] [] []) (NetKey 0 9 no_parts no_parts) 7
                     (rep 16 3) false in
  ok = bool_decide (keys_net_key_get (KeyStore [] [] []) 7 true = None \/
                    keys_net_key_get (KeyStore [] [] []) 7 true = Some (rep 16 3)) /\
  (if ok then keys_net_key_get s' 7 true = Some (rep 16 3) else s' = KeyStore [] [] []) /\
  (∀ j, j <> 7 -> find_net_key_by_idx s' j = find_net_key_by_idx (KeyStore [] [] []) j).
Proof. by apply (net_key_add_spec toy_alg _ _). Defined.
