(* ===== verification/NetState.v ===== *)
(** * The state of the network layer

    [struct mesh_net], the messages and packets it holds, and the world around
    it: the key lists, the nodes, the pending timers and what has been written
    to the GATT connection and to the database. *)

From S2P Require Import Prelude Bytes Alg Ccm Crypto Pdu Keys.

(** ** Data *)

Record mesh_destination := Destination { dst_cnt : Z; dst_dst : Z }.

(** [struct mesh_pkt]: [data] is 30 octets.  [pkt_id] is its address. *)
Record mesh_pkt := Pkt { pkt_id : Z; pkt_data : list Z; pkt_len : Z }.

(** [struct mesh_sar_msg]: [sar_id] is its address, [sar_data] the octets from
    [data] to the end of the allocation. *)
Record mesh_sar_msg := Sar {
  sar_id : Z; ack_to : Z; msg_to : Z; sar_iv_index : Z; seqAuth : Z; ack : Z; sar_dst : Z;
  sar_src : Z; sar_net_idx : Z; sar_len : Z; sar_akf_aid : Z; sar_ttl : Z; segN : Z;
  activity_cnt : Z; sar_ctl : bool; segmented : bool; szmic : bool; sar_proxy : bool;
  sar_data : list Z }.

Definition set_ack_to (v : Z) (s : mesh_sar_msg) : mesh_sar_msg :=
  Sar (sar_id s) v (msg_to s) (sar_iv_index s) (seqAuth s) (ack s) (sar_dst s) (sar_src s)
  (sar_net_idx s) (sar_len s) (sar_akf_aid s) (sar_ttl s) (segN s) (activity_cnt s) (sar_ctl s)
  (segmented s) (szmic s) (sar_proxy s) (sar_data s).
Definition set_msg_to (v : Z) (s : mesh_sar_msg) : mesh_sar_msg :=
  Sar (sar_id s) (ack_to s) v (sar_iv_index s) (seqAuth s) (ack s) (sar_dst s) (sar_src s)
  (sar_net_idx s) (sar_len s) (sar_akf_aid s) (sar_ttl s) (segN s) (activity_cnt s) (sar_ctl s)
  (segmented s) (szmic s) (sar_proxy s) (sar_data s).
Definition set_ack (v : Z) (s : mesh_sar_msg) : mesh_sar_msg :=
  Sar (sar_id s) (ack_to s) (msg_to s) (sar_iv_index s) (seqAuth s) v (sar_dst s) (sar_src s)
  (sar_net_idx s) (sar_len s) (sar_akf_aid s) (sar_ttl s) (segN s) (activity_cnt s) (sar_ctl s)
  (segmented s) (szmic s) (sar_proxy s) (sar_data s).
Definition set_sar_len (v : Z) (s : mesh_sar_msg) : mesh_sar_msg :=
  Sar (sar_id s) (ack_to s) (msg_to s) (sar_iv_index s) (seqAuth s) (ack s) (sar_dst s)
  (sar_src s) (sar_net_idx s) v (sar_akf_aid s) (sar_ttl s) (segN s) (activity_cnt s)
  (sar_ctl s) (segmented s) (szmic s) (sar_proxy s) (sar_data s).
Definition set_activity_cnt (v : Z) (s : mesh_sar_msg) : mesh_sar_msg :=
  Sar (sar_id s) (ack_to s) (msg_to s) (sar_iv_index s) (seqAuth s) (ack s) (sar_dst s)
  (sar_src s) (sar_net_idx s) (sar_len s) (sar_akf_aid s) (sar_ttl s) (segN s) v (sar_ctl s)
  (segmented s) (szmic s) (sar_proxy s) (sar_data s).
Definition set_sar_data (v : list Z) (s : mesh_sar_msg) : mesh_sar_msg :=
  Sar (sar_id s) (ack_to s) (msg_to s) (sar_iv_index s) (seqAuth s) (ack s) (sar_dst s)
  (sar_src s) (sar_net_idx s) (sar_len s) (sar_akf_aid s) (sar_ttl s) (segN s) (activity_cnt s)
  (sar_ctl s) (segmented s) (szmic s) (sar_proxy s) v.

Record mesh_net := MeshNet {
  iv_index : Z; seq_num : Z; seq_num_reserved : Z; iv_upd_state : Z; default_ttl : Z;
  iv_update : bool; provisioner : bool; blacklist : bool; proxy_in : option Z;
  address_pool : list Z; dest : list mesh_destination; sar_in : list mesh_sar_msg;
  msg_out : list mesh_sar_msg; pkt_out : list mesh_pkt; open_cb : bool }.

Definition set_iv_index (v : Z) (s : mesh_net) : mesh_net :=
  MeshNet v (seq_num s) (seq_num_reserved s) (iv_upd_state s) (default_ttl s) (iv_update s)
  (provisioner s) (blacklist s) (proxy_in s) (address_pool s) (dest s) (sar_in s) (msg_out s)
  (pkt_out s) (open_cb s).
Definition set_seq_num (v : Z) (s : mesh_net) : mesh_net :=
  MeshNet (iv_index s) v (seq_num_reserved s) (iv_upd_state s) (default_ttl s) (iv_update s)
  (provisioner s) (blacklist s) (proxy_in s) (address_pool s) (dest s) (sar_in s) (msg_out s)
  (pkt_out s) (open_cb s).
Definition set_seq_num_reserved (v : Z) (s : mesh_net) : mesh_net :=
  MeshNet (iv_index s) (seq_num s) v (iv_upd_state s) (default_ttl s) (iv_update s)
  (provisioner s) (blacklist s) (proxy_in s) (address_pool s) (dest s) (sar_in s) (msg_out s)
  (pkt_out s) (open_cb s).
Definition set_iv_upd_state (v : Z) (s : mesh_net) : mesh_net :=
  MeshNet (iv_index s) (seq_num s) (seq_num_reserved s) v (default_ttl s) (iv_update s)
  (provisioner s) (blacklist s) (proxy_in s) (address_pool s) (dest s) (sar_in s) (msg_out s)
  (pkt_out s) (open_cb s).
Definition set_default_ttl (v : Z) (s : mesh_net) : mesh_net :=
  MeshNet (iv_index s) (seq_num s) (seq_num_reserved s) (iv_upd_state s) v (iv_update s)
  (provisioner s) (blacklist s) (proxy_in s) (address_pool s) (dest s) (sar_in s) (msg_out s)
  (pkt_out s) (open_cb s).
Definition set_iv_update (v : bool) (s : mesh_net) : mesh_net :=
  MeshNet (iv_index s) (seq_num s) (seq_num_reserved s) (iv_upd_state s) (default_ttl s) v
  (provisioner s) (blacklist s) (proxy_in s) (address_pool s) (dest s) (sar_in s) (msg_out s)
  (pkt_out s) (open_cb s).
Definition set_provisioner (v : bool) (s : mesh_net) : mesh_net :=
  MeshNet (iv_index s) (seq_num s) (seq_num_reserved s) (iv_upd_state s) (default_ttl s)
  (iv_update s) v (blacklist s) (proxy_in s) (address_pool s) (dest s) (sar_in s) (msg_out s)
  (pkt_out s) (open_cb s).
Definition set_blacklist (v : bool) (s : mesh_net) : mesh_net :=
  MeshNet (iv_index s) (seq_num s) (seq_num_reserved s) (iv_upd_state s) (default_ttl s)
  (iv_update s) (provisioner s) v (proxy_in s) (address_pool s) (dest s) (sar_in s) (msg_out s)
  (pkt_out s) (open_cb s).
Definition set_proxy_in (v : option Z) (s : mesh_net) : mesh_net :=
  MeshNet (iv_index s) (seq_num s) (seq_num_reserved s) (iv_upd_state s) (default_ttl s)
  (iv_update s) (provisioner s) (blacklist s) v (address_pool s) (dest s) (sar_in s)
  (msg_out s) (pkt_out s) (open_cb s).
Definition set_address_pool (v : list Z) (s : mesh_net) : mesh_net :=
  MeshNet (iv_index s) (seq_num s) (seq_num_reserved s) (iv_upd_state s) (default_ttl s)
  (iv_update s) (provisioner s) (blacklist s) (proxy_in s) v (dest s) (sar_in s) (msg_out s)
  (pkt_out s) (open_cb s).
Definition set_dest (v : list mesh_destination) (s : mesh_net) : mesh_net :=
  MeshNet (iv_index s) (seq_num s) (seq_num_reserved s) (iv_upd_state s) (default_ttl s)
  (iv_update s) (provisioner s) (blacklist s) (proxy_in s) (address_pool s) v (sar_in s)
  (msg_out s) (pkt_out s) (open_cb s).
Definition set_sar_in (v : list mesh_sar_msg) (s : mesh_net) : mesh_net :=
  MeshNet (iv_index s) (seq_num s) (seq_num_reserved s) (iv_upd_state s) (default_ttl s)
  (iv_update s) (provisioner s) (blacklist s) (proxy_in s) (address_pool s) (dest s) v
  (msg_out s) (pkt_out s) (open_cb s).
Definition set_msg_out (v : list mesh_sar_msg) (s : mesh_net) : mesh_net :=
  MeshNet (iv_index s) (seq_num s) (seq_num_reserved s) (iv_upd_state s) (default_ttl s)
  (iv_update s) (provisioner s) (blacklist s) (proxy_in s) (address_pool s) (dest s) (sar_in s)
  v (pkt_out s) (open_cb s).
Definition set_pkt_out (v : list mesh_pkt) (s : mesh_net) : mesh_net :=
  MeshNet (iv_index s) (seq_num s) (seq_num_reserved s) (iv_upd_state s) (default_ttl s)
  (iv_update s) (provisioner s) (blacklist s) (proxy_in s) (address_pool s) (dest s) (sar_in s)
  (msg_out s) v (open_cb s).
Definition set_open_cb (v : bool) (s : mesh_net) : mesh_net :=
  MeshNet (iv_index s) (seq_num s) (seq_num_reserved s) (iv_upd_state s) (default_ttl s)
  (iv_update s) (provisioner s) (blacklist s) (proxy_in s) (address_pool s) (dest s) (sar_in s)
  (msg_out s) (pkt_out s) v.

(** The calls of [prov-db.c] by the layers above; nodes by their address. *)
Inductive db_op :=
| DbTtl (node ttl : Z)
| DbKeys (node : Z) (app : bool) (keys : list Z)
| DbModelPub (node ele model : Z)
| DbBinding (node ele model app_idx : Z)
| DbSubscription (node ele model addr : Z)
| DbComposition (node : Z) (data : list Z)
| DbNewNode (node primary : Z).

(** What the mesh code does to its surroundings. *)
Inductive event :=
| GattWrite (data : list Z)            (* mesh_gatt_write of these octets *)
| StoreSeq (seq : Z)                   (* prov_db_local_set_seq_num *)
| StoreIv (iv : Z) (upd prov : bool)   (* prov_db_local_set_iv_index *)
| OpenCb (status : Z)                  (* the session open callback *)
| Delivered (src dst iv seq app_idx : Z) (data : list Z) (* node_local_data_handler *)
| StoreIvSeq (primary iv seq : Z)      (* prov_db_node_set_iv_seq *)
| IdleRestore (ele model : Z)          (* g_idle_add(restore_model_state, model) *)
| ModelRecv (cb src : Z) (data : list Z) (user_data : Z) (* a model's recv callback *)
| Db (op : db_op)                      (* a change of the database *)
| Disconnect.                          (* disconnect_device *)

(** ** What the network layer needs of a node

    The fields of a [struct mesh_node] that the accessors called from [net.c]
    return.  An implementation gives the local node, [None] for NULL, and the
    node of a unicast address; both may fault on a dangling pointer.  [node_inv]
    is the invariant it keeps. *)
Record node_view := NodeView {
  nv_primary : Z; nv_dev_key : list Z; nv_primary_net_idx : Z }.

Class NodeIface (N : Type) := {
  node_get_local_node : N -> res (option node_view);
  node_find_by_addr : N -> Z -> res (option node_view);
  node_inv : N -> Prop;
}.

(** [node_get_primary], [node_get_device_key] and [node_get_primary_net_idx]
    accept NULL. *)
Definition node_get_primary (n : option node_view) : Z :=
  match n with None => 0 | Some v => nv_primary v end.
Definition node_get_device_key (n : option node_view) : option (list Z) :=
  match n with None => None | Some v => Some (nv_dev_key v) end.
Definition node_get_primary_net_idx (n : option node_view) : Z :=
  match n with None => NET_IDX_INVALID | Some v => nv_primary_net_idx v end.

(** A node layer with the local node only. *)
#[export] Instance lone_node : NodeIface node_view := {
  node_get_local_node v := Ok (Some v);
  node_find_by_addr v addr := Ok (if addr =? nv_primary v then Some v else None);
  node_inv _ := True;
}.

(** ** The world

    [w_next] is the next fresh address or timer id; [w_timers] the timers that
    are set; [w_sync] holds when the GATT write pipe has been acquired, so that
    a write calls its completion callback before it returns. *)
Record world (N : Type) := World {
  w_net : mesh_net; w_keys : key_store; w_nodes : N;
  w_next : Z; w_timers : list Z; w_sync : bool; w_out : list event }.
Arguments World {N}.
Arguments w_net {N}. Arguments w_keys {N}. Arguments w_nodes {N}.
Arguments w_next {N}. Arguments w_timers {N}. Arguments w_sync {N}. Arguments w_out {N}.

Section World.
Context {N : Type}.
Implicit Types w : world N.

(** What has been handed up to the node layer. *)
Definition is_delivery (e : event) : bool :=
  match e with Delivered _ _ _ _ _ _ => true | _ => false end.
Definition handed_up w : list event := filter (fun e => is_delivery e = true) (w_out w).

Definition on_net (f : mesh_net -> mesh_net) w : world N :=
  World (f (w_net w)) (w_keys w) (w_nodes w) (w_next w) (w_timers w) (w_sync w) (w_out w).
Definition with_out (e : event) w : world N :=
  World (w_net w) (w_keys w) (w_nodes w) (w_next w) (w_timers w) (w_sync w) (w_out w ++ [e]).
Definition with_timers (f : list Z -> list Z) w : world N :=
  World (w_net w) (w_keys w) (w_nodes w) (w_next w) (f (w_timers w)) (w_sync w) (w_out w).
Definition bump w : world N :=
  World (w_net w) (w_keys w) (w_nodes w) (w_next w + 1) (w_timers w) (w_sync w) (w_out w).

Lemma handed_up_quiet e w : is_delivery e = false -> handed_up (with_out e w) = handed_up w.
Proof.
  intros He. unfold handed_up, with_out. cbn [w_out]. rewrite filter_app.
  rewrite filter_cons_False by (by rewrite He). by rewrite filter_nil, app_nil_r.
Qed.

(** Handlers. *)
Definition M (A : Type) : Type := St (world N) A.
Definition net_of : M mesh_net := gets w_net.
Definition mod_net (f : mesh_net -> mesh_net) : M unit := modify (on_net f).
Definition emit (e : event) : M unit := modify (with_out e).
Definition fresh : M Z := fun w => Ok (w_next w, bump w).

(** [g_timeout_add] and [g_source_remove]. *)
Definition timeout_add : M Z := fun w =>
  Ok (w_next w, bump (with_timers (fun l => w_next w :: l) w)).
Definition source_remove (id : Z) : M unit :=
  modify (with_timers (filter (fun t => t <> id))).

(** ** Messages in a list

    A pointer to a message is its id; following one that is no longer in the
    list is a use after free. *)
Definition find_sar (id : Z) (l : list mesh_sar_msg) : option mesh_sar_msg :=
  find_first (fun s => sar_id s =? id) l.
Definition update_sar (id : Z) (f : mesh_sar_msg -> mesh_sar_msg) (l : list mesh_sar_msg)
    : list mesh_sar_msg := update_first (fun s => sar_id s =? id) f l.

(** The two lists of messages in progress. *)
Inductive sar_list := SarIn | MsgOut.
Definition get_list (k : sar_list) (n : mesh_net) : list mesh_sar_msg :=
  match k with SarIn => sar_in n | MsgOut => msg_out n end.
Definition set_list (k : sar_list) (l : list mesh_sar_msg) (n : mesh_net) : mesh_net :=
  match k with SarIn => set_sar_in l n | MsgOut => set_msg_out l n end.

(** [*p] and [*p = f( *p)] for a pointer to a message of a list. *)
Definition deref (k : sar_list) (id : Z) : M mesh_sar_msg :=
  n ← net_of; lift (of_option UseAfterFree (find_sar id (get_list k n))).
Definition assign (k : sar_list) (id : Z) (f : mesh_sar_msg -> mesh_sar_msg) : M unit :=
  _ ← deref k id; mod_net (fun n => set_list k (update_sar id f (get_list k n)) n).

Definition match_sar_dst (dst : Z) (s : mesh_sar_msg) : bool := sar_dst s =? u16 dst.
Definition match_sar_src (src : Z) (s : mesh_sar_msg) : bool := sar_src s =? u16 src.
Definition find_sar_out_by_dst (n : mesh_net) (dst : Z) : option mesh_sar_msg :=
  find_first (match_sar_dst dst) (msg_out n).
Definition find_sar_in_by_src (n : mesh_net) (src : Z) : option mesh_sar_msg :=
  find_first (match_sar_src src) (sar_in n).

(** [flush_sar]: unlink, cancel the timers that are set, free. *)
Definition flush_sar (k : sar_list) (id : Z) : M unit :=
  s ← deref k id;
  _ ← mod_net (fun n =>
        set_list k (remove_first (fun s => sar_id s =? id) (get_list k n)) n);
  _ ← (if truth (msg_to s) then source_remove (msg_to s) else mret tt);
  if truth (ack_to s) then source_remove (ack_to s) else mret tt.

(** [flush_sar_list]: always the head, until the list is empty.  A run of
    [length l] rounds empties the list. *)
Fixpoint flush_sar_loop (fuel : nat) (k : sar_list) : M unit :=
  n ← net_of;
  match get_list k n with
  | [] => mret tt
  | s :: _ =>
      match fuel with
      | O => fail OutOfFuel
      | S fuel' => _ ← flush_sar k (sar_id s); flush_sar_loop fuel' k
      end
  end.
Definition flush_sar_list (k : sar_list) : M unit :=
  n ← net_of; flush_sar_loop (length (get_list k n)) k.

(** [flush_pkt_list]: the loop frees the link [l] and the packet with it, and
    reads the freed link again. *)
Definition flush_pkt_list : M unit :=
  n ← net_of;
  match pkt_out n with
  | [] => mret tt
  | _ :: rest =>
      _ ← mod_net (set_pkt_out rest);
      (* [l] is not advanced: [while (l)] enters again and reads the freed link *)
      fail UseAfterFree
  end.

(** ** Sessions *)

Definition IV_UPD_INIT : Z := 0.
Definition IV_UPD_NORMAL : Z := 1.
Definition IV_UPD_UPDATING : Z := 2.
Definition IV_UPD_NORMAL_HOLD : Z := 3.
Definition IV_IDX_DIFF_RANGE : Z := 42.

Definition net_session_open (data_in : option Z) (prov cb : bool) : M bool :=
  n ← net_of;
  match proxy_in n with
  | Some _ => mret false
  | None =>
      _ ← mod_net (fun n => set_open_cb cb (set_provisioner prov (set_blacklist false
            (set_iv_upd_state IV_UPD_INIT (set_proxy_in data_in n)))));
      _ ← flush_pkt_list;
      mret true
  end.

Definition net_session_close (data_in : option Z) : M unit :=
  n ← net_of;
  _ ← (if bool_decide (proxy_in n = data_in) then mod_net (set_proxy_in None) else mret tt);
  _ ← flush_sar_list SarIn;
  _ ← flush_sar_list MsgOut;
  flush_pkt_list.

(** ** Small accessors *)

Definition net_get_iv_index : M (Z * bool) := n ← net_of; mret (iv_index n, iv_update n).
Definition net_set_iv_index (iv : Z) (update : bool) : M unit :=
  mod_net (fun n => set_iv_update update (set_iv_index iv n)).
Definition set_sequence_number (seq : Z) : M unit := mod_net (set_seq_num seq).
Definition get_sequence_number : M Z := n ← net_of; mret (seq_num n).
Definition net_set_default_ttl (ttl : Z) : M bool :=
  if 0x7f <? ttl then mret false else _ ← mod_net (set_default_ttl ttl); mret true.
Definition net_get_default_ttl : M Z := n ← net_of; mret (default_ttl n).
Definition net_set_seq_num (seq : Z) : M bool :=
  if 0xffffff <? seq then mret false else _ ← mod_net (set_seq_num seq); mret true.
Definition net_get_seq_num : M Z := n ← net_of; mret (seq_num n).

(** [net_register_unicast], [net_register_group] and [net_register_virtual] are
    placeholders in the source: they change nothing. *)
Definition net_register_unicast (unicast count : Z) : bool := true.
Definition net_register_group (group_addr : Z) : bool := true.
Definition net_register_virtual (buf : list Z) : Z := 0.

(** ** Destinations of the proxy filter *)

Definition match_destination (dst : Z) (d : mesh_destination) : bool := dst_dst d =? u16 dst.

Definition net_dest_ref (dst : Z) : M unit :=
  if dst =? 0 then mret tt else
  n ← net_of;
  match find_first (match_destination dst) (dest n) with
  | Some _ =>
      mod_net (fun n => set_dest (update_first (match_destination dst)
        (fun d => Destination (u16 (dst_cnt d + 1)) (dst_dst d)) (dest n)) n)
  | None => mod_net (fun n => set_dest (dest n ++ [Destination 1 dst]) n)
  end.

Definition net_dest_unref (dst : Z) : M unit :=
  n ← net_of;
  match find_first (match_destination dst) (dest n) with
  | None => mret tt
  | Some d =>
      let c := u16 (dst_cnt d - 1) in
      if c =? 0
      then mod_net (fun n => set_dest (remove_first (match_destination dst) (dest n)) n)
      else mod_net (fun n => set_dest (update_first (match_destination dst)
             (fun d => Destination c (dst_dst d)) (dest n)) n)
  end.

End World.
