(* ===== verification/Send.v ===== *)
(** * Sending

    The transmit half of [src/blueZ/mesh/net.c]: the packet queue, sequence
    numbers, segmentation, network and access messages, acknowledgements of
    outgoing messages and their timers. *)

From S2P Require Import Prelude Bytes Alg Ccm Crypto Packet Pdu Keys NetState.

Definition PROXY_NETWORK_PDU : Z := 0x00.
Definition PROXY_CONFIG_PDU : Z := 0x02.
Definition APP_IDX_DEV : Z := 0x7fff.
Definition VIRTUAL_ADDRESS_LOW : Z := 0x8000.
Definition VIRTUAL_ADDRESS_HIGH : Z := 0xbfff.
Definition IS_UNICAST (x : Z) : bool := (0 <? x) && (x <? VIRTUAL_ADDRESS_LOW).
Definition IS_VIRTUAL (x : Z) : bool := (VIRTUAL_ADDRESS_LOW <=? x) && (x <=? VIRTUAL_ADDRESS_HIGH).
Definition MAX_UNSEG_LEN : Z := 15.
Definition MAX_SEG_LEN : Z := 12.
Definition SEG_MAX (len : Z) : Z := if len <=? MAX_UNSEG_LEN then 0 else (len - 1) / MAX_SEG_LEN.

(** [sizeof(struct mesh_sar_msg) + segN * 12], from [data] on. *)
Definition sar_room (segN : Z) : Z := 22 + 12 * segN.

(** [0xffffffff >> (31 - segN)]. *)
Definition full_ack_of (segN : Z) : res Z :=
  if (0 <=? segN) && (segN <=? 31) then Ok (Z.shiftr 0xffffffff (31 - segN)) else Fault BadShift.

Section Send.
Context {N : Type} {NI : NodeIface N} {A : Alg}.
Implicit Types w : world N.
Notation M := (@M N).

(** ** Sequence numbers *)

Definition get_next_seq : M Z :=
  n ← net_of;
  let this_seq := seq_num n in
  let seq := u32 (this_seq + 1) in
  _ ← mod_net (set_seq_num seq);
  _ ← (if seq_num_reserved n <=? u32 (seq + 32) then
         let r := u32 (seq + 100) in
         _ ← mod_net (set_seq_num_reserved r); emit (StoreSeq r)
       else mret tt);
  mret this_seq.

(** ** One segment in the clear

    The packet that [send_seg] assembles in [pkt->data + 1], before encryption,
    and the length it has then (the network MIC included). *)
Definition seg_header (sar : mesh_sar_msg) (nid seq : Z) : res (list Z) :=
  data ← SET_PKT_NID (rep 29 0) nid;
  data ← SET_PKT_IVI data (truth (Z.land (sar_iv_index sar) 1));
  data ← SET_PKT_CTL data (sar_ctl sar);
  data ← SET_PKT_TTL data (sar_ttl sar);
  data ← SET_PKT_SEQ data seq;
  data ← SET_PKT_SRC data (sar_src sar);
  SET_PKT_DST data (sar_dst sar).

Definition seg_plain (sar : mesh_sar_msg) (nid seq seg : Z) : res (list Z * Z) :=
  data ← seg_header sar nid seq;
  data ← SET_PKT_SEGMENTED data (segmented sar);
  data ← (if sar_ctl sar
          then op ← rd (sar_data sar) 0; SET_PKT_OPCODE data op
          else SET_PKT_AKF_AID data (sar_akf_aid sar));
  let ctl := b2z (sar_ctl sar) in
  if segmented sar then
    data ← (if sar_ctl sar then mret data else SET_PKT_SZMIC data (szmic sar));
    data ← set_seg_fields data (seqAuth sar) seg (segN sar);
    m ← rd_range (sar_data sar) (ctl + seg * 12) 12;
    data ← wr_range data 13 m;
    let l := 9 + 4 in
    let l := if segN sar =? seg then u8 (l + (sar_len sar - ctl) mod 12) else l in
    let l := if l =? 9 + 4 then l + 12 else l in
    mret (data, u8 (l + (if sar_ctl sar then 8 else 4)))
  else
    m ← rd_range (sar_data sar) ctl 15;
    data ← wr_range data 10 m;
    mret (data, u8 (9 + 1 + sar_len sar - ctl + (if sar_ctl sar then 8 else 4))).

(** The key parts that secure outgoing packets. *)
Definition tx_parts (k : mesh_net_key) : net_key_parts :=
  if (phase k =? 2) && negb (nid (nk_new k) =? 0xff) then nk_new k else nk_current k.

(** ** The queue

    With [w_sync] the write calls [send_pkt_cmplt] before it returns, which
    writes the next packet or, when the queue has run empty, resends segments;
    [fuel] bounds the nesting. *)
Section Queue.
(** [send_mesh_pkt] of the enclosing level. *)
Variable send_mesh_pkt_rec : mesh_pkt -> M unit.

Definition send_seg_with (sar : mesh_sar_msg) (seg : Z) : M unit :=
  w ← get;
  match find_net_key_by_idx (w_keys w) (sar_net_idx sar) with
  | None => mret tt
  | Some k =>
      let part := tx_parts k in
      id ← fresh;
      seq ← get_next_seq;
      '(data, l) ← lift (seg_plain sar (nid part) seq seg);
      (* the result of the encryption is not looked at *)
      '(_, data) ← lift (mesh_crypto_packet_encode data l (enc_key part)
                           (sar_iv_index sar) (privacy_key part));
      let type := if sar_proxy sar then PROXY_CONFIG_PDU else PROXY_NETWORK_PDU in
      send_mesh_pkt_rec (Pkt id (type :: data) (u8 (l + 1)))
  end.

(** [for (i = 0; i <= segN; i++, ack <<= 1) if (!(ack & sar->ack)) send_seg(...)];
    [n] rounds are left. *)
Fixpoint resend_loop (n : nat) (id i : Z) : M unit :=
  match n with
  | O => mret tt
  | S n' =>
      sar ← deref MsgOut id;
      _ ← (if truth (Z.land (u32 (Z.shiftl 1 i)) (ack sar)) then mret tt
           else send_seg_with sar i);
      resend_loop n' id (i + 1)
  end.

Definition resend_segs_with (id : Z) : M unit :=
  _ ← assign MsgOut id (set_activity_cnt 0);
  sar ← deref MsgOut id;
  resend_loop (Z.to_nat (segN sar + 1)) id 0.

Definition resend_unacked_segs (id : Z) : M unit :=
  sar ← deref MsgOut id;
  if truth (activity_cnt sar) then resend_segs_with id else mret tt.
End Queue.

(** [mesh_gatt_write(net.proxy_in, pkt->data, pkt->len, ...)]. *)
Definition gatt_write (pkt : mesh_pkt) : M unit :=
  d ← lift (rd_range (pkt_data pkt) 0 (pkt_len pkt)); emit (GattWrite d).

(** [send_mesh_pkt], and [send_pkt_cmplt] for the packet with address [id]. *)
Fixpoint send_mesh_pkt (fuel : nat) (pkt : mesh_pkt) : M unit :=
  match fuel with
  | O => fail OutOfFuel
  | S fuel' =>
      n ← net_of;
      let queued := negb (bool_decide (pkt_out n = [])) in
      _ ← mod_net (fun n => set_pkt_out (pkt_out n ++ [pkt]) n);
      if (queued : bool) then mret tt else
      _ ← gatt_write pkt;
      w ← get;
      if w_sync w then send_pkt_cmplt fuel' (pkt_id pkt) else mret tt
  end
with send_pkt_cmplt (fuel : nat) (id : Z) : M unit :=
  match fuel with
  | O => fail OutOfFuel
  | S fuel' =>
      n ← net_of;
      _ ← (match pkt_out n with
           | p :: rest =>
               if pkt_id p =? id then mod_net (set_pkt_out rest)
               else mret tt (* ERR: not head of queue *)
           | [] => mret tt
           end);
      n ← net_of;
      match pkt_out n with
      | [] => mapM_ (resend_unacked_segs (send_mesh_pkt fuel')) (sar_id <$> msg_out n)
      | p :: _ =>
          _ ← gatt_write p;
          w ← get;
          if w_sync w then send_pkt_cmplt fuel' (pkt_id p) else mret tt
      end
  end.

(** The functions as the rest of the program calls them. *)
Definition send_seg (fuel : nat) : mesh_sar_msg -> Z -> M unit := send_seg_with (send_mesh_pkt fuel).
Definition resend_segs (fuel : nat) : Z -> M unit := resend_segs_with (send_mesh_pkt fuel).

(** ** Keys of an outgoing message *)

(** [(akf_aid, app_enc_key, net_idx)], or [None] where it returns false; in that
    case [net_idx] is what was stored before. *)
Definition get_enc_keys (app_idx dst : Z) : M (option (Z * list Z * Z) * option Z) :=
  w ← get;
  if app_idx =? APP_IDX_DEV then
    remote ← (if provisioner (w_net w) then lift (node_find_by_addr (w_nodes w) dst)
              else mret None);
    match node_get_device_key remote with
    | Some key =>
        let idx := node_get_primary_net_idx remote in mret (Some (0, key, idx), Some idx)
    | None =>
        local ← lift (node_get_local_node (w_nodes w));
        match node_get_device_key local with
        | Some key =>
            let idx := node_get_primary_net_idx local in mret (Some (0, key, idx), Some idx)
        | None => mret (None, None)
        end
    end
  else
    match find_app_key_by_idx (w_keys w) app_idx with
    | None => mret (None, None)
    | Some ak =>
        match find_net_key_by_idx (w_keys w) (ak_net_idx ak) with
        | None => mret (None, None)
        | Some nk =>
            let idx := ak_net_idx ak in
            let part := if (phase nk =? 2) && negb (akf_aid (ak_new ak) =? 0xff)
                        then ak_new ak else ak_current ak in
            mret (Some (akf_aid part, ak_key part, idx), Some idx)
        end
    end.

(** ** Control messages *)

(** [buf] is the [len] octets of the caller's buffer, [None] for NULL. *)
Definition net_ctl_msg_send (fuel : nat) (ttl src dst : Z) (buf : option (list Z)) : M bool :=
  w ← get;
  node ← lift (node_get_local_node (w_nodes w));
  match buf with
  | None => mret false
  | Some buf =>
      if 12 <? len buf then mret false else
      match node with
      | None => mret false
      | Some _ =>
          b0 ← lift (rd buf 0);
          if truth (Z.land b0 0x80) then mret false else
          let src := if src =? 0 then node_get_primary node else src in
          if src =? 0 then mret false else
          let ttl := if ttl =? 0xff then default_ttl (w_net w) else ttl in
          '(_, idx) ← get_enc_keys APP_IDX_DEV dst;
          let sar := Sar 0 0 0 (u32 (iv_index (w_net w) - b2z (iv_update (w_net w)))) 0 0 dst src
            (default 0 idx) (len buf) 0 ttl 0 0 true false false (dst =? 0)
            (buf ++ rep (sar_room 0 - len buf) 0) in
          _ ← send_seg fuel sar 0;
          mret true
      end
  end.

(** ** Access messages *)

(** [for (i = 0; i <= segN; i++) send_seg(sar, i)]. *)
Fixpoint send_segs (n : nat) (fuel : nat) (sar : mesh_sar_msg) (i : Z) : M unit :=
  match n with
  | O => mret tt
  | S n' => _ ← send_seg fuel sar i; send_segs n' fuel sar (i + 1)
  end.

(** [for (j = 0; j <= ackless_retries; j++)]. *)
Fixpoint send_rounds (j : nat) (fuel : nat) (sar : mesh_sar_msg) : M unit :=
  match j with
  | O => mret tt
  | S j' => _ ← send_segs (Z.to_nat (segN sar + 1)) fuel sar 0; send_rounds j' fuel sar
  end.

(** The message structure with the payload encrypted into it. *)
Definition sar_encrypt (sar : mesh_sar_msg) (key : list Z) (aad buf : list Z) : res mesh_sar_msg :=
  '(_, io) ← mesh_crypto_application_encrypt (sar_akf_aid sar) (seqAuth sar) (sar_src sar)
               (u16 (sar_dst sar)) (sar_iv_index sar) key aad (len aad) (len buf) 4
               (Separate buf 0 (sar_data sar) 0);
  mret (set_sar_data (io_packet io) sar).

Definition net_access_layer_send (fuel : nat) (ttl src dst app_idx : Z) (buf : list Z) : M bool :=
  w ← get;
  node ← lift (node_get_local_node (w_nodes w));
  match node with
  | None => mret false
  | Some _ =>
      if 384 <? len buf then mret false else
      let src := if src =? 0 then node_get_primary node else src in
      if (src =? 0) || (dst =? 0) then mret false else
      let ttl := if ttl =? 0xff then default_ttl (w_net w) else ttl in
      match (if IS_VIRTUAL dst then
               match find_virt_by_dst (w_keys w) dst with
               | None => None
               | Some v => Some (va16 v, va128 v)
               end
             else Some (dst, [])) with
      | None => mret false
      | Some (dst, aad) =>
          '(keys, _) ← get_enc_keys app_idx (u16 dst);
          match keys with
          | None => mret false
          | Some (aid, key, net_idx) =>
              let sn := u8 (SEG_MAX (len buf + 4)) in
              _ ← (if truth sn && IS_UNICAST dst then
                     n ← net_of;
                     match find_sar_out_by_dst n dst with
                     | Some old => flush_sar MsgOut (sar_id old)
                     | None => mret tt
                     end
                   else mret tt);
              id ← fresh;
              n ← net_of;
              let sar := Sar id 0 0 (u32 (iv_index n - b2z (iv_update n))) (seq_num n) 0 dst src
                net_idx (len buf + 4) aid ttl sn 0 false (truth sn) false false
                (rep (sar_room sn) 0) in
              sar ← lift (sar_encrypt sar key aad buf);
              let retries := if negb (IS_UNICAST dst) && truth sn then 4%nat else 0%nat in
              _ ← send_rounds (S retries) fuel sar;
              if IS_UNICAST dst && truth sn then
                _ ← mod_net (fun n => set_msg_out (msg_out n ++ [sar]) n);
                t1 ← timeout_add;
                _ ← assign MsgOut id (set_ack_to t1);
                t2 ← timeout_add;
                _ ← assign MsgOut id (set_msg_to t2);
                mret true
              else mret true
          end
      end
  end.

(** ** Acknowledgements of outgoing messages *)

Definition ack_rxed (fuel : nat) (src ack_flags : Z) : M bool :=
  n ← net_of;
  match find_sar_out_by_dst n src with
  | None => mret true
  | Some s =>
      let id := sar_id s in
      full_ack ← lift (full_ack_of (segN s));
      let a := Z.lor (ack s) (Z.land ack_flags full_ack) in
      _ ← assign MsgOut id (set_ack a);
      if a =? full_ack then _ ← flush_sar MsgOut id; mret true else
      _ ← assign MsgOut id (fun s => set_activity_cnt (u8 (activity_cnt s + 1)) s);
      n ← net_of;
      _ ← (if bool_decide (pkt_out n = []) then resend_segs fuel id else mret tt);
      mret true
  end.

Definition sar_out_ack_timeout (fuel : nat) (id : Z) : M bool :=
  _ ← assign MsgOut id (fun s => set_activity_cnt (u8 (activity_cnt s + 1)) s);
  n ← net_of;
  _ ← (if bool_decide (pkt_out n = []) then resend_segs fuel id else mret tt);
  mret true.

Definition sar_out_msg_timeout (id : Z) : M bool :=
  _ ← assign MsgOut id (set_msg_to 0);
  _ ← flush_sar MsgOut id;
  mret false.

(** ** The proxy filter *)

Definition FILTER_SETUP : Z := 0x00.
Definition FILTER_ADD : Z := 0x01.
Definition FILTER_STATUS : Z := 0x03.
Definition WHITELIST_FILTER : Z := 0x00.
Definition BLACKLIST_FILTER : Z := 0x01.

(** [struct build_whitelist] is its [data] of 12 octets and [len]. *)
Definition whitefilter_add (fuel : nat) (d : mesh_destination) (white : list Z * Z)
    : M (list Z * Z) :=
  let '(data, l) := white in
  '(data, l) ← lift (if l =? 0 then data ← wr data l FILTER_ADD; mret (data, l + 1)
                     else mret (data, l));
  data ← lift (put_be16 (dst_dst d) data l);
  let l := l + 2 in
  if 10 <? l then
    m ← lift (rd_range data 0 l);
    _ ← net_ctl_msg_send fuel 0 0 0 (Some m);
    mret (data, 0)
  else mret (data, l).

Fixpoint whitefilter_each (fuel : nat) (l : list mesh_destination) (white : list Z * Z)
    : M (list Z * Z) :=
  match l with
  | [] => mret white
  | d :: l' => white ← whitefilter_add fuel d white; whitefilter_each fuel l' white
  end.

Definition setup_whitelist (fuel : nat) : M unit :=
  let data := [FILTER_SETUP; WHITELIST_FILTER] ++ rep 10 0 in
  _ ← net_ctl_msg_send fuel 0 0 0 (Some (take 2 data));
  n ← net_of;
  '(data, l) ← whitefilter_each fuel (dest n) (data, 0);
  if truth l then
    m ← lift (rd_range data 0 l);
    _ ← net_ctl_msg_send fuel 0 0 0 (Some m); mret tt
  else mret tt.

End Send.

(** ** The packets in closed form *)

Section Plain.

(** The network header in the clear. *)
Definition net_header (sar : mesh_sar_msg) (nid seq : Z) : list Z :=
  (nid + 0x80 * (sar_iv_index sar mod 2)) :: (sar_ttl sar + 0x80 * b2z (sar_ctl sar))
    :: to_be 3 seq ++ to_be 2 (sar_src sar) ++ to_be 2 (u16 (sar_dst sar)).

(** Octets of the message in segment [seg]. *)
Definition seg_size (sar : mesh_sar_msg) (seg : Z) : Z :=
  if (segN sar =? seg) && negb (sar_len sar mod 12 =? 0) then sar_len sar mod 12 else 12.

Definition seg_chunk (sar : mesh_sar_msg) (seg : Z) : list Z :=
  take (Z.to_nat (seg_size sar seg)) (drop (Z.to_nat (12 * seg)) (sar_data sar)).

(** The lower transport PDU. *)
Definition lower_pdu (sar : mesh_sar_msg) (seg : Z) : list Z :=
  if segmented sar then
    (sar_akf_aid sar + 0x80)
      :: to_be 3 (b2z (szmic sar) * 0x800000 + seqAuth sar mod 0x2000 * 0x400
                  + seg * 0x20 + segN sar)
      ++ seg_chunk sar seg
  else if sar_ctl sar then
    match sar_data sar with
    | [] => []
    | op :: d => op :: take (Z.to_nat (sar_len sar - 1)) d
    end
  else sar_akf_aid sar :: take (Z.to_nat (sar_len sar)) (sar_data sar).

(** What [net_ctl_msg_send] and [net_access_layer_send] build. *)
Record sar_tx_ok (sar : mesh_sar_msg) : Prop := {
  tx_ttl : 0 <= sar_ttl sar < 0x80;
  tx_aid : 0 <= sar_akf_aid sar < 0x80;
  tx_segN : 0 <= segN sar < 32;
  tx_data : len (sar_data sar) = sar_room (segN sar);
  tx_len : 1 <= sar_len sar;
  tx_seg : if segmented sar
           then sar_ctl sar = false /\ 12 * segN sar < sar_len sar <= 12 * (segN sar + 1)
           else segN sar = 0 /\ if sar_ctl sar
                  then sar_len sar <= 12 /\ Forall (fun b => 0 <= b < 0x80) (take 1 (sar_data sar))
                  else sar_len sar <= 15;
}.

Lemma land_1 x : 0 <= x -> truth (Z.land x 1) = (x mod 2 =? 1).
Proof.
  intros. change 1 with (2 ^ 1 - 1) at 1. rewrite land_ones_mod by lia.
  change (2 ^ 1) with 2. unfold truth. assert (0 <= x mod 2 < 2) by zlia.
  destruct (Z.eqb_spec (x mod 2) 0), (Z.eqb_spec (x mod 2) 1); done || lia.
Qed.

Lemma seg_header_eq sar nid seq :
  sar_tx_ok sar -> 0 <= nid < 0x80 -> 0 <= sar_iv_index sar ->
  seg_header sar nid seq = Ok (net_header sar nid seq ++ rep 20 0).
Proof.
  intros Hs Hn Hiv. unfold seg_header.
  change (rep 29 0) with (0 :: 0 :: 0 :: 0 :: 0 :: 0 :: 0 :: 0 :: 0 :: rep 20 0).
  rewrite set_nid_eq. cbn [mbind res_bind]. rewrite set_ivi_eq. cbn [mbind res_bind].
  rewrite set_ctl_eq. cbn [mbind res_bind]. rewrite set_ttl_eq. cbn [mbind res_bind].
  rewrite set_field_eq by apply Hs.
  rewrite set_seq_eq.
  2: { pose proof (tx_ttl sar Hs). destruct (sar_ctl sar); simpl b2z; lia. }
  cbn [mbind res_bind to_be app]. rewrite set_src_eq. cbn [mbind res_bind to_be app].
  rewrite set_dst_eq. rewrite set_field_0, set_flag_eq, land_1 by done.
  unfold net_header. cbn [to_be app]. do 3 f_equal.
  assert (0 <= sar_iv_index sar mod 2 < 2) by zlia.
  destruct (Z.eqb_spec (sar_iv_index sar mod 2) 1); simpl b2z; lia.
Qed.

Lemma net_header_len sar nid seq : len (net_header sar nid seq) = 9.
Proof. done. Qed.

Lemma seg_size_range sar seg :
  sar_tx_ok sar -> segmented sar = true -> 0 <= seg <= segN sar ->
  1 <= seg_size sar seg <= 12 /\
  12 * seg + 12 <= len (sar_data sar) /\ len (seg_chunk sar seg) = seg_size sar seg.
Proof.
  intros Hs Hseg Hr. pose proof (tx_data sar Hs) as Hd. unfold sar_room in Hd.
  pose proof (tx_segN sar Hs).
  assert (Hsz : 1 <= seg_size sar seg <= 12).
  { unfold seg_size. destruct (segN sar =? seg), (Z.eqb_spec (sar_len sar mod 12) 0); simpl; zlia. }
  split_and!; try lia. unfold seg_chunk, len in *. rewrite length_take, length_drop. lia.
Qed.

Definition net_mic_len (sar : mesh_sar_msg) : Z := if sar_ctl sar then 8 else 4.

(** A segment of a segmented access message: the packet of [send_seg], and
    behind it octets that are not sent. *)
Lemma seg_plain_segmented sar nid seq seg :
  sar_tx_ok sar -> 0 <= nid < 0x80 -> 0 <= sar_iv_index sar -> segmented sar = true ->
  0 <= seg <= segN sar ->
  exists tail,
    seg_plain sar nid seq seg =
      Ok (net_header sar nid seq ++ lower_pdu sar seg ++ tail,
          9 + len (lower_pdu sar seg) + net_mic_len sar) /\
    9 + len (lower_pdu sar seg) + len tail = 29 /\ net_mic_len sar <= len tail.
Proof.
  intros Hs Hn Hiv Hseg Hr. destruct (seg_size_range sar seg Hs Hseg Hr) as (Hsz & Hd & Hch).
  pose proof (tx_seg sar Hs) as Hctl. rewrite Hseg in Hctl. destruct Hctl as [Hctl Hl].
  pose proof (tx_segN sar Hs) as HN. unfold net_mic_len. rewrite Hctl.
  set (m := take 12 (drop (Z.to_nat (12 * seg)) (sar_data sar))).
  assert (Hm : len m = 12) by (unfold m, len in *; rewrite length_take, length_drop; lia).
  assert (Hchunk : seg_chunk sar seg = take (Z.to_nat (seg_size sar seg)) m).
  { unfold seg_chunk, m. rewrite take_take. f_equal. lia. }
  exists (drop (Z.to_nat (seg_size sar seg)) m ++ rep 4 0).
  assert (Hlow : len (lower_pdu sar seg) = 4 + seg_size sar seg).
  { unfold lower_pdu. rewrite Hseg, len_cons, len_app, len_to_be, Hch. lia. }
  assert (Htail : len (drop (Z.to_nat (seg_size sar seg)) m ++ rep 4 0) = 16 - seg_size sar seg).
  { rewrite len_app. change (len (rep 4 0)) with 4. unfold len in *. rewrite length_drop. lia. }
  split_and!; [|lia..]. unfold seg_plain. rewrite seg_header_eq by done. cbn [mbind res_bind].
  set (h := net_header sar nid seq). assert (Hh : len h = 9) by done.
  change (rep 20 0) with (0 :: 0 :: 0 :: 0 :: rep 16 0).
  rewrite set_segmented_eq by done. cbn [mbind res_bind]. rewrite Hctl, Hseg.
  rewrite set_akf_aid_eq, set_field_eq by (done || apply Hs). cbn [mbind res_bind b2z].
  rewrite set_szmic_eq by done. cbn [mbind res_bind].
  replace (set_flag (szmic sar) 0) with (if szmic sar then 0x80 else 0) by by destruct (szmic sar).
  rewrite set_seg_eq by (done || lia). cbn [mbind res_bind].
  rewrite rd_range_ok by lia. replace (0 + seg * 12) with (12 * seg) by lia.
  change (Z.to_nat 12) with 12%nat. fold m. cbn [mbind res_bind].
  set (x := to_be 3 _).
  replace (h ++ (sar_akf_aid sar + 128 * 1) :: x ++ rep 16 0)
    with ((h ++ (sar_akf_aid sar + 128 * 1) :: x) ++ rep 12 0 ++ rep 4 0)
    by (by rewrite <-!app_assoc).
  rewrite wr_range_mid.
  2: { rewrite len_app, len_cons, Hh. unfold x. by rewrite len_to_be. }
  2: { unfold len in Hm. simpl. lia. }
  cbn [mbind res_bind mret res_ret].
  replace (lower_pdu sar seg) with ((sar_akf_aid sar + 128 * 1) :: x ++ seg_chunk sar seg)
    by (unfold lower_pdu; by rewrite Hseg).
  rewrite len_cons, len_app, Hch. replace (len x) with 3 by (unfold x; by rewrite len_to_be).
  f_equal. f_equal.
  - rewrite Hchunk, <-(take_drop (Z.to_nat (seg_size sar seg)) m) at 1.
    rewrite <-!app_assoc. cbn [app]. by rewrite <-!app_assoc.
  - unfold seg_size. replace (sar_len sar - 0) with (sar_len sar) by lia.
    assert (0 <= sar_len sar mod 12 < 12) by zlia.
    destruct (Z.eqb_spec (segN sar) seg) as [He | He]; cbn [andb].
    + destruct (Z.eqb_spec (sar_len sar mod 12) 0) as [-> | Hz]; [done|]. cbn [negb].
      rewrite (u8_small (9 + 4 + _)) by lia.
      rewrite (proj2 (Z.eqb_neq _ (9 + 4))), u8_small by lia. lia.
    + done.
Qed.

(** An unsegmented access or control message. *)
Lemma seg_plain_unsegmented sar nid seq :
  sar_tx_ok sar -> 0 <= nid < 0x80 -> 0 <= sar_iv_index sar -> segmented sar = false ->
  exists tail,
    seg_plain sar nid seq 0 =
      Ok (net_header sar nid seq ++ lower_pdu sar 0 ++ tail,
          9 + len (lower_pdu sar 0) + net_mic_len sar) /\
    9 + len (lower_pdu sar 0) + len tail = 29 /\ net_mic_len sar <= len tail.
Proof.
  intros Hs Hn Hiv Hseg. pose proof (tx_seg sar Hs) as H0. rewrite Hseg in H0.
  destruct H0 as [H0 Hctl]. pose proof (tx_data sar Hs) as Hd. rewrite H0 in Hd.
  change (sar_room 0) with 22 in Hd. pose proof (tx_len sar Hs) as Hl1.
  unfold seg_plain. rewrite seg_header_eq by done. cbn [mbind res_bind].
  set (h := net_header sar nid seq). assert (Hh : len h = 9) by done.
  change (rep 20 0) with (0 :: rep 19 0).
  rewrite set_segmented_eq by done. cbn [mbind res_bind]. rewrite Hseg.
  unfold lower_pdu, net_mic_len. rewrite Hseg.
  destruct (sar_ctl sar); cbn [b2z].
  - destruct Hctl as [Hl Hop]. destruct (sar_data sar) as [|op d] eqn:Ed; [done|].
    apply Forall_cons in Hop as [Hop _].
    change (rd (op :: d) 0) with (Ok op). cbn [mbind res_bind].
    rewrite set_opcode_eq, set_field_eq by done. cbn [mbind res_bind b2z].
    rewrite len_cons in Hd.
    rewrite rd_range_ok by (rewrite ?len_cons; lia). cbn [mbind res_bind].
    change (drop (Z.to_nat 1) (op :: d)) with d.
    set (m := take (Z.to_nat 15) d).
    assert (Hm : len m = 15) by (unfold m, len in *; rewrite length_take; lia).
    replace (h ++ (op + 128 * 0) :: rep 19 0) with ((h ++ [op]) ++ rep 15 0 ++ rep 4 0)
      by (rewrite <-app_assoc; replace (op + 128 * 0) with op by lia; done).
    rewrite wr_range_mid by first [by rewrite len_app, Hh | unfold len in Hm; simpl; lia].
    cbn [mbind res_bind mret res_ret].
    exists (drop (Z.to_nat (sar_len sar - 1)) m ++ rep 4 0).
    rewrite len_cons, len_app. change (len (rep 4 0)) with 4.
    replace (take (Z.to_nat (sar_len sar - 1)) d) with (take (Z.to_nat (sar_len sar - 1)) m)
      by (unfold m; rewrite take_take; f_equal; lia).
    unfold len in *. rewrite length_take, length_drop. split_and!; [|lia..].
    rewrite u8_small by lia. do 2 f_equal; [|lia].
    rewrite <-(take_drop (Z.to_nat (sar_len sar - 1)) m) at 1. by rewrite <-!app_assoc.
  - rewrite set_akf_aid_eq, set_field_eq by (done || apply Hs). cbn [mbind res_bind b2z].
    rewrite rd_range_ok by lia. cbn [mbind res_bind].
    change (drop (Z.to_nat 0) (sar_data sar)) with (sar_data sar).
    set (m := take (Z.to_nat 15) (sar_data sar)).
    assert (Hm : len m = 15) by (unfold m, len in *; rewrite length_take; lia).
    replace (h ++ (sar_akf_aid sar + 128 * 0) :: rep 19 0)
      with ((h ++ [sar_akf_aid sar]) ++ rep 15 0 ++ rep 4 0)
      by (rewrite <-app_assoc; replace (sar_akf_aid sar + 128 * 0) with (sar_akf_aid sar) by lia; done).
    rewrite wr_range_mid by first [by rewrite len_app, Hh | unfold len in Hm; simpl; lia].
    cbn [mbind res_bind mret res_ret].
    exists (drop (Z.to_nat (sar_len sar)) m ++ rep 4 0).
    rewrite len_cons, len_app. change (len (rep 4 0)) with 4.
    replace (take (Z.to_nat (sar_len sar)) (sar_data sar)) with (take (Z.to_nat (sar_len sar)) m)
      by (unfold m; rewrite take_take; f_equal; lia).
    unfold len in *. rewrite length_take, length_drop. split_and!; [|lia..].
    rewrite u8_small by lia. do 2 f_equal; [|lia].
    rewrite <-(take_drop (Z.to_nat (sar_len sar)) m) at 1. by rewrite <-!app_assoc.
Qed.

Lemma seg_plain_eq sar nid seq seg :
  sar_tx_ok sar -> 0 <= nid < 0x80 -> 0 <= sar_iv_index sar -> 0 <= seg <= segN sar ->
  exists tail,
    seg_plain sar nid seq seg =
      Ok (net_header sar nid seq ++ lower_pdu sar seg ++ tail,
          9 + len (lower_pdu sar seg) + net_mic_len sar) /\
    9 + len (lower_pdu sar seg) + len tail = 29 /\ net_mic_len sar <= len tail /\
    1 <= len (lower_pdu sar seg).
Proof.
  intros Hs Hn Hiv Hr.
  assert (Hl : 1 <= len (lower_pdu sar seg)).
  { unfold lower_pdu. pose proof (tx_data sar Hs) as Hd. unfold sar_room in Hd.
    pose proof (tx_segN sar Hs). destruct (segmented sar); [|destruct (sar_ctl sar)].
    - rewrite len_cons. pose proof (len_nonneg (to_be 3 (b2z (szmic sar) * 0x800000
        + seqAuth sar mod 0x2000 * 0x400 + seg * 0x20 + segN sar) ++ seg_chunk sar seg)). lia.
    - destruct (sar_data sar); [unfold len in Hd; simpl in Hd; lia|].
      rewrite len_cons. pose proof (len_nonneg (take (Z.to_nat (sar_len sar - 1)) l)). lia.
    - rewrite len_cons. pose proof (len_nonneg (take (Z.to_nat (sar_len sar)) (sar_data sar))). lia. }
  destruct (segmented sar) eqn:Hseg.
  - destruct (seg_plain_segmented sar nid seq seg) as (tail & ? & ? & ?); try done. by exists tail.
  - pose proof (tx_seg sar Hs) as H0. rewrite Hseg in H0. destruct H0 as [H0 _].
    replace seg with 0 in * by lia.
    destruct (seg_plain_unsegmented sar nid seq) as (tail & ? & ? & ?); try done. by exists tail.
Qed.

(** The header as [packet_encode] sees it. *)
Definition tx_b0 (sar : mesh_sar_msg) (nid : Z) : Z := nid + 0x80 * (sar_iv_index sar mod 2).
Definition tx_b1 (sar : mesh_sar_msg) : Z := sar_ttl sar + 0x80 * b2z (sar_ctl sar).
Definition tx_r (sar : mesh_sar_msg) (seq : Z) : list Z := to_be 3 seq ++ to_be 2 (sar_src sar).
Definition tx_p (sar : mesh_sar_msg) (seg : Z) : list Z :=
  to_be 2 (u16 (sar_dst sar)) ++ lower_pdu sar seg.

Lemma tx_is_ctl sar : sar_tx_ok sar -> is_ctl (tx_b1 sar) = sar_ctl sar.
Proof.
  intros Hs. pose proof (tx_ttl sar Hs) as Ht. unfold tx_b1, is_ctl, CTL.
  revert Ht. generalize (sar_ttl sar). intros t Ht.
  destruct (sar_ctl sar); simpl b2z; [apply truth_true | apply truth_false].
  - replace (t + 128 * 1) with (Z.lor t (Z.shiftl 1 7)) by (rewrite lor_shiftl_add; lia).
    rewrite Z.land_lor_distr_l. intros H0. apply Z.lor_eq_0_iff in H0 as [_ H0]. done.
  - replace (t + 128 * 0) with t by lia. change 128 with (Z.shiftl 1 7).
    apply land_shiftl_0; lia.
Qed.

Definition tx_proxy (sar : mesh_sar_msg) : bool := sar_ctl sar && (u16 (sar_dst sar) =? 0).

(** What goes on the air for segment [seg] under sequence number [seq]. *)
Definition tx_air {A : Alg} (part : net_key_parts) (sar : mesh_sar_msg) (seq seg : Z) : list Z :=
  on_air (enc_key part) (privacy_key part) (tx_b0 sar (nid part)) (tx_b1 sar) (tx_r sar seq)
    (tx_p sar seg) (tx_proxy sar) (sar_iv_index sar).

Lemma seg_encode {A : Alg} {AO : AlgOk A} {AT : AlgTotal A} part sar seq seg :
  sar_tx_ok sar -> 0 <= nid part < 0x80 -> len (enc_key part) = 16 ->
  len (privacy_key part) = 16 -> 0 <= sar_iv_index sar -> 0 <= seg <= segN sar ->
  exists data l tail,
    seg_plain sar (nid part) seq seg = Ok (data, l) /\
    mesh_crypto_packet_encode data l (enc_key part) (sar_iv_index sar) (privacy_key part) =
      Ok (true, tx_air part sar seq seg ++ tail) /\
    l = len (tx_air part sar seq seg) /\ l + len tail = 29 /\ 14 <= l.
Proof.
  intros Hs Hn He Hp Hiv Hr.
  destruct (seg_plain_eq sar (nid part) seq seg) as (tail & Hpl & Hlen & Hmic & Hl1); try done.
  pose proof (tx_is_ctl sar Hs) as Hctl.
  assert (Hms : net_mic_size (tx_b1 sar) = net_mic_len sar)
    by (unfold net_mic_size, net_mic_len; by rewrite Hctl).
  pose proof (net_mic_size_range (tx_b1 sar)) as Hmr.
  destruct (buf_split tail (net_mic_len sar)) as (z & t & -> & Hz); [lia|].
  rewrite len_app in Hlen.
  assert (Hpl2 : len (tx_p sar seg) = 2 + len (lower_pdu sar seg))
    by (unfold tx_p; by rewrite len_app, len_to_be).
  pose proof (encode_on_air (enc_key part) (privacy_key part) He Hp (tx_b0 sar (nid part))
    (tx_b1 sar) (tx_r sar seq) (tx_p sar seg) z t (sar_iv_index sar) eq_refl) as Henc.
  pose proof (len_nonneg t).
  specialize (Henc ltac:(lia) ltac:(lia)). cbn zeta in Henc.
  replace (is_ctl (tx_b1 sar) && (of_be (take 2 (tx_p sar seg)) =? 0)) with (tx_proxy sar) in Henc.
  2: { unfold tx_proxy, tx_p. rewrite Hctl, take_app_length', of_be_to_be by done.
       change (256 ^ Z.of_nat 2) with 0x10000. f_equal. f_equal. unfold u16. symmetry. by apply Z.mod_mod. }
  exists (net_header sar (nid part) seq ++ lower_pdu sar seg ++ z ++ t),
    (9 + len (lower_pdu sar seg) + net_mic_len sar), t.
  assert (Hair : len (tx_air part sar seq seg) = 9 + len (lower_pdu sar seg) + net_mic_len sar).
  { unfold tx_air, on_air.
    pose proof (sealed_len (enc_key part) (privacy_key part) He (tx_b1 sar) (tx_r sar seq) (tx_p sar seg)
      (tx_proxy sar) (sar_iv_index sar) eq_refl ltac:(lia)) as Hsl.
    pose proof (mask_len (enc_key part) (privacy_key part) Hp (sar_iv_index sar) _
      ltac:(rewrite Hsl; lia)) as Hml.
    rewrite len_cons, len_app, Hsl. unfold len at 1.
    rewrite xor_bytes_length by (rewrite Hml; done). change (length (tx_b1 sar :: tx_r sar seq)) with 6%nat.
    lia. }
  split_and!; try lia; [done|].
  unfold tx_air. replace (9 + len (lower_pdu sar seg) + net_mic_len sar)
    with (7 + len (tx_p sar seg) + net_mic_size (tx_b1 sar)) by lia.
  exact Henc.
Qed.
End Plain.

(** ** The queue: termination, memory safety, frame *)

Section Safety.
Context {N : Type} {NI : NodeIface N} {A : Alg} {AO : AlgOk A} {AT : AlgTotal A}.
Implicit Types w : world N.

(** [l'] is [l] with the activity counters of some messages cleared. *)
Definition quieter (l l' : list mesh_sar_msg) : Prop :=
  Forall2 (fun s s' => s' = s \/ s' = set_activity_cnt 0 s) l l'.

Definition is_active (s : mesh_sar_msg) : bool := truth (activity_cnt s).
Definition active (l : list mesh_sar_msg) : nat := length (filter (fun s => is_active s = true) l).

#[export] Instance quieter_preorder : PreOrder quieter.
Proof.
  split.
  - intros l. apply Forall2_same_length_lookup_2; [done|]. intros i x y -> [= ->]. by left.
  - intros l1 l2 l3 H12. revert l3. induction H12 as [|x y l1 l2 Hxy _ IH]; intros l3 H23.
    + inversion H23. constructor.
    + inversion H23 as [|? z ? l3' Hyz H23']; subst. constructor; [|by apply IH].
      destruct Hxy as [-> | ->], Hyz as [-> | ->]; auto.
Qed.

Lemma quieter_fmap {B} (f : mesh_sar_msg -> B) l l' :
  (∀ s, f (set_activity_cnt 0 s) = f s) -> quieter l l' -> f <$> l' = f <$> l.
Proof.
  intros Hf. induction 1 as [|s s' l l' Hs _ IH]; [done|]. rewrite !fmap_cons, IH.
  by destruct Hs as [-> | ->]; rewrite ?Hf.
Qed.
Lemma quieter_ids l l' : quieter l l' -> sar_id <$> l' = sar_id <$> l.
Proof. by apply quieter_fmap. Qed.

Lemma quieter_active l l' : quieter l l' -> (active l' <= active l)%nat.
Proof.
  unfold active. induction 1 as [|s s' l l' Hs _ IH]; [done|].
  rewrite !filter_cons. destruct Hs as [-> | ->].
  - case_decide; simpl; lia.
  - rewrite decide_False by done. case_decide; simpl; lia.
Qed.

(** What a message of the outgoing list is. *)
Definition msg_ok (s : mesh_sar_msg) : Prop :=
  sar_tx_ok s /\ segmented s = true /\ 0 <= sar_iv_index s.

Definition pkt_ok (p : mesh_pkt) : Prop := len (pkt_data p) = 30 /\ 0 <= pkt_len p <= 30.

(** The part of the state that sending does not touch. *)
Definition net_core (n : mesh_net) : mesh_net :=
  set_seq_num 0 (set_seq_num_reserved 0 (set_msg_out [] (set_pkt_out [] n))).

Record tx_inv (w : world N) : Prop := {
  tx_keys : keys_wf (w_keys w);
  tx_msgs : Forall msg_ok (msg_out (w_net w));
  tx_ids : NoDup (sar_id <$> msg_out (w_net w));
  tx_pkts : Forall pkt_ok (pkt_out (w_net w));
  tx_queue : w_sync w = true -> pkt_out (w_net w) = [];
  tx_dsts : NoDup (sar_dst <$> msg_out (w_net w));
  tx_fresh : Forall (fun s => sar_id s < w_next w) (msg_out (w_net w));
}.

Record tx_rel (w w' : world N) : Prop := {
  rel_keys : w_keys w' = w_keys w;
  rel_nodes : w_nodes w' = w_nodes w;
  rel_timers : w_timers w' = w_timers w;
  rel_sync : w_sync w' = w_sync w;
  rel_next : w_next w <= w_next w';
  rel_core : net_core (w_net w') = net_core (w_net w);
  rel_msgs : quieter (msg_out (w_net w)) (msg_out (w_net w'));
  rel_up : handed_up w' = handed_up w;
}.

#[export] Instance tx_rel_preorder : PreOrder tx_rel.
Proof.
  split.
  - intros w. split; done.
  - intros w1 w2 w3 [] []. split; try congruence; [lia | by etrans].
Qed.

(** The outcome of a sending operation. *)
Definition tx_post (w w' : world N) : Prop := tx_inv w' /\ tx_rel w w'.

Lemma tx_post_trans w1 w2 w3 : tx_post w1 w2 -> tx_post w2 w3 -> tx_post w1 w3.
Proof. intros [_ H1] [H2 H3]. split; [done|]. by etrans. Qed.

(** [send_mesh_pkt] at some fuel handles up to [a] active messages. *)
Definition rec_ok (a : nat) (rec : mesh_pkt -> M unit) : Prop :=
  ∀ w pkt, tx_inv w -> (active (msg_out (w_net w)) <= a)%nat -> pkt_ok pkt ->
    wp (rec pkt) (fun _ => tx_post w) w.

Lemma get_next_seq_wp w :
  tx_inv w -> wp get_next_seq (fun seq w' => seq = seq_num (w_net w) /\ tx_post w w') w.
Proof.
  intros []. unfold get_next_seq. wp_run.
  destruct (_ <=? _); wp_run; (split; [done|]); split; split;
    first [done | by rewrite handed_up_quiet | simpl; lia].
Qed.

Lemma tx_parts_ok s k :
  keys_wf s -> k ∈ net_keys s ->
  0 <= nid (tx_parts k) < 0x80 /\ len (enc_key (tx_parts k)) = 16 /\
  len (privacy_key (tx_parts k)) = 16.
Proof.
  intros (_ & _ & Hw & _) Hk. rewrite Forall_forall in Hw. destruct (Hw k Hk) as [Hc Hn].
  assert (Hp : ∀ key, len key = 16 -> 0 <= nid (parts_of key) < 0x80 /\
    len (enc_key (parts_of key)) = 16 /\ len (privacy_key (parts_of key)) = 16).
  { intros key Hl. split; [apply k2_nid_range | by apply k2_keys_len]. }
  unfold tx_parts. destruct ((phase k =? 2) && negb (nid (nk_new k) =? 0xff)) eqn:E.
  - bool_hyps. destruct Hn as [Hn | (key & Hl & ->)]; [done | by apply Hp].
  - destruct Hc as (key & Hl & ->). by apply Hp.
Qed.

Lemma tx_inv_fresh w : tx_inv w -> tx_post w (bump w).
Proof.
  intros []. split; split; try (done || (simpl; lia)).
  simpl. eapply Forall_impl; [done|]. simpl. intros. lia.
Qed.

Lemma send_seg_wp a rec sar seg w :
  rec_ok a rec -> tx_inv w -> (active (msg_out (w_net w)) <= a)%nat ->
  sar_tx_ok sar -> 0 <= sar_iv_index sar -> 0 <= seg <= segN sar ->
  wp (send_seg_with rec sar seg) (fun _ => tx_post w) w.
Proof.
  intros Hrec Hw Ha Hs Hiv Hr. unfold send_seg_with. wp_run.
  destruct (find_net_key_by_idx (w_keys w) (sar_net_idx sar)) as [k|] eqn:Ek.
  2: { apply wp_ret. split; [done | reflexivity]. }
  apply find_first_some in Ek as [Hk _].
  destruct (tx_parts_ok (w_keys w) k (tx_keys w Hw) Hk) as (Hn & He & Hp).
  wp_step. unfold fresh, wp at 1. wp_step.
  pose proof (tx_inv_fresh w Hw) as Hf.
  eapply wp_mono; [apply get_next_seq_wp, Hf|]. intros seq w' [_ Hw'].
  pose proof (tx_post_trans _ _ _ Hf Hw') as [Hi Hrel].
  destruct (seg_encode (tx_parts k) sar seq seg) as (data & l & tail & Hpl & Henc & Hl & Htl & H14);
    try done.
  wp_step. eapply wp_lift; [exact Hpl|]. wp_step. eapply wp_lift; [exact Henc|].
  eapply wp_mono; [apply Hrec; [done | |]|].
  - pose proof (quieter_active _ _ (rel_msgs _ _ Hrel)). lia.
  - pose proof (len_nonneg tail). split.
    + cbn [pkt_data]. rewrite len_cons, len_app, <-Hl. lia.
    + cbn [pkt_len]. rewrite u8_small by lia. lia.
  - intros ? w'' Hw''. apply (tx_post_trans _ w'); [by split | done].
Qed.

(** Following a pointer of the list. *)
Lemma deref_wp id w s :
  find_sar id (msg_out (w_net w)) = Some s -> wp (deref MsgOut id) (fun s' w' => s' = s /\ w' = w) w.
Proof. intros Hs. unfold deref. wp_run. eapply wp_lift; [|done]. simpl. by rewrite Hs. Qed.

Lemma find_sar_in id l s : find_sar id l = Some s -> s ∈ l /\ sar_id s = id.
Proof. intros H. apply find_first_some in H as [Hin Hid]. by apply Z.eqb_eq in Hid. Qed.

Lemma find_by_key l s : NoDup (sar_id <$> l) -> s ∈ l -> find_sar (sar_id s) l = Some s.
Proof.
  unfold find_sar, find_first. induction l as [|x l IH]; intros Hnd Hs; [by apply elem_of_nil in Hs|].
  rewrite fmap_cons, NoDup_cons in Hnd. destruct Hnd as [Hx Hnd]. simpl.
  apply elem_of_cons in Hs as [-> | Hs]; [by rewrite Z.eqb_refl|].
  destruct (Z.eqb_spec (sar_id x) (sar_id s)) as [Heq | _]; [|by apply IH].
  exfalso. apply Hx. rewrite Heq. by apply list_elem_of_fmap_2.
Qed.

Lemma find_sar_elem id l : id ∈ sar_id <$> l -> exists s, find_sar id l = Some s.
Proof.
  intros (s & -> & Hs)%list_elem_of_fmap. unfold find_sar.
  destruct (find_first (λ s0, sar_id s0 =? sar_id s) l) as [s'|] eqn:E; [by exists s'|].
  apply find_first_none in E. rewrite Forall_forall in E. specialize (E s Hs). simpl in E. lia.
Qed.

(** A pointer of the list stays one. *)
Lemma find_sar_quieter id l l' s :
  quieter l l' -> find_sar id l = Some s ->
  exists s', find_sar id l' = Some s' /\ (s' = s \/ s' = set_activity_cnt 0 s).
Proof.
  unfold find_sar, find_first. induction 1 as [|x x' l l' Hx _ IH]; [done|]. simpl.
  replace (sar_id x' =? id) with (sar_id x =? id) by by destruct Hx as [-> | ->].
  destruct (sar_id x =? id); [|done]. intros [= <-]. by exists x'.
Qed.

Lemma resend_loop_wp a rec n id i w s :
  rec_ok a rec -> tx_inv w -> (active (msg_out (w_net w)) <= a)%nat ->
  find_sar id (msg_out (w_net w)) = Some s -> 0 <= i -> i + Z.of_nat n <= segN s + 1 ->
  wp (resend_loop rec n id i) (fun _ => tx_post w) w.
Proof.
  intros Hrec. revert i w s. induction n as [|n IH]; intros i w s Hw Ha Hs Hi Hn.
  { apply wp_ret. split; [done | reflexivity]. }
  simpl. wp_step. eapply wp_mono; [by apply deref_wp|]. intros ? ? [-> ->].
  destruct (find_sar_in _ _ _ Hs) as [Hin _].
  pose proof (tx_msgs w Hw) as Hm. rewrite Forall_forall in Hm.
  destruct (Hm s Hin) as (Htx & _ & Hiv).
  assert (Hstep : wp (if truth (Z.land (u32 (Z.shiftl 1 i)) (ack s)) then mret tt
            else send_seg_with rec s i) (fun _ => tx_post w) w).
  { destruct (truth _).
    - apply wp_ret. split; [done | reflexivity].
    - apply (send_seg_wp a); try done. lia. }
  wp_step. eapply wp_mono; [exact Hstep|]. intros ? w' [Hw' Hrel].
  pose proof (quieter_active _ _ (rel_msgs _ _ Hrel)).
  destruct (find_sar_quieter id _ _ s (rel_msgs _ _ Hrel) Hs) as (s' & Hs' & Hss).
  eapply wp_mono; [apply (IH (i + 1) w' s'); try done; try lia|].
  - destruct Hss as [-> | ->]; simpl; lia.
  - intros ? w'' Hw''. apply (tx_post_trans _ w'); [by split | done].
Qed.

Lemma quieter_update id l : quieter l (update_sar id (set_activity_cnt 0) l).
Proof.
  unfold update_sar. induction l as [|s l IH]; simpl; [constructor|].
  destruct (sar_id s =? id); constructor; auto. change (quieter l l). reflexivity.
Qed.

Lemma active_update id l s :
  find_sar id l = Some s -> is_active s = true ->
  active l = S (active (update_sar id (set_activity_cnt 0) l)).
Proof.
  unfold find_sar, update_sar, active, find_first.
  induction l as [|x l IH]; simpl; [done|]. destruct (sar_id x =? id).
  - intros [= ->] Hs. rewrite !filter_cons, decide_True, decide_False by done. done.
  - intros Hf Hs. specialize (IH Hf Hs). rewrite !filter_cons. case_decide; simpl; lia.
Qed.

Lemma find_update_sar id f l s :
  (∀ s, sar_id (f s) = sar_id s) -> find_sar id l = Some s ->
  find_sar id (update_sar id f l) = Some (f s).
Proof. intros Hf. apply find_update_first. intros y. by rewrite Hf. Qed.

Lemma msg_ok_activity c s : msg_ok s -> msg_ok (set_activity_cnt c s).
Proof. intros (H & ? & ?). split_and!; try done. by destruct H; split. Qed.

(** [resend_segs] on a message of the list. *)
Lemma resend_segs_wp a rec id w s :
  rec_ok a rec -> tx_inv w ->
  (active (update_sar id (set_activity_cnt 0) (msg_out (w_net w))) <= a)%nat ->
  find_sar id (msg_out (w_net w)) = Some s ->
  wp (resend_segs_with rec id) (fun _ => tx_post w) w.
Proof.
  intros Hrec Hw Ha Hs. unfold resend_segs_with, assign.
  wp_step. wp_step. eapply wp_mono; [by apply deref_wp|]. intros ? ? [-> ->]. unfold mod_net. wp_run.
  set (w1 := on_net _ w).
  assert (Hw1 : tx_post w w1).
  { destruct Hw as [? Hm ? ? ? ? ?]. split; split; try done.
    - simpl. apply Forall_update_first; [|done]. intros y Hy _. by apply msg_ok_activity.
    - simpl. unfold update_sar. by rewrite map_update_first.
    - simpl. unfold update_sar. by rewrite map_update_first.
    - simpl. by apply Forall_update_first.
    - apply quieter_update. }
  assert (Hs1 : find_sar id (msg_out (w_net w1)) = Some (set_activity_cnt 0 s))
    by (by apply find_update_sar).
  eapply wp_mono; [by apply deref_wp|]. intros ? ? [-> ->].
  destruct (find_sar_in _ _ _ Hs) as [Hin _].
  pose proof (tx_msgs w Hw) as Hm. rewrite Forall_forall in Hm.
  destruct (Hm s Hin) as (Htx & _ & Hiv). pose proof (tx_segN s Htx).
  eapply wp_mono; [apply (resend_loop_wp a _ _ _ _ w1 (set_activity_cnt 0 s)); try done|].
  - apply Hw1.
  - cbn [set_activity_cnt segN]. lia.
  - intros ? w2 Hw2. by apply (tx_post_trans _ w1).
Qed.

(** One round of [g_list_foreach(net.msg_out, resend_unacked_segs)]. *)
Lemma resend_unacked_wp rec id w :
  (∀ a, S a = active (msg_out (w_net w)) -> rec_ok a rec) -> tx_inv w ->
  id ∈ sar_id <$> msg_out (w_net w) ->
  wp (resend_unacked_segs rec id) (fun _ => tx_post w) w.
Proof.
  intros Hrec Hw Hid. unfold resend_unacked_segs.
  destruct (find_sar_elem _ _ Hid) as [s Hs].
  wp_step. eapply wp_mono; [by apply deref_wp|]. intros ? ? [-> ->].
  destruct (truth (activity_cnt s)) eqn:Hact; [|split; [done | reflexivity]].
  pose proof (active_update id _ s Hs Hact) as Ha.
  eapply (resend_segs_wp (active (update_sar id (set_activity_cnt 0) (msg_out (w_net w)))));
    try done. by apply Hrec.
Qed.

Lemma rec_ok_le a b rec : (a <= b)%nat -> rec_ok b rec -> rec_ok a rec.
Proof. intros Hab Hb w pkt Hw Ha. apply Hb; [done | lia]. Qed.

Lemma resend_all_wp rec w :
  (∀ a, (S a <= active (msg_out (w_net w)))%nat -> rec_ok a rec) -> tx_inv w ->
  wp (mapM_ (resend_unacked_segs rec) (sar_id <$> msg_out (w_net w))) (fun _ => tx_post w) w.
Proof.
  intros Hrec Hw. apply (wp_mapM _ (tx_post w)); [|split; [done | reflexivity]].
  intros id w1 Hid [Hw1 Hrel]. pose proof (quieter_active _ _ (rel_msgs _ _ Hrel)).
  eapply wp_mono; [apply resend_unacked_wp; [|done|]|].
  - intros a Ha. apply Hrec. lia.
  - by rewrite (quieter_ids _ _ (rel_msgs _ _ Hrel)).
  - intros ? w2 Hw2. apply (tx_post_trans _ w1); [by split | done].
Qed.

Lemma gatt_write_wp pkt w :
  pkt_ok pkt -> wp (gatt_write pkt) (fun _ w' => exists d, w' = with_out (GattWrite d) w) w.
Proof.
  intros [Hd Hl]. unfold gatt_write. destruct (rd_range_total (pkt_data pkt) 0 (pkt_len pkt))
    as (d & Hrd & _); [lia..|].
  wp_step. eapply wp_lift; [exact Hrd|]. unfold emit. wp_run. by exists d.
Qed.

Lemma tx_post_queue w l es :
  tx_inv w -> Forall pkt_ok l -> (w_sync w = true -> l = []) ->
  Forall (fun e => is_delivery e = false) es ->
  tx_post w (foldr with_out (on_net (set_pkt_out l) w) es).
Proof.
  intros [] Hl Hq Hes.
  assert (Hp : tx_post w (on_net (set_pkt_out l) w)) by (split; split; done || reflexivity).
  induction Hes as [|e es He _ IH]; [done|]. simpl. destruct IH as [[] []]. split; split; try done.
  by rewrite handed_up_quiet.
Qed.

(** The completion of the only packet of the queue. *)
Lemma send_pkt_cmplt_last a fuel pkt w :
  (∀ a', (S a' <= a)%nat -> rec_ok a' (send_mesh_pkt fuel)) ->
  tx_inv (on_net (set_pkt_out []) w) -> (active (msg_out (w_net w)) <= a)%nat ->
  pkt_out (w_net w) = [pkt] ->
  wp (send_pkt_cmplt (S fuel) (pkt_id pkt)) (fun _ => tx_post (on_net (set_pkt_out []) w)) w.
Proof.
  intros Hrec Hw Ha Hq. cbn [send_pkt_cmplt]. unfold net_of, mod_net. wp_run.
  rewrite Hq, Z.eqb_refl. wp_run. cbn [w_net on_net pkt_out set_pkt_out].
  apply (resend_all_wp _ (on_net (set_pkt_out []) w)); [|done].
  intros a' Ha'. apply Hrec. simpl in Ha'. lia.
Qed.

(** [send_mesh_pkt] with enough fuel: two levels for every message that may
    have to be resent, two for the packet itself. *)
Lemma send_mesh_pkt_ok a fuel : (2 * a + 2 <= fuel)%nat -> rec_ok a (send_mesh_pkt fuel).
Proof.
  revert fuel. induction a as [a IH] using lt_wf_ind. intros fuel Hfuel w pkt Hw Ha Hpkt.
  destruct fuel as [|[|f]]; [lia..|]. cbn [send_mesh_pkt]. unfold net_of, mod_net. wp_run.
  pose proof (tx_pkts w Hw) as Hps.
  destruct (bool_decide_reflect (pkt_out (w_net w) = [])) as [Hq | Hq]; cbn [negb].
  - replace (on_net (fun n => set_pkt_out (pkt_out n ++ [pkt]) n) w)
      with (on_net (set_pkt_out [pkt]) w) by (unfold on_net; by rewrite Hq).
    wp_step. eapply wp_mono; [by apply gatt_write_wp|]. intros ? ? (d & ->). wp_run.
    cbn [w_sync with_out on_net]. destruct (w_sync w) eqn:Hs.
    + set (w1 := with_out _ _).
      pose proof (tx_post_queue w [] [GattWrite d] Hw ltac:(done) ltac:(done)
        ltac:(by repeat constructor)) as Hp.
      eapply wp_mono; [apply (send_pkt_cmplt_last a)|]; try done.
      * intros a' Ha'. apply IH; lia.
      * apply Hp.
      * intros ? w2 Hw2. eapply tx_post_trans; [exact Hp | exact Hw2].
    + wp_run. apply (tx_post_queue w [pkt] [GattWrite d] Hw);
        [by constructor | by rewrite Hs | by repeat constructor].
  - wp_run. apply (tx_post_queue w (pkt_out (w_net w) ++ [pkt]) [] Hw).
    + apply Forall_app. split; [done | by constructor].
    + intros Hs. by apply tx_queue in Hs.
    + constructor.
Qed.

Lemma send_seg_ok a fuel sar seg w :
  (2 * a + 2 <= fuel)%nat -> tx_inv w -> (active (msg_out (w_net w)) <= a)%nat ->
  sar_tx_ok sar -> 0 <= sar_iv_index sar -> 0 <= seg <= segN sar ->
  wp (send_seg fuel sar seg) (fun _ => tx_post w) w.
Proof. intros Hf. intros. apply (send_seg_wp a); try done. by apply send_mesh_pkt_ok. Qed.

(** ** Access messages *)

(** What the node layer promises to the network layer. *)
Definition view_ok (v : option node_view) : Prop :=
  match v with
  | None => True
  | Some v => len (nv_dev_key v) = 16 /\ 0 <= nv_primary v < 0x8000
  end.
Definition nodes_ok (n : N) : Prop :=
  node_inv n /\
  (exists v, node_get_local_node n = Ok v /\ view_ok v) /\
  (∀ addr, exists v, node_find_by_addr n addr = Ok v /\ view_ok v).
Definition virt_ok (v : mesh_virt_addr) : Prop :=
  len (va128 v) = 16 /\ VIRTUAL_ADDRESS_LOW <= va16 v <= VIRTUAL_ADDRESS_HIGH.

(** The world between two calls of the network layer. *)
Record tx_ready (w : world N) : Prop := {
  ready_inv : tx_inv w;
  ready_nodes : nodes_ok (w_nodes w);
  ready_virt : Forall virt_ok (virt_addrs (w_keys w));
  ready_ttl : 0 <= default_ttl (w_net w) < 0x80;
}.

Lemma app_aid_range key : 0x40 <= akf_aid (app_parts_of key) < 0x80.
Proof.
  unfold app_parts_of, AKF_BIT. cbn [akf_aid]. pose proof (k4_range key) as H.
  revert H. generalize (k4_of key). intros x Hx.
  pose proof (lor_shiftl_add x 1 6 ltac:(lia) ltac:(lia)) as Hor.
  change (Z.shiftl 1 6) with 0x40 in Hor. rewrite Hor. lia.
Qed.

Lemma get_enc_keys_wp app_idx dst w :
  keys_wf (w_keys w) -> nodes_ok (w_nodes w) ->
  wp (get_enc_keys app_idx dst) (fun r w' => w' = w /\
    match fst r with Some (aid, key, _) => 0 <= aid < 0x80 /\ len key = 16 | None => True end) w.
Proof.
  intros (_ & _ & _ & Haw) (_ & (loc & Hloc & Hlv) & Hfind). unfold get_enc_keys. wp_run.
  destruct (app_idx =? APP_IDX_DEV).
  - assert (Hr : exists r, (if provisioner (w_net w) then lift (node_find_by_addr (w_nodes w) dst)
        else mret None) w = Ok (r, w) /\ view_ok r).
    { destruct (provisioner (w_net w)); [|by exists None].
      destruct (Hfind dst) as (v & Hv & Hok). exists v. unfold lift. by rewrite Hv. }
    destruct Hr as (r & Hr & Hrv). wp_step. apply wp_ok. exists r, w. split; [done|].
    destruct r as [v|]; cbn [node_get_device_key].
    + wp_run. destruct Hrv. cbn [fst]. done.
    + wp_step. eapply wp_lift; [exact Hloc|].
      destruct loc as [v|]; cbn [node_get_device_key]; wp_run; [destruct Hlv|]; done.
  - destruct (find_app_key_by_idx (w_keys w) app_idx) as [ak|] eqn:Eak; [|by wp_run].
    destruct (find_net_key_by_idx (w_keys w) (ak_net_idx ak)) as [nk|]; [|by wp_run].
    wp_run. split; [done|]. cbn [fst].
    apply find_first_some in Eak as [Hin _]. rewrite Forall_forall in Haw.
    destruct (Haw ak Hin) as [(key & Hk & Hc) Hn].
    destruct ((phase nk =? 2) && negb (akf_aid (ak_new ak) =? 0xff)) eqn:E; bool_hyps.
    + destruct Hn as [Hn | (key' & Hk' & ->)]; [done|].
      pose proof (app_aid_range key'). split; [lia | done].
    + rewrite Hc. pose proof (app_aid_range key). split; [lia | done].
Qed.

(** The nonce of an access message. *)
Definition sar_nonce (sar : mesh_sar_msg) : list Z :=
  (if truth (sar_akf_aid sar) then mesh_crypto_application_nonce else mesh_crypto_device_nonce)
    (seqAuth sar) (sar_src sar) (u16 (sar_dst sar)) (sar_iv_index sar) false.

Lemma sar_encrypt_eq sar key aad buf :
  len key = 16 -> aad = [] \/ len aad = 16 -> 1 <= len buf <= 255 ->
  len buf + 4 <= len (sar_data sar) ->
  exists z, sar_encrypt sar key aad buf =
    Ok (set_sar_data (sealed_msg key (sar_nonce sar) aad buf 4 ++ z) sar) /\
    len buf + 4 + len z = len (sar_data sar).
Proof.
  intros Hk Haad Hb Hroom. unfold sar_encrypt, mesh_crypto_application_encrypt.
  change (4 =? 8) with false.
  replace (if truth _ then _ else _) with (sar_nonce sar) by (unfold sar_nonce; by case_goal).
  assert (Hn : len (sar_nonce sar) = 13) by (unfold sar_nonce; by case_goal).
  destruct (buf_split (sar_data sar) (len buf)) as (o & dz & Hd & Ho); [pose proof (len_nonneg buf); lia|].
  assert (Hu : u8 (len aad) = len aad) by (destruct Haad as [-> | ->]; done).
  rewrite Hu, u8_small by lia.
  pose proof (ccm_encrypt_eq key Hk (sar_nonce sar) aad buf 4 (FSep [] [] [] o dz) Hn) as He.
  rewrite Hd in Hroom |- *. rewrite len_app in Hroom.
  unfold io_of, io_done in He. change (drop (length (@nil Z)) o) with (drop 0 o) in He.
  rewrite drop_0, app_nil_r in He. cbn [app] in He. change (len []) with 0 in He.
  rewrite He; [| destruct Haad as [-> | ?]; [by left | right; lia] | lia | by left |].
  2: { split; [unfold len in *; lia | lia]. }
  cbn [mbind res_bind io_packet mret res_ret].
  pose proof (ref_tag_len key Hk (sar_nonce sar) aad buf 4 Hn) as Ht.
  exists (drop 4 dz). unfold sealed_msg. rewrite <-app_assoc. split.
  - do 3 f_equal. f_equal. f_equal. unfold len in Ht. rewrite length_take. lia.
  - rewrite len_app. unfold len in *. rewrite length_drop. lia.
Qed.

Lemma sar_encrypt_ok sar key aad buf :
  len key = 16 -> aad = [] \/ len aad = 16 -> 1 <= len buf <= 255 ->
  len buf + 4 <= len (sar_data sar) ->
  exists d, sar_encrypt sar key aad buf = Ok (set_sar_data d sar) /\ len d = len (sar_data sar).
Proof.
  intros Hk Haad Hb Hroom. destruct (sar_encrypt_eq sar key aad buf) as (z & He & Hl); try done.
  eexists. split; [exact He|]. rewrite len_app, sealed_msg_len by (done || lia || by left || (unfold sar_nonce; by case_goal)). lia.
Qed.

(** [flush_sar] on the outgoing list. *)
Lemma flush_out_wp id w s :
  tx_inv w -> find_sar id (msg_out (w_net w)) = Some s ->
  wp (flush_sar MsgOut id) (fun _ w' => tx_inv w' /\ w_keys w' = w_keys w /\
    w_nodes w' = w_nodes w /\
    w_net w' = set_msg_out (remove_first (fun s => sar_id s =? id) (msg_out (w_net w))) (w_net w) /\
    (msg_to s <> 0 -> msg_to s ∉ w_timers w') /\ (ack_to s <> 0 -> ack_to s ∉ w_timers w')) w.
Proof.
  intros Hw Hs. unfold flush_sar. wp_step. eapply wp_mono; [by apply deref_wp|].
  intros ? ? [-> ->]. unfold mod_net, source_remove. wp_run.
  set (w1 := on_net _ w).
  assert (Hi : ∀ f, tx_inv (with_timers f w1)).
  { intros f. destruct Hw. split; simpl; try done.
    - by apply Forall_remove_first.
    - by apply NoDup_remove_first.
    - by apply NoDup_remove_first.
    - by apply Forall_remove_first. }
  assert (Hn : ∀ t l, t ∉ filter (fun t' : Z => t' <> t) l)
    by (intros t l [? _]%list_elem_of_filter; done).
  assert (Hn2 : ∀ t t2 l, t ∉ filter (fun t' : Z => t' <> t2) (filter (fun t' : Z => t' <> t) l))
    by (intros t t2 l [_ Hx]%list_elem_of_filter; by apply Hn in Hx).
  destruct (truth (msg_to s)) eqn:Em, (truth (ack_to s)) eqn:Ea; wp_run; bool_hyps;
    (split; [|split_and!; done || (intros; simpl; auto)]).
  - exact (Hi (fun l => filter (fun t => t <> ack_to s) (filter (fun t => t <> msg_to s) l))).
  - apply Hi.
  - apply Hi.
  - exact (Hi (fun l => l)).
Qed.

(** A write through a pointer of the list. *)
Lemma assign_wp id f w s :
  tx_inv w -> find_sar id (msg_out (w_net w)) = Some s ->
  (∀ s, msg_ok s -> msg_ok (f s)) -> (∀ s, sar_id (f s) = sar_id s) ->
  (∀ s, sar_dst (f s) = sar_dst s) ->
  wp (assign MsgOut id f) (fun _ w' => tx_inv w' /\
    w' = on_net (fun n => set_msg_out (update_sar id f (msg_out n)) n) w) w.
Proof.
  intros [] Hs Hf Hi Hd. unfold assign, mod_net. wp_step.
  eapply wp_mono; [by apply deref_wp|]. intros ? ? [-> ->]. wp_run. split; [|done].
  split; simpl; try done; unfold update_sar; rewrite ?map_update_first by done; try done.
  - apply Forall_update_first; auto.
  - apply Forall_update_first; [|done]. intros y. by rewrite Hi.
Qed.

Lemma active_cleared id f l :
  (∀ s, sar_id (f s) = sar_id s) ->
  (active (update_sar id (set_activity_cnt 0) (update_sar id f l)) <= active l)%nat.
Proof.
  intros Hf. unfold active, update_sar. induction l as [|x l IH]; simpl; [done|].
  destruct (sar_id x =? id) eqn:E; simpl; rewrite ?Hf, E, !filter_cons.
  - rewrite decide_False by done. case_decide; simpl; lia.
  - case_decide; simpl; lia.
Qed.

Lemma active_same id f l :
  (∀ s, is_active (f s) = is_active s) -> active (update_sar id f l) = active l.
Proof.
  intros Hf. unfold active, update_sar. induction l as [|x l IH]; simpl; [done|].
  destruct (sar_id x =? id); rewrite !filter_cons, ?Hf; case_decide; simpl; lia.
Qed.

Lemma full_ack_eq n : 0 <= n < 32 -> full_ack_of n = Ok (2 ^ (n + 1) - 1).
Proof.
  intros Hn. unfold full_ack_of.
  rewrite (proj2 (Z.leb_le 0 n)), (proj2 (Z.leb_le n 31)) by lia. cbn [andb]. f_equal.
  by_evaluation n.
Qed.

Lemma send_segs_wp a n fuel sar i w :
  (2 * a + 2 <= fuel)%nat -> tx_inv w -> (active (msg_out (w_net w)) <= a)%nat ->
  sar_tx_ok sar -> 0 <= sar_iv_index sar -> 0 <= i -> i + Z.of_nat n <= segN sar + 1 ->
  wp (send_segs n fuel sar i) (fun _ => tx_post w) w.
Proof.
  intros Hf. revert i w. induction n as [|n IH]; intros i w Hw Ha Hs Hiv Hi Hn.
  { apply wp_ret. split; [done | reflexivity]. }
  cbn [send_segs]. wp_step. eapply wp_mono; [apply (send_seg_ok a); try done; lia|].
  intros ? w' [Hw' Hrel]. pose proof (quieter_active _ _ (rel_msgs _ _ Hrel)).
  eapply wp_mono; [apply (IH (i + 1) w'); try done; lia|].
  intros ? w'' Hw''. apply (tx_post_trans _ w'); [by split | done].
Qed.

Lemma send_rounds_wp a j fuel sar w :
  (2 * a + 2 <= fuel)%nat -> tx_inv w -> (active (msg_out (w_net w)) <= a)%nat ->
  sar_tx_ok sar -> 0 <= sar_iv_index sar ->
  wp (send_rounds j fuel sar) (fun _ => tx_post w) w.
Proof.
  intros Hf. revert w. induction j as [|j IH]; intros w Hw Ha Hs Hiv.
  { apply wp_ret. split; [done | reflexivity]. }
  cbn [send_rounds]. pose proof (tx_segN sar Hs).
  wp_step. eapply wp_mono; [apply (send_segs_wp a); try done; lia|].
  intros ? w' [Hw' Hrel]. pose proof (quieter_active _ _ (rel_msgs _ _ Hrel)).
  eapply wp_mono; [apply (IH w'); try done; lia|].
  intros ? w'' Hw''. apply (tx_post_trans _ w'); [by split | done].
Qed.

(** The new message of [net_access_layer_send] fits. *)
Lemma seg_max_bounds n :
  1 <= n <= 255 ->
  let sn := u8 (SEG_MAX (n + 4)) in
  0 <= sn <= 21 /\ n + 4 <= sar_room sn /\
  (if truth sn then 12 * sn < n + 4 <= 12 * (sn + 1) /\ 11 < n else sn = 0 /\ n <= 11).
Proof.
  intros Hn sn. unfold sn, SEG_MAX, MAX_UNSEG_LEN, MAX_SEG_LEN, sar_room.
  destruct (Z.leb_spec (n + 4) 15).
  - change (u8 0) with 0. change (truth 0) with false. cbn iota. lia.
  - assert (1 <= (n + 4 - 1) / 12 <= 21) by zlia. rewrite u8_small by lia.
    rewrite (proj2 (truth_true _)) by lia. zlia.
Qed.

(** Making room for a message to [dst]. *)
Lemma make_room_wp (seg : bool) dst w :
  tx_inv w -> 0 <= dst ->
  wp (if seg && IS_UNICAST dst then
        n ← net_of;
        match find_sar_out_by_dst n dst with
        | Some old => flush_sar MsgOut (sar_id old)
        | None => mret tt
        end
      else mret tt)
    (fun _ w' => tx_inv w' /\ w_keys w' = w_keys w /\ w_nodes w' = w_nodes w /\
      net_core (w_net w') = net_core (w_net w) /\ seq_num (w_net w') = seq_num (w_net w) /\
      (active (msg_out (w_net w')) <= active (msg_out (w_net w)))%nat /\
      (seg && IS_UNICAST dst = true ->
         Forall (fun s => sar_dst s <> dst) (msg_out (w_net w')))) w.
Proof.
  intros Hw Hd. destruct (seg && IS_UNICAST dst) eqn:E; [|by wp_run].
  bool_hyps. unfold IS_UNICAST, VIRTUAL_ADDRESS_LOW in *. bool_hyps.
  unfold net_of. wp_run. unfold find_sar_out_by_dst.
  assert (Hu : u16 dst = dst) by (apply u16_small; lia).
  destruct (find_first (match_sar_dst dst) (msg_out (w_net w))) as [old|] eqn:Ef.
  - apply find_first_some in Ef as [Hin Hm]. unfold match_sar_dst in Hm. bool_hyps. rewrite Hu in *.
    destruct (find_sar_elem (sar_id old) (msg_out (w_net w))) as [s Hs];
      [by apply list_elem_of_fmap_2|].
    eapply wp_mono; [by apply (flush_out_wp _ _ s)|]. intros ? w' (Hi & Hk & Hn & Hnet & _ & _).
    rewrite Hnet. split_and!; try done.
    + cbn [msg_out set_msg_out]. unfold active.
      apply filter_remove_first.
    + intros _. cbn [msg_out set_msg_out].
      pose proof (remove_first_perm sar_id _ old (tx_ids w Hw) Hin) as Hp.
      pose proof (tx_dsts w Hw) as Hnd. rewrite Hp, fmap_cons, NoDup_cons in Hnd.
      destruct Hnd as [Hnd _]. apply Forall_forall. intros y Hy Hyd. apply Hnd.
      replace (sar_dst old) with (sar_dst y) by congruence. by apply list_elem_of_fmap_2.
  - wp_run. split_and!; try done. intros _. apply find_first_none in Ef.
    eapply Forall_impl; [exact Ef|]. intros y Hy. unfold match_sar_dst in Hy. bool_hyps. congruence.
Qed.

(** ** Control messages *)

Lemma tx_ready_rel w w' : tx_ready w -> tx_post w w' -> tx_ready w'.
Proof.
  intros [Hi Hn Hv Ht] [Hi' [Hk Hnn _ _ _ Hc _]]. split; [done | by rewrite Hnn | by rewrite Hk |].
  apply (f_equal default_ttl) in Hc. simpl in Hc. by rewrite Hc.
Qed.

Lemma ctl_sar_ok iv dst src idx buf ttl p :
  1 <= len buf <= 12 -> Forall (fun b => 0 <= b < 0x80) (take 1 buf) -> 0 <= ttl < 0x80 ->
  sar_tx_ok (Sar 0 0 0 iv 0 0 dst src idx (len buf) 0 ttl 0 0 true false false p
               (buf ++ rep (sar_room 0 - len buf) 0)).
Proof.
  intros Hl Hb Ht. split; cbn -[sar_room rep]; try done; try lia.
  - rewrite len_app, len_rep by (unfold sar_room; lia). lia.
  - split; [done|]. split; [lia|]. destruct buf as [|b buf]; [|done].
    unfold len in Hl. simpl in Hl. lia.
Qed.

Lemma ctl_send_wp fuel ttl src dst buf w :
  tx_ready w -> (2 * active (msg_out (w_net w)) + 2 <= fuel)%nat ->
  0 <= ttl < 0x80 \/ ttl = 0xff -> 1 <= len buf -> bytes buf ->
  wp (net_ctl_msg_send fuel ttl src dst (Some buf)) (fun _ => tx_post w) w.
Proof.
  intros [Hw Hn Hv Httl] Hf Ht Hl Hbytes. unfold net_ctl_msg_send.
  pose proof Hn as (_ & (loc & Hloc & Hlv) & Hfind).
  assert (Hid : tx_post w w) by (split; [done | reflexivity]).
  wp_run. eapply wp_lift; [exact Hloc|].
  destruct (Z.ltb_spec 12 (len buf)); [by wp_run|].
  destruct loc as [node|]; [|by wp_run].
  destruct (rd_ok buf 0 ltac:(lia)) as (b0 & Hb0 & Hlook).
  wp_step. eapply wp_lift; [exact Hb0|].
  destruct (truth (Z.land b0 0x80)) eqn:Et; [by wp_run|].
  destruct (_ =? 0) eqn:Es; [by wp_run|].
  wp_step. eapply wp_mono; [apply get_enc_keys_wp; [apply Hw | done]|].
  intros [keys idx] ? [-> _]. wp_step.
  eapply wp_mono; [apply (send_seg_ok (active (msg_out (w_net w)))); try done|].
  - apply ctl_sar_ok; [lia | | by destruct (Z.eqb_spec ttl 0xff); [|lia]].
    destruct buf as [|b buf]; [done|]. injection Hlook as <-.
    apply Forall_cons in Hbytes as [Hb _]. rewrite top_bit in Et by done. bool_hyps.
    constructor; [lia | done].
  - apply u32_range.
  - intros ? w' Hw'. by wp_run.
Qed.

(** Storing a new message with its two timers. *)
Definition stored (sar : mesh_sar_msg) (t1 t2 : Z) : mesh_sar_msg := set_msg_to t2 (set_ack_to t1 sar).

Lemma store_wp sar w :
  tx_inv w -> msg_ok sar -> sar_id sar < w_next w ->
  sar_id sar ∉ sar_id <$> msg_out (w_net w) -> sar_dst sar ∉ sar_dst <$> msg_out (w_net w) ->
  wp (_ ← mod_net (fun n => set_msg_out (msg_out n ++ [sar]) n);
      t1 ← timeout_add;
      _ ← assign MsgOut (sar_id sar) (set_ack_to t1);
      t2 ← timeout_add;
      _ ← assign MsgOut (sar_id sar) (set_msg_to t2);
      mret true)
    (fun r w' => r = true /\ tx_inv w' /\ w_keys w' = w_keys w /\ w_nodes w' = w_nodes w /\
       exists t1 t2, t1 ∈ w_timers w' /\ t2 ∈ w_timers w' /\
         msg_out (w_net w') = msg_out (w_net w) ++ [stored sar t1 t2]) w.
Proof.
  intros Hw Hok Hid Hfresh Hdst.
  assert (Hf : ∀ s, sar_id s = sar_id sar ->
    find_sar (sar_id sar) (msg_out (w_net w) ++ [s]) = Some s).
  { intros s Hs. unfold find_sar. rewrite find_first_app.
    destruct (find_first _ (msg_out (w_net w))) as [x|] eqn:E.
    - apply find_sar_in in E as [Hin Hx]. exfalso. apply Hfresh. rewrite <-Hx.
      by apply list_elem_of_fmap_2.
    - unfold find_first. simpl. by rewrite Hs, Z.eqb_refl. }
  assert (Hu : ∀ s f, sar_id s = sar_id sar ->
    update_sar (sar_id sar) f (msg_out (w_net w) ++ [s]) = msg_out (w_net w) ++ [f s]).
  { intros s f Hs. unfold update_sar. rewrite update_first_app; [|].
    - simpl. by rewrite Hs, Z.eqb_refl.
    - apply Forall_forall. intros x Hx. apply Z.eqb_neq. intros Heq. apply Hfresh.
      rewrite <-Heq. by apply list_elem_of_fmap_2. }
  set (l := msg_out (w_net w)) in *.
  unfold mod_net, timeout_add, assign, mod_net. wp_run. unfold wp at 1. cbn beta iota. wp_run.
  eapply wp_mono; [apply (deref_wp _ _ sar); by apply Hf|]. intros ? ? [-> ->]. wp_run.
  unfold wp at 1. cbn beta iota. wp_run.
  set (s1 := set_ack_to (w_next w) sar).
  eapply wp_mono; [apply (deref_wp _ _ s1)|].
  { change (find_sar (sar_id sar)
      (update_sar (sar_id sar) (set_ack_to (w_next w)) (l ++ [sar])) = Some s1).
    rewrite Hu by done. by apply Hf. }
  intros ? ? [-> ->]. wp_run. set (w' := on_net _ _).
  assert (Hl : msg_out (w_net w') = l ++ [stored sar (w_next w) (w_next w + 1)]).
  { change (update_sar (sar_id sar) (set_msg_to (w_next w + 1))
      (update_sar (sar_id sar) (set_ack_to (w_next w)) (l ++ [sar])) =
      l ++ [stored sar (w_next w) (w_next w + 1)]). by rewrite !Hu by done. }
  destruct Hw as [Hk Hm Hi Hp Hq Hd Hfr]. split; [done|]. split_and!; try done.
  - split; rewrite ?Hl; try done.
    + apply Forall_app. split; [done|]. constructor; [|done].
      destruct Hok as (H & ? & ?). split_and!; try done. by destruct H; split.
    + by apply NoDup_snoc_elem.
    + by apply NoDup_snoc_elem.
    + change (w_next w') with (w_next w + 1 + 1).
      apply Forall_app. split; [|constructor; [cbn; lia | done]].
      eapply Forall_impl; [exact Hfr|]. cbn. lia.
  - exists (w_next w), (w_next w + 1). split_and!; [| | done].
    + change (w_timers w') with (w_next w + 1 :: w_next w :: w_timers w). right. left.
    + change (w_timers w') with (w_next w + 1 :: w_next w :: w_timers w). left.
Qed.

(** What [net_access_layer_send] leaves for a segmented unicast message. *)
Definition msg_stored (w w' : world N) (dst n : Z) : Prop :=
  exists s rest, msg_out (w_net w') = rest ++ [s] /\ sar_dst s = dst /\ sar_len s = n + 4 /\
    ack s = 0 /\ seqAuth s = seq_num (w_net w) /\ segN s = (n + 3) / 12 /\
    ack_to s ∈ w_timers w' /\ msg_to s ∈ w_timers w' /\
    Forall (fun x => sar_dst x <> dst) rest.

Lemma access_send_wp fuel ttl src dst app_idx buf w :
  tx_ready w -> (2 * active (msg_out (w_net w)) + 2 <= fuel)%nat ->
  0 <= ttl < 0x80 \/ ttl = 0xff -> 0 <= dst -> 1 <= len buf <= 255 ->
  wp (net_access_layer_send fuel ttl src dst app_idx buf)
    (fun r w' => tx_inv w' /\ w_keys w' = w_keys w /\ w_nodes w' = w_nodes w /\
       (r = true -> IS_UNICAST dst = true -> 11 < len buf -> msg_stored w w' dst (len buf))) w.
Proof.
  intros [Hw Hn Hv Httl] Hfuel Ht Hd Hb. unfold net_access_layer_send.
  pose proof Hn as (_ & (loc & Hloc & Hlv) & Hfind).
  wp_run. eapply wp_lift; [exact Hloc|]. destruct loc as [node|]; [|by wp_run].
  rewrite (proj2 (Z.ltb_ge 384 _)) by lia.
  set (src' := if src =? 0 then _ else src).
  destruct ((src' =? 0) || (dst =? 0)) eqn:E0; [by wp_run|].
  set (ttl' := if ttl =? 0xff then _ else ttl).
  assert (Ht' : 0 <= ttl' < 0x80).
  { unfold ttl'. destruct (Z.eqb_spec ttl 0xff); [done | lia]. }
  destruct (if IS_VIRTUAL dst then _ else _) as [[dst' aad]|] eqn:Edst; [|by wp_run].
  assert (Haad : (aad = [] \/ len aad = 16) /\ 0 <= dst' /\ (IS_UNICAST dst = true -> dst' = dst)).
  { destruct (IS_VIRTUAL dst) eqn:Evd.
    - destruct (find_virt_by_dst (w_keys w) dst) as [v|] eqn:Ev; [|done].
      injection Edst as <- <-. apply find_first_some in Ev as [Hin _].
      rewrite Forall_forall in Hv. destruct (Hv v Hin) as [Hl Hr].
      unfold VIRTUAL_ADDRESS_LOW in *. split_and!; [by right | lia |].
      unfold IS_VIRTUAL, IS_UNICAST, VIRTUAL_ADDRESS_LOW in *. intros. bool_hyps. lia.
    - injection Edst as <- <-. split_and!; [by left | done | done]. }
  destruct Haad as (Haad & Hd' & Huni).
  wp_step. eapply wp_mono; [apply get_enc_keys_wp; [apply Hw | exact Hn]|].
  intros [keys idx] ? [-> Hkeys]. cbn [fst] in Hkeys.
  destruct keys as [[[aid key] net_idx]|]; [|by wp_run]. destruct Hkeys as [Haid Hkey].
  pose proof (seg_max_bounds (len buf) Hb) as Hsn. cbn zeta in Hsn.
  set (sn := u8 (SEG_MAX (len buf + 4))) in *. destruct Hsn as (Hsn & Hroom & Hseg).
  wp_step. eapply wp_mono; [by apply make_room_wp|].
  intros ? w1 (Hw1 & Hk1 & Hn1 & Hcore & Hseq & Hact & Hnone).
  wp_step. unfold fresh, wp at 1. unfold net_of. wp_run.
  set (sar0 := Sar _ _ _ _ _ _ _ _ _ _ _ _ _ _ _ _ _ _ _).
  destruct (sar_encrypt_ok sar0 key aad buf Hkey Haad Hb) as (d & Henc & Hdl).
  { unfold sar0. cbn [sar_data]. rewrite len_rep; unfold sar_room in *; lia. }
  eapply wp_lift; [exact Henc|]. set (sar := set_sar_data d sar0).
  assert (Hok : sar_tx_ok sar).
  { split; unfold sar, sar0; cbn -[sar_room SEG_MAX]; try done; try lia.
    - cbn [sar_data sar0] in Hdl. rewrite Hdl. rewrite len_rep; unfold sar_room; lia.
    - destruct (truth sn); [split; [done | lia] | lia]. }
  assert (Hiv : 0 <= sar_iv_index sar) by apply u32_range.
  pose proof (tx_inv_fresh w1 Hw1) as [Hwf Hrf].
  wp_step. eapply wp_mono; [apply (send_rounds_wp (active (msg_out (w_net w)))); try done|].
  intros ? w2 [Hw2 Hr2]. pose proof (rel_msgs _ _ Hr2) as Hq.
  pose proof (rel_keys _ _ Hr2) as Hk2. pose proof (rel_nodes _ _ Hr2) as Hn2. simpl in Hk2, Hn2.
  destruct (IS_UNICAST dst' && truth sn) eqn:Est.
  - apply andb_true_iff in Est as [Eu Es].
    pose proof (quieter_fmap sar_dst _ _ ltac:(done) Hq) as Hqd.
    pose proof (quieter_ids _ _ Hq) as Hqi. cbn [w_net bump] in Hqd, Hqi.
    specialize (Hnone ltac:(by rewrite Es, Eu)).
    assert (Hdn : dst' ∉ sar_dst <$> msg_out (w_net w2)).
    { rewrite Hqd. intros (x & Hx & Hin)%list_elem_of_fmap.
      rewrite Forall_forall in Hnone. by apply (Hnone x). }
    eapply wp_mono; [apply (store_wp sar w2); try done|].
    + pose proof (rel_next _ _ Hr2) as Hnx. unfold bump in Hnx. simpl in Hnx |- *. lia.
    + rewrite Hqi. intros (x & Hx & Hin)%list_elem_of_fmap. pose proof (tx_fresh w1 Hw1) as Hfr.
      rewrite Forall_forall in Hfr. specialize (Hfr x Hin). simpl in Hx. lia.
    + intros r w3 (-> & Hw3 & Hk3 & Hn3 & t1 & t2 & Ht1 & Ht2 & Hl).
      split_and!; [done | congruence | congruence |]. intros _ Hu _.
      pose proof (Huni Hu). subst dst'.
      exists (stored sar t1 t2), (msg_out (w_net w2)). split_and!; try done.
      * cbn -[sn]. rewrite Es in Hseg. zlia.
      * apply Forall_forall. intros x Hx Hxd. apply Hdn. rewrite <-Hxd. by apply list_elem_of_fmap_2.
  - wp_run. split_and!; [done | congruence | congruence |]. intros _ Hu Hb'.
    rewrite (Huni Hu), Hu in Est. cbn [andb] in Est. rewrite Est in Hseg. lia.
Qed.

(** ** What is queued *)

(** The octets of a packet that go to the GATT connection. *)
Definition wire (p : mesh_pkt) : list Z := take (Z.to_nat (pkt_len p)) (pkt_data p).

Definition proxy_type (sar : mesh_sar_msg) : Z :=
  if sar_proxy sar then PROXY_CONFIG_PDU else PROXY_NETWORK_PDU.

(** A call of [get_next_seq]: the number handed out, and what has been promised
    to the database. *)
Lemma get_next_seq_eq w :
  0 <= seq_num (w_net w) -> seq_num (w_net w) + 200 < 0x100000000 ->
  wp get_next_seq (fun seq w' =>
    seq = seq_num (w_net w) /\ seq_num (w_net w') = seq_num (w_net w) + 1 /\
    (if seq_num_reserved (w_net w) <=? seq + 33
     then seq_num_reserved (w_net w') = seq + 101 /\ w_out w' = w_out w ++ [StoreSeq (seq + 101)]
     else seq_num_reserved (w_net w') = seq_num_reserved (w_net w) /\ w_out w' = w_out w) /\
    pkt_out (w_net w') = pkt_out (w_net w) /\ msg_out (w_net w') = msg_out (w_net w) /\
    w_keys w' = w_keys w /\ w_sync w' = w_sync w /\ w_nodes w' = w_nodes w) w.
Proof.
  intros Hs Hb. unfold get_next_seq, net_of, mod_net, emit. wp_run.
  rewrite (u32_small (seq_num (w_net w) + 1)), (u32_small (seq_num (w_net w) + 1 + 32)),
    (u32_small (seq_num (w_net w) + 1 + 100)) by lia.
  replace (seq_num (w_net w) + 1 + 32) with (seq_num (w_net w) + 33) by lia.
  replace (seq_num (w_net w) + 1 + 100) with (seq_num (w_net w) + 101) by lia.
  destruct (_ <=? _) eqn:E; wp_run; rewrite E; done.
Qed.

(** While the GATT writes are asynchronous, [send_seg] appends one packet: the
    encoding of the segment under the next sequence number. *)
Lemma send_seg_async fuel sar seg w k :
  w_sync w = false -> tx_inv w -> find_net_key_by_idx (w_keys w) (sar_net_idx sar) = Some k ->
  sar_tx_ok sar -> 0 <= sar_iv_index sar -> 0 <= seg <= segN sar ->
  0 <= seq_num (w_net w) -> seq_num (w_net w) + 200 < 0x100000000 ->
  wp (send_seg (S fuel) sar seg) (fun _ w' => exists pkt,
    pkt_out (w_net w') = pkt_out (w_net w) ++ [pkt] /\
    wire pkt = proxy_type sar :: tx_air (tx_parts k) sar (seq_num (w_net w)) seg /\
    seq_num (w_net w') = seq_num (w_net w) + 1 /\ msg_out (w_net w') = msg_out (w_net w)) w.
Proof.
  intros Hs Hw Hk Hok Hiv Hseg H0 H1. unfold send_seg, send_seg_with. wp_run. rewrite Hk.
  apply find_first_some in Hk as [Hin _].
  destruct (tx_parts_ok (w_keys w) k (tx_keys w Hw) Hin) as (Hn & He & Hp).
  wp_step. unfold fresh, wp at 1. wp_step.
  eapply wp_mono; [by apply (get_next_seq_eq (bump w))|].
  intros seq w1 (-> & Hs1 & _ & Hp1 & Hm1 & _ & Hy1 & _).
  change (w_net (bump w)) with (w_net w) in *.
  destruct (seg_encode (tx_parts k) sar (seq_num (w_net w)) seg)
    as (data & l & tail & Hpl & Henc & Hl & Htl & H14); try done.
  wp_step. eapply wp_lift; [exact Hpl|]. wp_step. eapply wp_lift; [exact Henc|].
  pose proof (len_nonneg tail).
  set (pkt := Pkt (w_next w) (proxy_type sar ::
    tx_air (tx_parts k) sar (seq_num (w_net w)) seg ++ tail) (u8 (l + 1))).
  match goal with |- wp _ ?Q _ => change (wp (send_mesh_pkt (S fuel) pkt) Q w1) end.
  assert (Hwire : wire pkt = proxy_type sar :: tx_air (tx_parts k) sar (seq_num (w_net w)) seg).
  { unfold wire, pkt. cbn [pkt_len pkt_data].
    change (proxy_type sar :: tx_air (tx_parts k) sar (seq_num (w_net w)) seg ++ tail)
      with ((proxy_type sar :: tx_air (tx_parts k) sar (seq_num (w_net w)) seg) ++ tail).
    apply take_app_length'. apply Nat2Z.inj. rewrite (u8_small (l + 1)) by lia.
    cbn [length]. unfold len in Hl, H14 |- *. lia. }
  assert (Hpk : pkt_ok pkt).
  { split; unfold pkt; cbn [pkt_data pkt_len].
    - rewrite len_cons, len_app, <-Hl. lia.
    - rewrite u8_small; lia. }
  cbn [send_mesh_pkt]. unfold net_of, mod_net. wp_run.
  destruct (negb _) eqn:Eq.
  - wp_run. exists pkt. cbn. rewrite Hp1, Hm1, Hs1. done.
  - wp_step. eapply wp_mono; [by apply gatt_write_wp|]. intros ? ? (d & ->). wp_run.
    cbn [w_sync with_out on_net]. rewrite Hy1. cbn [bump w_sync]. rewrite Hs. wp_run.
    exists pkt. cbn. rewrite Hp1, Hm1, Hs1. done.
Qed.
End Safety.

Section Decode.
Context {A : Alg} {AO : AlgOk A} {AT : AlgTotal A}.

(** The receiver's view of [tx_air]. *)
Lemma tx_air_decodes part sar seq seg t :
  sar_tx_ok sar -> 0 <= nid part < 0x80 -> len (enc_key part) = 16 ->
  len (privacy_key part) = 16 -> 0 <= sar_iv_index sar -> 0 <= seg <= segN sar ->
  1 <= sar_src sar < 0x8000 ->
  let air := tx_air part sar seq seg in
  mesh_crypto_packet_decode (air ++ t) (len air) (tx_proxy sar) (rep 29 0) (sar_iv_index sar)
    (enc_key part) (privacy_key part) =
  Ok (true, net_header sar (nid part) seq ++ lower_pdu sar seg
            ++ rep (net_mic_len sar) 0 ++ rep (29 - len air) 0).
Proof.
  intros Hs Hn He Hp Hiv Hr Hsrc air.
  destruct (seg_plain_eq sar (nid part) seq seg) as (tail0 & _ & Hlen & Hmic & Hl1); try done.
  destruct (seg_encode part sar seq seg) as (data & l & tail & _ & _ & Hl & Htl & H14); try done.
  fold air in Hl. pose proof (tx_is_ctl sar Hs) as Hctl.
  assert (Hms : net_mic_size (tx_b1 sar) = net_mic_len sar)
    by (unfold net_mic_size, net_mic_len; by rewrite Hctl).
  assert (Hpl : len (tx_p sar seg) = 2 + len (lower_pdu sar seg))
    by (unfold tx_p; by rewrite len_app, len_to_be).
  pose proof (net_mic_size_range (tx_b1 sar)). pose proof (len_nonneg tail).
  assert (Hsr : of_be (drop 3 (tx_r sar seq)) = sar_src sar).
  { unfold tx_r. rewrite drop_app_length', of_be_to_be by by rewrite length_to_be.
    apply Z.mod_small. change (256 ^ Z.of_nat 2) with 0x10000. lia. }
  pose proof (decode_on_air (enc_key part) (privacy_key part) He Hp (tx_b0 sar (nid part))
    (tx_b1 sar) (tx_r sar seq) (tx_p sar seg) (tx_proxy sar) t (rep 29 0) (sar_iv_index sar)
    eq_refl ltac:(lia) ltac:(rewrite Hsr; lia)) as Hd.
  cbn zeta in Hd. rewrite Hctl in Hd.
  replace (sar_ctl sar && tx_proxy sar) with (tx_proxy sar) in Hd
    by (unfold tx_proxy; by destruct (sar_ctl sar)).
  assert (Hal : len air = 7 + len (tx_p sar seg) + net_mic_size (tx_b1 sar)).
  { unfold air, tx_air, on_air.
    pose proof (sealed_len (enc_key part) (privacy_key part) He (tx_b1 sar) (tx_r sar seq)
      (tx_p sar seg) (tx_proxy sar) (sar_iv_index sar) eq_refl ltac:(lia)) as Hsl.
    pose proof (mask_len (enc_key part) (privacy_key part) Hp (sar_iv_index sar) _
      ltac:(rewrite Hsl; lia)) as Hml.
    rewrite len_cons, len_app, Hsl. unfold len at 1.
    rewrite xor_bytes_length by (rewrite Hml; done).
    change (length (tx_b1 sar :: tx_r sar seq)) with 6%nat. lia. }
  rewrite Hal. unfold air, tx_air. rewrite Hd by (change (len (rep 29 0)) with 29; lia).
  rewrite Hms.
  replace (drop (Z.to_nat (7 + len (tx_p sar seg) + net_mic_len sar)) (rep 29 0))
    with (rep (29 - (7 + len (tx_p sar seg) + net_mic_len sar)) 0)
    by (unfold rep; rewrite drop_replicate; f_equal; lia).
  reflexivity.
Qed.
End Decode.

(** ** Theorems *)

Section Witness.
(** A network with one node, one network key and one application key. *)
Definition demo_keys : key_store :=
  fold_left (key_step (A := toy_alg))
    [AddNet (NetKey 0 0 no_parts no_parts) 0 (rep 16 1) false;
     AddApp (AppKey 0 0 (AppKeyParts [] 0) (AppKeyParts [] 0)) 0 1 (rep 16 2) false]
    (KeyStore [] [] []).
Definition demo_net : mesh_net :=
  MeshNet 5 100 200 IV_UPD_NORMAL 7 false true false (Some 1) [] [] [] [] [] false.
Definition demo_world : world node_view :=
  World demo_net demo_keys (NodeView 0x77 (rep 16 9) 0) 1 [] false [].

Lemma demo_keys_wf : keys_wf (A := toy_alg) demo_keys.
Proof.
  unfold demo_keys. cbn [fold_left].
  apply (key_step_wf (A := toy_alg)); [by vm_compute|].
  apply (key_step_wf (A := toy_alg)); [by vm_compute|]. split_and!; constructor.
Qed.

Lemma demo_inv : tx_inv (A := toy_alg) demo_world.
Proof. split; [apply demo_keys_wf | simpl; done || constructor..]. Qed.

Lemma demo_ready : tx_ready (A := toy_alg) demo_world.
Proof.
  split; [apply demo_inv | | constructor | done]. split; [done | split].
  - exists (Some (NodeView 0x77 (rep 16 9) 0)). done.
  - intros addr. exists (if addr =? 0x77 then Some (NodeView 0x77 (rep 16 9) 0) else None).
    split; [done|]. by destruct (addr =? 0x77).
Qed.
End Witness.

(** C7: sending an access message is safe and terminates.  From a well-formed
    state, with fuel for two levels of nesting per outgoing message that may
    have to be resent, [net_access_layer_send] of 1 to 255 octets never leaves an
    object, dereferences NULL or a freed message, nor runs out of fuel - with
    synchronous and with asynchronous GATT writes -, keeps the state well formed
    and, for a segmented unicast message, leaves it stored with its two timers
    set, nothing acknowledged yet, as the only message to its destination. *)
Theorem access_send_safe (N : Type) (NI : NodeIface N) (A : Alg) (AO : AlgOk A) (AT : AlgTotal A)
    fuel ttl src dst app_idx buf (w : world N) :
  tx_ready w -> (2 * active (msg_out (w_net w)) + 2 <= fuel)%nat ->
  0 <= ttl < 0x80 \/ ttl = 0xff -> 0 <= dst -> 1 <= len buf <= 255 ->
  exists r w', net_access_layer_send fuel ttl src dst app_idx buf w = Ok (r, w') /\ tx_inv w' /\
    (r = true -> IS_UNICAST dst = true -> 11 < len buf -> msg_stored w w' dst (len buf)).
Proof.
  intros Hw Hf Ht Hd Hb.
  destruct (proj1 (wp_ok _ _ _) (access_send_wp fuel ttl src dst app_idx buf w Hw Hf Ht Hd Hb))
    as (r & w' & Hr & Hi & _ & _ & Hs). by exists r, w'.
Qed.

Lemma access_send_safe_witness :
  exists r w', net_access_layer_send (A := toy_alg) 2 0xff 0 0x100 1 (rep 30 4) demo_world =
    Ok (r, w') /\ tx_inv (A := toy_alg) w' /\
    (r = true -> IS_UNICAST 0x100 = true -> 11 < len (rep 30 4) ->
       msg_stored demo_world w' 0x100 (len (rep 30 4))).
Proof.
  apply (access_send_safe node_view _ toy_alg _ _ 2 0xff 0 0x100 1 (rep 30 4) demo_world).
  - apply demo_ready.
  - apply le_n.
  - by right.
  - done.
  - by vm_compute.
Defined.

(** C22: what is sent can be read.  While writes are asynchronous, [send_seg]
    appends exactly one packet to the queue; its octets are the proxy type
    followed by a packet which a receiver with the same network key and IV
    index decodes to the fields of the message - NID and IVI, CTL and TTL, the
    next sequence number, source, destination - and the lower transport PDU of
    the segment. *)
Theorem send_seg_decodes (N : Type) (NI : NodeIface N) (A : Alg) (AO : AlgOk A) (AT : AlgTotal A)
    fuel sar seg (w : world N) k :
  w_sync w = false -> tx_inv w -> find_net_key_by_idx (w_keys w) (sar_net_idx sar) = Some k ->
  sar_tx_ok sar -> 0 <= sar_iv_index sar -> 0 <= seg <= segN sar -> 1 <= sar_src sar < 0x8000 ->
  0 <= seq_num (w_net w) -> seq_num (w_net w) + 200 < 0x100000000 ->
  exists w' pkt air,
    send_seg (S fuel) sar seg w = Ok (tt, w') /\
    pkt_out (w_net w') = pkt_out (w_net w) ++ [pkt] /\ wire pkt = proxy_type sar :: air /\
    seq_num (w_net w') = seq_num (w_net w) + 1 /\
    let part := tx_parts k in
    mesh_crypto_packet_decode air (len air) (tx_proxy sar) (rep 29 0) (sar_iv_index sar)
      (enc_key part) (privacy_key part) =
    Ok (true, net_header sar (nid part) (seq_num (w_net w)) ++ lower_pdu sar seg
              ++ rep (net_mic_len sar) 0 ++ rep (29 - len air) 0).
Proof.
  intros Hy Hw Hk Hok Hiv Hseg Hsrc H0 H1.
  destruct (proj1 (wp_ok _ _ _) (send_seg_async fuel sar seg w k Hy Hw Hk Hok Hiv Hseg H0 H1))
    as ([] & w' & Hr & pkt & Hq & Hwire & Hs & _).
  apply find_first_some in Hk as [Hin _].
  destruct (tx_parts_ok (w_keys w) k (tx_keys w Hw) Hin) as (Hn & He & Hp).
  exists w', pkt, (tx_air (tx_parts k) sar (seq_num (w_net w)) seg). split_and!; try done.
  cbn zeta. pose proof (tx_air_decodes (tx_parts k) sar (seq_num (w_net w)) seg []) as Hd.
  cbn zeta in Hd. rewrite app_nil_r in Hd. by apply Hd.
Qed.

Definition demo_sar : mesh_sar_msg :=
  Sar 9 0 0 5 100 0 0x100 0x77 0 30 0x41 7 2 1 false true false false (rep 46 3).

Lemma demo_sar_ok : sar_tx_ok demo_sar.
Proof. split; cbn; done || lia. Qed.

Lemma send_seg_decodes_witness :
  exists w' pkt air,
    send_seg (A := toy_alg) (S 2) demo_sar 1 demo_world = Ok (tt, w') /\
    pkt_out (w_net w') = pkt_out (w_net demo_world) ++ [pkt] /\
    wire pkt = proxy_type demo_sar :: air /\
    seq_num (w_net w') = seq_num (w_net demo_world) + 1 /\
    let part := tx_parts (NetKey 0 0 (parts_of (A := toy_alg) (rep 16 1))
                            (NetKeyParts 0xff [] [] [] [] [])) in
    mesh_crypto_packet_decode (H := toy_alg) air (len air) (tx_proxy demo_sar) (rep 29 0)
      (sar_iv_index demo_sar) (enc_key part) (privacy_key part) =
    Ok (true, net_header demo_sar (nid part) (seq_num (w_net demo_world)) ++ lower_pdu demo_sar 1
              ++ rep (net_mic_len demo_sar) 0 ++ rep (29 - len air) 0).
Proof.
  apply (send_seg_decodes node_view _ toy_alg _ _ 2 demo_sar 1 demo_world
    (NetKey 0 0 (parts_of (A := toy_alg) (rep 16 1)) (NetKeyParts 0xff [] [] [] [] []))).
  - done.
  - apply demo_inv.
  - vm_compute. reflexivity.
  - apply demo_sar_ok.
  - done.
  - done.
  - done.
  - done.
  - done.
Defined.

(** The sequence number the database holds. *)
Definition promised (w0 : Z) (out : list event) : Z :=
  fold_left (fun p e => match e with StoreSeq s => s | _ => p end) out w0.

(** Every use of a sequence number is covered by what the database holds:
    [p0] is what it held at the start. *)
Definition seq_covered {N} (p0 : Z) (w : world N) : Prop :=
  seq_num (w_net w) + 32 < seq_num_reserved (w_net w) ->
  promised p0 (w_out w) = seq_num_reserved (w_net w).

(** A crash cannot lead to the reuse of a sequence number.  [get_next_seq] hands
    out the current number and moves on to the next; afterwards the number
    stored in the database, from which a restart resumes, lies more than 32
    above every number handed out, for as long as numbers stay 200 below the
    32-bit limit. *)
Theorem seq_reserved_ahead (N : Type) p0 (w : world N) :
  0 <= seq_num (w_net w) -> seq_num (w_net w) + 200 < 0x100000000 -> seq_covered p0 w ->
  exists w', get_next_seq w = Ok (seq_num (w_net w), w') /\
    seq_num (w_net w') = seq_num (w_net w) + 1 /\ seq_covered p0 w' /\
    seq_num (w_net w') + 32 < promised p0 (w_out w').
Proof.
  intros H0 H1 Hc.
  destruct (proj1 (wp_ok _ _ _) (get_next_seq_eq w H0 H1))
    as (? & w' & Hr & -> & Hs & Hst & _). exists w'. split; [done|]. split; [done|].
  unfold seq_covered in *. destruct (Z.leb_spec (seq_num_reserved (w_net w)) (seq_num (w_net w) + 33)).
  - destruct Hst as [-> ->]. unfold promised. rewrite fold_left_app. simpl. lia.
  - destruct Hst as [Hres ->]. rewrite Hres. specialize (Hc ltac:(lia)). split; [done | lia].
Qed.

Lemma seq_reserved_ahead_witness :
  exists w', get_next_seq demo_world = Ok (seq_num (w_net demo_world), w') /\
    seq_num (w_net w') = seq_num (w_net demo_world) + 1 /\ seq_covered 200 w' /\
    seq_num (w_net w') + 32 < promised 200 (w_out w').
Proof. by apply (seq_reserved_ahead node_view 200 demo_world). Defined.

(** Sequence numbers wrap on the air.  [get_next_seq] counts in 32 bits and
    never refuses, but a packet carries 24: two segments sent 2^24 numbers apart
    are encrypted under the same nonce into the same octets. *)
Theorem seq_wraps_on_air (A : Alg) part sar seq seg :
  tx_air part sar (seq + 0x1000000) seg = tx_air part sar seq seg.
Proof.
  unfold tx_air. replace (tx_r sar (seq + 0x1000000)) with (tx_r sar seq); [done|].
  unfold tx_r. f_equal. cbn [to_be app]. repeat (f_equal; try zlia).
Qed.

(** An acknowledgement does what it should.  From a well-formed state, an
    acknowledgement from a node to which no message is outstanding changes
    nothing; one that completes the message to that node removes exactly that
    message and cancels its two timers; any other is recorded without a fault,
    and no message is removed. *)
Theorem ack_rxed_spec (N : Type) (NI : NodeIface N) (A : Alg) (AO : AlgOk A) (AT : AlgTotal A)
    fuel src flags (w : world N) :
  tx_inv w -> (2 * active (msg_out (w_net w)) + 2 <= fuel)%nat -> 0 <= src < 0x10000 ->
  match find_sar_out_by_dst (w_net w) src with
  | None => ack_rxed fuel src flags w = Ok (true, w)
  | Some s =>
      let full := 2 ^ (segN s + 1) - 1 in
      let a := Z.lor (ack s) (Z.land flags full) in
      exists w', ack_rxed fuel src flags w = Ok (true, w') /\ tx_inv w' /\
      if a =? full then
        w_net w' = set_msg_out (remove_first (fun x => sar_id x =? sar_id s)
                     (update_sar (sar_id s) (set_ack a) (msg_out (w_net w)))) (w_net w) /\
        (msg_to s <> 0 -> msg_to s ∉ w_timers w') /\ (ack_to s <> 0 -> ack_to s ∉ w_timers w')
      else sar_id <$> msg_out (w_net w') = sar_id <$> msg_out (w_net w)
  end.
Proof.
  intros Hw Hf Hsrc. unfold ack_rxed.
  destruct (find_sar_out_by_dst (w_net w) src) as [s|] eqn:Es.
  2: { unfold net_of, mbind, st_bind, gets. by rewrite Es. }
  cbn zeta. set (full := 2 ^ (segN s + 1) - 1). set (a := Z.lor _ _).
  assert (Hin : s ∈ msg_out (w_net w)) by by apply find_first_some in Es as [? _].
  pose proof (tx_msgs w Hw) as Hm. rewrite Forall_forall in Hm.
  destruct (Hm s Hin) as (Htx & _ & Hiv). pose proof (tx_segN s Htx) as HN.
  assert (Hs : find_sar (sar_id s) (msg_out (w_net w)) = Some s)
    by (apply find_by_key; [apply Hw | done]).
  assert (Hok : ∀ s0, msg_ok s0 -> msg_ok (set_ack a s0)).
  { intros s0 (H & ? & ?). split_and!; try done. by destruct H; split. }
  match goal with |- exists w', ?m w = Ok (true, w') /\ @?Q w' =>
    enough (Hwp : wp m (fun r w' => r = true /\ Q w') w) end.
  { apply wp_ok in Hwp as (r & w' & Hr & -> & Hq). by exists w'. }
  unfold net_of. wp_run. rewrite Es. wp_step.
  eapply wp_lift; [by apply full_ack_eq|]. fold full. fold a.
  wp_step. eapply wp_mono; [by apply (assign_wp _ _ w s)|]. intros ? w1 [Hw1 ->].
  set (w1 := on_net _ w) in *.
  assert (Hs1 : find_sar (sar_id s) (msg_out (w_net w1)) = Some (set_ack a s))
    by by apply find_update_sar.
  destruct (a =? full).
  - wp_step. eapply wp_mono; [by apply (flush_out_wp _ w1 (set_ack a s))|].
    intros ? w2 (Hw2 & _ & _ & Hnet & Ht1 & Ht2). wp_run. by split_and!.
  - wp_step. eapply wp_mono; [apply (assign_wp _ _ w1 (set_ack a s)); try done|].
    { intros s0. apply msg_ok_activity. }
    intros ? w2 [Hw2 ->]. set (w2 := on_net _ w1) in *. wp_run.
    assert (Hids : sar_id <$> msg_out (w_net w2) = sar_id <$> msg_out (w_net w)).
    { simpl. unfold update_sar. by rewrite !map_update_first. }
    destruct (bool_decide _); [|by wp_run].
    eapply wp_mono; [apply (resend_segs_wp (active (msg_out (w_net w))) _ _ w2
      (set_activity_cnt (u8 (activity_cnt s + 1)) (set_ack a s)))|].
    + by apply send_mesh_pkt_ok.
    + done.
    + simpl. etrans; [by apply active_cleared|]. by rewrite active_same.
    + by apply (find_update_sar _ (fun s => set_activity_cnt (u8 (activity_cnt s + 1)) s)
        _ (set_ack a s)).
    + intros ? w3 [Hw3 Hrel]. wp_run. split_and!; try done.
      by rewrite (quieter_ids _ _ (rel_msgs _ _ Hrel)).
Qed.

Definition demo_msg : mesh_sar_msg := set_msg_to 3 (set_ack_to 2 demo_sar).
Definition demo_busy : world node_view :=
  World (set_msg_out [demo_msg] demo_net) demo_keys (NodeView 0x77 (rep 16 9) 0) 10 [2; 3] false [].

Lemma demo_busy_inv : tx_inv (A := toy_alg) demo_busy.
Proof.
  split.
  - apply demo_keys_wf.
  - constructor; [|constructor]. split_and!; [|done..]. destruct demo_sar_ok. by split.
  - apply NoDup_singleton.
  - constructor.
  - done.
  - apply NoDup_singleton.
  - by repeat constructor.
Qed.

Lemma ack_rxed_spec_witness :
  match find_sar_out_by_dst (w_net demo_busy) 0x100 with
  | None => ack_rxed (A := toy_alg) 4 0x100 7 demo_busy = Ok (true, demo_busy)
  | Some s =>
      let full := 2 ^ (segN s + 1) - 1 in
      let a := Z.lor (ack s) (Z.land 7 full) in
      exists w', ack_rxed (A := toy_alg) 4 0x100 7 demo_busy = Ok (true, w') /\
      tx_inv (A := toy_alg) w' /\
      if a =? full then
        w_net w' = set_msg_out (remove_first (fun x => sar_id x =? sar_id s)
                     (update_sar (sar_id s) (set_ack a) (msg_out (w_net demo_busy)))) (w_net demo_busy) /\
        (msg_to s <> 0 -> msg_to s ∉ w_timers w') /\ (ack_to s <> 0 -> ack_to s ∉ w_timers w')
      else sar_id <$> msg_out (w_net w') = sar_id <$> msg_out (w_net demo_busy)
  end.
Proof.
  apply (ack_rxed_spec node_view _ toy_alg _ _ 4 0x100 7 demo_busy).
  - apply demo_busy_inv.
  - apply le_n.
  - done.
Defined.

(** Messages of 381 to 384 octets cannot be acknowledged.  The length check
    of [net_access_layer_send] admits 384 octets, which with the MIC make segment
    number 32 of a five-bit field; the first acknowledgement then shifts by a
    negative count. *)
Theorem oversize_ack_faults (N : Type) (NI : NodeIface N) (A : Alg) fuel src flags n
    (w : world N) s :
  381 <= n <= 384 -> find_sar_out_by_dst (w_net w) src = Some s ->
  segN s = u8 (SEG_MAX (n + 4)) -> ack_rxed fuel src flags w = Fault BadShift.
Proof.
  intros Hn Hs Hseg. unfold ack_rxed, net_of, mbind, st_bind, gets. rewrite Hs, Hseg.
  replace (u8 (SEG_MAX (n + 4))) with 32; [done|].
  unfold SEG_MAX, MAX_UNSEG_LEN, MAX_SEG_LEN. rewrite (proj2 (Z.leb_gt _ _)) by lia.
  replace ((n + 4 - 1) / 12) with 32 by zlia. done.
Qed.

Lemma oversize_ack_faults_witness :
  ack_rxed (A := toy_alg) 4 0x100 1
    (on_net (set_msg_out [Sar 9 0 0 5 100 0 0x100 0x77 0 388 0x41 7 32 0 false true false false
                            (rep 406 3)]) demo_world) = Fault BadShift.
Proof.
  apply (oversize_ack_faults node_view _ toy_alg 4 0x100 1 384 _
    (Sar 9 0 0 5 100 0 0x100 0x77 0 388 0x41 7 32 0 false true false false (rep 406 3)));
    done || lia.
Defined.
