(* ===== verification/Beacon.v ===== *)
(** * Secure network beacons

    [beacon_update] and [process_beacon] of [src/blueZ/mesh/net.c]: the IV index
    and its update state. *)

From S2P Require Import Prelude Bytes Alg Ccm Crypto Packet Pdu Keys NetState Send.

Section Beacon.
Context {N : Type} {NI : NodeIface N} {A : Alg}.
Implicit Types w : world N.
Notation M := (@M N).

(** The new [iv_upd_state], or [None] where the beacon is rejected. *)
Definition next_upd_state (n : mesh_net) (first upd : bool) (iv : Z) : option Z :=
  if upd && negb (iv_update n) then Some IV_UPD_UPDATING
  else if first then Some (if upd then IV_UPD_UPDATING else IV_UPD_NORMAL)
  else if upd && negb (iv =? iv_index n) then None
  else Some (iv_upd_state n).

(** Don't reset our seq_num unless we start using a new iv_index. *)
Definition reset_seq (upd : bool) (iv : Z) (n : mesh_net) : mesh_net :=
  if (iv_index n <? iv) || negb (Bool.eqb upd (iv_update n)) then
    if negb (upd && (u32 (iv_index n + 1) =? iv))
    then set_seq_num_reserved 100 (set_seq_num 0 n) else n
  else n.

(** The values stored in the database, if anything changed. *)
Definition store_iv (upd : bool) (iv : Z) : M unit :=
  n ← net_of;
  if (seq_num n =? 0) || negb (iv_index n =? iv) || negb (Bool.eqb (iv_update n) upd) then
    _ ← (if seq_num_reserved n <=? seq_num n
         then mod_net (set_seq_num_reserved (u32 (seq_num n + 100))) else mret tt);
    _ ← emit (StoreIv iv upd (provisioner n));
    n ← net_of;
    emit (StoreSeq (seq_num_reserved n))
  else mret tt.

Definition beacon_update (fuel : nat) (first upd : bool) (iv : Z) : M unit :=
  n ← net_of;
  match next_upd_state n first upd iv with
  | None => mret tt
  | Some st =>
      _ ← mod_net (set_iv_upd_state st);
      _ ← mod_net (reset_seq upd iv);
      _ ← store_iv upd iv;
      _ ← mod_net (fun n => set_iv_update upd (set_iv_index iv n));
      if first then
        _ ← setup_whitelist fuel;
        n ← net_of;
        if open_cb n then emit (OpenCb 0) else mret tt
      else mret tt
  end.

(** The key parts whose beacons count. *)
Definition beacon_parts (k : mesh_net_key) : net_key_parts :=
  if negb (phase k =? 2) then nk_current k else nk_new k.

Definition process_beacon (fuel : nat) (data : list Z) (size : Z) : M bool :=
  if negb (size =? 22) then mret false else
  flags ← lift (rd data 1);
  iv ← lift (get_be32 data 10);
  w ← get;
  let n := w_net w in
  let rxed_key_refresh := Z.land flags 0x01 =? 0x01 in
  let rxed_iv_update := Z.land flags 0x02 =? 0x02 in
  let upd := if negb (bool_decide (msg_out n = [])) && iv_update n && negb rxed_iv_update
             then true else rxed_iv_update in
  if (iv =? iv_index n) && Bool.eqb upd (iv_update n) && negb (iv_upd_state n =? IV_UPD_INIT)
  then mret true else
  id ← lift (rd_range data 2 8);
  match find_net_key_by_id (w_keys w) id with
  | None => mret false
  | Some k =>
      if negb (Bool.eqb rxed_key_refresh (phase k =? 2)) then mret false else
      let part := beacon_parts k in
      if negb (bool_decide (net_id part = id)) then mret false else
      if (u32 (iv_index n + IV_IDX_DIFF_RANGE) <? iv) || (iv <? iv_index n) then mret false else
      match mesh_crypto_beacon_cmac (beacon_key part) (net_id part) iv (phase k =? 2)
              rxed_iv_update with
      | None => mret false
      | Some cmac =>
          rx ← lift (get_be64 data 14);
          if negb (cmac =? rx) then mret false else
          if upd && (IV_UPD_UPDATING <? iv_upd_state n) then mret true else
          _ ← beacon_update fuel (iv_upd_state n =? IV_UPD_INIT) upd iv;
          mret true
      end
  end.
End Beacon.

(** ** The proxy filter is told every destination *)

(** The messages that [whitefilter_add] and the end of [setup_whitelist] send
    for the destinations [l] when [acc] is pending. *)
Fixpoint wl_msgs (l : list Z) (acc : list Z) : list (list Z) :=
  match l with
  | [] => match acc with [] => [] | _ => [acc] end
  | d :: l' =>
      let m := (match acc with [] => [FILTER_ADD] | _ => acc end) ++ to_be 2 d in
      if 10 <? len m then m :: wl_msgs l' [] else wl_msgs l' m
  end.

Section Whitelist.
Context {N : Type} {NI : NodeIface N} {A : Alg}.

Definition send_wl (fuel : nat) (m : list Z) : @M N unit :=
  _ ← net_ctl_msg_send fuel 0 0 0 (Some m); mret tt.

Definition finish_wl (fuel : nat) (white : list Z * Z) : @M N unit :=
  let '(data, l) := white in
  if truth l then m ← lift (rd_range data 0 l); send_wl fuel m else mret tt.

Lemma len_0 (l : list Z) : len l = 0 -> l = [].
Proof. destruct l; [done|]. rewrite len_cons. pose proof (len_nonneg l). lia. Qed.

(** One destination: the pending message grows, and is sent when it is full. *)
Lemma whitefilter_add_eq fuel d acc r (w : world N) :
  len acc <= 9 -> len (acc ++ r) = 12 ->
  let m := (match acc with [] => [FILTER_ADD] | _ => acc end) ++ to_be 2 (dst_dst d) in
  exists r', len (m ++ r') = 12 /\
  whitefilter_add fuel d (acc ++ r, len acc) w =
  (if 10 <? len m then _ ← send_wl fuel m; mret (m ++ r', 0) else mret (m ++ r', len m)) w.
Proof.
  intros Ha Hl m. rewrite len_app in Hl. unfold whitefilter_add.
  set (acc' := match acc with [] => [FILTER_ADD] | _ => acc end) in *.
  assert (Hacc : exists r0, len (acc' ++ r0) = 12 /\ 1 <= len acc' <= 9 /\
    (if len acc =? 0 then data ← wr (acc ++ r) (len acc) FILTER_ADD; mret (data, len acc + 1)
     else mret (acc ++ r, len acc)) = Ok (acc' ++ r0, len acc')).
  { destruct acc as [|a acc0]; unfold acc'.
    - destruct r as [|x r0]; [done|]. exists r0. rewrite len_cons in Hl. change (len []) with 0 in *.
      split; [rewrite len_app; change (len [FILTER_ADD]) with 1; lia|]. split; [done|].
      cbn [app]. change (0 =? 0) with true. cbn iota. by rewrite (wr_mid [] x r0 0).
    - exists r. rewrite len_app. split; [done|]. pose proof (len_nonneg acc0). rewrite len_cons in *.
      split; [lia|]. by rewrite (proj2 (Z.eqb_neq _ _)) by lia. }
  destruct Hacc as (r0 & Hl0 & Hacc & Hstep). rewrite len_app in Hl0.
  destruct (buf_split r0 2) as (o & r' & -> & Ho); [lia|]. rewrite len_app in Hl0.
  exists r'. assert (Hm : len m = len acc' + 2) by (unfold m; by rewrite len_app, len_to_be).
  split; [rewrite len_app; lia|].
  unfold mbind at 1, st_bind at 1, lift at 1. rewrite Hstep.
  unfold mbind at 1, st_bind at 1, lift at 1. unfold put_be16.
  rewrite wr_range_mid by (done || (unfold len in Ho; simpl; lia)). fold m.
  rewrite app_assoc. fold m. rewrite <-Hm.
  destruct (10 <? len m); [|done].
  unfold mbind at 1, st_bind at 1, lift at 1. rewrite rd_range_begin by done.
  unfold send_wl, mbind, st_bind. by destruct (net_ctl_msg_send _ _ _ _ _ w) as [[? ?]|].
Qed.

(** Pending lengths: nothing, or the opcode and up to four addresses. *)
Definition wl_len (acc : list Z) : Prop := len acc = 0 \/ (len acc mod 2 = 1 /\ 3 <= len acc <= 9).

Lemma wl_len_step acc d :
  wl_len acc ->
  let m := (match acc with [] => [FILTER_ADD] | _ => acc end) ++ to_be 2 d in
  3 <= len m <= 11 /\ len m mod 2 = 1.
Proof.
  intros Ha m. unfold m. rewrite len_app, len_to_be.
  destruct acc as [|a acc]; [done|]. pose proof (len_nonneg acc).
  destruct Ha as [Ha | [Ha Hb]]; rewrite len_cons in *; zlia.
Qed.

Lemma whitefilter_each_eq fuel l acc r (w : world N) :
  wl_len acc -> len (acc ++ r) = 12 ->
  (white ← whitefilter_each fuel l (acc ++ r, len acc); finish_wl fuel white) w =
  mapM_ (send_wl fuel) (wl_msgs (dst_dst <$> l) acc) w.
Proof.
  revert acc r w. induction l as [|d l IH]; intros acc r w Ha Hl.
  - change (finish_wl fuel (acc ++ r, len acc) w =
      mapM_ (send_wl fuel) (match acc with [] => [] | _ => [acc] end) w).
    unfold finish_wl. destruct acc as [|a acc]; [done|].
    rewrite (proj2 (truth_true _)) by (rewrite len_cons; pose proof (len_nonneg acc); lia).
    unfold mbind at 1, st_bind at 1, lift at 1. rewrite rd_range_begin by done.
    simpl. unfold mbind, st_bind. destruct (send_wl fuel (a :: acc) w) as [[[] ?]|]; done.
  - destruct (whitefilter_add_eq fuel d acc r w ltac:(destruct Ha as [-> | [? ?]]; lia) Hl)
      as (r' & Hl' & Hadd).
    pose proof (wl_len_step acc (dst_dst d) Ha) as Hm.
    cbn zeta in Hl', Hadd, Hm. rewrite fmap_cons. cbn [wl_msgs whitefilter_each].
    set (m := _ ++ to_be 2 (dst_dst d)) in *.
    unfold mbind at 1, st_bind at 1. unfold mbind at 1, st_bind at 1. rewrite Hadd.
    destruct (Z.ltb_spec 10 (len m)).
    + cbn [mapM_]. unfold mbind, st_bind.
      destruct (send_wl fuel m w) as [[[] w1]|e]; [|done].
      specialize (IH [] (m ++ r') w1 ltac:(by left) Hl'). rewrite <-IH. done.
    + specialize (IH m r' w). rewrite <-IH; [done | right; zlia | done].
Qed.

Lemma setup_whitelist_eq fuel (w : world N) :
  setup_whitelist fuel w =
  (_ ← send_wl fuel [FILTER_SETUP; WHITELIST_FILTER];
   n ← net_of;
   mapM_ (send_wl fuel) (wl_msgs (dst_dst <$> dest n) [])) w.
Proof.
  unfold setup_whitelist. set (data := [FILTER_SETUP; WHITELIST_FILTER] ++ rep 10 0).
  change (take 2 data) with [FILTER_SETUP; WHITELIST_FILTER].
  unfold send_wl at 2. unfold mbind, st_bind.
  destruct (net_ctl_msg_send _ _ _ _ _ w) as [[b w1]|e]; [|done].
  pose proof (whitefilter_each_eq fuel (dest (w_net w1)) [] data w1 ltac:(by left) eq_refl) as He.
  change (len []) with 0 in He. cbn [app] in He. unfold mbind, st_bind in He.
  unfold net_of, gets. cbn. rewrite <-He. done.
Qed.

(** What reaches the filter: every destination once, in order, in messages that
    fit an unsegmented control packet. *)
Lemma wl_msgs_all l acc :
  wl_len acc ->
  Forall (fun m => 3 <= len m <= 11) (wl_msgs l acc) /\
  mjoin (tail <$> wl_msgs l acc) = tail acc ++ mjoin (to_be 2 <$> l).
Proof.
  revert acc. induction l as [|d l IH]; intros acc Ha.
  - cbn [wl_msgs]. destruct acc as [|a acc]; [split; [constructor | done]|].
    split; [|done]. constructor; [|constructor].
    pose proof (len_nonneg acc). destruct Ha as [Ha | [Ha Hb]]; rewrite len_cons in *; lia.
  - cbn [wl_msgs]. pose proof (wl_len_step acc d Ha) as Hm. cbn zeta in Hm.
    set (m := _ ++ to_be 2 d) in *.
    change (mjoin (to_be 2 <$> d :: l)) with (to_be 2 d ++ mjoin (to_be 2 <$> l)).
    assert (Ht : tail m = tail acc ++ to_be 2 d) by (unfold m; by destruct acc).
    destruct (Z.ltb_spec 10 (len m)).
    + destruct (IH [] ltac:(by left)) as [IH1 IH2]. split; [by constructor; [lia|]|].
      change (tail m ++ mjoin (tail <$> wl_msgs l []) =
        tail acc ++ to_be 2 d ++ mjoin (to_be 2 <$> l)).
      rewrite IH2, Ht. cbn [tail app]. by rewrite <-app_assoc.
    + destruct (IH m ltac:(right; zlia)) as [IH1 IH2]. split; [done|].
      by rewrite IH2, Ht, <-app_assoc.
Qed.

Lemma wl_msgs_bytes l acc : bytes acc -> Forall bytes (wl_msgs l acc).
Proof.
  revert acc. induction l as [|d l IH]; intros acc Ha; cbn [wl_msgs].
  - destruct acc; [constructor | constructor; [done | constructor]].
  - set (m := _ ++ to_be 2 d). assert (Hm : bytes m).
    { apply bytes_app. split; [|apply bytes_to_be]. destruct acc; [by repeat constructor | done]. }
    destruct (10 <? len m); [constructor; [done|] |]; apply IH; [constructor | done].
Qed.
Lemma wl_msgs_head l acc :
  (acc = [] \/ head acc = Some FILTER_ADD) ->
  Forall (fun m => head m = Some FILTER_ADD) (wl_msgs l acc).
Proof.
  revert acc. induction l as [|d l IH]; intros acc Ha; cbn [wl_msgs].
  - destruct acc; [constructor | constructor; [by destruct Ha | constructor]].
  - set (m := _ ++ to_be 2 d).
    assert (Hm : head m = Some FILTER_ADD) by (unfold m; destruct acc; [done | by destruct Ha]).
    destruct (10 <? len m); [constructor; [done|]|]; apply IH; [by left | by right].
Qed.
End Whitelist.

Section Safety.
Context {N : Type} {NI : NodeIface N} {A : Alg} {AO : AlgOk A} {AT : AlgTotal A}.
Implicit Types w : world N.

Lemma send_wl_wp fuel m w :
  tx_ready w -> (2 * active (msg_out (w_net w)) + 2 <= fuel)%nat -> 1 <= len m -> bytes m ->
  wp (send_wl fuel m) (fun _ => tx_post w) w.
Proof.
  intros Hw Hf Hl Hb. unfold send_wl. wp_step.
  eapply wp_mono; [apply ctl_send_wp; try done; by left|]. intros ? w' Hw'. by wp_run.
Qed.

Lemma setup_whitelist_wp fuel w :
  tx_ready w -> (2 * active (msg_out (w_net w)) + 2 <= fuel)%nat ->
  wp (setup_whitelist fuel) (fun _ => tx_post w) w.
Proof.
  intros Hw Hf. unfold wp. rewrite setup_whitelist_eq. fold (wp (_ ← send_wl fuel
    [FILTER_SETUP; WHITELIST_FILTER]; n ← net_of;
    mapM_ (send_wl fuel) (wl_msgs (dst_dst <$> dest n) [])) (fun _ => tx_post w) w).
  wp_step. eapply wp_mono; [apply send_wl_wp; try done; by repeat constructor|].
  intros ? w1 Hw1. unfold net_of. wp_step. wp_step.
  set (l := wl_msgs _ _).
  destruct (wl_msgs_all (dst_dst <$> dest (w_net w1)) [] ltac:(by left)) as [Hlen _].
  pose proof (wl_msgs_bytes (dst_dst <$> dest (w_net w1)) [] ltac:(constructor)) as Hby.
  fold l in Hlen, Hby. rewrite Forall_forall in Hlen, Hby.
  apply (wp_mapM _ (tx_post w)); [|done]. intros m w2 Hm Hw2.
  pose proof (quieter_active _ _ (rel_msgs _ _ (proj2 Hw2))).
  specialize (Hlen m Hm). simpl in Hlen.
  eapply wp_mono; [apply send_wl_wp; [by eapply tx_ready_rel | lia | lia | by apply Hby]|].
  intros ? w3 Hw3. by apply (tx_post_trans _ w2).
Qed.

(** Changes of the IV fields and the sequence numbers only. *)
Definition same_queues (n n' : mesh_net) : Prop :=
  msg_out n' = msg_out n /\ pkt_out n' = pkt_out n /\ default_ttl n' = default_ttl n /\
  sar_in n' = sar_in n /\ dest n' = dest n /\ open_cb n' = open_cb n.

Lemma ready_on_net f w :
  tx_ready w -> (∀ n, same_queues n (f n)) -> tx_ready (on_net f w).
Proof.
  intros [[] ? ? ?] Hf. destruct (Hf (w_net w)) as (Hm & Hp & Ht & _).
  split; [|done|done|by simpl; rewrite Ht].
  split; simpl; rewrite ?Hm, ?Hp; done.
Qed.

Lemma ready_out e w : tx_ready w -> tx_ready (with_out e w).
Proof. intros [[] ? ? ?]. by split. Qed.

Lemma store_iv_wp upd iv w :
  tx_ready w -> wp (store_iv upd iv) (fun _ w' => tx_ready w' /\ same_queues (w_net w) (w_net w') /\
    iv_index (w_net w') = iv_index (w_net w) /\ seq_num (w_net w') = seq_num (w_net w)) w.
Proof.
  intros Hw. unfold store_iv, net_of, mod_net, emit. wp_run.
  destruct (_ || _); [|by wp_run].
  destruct (_ <=? _); wp_run; (split; [|done]).
  - apply ready_out, ready_out, ready_on_net; done.
  - apply ready_out, ready_out. done.
Qed.

Lemma beacon_update_wp fuel first upd iv w :
  tx_ready w -> (2 * active (msg_out (w_net w)) + 2 <= fuel)%nat ->
  wp (beacon_update fuel first upd iv) (fun _ w' => tx_ready w' /\
    (w' = w \/ (iv_index (w_net w') = iv /\ iv_update (w_net w') = upd))) w.
Proof.
  intros Hw Hf. unfold beacon_update, net_of, mod_net. wp_run.
  destruct (next_upd_state (w_net w) first upd iv) as [st|]; [|wp_run; by auto].
  wp_run. set (w1 := on_net (reset_seq upd iv) _).
  assert (Hq : ∀ n, same_queues n (reset_seq upd iv n)).
  { intros n. unfold reset_seq. by repeat case_goal. }
  assert (Hw1 : tx_ready w1) by (apply ready_on_net, Hq; by apply ready_on_net).
  assert (Hm1 : msg_out (w_net w1) = msg_out (w_net w))
    by exact (proj1 (Hq (set_iv_upd_state st (w_net w)))).
  eapply wp_mono; [by apply store_iv_wp|]. intros ? w2 (Hw2 & Hq2 & _). wp_run.
  set (w3 := on_net _ w2). assert (Hw3 : tx_ready w3) by by apply ready_on_net.
  assert (Hm3 : msg_out (w_net w3) = msg_out (w_net w))
    by (rewrite <-Hm1; exact (proj1 Hq2)).
  destruct first.
  - wp_step. eapply wp_mono; [apply setup_whitelist_wp; [done | by rewrite Hm3]|].
    intros ? w4 Hw4. pose proof (tx_ready_rel _ _ Hw3 Hw4) as Hr4.
    pose proof (rel_core _ _ (proj2 Hw4)) as Hc.
    assert (Hiv : iv_index (w_net w4) = iv /\ iv_update (w_net w4) = upd).
    { split; [by apply (f_equal iv_index) in Hc | by apply (f_equal iv_update) in Hc]. }
    unfold emit. wp_run. destruct (open_cb _); wp_run; (split; [|by right]); [by apply ready_out | done].
  - wp_run. split; [done | by right].
Qed.
End Safety.

(** ** Theorems *)

(** [data] is a beacon of 22 octets that carries IV index [iv] and flag [upd] and
    is authenticated by the key parts in use of the stored key [k]. *)
Definition beacon_from {A : Alg} (k : mesh_net_key) (data : list Z) (iv : Z) (upd : bool) : Prop :=
  exists flags id mac,
    rd data 1 = Ok flags /\ get_be32 data 10 = Ok iv /\ rd_range data 2 8 = Ok id /\
    get_be64 data 14 = Ok mac /\ upd = (Z.land flags 0x02 =? 0x02) /\
    (Z.land flags 0x01 =? 0x01) = (phase k =? 2) /\ net_id (beacon_parts k) = id /\
    mesh_crypto_beacon_cmac (beacon_key (beacon_parts k)) id iv (phase k =? 2) upd = Some mac.

Section Theorems.
Context {N : Type} {NI : NodeIface N} {A : Alg} {AO : AlgOk A} {AT : AlgTotal A}.
Implicit Types w : world N.

Lemma process_beacon_wp fuel data size w :
  tx_ready w -> (2 * active (msg_out (w_net w)) + 2 <= fuel)%nat -> 22 <= len data -> bytes data ->
  0 <= iv_index (w_net w) -> iv_index (w_net w) + 42 < 0x100000000 ->
  wp (process_beacon fuel data size) (fun _ w' => tx_ready w' /\
    (w' = w \/ exists k iv upd, k ∈ net_keys (w_keys w) /\ beacon_from k data iv upd /\
       iv_index (w_net w) <= iv <= iv_index (w_net w) + 42 /\ iv_index (w_net w') = iv)) w.
Proof.
  intros Hw Hf Hl Hb H0 H1. unfold process_beacon.
  destruct (size =? 22); cbn [negb]; [|wp_run; by auto].
  destruct (rd_ok data 1 ltac:(lia)) as (flags & Hfl & _).
  destruct (rd_range_total data 10 4) as (ivb & Hivb & Hivl); [lia..|].
  destruct (rd_range_total data 2 8) as (id & Hid & Hidl); [lia..|].
  destruct (rd_range_total data 14 8) as (macb & Hmac & _); [lia..|].
  assert (Hiv : get_be32 data 10 = Ok (of_be ivb)) by (unfold get_be32; by rewrite Hivb).
  assert (Hm : get_be64 data 14 = Ok (of_be macb)) by (unfold get_be64; by rewrite Hmac).
  wp_step. eapply wp_lift; [exact Hfl|]. wp_step. eapply wp_lift; [exact Hiv|]. wp_run.
  set (upd := if _ && negb _ then true else _).
  destruct (_ && negb (iv_upd_state (w_net w) =? IV_UPD_INIT)); [wp_run; by auto|].
  wp_step. eapply wp_lift; [exact Hid|].
  destruct (find_net_key_by_id (w_keys w) id) as [k|] eqn:Ek; [|wp_run; by auto].
  apply find_first_some in Ek as [Hk _].
  destruct (Bool.eqb (Z.land flags 1 =? 1) (phase k =? 2)) eqn:Ekr; cbn [negb]; [|wp_run; by auto].
  apply eqb_prop in Ekr.
  destruct (bool_decide_reflect (net_id (beacon_parts k) = id)) as [Hpid | ?]; cbn [negb];
    [|wp_run; by auto].
  destruct ((u32 (iv_index (w_net w) + IV_IDX_DIFF_RANGE) <? of_be ivb)
    || (of_be ivb <? iv_index (w_net w))) eqn:Er; [wp_run; by auto|].
  unfold IV_IDX_DIFF_RANGE in Er. rewrite u32_small in Er by lia. bool_hyps.
  destruct (mesh_crypto_beacon_cmac _ _ _ _ _) as [mac|] eqn:Ec; [|wp_run; by auto].
  wp_step. eapply wp_lift; [exact Hm|].
  destruct (Z.eqb_spec mac (of_be macb)) as [-> |]; cbn [negb]; [|wp_run; by auto].
  destruct (upd && _); [wp_run; by auto|].
  wp_step. eapply wp_mono; [by apply beacon_update_wp|].
  intros ? w' [Hw' Hcase]. wp_run. split; [done|].
  destruct Hcase as [-> | [Hiv' _]]; [by left | right].
  exists k, (of_be ivb), (Z.land flags 2 =? 2). split_and!; try done; try lia.
  exists flags, id, (of_be macb). split_and!; try done. by rewrite Hpid in Ec.
Qed.
End Theorems.

(** C27: only an authenticated beacon changes anything, and within bounds.
    [process_beacon] never faults; either the state is exactly as before, or the
    beacon carries the right CMAC under the beacon key in use of a stored
    network key, its key refresh flag agrees with that key, and its IV index,
    the new one, is at least the current and at most 42 above it. *)
Theorem beacon_authenticated (N : Type) (NI : NodeIface N) (A : Alg) (AO : AlgOk A)
    (AT : AlgTotal A) fuel data size (w : world N) :
  tx_ready w -> (2 * active (msg_out (w_net w)) + 2 <= fuel)%nat -> 22 <= len data -> bytes data ->
  0 <= iv_index (w_net w) -> iv_index (w_net w) + 42 < 0x100000000 ->
  exists r w', process_beacon fuel data size w = Ok (r, w') /\ tx_ready w' /\
    (w' = w \/ exists k iv upd, k ∈ net_keys (w_keys w) /\ beacon_from k data iv upd /\
       iv_index (w_net w) <= iv <= iv_index (w_net w) + 42 /\ iv_index (w_net w') = iv).
Proof.
  intros Hw Hf Hl Hb H0 H1.
  destruct (proj1 (wp_ok _ _ _) (process_beacon_wp fuel data size w Hw Hf Hl Hb H0 H1))
    as (r & w' & Hr & Hw' & Hc). by exists r, w'.
Qed.

(** The proxy's filter is told every destination.  After the message that
    selects the white list, [setup_whitelist] sends add messages only, each of an
    opcode and one to five addresses, so that it fits an unsegmented control
    packet; together they carry every registered destination once, in order, the
    last, partly filled message included. *)
Theorem whitelist_complete (N : Type) (NI : NodeIface N) (A : Alg) fuel (w : world N) :
  exists msgs : list Z -> list (list Z),
    setup_whitelist fuel w =
      (_ ← send_wl fuel [FILTER_SETUP; WHITELIST_FILTER];
       n ← net_of; mapM_ (send_wl fuel) (msgs (dst_dst <$> dest n))) w /\
    ∀ l, Forall (fun m => head m = Some FILTER_ADD) (msgs l) /\
         Forall (fun m => 3 <= len m <= 11) (msgs l) /\
         mjoin (tail <$> msgs l) = mjoin (to_be 2 <$> l).
Proof.
  exists (fun l => wl_msgs l []). split; [apply setup_whitelist_eq|]. intros l.
  destruct (wl_msgs_all l [] ltac:(by left)). split; [|done]. apply wl_msgs_head. by left.
Qed.

(** A beacon of the demonstration network. *)
Definition demo_beacon (flags iv : Z) : list Z :=
  let part := parts_of (A := toy_alg) (rep 16 1) in
  let mac := default 0 (mesh_crypto_beacon_cmac (H := toy_alg) (beacon_key part) (net_id part) iv
               false (truth (Z.land flags 2))) in
  1 :: flags :: net_id part ++ to_be 4 iv ++ to_be 8 mac.

Lemma beacon_authenticated_witness :
  exists r w', process_beacon (A := toy_alg) 2 (demo_beacon 2 6) 22 demo_world = Ok (r, w') /\
    tx_ready (A := toy_alg) w' /\
    (w' = demo_world \/ exists k iv upd, k ∈ net_keys (w_keys demo_world) /\
       beacon_from (A := toy_alg) k (demo_beacon 2 6) iv upd /\
       iv_index (w_net demo_world) <= iv <= iv_index (w_net demo_world) + 42 /\
       iv_index (w_net w') = iv).
Proof.
  apply (beacon_authenticated node_view _ toy_alg _ _ 2 (demo_beacon 2 6) 22 demo_world).
  - apply demo_ready.
  - apply le_n.
  - by vm_compute.
  - apply (bool_decide_unpack (bytes _)). by vm_compute.
  - done.
  - done.
Defined.

(** Replaying an old beacon restarts the sequence numbers.  Once an IV update
    has ended (same IV index, flag cleared), the beacon recorded while it was in
    progress - correctly authenticated, with the current IV index - is accepted
    again: the update flag is set again, so the IV index used for transmission
    (the index less the flag) goes back by one, and the sequence number is reset
    to zero although numbers from zero on have been used with that index. *)
Theorem beacon_replay_resets_seq (N : Type) (NI : NodeIface N) (A : Alg) fuel data k
    (w : world N) :
  let n := w_net w in
  find_net_key_by_id (w_keys w) (net_id (beacon_parts k)) = Some k ->
  beacon_from k data (iv_index n) true ->
  0 <= iv_index n -> iv_index n + 42 < 0x100000000 -> iv_update n = false ->
  iv_upd_state n = IV_UPD_NORMAL \/ iv_upd_state n = IV_UPD_UPDATING ->
  exists w', process_beacon fuel data 22 w = Ok (true, w') /\ seq_num (w_net w') = 0 /\
    iv_index (w_net w') - b2z (iv_update (w_net w')) = iv_index n - b2z (iv_update n) - 1.
Proof.
  intros n Hfind (flags & id & mac & Hfl & Hiv & Hid & Hmac & Hupd & Hkr & Hpid & Hc) H0 H1 Hu Hst.
  match goal with |- exists w', ?m w = Ok (true, w') /\ @?Q w' =>
    enough (Hwp : wp m (fun r w' => r = true /\ Q w') w) end.
  { apply wp_ok in Hwp as (r & w' & Hr & -> & Hq). by exists w'. }
  unfold process_beacon. cbn [negb Z.eqb Pos.eqb].
  wp_step. eapply wp_lift; [exact Hfl|]. wp_step. eapply wp_lift; [exact Hiv|]. wp_run.
  fold n. rewrite <-Hupd. replace (if _ && negb true then true else true) with true by by case_goal.
  rewrite Hu, Z.eqb_refl. cbn [Bool.eqb andb].
  wp_step. eapply wp_lift; [exact Hid|]. rewrite <-Hpid, Hfind. rewrite Hkr, eqb_reflx. cbn [negb].
  rewrite bool_decide_eq_true_2 by done. cbn [negb]. unfold IV_IDX_DIFF_RANGE.
  rewrite u32_small, (proj2 (Z.ltb_ge _ _)), Z.ltb_irrefl by lia. cbn [orb].
  rewrite Hpid, Hc. wp_step. eapply wp_lift; [exact Hmac|]. rewrite Z.eqb_refl. cbn [negb].
  replace (IV_UPD_UPDATING <? iv_upd_state n) with false by by destruct Hst as [-> | ->].
  replace (iv_upd_state n =? IV_UPD_INIT) with false by by destruct Hst as [-> | ->].
  unfold beacon_update, next_upd_state, net_of, mod_net. wp_run. fold n. rewrite Hu. cbn [andb negb].
  wp_run. unfold store_iv, net_of, mod_net, emit. wp_run.
  set (w1 := on_net (reset_seq true (iv_index n)) _).
  assert (Hw1 : w_net w1 = set_seq_num_reserved 100 (set_seq_num 0
    (set_iv_upd_state IV_UPD_UPDATING n))).
  { unfold w1. cbn [w_net on_net]. unfold reset_seq. fold n. set (n' := set_iv_upd_state _ n).
    change (iv_update n') with (iv_update n). change (iv_index n') with (iv_index n).
    rewrite Hu, Z.ltb_irrefl. cbn [orb Bool.eqb negb].
    rewrite (proj2 (Z.eqb_neq (u32 (iv_index n + 1)) _)); [done | rewrite u32_small; lia]. }
  assert (Hs : seq_num (w_net w1) = 0) by by rewrite Hw1.
  assert (Hr : seq_num_reserved (w_net w1) = 100) by by rewrite Hw1.
  rewrite Hs, Hr. cbn [Z.eqb orb Z.leb Z.compare].
  wp_run. split_and!; [done | exact Hs | simpl; lia].
Qed.

Lemma beacon_replay_resets_seq_witness :
  exists w', process_beacon (A := toy_alg) 2 (demo_beacon 2 5) 22 demo_world = Ok (true, w') /\
    seq_num (w_net w') = 0 /\
    iv_index (w_net w') - b2z (iv_update (w_net w')) =
    iv_index (w_net demo_world) - b2z (iv_update (w_net demo_world)) - 1.
Proof.
  apply (beacon_replay_resets_seq node_view _ toy_alg 2 (demo_beacon 2 5)
    (NetKey 0 0 (parts_of (A := toy_alg) (rep 16 1)) (NetKeyParts 0xff [] [] [] [] []))).
  - by vm_compute.
  - exists 2, (net_id (parts_of (A := toy_alg) (rep 16 1))).
    eexists. split_and!; try (vm_compute; reflexivity).
  - done.
  - done.
  - done.
  - by left.
Defined.
