(* ===== verification/Recv.v ===== *)
(** * Receiving

    The receive half of [src/blueZ/mesh/net.c]: decoding of network packets,
    decryption with device, application and virtual keys, control messages,
    reassembly of segmented messages with its acknowledgements and timers, and
    the dispatch of [net_data_ready]. *)

From S2P Require Import Prelude Bytes Alg Ccm Crypto Packet Pdu Keys NetState Send Beacon.

Definition PROXY_MESH_BEACON : Z := 0x01.
Definition APP_IDX_INVALID : Z := 0xffff.
Definition NET_OP_SEG_ACKNOWLEDGE : Z := 0x00.
Definition NET_OP_HEARTBEAT : Z := 0x0a.

(** ** What the network layer hands up

    [node_local_data_handler src dst iv_index seq_num app_idx data len]: [data]
    is the memory from the pointer to the end of its object.  The node layer may
    send messages from within; the first argument bounds the nesting of the
    packet queue. *)
Class DataHandler (N : Type) :=
  node_local_data_handler :
    nat -> Z -> Z -> Z -> Z -> Z -> list Z -> Z -> St (world N) unit.

(** ** Decryption *)

Section Decrypt.
Context `{Alg}.

(** The boolean a CCM call returns: false where a socket failed. *)
Definition ccm_status {X} (r : option (bool * X)) : bool :=
  match r with Some (b, _) => b | None => false end.

(** [mesh_crypto_aes_ccm_decrypt(nonce, key, aad, aad ? 16 : 0, trans, len, out_msg, NULL,
    mic_size)] *)
Definition access_ccm (nonce key : list Z) (aad : option (list Z)) (szmic : bool)
    (trans : list Z) (len : Z) (out_msg : list Z) : res (bool * list Z) :=
  '(r, io) ← mesh_crypto_aes_ccm_decrypt nonce key (default [] aad)
               (match aad with Some _ => 16 | None => 0 end) len (if szmic then 8 else 4) false
               (Separate trans 0 out_msg 0);
  mret (ccm_status r, io_packet io).

(** One key of the list; the state is [decrypt->app_idx] and the output. *)
Definition try_decrypt (nonce : list Z) (aad : option (list Z)) (net_idx aid : Z) (szmic : bool)
    (trans : list Z) (len : Z) (app_key : mesh_app_key) (st : Z * list Z) : res (Z * list Z) :=
  let '(app_idx, out_msg) := st in
  if negb (app_idx =? APP_IDX_INVALID) then mret st else
  if negb (ak_net_idx app_key =? net_idx) then mret st else
  '(status, out_msg) ← (if akf_aid (ak_current app_key) =? aid
     then access_ccm nonce (ak_key (ak_current app_key)) aad szmic trans len out_msg
     else mret (false, out_msg));
  '(status, out_msg) ← (if negb status && (akf_aid (ak_new app_key) =? aid)
     then access_ccm nonce (ak_key (ak_new app_key)) aad szmic trans len out_msg
     else mret (status, out_msg));
  mret (if (status : bool) then ak_idx app_key else app_idx, out_msg).

(** Returns the index and [trans], overwritten where a key fits.  [g_malloc(0)]
    is NULL, in which case [false] is returned as an index. *)
Definition access_pkt_decrypt (app_keys : list mesh_app_key) (nonce : list Z)
    (aad : option (list Z)) (net_idx aid : Z) (szmic : bool) (trans : list Z) (len : Z)
    : res (Z * list Z) :=
  if len =? 0 then mret (0, trans) else
  (* the octets of [g_malloc] are indeterminate; only those written are read *)
  '(app_idx, out_msg) ← foldM (try_decrypt nonce aad net_idx aid szmic trans len) app_keys
                          (APP_IDX_INVALID, rep len 0);
  if negb (app_idx =? APP_IDX_INVALID) then
    trans ← wr_range trans 0 out_msg; mret (app_idx, trans)
  else mret (app_idx, trans).
End Decrypt.

(** [decode->packet] and [tmp], and whether a key has been found. *)
Section Decode.
Context `{Alg}.

(** [mesh_crypto_packet_decode(decode->packet, decode->size, decode->proxy, tmp, ...)] with one
    set of key parts. *)
Definition decode_with (part : net_key_parts) (proxy : bool) (iv : Z) (packet : list Z)
    (size : Z) (tmp : list Z) : res (bool * list Z) :=
  mesh_crypto_packet_decode packet size proxy tmp iv (enc_key part) (privacy_key part).

Definition try_decode (proxy : bool) (iv size : Z) (net_key : mesh_net_key)
    (decode : list Z * option mesh_net_key) : res (list Z * option mesh_net_key) :=
  let '(packet, found) := decode in
  b0 ← rd packet 0;
  let n := Z.land b0 0x7f in
  let tmp := rep 29 0 in
  match found with
  | Some _ => mret decode
  | None =>
      '(status, tmp) ← (if nid (nk_current net_key) =? n
         then decode_with (nk_current net_key) proxy iv packet size tmp
         else mret (false, tmp));
      '(status, tmp) ← (if negb status && (nid (nk_new net_key) =? n)
         then decode_with (nk_new net_key) proxy iv packet size tmp
         else mret (status, tmp));
      if (status : bool) then
        m ← rd_range tmp 0 size;
        packet ← wr_range packet 0 m;
        mret (packet, Some net_key)
      else mret (packet, None)
  end.

Definition net_packet_decode (net_keys : list mesh_net_key) (proxy : bool) (iv : Z)
    (packet : list Z) (size : Z) : res (list Z * option mesh_net_key) :=
  foldM (try_decode proxy iv size) net_keys (packet, None).
End Decode.

(** ** Reassembly arithmetic *)

Definition calc_seqAuth (seq_num : Z) (trans : list Z) : res Z :=
  seq0 ← TRANS_SEQ0 trans; mret (Z.lor (Z.land seq_num (Z.lnot 0x1fff)) seq0).

(** [(uint64_t)iv_index << 32 | seqAuth] *)
Definition iv_seq_auth (iv seqAuth : Z) : Z := Z.lor (Z.shiftl iv 32) seqAuth.

(** ** Handlers *)

Section Recv.
Context {N : Type} {NI : NodeIface N} {DH : DataHandler N} {A : Alg}.
Implicit Types w : world N.
Notation M := (@M N).

Definition proxy_ctl_rxed (trans : list Z) (len : Z) : M bool :=
  if len <? 1 then mret false else
  op ← lift (rd trans 0);
  if op =? FILTER_STATUS then
    if negb (len =? 4) then mret false else
    t ← lift (rd trans 1);
    _ ← mod_net (set_blacklist (t =? BLACKLIST_FILTER));
    _ ← lift (get_be16 trans 2);     (* printed *)
    mret true
  else mret false.

(** Prints only; what is printed is read. *)
Definition ctl_rxed (trans : list Z) (len : Z) : M bool :=
  op ← lift (rd trans 0);
  if op =? NET_OP_HEARTBEAT then
    _ ← lift (get_be16 trans 2);
    _ ← lift (rd trans 1);
    mret true
  else
    _ ← lift (rd_range trans 0 len);
    mret false.

(** *** Access messages *)

Definition mic_size_of (szmic : bool) : Z := if szmic then 8 else 4.

(** [access_rxed] and [virtual_rxed] return [trans] as they leave it. *)
Definition access_rxed (fuel : nat) (nonce : list Z) (net_idx iv_index seq_num src dst aid : Z)
    (szmic : bool) (trans : list Z) (len : Z) : M (bool * list Z) :=
  w ← get;
  '(app_idx, trans) ← lift (access_pkt_decrypt (app_keys (w_keys w)) nonce None net_idx aid szmic
                              trans len);
  if negb (app_idx =? APP_IDX_INVALID) then
    _ ← node_local_data_handler fuel src dst iv_index seq_num app_idx trans
          (u16 (len - mic_size_of szmic));
    mret (true, trans)
  else mret (false, trans).

(** One virtual address; the state is [decrypt->app_idx] and [decrypt->trans].
    The source handed up is [decrypt->src], which [virtual_rxed] sets to [dst]. *)
Definition try_virt_decrypt (fuel : nat) (nonce : list Z) (net_idx iv_index seq_num dec_src dec_dst
    aid : Z) (szmic : bool) (len : Z) (virt : mesh_virt_addr) (st : Z * list Z) : M (Z * list Z) :=
  let '(app_idx, trans) := st in
  if negb (app_idx =? APP_IDX_INVALID) || negb (dec_dst =? va16 virt) then mret st else
  w ← get;
  '(app_idx, trans) ← lift (access_pkt_decrypt (app_keys (w_keys w)) nonce (Some (va128 virt))
                              net_idx aid szmic trans len);
  if negb (app_idx =? APP_IDX_INVALID) then
    _ ← node_local_data_handler fuel dec_src (va32 virt) iv_index seq_num app_idx trans
          (u16 (len - mic_size_of szmic));
    mret (app_idx, trans)
  else mret (app_idx, trans).

Definition virtual_rxed (fuel : nat) (nonce : list Z) (net_idx iv_index seq_num src dst aid : Z)
    (szmic : bool) (trans : list Z) (len : Z) : M (bool * list Z) :=
  w ← get;
  '(app_idx, trans) ← foldM (try_virt_decrypt fuel nonce net_idx iv_index seq_num dst dst aid szmic
                               len) (virt_addrs (w_keys w)) (APP_IDX_INVALID, trans);
  mret (negb (app_idx =? APP_IDX_INVALID), trans).

(** Decryption with a device key into [out]; on success the message is handed
    up. *)
Definition try_dev_key (fuel : nat) (nonce key : list Z) (iv_index seq_num src dst : Z)
    (szmic : bool) (payload : list Z) (plen : Z) (out : list Z) : M (bool * list Z) :=
  '(result, out) ← lift (access_ccm nonce key None szmic payload (u16 plen) out);
  if (result : bool) then
    _ ← node_local_data_handler fuel src dst iv_index seq_num APP_IDX_DEV out
          (u16 (plen - mic_size_of szmic));
    mret (true, out)
  else mret (false, out).

(** The part of [msg_rxed] for messages secured with a device key.  [result] is
    what the variable holds at [done]. *)
Definition dev_rxed (fuel : nat) (iv_index seq_num src dst : Z) (szmic : bool)
    (nonce payload : list Z) (plen : Z) : M bool :=
  if plen <? 0 then fail Abort else
  if plen =? 0 then mret false else
  w ← get;
  remote ← (if provisioner (w_net w) then
              node ← lift (node_find_by_addr (w_nodes w) src); mret (node_get_device_key node)
            else mret None);
  '(result, sent, out) ← (match remote with
     | Some key =>
         '(result, out) ← try_dev_key fuel nonce key iv_index seq_num src dst szmic payload plen
                            (rep plen 0);
         mret (result, result, out)
     | None => mret (true, false, rep plen 0)
     end);
  if (sent : bool) then mret result else
  (* local_dev_key: *)
  w ← get;
  local ← lift (node_get_local_node (w_nodes w));
  match node_get_device_key local with
  | None => mret result
  | Some key =>
      '(result, _) ← try_dev_key fuel nonce key iv_index seq_num src dst szmic payload plen out;
      mret result
  end.

(** [trans] is returned as it is left. *)
Definition msg_rxed (fuel : nat) (net_idx iv_index : Z) (szmic : bool) (seq_num seq_auth src dst : Z)
    (trans : list Z) (len : Z) : M (bool * list Z) :=
  aid ← lift (TRANS_AKF_AID trans);
  akf ← lift (TRANS_AKF trans);
  off ← lift (TRANS_PAYLOAD trans);
  plen ← lift (TRANS_LEN trans len);
  let payload := drop (Z.to_nat off) trans in
  if negb akf then
    let nonce := mesh_crypto_device_nonce seq_auth src dst iv_index szmic in
    r ← dev_rxed fuel iv_index seq_num src dst szmic nonce payload plen;
    mret (r, trans)
  else
    let nonce := mesh_crypto_application_nonce seq_auth src dst iv_index szmic in
    '(r, payload) ← (if IS_VIRTUAL dst
       then virtual_rxed fuel nonce net_idx iv_index seq_num src dst aid szmic payload (u16 plen)
       else access_rxed fuel nonce net_idx iv_index seq_num src dst aid szmic payload (u16 plen));
    mret (r, take (Z.to_nat off) trans ++ payload).

(** *** Acknowledging *)

Definition sar_ack (sar : mesh_sar_msg) : res (list Z) :=
  ack_pdu ← SET_TRANS_OPCODE (rep 7 0) NET_OP_SEG_ACKNOWLEDGE;
  ack_pdu ← SET_TRANS_SEQ0 ack_pdu (seqAuth sar);
  SET_TRANS_ACK ack_pdu (ack sar).

Definition send_sar_ack (fuel : nat) (id : Z) : M unit :=
  _ ← assign SarIn id (set_activity_cnt 0);
  sar ← deref SarIn id;
  buf ← lift (sar_ack sar);
  _ ← net_ctl_msg_send fuel 0xff (u16 (sar_dst sar)) (sar_src sar) (Some buf);
  mret tt.

Definition sar_in_ack_timeout (fuel : nat) (id : Z) : M bool :=
  sar ← deref SarIn id;
  full_ack ← lift (full_ack_of (segN sar));
  _ ← (if truth (activity_cnt sar) || negb (ack sar =? full_ack) then send_sar_ack fuel id
       else mret tt);
  mret true.

Definition sar_in_msg_timeout (id : Z) : M bool :=
  _ ← assign SarIn id (set_msg_to 0);
  _ ← flush_sar SarIn id;
  mret false.

(** *** Reassembly *)

(** A message in progress from [src] is kept ([Some]) or replaced ([None]); the
    first component is false for a segment that is too old. *)
Definition sar_reuse (src iv_index seqA n : Z) : M (bool * option Z) :=
  net ← net_of;
  match find_sar_in_by_src net src with
  | None => mret (true, None)
  | Some sar =>
      let new := iv_seq_auth iv_index seqA in
      let old := iv_seq_auth (sar_iv_index sar) (seqAuth sar) in
      if old <? new then _ ← flush_sar SarIn (sar_id sar); mret (true, None)
      else if new <? old then mret (false, None)
      else if negb (n =? segN sar) then _ ← flush_sar SarIn (sar_id sar); mret (true, None)
      else mret (true, Some (sar_id sar))
  end.

(** [g_malloc0] of a message with room for [n + 1] segments, and its timers. *)
Definition sar_new (net_idx iv_index : Z) (ctl : bool) (ttl seqA src dst n : Z) (sz : bool)
    (b0 : Z) : M Z :=
  id ← fresh;
  let sar := Sar id 0 0 iv_index seqA 0 dst src net_idx 0 0 ttl n 0 ctl true sz false
               (Z.land b0 0x7f :: rep (sar_room n - 1) 0) in
  _ ← mod_net (fun net => set_sar_in (sar_in net ++ [sar]) net);
  _ ← (if IS_UNICAST dst
       then t ← timeout_add; assign SarIn id (set_ack_to t) else mret tt);
  t ← timeout_add;
  _ ← assign SarIn id (set_msg_to t);
  mret id.

(** The octets and the length of one segment. *)
Definition sar_put (id n o : Z) (trans : list Z) (len : Z) : M unit :=
  _ ← (if n =? o then assign SarIn id (set_sar_len (u16 (n * 12 + len - 3))) else mret tt);
  sar ← deref SarIn id;
  m ← lift (rd_range trans 4 12);
  data ← lift (wr_range (sar_data sar) (1 + 12 * o) m);
  assign SarIn id (set_sar_data data).

(** The complete message goes up; it is decrypted where it lies. *)
Definition sar_forward (fuel : nat) (ctl : bool) (seq_num : Z) (sar : mesh_sar_msg) : M bool :=
  if ctl then ctl_rxed (sar_data sar) (sar_len sar) else
  '(r, data) ← msg_rxed fuel (sar_net_idx sar) (sar_iv_index sar) (szmic sar) seq_num (seqAuth sar)
                 (sar_src sar) (u16 (sar_dst sar)) (sar_data sar) (sar_len sar);
  _ ← mod_net (fun net => set_sar_in (update_sar (sar_id sar) (set_sar_data data) (sar_in net)) net);
  mret r.

(** Whether the last segment leads to an acknowledgement now. *)
Definition ack_now (complete : bool) (o old_ack new_ack full_ack : Z) : bool :=
  let last_ack_mask := u32 (Z.shiftl 0xffffffff o) in
  if old_ack =? new_ack then false
  else if Z.land last_ack_mask new_ack =? Z.land last_ack_mask full_ack then true
  else complete.

(** [seg_rxed] from the copy on, for the message at [id]. *)
Definition seg_accept (fuel : nat) (id : Z) (ctl : bool) (seq_num dst n o : Z) (trans : list Z)
    (len : Z) : M bool :=
  _ ← sar_put id n o trans len;
  full_ack ← lift (full_ack_of n);
  sar ← deref SarIn id;
  let old_ack := ack sar in
  let new_ack := Z.lor old_ack (u32 (Z.shiftl 1 o)) in
  _ ← assign SarIn id (set_ack new_ack);
  let complete := (new_ack =? full_ack) && negb (old_ack =? full_ack) in
  result ← (if (complete : bool) then sar ← deref SarIn id; sar_forward fuel ctl seq_num sar
            else mret false);
  if negb (IS_UNICAST dst) then mret result else
  _ ← assign SarIn id (fun s => set_activity_cnt (u8 (activity_cnt s + 1)) s);
  sar ← deref SarIn id;
  _ ← (if ack_now complete o old_ack (ack sar) full_ack then send_sar_ack fuel id else mret tt);
  mret result.

Definition seg_rxed (fuel : nat) (net_idx iv_index : Z) (ctl : bool) (ttl seq_num src dst : Z)
    (trans : list Z) (len : Z) : M bool :=
  seqA ← lift (calc_seqAuth seq_num trans);
  n ← lift (TRANS_SEGN trans);
  o ← lift (TRANS_SEGO trans);
  '(go, reused) ← sar_reuse src iv_index seqA n;
  if negb go then mret false else
  id ← (match reused with
        | Some id => mret id
        | None =>
            sz ← lift (TRANS_SZMIC trans);
            b0 ← lift (rd trans 0);
            sar_new net_idx iv_index ctl ttl seqA src dst n sz b0
        end);
  seg_accept fuel id ctl seq_num dst n o trans len.

(** *** Dispatch *)

(** What [net_data_ready] does with a decoded packet; [len] is without the MIC. *)
Definition net_dispatch (fuel : nat) (type net_idx iv_index : Z) (msg : list Z) (len : Z) : M bool :=
  ctl ← lift (PKT_CTL msg);
  ttl ← lift (PKT_TTL msg);
  seq ← lift (PKT_SEQ msg);
  src ← lift (PKT_SRC msg);
  dst ← lift (PKT_DST msg);
  let trans := PKT_TRANS msg in
  let tlen := u16 (PKT_TRANS_LEN len) in
  if type =? PROXY_CONFIG_PDU then
    if truth dst then mret false else proxy_ctl_rxed trans tlen
  else
    op ← lift (PKT_OPCODE msg);
    seg ← lift (PKT_SEGMENTED msg);
    if ctl && (op =? NET_OP_SEG_ACKNOWLEDGE) then
      _ ← lift (PKT_OBO msg);
      _ ← lift (PKT_SEQ0 msg);
      flags ← lift (PKT_ACK msg);
      ack_rxed fuel src flags
    else if (seg : bool) then
      seg_rxed fuel net_idx iv_index ctl ttl seq src dst trans tlen
    else if negb ctl then
      '(r, _) ← msg_rxed fuel net_idx iv_index false seq seq src dst trans tlen; mret r
    else ctl_rxed trans tlen.

(** [len] counts the type octet. *)
Definition net_data_ready (fuel : nat) (msg : list Z) (len : Z) : M bool :=
  type ← lift (rd msg 0);
  let msg := drop 1 msg in
  w ← get;
  let iv := iv_index (w_net w) in
  if len <? 10 then mret false else
  let len := len - 1 in
  if type =? PROXY_MESH_BEACON then process_beacon fuel msg len else
  if PROXY_CONFIG_PDU <? type then mret false else
  b0 ← lift (rd msg 0);
  let other := negb (Bool.eqb (truth (Z.land iv 0x01)) (truth (Z.land b0 0x80))) in
  if other && (iv =? 0) then mret false else
  let iv := if (other : bool) then iv - 1 else iv in
  '(msg, key) ← lift (net_packet_decode (net_keys (w_keys w)) (type =? PROXY_CONFIG_PDU) iv msg len);
  match key with
  | None => mret false
  | Some k =>
      ctl ← lift (PKT_CTL msg);
      net_dispatch fuel type (nk_idx k) iv msg (u8 (len - (if (ctl : bool) then 8 else 4)))
  end.
End Recv.
