(* ===== verification/Reassembly.v ===== *)
(** * Reassembly

    Segmented access messages, from the lower transport PDUs the sender makes
    (Send.v) to the message handed up by the receiver (Recv.v). *)

From S2P Require Import Prelude Bytes Alg Ccm Crypto Packet Pdu Keys NetState Send Beacon Recv.

(** ** The incoming list *)

Section Incoming.
Context {N : Type} {NI : NodeIface N} {A : Alg} {AO : AlgOk A} {AT : AlgTotal A}.
Implicit Types w : world N.

Record rx_ready (w : world N) : Prop := {
  rx_tx : tx_ready w;
  rx_ids : NoDup (sar_id <$> sar_in (w_net w));
  rx_srcs : NoDup (sar_src <$> sar_in (w_net w));
  rx_fresh : Forall (fun s => sar_id s < w_next w) (sar_in (w_net w));
}.

Definition upd_in (id : Z) (f : mesh_sar_msg -> mesh_sar_msg) w : world N :=
  on_net (fun n => set_sar_in (update_sar id f (sar_in n)) n) w.

Lemma deref_in_wp id w s (Q : mesh_sar_msg -> world N -> Prop) :
  find_sar id (sar_in (w_net w)) = Some s -> Q s w -> wp (deref SarIn id) Q w.
Proof.
  intros Hs HQ. unfold deref, net_of. wp_run. eapply wp_lift; [|exact HQ]. simpl. by rewrite Hs.
Qed.

Lemma assign_in_wp id f w s (Q : unit -> world N -> Prop) :
  find_sar id (sar_in (w_net w)) = Some s -> Q tt (upd_in id f w) -> wp (assign SarIn id f) Q w.
Proof. intros Hs HQ. unfold assign, mod_net. wp_step. eapply deref_in_wp; [done|]. by wp_run. Qed.

Lemma find_upd_in id f w s :
  (∀ s, sar_id (f s) = sar_id s) -> find_sar id (sar_in (w_net w)) = Some s ->
  find_sar id (sar_in (w_net (upd_in id f w))) = Some (f s).
Proof. intros. by apply find_update_sar. Qed.

(** Changes of the incoming list do not concern sending. *)
Lemma tx_ready_in l w : tx_ready w -> tx_ready (on_net (set_sar_in l) w).
Proof. intros [[] ? ? ?]. by split; [split|..]. Qed.

Lemma rx_ready_upd id f w :
  (∀ s, sar_id (f s) = sar_id s) -> (∀ s, sar_src (f s) = sar_src s) ->
  rx_ready w -> rx_ready (upd_in id f w).
Proof.
  intros Hi Hs [Ht H1 H2 H3]. split; unfold upd_in; simpl.
  - apply (tx_ready_in (update_sar id f (sar_in (w_net w))) w Ht).
  - unfold update_sar. by rewrite map_update_first.
  - unfold update_sar. by rewrite map_update_first.
  - apply Forall_update_first; [|done]. intros y. by rewrite Hi.
Qed.

Lemma tx_post_rx w w' : rx_ready w -> tx_post w w' -> rx_ready w' /\ sar_in (w_net w') = sar_in (w_net w).
Proof.
  intros [Ht H1 H2 H3] Hp. pose proof (tx_ready_rel _ _ Ht Hp) as Ht'. destruct Hp as [_ []].
  assert (Hin : sar_in (w_net w') = sar_in (w_net w))
    by (apply (f_equal sar_in) in rel_core; exact rel_core).
  split; [|done]. split; rewrite ?Hin; try done.
  eapply Forall_impl; [exact H3|]. cbn. lia.
Qed.

(** Composition of updates of one message. *)
Lemma upd_in_twice id f g w :
  (∀ s, sar_id (f s) = sar_id s) -> upd_in id g (upd_in id f w) = upd_in id (fun s => g (f s)) w.
Proof.
  intros Hf. unfold upd_in, on_net, update_sar. cbn -[update_first]. f_equal. unfold set_sar_in. cbn.
  f_equal. induction (sar_in (w_net w)) as [|s l IH]; simpl; [done|].
  destruct (sar_id s =? id) eqn:E; simpl; rewrite ?Hf, E; [done | by rewrite IH].
Qed.
End Incoming.

(** ** The header of a segment *)

Section Header.
Variables (h v : Z) (r : list Z).
Hypothesis Hv : 0 <= v < 0x1000000.
Let t : list Z := h :: to_be 3 v ++ r.

Lemma to_be_3 : to_be 3 v = [v / 0x10000; v / 0x100 mod 0x100; v mod 0x100].
Proof. cbn [to_be app]. repeat (f_equal; try zlia). Qed.

Lemma hdr_seq0 : TRANS_SEQ0 t = Ok (v / 0x400 mod 0x2000).
Proof.
  unfold TRANS_SEQ0, t. rewrite to_be_3. unfold get_be16.
  rewrite (rd_range_mid [h] [v / 0x10000; v / 0x100 mod 0x100] (v mod 0x100 :: r)) by done.
  cbn [mbind res_bind res_fmap fmap of_be fold_left mret res_ret].
  rewrite land_1fff, Z.shiftr_div_pow2 by lia. change (2 ^ 2) with 4. f_equal. zlia.
Qed.

Lemma hdr_segO : TRANS_SEGO t = Ok (v / 0x20 mod 0x20).
Proof.
  unfold TRANS_SEGO, t. rewrite to_be_3. unfold get_be16.
  rewrite (rd_range_mid [h; v / 0x10000] [v / 0x100 mod 0x100; v mod 0x100] r) by done.
  cbn [mbind res_bind res_fmap fmap of_be fold_left mret res_ret].
  rewrite land_1f, Z.shiftr_div_pow2 by lia. change (2 ^ 5) with 32. f_equal. zlia.
Qed.

Lemma hdr_segN : TRANS_SEGN t = Ok (v mod 0x20).
Proof.
  unfold TRANS_SEGN, t. rewrite to_be_3.
  change (rd _ 3) with (Ok (v mod 0x100)). cbn [mbind res_bind mret res_ret].
  rewrite land_1f. f_equal. zlia.
Qed.

Lemma hdr_szmic : 0x80 <= h < 0x100 -> TRANS_SZMIC t = Ok (0x800000 <=? v).
Proof.
  intros Hh. unfold TRANS_SZMIC, TRANS_SEGMENTED, t. rewrite to_be_3.
  change (rd _ 0) with (Ok h). cbn [mbind res_bind mret res_ret].
  rewrite top_bit, (proj2 (Z.leb_le _ _)) by lia.
  change (rd _ 1) with (Ok (v / 0x10000)). cbn [mbind res_bind mret res_ret].
  rewrite top_bit by zlia. f_equal. apply eq_bool_prop_intro.
  rewrite !Is_true_true, !Z.leb_le. zlia.
Qed.

Lemma hdr_head : rd t 0 = Ok h.
Proof. done. Qed.
End Header.

(** [calc_seqAuth] when SeqAuth and the packet lie in the same block of 8192. *)
Lemma land_not_1fff s : 0 <= s -> Z.land s (Z.lnot 0x1fff) = s / 0x2000 * 0x2000.
Proof.
  intros Hs. rewrite <-Z.ldiff_land. change 0x1fff with (Z.ones 13).
  rewrite Z.ldiff_ones_r, Z.shiftl_mul_pow2, Z.shiftr_div_pow2 by lia. done.
Qed.

Lemma calc_seqAuth_eq seq t s0 :
  0 <= seq -> TRANS_SEQ0 t = Ok s0 -> 0 <= s0 < 0x2000 ->
  calc_seqAuth seq t = Ok (seq / 0x2000 * 0x2000 + s0).
Proof.
  intros Hs Ht H0. unfold calc_seqAuth. rewrite Ht. cbn [mbind res_bind mret res_ret]. f_equal.
  rewrite land_not_1fff by done. rewrite Z.lor_comm.
  pose proof (lor_shiftl_add s0 (seq / 0x2000) 13 ltac:(lia) ltac:(lia)) as Hor.
  rewrite Z.shiftl_mul_pow2 in Hor by lia. change (2 ^ 13) with 0x2000 in Hor. rewrite Hor. lia.
Qed.

(** ** A partly received message *)

Definition full_mask (n : Z) : Z := 2 ^ (n + 1) - 1.

(** What [seg_rxed] has of the message [tx] when the segments of the bit mask [a]
    have arrived; once all have, its octets have been decrypted in place. *)
Record partial (tx : mesh_sar_msg) (idx a : Z) (s : mesh_sar_msg) : Prop := {
  part_src : sar_src s = sar_src tx;
  part_dst : sar_dst s = u16 (sar_dst tx);
  part_seq : seqAuth s = seqAuth tx;
  part_iv : sar_iv_index s = sar_iv_index tx;
  part_segN : segN s = segN tx;
  part_szmic : szmic s = szmic tx;
  part_idx : sar_net_idx s = idx;
  part_ack : ack s = a;
  part_room : len (sar_data s) = sar_room (segN tx);
  part_mask : 0 <= a <= full_mask (segN tx);
  part_head : a <> full_mask (segN tx) -> sar_data s !! 0%nat = Some (sar_akf_aid tx);
  part_data : a <> full_mask (segN tx) -> ∀ j, 0 <= j < sar_len tx -> Z.testbit a (j / 12) = true ->
    sar_data s !! Z.to_nat (1 + j) = sar_data tx !! Z.to_nat j;
  part_len : a <> full_mask (segN tx) -> Z.testbit a (segN tx) = true -> sar_len s = 1 + sar_len tx;
}.

(** *** Bit masks of segments *)

Lemma full_mask_ones n : 0 <= n -> full_mask n = Z.ones (n + 1).
Proof. intros. unfold full_mask. rewrite Z.ones_equiv. lia. Qed.

Lemma full_mask_bit n k : 0 <= n -> 0 <= k -> Z.testbit (full_mask n) k = (k <=? n).
Proof.
  intros Hn Hk. rewrite full_mask_ones by done. apply eq_bool_prop_intro.
  rewrite !Is_true_true, Z.leb_le, Z.testbit_ones_nonneg, Z.ltb_lt by lia. lia.
Qed.

(** The mask with segment [i] added, as [seg_rxed] computes it. *)
Definition with_seg (a i : Z) : Z := Z.lor a (u32 (Z.shiftl 1 i)).

Lemma with_seg_bit a i k :
  0 <= i < 32 -> 0 <= k -> Z.testbit (with_seg a i) k = Z.testbit a k || (i =? k).
Proof.
  intros Hi Hk. unfold with_seg. rewrite Z.lor_spec, Z.shiftl_1_l. f_equal.
  rewrite u32_small; [apply Z.pow2_bits_eqb; lia|].
  pose proof (Z.pow_pos_nonneg 2 i). pose proof (Z.pow_lt_mono_r 2 i 32). lia.
Qed.

Lemma with_seg_range n a i :
  0 <= i <= n -> n < 32 -> 0 <= a <= full_mask n -> 0 <= with_seg a i <= full_mask n.
Proof.
  intros Hi Hn Ha. unfold full_mask, with_seg in *. rewrite Z.shiftl_1_l.
  pose proof (Z.pow_pos_nonneg 2 i). pose proof (Z.pow_lt_mono_r 2 i (n + 1)).
  pose proof (Z.pow_le_mono_r 2 (n + 1) 32). pose proof (Z.pow_lt_mono_r 2 i 32).
  rewrite u32_small by lia. pose proof (lor_below a (2 ^ i) (n + 1)). lia.
Qed.

(** A full mask stays one. *)
Lemma with_seg_full n i : 0 <= i <= n -> n < 32 -> with_seg (full_mask n) i = full_mask n.
Proof.
  intros Hi Hn. apply Z.bits_inj'. intros k Hk.
  rewrite with_seg_bit, full_mask_bit by lia.
  destruct (Z.leb_spec k n), (Z.eqb_spec i k); done || lia.
Qed.

Lemma mask_full n a :
  0 <= n -> 0 <= a <= full_mask n -> (∀ k, 0 <= k <= n -> Z.testbit a k = true) -> a = full_mask n.
Proof.
  intros Hn Ha Hk. apply Z.bits_inj'. intros k H0. rewrite full_mask_bit by done.
  destruct (Z.leb_spec k n); [apply Hk; lia|].
  destruct (Z.eq_dec a 0) as [-> | Hz]; [apply Z.bits_0|].
  apply Z.bits_above_log2; [lia|]. apply Z.log2_lt_pow2; [lia|].
  unfold full_mask in Ha. pose proof (Z.pow_le_mono_r 2 (n + 1) k). lia.
Qed.

Section Put.
Variables (tx : mesh_sar_msg) (i : Z) (rest : list Z).
Hypothesis Htx : sar_tx_ok tx.
Hypothesis Hseg : segmented tx = true.
Hypothesis Hi : 0 <= i <= segN tx.

(** The segment as it arrives, whatever follows it in the buffer. *)
Definition seg_trans : list Z := lower_pdu tx i ++ rest.
Hypothesis Hroom : 16 <= len seg_trans.

Definition seg_word : Z :=
  b2z (szmic tx) * 0x800000 + seqAuth tx mod 0x2000 * 0x400 + i * 0x20 + segN tx.

Lemma seg_trans_eq :
  seg_trans = (sar_akf_aid tx + 0x80) :: to_be 3 seg_word ++ seg_chunk tx i ++ rest.
Proof. unfold seg_trans, lower_pdu. rewrite Hseg. cbn [app]. by rewrite <-app_assoc. Qed.

Lemma seg_word_range : 0 <= seg_word < 0x1000000.
Proof. unfold seg_word. pose proof (tx_segN tx Htx). destruct (szmic tx); cbn [b2z]; zlia. Qed.

Lemma seg_trans_fields :
  TRANS_SEQ0 seg_trans = Ok (seqAuth tx mod 0x2000) /\ TRANS_SEGO seg_trans = Ok i /\
  TRANS_SEGN seg_trans = Ok (segN tx) /\ TRANS_SZMIC seg_trans = Ok (szmic tx) /\
  rd seg_trans 0 = Ok (sar_akf_aid tx + 0x80).
Proof.
  pose proof (tx_segN tx Htx). pose proof (tx_aid tx Htx). pose proof seg_word_range.
  rewrite seg_trans_eq, hdr_seq0, hdr_segO, hdr_segN, hdr_szmic by (done || lia).
  unfold seg_word. destruct (szmic tx); cbn [b2z]; split_and!; try done; f_equal; try zlia.
Qed.

Lemma seg_size_eq : seg_size tx i = if segN tx =? i then sar_len tx - 12 * segN tx else 12.
Proof.
  pose proof (tx_seg tx Htx) as Hs. rewrite Hseg in Hs. destruct Hs as [_ Hl].
  unfold seg_size. destruct (segN tx =? i), (Z.eqb_spec (sar_len tx mod 12) 0); cbn [andb negb]; zlia.
Qed.

(** The twelve octets that are copied. *)
Lemma seg_copied :
  exists m, rd_range seg_trans 4 12 = Ok m /\ length m = 12%nat /\
    ∀ k, (k < Z.to_nat (seg_size tx i))%nat -> m !! k = sar_data tx !! (Z.to_nat (12 * i) + k)%nat.
Proof.
  destruct (seg_size_range tx i Htx Hseg Hi) as (Hsz & Hd & Hch).
  exists (take 12 (drop 4 seg_trans)).
  rewrite rd_range_ok by lia. change (Z.to_nat 4) with 4%nat. change (Z.to_nat 12) with 12%nat.
  unfold len in Hroom, Hch. split; [done|]. split; [rewrite length_take, length_drop; lia|].
  intros k Hk. rewrite lookup_take_lt by lia. rewrite seg_trans_eq, to_be_3 by apply seg_word_range.
  match goal with |- drop 4 ?l !! _ = _ =>
    change (drop 4 l) with (seg_chunk tx i ++ rest) end.
  rewrite lookup_app_l by lia. unfold seg_chunk.
  rewrite lookup_take_lt, lookup_drop by lia. done.
Qed.

(** What [sar_put] does to the message. *)
Definition put_seg (l : Z) (d : list Z) (s : mesh_sar_msg) : mesh_sar_msg :=
  set_sar_data d (if segN tx =? i then set_sar_len (u16 (segN tx * 12 + l - 3)) s else s).

Lemma sar_put_wp {N : Type} l s (w : world N) (Q : unit -> world N -> Prop) :
  find_sar (sar_id s) (sar_in (w_net w)) = Some s -> len (sar_data s) = sar_room (segN tx) ->
  (∀ d m, length m = 12%nat -> rd_range seg_trans 4 12 = Ok m ->
     wr_range (sar_data s) (1 + 12 * i) m = Ok d -> Q tt (upd_in (sar_id s) (put_seg l d) w)) ->
  wp (sar_put (sar_id s) (segN tx) i seg_trans l) Q w.
Proof.
  intros Hs Hl HQ. destruct seg_copied as (m & Hm & Hml & _). pose proof (tx_segN tx Htx).
  destruct (wr_range_total (sar_data s) (1 + 12 * i) m) as (d & Hd & _);
    [lia | unfold sar_room in Hl; unfold len at 1; lia |].
  specialize (HQ d m Hml Hm Hd). unfold sar_put, put_seg in *. destruct (segN tx =? i).
  - wp_step. eapply assign_in_wp; [done|]. wp_step.
    eapply deref_in_wp; [by apply find_upd_in|]. wp_step. eapply wp_lift; [exact Hm|].
    wp_step. eapply wp_lift; [exact Hd|].
    eapply assign_in_wp; [by apply find_upd_in|]. by rewrite upd_in_twice.
  - wp_run. eapply deref_in_wp; [done|]. wp_step. eapply wp_lift; [exact Hm|].
    wp_step. eapply wp_lift; [exact Hd|]. by eapply assign_in_wp.
Qed.

Lemma tx_seg_len : 12 * segN tx < sar_len tx <= 12 * (segN tx + 1) /\ sar_ctl tx = false.
Proof. pose proof (tx_seg tx Htx) as Hs. rewrite Hseg in Hs. tauto. Qed.

(** The octets after the copy, as long as the message was not complete before. *)
Lemma put_progress idx a s d m :
  partial tx idx a s -> a <> full_mask (segN tx) -> length m = 12%nat ->
  rd_range seg_trans 4 12 = Ok m -> wr_range (sar_data s) (1 + 12 * i) m = Ok d ->
  d !! 0%nat = Some (sar_akf_aid tx) /\
  (∀ j, 0 <= j < sar_len tx -> Z.testbit (with_seg a i) (j / 12) = true ->
    d !! Z.to_nat (1 + j) = sar_data tx !! Z.to_nat j) /\
  (Z.testbit (with_seg a i) (segN tx) = true ->
    sar_len (put_seg (4 + seg_size tx i) d s) = 1 + sar_len tx).
Proof.
  intros [] Ha Hml Hm Hd. destruct tx_seg_len as [HL _]. pose proof (tx_segN tx Htx).
  pose proof (fun k => wr_range_lookup _ _ _ _ k Hd) as Hlk. rewrite Hml in Hlk.
  pose proof seg_size_eq as Hsz.
  split_and!.
  - rewrite Hlk, bool_decide_eq_false_2 by lia. auto.
  - intros j Hj Hbit. rewrite with_seg_bit in Hbit by zlia. rewrite Hlk.
    destruct (Z.eqb_spec i (j / 12)) as [Hij | Hne].
    + rewrite bool_decide_eq_true_2 by zlia.
      destruct seg_copied as (m' & Hm' & _ & Hc). assert (m' = m) as -> by congruence.
      rewrite Hc; [f_equal; zlia|]. rewrite Hsz. destruct (Z.eqb_spec (segN tx) i); zlia.
    + rewrite orb_false_r in Hbit. rewrite bool_decide_eq_false_2 by zlia. auto.
  - intros Hbit. unfold put_seg. rewrite with_seg_bit in Hbit by lia.
    destruct (Z.eqb_spec (segN tx) i) as [He | Hne].
    + cbn. rewrite u16_small; lia.
    + cbn. rewrite (proj2 (Z.eqb_neq i _)), orb_false_r in Hbit by congruence. auto.
Qed.

Lemma put_partial idx a s d m :
  partial tx idx a s -> length m = 12%nat ->
  rd_range seg_trans 4 12 = Ok m -> wr_range (sar_data s) (1 + 12 * i) m = Ok d ->
  partial tx idx (with_seg a i) (set_ack (with_seg a i) (put_seg (4 + seg_size tx i) d s)).
Proof.
  intros Hp Hml Hm Hd. pose proof (tx_segN tx Htx). pose proof (wr_range_len _ _ _ _ Hd).
  assert (Hkeep : with_seg a i <> full_mask (segN tx) -> a <> full_mask (segN tx)).
  { intros Hne ->. apply Hne. apply with_seg_full; lia. }
  pose proof (put_progress idx a s d m Hp) as Hpr. destruct Hp.
  split; try (unfold put_seg; destruct (segN tx =? i); done).
  - unfold put_seg. cbn. congruence.
  - apply with_seg_range; lia.
  - intros Hne. destruct Hpr as (? & _ & _); auto.
  - intros Hne j Hj Hb. destruct Hpr as (_ & H1 & _); auto.
  - intros Hne Hb. destruct Hpr as (_ & _ & H1); auto.
Qed.

(** A complete message: the first octet and the upper transport PDU. *)
Definition whole : list Z := sar_akf_aid tx :: take (Z.to_nat (sar_len tx)) (sar_data tx).

Lemma put_complete idx a s d m :
  partial tx idx a s -> a <> full_mask (segN tx) -> with_seg a i = full_mask (segN tx) ->
  length m = 12%nat ->
  rd_range seg_trans 4 12 = Ok m -> wr_range (sar_data s) (1 + 12 * i) m = Ok d ->
  sar_len (put_seg (4 + seg_size tx i) d s) = 1 + sar_len tx /\
  exists z, d = whole ++ z.
Proof.
  intros Hp Ha Hfull Hml Hm Hd. destruct tx_seg_len as [HL _]. pose proof (tx_segN tx Htx).
  destruct (put_progress idx a s d m Hp Ha Hml Hm Hd) as (H0 & H1 & H2).
  rewrite Hfull in H1, H2. split; [apply H2; rewrite full_mask_bit by lia; zlia|].
  exists (drop (length whole) d). rewrite <-(take_drop (length whole) d) at 1. f_equal.
  pose proof (wr_range_len _ _ _ _ Hd) as Hdl. destruct Hp. rewrite part_room0 in Hdl.
  pose proof (tx_data tx Htx) as Htd. unfold sar_room, len in *.
  apply list_eq. intros k. unfold whole. cbn [length]. rewrite length_take.
  destruct k as [|k]; [by rewrite lookup_take_lt by lia|].
  transitivity (take (Z.to_nat (sar_len tx)) (sar_data tx) !! k); [|done].
  destruct (decide (k < Z.to_nat (sar_len tx))%nat).
  - rewrite !lookup_take_lt by lia. specialize (H1 (Z.of_nat k)).
    replace (Z.to_nat (1 + Z.of_nat k)) with (S k) in H1 by lia. rewrite Nat2Z.id in H1.
    rewrite H1; [done | lia |]. rewrite full_mask_bit by zlia. zlia.
  - rewrite !lookup_take_ge by lia. done.
Qed.
End Put.

(** ** One segment *)

(** The acknowledgement in octets. *)
Lemma sar_ack_eq s :
  sar_ack s = Ok (0 :: to_be 2 (u16 (Z.shiftl (Z.land (seqAuth s) 0x1fff) 2)) ++ to_be 4 (ack s)).
Proof.
  unfold sar_ack. change (SET_TRANS_OPCODE (rep 7 0) NET_OP_SEG_ACKNOWLEDGE) with (Ok (rep 7 0)).
  cbn [mbind res_bind]. unfold SET_TRANS_SEQ0.
  change (get_be16 (rep 7 0) 1) with (Ok 0). cbn [mbind res_bind]. change (Z.land 0 32771) with 0.
  rewrite Z.lor_0_l. set (v := u16 _). unfold put_be16, SET_TRANS_ACK, put_be32.
  change (rep 7 0) with ([0] ++ rep 2 0 ++ rep 4 0).
  rewrite wr_range_mid by (done || by rewrite length_to_be). cbn [mbind res_bind].
  pose proof (wr_range_mid ([0] ++ to_be 2 v) (rep 4 0) [] (to_be 4 (ack s)) 3) as Hw.
  rewrite !app_nil_r, <-!app_assoc in Hw. rewrite Hw; [done | done |].
  by rewrite length_to_be.
Qed.

Section Step.
Context {N : Type} {NI : NodeIface N} {DH : DataHandler N} {A : Alg} {AO : AlgOk A} {AT : AlgTotal A}.
Implicit Types w : world N.

(** [s'] takes the place of the message [id]; the other messages stay. *)
Definition now (id : Z) (s' : mesh_sar_msg) w w' : Prop :=
  sar_in (w_net w') = update_sar id (fun _ => s') (sar_in (w_net w)).

Lemma update_const id f l s :
  find_sar id l = Some s -> update_sar id f l = update_sar id (fun _ => f s) l.
Proof.
  unfold find_sar, find_first, update_sar. induction l as [|x l IH]; simpl; [done|].
  destruct (sar_id x =? id); [by intros [= ->]|]. intros. by rewrite IH.
Qed.

Lemma now_find id s s' w w' :
  find_sar id (sar_in (w_net w)) = Some s -> sar_id s' = id -> now id s' w w' ->
  find_sar id (sar_in (w_net w')) = Some s'.
Proof.
  intros Hs Hid ->. revert Hs. unfold find_sar, find_first, update_sar.
  induction (sar_in (w_net w)) as [|x l IH]; simpl; [done|].
  destruct (sar_id x =? id) eqn:E; simpl.
  - by rewrite Hid, Z.eqb_refl.
  - by rewrite E.
Qed.

Lemma now_trans id s1 s2 w w1 w2 :
  sar_id s1 = id -> now id s1 w w1 -> now id s2 w1 w2 -> now id s2 w w2.
Proof.
  unfold now. intros Hid -> ->. unfold update_sar.
  induction (sar_in (w_net w)) as [|x l IH]; simpl; [done|].
  destruct (sar_id x =? id) eqn:E; simpl; [by rewrite Hid, Z.eqb_refl | by rewrite E, IH].
Qed.

Lemma now_upd id f w s :
  find_sar id (sar_in (w_net w)) = Some s -> now id (f s) w (upd_in id f w).
Proof. intros Hs. unfold now, upd_in. simpl. by apply update_const. Qed.

Lemma now_same id w w' s :
  find_sar id (sar_in (w_net w)) = Some s -> sar_in (w_net w') = sar_in (w_net w) -> now id s w w'.
Proof.
  intros Hs Heq. unfold now. rewrite Heq. pose proof (update_const id (fun s => s) _ s Hs) as Hu.
  rewrite <-Hu. clear. unfold update_sar. induction (sar_in (w_net w)) as [|x l IH]; simpl; [done|].
  destruct (sar_id x =? id); [done | by rewrite <-IH].
Qed.

(** [send_sar_ack] sends and clears the activity counter. *)
Lemma send_sar_ack_wp fuel id w s :
  rx_ready w -> (2 * active (msg_out (w_net w)) + 2 <= fuel)%nat ->
  find_sar id (sar_in (w_net w)) = Some s ->
  wp (send_sar_ack fuel id) (fun _ => tx_post (upd_in id (set_activity_cnt 0) w)) w.
Proof.
  intros Hw Hf Hs. unfold send_sar_ack. wp_step. eapply assign_in_wp; [done|].
  pose proof (rx_ready_upd id (set_activity_cnt 0) w ltac:(done) ltac:(done) Hw) as [Hr _ _ _].
  wp_step. eapply deref_in_wp; [by apply find_upd_in|].
  wp_step. eapply wp_lift; [apply sar_ack_eq|].
  wp_step. eapply wp_mono; [apply ctl_send_wp; try done; [by right |]|].
  - constructor; [done|]. apply bytes_app. split; apply bytes_to_be.
  - intros ? w' Hw'. by wp_run.
Qed.

(** What follows is relative to the message [tx] on the network key [idx], and
    to what the application of its keys does with the complete message: it hands
    up [E seq], where [seq] is the sequence number of the completing packet. *)
Variables (tx : mesh_sar_msg) (idx : Z) (nfuel : nat) (K : key_store) (E : Z -> event).
Hypothesis Htx : sar_tx_ok tx.
Hypothesis Hseg : segmented tx = true.

Definition quiet_enough w : Prop := (2 * active (msg_out (w_net w)) + 2 <= nfuel)%nat.

Definition hands_up : Prop := ∀ seq w z,
  rx_ready w -> quiet_enough w -> w_keys w = K -> len (whole tx ++ z) = sar_room (segN tx) ->
  wp (msg_rxed nfuel idx (sar_iv_index tx) (szmic tx) seq (seqAuth tx) (sar_src tx)
        (u16 (sar_dst tx)) (whole tx ++ z) (1 + sar_len tx))
    (fun r w' => len (snd r) = sar_room (segN tx) /\ rx_ready w' /\ quiet_enough w' /\
       sar_in (w_net w') = sar_in (w_net w) /\ handed_up w' = handed_up w ++ [E seq]) w.
Hypothesis Hup : hands_up.

(** The state between two segments of [tx]: those of the mask [a] have arrived. *)
Record receiving (a : Z) (s : mesh_sar_msg) w : Prop := {
  recv_ready : rx_ready w;
  recv_quiet : quiet_enough w;
  recv_keys : a <> full_mask (segN tx) -> w_keys w = K;
  recv_find : find_sar (sar_id s) (sar_in (w_net w)) = Some s;
  recv_part : partial tx idx a s;
}.

Lemma receiving_upd f a s w :
  (∀ s, sar_id (f s) = sar_id s) -> (∀ s, sar_src (f s) = sar_src s) ->
  rx_ready w -> quiet_enough w -> (a <> full_mask (segN tx) -> w_keys w = K) ->
  find_sar (sar_id s) (sar_in (w_net w)) = Some s -> partial tx idx a (f s) ->
  receiving a (f s) (upd_in (sar_id s) f w).
Proof.
  intros Hi Hs Hr Hq Hk Hf Hp. split; try done.
  - by apply rx_ready_upd.
  - rewrite Hi. by apply find_upd_in.
Qed.

Lemma partial_activity a c s : partial tx idx a s -> partial tx idx a (set_activity_cnt c s).
Proof. by intros []. Qed.
Lemma partial_data d s :
  partial tx idx (full_mask (segN tx)) s -> len d = sar_room (segN tx) ->
  partial tx idx (full_mask (segN tx)) (set_sar_data d s).
Proof. by intros []. Qed.

(** The complete message goes up; the message stays, with other octets. *)
Lemma forward_wp seq s w z :
  receiving (full_mask (segN tx)) s w -> w_keys w = K -> sar_data s = whole tx ++ z ->
  sar_len s = 1 + sar_len tx ->
  wp (sar_forward nfuel false seq s) (fun _ w' => exists s', sar_id s' = sar_id s /\
    receiving (full_mask (segN tx)) s' w' /\ now (sar_id s) s' w w' /\
    handed_up w' = handed_up w ++ [E seq]) w.
Proof.
  intros [Hr Hq _ Hf Hp] Hk Hd Hl. pose proof Hp as [Hs Hds Hsa Hiv Hn Hsz Hix Ha Hroom _ _ _ _].
  unfold sar_forward. rewrite Hd, Hl, Hs, Hds, Hsa, Hiv, Hsz, Hix.
  rewrite (u16_small (u16 (sar_dst tx))) by apply u16_range.
  wp_step. eapply wp_mono; [apply Hup; try done; by rewrite <-Hd|].
  intros [r d] w' (Hdl & Hr' & Hq' & Hin & Hev). cbn [snd] in Hdl. unfold mod_net. wp_run.
  rewrite <-Hin in Hf. exists (set_sar_data d s). split; [done|]. split_and!.
  - apply (receiving_upd (set_sar_data d)); try done. by apply partial_data.
  - unfold now. rewrite <-Hin. by apply (update_const _ (set_sar_data d)).
  - done.
Qed.

Lemma receiving_sent a s w w' :
  receiving a s w -> tx_post (upd_in (sar_id s) (set_activity_cnt 0) w) w' ->
  receiving a (set_activity_cnt 0 s) w' /\ now (sar_id s) (set_activity_cnt 0 s) w w' /\
  handed_up w' = handed_up w.
Proof.
  intros [Hr Hq Hk Hf Hp] Hpost. set (w1 := upd_in _ _ w) in *.
  assert (Hr1 : rx_ready w1) by by apply rx_ready_upd.
  destruct (tx_post_rx w1 w' Hr1 Hpost) as [Hr' Hin]. destruct Hpost as [_ [Hkk _ _ _ _ _ Hm Hev]].
  pose proof (quieter_active _ _ Hm) as Hact. change (msg_out (w_net w1)) with (msg_out (w_net w)) in Hact.
  split_and!; [|unfold now; rewrite Hin; by apply (update_const _ (set_activity_cnt 0)) | done].
  split; try done.
  - unfold quiet_enough in *. lia.
  - intros Ha. rewrite Hkk. by apply Hk.
  - rewrite Hin. by apply (find_upd_in _ (set_activity_cnt 0)).
  - by apply partial_activity.
Qed.

(** The end of [seg_accept]: the activity counter and the acknowledgement. *)
Lemma tickle_wp a s w (result : bool) dst complete o old full :
  receiving a s w ->
  wp (if negb (IS_UNICAST dst) then mret result else
      _ ← assign SarIn (sar_id s) (fun s => set_activity_cnt (u8 (activity_cnt s + 1)) s);
      sar ← deref SarIn (sar_id s);
      _ ← (if ack_now complete o old (ack sar) full then send_sar_ack nfuel (sar_id s) else mret tt);
      mret result)
    (fun r w' => r = result /\ exists s', sar_id s' = sar_id s /\ receiving a s' w' /\
       now (sar_id s) s' w w' /\ handed_up w' = handed_up w) w.
Proof.
  intros Hrc. pose proof Hrc as [Hr Hq Hk Hf Hp]. destruct (negb _).
  { wp_run. split; [done|]. exists s. split_and!; try done. by eapply now_same. }
  set (f := fun s => set_activity_cnt _ s).
  wp_step. eapply assign_in_wp; [done|]. wp_step. eapply deref_in_wp; [by apply (find_upd_in _ f)|].
  set (w1 := upd_in _ f w).
  assert (Hw1 : receiving a (f s) w1) by (apply receiving_upd; try done; by apply partial_activity).
  assert (Hn1 : now (sar_id s) (f s) w w1) by by apply now_upd.
  destruct (ack_now _ _ _ _ _).
  - wp_step. eapply wp_mono; [apply (send_sar_ack_wp _ _ _ (f s)); try apply Hw1|].
    intros ? w2 Hw2. wp_run. split; [done|].
    destruct (receiving_sent a (f s) w1 w2 Hw1 Hw2) as (H1 & H2 & H3).
    exists (set_activity_cnt 0 (f s)). split_and!; try done. by eapply (now_trans _ (f s)).
  - wp_run. split; [done|]. by exists (f s).
Qed.

(** One segment of the message, in any state of the reassembly. *)
Lemma seg_accept_wp a i rest seq s w :
  receiving a s w -> 0 <= i <= segN tx -> 16 <= len (seg_trans tx i rest) ->
  let done_ := (with_seg a i =? full_mask (segN tx)) && negb (a =? full_mask (segN tx)) in
  wp (seg_accept nfuel (sar_id s) false seq (u16 (sar_dst tx)) (segN tx) i (seg_trans tx i rest)
        (4 + seg_size tx i))
    (fun _ w' => exists s', sar_id s' = sar_id s /\ receiving (with_seg a i) s' w' /\
       now (sar_id s) s' w w' /\
       handed_up w' = handed_up w ++ (if done_ then [E seq] else [])) w.
Proof.
  intros [Hr Hq Hk Hf Hp] Hi Hroom done_. unfold seg_accept. wp_step.
  apply (sar_put_wp tx i rest Htx Hseg Hi Hroom); [done | apply Hp|]. intros d m Hml Hm Hd.
  set (f := put_seg tx i (4 + seg_size tx i) d).
  assert (Hfi : ∀ s, sar_id (f s) = sar_id s) by (intros x; unfold f, put_seg; by case_goal).
  assert (Hfs : ∀ s, sar_src (f s) = sar_src s) by (intros x; unfold f, put_seg; by case_goal).
  pose proof (tx_segN tx Htx). wp_step. eapply wp_lift; [by apply full_ack_eq|].
  fold (full_mask (segN tx)).
  wp_step. eapply deref_in_wp; [by apply find_upd_in|].
  assert (Hack : ack (f s) = a).
  { transitivity (ack s); [unfold f, put_seg; by case_goal | apply Hp]. }
  rewrite Hack. fold (with_seg a i). set (a' := with_seg a i). fold a' in done_. fold done_.
  wp_step. eapply assign_in_wp; [by apply find_upd_in|]. rewrite upd_in_twice by done.
  set (g := fun s => set_ack a' (f s)).
  assert (Hw2 : receiving a' (g s) (upd_in (sar_id s) g w)).
  { apply receiving_upd; try done.
    - intros Ha. apply Hk. intros ->. apply Ha. apply with_seg_full; lia.
    - by eapply (put_partial tx i rest). }
  assert (Hn2 : now (sar_id s) (g s) w (upd_in (sar_id s) g w)) by by apply now_upd.
  assert (Hgi : sar_id (g s) = sar_id s) by apply Hfi.
  set (w2 := upd_in (sar_id s) g w) in *.
  wp_step. destruct done_ eqn:Edone.
  - unfold done_ in Edone. apply andb_true_iff in Edone as [Hfull Hne]. bool_hyps.
    wp_step. eapply deref_in_wp; [by apply find_upd_in|].
    destruct (put_complete tx i rest Htx Hseg Hi Hroom idx a s d m Hp Hne Hfull Hml Hm Hd)
      as (Hlen & z & Hz).
    rewrite Hfull in Hw2. change (set_ack a' (f s)) with (g s).
    eapply wp_mono; [apply (forward_wp seq (g s) w2 z Hw2)|].
    + by apply Hk.
    + unfold g, f, put_seg. cbn. by rewrite Hz.
    + exact Hlen.
    + rewrite Hgi. intros r w3 (s3 & Hi3 & Hw3 & Hn3 & Hev3). rewrite <-Hi3.
      eapply wp_mono; [by eapply (tickle_wp (full_mask (segN tx)) s3 w3)|].
      intros r' w4 (_ & s4 & Hi4 & Hw4 & Hn4 & Hev4).
      exists s4. rewrite Hfull. split_and!; [congruence | done | | by rewrite Hev4, Hev3].
      rewrite Hi3 in Hn4 |- *. eapply (now_trans _ (g s)); [done | done |].
      by eapply (now_trans _ s3).
  - wp_run. rewrite <-Hgi. eapply wp_mono; [by eapply (tickle_wp a' (g s) w2)|].
    intros r' w4 (_ & s4 & Hi4 & Hw4 & Hn4 & Hev4).
    exists s4. rewrite app_nil_r. split_and!; try done.
    rewrite Hgi in Hn4 |- *. by eapply (now_trans _ (g s)).
Qed.

(** *** The message in the list *)

Hypothesis Hsrc : 0 <= sar_src tx < 0x10000.

Lemma find_by_src l s :
  NoDup (sar_src <$> l) -> s ∈ l -> sar_src s = sar_src tx ->
  find_first (match_sar_src (sar_src tx)) l = Some s.
Proof.
  intros Hnd Hin Hs. unfold find_first, match_sar_src. rewrite u16_small by done.
  induction l as [|x l IH]; [by apply elem_of_nil in Hin|]. rewrite fmap_cons, NoDup_cons in Hnd.
  destruct Hnd as [Hx Hnd]. simpl. apply elem_of_cons in Hin as [-> | Hin].
  - by rewrite Hs, Z.eqb_refl.
  - destruct (Z.eqb_spec (sar_src x) (sar_src tx)) as [He |]; [|by apply IH].
    exfalso. apply Hx. rewrite He, <-Hs. by apply list_elem_of_fmap_2.
Qed.

Lemma reuse_wp a s w :
  receiving a s w ->
  wp (sar_reuse (sar_src tx) (sar_iv_index tx) (seqAuth tx) (segN tx))
    (fun r w' => r = (true, Some (sar_id s)) /\ w' = w) w.
Proof.
  intros [Hr _ _ Hf Hp]. unfold sar_reuse, net_of, find_sar_in_by_src. wp_run.
  rewrite (find_by_src _ s); [|by apply Hr | by apply find_sar_in in Hf as [? _] | by apply Hp].
  rewrite (part_iv _ _ _ _ Hp), (part_seq _ _ _ _ Hp), (part_segN _ _ _ _ Hp), Z.ltb_irrefl, Z.eqb_refl.
  by wp_run.
Qed.

Lemma no_reuse_wp w :
  Forall (fun s => sar_src s <> sar_src tx) (sar_in (w_net w)) ->
  wp (sar_reuse (sar_src tx) (sar_iv_index tx) (seqAuth tx) (segN tx))
    (fun r w' => r = (true, None) /\ w' = w) w.
Proof.
  intros Hn. unfold sar_reuse, net_of, find_sar_in_by_src. wp_run.
  destruct (find_first _ _) as [x|] eqn:E1; [|by wp_run]. exfalso.
  apply find_first_some in E1 as [Hin Hm]. rewrite Forall_forall in Hn.
  unfold match_sar_src in Hm. rewrite u16_small in Hm by done. bool_hyps. by apply (Hn x).
Qed.

(** A fresh message, with its timers. *)
Lemma rx_ready_next f w :
  (∀ w, w_net (f w) = w_net w /\ w_keys (f w) = w_keys w /\ w_nodes (f w) = w_nodes w /\
     w_sync (f w) = w_sync w /\ w_next w <= w_next (f w)) ->
  rx_ready w -> rx_ready (f w).
Proof.
  intros Hf [[[] Hn Hv Ht] H1 H2 H3]. destruct (Hf w) as (Hnet & Hk & Hnn & Hy & Hx).
  split; [|by rewrite Hnet..|].
  - split; rewrite ?Hnn, ?Hk, ?Hnet; try done. split; rewrite ?Hnet, ?Hk, ?Hy; try done.
    eapply Forall_impl; [eassumption|]. cbn. lia.
  - rewrite Hnet. eapply Forall_impl; [exact H3|]. cbn. lia.
Qed.

Definition add_timer w : world N := bump (with_timers (fun l => w_next w :: l) w).

Lemma rx_ready_append s w :
  rx_ready w -> sar_id s = w_next w -> sar_src s ∉ sar_src <$> sar_in (w_net w) ->
  rx_ready (on_net (fun n => set_sar_in (sar_in n ++ [s]) n) (bump w)).
Proof.
  intros Hr Hid Hs. pose proof (rx_ready_next bump w) as Hb.
  destruct Hb as [Ht H1 H2 H3]; [|done|]; [intros w0; split_and!; try done; simpl; lia|].
  destruct Hr as [_ H1' H2' H3']. cbn [bump w_net w_next] in *. split; cbn -[fmap].
  - apply (tx_ready_in (sar_in (w_net w) ++ [s]) (bump w) Ht).
  - apply NoDup_snoc_elem; [done|]. rewrite Hid. intros (x & Hx & Hin)%list_elem_of_fmap.
    rewrite Forall_forall in H3'. specialize (H3' x Hin). simpl in *. lia.
  - by apply NoDup_snoc_elem.
  - apply Forall_app. split; [done|]. constructor; [lia | done].
Qed.

Lemma timer_wp a s w (f : Z -> mesh_sar_msg -> mesh_sar_msg) :
  (∀ t s, sar_id (f t s) = sar_id s) -> (∀ t s, sar_src (f t s) = sar_src s) ->
  (∀ t s, partial tx idx a s -> partial tx idx a (f t s)) ->
  receiving a s w ->
  wp (t ← timeout_add; assign SarIn (sar_id s) (f t))
    (fun _ w' => exists s', sar_id s' = sar_id s /\ receiving a s' w' /\
       handed_up w' = handed_up w) w.
Proof.
  intros Hi Hs Hp [Hr Hq Hk Hf Hpt]. wp_step. unfold timeout_add, wp at 1. cbn beta iota.
  change (bump (with_timers (λ l, w_next w :: l) w)) with (add_timer w).
  eapply assign_in_wp; [exact Hf|]. exists (f (w_next w) s). split; [done|]. split; [|done].
  apply (receiving_upd (f (w_next w))); try done; [|by apply Hp].
  apply rx_ready_next; [|done]. intros w0. split_and!; try done. simpl. lia.
Qed.

Lemma sar_new_wp ttl dst w :
  rx_ready w -> quiet_enough w -> w_keys w = K ->
  Forall (fun s => sar_src s <> sar_src tx) (sar_in (w_net w)) -> dst = u16 (sar_dst tx) ->
  wp (sar_new idx (sar_iv_index tx) false ttl (seqAuth tx) (sar_src tx) dst (segN tx) (szmic tx)
        (sar_akf_aid tx + 0x80))
    (fun id w' => exists s, id = sar_id s /\ receiving 0 s w' /\ handed_up w' = handed_up w) w.
Proof.
  intros Hr Hq Hk Hn Hd. unfold sar_new. wp_step. unfold fresh, wp at 1. cbn beta iota.
  set (s0 := Sar _ _ _ _ _ _ _ _ _ _ _ _ _ _ _ _ _ _ _). set (id := w_next w) in *.
  unfold mod_net. wp_run.
  set (w1 := on_net _ (bump w)).
  pose proof (tx_segN tx Htx) as HN. pose proof (tx_aid tx Htx) as Haid.
  assert (Hsn : sar_src s0 ∉ sar_src <$> sar_in (w_net w)).
  { intros (x & Hx & Hin)%list_elem_of_fmap. rewrite Forall_forall in Hn. by apply (Hn x). }
  assert (Hw1 : receiving 0 s0 w1).
  { split; try done.
    - by apply rx_ready_append.
    - change (find_sar id (sar_in (w_net w) ++ [s0]) = Some s0). unfold find_sar.
      rewrite find_first_app. destruct (find_first _ (sar_in (w_net w))) as [x|] eqn:Ex.
      + apply find_sar_in in Ex as [Hin Hx]. pose proof (rx_fresh w Hr) as Hfr.
        rewrite Forall_forall in Hfr. specialize (Hfr x Hin). simpl in Hfr. unfold id in Hx. lia.
      + unfold find_first. simpl. by rewrite Z.eqb_refl.
    - split; try done.
      + unfold s0. cbn [sar_data]. rewrite len_cons, len_rep; unfold sar_room; lia.
      + unfold full_mask. pose proof (Z.pow_pos_nonneg 2 (segN tx + 1)). lia.
      + intros _. unfold s0. cbn [sar_data lookup list_lookup]. f_equal. rewrite land_7f. zlia.
      + intros _ j _. by rewrite Z.bits_0.
      + intros _. by rewrite Z.bits_0. }
  assert (Hw2 : wp (if IS_UNICAST dst then t ← timeout_add; assign SarIn id (set_ack_to t) else mret tt)
    (fun _ w' => exists s', sar_id s' = id /\ receiving 0 s' w' /\ handed_up w' = handed_up w) w1).
  { destruct (IS_UNICAST dst); [|wp_run; by exists s0].
    eapply wp_mono; [apply (timer_wp 0 s0 w1 set_ack_to); try done|]; [by intros t s1 []|].
    intros ? w2 (s2 & H1 & H2 & H3). by exists s2. }
  eapply wp_mono; [exact Hw2|]. intros ? w2 (s2 & H1 & H2 & H3).
  pose proof (timer_wp 0 s2 w2 set_msg_to ltac:(done) ltac:(done) ltac:(by intros t s1 []) H2) as Ht.
  rewrite H1 in Ht.
  unfold wp, mbind, st_bind, timeout_add in Ht |- *.
  destruct (assign _ _ _ _) as [[[] w3] |]; [|done].
  destruct Ht as (s3 & H4 & H5 & H6). exists s3. split_and!; [done | done | congruence].
Qed.

(** ** Segments in any order *)

(** Before the first segment, or with those of [a]. *)
Definition rx_state (a : Z) w : Prop :=
  (a = 0 /\ rx_ready w /\ quiet_enough w /\ w_keys w = K /\
     Forall (fun s => sar_src s <> sar_src tx) (sar_in (w_net w))) \/
  (exists s, receiving a s w).

(** An arriving segment: its number, the sequence number and TTL of its packet,
    and what follows it in the receive buffer. *)
Record arrival := Arrival { arr_seg : Z; arr_seq : Z; arr_ttl : Z; arr_rest : list Z }.

Definition arrival_ok (x : arrival) : Prop :=
  0 <= arr_seg x <= segN tx /\ 0 <= arr_seq x /\
  arr_seq x / 0x2000 = seqAuth tx / 0x2000 /\ 16 <= len (seg_trans tx (arr_seg x) (arr_rest x)).

Definition receive (x : arrival) : @M N unit :=
  _ ← seg_rxed nfuel idx (sar_iv_index tx) false (arr_ttl x) (arr_seq x) (sar_src tx)
        (u16 (sar_dst tx)) (seg_trans tx (arr_seg x) (arr_rest x)) (4 + seg_size tx (arr_seg x));
  mret tt.

Lemma receive_wp a x w :
  rx_state a w -> arrival_ok x ->
  wp (receive x) (fun _ w' => rx_state (with_seg a (arr_seg x)) w' /\
    handed_up w' = handed_up w ++
      (if (with_seg a (arr_seg x) =? full_mask (segN tx)) && negb (a =? full_mask (segN tx))
       then [E (arr_seq x)] else [])) w.
Proof.
  intros Hst (Hi & Hq0 & Hblk & Hroom). unfold receive, seg_rxed.
  destruct (seg_trans_fields tx (arr_seg x) (arr_rest x) Htx Hseg Hi) as (F1 & F2 & F3 & F4 & F5).
  wp_step. wp_step. eapply wp_lift.
  { rewrite (calc_seqAuth_eq _ _ _ Hq0 F1) by zlia. rewrite Hblk.
    replace (seqAuth tx / 8192 * 8192 + seqAuth tx mod 8192) with (seqAuth tx) by zlia. reflexivity. }
  wp_step. eapply wp_lift; [exact F3|]. wp_step. eapply wp_lift; [exact F2|].
  assert (Hrest : ∀ s w1, receiving a s w1 -> handed_up w1 = handed_up w ->
    wp (seg_accept nfuel (sar_id s) false (arr_seq x) (u16 (sar_dst tx)) (segN tx) (arr_seg x)
          (seg_trans tx (arr_seg x) (arr_rest x)) (4 + seg_size tx (arr_seg x)))
      (fun _ => wp (mret tt) (fun _ w' => rx_state (with_seg a (arr_seg x)) w' /\
        handed_up w' = handed_up w ++
          (if (with_seg a (arr_seg x) =? full_mask (segN tx)) && negb (a =? full_mask (segN tx))
           then [E (arr_seq x)] else []))) w1).
  { intros s w1 Hw1 Hh. eapply wp_mono; [by apply (seg_accept_wp a)|].
    intros r w2 (s2 & _ & Hw2 & _ & Hh2). wp_run. split; [right; by exists s2 | congruence]. }
  destruct Hst as [(-> & Hr & Hq & Hk & Hn) | [s Hs]].
  - wp_step. eapply wp_mono; [by apply no_reuse_wp|]. intros ? ? [-> ->].
    wp_step. wp_step. eapply wp_lift; [exact F4|]. wp_step. eapply wp_lift; [exact F5|].
    eapply wp_mono; [by apply sar_new_wp|]. intros id w1 (s & -> & Hs & Hh). by apply Hrest.
  - wp_step. eapply wp_mono; [by apply (reuse_wp a s)|]. intros ? ? [-> ->]. wp_step. apply wp_ret. by apply Hrest.
Qed.

Definition mask_of (a : Z) (xs : list arrival) : Z := fold_left with_seg (arr_seg <$> xs) a.

Lemma mask_of_bit a xs k :
  0 <= k -> Forall (fun x => 0 <= arr_seg x < 32) xs ->
  Z.testbit (mask_of a xs) k = Z.testbit a k || bool_decide (k ∈ arr_seg <$> xs).
Proof.
  intros Hk. revert a. induction xs as [|x xs IH]; intros a Hx.
  - cbn. by rewrite orb_false_r.
  - apply Forall_cons in Hx as [Hx Hxs]. change (mask_of a (x :: xs)) with (mask_of (with_seg a (arr_seg x)) xs).
    rewrite IH, with_seg_bit, fmap_cons by done. rewrite <-orb_assoc. f_equal.
    destruct (Z.eqb_spec (arr_seg x) k) as [<- | Hne]; cbn [orb].
    + symmetry. apply bool_decide_eq_true_2. left.
    + apply bool_decide_ext. rewrite elem_of_cons. split; [by right | by intros [-> |]].
Qed.

Lemma mask_of_full xs a :
  Forall arrival_ok xs -> a = full_mask (segN tx) -> mask_of a xs = full_mask (segN tx).
Proof.
  pose proof (tx_segN tx Htx). revert a. induction xs as [|x xs IH]; intros a Hx Ha; [done|].
  apply Forall_cons in Hx as [(Hi & _) Hxs]. apply (IH (with_seg a (arr_seg x))); [done|].
  rewrite Ha. apply with_seg_full; lia.
Qed.

Lemma receive_all_wp xs a w :
  rx_state a w -> Forall arrival_ok xs ->
  wp (mapM_ receive xs) (fun _ w' => rx_state (mask_of a xs) w' /\ exists up,
    handed_up w' = handed_up w ++ up /\
    if (mask_of a xs =? full_mask (segN tx)) && negb (a =? full_mask (segN tx))
    then exists x, x ∈ xs /\ up = [E (arr_seq x)] else up = []) w.
Proof.
  revert a w. induction xs as [|x xs IH]; intros a w Hst Hx.
  - apply wp_ret. split; [done|]. exists []. rewrite app_nil_r. split; [done|].
    cbn. by destruct (a =? full_mask (segN tx)).
  - apply Forall_cons in Hx as [Hx Hxs]. cbn [mapM_]. wp_step.
    eapply wp_mono; [by apply receive_wp|]. intros ? w1 [Hst1 Hh1].
    eapply wp_mono; [by apply IH|]. intros ? w2 (Hst2 & up & Hh2 & Hup2). split; [done|].
    change (mask_of a (x :: xs)) with (mask_of (with_seg a (arr_seg x)) xs).
    eexists. rewrite Hh2, Hh1, <-app_assoc. split; [done|].
    pose proof (mask_of_full xs (with_seg a (arr_seg x)) Hxs) as Hmf.
    destruct (Z.eqb_spec (with_seg a (arr_seg x)) (full_mask (segN tx))) as [Hf | Hf].
    + rewrite Hmf, Z.eqb_refl by done. cbn [andb].
      rewrite Hmf, Z.eqb_refl in Hup2 by done. cbn [andb negb] in Hup2. subst up. rewrite app_nil_r.
      destruct (negb (a =? full_mask (segN tx))); [|done]. exists x. split; [left | done].
    + cbn [andb app]. cbn [negb] in Hup2.
      assert (Ha : (a =? full_mask (segN tx)) = false).
      { apply Z.eqb_neq. intros ->. apply Hf. destruct Hx as (Hi & _).
        pose proof (tx_segN tx Htx). apply with_seg_full; lia. }
      rewrite Ha. rewrite andb_true_r in Hup2. cbn [negb]. rewrite andb_true_r.
      destruct (mask_of (with_seg a (arr_seg x)) xs =? full_mask (segN tx)); [|by rewrite Hup2].
      destruct Hup2 as (y & Hy & ->). exists y. split; [by right | done].
Qed.
End Step.

(** ** Opening access messages *)

Section Open.
Context {A : Alg} {AO : AlgOk A} {AT : AlgTotal A}.

(** The key that fits the identifier [aid], with its octets. *)
Definition opens (k : mesh_app_key) (aid : Z) (key : list Z) : Prop :=
  (akf_aid (ak_current k) = aid /\ ak_key (ak_current k) = key) \/
  (akf_aid (ak_current k) <> aid /\ akf_aid (ak_new k) = aid /\ ak_key (ak_new k) = key).

(** A key that is passed over. *)
Definition passed_over (idx aid : Z) (k : mesh_app_key) : Prop :=
  ak_net_idx k <> idx \/ (akf_aid (ak_current k) <> aid /\ akf_aid (ak_new k) <> aid).

Definition aad_opt_ok (aad : option (list Z)) : Prop :=
  match aad with Some l => len l = 16 | None => True end.

Lemma access_ccm_sealed key nonce aad msg (sz : bool) z :
  len key = 16 -> len nonce = 13 -> aad_opt_ok aad -> 1 <= len msg < 0x1000 ->
  let mic := if sz then 8 else 4 in
  access_ccm nonce key aad sz (sealed_msg key nonce (default [] aad) msg mic ++ z) (len msg + mic)
    (rep (len msg + mic) 0) = Ok (true, msg ++ rep mic 0).
Proof.
  intros Hk Hn Ha Hm mic. unfold access_ccm. fold mic.
  replace (rep (len msg + mic) 0) with (rep (len msg) 0 ++ rep mic 0).
  2: { unfold rep. rewrite <-replicate_add. f_equal. unfold mic, len. destruct sz; lia. }
  replace (match aad with Some _ => 16 | None => 0 end) with (len (default [] aad))
    by (destruct aad; [by rewrite <-Ha | done]).
  pose proof (ccm_unseal key Hk nonce (default [] aad) msg mic (rep (len msg) 0) (rep mic 0) z Hn) as Hx.
  assert (Hmic : ccm_size_ok mic) by (unfold mic; destruct sz; [by right | by left]).
  assert (4 <= mic <= 8) by (unfold mic; destruct sz; lia).
  cbn zeta in Hx. rewrite Hx; [done | | lia | lia | done | | rewrite len_rep; lia].
  - destruct aad; [right; cbn; cbn in Ha; lia | by left].
  - pose proof (len_rep (len msg) 0). unfold len in *. lia.
Qed.

Lemma try_decrypt_skip nonce aad idx aid sz t l k st :
  passed_over idx aid k -> try_decrypt nonce aad idx aid sz t l k st = Ok st.
Proof.
  intros Hk. destruct st as [i out]. unfold try_decrypt. destruct (Z.eqb_spec i APP_IDX_INVALID) as [-> |]; [|done].
  cbn [negb]. destruct (Z.eqb_spec (ak_net_idx k) idx) as [He |]; [|done]. cbn [negb].
  destruct Hk as [? | [H1 H2]]; [done|].
  rewrite (proj2 (Z.eqb_neq _ _) H1). cbn [mbind res_bind mret res_ret negb andb].
  by rewrite (proj2 (Z.eqb_neq _ _) H2).
Qed.

Lemma try_decrypt_done nonce aad idx aid sz t l ks st :
  st.1 <> APP_IDX_INVALID -> foldM (try_decrypt nonce aad idx aid sz t l) ks st = Ok st.
Proof.
  intros Hst. destruct st as [i out]. cbn [fst] in Hst. induction ks as [|k ks IH]; [done|]. cbn [foldM].
  unfold try_decrypt at 2. rewrite (proj2 (Z.eqb_neq _ _) Hst). exact IH.
Qed.

(** The first key that fits opens the message, in place. *)
Lemma access_pkt_decrypt_eq ks1 k ks2 key nonce aad idx aid (sz : bool) msg z :
  len key = 16 -> len nonce = 13 -> aad_opt_ok aad -> 1 <= len msg < 0x1000 ->
  Forall (passed_over idx aid) ks1 -> ak_net_idx k = idx -> opens k aid key ->
  ak_idx k <> APP_IDX_INVALID ->
  let mic := if sz then 8 else 4 in
  access_pkt_decrypt (ks1 ++ k :: ks2) nonce aad idx aid sz
    (sealed_msg key nonce (default [] aad) msg mic ++ z) (len msg + mic) =
  Ok (ak_idx k, msg ++ rep mic 0 ++ z).
Proof.
  intros Hk Hn Ha Hm Hks Hi Ho Hinv mic. unfold access_pkt_decrypt.
  assert (4 <= mic <= 8) by (unfold mic; destruct sz; lia).
  rewrite (proj2 (Z.eqb_neq (len msg + mic) 0)) by lia.
  pose proof (access_ccm_sealed key nonce aad msg sz z Hk Hn Ha Hm) as Hc. cbn zeta in Hc. fold mic in Hc.
  set (st0 := (APP_IDX_INVALID, rep (len msg + mic) 0)).
  assert (Hf : foldM (try_decrypt nonce aad idx aid sz
      (sealed_msg key nonce (default [] aad) msg mic ++ z) (len msg + mic)) (ks1 ++ k :: ks2) st0 =
    Ok (ak_idx k, msg ++ rep mic 0)).
  { clear Hm. induction Hks as [|k1 ks1 Hk1 _ IH]; cbn [app foldM].
    - unfold try_decrypt at 2, st0. rewrite Hi, Z.eqb_refl.
      change (APP_IDX_INVALID =? APP_IDX_INVALID) with true. cbn [negb].
      assert (Hlast : ∀ st, st.1 = ak_idx k -> foldM (try_decrypt nonce aad idx aid sz
        (sealed_msg key nonce (default [] aad) msg mic ++ z) (len msg + mic)) ks2 st = Ok st)
        by (intros st Hst; apply try_decrypt_done; congruence).
      destruct Ho as [[-> ->] | (Hne & -> & ->)].
      + rewrite !Z.eqb_refl, Hc. cbn [mbind res_bind mret res_ret negb andb]. by rewrite Hlast.
      + rewrite (proj2 (Z.eqb_neq _ _) Hne). cbn [mbind res_bind mret res_ret negb andb].
        rewrite !Z.eqb_refl, Hc. cbn [mbind res_bind mret res_ret negb]. by rewrite Hlast.
    - rewrite try_decrypt_skip by done. exact IH. }
  rewrite Hf. cbn [mbind res_bind]. rewrite (proj2 (Z.eqb_neq _ _) Hinv). cbn [negb].
  rewrite wr_range_begin.
  - cbn [mbind res_bind mret res_ret]. by rewrite <-app_assoc.
  - pose proof (sealed_msg_len key Hk nonce (default [] aad) msg mic Hn ltac:(lia)
      ltac:(unfold mic; destruct sz; [by right | by left])).
    pose proof (len_rep mic 0 ltac:(lia)). pose proof (len_app msg (rep mic 0)). unfold len in *. lia.
Qed.
End Open.

(** ** What the network layer relies on above it *)

(** The node layer returns, keeps the state well formed and the messages in
    progress as they are, and takes delivery of exactly the message. *)
Class DataHandlerOk (N : Type) {NI : NodeIface N} (DH : DataHandler N) {A : Alg} : Prop :=
  handler_ok : ∀ fuel src dst iv seq app_idx data l (w : world N),
    rx_ready w -> (2 * active (msg_out (w_net w)) + 2 <= fuel)%nat -> 0 <= l <= len data ->
    wp (node_local_data_handler fuel src dst iv seq app_idx data l)
      (fun _ w' => rx_ready w' /\ (2 * active (msg_out (w_net w')) + 2 <= fuel)%nat /\
         sar_in (w_net w') = sar_in (w_net w) /\
         handed_up w' = handed_up w ++
           [Delivered src dst iv seq app_idx (take (Z.to_nat l) data)]) w.

(** A handler that notes what it is given. *)
Definition noting {N : Type} : DataHandler N := fun _ src dst iv seq app_idx data l =>
  emit (Delivered src dst iv seq app_idx (take (Z.to_nat l) data)).

Lemma rx_ready_out {N : Type} {NI : NodeIface N} {A : Alg} e (w : world N) :
  rx_ready w -> rx_ready (with_out e w).
Proof. intros [[[] ? ? ?] ? ? ?]. by split; [split; [split|..]|..]. Qed.

#[export] Instance noting_ok (N : Type) (NI : NodeIface N) (A : Alg) : DataHandlerOk N noting.
Proof.
  intros fuel src dst iv seq i d l w Hw Hf Hl. unfold node_local_data_handler, noting, emit. wp_run.
  split_and!; try done; [by apply rx_ready_out|].
  unfold handed_up. cbn [w_out with_out]. by rewrite filter_app, filter_cons_True, filter_nil by done.
Qed.

(** ** From the sender's message to the receiver's handler *)

Section Deliver.
Context {N : Type} {NI : NodeIface N} {DH : DataHandler N} {A : Alg} {AO : AlgOk A} {AT : AlgTotal A}
  {DHO : DataHandlerOk N DH}.

(** [tx] holds the message [buf] secured with an application key. *)
Record sealed_with (key buf : list Z) (tx : mesh_sar_msg) : Prop := {
  seal_key : len key = 16;
  seal_len : 1 <= len buf <= 255;
  seal_sar : sar_len tx = len buf + 4;
  seal_aid : Z.land (sar_akf_aid tx) AKF_BIT = AKF_BIT;
  seal_szmic : szmic tx = false;
  seal_dst : IS_VIRTUAL (u16 (sar_dst tx)) = false;
  seal_data : exists z, sar_data tx = sealed_msg key (sar_nonce tx) [] buf 4 ++ z;
}.

(** The first key of [K] on the network key [idx] that fits is [k]. *)
Definition fits (K : key_store) (idx aid : Z) (key : list Z) (k : mesh_app_key) : Prop :=
  ak_net_idx k = idx /\ opens k aid key /\ ak_idx k <> APP_IDX_INVALID /\
  exists ks1 ks2, app_keys K = ks1 ++ k :: ks2 /\ Forall (passed_over idx aid) ks1.

Lemma sealed_prefix key buf tx :
  sar_tx_ok tx -> sealed_with key buf tx ->
  take (Z.to_nat (sar_len tx)) (sar_data tx) = sealed_msg key (sar_nonce tx) [] buf 4.
Proof.
  intros Htx [Hk Hl Hs _ _ _ (z & Hd)]. rewrite Hd. apply take_app_length'. apply Nat2Z.inj.
  symmetry. change (len (sealed_msg key (sar_nonce tx) [] buf 4) = Z.of_nat (Z.to_nat (sar_len tx))).
  rewrite sealed_msg_len; [lia | done | unfold sar_nonce; by case_goal | lia | by left].
Qed.

Lemma sealed_hands_up K idx nfuel key buf k tx :
  sar_tx_ok tx -> sealed_with key buf tx -> fits K idx (sar_akf_aid tx) key k ->
  hands_up (N := N) tx idx nfuel K (fun seq =>
    Delivered (sar_src tx) (u16 (sar_dst tx)) (sar_iv_index tx) seq (ak_idx k) buf).
Proof.
  intros Htx Hsl (Hi & Ho & Hinv & ks1 & ks2 & HK & Hks) seq w z Hw Hq Hk Hroom.
  pose proof (sealed_prefix _ _ _ Htx Hsl) as Hpre. unfold whole in *. rewrite Hpre in *.
  destruct Hsl as [Hkey Hbuf Hlen Haid Hsz Hdst _]. pose proof (tx_aid tx Htx).
  unfold msg_rxed. set (sent := sealed_msg _ _ _ _ _) in *. cbn [app] in *.
  assert (Hb : Z.land (sar_akf_aid tx) 0x80 = 0).
  { change 128 with (Z.shiftl 1 7). apply land_shiftl_0; lia. }
  assert (Hlow : Z.land (sar_akf_aid tx) 0x7f = sar_akf_aid tx) by (rewrite land_7f; zlia).
  unfold TRANS_AKF_AID, TRANS_AKF, TRANS_PAYLOAD, TRANS_LEN, TRANS_SEGMENTED.
  change (rd (sar_akf_aid tx :: sent ++ z) 0) with (Ok (sar_akf_aid tx)).
  cbn [mbind res_bind mret res_ret]. rewrite Hb, Hlow, Haid. change (truth 0) with false.
  change (truth AKF_BIT) with true. cbn [mbind res_bind mret res_ret].
  wp_step. eapply wp_lift; [done|]. wp_step. eapply wp_lift; [done|].
  wp_step. eapply wp_lift; [done|]. wp_step. eapply wp_lift; [done|]. cbn [negb].
  change (drop (Z.to_nat 1) (sar_akf_aid tx :: sent ++ z)) with (sent ++ z).
  change (take (Z.to_nat 1) (sar_akf_aid tx :: sent ++ z)) with [sar_akf_aid tx].
  rewrite Hdst, Hsz, Hlen. replace (1 + (len buf + 4) - 1) with (len buf + 4) by lia.
  rewrite (u16_small (len buf + 4)) by lia. wp_step. unfold access_rxed. wp_step. wp_step. rewrite Hk, HK.
  assert (Hnonce : mesh_crypto_application_nonce (seqAuth tx) (sar_src tx) (u16 (sar_dst tx))
    (sar_iv_index tx) false = sar_nonce tx).
  { unfold sar_nonce. rewrite (proj2 (truth_true (sar_akf_aid tx))); [done|].
    intros H0. rewrite H0 in Haid. done. }
  rewrite Hnonce. wp_step. eapply wp_lift.
  { apply (access_pkt_decrypt_eq ks1 k ks2 key (sar_nonce tx) None idx (sar_akf_aid tx) false buf z);
      try done; [unfold sar_nonce; by case_goal | lia]. }
  cbn beta iota. rewrite (proj2 (Z.eqb_neq _ _) Hinv). cbn [negb]. unfold mic_size_of.
  replace (len buf + 4 - 4) with (len buf) by lia. rewrite (u16_small (len buf)) by lia.
  wp_step. eapply wp_mono; [apply handler_ok; try done; rewrite len_app; pose proof (len_nonneg (rep 4 0 ++ z)); lia|].
  intros ? w' (Hw' & Hq' & Hin & Hup). wp_run. cbn [snd]. split_and!; try done.
  - rewrite <-Hroom. rewrite !len_cons, !len_app.
    pose proof (sealed_msg_len key Hkey (sar_nonce tx) [] buf 4 ltac:(unfold sar_nonce; by case_goal)
      ltac:(lia) ltac:(by left)) as Hsl. fold sent in Hsl. rewrite Hsl.
    change (len [sar_akf_aid tx]) with 1. change (len (rep 4 0)) with 4. lia.
  - rewrite Hup. do 3 f_equal. apply take_app_length'. unfold len. lia.
Qed.
End Deliver.

(** ** Theorems *)

Lemma mask_covers tx xs :
  sar_tx_ok tx -> Forall (arrival_ok tx) xs ->
  (mask_of 0 xs =? full_mask (segN tx)) =
  bool_decide (Forall (fun i => i ∈ arr_seg <$> xs) (seqZ 0 (segN tx + 1))).
Proof.
  intros Htx Hx. pose proof (tx_segN tx Htx) as HN.
  assert (H32 : Forall (fun x => 0 <= arr_seg x < 32) xs).
  { eapply Forall_impl; [exact Hx|]. intros x [Hi _]. lia. }
  assert (Hrange : ∀ ys a, Forall (arrival_ok tx) ys -> 0 <= a <= full_mask (segN tx) ->
    0 <= mask_of a ys <= full_mask (segN tx)).
  { induction ys as [|y ys IH]; intros a Hy Ha; [done|]. apply Forall_cons in Hy as [[Hi _] Hys].
    apply (IH (with_seg a (arr_seg y))); [done|]. apply with_seg_range; lia. }
  pose proof (Z.pow_pos_nonneg 2 (segN tx + 1)).
  apply eq_bool_prop_intro. rewrite Is_true_true, Z.eqb_eq, bool_decide_spec, Forall_forall. split.
  - intros Hf i Hi. apply elem_of_seqZ in Hi.
    pose proof (mask_of_bit 0 xs i ltac:(lia) H32) as Hb.
    rewrite Hf, full_mask_bit, Z.bits_0, (proj2 (Z.leb_le i _)) in Hb by lia.
    symmetry in Hb. by apply bool_decide_eq_true in Hb.
  - intros Hall. apply mask_full; [lia | apply Hrange; [done | unfold full_mask; lia] |].
    intros i Hi. rewrite mask_of_bit, Z.bits_0 by (done || lia). cbn [orb].
    apply bool_decide_eq_true_2, Hall, elem_of_seqZ. lia.
Qed.

(** C1: reassembly delivers exactly the message that was sent, exactly once.  The
    lower transport PDUs that [send_seg] makes of a segmented message secured
    with an application key, received in any order, any number of times each,
    with any octets behind them in the receive buffer, from a well-formed state
    with no message of the same source in progress: as long as one is missing
    nothing is handed up; if all arrive, the payload is handed up once, with the
    source, destination and IV index of the message and the index of the key. *)
Theorem reassembly_delivers_once (N : Type) (NI : NodeIface N) (DH : DataHandler N) (A : Alg)
    (AO : AlgOk A) (AT : AlgTotal A) (DHO : DataHandlerOk N DH) tx idx fuel key buf k xs
    (w : world N) :
  rx_ready w -> (2 * active (msg_out (w_net w)) + 2 <= fuel)%nat ->
  Forall (fun s => sar_src s <> sar_src tx) (sar_in (w_net w)) ->
  sar_tx_ok tx -> segmented tx = true -> sealed_with key buf tx ->
  fits (w_keys w) idx (sar_akf_aid tx) key k -> 0 <= sar_src tx < 0x10000 ->
  Forall (arrival_ok tx) xs ->
  exists w' up, mapM_ (receive tx idx fuel) xs w = Ok (tt, w') /\ rx_ready w' /\
    handed_up w' = handed_up w ++ up /\
    if bool_decide (Forall (fun i => i ∈ arr_seg <$> xs) (seqZ 0 (segN tx + 1)))
    then exists x, x ∈ xs /\
      up = [Delivered (sar_src tx) (u16 (sar_dst tx)) (sar_iv_index tx) (arr_seq x) (ak_idx k) buf]
    else up = [].
Proof.
  intros Hw Hf Hn Htx Hseg Hsl Hfit Hsrc Hx.
  pose proof (sealed_hands_up (w_keys w) idx fuel key buf k tx Htx Hsl Hfit) as Hup.
  destruct (proj1 (wp_ok _ _ _) (receive_all_wp tx idx fuel (w_keys w) _ Htx Hseg Hup Hsrc xs 0 w
    ltac:(by left) Hx)) as ([] & w' & Hr & Hst & up & Hh & Hc).
  exists w', up. split_and!; [done | | done |].
  - destruct Hst as [(_ & H & _) | (s & [H _ _ _ _])]; exact H.
  - rewrite mask_covers in Hc by done.
    replace (0 =? full_mask (segN tx)) with false in Hc; [by rewrite andb_true_r in Hc|].
    symmetry. apply Z.eqb_neq. unfold full_mask. pose proof (tx_segN tx Htx).
    pose proof (Z.pow_le_mono_r 2 1 (segN tx + 1)). lia.
Qed.

(** The application key of the demonstration network, and a message under it. *)
Definition demo_app_key : mesh_app_key :=
  AppKey 1 0 (app_parts_of (A := toy_alg) (rep 16 2)) (AppKeyParts [] 0xff).
Definition demo_tx0 : mesh_sar_msg :=
  Sar 9 0 0 5 100 0 0x77 0x100 0 34 (akf_aid (ak_current demo_app_key)) 7 2 0 false true false false
    (rep 46 0).
Definition demo_tx : mesh_sar_msg :=
  match sar_encrypt (A := toy_alg) demo_tx0 (rep 16 2) [] (rep 30 4) with
  | Ok s => s | Fault _ => demo_tx0 end.
Definition demo_arrivals : list arrival :=
  (fun p => Arrival p.1 p.2 5 (rep 12 0xee)) <$> [(2, 102); (0, 100); (2, 105); (1, 106)].

Lemma demo_rx_ready : rx_ready (A := toy_alg) demo_world.
Proof. split; [apply demo_ready | constructor..]. Qed.

Lemma demo_tx_ok : sar_tx_ok demo_tx.
Proof. split; vm_compute; first [done | by split]. Qed.

Lemma demo_sealed : sealed_with (A := toy_alg) (rep 16 2) (rep 30 4) demo_tx.
Proof. split; try by vm_compute. exists (rep 12 0). by vm_compute. Qed.

Lemma demo_fits :
  fits (w_keys demo_world) 0 (sar_akf_aid demo_tx) (rep 16 2) demo_app_key.
Proof.
  split_and!; [done | left; by vm_compute | done |]. exists [], []. split; [by vm_compute | constructor].
Qed.

Lemma reassembly_delivers_once_witness :
  exists w' up, mapM_ (receive (DH := noting) (A := toy_alg) demo_tx 0 2) demo_arrivals demo_world =
      Ok (tt, w') /\
    rx_ready (A := toy_alg) w' /\ handed_up w' = handed_up demo_world ++ up /\
    if bool_decide (Forall (fun i => i ∈ arr_seg <$> demo_arrivals) (seqZ 0 (segN demo_tx + 1)))
    then exists x, x ∈ demo_arrivals /\
      up = [Delivered (sar_src demo_tx) (u16 (sar_dst demo_tx)) (sar_iv_index demo_tx) (arr_seq x)
              (ak_idx demo_app_key) (rep 30 4)]
    else up = [].
Proof.
  apply (reassembly_delivers_once node_view _ noting toy_alg _ _ _ demo_tx 0 2 (rep 16 2) (rep 30 4)
    demo_app_key demo_arrivals demo_world).
  - apply demo_rx_ready.
  - apply le_n.
  - constructor.
  - apply demo_tx_ok.
  - by vm_compute.
  - apply demo_sealed.
  - apply demo_fits.
  - by vm_compute.
  - repeat (constructor; [split_and!; by vm_compute|]). constructor.
Defined.

(** The sequence number of the message is wrong across a block border.  A
    message starts at [a] and its segments carry the low 13 bits of [a]; for a
    packet numbered [seq], less than 8192 above, [calc_seqAuth] gives [a] exactly
    if both lie in the same block of 8192 numbers, and otherwise [a + 8192],
    which is above the number of the packet itself. *)
Theorem calc_seqAuth_block seq a trans :
  0 <= a <= seq -> seq < a + 0x2000 -> TRANS_SEQ0 trans = Ok (a mod 0x2000) ->
  exists r, calc_seqAuth seq trans = Ok r /\
    if seq / 0x2000 =? a / 0x2000 then r = a else r = a + 0x2000 /\ seq < r.
Proof.
  intros Ha Hs Ht. rewrite (calc_seqAuth_eq seq trans (a mod 0x2000)) by (done || zlia).
  eexists. split; [done|]. destruct (Z.eqb_spec (seq / 0x2000) (a / 0x2000)); zlia.
Qed.

Lemma calc_seqAuth_block_witness :
  exists r, calc_seqAuth 0x2001 [0x80; 0x7f; 0xfc; 0x22] = Ok r /\
    if 0x2001 / 0x2000 =? 0x1fff / 0x2000 then r = 0x1fff else r = 0x1fff + 0x2000 /\ 0x2001 < r.
Proof. by apply (calc_seqAuth_block 0x2001 0x1fff [0x80; 0x7f; 0xfc; 0x22]). Defined.

Section Replace.
Context {N : Type} {NI : NodeIface N} {A : Alg} {AO : AlgOk A} {AT : AlgTotal A}.
Implicit Types w : world N.

Lemma iv_seq_auth_lt iv1 a1 iv2 a2 :
  0 <= a1 < 0x100000000 -> 0 <= a2 < 0x100000000 ->
  iv_seq_auth iv1 a1 < iv_seq_auth iv2 a2 <-> iv1 < iv2 \/ (iv1 = iv2 /\ a1 < a2).
Proof.
  intros H1 H2. unfold iv_seq_auth. rewrite !(Z.lor_comm (Z.shiftl _ 32)), !lor_shiftl_add by lia. lia.
Qed.

(** [flush_sar] on the incoming list. *)
Lemma flush_in_wp id w s :
  rx_ready w -> find_sar id (sar_in (w_net w)) = Some s ->
  wp (flush_sar SarIn id) (fun _ w' => rx_ready w' /\ w_keys w' = w_keys w /\
    w_net w' = set_sar_in (remove_first (fun s => sar_id s =? id) (sar_in (w_net w))) (w_net w) /\
    (msg_to s <> 0 -> msg_to s ∉ w_timers w') /\ (ack_to s <> 0 -> ack_to s ∉ w_timers w')) w.
Proof.
  intros [Ht H1 H2 H3] Hs. unfold flush_sar. wp_step. eapply deref_in_wp; [done|].
  unfold mod_net, source_remove. wp_run. set (w1 := on_net _ w).
  assert (Hr : ∀ f, rx_ready (with_timers f w1)).
  { intros f. assert (Hw1 : tx_ready w1) by by apply (tx_ready_in _ w).
    split; simpl; [by destruct Hw1 as [[] ? ? ?]; split; [split|..] | | |].
    - by apply NoDup_remove_first.
    - by apply NoDup_remove_first.
    - by apply Forall_remove_first. }
  assert (Hn : ∀ t l, t ∉ filter (fun t' : Z => t' <> t) l)
    by (intros t l [? _]%list_elem_of_filter; done).
  assert (Hn2 : ∀ t t2 l, t ∉ filter (fun t' : Z => t' <> t2) (filter (fun t' : Z => t' <> t) l))
    by (intros t t2 l [_ Hx]%list_elem_of_filter; by apply Hn in Hx).
  destruct (truth (msg_to s)) eqn:Em, (truth (ack_to s)) eqn:Ea; wp_run; bool_hyps;
    (split; [|split_and!; done || (intros; simpl; auto)]).
  - exact (Hr (fun l => filter (fun t => t <> ack_to s) (filter (fun t => t <> msg_to s) l))).
  - apply Hr.
  - apply Hr.
  - exact (Hr (fun l => l)).
Qed.

Lemma sar_reuse_some src iv seqA n w s :
  find_sar_in_by_src (w_net w) src = Some s ->
  sar_reuse src iv seqA n w =
  (let new := iv_seq_auth iv seqA in let old := iv_seq_auth (sar_iv_index s) (seqAuth s) in
   if old <? new then _ ← flush_sar SarIn (sar_id s); mret (true, None)
   else if new <? old then mret (false, None)
   else if negb (n =? segN s) then _ ← flush_sar SarIn (sar_id s); mret (true, None)
   else mret (true, Some (sar_id s))) w.
Proof. intros Hs. unfold sar_reuse, net_of, mbind at 1, st_bind at 1, gets. by rewrite Hs. Qed.
End Replace.

(** Which message a segment belongs to.  From a well-formed state, a segment
    of a source with nothing in progress starts a message; one whose IV index
    and SeqAuth are lexicographically below those in progress is refused and
    nothing changes; one that agrees with the message in progress continues it;
    any other - newer, or with another number of segments - replaces it: exactly
    that message is removed, and its timers are cancelled. *)
Theorem sar_reuse_spec (N : Type) (NI : NodeIface N) (A : Alg) src iv seqA n (w : world N) :
  rx_ready w -> 0 <= src < 0x10000 -> 0 <= seqA < 0x100000000 ->
  Forall (fun s => 0 <= seqAuth s < 0x100000000) (sar_in (w_net w)) ->
  match find_sar_in_by_src (w_net w) src with
  | None => sar_reuse src iv seqA n w = Ok ((true, None), w)
  | Some s =>
      if bool_decide (iv < sar_iv_index s \/ (iv = sar_iv_index s /\ seqA < seqAuth s))
      then sar_reuse src iv seqA n w = Ok ((false, None), w)
      else if bool_decide (iv = sar_iv_index s /\ seqA = seqAuth s /\ n = segN s)
      then sar_reuse src iv seqA n w = Ok ((true, Some (sar_id s)), w)
      else exists w', sar_reuse src iv seqA n w = Ok ((true, None), w') /\ rx_ready w' /\
        w_net w' = set_sar_in (remove_first (fun x => sar_id x =? sar_id s) (sar_in (w_net w))) (w_net w) /\
        (msg_to s <> 0 -> msg_to s ∉ w_timers w') /\ (ack_to s <> 0 -> ack_to s ∉ w_timers w')
  end.
Proof.
  intros Hw Hsrc Hq Hall. destruct (find_sar_in_by_src (w_net w) src) as [s|] eqn:Es.
  2: { unfold sar_reuse, net_of, mbind, st_bind, gets. by rewrite Es. }
  assert (Hin : s ∈ sar_in (w_net w)) by by apply find_first_some in Es as [? _].
  rewrite Forall_forall in Hall. specialize (Hall s Hin).
  assert (Hs : find_sar (sar_id s) (sar_in (w_net w)) = Some s)
    by (apply find_by_key; [apply Hw | done]).
  assert (Hflush : exists w', (_ ← flush_sar SarIn (sar_id s); mret (true, None)) w =
      Ok ((true, @None Z), w') /\ rx_ready w' /\
      w_net w' = set_sar_in (remove_first (fun x => sar_id x =? sar_id s) (sar_in (w_net w))) (w_net w) /\
      (msg_to s <> 0 -> msg_to s ∉ w_timers w') /\ (ack_to s <> 0 -> ack_to s ∉ w_timers w')).
  { destruct (proj1 (wp_ok _ _ _) (flush_in_wp (sar_id s) w s Hw Hs)) as ([] & w' & Hf & H1 & _ & H2).
    exists w'. unfold mbind, st_bind. by rewrite Hf. }
  rewrite (sar_reuse_some _ _ _ _ _ s Es). cbn zeta.
  pose proof (iv_seq_auth_lt iv seqA (sar_iv_index s) (seqAuth s) Hq Hall) as Hlt.
  pose proof (iv_seq_auth_lt (sar_iv_index s) (seqAuth s) iv seqA Hall Hq) as Hgt.
  destruct (Z.ltb_spec (iv_seq_auth (sar_iv_index s) (seqAuth s)) (iv_seq_auth iv seqA)) as [Hc | Hc].
  - rewrite !bool_decide_eq_false_2 by lia. exact Hflush.
  - destruct (Z.ltb_spec (iv_seq_auth iv seqA) (iv_seq_auth (sar_iv_index s) (seqAuth s))) as [Hd | Hd].
    + by rewrite bool_decide_eq_true_2 by tauto.
    + rewrite (bool_decide_eq_false_2 (iv < _ \/ _)) by lia.
      destruct (Z.eqb_spec n (segN s)) as [He | He]; cbn [negb].
      * rewrite bool_decide_eq_true_2 by lia. done.
      * rewrite bool_decide_eq_false_2 by lia. exact Hflush.
Qed.

(** A message in progress from 0x100, of three segments. *)
Definition demo_part : mesh_sar_msg :=
  Sar 8 2 3 5 100 1 0x77 0x100 0 0 0 5 2 0 false true false false (rep 46 0).
Definition demo_rx : world node_view :=
  World (set_sar_in [demo_part] demo_net) demo_keys (NodeView 0x77 (rep 16 9) 0) 10 [2; 3] false [].

Lemma demo_rx_wf : rx_ready (A := toy_alg) demo_rx.
Proof.
  split.
  - destruct demo_ready as [[] ? ? ?]. split; [split|..]; done.
  - apply NoDup_singleton.
  - apply NoDup_singleton.
  - by repeat constructor.
Qed.

Lemma sar_reuse_spec_witness :
  match find_sar_in_by_src (w_net demo_rx) 0x100 with
  | None => sar_reuse 0x100 5 101 2 demo_rx = Ok ((true, None), demo_rx)
  | Some s =>
      if bool_decide (5 < sar_iv_index s \/ (5 = sar_iv_index s /\ 101 < seqAuth s))
      then sar_reuse 0x100 5 101 2 demo_rx = Ok ((false, None), demo_rx)
      else if bool_decide (5 = sar_iv_index s /\ 101 = seqAuth s /\ 2 = segN s)
      then sar_reuse 0x100 5 101 2 demo_rx = Ok ((true, Some (sar_id s)), demo_rx)
      else exists w', sar_reuse 0x100 5 101 2 demo_rx = Ok ((true, None), w') /\
        rx_ready (A := toy_alg) w' /\
        w_net w' = set_sar_in (remove_first (fun x => sar_id x =? sar_id s) (sar_in (w_net demo_rx)))
                     (w_net demo_rx) /\
        (msg_to s <> 0 -> msg_to s ∉ w_timers w') /\ (ack_to s <> 0 -> ack_to s ∉ w_timers w')
  end.
Proof.
  apply (sar_reuse_spec node_view _ toy_alg 0x100 5 101 2 demo_rx).
  - apply demo_rx_wf.
  - done.
  - done.
  - by repeat constructor.
Defined.

Section Fresh.
Context {N : Type}.

(** A new message, whatever it is: it can be found, and has room for its
    segments. *)
Lemma sar_new_room idx iv ctl ttl seqA src dst n sz b0 (w : world N) :
  Forall (fun s => sar_id s < w_next w) (sar_in (w_net w)) -> 0 <= n ->
  wp (sar_new idx iv ctl ttl seqA src dst n sz b0) (fun id w' => exists s,
    find_sar id (sar_in (w_net w')) = Some s /\ len (sar_data s) = sar_room n) w.
Proof.
  intros Hf Hn. unfold sar_new. wp_step. unfold fresh, wp at 1. cbn beta iota.
  set (s0 := Sar _ _ _ _ _ _ _ _ _ _ _ _ _ _ _ _ _ _ _). set (id := w_next w) in *.
  unfold mod_net. wp_step. wp_step. set (w1 := on_net _ (bump w)).
  assert (Hl : len (sar_data s0) = sar_room n)
    by (unfold s0; cbn [sar_data]; rewrite len_cons, len_rep; unfold sar_room; lia).
  assert (Hs0 : find_sar id (sar_in (w_net w1)) = Some s0).
  { change (find_sar id (sar_in (w_net w) ++ [s0]) = Some s0). unfold find_sar.
    rewrite find_first_app. destruct (find_first _ (sar_in (w_net w))) as [x|] eqn:Ex.
    - apply find_sar_in in Ex as [Hin Hx]. rewrite Forall_forall in Hf. specialize (Hf x Hin).
      unfold id in Hx. simpl in Hf. lia.
    - unfold find_first. simpl. by rewrite Z.eqb_refl. }
  assert (Ht : ∀ (w2 : world N) s (f : Z -> mesh_sar_msg -> mesh_sar_msg),
    (∀ t s, sar_id (f t s) = sar_id s) -> find_sar id (sar_in (w_net w2)) = Some s ->
    wp (t ← timeout_add; assign SarIn id (f t))
      (fun _ w3 => exists t, find_sar id (sar_in (w_net w3)) = Some (f t s)) w2).
  { intros w2 s f Hi Hs. wp_step. unfold timeout_add, wp at 1. cbn beta iota.
    eapply assign_in_wp; [exact Hs|]. exists (w_next w2). by apply find_upd_in. }
  wp_step. apply (wp_mono _ (fun _ (w2 : world N) => exists s, find_sar id (sar_in (w_net w2)) = Some s /\
    len (sar_data s) = sar_room n)).
  { destruct (IS_UNICAST dst); [|wp_run; by exists s0].
    eapply wp_mono; [by apply (Ht w1 s0 set_ack_to)|]. intros ? w2 (t & Hs). by eexists. }
  intros ? w2 (s & Hs & Hls).
  pose proof (Ht w2 s set_msg_to ltac:(done) Hs) as Hm.
  unfold wp, mbind, st_bind, timeout_add in Hm |- *.
  destruct (assign _ _ _ _) as [[[] w3] |]; [|done]. destruct Hm as (t & Hm). by eexists.
Qed.

(** The copy of a segment numbered above the last. *)
Lemma sar_put_overrun id n o trans l (w : world N) s :
  find_sar id (sar_in (w_net w)) = Some s -> len (sar_data s) = sar_room n -> 0 <= n < o ->
  16 <= len trans -> sar_put id n o trans l w = Fault Oob.
Proof.
  intros Hs Hl Hn Ht. unfold sar_put. rewrite (proj2 (Z.eqb_neq n o)) by lia.
  apply wp_bind_fault, wp_ret, wp_bind_fault. eapply deref_in_wp; [exact Hs|].
  destruct (rd_range_total trans 4 12) as (m & Hm & Hml); [lia..|].
  apply wp_bind_fault. eapply wp_lift; [exact Hm|].
  unfold mbind, st_bind, lift. rewrite wr_range_oob; [done|]. unfold sar_room in Hl. lia.
Qed.
End Fresh.

(** A segment beyond the last overruns the heap.  The message is allocated
    for [segN + 1] segments, and the five bits of the number of a segment are
    not compared with [segN]: a segment numbered above it, in a packet that
    starts a message, is copied behind the allocation. *)
Theorem seg_overrun (N : Type) (NI : NodeIface N) (DH : DataHandler N) (A : Alg) (AO : AlgOk A)
    (AT : AlgTotal A) fuel idx iv ctl ttl seq src dst h v r l (w : world N) :
  rx_ready w -> find_sar_in_by_src (w_net w) src = None -> 0 <= src < 0x10000 -> 0 <= seq ->
  0x80 <= h < 0x100 -> 0 <= v < 0x1000000 -> 12 <= len r -> v mod 0x20 < v / 0x20 mod 0x20 ->
  seg_rxed fuel idx iv ctl ttl seq src dst (h :: to_be 3 v ++ r) l w = Fault Oob.
Proof.
  intros Hw Hn Hsrc Hseq Hh Hv Hr Hlt. unfold seg_rxed.
  apply wp_bind_fault. eapply wp_lift.
  { apply (calc_seqAuth_eq seq _ _ Hseq (hdr_seq0 h v r Hv)). zlia. }
  apply wp_bind_fault. eapply wp_lift; [apply (hdr_segN h v r Hv)|].
  apply wp_bind_fault. eapply wp_lift; [apply (hdr_segO h v r Hv)|].
  apply wp_bind_fault. unfold sar_reuse, net_of. wp_run. rewrite Hn. wp_run. cbn [negb].
  apply wp_bind_fault. wp_step. eapply wp_lift; [by apply (hdr_szmic h v r)|].
  wp_step. eapply wp_lift; [apply (hdr_head h v r)|].
  eapply wp_mono; [apply sar_new_room; [apply Hw | zlia]|]. intros id w1 (s & Hs & Hl).
  unfold seg_accept, mbind at 1, st_bind at 1. rewrite (sar_put_overrun _ _ _ _ _ _ s); try done; [zlia|].
  rewrite len_cons, len_app, len_to_be. lia.
Qed.

Lemma seg_overrun_witness :
  seg_rxed (DH := noting) (A := toy_alg) 2 0 5 false 7 100 0x100 0x77
    (0xc1 :: to_be 3 (100 * 0x400 + 3 * 0x20 + 0) ++ rep 12 0x41) 16 demo_world = Fault Oob.
Proof.
  apply (seg_overrun node_view _ noting toy_alg _ _ 2 0 5 false 7 100 0x100 0x77 0xc1
    (100 * 0x400 + 3 * 0x20 + 0) (rep 12 0x41) 16 demo_world).
  - apply demo_rx_ready.
  - done.
  - done.
  - done.
  - done.
  - done.
  - done.
  - done.
Defined.
