(* ===== verification/Dispatch.v ===== *)
(** * Network packets on reception

    What [net_data_ready] (Recv.v) does with the octets of a proxy PDU: which
    packets get past the network layer, that those of the sender (Send.v) do and
    arrive as what they are, and what malformed packets can do. *)

From S2P Require Import Prelude Bytes Alg Ccm Crypto Packet Pdu Keys NetState Send Beacon Recv Reassembly.

Section Accept.
Context {A : Alg} {AO : AlgOk A} {AT : AlgTotal A}.

(** Key parts that can be selected by an identifier of seven bits. *)
Lemma parts_selected s k part :
  keys_wf s -> k ∈ net_keys s -> part = nk_current k \/ part = nk_new k -> nid part < 0x80 ->
  len (enc_key part) = 16 /\ len (privacy_key part) = 16.
Proof.
  intros (_ & _ & Hw & _) Hk Hp Hn. rewrite Forall_forall in Hw. destruct (Hw k Hk) as [Hc Hnew].
  assert (Hpk : ∀ key, len key = 16 -> len (enc_key (parts_of key)) = 16 /\
    len (privacy_key (parts_of key)) = 16) by (intros key Hl; by apply k2_keys_len).
  destruct Hp as [-> | ->].
  - destruct Hc as (key & Hl & ->). by apply Hpk.
  - destruct Hnew as [Hx | (key & Hl & ->)]; [lia | by apply Hpk].
Qed.

(** [packet] is, in its first [size] octets, a packet secured with key parts of
    [k], and [packet'] starts with its header and contents in the clear. *)
Definition made_with (k : mesh_net_key) (pf : bool) (iv size : Z) (packet packet' : list Z) : Prop :=
  exists part b0 b1 r p,
    (part = nk_current k \/ part = nk_new k) /\ nid part = Z.land b0 0x7f /\
    len r = 5 /\ 1 <= of_be (drop 3 r) < 0x8000 /\ size = 7 + len p + net_mic_size b1 /\
    take (Z.to_nat size) packet =
      on_air (enc_key part) (privacy_key part) b0 b1 r p (is_ctl b1 && pf) iv /\
    take (Z.to_nat (7 + len p)) packet' = b0 :: b1 :: r ++ p /\ len packet' = len packet.

Section Size.
Variables (s : key_store) (pf : bool) (iv size : Z) (packet : list Z).
Hypothesis Hs : keys_wf s.
Hypothesis Hb : bytes packet.
Hypothesis Hsize : 16 <= size <= 29.
Hypothesis Hlen : size <= len packet < 0x1000.

(** One attempt. *)
Lemma decode_with_spec k part b0 tmp :
  k ∈ net_keys s -> part = nk_current k \/ part = nk_new k -> rd packet 0 = Ok b0 ->
  len tmp = 29 -> nid part = Z.land b0 0x7f ->
  exists st tmp', decode_with part pf iv packet size tmp = Ok (st, tmp') /\ len tmp' = 29 /\
    (st = true -> exists b1 r p, len r = 5 /\ 1 <= of_be (drop 3 r) < 0x8000 /\
       size = 7 + len p + net_mic_size b1 /\
       take (Z.to_nat size) packet =
         on_air (enc_key part) (privacy_key part) b0 b1 r p (is_ctl b1 && pf) iv /\
       take (Z.to_nat (7 + len p)) tmp' = b0 :: b1 :: r ++ p).
Proof.
  intros Hk Hp Hb0 Ht Hn. pose proof (land_7f b0) as Hl7.
  destruct (parts_selected s k part Hs Hk Hp) as [He Hpr]; [rewrite Hn; zlia|].
  destruct (decode_total A AO AT (enc_key part) (privacy_key part) iv packet size pf tmp)
    as (st & tmp' & Hd & Hl'); try done; try lia.
  exists st, tmp'. unfold decode_with. split; [done|]. split; [lia|]. intros ->.
  destruct (decode_authentic A AO AT (enc_key part) (privacy_key part) iv packet size pf tmp tmp')
    as (b0' & b1 & r & p & H1 & H2 & H3 & H4 & H5); try done; try lia.
  assert (b0' = b0) as ->.
  { assert (H0 : packet !! 0%nat = Some b0')
      by (rewrite <-(lookup_take_lt packet (Z.to_nat size) 0) by lia; by rewrite H4).
    unfold rd in Hb0. change (Z.to_nat 0) with 0%nat in Hb0. rewrite H0 in Hb0. by injection Hb0. }
  by exists b1, r, p.
Qed.

Lemma try_decode_spec k :
  k ∈ net_keys s ->
  try_decode pf iv size k (packet, None) = Ok (packet, None) \/
  exists packet', try_decode pf iv size k (packet, None) = Ok (packet', Some k) /\
    made_with k pf iv size packet packet'.
Proof.
  intros Hk. unfold try_decode. destruct (rd_ok packet 0 ltac:(lia)) as (b0 & Hb0 & _).
  rewrite Hb0. cbn [mbind res_bind].
  assert (Hone : ∀ part tmp, part = nk_current k \/ part = nk_new k -> len tmp = 29 ->
    exists st tmp', (if nid part =? Z.land b0 0x7f then decode_with part pf iv packet size tmp
                     else mret (false, tmp)) = Ok (st, tmp') /\ len tmp' = 29 /\
      (st = true -> exists packet', (m ← rd_range tmp' 0 size; packet ← wr_range packet 0 m;
           mret (packet, Some k)) = Ok (packet', Some k) /\ made_with k pf iv size packet packet')).
  { intros part tmp Hp Ht. destruct (Z.eqb_spec (nid part) (Z.land b0 0x7f)) as [He |].
    2: { exists false, tmp. done. }
    destruct (decode_with_spec k part b0 tmp Hk Hp Hb0 Ht He) as (st & tmp' & Hd & Hl & Hst).
    exists st, tmp'. split; [done|]. split; [done|]. intros ->.
    destruct (Hst eq_refl) as (b1 & r & p & H1 & H2 & H3 & H4 & H5).
    destruct (rd_range_total tmp' 0 size) as (m & Hm & Hml); [lia..|].
    destruct (wr_range_total packet 0 m) as (packet' & Hw & Hpl); [lia..|].
    rewrite Hm. cbn [mbind res_bind]. rewrite Hw. eexists. split; [done|].
    exists part, b0, b1, r, p. do 6 (split; [done|]). split; [|done].
    rewrite rd_range_ok in Hm by lia. injection Hm as <-.
    pose proof (net_mic_size_range b1). pose proof (len_nonneg p).
    apply list_eq. intros i. rewrite <-H5.
    destruct (decide (i < Z.to_nat (7 + len p))%nat); [|by rewrite !lookup_take_ge by lia].
    rewrite !lookup_take_lt by lia. rewrite (wr_range_lookup _ _ _ _ i Hw).
    unfold len in *. rewrite bool_decide_eq_true_2 by (rewrite ?length_take, ?length_drop in *; lia).
    rewrite lookup_take_lt, drop_0 by lia. f_equal. lia. }
  destruct (Hone (nk_current k) (rep 29 0) ltac:(by left) eq_refl) as (st & tmp & Hc & Hl & Hst).
  rewrite Hc. cbn [mbind res_bind]. destruct st.
  - cbn [negb andb mret res_ret]. destruct (Hst eq_refl) as (packet' & Hr & Hmade).
    right. exists packet'. split; [exact Hr | done].
  - cbn [negb andb].
    destruct (Hone (nk_new k) tmp ltac:(by right) Hl) as (st & tmp' & Hc' & Hl' & Hst').
    rewrite Hc'. cbn [mbind res_bind]. destruct st; [|by left].
    destruct (Hst' eq_refl) as (packet' & Hr & Hmade). right. exists packet'. split; [exact Hr | done].
Qed.

Lemma try_decode_done ks p k : 1 <= len p -> foldM (try_decode pf iv size) ks (p, Some k) = Ok (p, Some k).
Proof.
  intros Hp. induction ks as [|k1 ks IH]; [done|]. cbn [foldM].
  destruct (rd_ok p 0 ltac:(lia)) as (b0 & Hb0 & _).
  unfold try_decode at 2. rewrite Hb0. cbn [mbind res_bind mret res_ret]. exact IH.
Qed.

Lemma net_packet_decode_spec :
  net_packet_decode (net_keys s) pf iv packet size = Ok (packet, None) \/
  exists k packet', k ∈ net_keys s /\
    net_packet_decode (net_keys s) pf iv packet size = Ok (packet', Some k) /\
    made_with k pf iv size packet packet'.
Proof.
  unfold net_packet_decode.
  assert (Hsub : ∀ ks, (∀ k, k ∈ ks -> k ∈ net_keys s) ->
    foldM (try_decode pf iv size) ks (packet, None) = Ok (packet, None) \/
    exists k packet', k ∈ net_keys s /\
      foldM (try_decode pf iv size) ks (packet, None) = Ok (packet', Some k) /\
      made_with k pf iv size packet packet').
  { induction ks as [|k ks IH]; intros Hin; [by left|]. cbn [foldM].
    destruct (try_decode_spec k (Hin k ltac:(left))) as [-> | (packet' & -> & Hm)]; cbn [mbind res_bind].
    - apply IH. intros k' Hk'. apply Hin. by right.
    - right. exists k, packet'. split_and!; [apply Hin; left | | done].
      apply try_decode_done. destruct Hm as (? & ? & ? & ? & ? & ? & ? & ? & ? & ? & ? & ? & ->). lia. }
  by apply Hsub.
Qed.
End Size.
End Accept.

(** ** Packets of the sender *)

Section Sent.
Context {A : Alg} {AO : AlgOk A} {AT : AlgTotal A}.

(** The fields of a decoded packet. *)
Lemma header_fields sar n seq t :
  sar_tx_ok sar -> 0 <= n < 0x80 -> 0 <= sar_iv_index sar -> 0 <= seq < 0x1000000 ->
  0 <= sar_src sar < 0x10000 ->
  let msg := net_header sar n seq ++ t in
  PKT_CTL msg = Ok (sar_ctl sar) /\ PKT_TTL msg = Ok (sar_ttl sar) /\ PKT_SEQ msg = Ok seq /\
  PKT_SRC msg = Ok (sar_src sar) /\ PKT_DST msg = Ok (u16 (sar_dst sar)) /\ PKT_TRANS msg = t.
Proof.
  intros Hs Hn Hiv Hq Hsrc msg. pose proof (tx_ttl sar Hs) as Ht.
  unfold msg, net_header. set (b1 := sar_ttl sar + 0x80 * b2z (sar_ctl sar)). cbn [app].
  assert (Hb1 : truth (Z.land b1 0x80) = sar_ctl sar /\ Z.land b1 0x7f = sar_ttl sar).
  { split.
    - rewrite top_bit by (unfold b1; destruct (sar_ctl sar); cbn [b2z]; lia).
      unfold b1. destruct (sar_ctl sar); cbn [b2z]; [apply Z.leb_le | apply Z.leb_gt]; lia.
    - rewrite land_7f. unfold b1. destruct (sar_ctl sar); cbn [b2z]; zlia. }
  assert (Hsrc' : of_be (to_be 2 (sar_src sar)) = sar_src sar).
  { rewrite of_be_to_be. change (256 ^ Z.of_nat 2) with 0x10000. zlia. }
  assert (Hdst' : of_be (to_be 2 (u16 (sar_dst sar))) = u16 (sar_dst sar)).
  { rewrite of_be_to_be. change (256 ^ Z.of_nat 2) with 0x10000. unfold u16. zlia. }
  set (b0 := n + 0x80 * (sar_iv_index sar mod 2)).
  rewrite <-!app_assoc. split_and!.
  - unfold PKT_CTL. change (rd (b0 :: b1 :: _) 1) with (Ok b1). cbn [mbind res_bind mret res_ret].
    by destruct Hb1 as [-> _].
  - unfold PKT_TTL. change (rd (b0 :: b1 :: _) 1) with (Ok b1). cbn [mbind res_bind mret res_ret].
    by destruct Hb1 as [_ ->].
  - unfold PKT_SEQ, get_be32.
    pose proof (rd_range_mid [b0] (b1 :: to_be 3 seq)
      (to_be 2 (sar_src sar) ++ to_be 2 (u16 (sar_dst sar)) ++ t) 1 4 eq_refl eq_refl) as Hr.
    cbn [app] in Hr |- *. rewrite Hr. cbn [fmap res_fmap mbind res_bind mret res_ret].
    rewrite land_ffffff. f_equal. unfold of_be. cbn [to_be app fold_left]. zlia.
  - unfold PKT_SRC, get_be16.
    pose proof (rd_range_mid (b0 :: b1 :: to_be 3 seq) (to_be 2 (sar_src sar))
      (to_be 2 (u16 (sar_dst sar)) ++ t) 5 2 eq_refl eq_refl) as Hr.
    cbn [app] in Hr |- *. rewrite Hr. cbn [fmap res_fmap]. by rewrite Hsrc'.
  - unfold PKT_DST, get_be16.
    pose proof (rd_range_mid (b0 :: b1 :: to_be 3 seq ++ to_be 2 (sar_src sar))
      (to_be 2 (u16 (sar_dst sar))) t 7 2 eq_refl eq_refl) as Hr.
    cbn [app] in Hr |- *. rewrite <-?app_assoc in Hr. rewrite Hr. cbn [fmap res_fmap]. by rewrite Hdst'.
  - done.
Qed.
End Sent.

(** ** From the octets to the dispatch *)

Section Ready.
Context {N : Type} {NI : NodeIface N} {DH : DataHandler N} {A : Alg}.

(** The IV index that the IVI bit of [b0] selects. *)
Definition rx_iv (n : mesh_net) (b0 : Z) : option Z :=
  if Bool.eqb (truth (Z.land (iv_index n) 0x01)) (truth (Z.land b0 0x80)) then Some (iv_index n)
  else if iv_index n =? 0 then None else Some (iv_index n - 1).

(** What [net_data_ready] does with the outcome of the decoding. *)
Definition after_decode (fuel : nat) (type iv l : Z) (r : list Z * option mesh_net_key) : @M N bool :=
  match r with
  | (_, None) => mret false
  | (msg, Some k) =>
      ctl ← lift (PKT_CTL msg);
      net_dispatch fuel type (nk_idx k) iv msg (u8 (l - 1 - (if (ctl : bool) then 8 else 4)))
  end.

Lemma net_data_ready_run fuel type b0 pdu l iv (w : world N) :
  type = PROXY_NETWORK_PDU \/ type = PROXY_CONFIG_PDU -> 10 <= l -> rd pdu 0 = Ok b0 ->
  rx_iv (w_net w) b0 = Some iv ->
  net_data_ready fuel (type :: pdu) l w =
  (lift (net_packet_decode (net_keys (w_keys w)) (type =? PROXY_CONFIG_PDU) iv pdu (l - 1))
     ≫= after_decode fuel type iv l) w.
Proof.
  intros Hty Hl Hb0 Hiv. unfold net_data_ready.
  etrans; [by apply bind_lift|]. etrans; [apply bind_get|].
  rewrite (proj2 (Z.ltb_ge l 10)) by lia. change (drop 1 (type :: pdu)) with pdu. cbn zeta.
  replace (type =? PROXY_MESH_BEACON) with false by by destruct Hty as [-> | ->].
  replace (PROXY_CONFIG_PDU <? type) with false by by destruct Hty as [-> | ->].
  etrans; [by apply bind_lift|]. unfold rx_iv in Hiv.
  destruct (eqb _ _); cbn [negb andb].
  - injection Hiv as <-. unfold mbind at 1 3, st_bind at 1 3, lift at 1 3.
    destruct (net_packet_decode _ _ _ _ _) as [[msg [k|]]|]; done.
  - destruct (iv_index (w_net w) =? 0); [done|]. injection Hiv as <-.
    unfold mbind at 1 3, st_bind at 1 3, lift at 1 3.
    destruct (net_packet_decode _ _ _ _ _) as [[msg [k|]]|]; done.
Qed.

Lemma net_data_ready_eq fuel type b0 pdu l iv msg key (w : world N) :
  type = PROXY_NETWORK_PDU \/ type = PROXY_CONFIG_PDU -> 10 <= l -> rd pdu 0 = Ok b0 ->
  rx_iv (w_net w) b0 = Some iv ->
  net_packet_decode (net_keys (w_keys w)) (type =? PROXY_CONFIG_PDU) iv pdu (l - 1) = Ok (msg, key) ->
  net_data_ready fuel (type :: pdu) l w = after_decode fuel type iv l (msg, key) w.
Proof.
  intros Hty Hl Hb0 Hiv Hdec. erewrite net_data_ready_run by done. etrans; [by apply bind_lift | done].
Qed.

Lemma net_data_ready_no_iv fuel type b0 pdu l (w : world N) :
  type = PROXY_NETWORK_PDU \/ type = PROXY_CONFIG_PDU -> 10 <= l -> rd pdu 0 = Ok b0 ->
  rx_iv (w_net w) b0 = None -> net_data_ready fuel (type :: pdu) l w = Ok (false, w).
Proof.
  intros Hty Hl Hb0 Hiv. unfold net_data_ready.
  etrans; [by apply bind_lift|]. etrans; [apply bind_get|].
  rewrite (proj2 (Z.ltb_ge l 10)) by lia. change (drop 1 (type :: pdu)) with pdu. cbn zeta.
  replace (type =? PROXY_MESH_BEACON) with false by by destruct Hty as [-> | ->].
  replace (PROXY_CONFIG_PDU <? type) with false by by destruct Hty as [-> | ->].
  etrans; [by apply bind_lift|]. unfold rx_iv in Hiv.
  destruct (eqb _ _); cbn [negb andb]; [done|]. by destruct (iv_index (w_net w) =? 0).
Qed.

Context {AO : AlgOk A} {AT : AlgTotal A}.

(** The receiver's key for packets secured with [part]: the parts of earlier keys
    have other identifiers. *)
Definition selects (ks : list mesh_net_key) (part : net_key_parts) (k : mesh_net_key) : Prop :=
  (nk_current k = part \/ (nid (nk_current k) <> nid part /\ nk_new k = part)) /\
  exists ks1 ks2, ks = ks1 ++ k :: ks2 /\
    Forall (fun k' => nid (nk_current k') <> nid part /\ nid (nk_new k') <> nid part) ks1.

Lemma rx_iv_tx (n : mesh_net) sar nid :
  0 <= nid < 0x80 -> 0 <= sar_iv_index sar ->
  sar_iv_index sar = iv_index n \/ sar_iv_index sar = iv_index n - 1 ->
  rx_iv n (tx_b0 sar nid) = Some (sar_iv_index sar).
Proof.
  intros Hn Hiv Hcase. unfold rx_iv, tx_b0.
  assert (H2 : 0 <= sar_iv_index sar mod 2 < 2) by zlia.
  rewrite top_bit, land_1 by lia.
  destruct Hcase as [He | He].
  - rewrite <-He. replace (eqb _ _) with true; [done|]. symmetry. apply eqb_true_iff.
    destruct (Z.eqb_spec (sar_iv_index sar mod 2) 1); symmetry; [apply Z.leb_le | apply Z.leb_gt]; lia.
  - replace (eqb _ _) with false.
    + rewrite (proj2 (Z.eqb_neq _ 0)) by lia. by rewrite He.
    + symmetry. apply eqb_false_iff.
      destruct (Z.eqb_spec (iv_index n mod 2) 1), (Z.leb_spec 128 (nid + 128 * (sar_iv_index sar mod 2)));
        (done || (exfalso; zlia)).
Qed.

Section Packet.
Variables (part : net_key_parts) (sar : mesh_sar_msg) (seq seg : Z) (z : list Z).
Hypothesis Hs : sar_tx_ok sar.
Hypothesis Hn : 0 <= nid part < 0x80.
Hypothesis He : len (enc_key part) = 16.
Hypothesis Hp : len (privacy_key part) = 16.
Hypothesis Hiv : 0 <= sar_iv_index sar.
Hypothesis Hseg : 0 <= seg <= segN sar.
Hypothesis Hsrc : 1 <= sar_src sar < 0x8000.

Definition clear_pdu : list Z :=
  net_header sar (nid part) seq ++ lower_pdu sar seg ++ rep (net_mic_len sar) 0.

Lemma clear_len :
  len clear_pdu = len (tx_air part sar seq seg) /\ 14 <= len clear_pdu <= 29 /\
  len (lower_pdu sar seg) = len clear_pdu - 9 - net_mic_len sar.
Proof.
  destruct (seg_plain_eq sar (nid part) seq seg) as (tail0 & Hpl0 & Hlen & Hmic & Hl1); try done.
  destruct (seg_encode part sar seq seg) as (data & l & tail & Hpl & _ & Hl & Htl & H14); try done.
  rewrite Hpl0 in Hpl. injection Hpl as _ Hll. pose proof (len_nonneg tail).
  assert (Hc : len clear_pdu = 9 + len (lower_pdu sar seg) + net_mic_len sar).
  { unfold clear_pdu. rewrite !len_app, net_header_len, len_rep; unfold net_mic_len; case_goal; lia. }
  lia.
Qed.

Lemma air_head : rd (tx_air part sar seq seg ++ z) 0 = Ok (tx_b0 sar (nid part)).
Proof. done. Qed.

Lemma air_nid : Z.land (tx_b0 sar (nid part)) 0x7f = nid part.
Proof. rewrite land_7f. unfold tx_b0. zlia. Qed.

Lemma air_decode_with :
  exists tmp, decode_with part (tx_proxy sar) (sar_iv_index sar) (tx_air part sar seq seg ++ z)
    (len clear_pdu) (rep 29 0) = Ok (true, tmp) /\ tmp = clear_pdu ++ rep (29 - len clear_pdu) 0.
Proof.
  destruct clear_len as (Hl & _ & _).
  pose proof (tx_air_decodes part sar seq seg z Hs Hn He Hp Hiv Hseg Hsrc) as Hd. cbn zeta in Hd.
  unfold decode_with. rewrite Hl, Hd. eexists. split; [done|]. unfold clear_pdu.
  by rewrite <-!app_assoc.
Qed.

Lemma air_try_decode k :
  nk_current k = part \/ (nid (nk_current k) <> nid part /\ nk_new k = part) ->
  try_decode (tx_proxy sar) (sar_iv_index sar) (len clear_pdu) k (tx_air part sar seq seg ++ z, None) =
  Ok (clear_pdu ++ z, Some k).
Proof.
  intros Hk. destruct clear_len as (Hl & Hr & _). destruct air_decode_with as (tmp & Hd & ->).
  assert (Hend : (m ← rd_range (clear_pdu ++ rep (29 - len clear_pdu) 0) 0 (len clear_pdu);
    packet ← wr_range (tx_air part sar seq seg ++ z) 0 m; mret (packet, Some k)) =
    Ok (clear_pdu ++ z, Some k)).
  { rewrite rd_range_begin by done. cbn [mbind res_bind]. rewrite wr_range_begin; [done|].
    unfold len in *. lia. }
  unfold try_decode. rewrite air_head. cbn [mbind res_bind]. rewrite air_nid.
  destruct Hk as [-> | [Hne ->]].
  - rewrite Z.eqb_refl, Hd. exact Hend.
  - rewrite (proj2 (Z.eqb_neq _ _) Hne). cbn [mbind res_bind mret res_ret negb andb].
    rewrite Z.eqb_refl, Hd. exact Hend.
Qed.

Lemma air_packet_decode ks k :
  selects ks part k ->
  net_packet_decode ks (tx_proxy sar) (sar_iv_index sar) (tx_air part sar seq seg ++ z)
    (len clear_pdu) = Ok (clear_pdu ++ z, Some k).
Proof.
  intros [Hk (ks1 & ks2 & -> & Hks)]. unfold net_packet_decode. destruct clear_len as (Hl & Hr & _).
  induction Hks as [|k1 ks1 [H1 H2] _ IH]; cbn [app foldM].
  - rewrite air_try_decode by done. cbn [mbind res_bind]. apply try_decode_done.
    rewrite len_app. pose proof (len_nonneg z). lia.
  - unfold try_decode at 2. rewrite air_head. cbn [mbind res_bind]. rewrite air_nid.
    rewrite (proj2 (Z.eqb_neq _ _) H1). cbn [mbind res_bind mret res_ret negb andb].
    rewrite (proj2 (Z.eqb_neq _ _) H2). exact IH.
Qed.
End Packet.
End Ready.

(** ** Theorems *)

(** C5: what the sender queues reaches the receiver as what it is.  The octets of
    a segment as [send_seg] encodes them, with anything behind them in the
    receive buffer, from a unicast source, under the receiver's IV index or the
    one before and under key parts that the receiver selects: [net_data_ready]
    calls [seg_rxed] with the TTL, sequence number, source and destination of
    the message, the index of the key, and the lower transport PDU of the
    segment with its length. *)
Theorem sent_segment_received (N : Type) (NI : NodeIface N) (DH : DataHandler N) (A : Alg)
    (AO : AlgOk A) (AT : AlgTotal A) fuel part k sar seq seg z (w : world N) :
  sar_tx_ok sar -> segmented sar = true -> 0 <= nid part < 0x80 -> len (enc_key part) = 16 ->
  len (privacy_key part) = 16 -> 0 <= sar_iv_index sar -> 0 <= seg <= segN sar ->
  1 <= sar_src sar < 0x8000 -> 0 <= seq < 0x1000000 ->
  sar_iv_index sar = iv_index (w_net w) \/ sar_iv_index sar = iv_index (w_net w) - 1 ->
  selects (net_keys (w_keys w)) part k ->
  let air := tx_air part sar seq seg in
  net_data_ready fuel (PROXY_NETWORK_PDU :: air ++ z) (1 + len air) w =
  seg_rxed fuel (nk_idx k) (sar_iv_index sar) false (sar_ttl sar) seq (sar_src sar)
    (u16 (sar_dst sar)) (seg_trans sar seg (rep 4 0 ++ z)) (4 + seg_size sar seg) w.
Proof.
  intros Hs Hsg Hn He Hp Hiv Hseg Hsrc Hseq Hcase Hk air.
  destruct (clear_len part sar seq seg Hs Hn He Hp Hiv Hseg) as (Hl & Hr & Hlow). fold air in Hl.
  assert (Hctl : sar_ctl sar = false) by by destruct (tx_seg_len sar seg Hs Hsg Hseg).
  assert (Hpx : tx_proxy sar = false) by (unfold tx_proxy; by rewrite Hctl).
  pose proof (air_packet_decode part sar seq seg z Hs Hn He Hp Hiv Hseg Hsrc _ k Hk) as Hd.
  rewrite Hpx, Hl in Hd. fold air in Hd.
  erewrite net_data_ready_eq; [|by left | lia | apply air_head | by apply rx_iv_tx | ].
  2: { replace (1 + len air - 1) with (len air) by lia. exact Hd. }
  unfold clear_pdu. rewrite <-!app_assoc.
  destruct (header_fields sar (nid part) seq (lower_pdu sar seg ++ rep (net_mic_len sar) 0 ++ z))
    as (F1 & F2 & F3 & F4 & F5 & F6); try done; [lia|].
  set (msg := net_header _ _ _ ++ _) in *. rewrite Hctl in F1. unfold net_mic_len in *. rewrite Hctl in *.
  etrans; [by apply bind_lift|]. cbn beta iota. rewrite (u8_small (1 + len air - 1 - 4)) by lia.
  unfold net_dispatch. do 5 (etrans; [by apply bind_lift|]). cbn zeta.
  change (PROXY_NETWORK_PDU =? PROXY_CONFIG_PDU) with false.
  assert (H9 : rd msg 9 = Ok (sar_akf_aid sar + 0x80)).
  { unfold msg, lower_pdu. rewrite Hsg. cbn [app]. apply (rd_mid (net_header sar (nid part) seq)). done. }
  pose proof (tx_aid sar Hs).
  etrans; [apply bind_lift; unfold PKT_OPCODE; rewrite H9; reflexivity|].
  etrans; [apply (bind_lift _ true)|].
  { unfold PKT_SEGMENTED. rewrite H9. cbn [mbind res_bind mret res_ret]. f_equal.
    rewrite top_bit by lia. apply Z.leb_le. lia. }
  cbn [andb]. rewrite F6. unfold seg_trans, PKT_TRANS_LEN. f_equal. f_equal.
  assert (Hlp : len (lower_pdu sar seg) = 4 + seg_size sar seg).
  { destruct (seg_size_range sar seg Hs Hsg Hseg) as (_ & _ & Hch).
    unfold lower_pdu. rewrite Hsg, len_cons, len_app, len_to_be, Hch. lia. }
  rewrite u16_small; lia.
Qed.

(** The network key of the demonstration network. *)
Definition demo_parts : net_key_parts := parts_of (A := toy_alg) (rep 16 1).
Definition demo_net_key : mesh_net_key := NetKey 0 0 demo_parts (NetKeyParts 0xff [] [] [] [] []).

Lemma sent_segment_received_witness :
  let air := tx_air (A := toy_alg) demo_parts demo_tx 101 1 in
  net_data_ready (DH := noting) (A := toy_alg) 2 (PROXY_NETWORK_PDU :: air ++ rep 40 0xee)
    (1 + len air) demo_world =
  seg_rxed (DH := noting) (A := toy_alg) 2 (nk_idx demo_net_key) (sar_iv_index demo_tx) false
    (sar_ttl demo_tx) 101 (sar_src demo_tx) (u16 (sar_dst demo_tx))
    (seg_trans demo_tx 1 (rep 4 0 ++ rep 40 0xee)) (4 + seg_size demo_tx 1) demo_world.
Proof.
  apply (sent_segment_received node_view _ noting toy_alg _ _ 2 demo_parts demo_net_key demo_tx 101 1
    (rep 40 0xee) demo_world).
  - apply demo_tx_ok.
  - by vm_compute.
  - by vm_compute.
  - by vm_compute.
  - by vm_compute.
  - by vm_compute.
  - by vm_compute.
  - by vm_compute.
  - done.
  - left. by vm_compute.
  - split; [by left|]. exists [], []. split; [by vm_compute | constructor].
Defined.

(** C6: nothing gets past the network layer without a key.  For network and
    proxy configuration PDUs of 17 to 30 octets, [net_data_ready] either refuses
    the octets and changes nothing, or they are, octet for octet, a packet
    secured with key parts, current or new, of a stored network key, under the
    IV index in use or the one before; then what is dispatched is the header and
    contents of that packet, with the length they have. *)
Theorem data_ready_authentic (N : Type) (NI : NodeIface N) (DH : DataHandler N) (A : Alg)
    (AO : AlgOk A) (AT : AlgTotal A) fuel type pdu l (w : world N) :
  keys_wf (w_keys w) -> bytes pdu -> type = PROXY_NETWORK_PDU \/ type = PROXY_CONFIG_PDU ->
  17 <= l <= 30 -> l - 1 <= len pdu < 0x1000 ->
  net_data_ready fuel (type :: pdu) l w = Ok (false, w) \/
  exists k iv msg p,
    k ∈ net_keys (w_keys w) /\ (iv = iv_index (w_net w) \/ iv = iv_index (w_net w) - 1) /\
    made_with k (type =? PROXY_CONFIG_PDU) iv (l - 1) pdu msg /\ len p = l - 1 - 7 -
      (if truth (Z.land (nth 1 msg 0) 0x80) then 8 else 4) /\
    net_data_ready fuel (type :: pdu) l w = net_dispatch fuel type (nk_idx k) iv msg (7 + len p) w.
Proof.
  intros Hk Hb Hty Hl Hlen. destruct (rd_ok pdu 0 ltac:(lia)) as (b0 & Hb0 & _).
  destruct (rx_iv (w_net w) b0) as [iv|] eqn:Hiv; [|left; apply (net_data_ready_no_iv _ _ b0); done || lia].
  set (pf := type =? PROXY_CONFIG_PDU).
  destruct (net_packet_decode_spec (w_keys w) pf iv (l - 1) pdu Hk Hb ltac:(lia) ltac:(lia))
    as [He | (k & msg & Hin & He & Hm)];
    rewrite (net_data_ready_eq fuel type b0 pdu l iv _ _ w Hty ltac:(lia) Hb0 Hiv He); [by left|].
  right. pose proof Hm as (part & b0' & b1 & r & p & _ & _ & Hr & _ & Hsz & _ & Ht & Hml).
  pose proof (net_mic_size_range b1). pose proof (len_nonneg p).
  assert (Hb1 : msg !! 1%nat = Some b1).
  { rewrite <-(lookup_take_lt msg (Z.to_nat (7 + len p)) 1) by lia. by rewrite Ht. }
  assert (Hrd : rd msg 1 = Ok b1) by (unfold rd; change (Z.to_nat 1) with 1%nat; by rewrite Hb1).
  exists k, iv, msg, p. split; [done|]. split.
  { unfold rx_iv in Hiv. destruct (eqb _ _); [|destruct (iv_index (w_net w) =? 0)]; simplify_eq; auto. }
  split; [done|].
  rewrite (nth_lookup_Some _ _ _ _ Hb1).
  split; [unfold net_mic_size, is_ctl, CTL in Hsz; case_goal; lia|].
  etrans; [apply (bind_lift _ (truth (Z.land b1 0x80))); unfold PKT_CTL; by rewrite Hrd|].
  f_equal. unfold net_mic_size, is_ctl, CTL in *. rewrite u8_small; case_goal; lia.
Qed.

Lemma data_ready_authentic_witness :
  let pdu := tx_air (A := toy_alg) demo_parts demo_tx 101 1 in
  net_data_ready (DH := noting) (A := toy_alg) 2 (PROXY_NETWORK_PDU :: pdu) 30 demo_world =
    Ok (false, demo_world) \/
  exists k iv msg p,
    k ∈ net_keys (w_keys demo_world) /\
    (iv = iv_index (w_net demo_world) \/ iv = iv_index (w_net demo_world) - 1) /\
    made_with (A := toy_alg) k (PROXY_NETWORK_PDU =? PROXY_CONFIG_PDU) iv (30 - 1) pdu msg /\
    len p = 30 - 1 - 7 - (if truth (Z.land (nth 1 msg 0) 0x80) then 8 else 4) /\
    net_data_ready (DH := noting) (A := toy_alg) 2 (PROXY_NETWORK_PDU :: pdu) 30 demo_world =
      net_dispatch (DH := noting) (A := toy_alg) 2 PROXY_NETWORK_PDU (nk_idx k) iv msg (7 + len p)
        demo_world.
Proof.
  apply (data_ready_authentic node_view _ noting toy_alg _ _ 2 PROXY_NETWORK_PDU
    (tx_air (A := toy_alg) demo_parts demo_tx 101 1) 30 demo_world).
  - apply demo_keys_wf.
  - apply (bool_decide_unpack (bytes _)). by vm_compute.
  - by left.
  - done.
  - by vm_compute.
Defined.

Section Overrun.
Context {A : Alg} {AO : AlgOk A} {AT : AlgTotal A}.

(** The received packet is copied into the output before its length is known to
    fit. *)
Lemma decode_overrun part pf iv packet size tmp :
  len (privacy_key part) = 16 -> 14 <= size <= len packet -> len tmp < size ->
  decode_with part pf iv packet size tmp = Fault Oob.
Proof.
  intros Hp Hs Ht. unfold decode_with, mesh_crypto_packet_decode, privacy_counter.
  rewrite (proj2 (Z.ltb_ge size 14)) by lia.
  destruct (rd_range_total packet 7 7) as (x & Hx & Hxl); [lia..|]. rewrite Hx. cbn [mbind res_bind mret res_ret].
  unfold aes_ecb_one. rewrite (ecb_of_ok (privacy_key part) Hp) by (rewrite !len_app, Hxl, len_to_be; done).
  cbn [negb]. destruct (rd_range_total packet 0 size) as (m & Hm & Hml); [lia..|].
  rewrite Hm. cbn [mbind res_bind]. rewrite wr_range_oob by lia. done.
Qed.

Lemma packet_decode_overrun s pf iv packet size k b0 :
  keys_wf s -> k ∈ net_keys s -> rd packet 0 = Ok b0 -> nid (nk_current k) = Z.land b0 0x7f ->
  29 < size <= len packet -> net_packet_decode (net_keys s) pf iv packet size = Fault Oob.
Proof.
  intros Hs Hk Hb0 Hn Hsize. unfold net_packet_decode. pose proof (land_7f b0) as H7.
  assert (Hgo : ∀ ks, (∀ k', k' ∈ ks -> k' ∈ net_keys s) -> k ∈ ks ->
    foldM (try_decode pf iv size) ks (packet, None) = Fault Oob).
  { induction ks as [|k1 ks IH]; intros Hin Hk1; [by apply elem_of_nil in Hk1|]. cbn [foldM].
    unfold try_decode at 2. rewrite Hb0. cbn [mbind res_bind].
    assert (Hover : ∀ part, part = nk_current k1 \/ part = nk_new k1 -> nid part = Z.land b0 0x7f ->
      decode_with part pf iv packet size (rep 29 0) = Fault Oob).
    { intros part Hp He. apply decode_overrun; [|lia | change (len (rep 29 0)) with 29; lia].
      destruct (parts_selected s k1 part Hs (Hin k1 ltac:(left)) Hp); [rewrite He; zlia | done]. }
    destruct (Z.eqb_spec (nid (nk_current k1)) (Z.land b0 0x7f)) as [He | Hne].
    { rewrite Hover; auto. }
    cbn [mbind res_bind mret res_ret negb andb].
    destruct (Z.eqb_spec (nid (nk_new k1)) (Z.land b0 0x7f)) as [He' |].
    { rewrite Hover; auto. }
    cbn [mbind res_bind mret res_ret]. apply IH.
    - intros k' Hk'. apply Hin. by right.
    - apply elem_of_cons in Hk1 as [-> | ?]; done. }
  by apply Hgo.
Qed.
End Overrun.

(** A long packet overruns the stack, without a key.  [try_decode] decodes into
    29 octets on the stack, and nothing bounds the length of what
    [net_data_ready] is given: a network or proxy configuration PDU of more than
    30 octets whose first octet carries the identifier of a network key, which
    is sent in the clear, and the right IVI bit is copied beyond them. *)
Theorem data_ready_overruns_stack (N : Type) (NI : NodeIface N) (DH : DataHandler N) (A : Alg)
    (AO : AlgOk A) (AT : AlgTotal A) fuel type pdu l b0 iv k (w : world N) :
  keys_wf (w_keys w) -> type = PROXY_NETWORK_PDU \/ type = PROXY_CONFIG_PDU ->
  30 < l -> l - 1 <= len pdu -> rd pdu 0 = Ok b0 -> rx_iv (w_net w) b0 = Some iv ->
  k ∈ net_keys (w_keys w) -> nid (nk_current k) = Z.land b0 0x7f ->
  net_data_ready fuel (type :: pdu) l w = Fault Oob.
Proof.
  intros Hk Hty Hl Hlen Hb0 Hiv Hin Hn. rewrite (net_data_ready_run _ _ b0 _ _ iv) by (done || lia).
  rewrite (packet_decode_overrun _ _ _ _ _ k b0) by (done || lia). done.
Qed.

Lemma data_ready_overruns_stack_witness :
  net_data_ready (DH := noting) (A := toy_alg) 2
    (PROXY_NETWORK_PDU :: (nid (parts_of (A := toy_alg) (rep 16 1)) + 0x80) :: rep 30 0) 31 demo_world =
  Fault Oob.
Proof.
  apply (data_ready_overruns_stack node_view _ noting toy_alg _ _ 2 PROXY_NETWORK_PDU
    ((nid (parts_of (A := toy_alg) (rep 16 1)) + 0x80) :: rep 30 0) 31
    (nid (parts_of (A := toy_alg) (rep 16 1)) + 0x80) 5
    (NetKey 0 0 (parts_of (A := toy_alg) (rep 16 1)) (NetKeyParts 0xff [] [] [] [] []))).
  - apply demo_keys_wf.
  - by left.
  - done.
  - by vm_compute.
  - done.
  - by vm_compute.
  - apply list_elem_of_singleton. by vm_compute.
  - by vm_compute.
Defined.

Lemma octet_payload b0 rest :
  truth (Z.land b0 0x80) = false ->
  TRANS_PAYLOAD (b0 :: rest) = Ok 1 /\ ∀ l, TRANS_LEN (b0 :: rest) l = Ok (l - 1).
Proof.
  intros Hb. unfold TRANS_PAYLOAD, TRANS_LEN, TRANS_SEGMENTED.
  change (rd (b0 :: rest) 0) with (Ok b0). cbn [mbind res_bind mret res_ret]. by rewrite Hb.
Qed.

(** An empty access message needs no application key.  A packet whose
    transport part is the single octet with the AKF flag has no room for a MIC;
    [access_pkt_decrypt] allocates nothing, takes the NULL for a failure, and
    returns [false], which its caller takes for application key index 0: the
    message is handed up under that index, with a length of 65532 octets,
    whatever keys are stored. *)
Theorem empty_access_accepted (N : Type) (NI : NodeIface N) (DH : DataHandler N) (A : Alg)
    fuel idx iv seq seq_auth src dst b0 rest (w : world N) :
  0x40 <= b0 < 0x80 -> IS_VIRTUAL dst = false ->
  msg_rxed fuel idx iv false seq seq_auth src dst (b0 :: rest) 1 w =
  (_ ← node_local_data_handler fuel src dst iv seq 0 rest 65532; mret (true, b0 :: rest)) w.
Proof.
  intros Hb Hd. unfold msg_rxed.
  assert (Hb0 : truth (Z.land b0 0x80) = false) by (rewrite top_bit by lia; apply Z.leb_gt; lia).
  assert (Hakf : truth (Z.land b0 AKF_BIT) = true).
  { pose proof (all_below_spec 0x80 (fun b => implb (0x40 <=? b) (truth (Z.land b AKF_BIT))) b0
      ltac:(by vm_compute) ltac:(lia)) as Ht.
    cbn beta in Ht. by rewrite (proj2 (Z.leb_le 0x40 b0)) in Ht by lia. }
  etrans; [by apply bind_lift|]. etrans; [by apply (bind_lift _ (truth (Z.land b0 AKF_BIT)))|].
  etrans; [by apply (bind_lift _ 1), octet_payload|].
  etrans; [by apply (bind_lift _ 0), (octet_payload b0 rest)|].
  rewrite Hakf, Hd. cbn [negb]. change (u16 0) with 0.
  change (drop (Z.to_nat 1) (b0 :: rest)) with rest. change (take (Z.to_nat 1) (b0 :: rest)) with [b0].
  unfold access_rxed, access_pkt_decrypt. change (0 =? 0) with true.
  unfold mbind, st_bind, get, lift, mret, st_ret, res_ret. cbn beta iota.
  change (u16 (0 - mic_size_of false)) with 65532. change (negb (0 =? APP_IDX_INVALID)) with true.
  cbn beta iota. by destruct (node_local_data_handler fuel src dst iv seq 0 rest 65532 w) as [[[] w']|].
Qed.

Lemma empty_access_accepted_witness :
  msg_rxed (DH := noting) (A := toy_alg) 2 0 5 false 9 9 0x100 0x77 [0x40] 1 demo_world =
  (_ ← node_local_data_handler (DataHandler := noting) 2 0x100 0x77 5 9 0 [] 65532;
   mret (true, [0x40])) demo_world.
Proof.
  apply (empty_access_accepted node_view _ noting toy_alg 2 0 5 9 9 0x100 0x77 0x40 [] demo_world);
    done || lia.
Defined.

(** A message to a virtual address is opened, and loses its source.  Secured
    with an application key the receiver selects and the label of the first
    stored virtual address with that short address, it is opened and handed up
    once, under the 32-bit handle of the address - with the short destination
    address where the source should be. *)
Theorem virtual_source_lost (N : Type) (NI : NodeIface N) (DH : DataHandler N) (A : Alg)
    (AO : AlgOk A) (AT : AlgTotal A) fuel nonce idx iv seq src dst aid key k buf v vs1 vs2 z
    (w : world N) :
  len key = 16 -> len nonce = 13 -> 1 <= len buf < 0x1000 -> len (va128 v) = 16 ->
  fits (w_keys w) idx aid key k -> virt_addrs (w_keys w) = vs1 ++ v :: vs2 ->
  Forall (fun v' => va16 v' <> dst) vs1 -> va16 v = dst ->
  virtual_rxed fuel nonce idx iv seq src dst aid false
    (sealed_msg key nonce (va128 v) buf 4 ++ z) (len buf + 4) w =
  (_ ← node_local_data_handler fuel dst (va32 v) iv seq (ak_idx k) (buf ++ rep 4 0 ++ z) (len buf);
   mret (true, buf ++ rep 4 0 ++ z)) w.
Proof.
  intros Hk Hn Hb Hv (Hi & Ho & Hinv & ks1 & ks2 & HK & Hks) HV Hvs Hd.
  set (sent := sealed_msg key nonce (va128 v) buf 4). set (opened := buf ++ rep 4 0 ++ z).
  set (f := try_virt_decrypt fuel nonce idx iv seq dst dst aid false (len buf + 4)).
  assert (Hdone : ∀ vs w0, foldM f vs (ak_idx k, opened) w0 = Ok ((ak_idx k, opened), w0)).
  { intros vs w0. induction vs as [|x vs IH]; [done|]. cbn [foldM].
    etrans; [|exact IH]. unfold mbind, st_bind, f at 1, try_virt_decrypt.
    by rewrite (proj2 (Z.eqb_neq _ _) Hinv). }
  assert (Hone : f v (APP_IDX_INVALID, sent ++ z) w =
    (_ ← node_local_data_handler fuel dst (va32 v) iv seq (ak_idx k) opened (len buf);
     mret (ak_idx k, opened)) w).
  { unfold f, try_virt_decrypt. rewrite Hd, !Z.eqb_refl. cbn [negb orb].
    etrans; [apply bind_get|]. cbn beta. rewrite HK. etrans.
    { apply bind_lift. apply (access_pkt_decrypt_eq ks1 k ks2 key nonce (Some (va128 v)) idx aid
        false buf z Hk Hn Hv Hb Hks Hi Ho Hinv). }
    cbn beta iota. rewrite (proj2 (Z.eqb_neq _ _) Hinv). cbn [negb]. unfold mic_size_of.
    replace (len buf + 4 - 4) with (len buf) by lia. by rewrite (u16_small (len buf)) by lia. }
  assert (Hfold : foldM f (vs1 ++ v :: vs2) (APP_IDX_INVALID, sent ++ z) w =
    (_ ← node_local_data_handler fuel dst (va32 v) iv seq (ak_idx k) opened (len buf);
     mret (ak_idx k, opened)) w).
  { clear HV. induction Hvs as [|x vs1 Hx _ IH]; cbn [app foldM].
    - unfold mbind, st_bind in Hone |- *. rewrite Hone.
      destruct (node_local_data_handler _ _ _ _ _ _ _ _ w) as [[[] w']|]; [apply Hdone | done].
    - etrans; [|exact IH]. unfold mbind, st_bind, f at 1, try_virt_decrypt.
      rewrite (proj2 (Z.eqb_neq dst (va16 x))) by congruence. done. }
  unfold virtual_rxed. etrans; [apply bind_get|]. rewrite HV. fold f.
  unfold mbind, st_bind in Hfold |- *. rewrite Hfold.
  destruct (node_local_data_handler _ _ _ _ _ _ _ _ w) as [[[] w']|]; [|done].
  unfold mret, st_ret. by rewrite (proj2 (Z.eqb_neq _ _) Hinv).
Qed.

(** The demonstration network with a virtual address. *)
Definition demo_virt_world : world node_view :=
  World demo_net (KeyStore (net_keys demo_keys) (app_keys demo_keys)
      [VirtAddr 0x9234 0x12349234 (rep 16 6)])
    (NodeView 0x77 (rep 16 9) 0) 1 [] false [].

Lemma virtual_source_lost_witness :
  virtual_rxed (DH := noting) (A := toy_alg) 2 (rep 13 3) 0 5 9 0x100 0x9234
    (akf_aid (ak_current demo_app_key)) false
    (sealed_msg (A := toy_alg) (rep 16 2) (rep 13 3) (va128 (VirtAddr 0x9234 0x12349234 (rep 16 6)))
       (rep 8 1) 4 ++ []) (len (rep 8 1) + 4) demo_virt_world =
  (_ ← node_local_data_handler (DataHandler := noting) 2 0x9234
         (va32 (VirtAddr 0x9234 0x12349234 (rep 16 6))) 5 9 (ak_idx demo_app_key)
         (rep 8 1 ++ rep 4 0 ++ []) (len (rep 8 1));
   mret (true, rep 8 1 ++ rep 4 0 ++ [])) demo_virt_world.
Proof.
  apply (virtual_source_lost node_view _ noting toy_alg _ _ 2 (rep 13 3) 0 5 9 0x100 0x9234
    (akf_aid (ak_current demo_app_key)) (rep 16 2) demo_app_key (rep 8 1)
    (VirtAddr 0x9234 0x12349234 (rep 16 6)) [] [] [] demo_virt_world).
  - done.
  - done.
  - by vm_compute.
  - done.
  - split_and!; [done | by left | done |]. exists [], []. split; [by vm_compute | constructor].
  - done.
  - constructor.
  - done.
Defined.
