(* ===== verification/Node.v ===== *)
(** * Nodes, elements and models

    [src/blueZ/mesh/node.c]: the nodes of the network, the models of their
    elements, and the delivery of an access message to the models of the local
    node.  A [struct mesh_node *] is the address [nd_id] of a node; a pointer to a
    model is its node, element index and model identifier. *)

From S2P Require Import Prelude Bytes Alg Ccm Crypto Packet Pdu Keys NetState Send Beacon Recv.

Definition GROUP_ADDRESS_LOW : Z := 0xc000.
Definition GROUP_ADDRESS_HIGH : Z := 0xff00.
Definition ALL_NODES_ADDRESS : Z := 0xffff.
Definition UNASSIGNED : Z := 0x0000.
Definition IS_GROUP (x : Z) : bool := (GROUP_ADDRESS_LOW <=? x) && (x <=? GROUP_ADDRESS_HIGH).
Definition IS_ALL_NODES (x : Z) : bool := x =? ALL_NODES_ADDRESS.
Definition DEFAULT_TTL : Z := 0xff.
Definition ACTION_ADD : Z := 1.
Definition MESH_STATUS_SUCCESS : Z := 0x00.
Definition MESH_FEATURE_RELAY : Z := 1.
Definition MESH_FEATURE_PROXY : Z := 2.
Definition MESH_FEATURE_FRIEND : Z := 4.
Definition MESH_FEATURE_LPN : Z := 8.
Definition CONFIG_SERVER_MODEL_ID : Z := 0x0000.
Definition CONFIG_CLIENT_MODEL_ID : Z := 0x0001.

(** ** Data *)

Record mesh_node_composition := Composition {
  relay : bool; proxy : bool; lpn : bool; friend : bool; cid : Z; pid : Z; vid : Z; crpl : Z }.

(** The union [u] is its sixteen octets. *)
Record mesh_publication := Publication {
  pub_app_idx : Z; pub_u : list Z; pub_ttl : Z; pub_credential : Z; pub_period : Z;
  pub_retransmit : Z }.

(** The callbacks a model registers; a function pointer is a number, [None] for
    NULL. *)
Record mesh_model_ops := Ops {
  op_recv : option Z; op_bind : option Z; op_pub : option Z; op_sub : option Z }.
Definition no_ops : mesh_model_ops := Ops None None None None.

Record mesh_model := Model {
  md_cbs : mesh_model_ops; md_user_data : Z; md_bindings : list Z; md_subscriptions : list Z;
  md_id : Z; md_pub : option mesh_publication }.

Record mesh_element := Element { el_models : list mesh_model; el_loc : Z; el_index : Z }.

(** [name] and [features] are not used in the source. *)
Record mesh_node := MeshNode {
  nd_id : Z; nd_net_keys : list Z; nd_app_keys : list Z; nd_prov : Z;
  nd_elements : list mesh_element; nd_iv_index : Z; nd_seq_number : Z; nd_primary_net_idx : Z;
  nd_primary : Z; nd_oob : Z; nd_dev_uuid : list Z; nd_dev_key : list Z; nd_num_ele : Z;
  nd_ttl : Z; nd_provisioner : bool; nd_comp : option mesh_node_composition }.

Definition set_md_cbs (v : mesh_model_ops) (r : mesh_model) : mesh_model :=
  Model v (md_user_data r) (md_bindings r) (md_subscriptions r) (md_id r) (md_pub r).
Definition set_md_user_data (v : Z) (r : mesh_model) : mesh_model :=
  Model (md_cbs r) v (md_bindings r) (md_subscriptions r) (md_id r) (md_pub r).
Definition set_md_bindings (v : list Z) (r : mesh_model) : mesh_model :=
  Model (md_cbs r) (md_user_data r) v (md_subscriptions r) (md_id r) (md_pub r).
Definition set_md_subscriptions (v : list Z) (r : mesh_model) : mesh_model :=
  Model (md_cbs r) (md_user_data r) (md_bindings r) v (md_id r) (md_pub r).
Definition set_md_pub (v : option mesh_publication) (r : mesh_model) : mesh_model :=
  Model (md_cbs r) (md_user_data r) (md_bindings r) (md_subscriptions r) (md_id r) v.

Definition set_nd_net_keys (v : list Z) (r : mesh_node) : mesh_node :=
  MeshNode (nd_id r) v (nd_app_keys r) (nd_prov r) (nd_elements r) (nd_iv_index r)
    (nd_seq_number r) (nd_primary_net_idx r) (nd_primary r) (nd_oob r) (nd_dev_uuid r)
    (nd_dev_key r) (nd_num_ele r) (nd_ttl r) (nd_provisioner r) (nd_comp r).
Definition set_nd_app_keys (v : list Z) (r : mesh_node) : mesh_node :=
  MeshNode (nd_id r) (nd_net_keys r) v (nd_prov r) (nd_elements r) (nd_iv_index r)
    (nd_seq_number r) (nd_primary_net_idx r) (nd_primary r) (nd_oob r) (nd_dev_uuid r)
    (nd_dev_key r) (nd_num_ele r) (nd_ttl r) (nd_provisioner r) (nd_comp r).
Definition set_nd_prov (v : Z) (r : mesh_node) : mesh_node :=
  MeshNode (nd_id r) (nd_net_keys r) (nd_app_keys r) v (nd_elements r) (nd_iv_index r)
    (nd_seq_number r) (nd_primary_net_idx r) (nd_primary r) (nd_oob r) (nd_dev_uuid r)
    (nd_dev_key r) (nd_num_ele r) (nd_ttl r) (nd_provisioner r) (nd_comp r).
Definition set_nd_elements (v : list mesh_element) (r : mesh_node) : mesh_node :=
  MeshNode (nd_id r) (nd_net_keys r) (nd_app_keys r) (nd_prov r) v (nd_iv_index r)
    (nd_seq_number r) (nd_primary_net_idx r) (nd_primary r) (nd_oob r) (nd_dev_uuid r)
    (nd_dev_key r) (nd_num_ele r) (nd_ttl r) (nd_provisioner r) (nd_comp r).
Definition set_nd_iv_index (v : Z) (r : mesh_node) : mesh_node :=
  MeshNode (nd_id r) (nd_net_keys r) (nd_app_keys r) (nd_prov r) (nd_elements r) v
    (nd_seq_number r) (nd_primary_net_idx r) (nd_primary r) (nd_oob r) (nd_dev_uuid r)
    (nd_dev_key r) (nd_num_ele r) (nd_ttl r) (nd_provisioner r) (nd_comp r).
Definition set_nd_seq_number (v : Z) (r : mesh_node) : mesh_node :=
  MeshNode (nd_id r) (nd_net_keys r) (nd_app_keys r) (nd_prov r) (nd_elements r) (nd_iv_index r)
    v (nd_primary_net_idx r) (nd_primary r) (nd_oob r) (nd_dev_uuid r) (nd_dev_key r)
    (nd_num_ele r) (nd_ttl r) (nd_provisioner r) (nd_comp r).
Definition set_nd_primary (v : Z) (r : mesh_node) : mesh_node :=
  MeshNode (nd_id r) (nd_net_keys r) (nd_app_keys r) (nd_prov r) (nd_elements r) (nd_iv_index r)
    (nd_seq_number r) (nd_primary_net_idx r) v (nd_oob r) (nd_dev_uuid r) (nd_dev_key r)
    (nd_num_ele r) (nd_ttl r) (nd_provisioner r) (nd_comp r).
Definition set_nd_oob (v : Z) (r : mesh_node) : mesh_node :=
  MeshNode (nd_id r) (nd_net_keys r) (nd_app_keys r) (nd_prov r) (nd_elements r) (nd_iv_index r)
    (nd_seq_number r) (nd_primary_net_idx r) (nd_primary r) v (nd_dev_uuid r) (nd_dev_key r)
    (nd_num_ele r) (nd_ttl r) (nd_provisioner r) (nd_comp r).
Definition set_nd_dev_uuid (v : list Z) (r : mesh_node) : mesh_node :=
  MeshNode (nd_id r) (nd_net_keys r) (nd_app_keys r) (nd_prov r) (nd_elements r) (nd_iv_index r)
    (nd_seq_number r) (nd_primary_net_idx r) (nd_primary r) (nd_oob r) v (nd_dev_key r)
    (nd_num_ele r) (nd_ttl r) (nd_provisioner r) (nd_comp r).
Definition set_nd_dev_key (v : list Z) (r : mesh_node) : mesh_node :=
  MeshNode (nd_id r) (nd_net_keys r) (nd_app_keys r) (nd_prov r) (nd_elements r) (nd_iv_index r)
    (nd_seq_number r) (nd_primary_net_idx r) (nd_primary r) (nd_oob r) (nd_dev_uuid r) v
    (nd_num_ele r) (nd_ttl r) (nd_provisioner r) (nd_comp r).
Definition set_nd_num_ele (v : Z) (r : mesh_node) : mesh_node :=
  MeshNode (nd_id r) (nd_net_keys r) (nd_app_keys r) (nd_prov r) (nd_elements r) (nd_iv_index r)
    (nd_seq_number r) (nd_primary_net_idx r) (nd_primary r) (nd_oob r) (nd_dev_uuid r)
    (nd_dev_key r) v (nd_ttl r) (nd_provisioner r) (nd_comp r).
Definition set_nd_ttl (v : Z) (r : mesh_node) : mesh_node :=
  MeshNode (nd_id r) (nd_net_keys r) (nd_app_keys r) (nd_prov r) (nd_elements r) (nd_iv_index r)
    (nd_seq_number r) (nd_primary_net_idx r) (nd_primary r) (nd_oob r) (nd_dev_uuid r)
    (nd_dev_key r) (nd_num_ele r) v (nd_provisioner r) (nd_comp r).
Definition set_nd_provisioner (v : bool) (r : mesh_node) : mesh_node :=
  MeshNode (nd_id r) (nd_net_keys r) (nd_app_keys r) (nd_prov r) (nd_elements r) (nd_iv_index r)
    (nd_seq_number r) (nd_primary_net_idx r) (nd_primary r) (nd_oob r) (nd_dev_uuid r)
    (nd_dev_key r) (nd_num_ele r) (nd_ttl r) v (nd_comp r).
Definition set_nd_comp (v : option mesh_node_composition) (r : mesh_node) : mesh_node :=
  MeshNode (nd_id r) (nd_net_keys r) (nd_app_keys r) (nd_prov r) (nd_elements r) (nd_iv_index r)
    (nd_seq_number r) (nd_primary_net_idx r) (nd_primary r) (nd_oob r) (nd_dev_uuid r)
    (nd_dev_key r) (nd_num_ele r) (nd_ttl r) (nd_provisioner r) v.

Definition set_el_models (l : list mesh_model) (e : mesh_element) : mesh_element :=
  Element l (el_loc e) (el_index e).

(** What [g_malloc0] returns. *)
Definition zero_node (id : Z) : mesh_node :=
  MeshNode id [] [] 0 [] 0 0 0 0 0 (rep 16 0) (rep 16 0) 0 0 false None.
Definition zero_model (id : Z) : mesh_model := Model no_ops 0 [] [] id None.

(** The client models of the lights and of the time, a file each. *)
Inductive light := HSL | CTL | LEVEL | LIGHTNESS | TIME.
#[export] Instance light_eq_dec : EqDecision light.
Proof. solve_decision. Defined.
(** The static variables of such a file: [hsl_app_idx] and so on, [trans_id],
    [target] and [parms]. *)
Record client_vars := ClientVars {
  cv_app_idx : Z; cv_trans_id : Z; cv_target : Z; cv_parms : list Z }.
Definition start_vars : client_vars := ClientVars APP_IDX_INVALID 0 0 (rep 8 0).
Record light_statics := LightStatics {
  hsl_vars : client_vars; ctl_vars : client_vars; level_vars : client_vars;
  lightness_vars : client_vars; time_vars : client_vars }.
Definition get_light (l : light) (r : light_statics) : client_vars :=
  match l with
  | HSL => hsl_vars r | CTL => ctl_vars r | LEVEL => level_vars r
  | LIGHTNESS => lightness_vars r | TIME => time_vars r
  end.
Definition set_light (l : light) (v : client_vars) (r : light_statics) : light_statics :=
  let at_ l' := if decide (l = l') then v else get_light l' r in
  LightStatics (at_ HSL) (at_ CTL) (at_ LEVEL) (at_ LIGHTNESS) (at_ TIME).

(** The static variables of the model files: [onoff_app_idx] and [trans_id] of
    [onoff-model.c], and those of the five files. *)
Record model_statics := Statics {
  onoff_app_idx : Z; trans_id : Z; light_vars : light_statics }.
Definition start_statics : model_statics :=
  Statics APP_IDX_INVALID 0 (LightStatics start_vars start_vars start_vars start_vars start_vars).

(** [nodes] and [local_node]; [ns_valid] is false once the links of [nodes] have
    been freed.  [ns_next] is the address of the next node to be allocated. *)
Record node_store := NodeStore {
  ns_nodes : list mesh_node; ns_local : option Z; ns_valid : bool; ns_next : Z;
  ns_statics : model_statics }.

Definition is_node (id : Z) (n : mesh_node) : bool := nd_id n =? id.

(** [*node]. *)
Definition node_ref (s : node_store) (id : Z) : res mesh_node :=
  if ns_valid s then of_option UseAfterFree (find_first (is_node id) (ns_nodes s))
  else Fault UseAfterFree.

(** ** Well-formed stores *)

Record model_wf (m : mesh_model) : Prop := {
  model_subs : NoDup (md_subscriptions m);
}.
Record element_wf (e : mesh_element) : Prop := {
  element_ids : NoDup (md_id <$> el_models e);
  element_models : Forall model_wf (el_models e);
}.
Record node_wf (n : mesh_node) : Prop := {
  node_net : NoDup (nd_net_keys n);
  node_app : NoDup (nd_app_keys n);
  node_elements : Forall element_wf (nd_elements n);
  node_devkey : len (nd_dev_key n) = 16;
  node_unicast : is_u16 (nd_primary n);
}.
Record store_wf (s : node_store) : Prop := {
  store_valid : ns_valid s = true;
  store_ids : NoDup (nd_id <$> ns_nodes s);
  store_nodes : Forall node_wf (ns_nodes s);
  store_fresh : Forall (fun n => nd_id n < ns_next s) (ns_nodes s);
  store_local : ∀ l, ns_local s = Some l ->
    exists n, find_first (is_node l) (ns_nodes s) = Some n /\ nd_primary n < 0x8000;
}.

(** ** Lookup *)

Definition match_node_unicast (dst : Z) (node : mesh_node) : bool :=
  (nd_primary node <=? u16 dst) && (u16 dst <=? nd_primary node + nd_num_ele node - 1).
Definition match_device_uuid (uuid : list Z) (node : mesh_node) : bool :=
  bool_decide (nd_dev_uuid node = uuid).
Definition match_element_idx (index : Z) (e : mesh_element) : bool := el_index e =? index.
Definition match_model_id (id : Z) (m : mesh_model) : bool := md_id m =? id.

Definition all_nodes (s : node_store) : res (list mesh_node) :=
  if ns_valid s then Ok (ns_nodes s) else Fault UseAfterFree.

Definition find_by_addr (s : node_store) (addr : Z) : res (option mesh_node) :=
  if negb (IS_UNICAST addr) then mret None else
  l ← all_nodes s; mret (find_first (match_node_unicast addr) l).
Definition node_find_by_uuid (s : node_store) (uuid : list Z) : res (option mesh_node) :=
  l ← all_nodes s; mret (find_first (match_device_uuid uuid) l).
Definition get_local_node (s : node_store) : res (option mesh_node) :=
  match ns_local s with None => mret None | Some id => n ← node_ref s id; mret (Some n) end.

(** What the network layer sees of a node. *)
Definition view_of (n : mesh_node) : node_view :=
  NodeView (nd_primary n) (nd_dev_key n) (nd_primary_net_idx n).

Definition local_view (s : node_store) : res (option node_view) :=
  n ← get_local_node s; mret (option_map view_of n).
Definition addr_view (s : node_store) (addr : Z) : res (option node_view) :=
  n ← find_by_addr s addr; mret (option_map view_of n).

#[export] Instance store_iface : NodeIface node_store := {
  node_get_local_node := local_view; node_find_by_addr := addr_view; node_inv := store_wf }.

(** ** Handlers on the store *)

Abbreviation NM := (@M node_store).

Definition on_store (f : node_store -> node_store) (w : world node_store) : world node_store :=
  World (w_net w) (w_keys w) (f (w_nodes w)) (w_next w) (w_timers w) (w_sync w) (w_out w).
Definition store : NM node_store := gets w_nodes.
Definition mod_store (f : node_store -> node_store) : NM unit := modify (on_store f).

Definition set_nodes (l : list mesh_node) (s : node_store) : node_store :=
  NodeStore l (ns_local s) (ns_valid s) (ns_next s) (ns_statics s).

(** The store with one more node, at a fresh address. *)
Definition push_node (f : Z -> mesh_node) (s : node_store) : node_store :=
  NodeStore (ns_nodes s ++ [f (ns_next s)]) (ns_local s) (ns_valid s) (ns_next s + 1) (ns_statics s).

(** [*node] and [*node = f( *node)]. *)
Definition node_deref (id : Z) : NM mesh_node := s ← store; lift (node_ref s id).
Definition node_assign (id : Z) (f : mesh_node -> mesh_node) : NM unit :=
  _ ← node_deref id; mod_store (fun s => set_nodes (update_first (is_node id) f (ns_nodes s)) s).

(** [if (!node) return v;] in front of a handler. *)
Definition nonnull {A} (node : option Z) (v : A) (h : Z -> NM A) : NM A :=
  match node with None => mret v | Some id => h id end.
(** A dereference without that test. *)
Definition nonnull_or_fault {A} (node : option Z) (h : Z -> NM A) : NM A :=
  match node with None => fail NullDeref | Some id => h id end.

(** ** Creation and release *)

Definition node_create_new (oob : Z) (uuid : list Z) : NM (option Z) :=
  s ← store;
  found ← lift (node_find_by_uuid s uuid);
  match found with
  | Some _ => mret None
  | None =>
      _ ← mod_store (push_node (fun id => set_nd_oob oob (set_nd_dev_uuid uuid (zero_node id))));
      mret (Some (ns_next s))
  end.

Definition node_new : NM (option Z) :=
  s ← store;
  _ ← lift (all_nodes s);
  _ ← mod_store (push_node zero_node);
  mret (Some (ns_next s)).

(** [g_list_remove] and [free_node_resources]; [local_node] is not looked at. *)
Definition node_free (node : option Z) : NM unit :=
  nonnull node tt (fun id =>
    _ ← node_deref id;
    mod_store (fun s => set_nodes (remove_first (is_node id) (ns_nodes s)) s)).

(** [nodes] keeps pointing at the links that are freed. *)
Definition node_cleanup : NM unit :=
  s ← store;
  _ ← lift (all_nodes s);
  mod_store (fun s => NodeStore [] None (bool_decide (ns_nodes s = [])) (ns_next s)
    (ns_statics s)).

(** ** Fields *)

Definition node_is_provisioned (node : option Z) : NM bool :=
  nonnull_or_fault node (fun id => n ← node_deref id; mret (negb (nd_primary n =? UNASSIGNED))).
Definition node_get_prov (node : option Z) : NM Z :=
  nonnull_or_fault node (fun id => n ← node_deref id; mret (nd_prov n)).
Definition node_set_prov (node : option Z) (prov : Z) : NM unit :=
  nonnull_or_fault node (fun id => node_assign id (set_nd_prov prov)).
Definition node_set_primary (node : option Z) (unicast : Z) : NM unit :=
  nonnull_or_fault node (fun id => node_assign id (set_nd_primary unicast)).
Definition node_set_device_key (node : option Z) (key : option (list Z)) : NM unit :=
  nonnull node tt (fun id =>
    match key with None => mret tt | Some k => node_assign id (set_nd_dev_key k) end).
Definition node_set_num_elements (node : option Z) (num_ele : Z) : NM unit :=
  nonnull_or_fault node (fun id => node_assign id (set_nd_num_ele num_ele)).
Definition node_get_num_elements (node : option Z) : NM Z :=
  nonnull_or_fault node (fun id => n ← node_deref id; mret (nd_num_ele n)).
Definition node_get_net_keys (node : option Z) : NM (list Z) :=
  nonnull node [] (fun id => n ← node_deref id; mret (nd_net_keys n)).
Definition node_get_app_keys (node : option Z) : NM (list Z) :=
  nonnull node [] (fun id => n ← node_deref id; mret (nd_app_keys n)).

(** ** Keys of a node *)

Definition in_list (x : Z) (l : list Z) : bool := bool_decide (x ∈ l).
Definition glist_remove (x : Z) (l : list Z) : list Z := remove_first (fun y => y =? x) l.

(** [(net_idx << 16) + idx] *)
Definition app_index (net_idx idx : Z) : Z := u32 (Z.shiftl net_idx 16 + idx).

Definition node_app_key_add (node : option Z) (idx : Z) : NM bool :=
  nonnull node false (fun id =>
    w ← get;
    let net_idx := keys_app_key_get_bound (w_keys w) idx in
    if net_idx =? NET_IDX_INVALID then mret false else
    n ← node_deref id;
    if negb (in_list net_idx (nd_net_keys n)) then mret false else
    let index := app_index net_idx idx in
    if in_list index (nd_app_keys n) then mret false else
    _ ← node_assign id (fun n => set_nd_app_keys (nd_app_keys n ++ [index]) n);
    mret true).

Definition node_net_key_add (node : option Z) (index : Z) : NM bool :=
  nonnull node false (fun id =>
    n ← node_deref id;
    if in_list index (nd_net_keys n) then mret false else
    _ ← node_assign id (fun n => set_nd_net_keys (nd_net_keys n ++ [index]) n);
    mret true).

Definition node_net_key_delete (node : option Z) (index : Z) : NM bool :=
  nonnull node false (fun id =>
    n ← node_deref id;
    if negb (in_list index (nd_net_keys n)) then mret false else
    _ ← node_assign id (fun n => set_nd_net_keys (glist_remove index (nd_net_keys n)) n);
    mret true).

Definition node_app_key_delete (node : option Z) (net_idx idx : Z) : NM bool :=
  nonnull node false (fun id =>
    n ← node_deref id;
    let index := app_index net_idx idx in
    if negb (in_list index (nd_app_keys n)) then mret false else
    _ ← node_assign id (fun n => set_nd_app_keys (glist_remove index (nd_app_keys n)) n);
    mret true).

(** ** Elements and models *)

Definition find_element (n : mesh_node) (ele_idx : Z) : option mesh_element :=
  find_first (match_element_idx ele_idx) (nd_elements n).
Definition find_model (e : mesh_element) (id : Z) : option mesh_model :=
  find_first (match_model_id id) (el_models e).

(** [*model] for the model that [get_model] finds. *)
Definition get_model (n : mesh_node) (ele_idx model_id : Z) : option mesh_model :=
  e ← find_element n ele_idx; find_model e model_id.

Definition on_element (ele_idx : Z) (f : mesh_element -> mesh_element) (n : mesh_node) : mesh_node :=
  set_nd_elements (update_first (match_element_idx ele_idx) f (nd_elements n)) n.
Definition on_model (ele_idx model_id : Z) (f : mesh_model -> mesh_model) : mesh_node -> mesh_node :=
  on_element ele_idx (fun e =>
    set_el_models (update_first (match_model_id model_id) f (el_models e)) e).

Definition node_set_element (node : option Z) (ele_idx : Z) : NM bool :=
  nonnull node false (fun id =>
    n ← node_deref id;
    match find_element n ele_idx with
    | Some _ => mret false
    | None =>
        _ ← node_assign id (fun n => set_nd_elements (nd_elements n ++ [Element [] 0 ele_idx]) n);
        mret true
    end).

Definition node_set_model (node : option Z) (ele_idx model_id : Z) : NM bool :=
  nonnull node false (fun id =>
    n ← node_deref id;
    match find_element n ele_idx with
    | None => mret false
    | Some e =>
        match find_model e model_id with
        | Some _ => mret true
        | None =>
            _ ← node_assign id (on_element ele_idx (fun e =>
                  set_el_models (el_models e ++ [zero_model model_id]) e));
            mret true
        end
    end).

Definition node_set_composition (node : option Z) (comp : option mesh_node_composition) : NM bool :=
  nonnull node false (fun id =>
    match comp with
    | None => mret false
    | Some c =>
        n ← node_deref id;
        match nd_comp n with
        | Some _ => mret false
        | None => _ ← node_assign id (set_nd_comp (Some c)); mret true
        end
    end).
Definition node_get_composition (node : option Z) : NM (option mesh_node_composition) :=
  nonnull node None (fun id => n ← node_deref id; mret (nd_comp n)).

(** *** Composition data

    [data] is the object from the pointer on; [len] is a [uint16_t] that wraps.
    The parser reads [data] at the offset [off]. *)

(** [while (len >= 2 && m--)]: the SIG models of an element. *)
Fixpoint parse_sig (m : nat) (node : Z) (ele_idx : Z) (data : list Z) (off len : Z)
    : NM (option (Z * Z)) :=
  if negb (2 <=? len) then mret (Some (off, len)) else
  match m with
  | O => mret (Some (off, len))
  | S m' =>
      id ← lift (get_le16 data off);
      ok ← node_set_model (Some node) ele_idx (Z.lor id 0xffff0000);
      if negb ok then mret None else
      parse_sig m' node ele_idx data (off + 2) (len - 2)
  end.

(** [while (len >= 4 && v--)]: the vendor models. *)
Fixpoint parse_vendor (v : nat) (node : Z) (ele_idx : Z) (data : list Z) (off len : Z)
    : NM (option (Z * Z)) :=
  if negb (4 <=? len) then mret (Some (off, len)) else
  match v with
  | O => mret (Some (off, len))
  | S v' =>
      mod_id ← lift (get_le16 data (off + 2));
      vendor_id ← lift (get_le16 data off);
      ok ← node_set_model (Some node) ele_idx (Z.lor mod_id (u32 (Z.shiftl vendor_id 16)));
      if negb ok then mret None else
      parse_vendor v' node ele_idx data (off + 4) (len - 4)
  end.

(** The body of [for (i = 0; i < node->num_ele; i++)]. *)
Definition parse_element (i : Z) (node : Z) (data : list Z) (off len : Z) : NM (option (Z * Z)) :=
  loc ← lift (get_le16 data off);
  _ ← node_assign node (fun nd => set_nd_elements (nd_elements nd ++ [Element [] loc i]) nd);
  m ← lift (rd data (off + 2));
  v ← lift (rd data (off + 3));
  r ← parse_sig (Z.to_nat m) node i data (off + 4) (u16 (len - 2));
  match r with
  | None => mret None
  | Some (off, len) => parse_vendor (Z.to_nat v) node i data off len
  end.

(** [n] elements left. *)
Fixpoint parse_elements (n : nat) (i : Z) (node : Z) (data : list Z) (off len : Z) : NM bool :=
  match n with
  | O => mret true
  | S n' =>
      r ← parse_element i node data off len;
      match r with
      | None => mret false
      | Some (off, len) => parse_elements n' (i + 1) node data off len
      end
  end.

Definition comp_of (features c p v r : Z) : mesh_node_composition :=
  Composition (truth (Z.land features MESH_FEATURE_RELAY)) (truth (Z.land features MESH_FEATURE_PROXY))
    (truth (Z.land features MESH_FEATURE_LPN)) (truth (Z.land features MESH_FEATURE_FRIEND)) c p v r.

Definition node_parse_composition (node : option Z) (data : list Z) (len : Z) : NM bool :=
  let len := u16 (len - 1) in
  cid ← lift (get_le16 data 1);
  pid ← lift (get_le16 data 3);
  vid ← lift (get_le16 data 5);
  crpl ← lift (get_le16 data 7);
  features ← lift (get_le16 data 9);
  let len := u16 (len - 10) in
  nonnull_or_fault node (fun id =>
    n ← node_deref id;
    ok ← parse_elements (Z.to_nat (nd_num_ele n)) 0 id data 11 len;
    if negb ok then mret false else
    _ ← node_assign id (set_nd_comp (Some (comp_of features cid pid vid crpl)));
    mret true).

(** ** The local node *)

(** [local_node->provisioner = true] comes after [net_register_unicast], which
    has read the node. *)
Definition node_set_local_node (node : option Z) : NM bool :=
  s ← store;
  match ns_local s with
  | Some _ => mret false
  | None =>
      nonnull_or_fault node (fun id =>
        n ← node_deref id;
        let _ := net_register_unicast (nd_primary n) (nd_num_ele n) in
        _ ← mod_store (fun s => NodeStore (ns_nodes s) (Some id) (ns_valid s) (ns_next s)
              (ns_statics s));
        _ ← node_assign id (set_nd_provisioner true);
        mret true)
  end.

Definition node_is_local (node : option Z) : NM bool :=
  s ← store; mret (bool_decide (node = ns_local s)).

(** [node == local_node || local_node == NULL] *)
Definition local_or_none (id : Z) : NM bool :=
  s ← store; mret (match ns_local s with None => true | Some l => l =? id end).

Definition node_get_default_ttl (node : option Z) : NM Z :=
  nonnull node DEFAULT_TTL (fun id =>
    local ← node_is_local node;
    if (local : bool) then net_get_default_ttl else n ← node_deref id; mret (nd_ttl n)).
Definition node_set_default_ttl (node : option Z) (ttl : Z) : NM bool :=
  nonnull node false (fun id =>
    _ ← node_assign id (set_nd_ttl ttl);
    local ← local_or_none id;
    if (local : bool) then net_set_default_ttl ttl else mret true).
Definition node_set_sequence_number (node : option Z) (seq : Z) : NM bool :=
  nonnull node false (fun id =>
    _ ← node_assign id (set_nd_seq_number seq);
    local ← local_or_none id;
    if (local : bool) then net_set_seq_num seq else mret true).
Definition node_get_sequence_number (node : option Z) : NM Z :=
  nonnull node 0xffffffff (fun id =>
    local ← node_is_local node;
    if (local : bool) then net_get_seq_num else n ← node_deref id; mret (nd_seq_number n)).
Definition node_set_iv_index (node : option Z) (iv_index : Z) : NM bool :=
  nonnull node false (fun id => _ ← node_assign id (set_nd_iv_index iv_index); mret true).
Definition node_get_iv_index (node : option Z) : NM Z :=
  nonnull node 0xffffffff (fun id =>
    local ← node_is_local node;
    if (local : bool) then '(iv, _) ← net_get_iv_index; mret iv
    else n ← node_deref id; mret (nd_iv_index n)).

(** ** Models with callbacks

    What the callbacks that models register do: [run_recv cb src data len
    user_data], [run_bind cb app_idx action] and [run_pub cb pub].  [fuel] bounds
    the nesting of the packet queue, as in [net_access_layer_send]. *)
Class ModelCode := {
  run_recv : nat -> Z -> Z -> list Z -> Z -> Z -> NM bool;
  run_bind : Z -> Z -> Z -> NM Z;
  run_pub : Z -> mesh_publication -> NM unit;
}.

(** Models that only note what they receive. *)
#[export] Instance noting_models : ModelCode := {
  run_recv _ cb src data l user := _ ← emit (ModelRecv cb src (take (Z.to_nat l) data) user); mret true;
  run_bind _ _ _ := mret MESH_STATUS_SUCCESS;
  run_pub _ _ := mret tt }.

Section Models.
Context {MC : ModelCode}.

(** The models of the element, in order; each is read again when its turn
    comes, since a callback may have changed it. *)
Fixpoint deliver_models (fuel : nat) (node ele_idx : Z) (ids : list Z) (src app_idx : Z)
    (data : list Z) (len : Z) : NM bool :=
  match ids with
  | [] => mret false
  | id :: ids' =>
      n ← node_deref node;
      match get_model n ele_idx id with
      | None => fail UseAfterFree
      | Some m =>
          if negb (in_list app_idx (md_bindings m)) then
            deliver_models fuel node ele_idx ids' src app_idx data len
          else
            match op_recv (md_cbs m) with
            | None => deliver_models fuel node ele_idx ids' src app_idx data len
            | Some cb =>
                r ← run_recv fuel cb src data len (md_user_data m);
                if (r : bool) then mret true
                else deliver_models fuel node ele_idx ids' src app_idx data len
            end
      end
  end.
Definition deliver_model_data (fuel : nat) (node : Z) (e : mesh_element) (src app_idx : Z)
    (data : list Z) (len : Z) : NM bool :=
  deliver_models fuel node (el_index e) (md_id <$> el_models e) src app_idx data len.

(** [iv_index << 24] is computed in 32 bits; the sequence number of the remote
    node is joined to [iv_seq], not to [iv_seq_remote]. *)
Definition replayed (remote : mesh_node) (iv_index seq_num : Z) : bool :=
  let iv_seq := Z.lor (u32 (Z.shiftl iv_index 24)) seq_num in
  let iv_seq_remote := u32 (Z.shiftl (nd_iv_index remote) 24) in
  let iv_seq := Z.lor iv_seq (nd_seq_number remote) in
  iv_seq <=? iv_seq_remote.

(** The remote node, created if we are not the provisioner; [None] where the
    handler returns. *)
Definition remote_node (local : mesh_node) (src : Z) : NM (option Z) :=
  s ← store;
  remote ← lift (find_by_addr s src);
  match remote with
  | Some r => mret (Some (nd_id r))
  | None =>
      if nd_provisioner local then mret None else
      _ ← mod_store (push_node (fun id => set_nd_num_ele 1 (set_nd_primary (u16 src) (zero_node id))));
      mret (Some (ns_next s))
  end.

(** The element a destination means: [None] where the handler returns. *)
Definition dst_element (local : mesh_node) (dst : Z) : option mesh_element :=
  if IS_GROUP dst || IS_VIRTUAL dst then None else
  if IS_ALL_NODES dst then find_element local 0 else
  if (nd_primary local + nd_num_ele local <=? dst) || (dst <? nd_primary local) then None
  else find_element local (u8 (dst - nd_primary local)).

Definition store_data_handler (fuel : nat) (src dst iv_index seq_num app_idx : Z) (data : list Z)
    (len : Z) : NM unit :=
  _ ← emit (Delivered src dst iv_index seq_num app_idx (take (Z.to_nat len) data));
  s ← store;
  match ns_local s with
  | None => mret tt
  | Some lid =>
      if 0xffffff <? seq_num then mret tt else
      local ← node_deref lid;
      remote ← remote_node local src;
      match remote with
      | None => mret tt
      | Some rid =>
          let loopback := (src <? nd_primary local + nd_num_ele local) && (nd_primary local <=? src) in
          r ← node_deref rid;
          if negb loopback && replayed r iv_index seq_num then mret tt else
          local ← node_deref lid;
          match dst_element local dst with
          | None => mret tt
          | Some e =>
              res ← deliver_model_data fuel lid e src app_idx data len;
              if (res : bool) && negb loopback then
                _ ← node_assign rid (fun n => set_nd_seq_number seq_num (set_nd_iv_index iv_index n));
                r ← node_deref rid;
                emit (StoreIvSeq (nd_primary r) iv_index seq_num)
              else mret tt
          end
      end
  end.

#[export] Instance store_handler : DataHandler node_store := store_data_handler.

(** ** Registration, bindings, publication *)

(** [for (l = model->bindings; l; l = l->next)] until a callback fails. *)
Fixpoint restore_bindings (cb : Z) (l : list Z) : NM unit :=
  match l with
  | [] => mret tt
  | app_idx :: l' =>
      r ← run_bind cb app_idx ACTION_ADD;
      if negb (r =? MESH_STATUS_SUCCESS) then mret tt else restore_bindings cb l'
  end.

(** The idle callback for a model; it removes itself. *)
Definition restore_model_state (node ele_idx model_id : Z) : NM bool :=
  n ← node_deref node;
  match get_model n ele_idx model_id with
  | None => fail UseAfterFree
  | Some m =>
      _ ← (match op_bind (md_cbs m) with
           | Some cb => restore_bindings cb (md_bindings m)
           | None => mret tt
           end);
      _ ← (match md_pub m, op_pub (md_cbs m) with
           | Some p, Some cb => run_pub cb p
           | _, _ => mret tt
           end);
      mret true
  end.

Definition node_local_vendor_model_register (ele_idx model_id : Z) (ops : mesh_model_ops)
    (user_data : Z) : NM bool :=
  s ← store;
  match ns_local s with
  | None => mret false
  | Some lid =>
      local ← node_deref lid;
      match get_model local ele_idx model_id with
      | None => mret false
      | Some _ =>
          _ ← node_assign lid (on_model ele_idx model_id
                (fun m => set_md_user_data user_data (set_md_cbs ops m)));
          let short := if 0xffff0000 <=? model_id then Z.land model_id 0xffff else model_id in
          _ ← (if (short =? CONFIG_SERVER_MODEL_ID) || (short =? CONFIG_CLIENT_MODEL_ID) then
                 node_assign lid (on_model ele_idx model_id
                   (fun m => set_md_bindings (md_bindings m ++ [APP_IDX_DEV]) m))
               else emit (IdleRestore ele_idx model_id));
          mret true
      end
  end.

Definition node_local_model_register (ele_idx model_id : Z) (ops : mesh_model_ops) (user_data : Z)
    : NM bool :=
  node_local_vendor_model_register ele_idx (Z.lor 0xffff0000 model_id) ops user_data.

Definition node_add_binding (node : option Z) (ele_idx model_id app_idx : Z) : NM bool :=
  nonnull node false (fun id =>
    n ← node_deref id;
    match get_model n ele_idx model_id with
    | None => mret false
    | Some m =>
        if in_list app_idx (md_bindings m) then mret false else
        local ← node_is_local node;
        refused ← (match local : bool, op_bind (md_cbs m) with
                   | true, Some cb => r ← run_bind cb app_idx ACTION_ADD; mret (negb (truth r))
                   | _, _ => mret false
                   end);
        if (refused : bool) then mret false else
        _ ← node_assign id (on_model ele_idx model_id
              (fun m => set_md_bindings (md_bindings m ++ [app_idx]) m));
        mret true
    end).

Definition node_add_subscription (node : option Z) (ele_idx model_id addr : Z) : NM bool :=
  nonnull node false (fun id =>
    n ← node_deref id;
    match get_model n ele_idx model_id with
    | None => mret false
    | Some m =>
        if in_list addr (md_subscriptions m) then mret false else
        _ ← node_assign id (on_model ele_idx model_id
              (fun m => set_md_subscriptions (md_subscriptions m ++ [addr]) m));
        mret true
    end).

Definition node_model_pub_set (node : option Z) (ele_idx model_id : Z) (pub : mesh_publication)
    : NM bool :=
  nonnull node false (fun id =>
    n ← node_deref id;
    match get_model n ele_idx model_id with
    | None => mret false
    | Some m =>
        _ ← node_assign id (on_model ele_idx model_id (set_md_pub (Some pub)));
        local ← node_is_local node;
        _ ← (match local : bool, op_pub (md_cbs m) with
             | true, Some cb => run_pub cb pub
             | _, _ => mret tt
             end);
        mret true
    end).

Definition node_model_pub_get (node : option Z) (ele_idx model_id : Z)
    : NM (option mesh_publication) :=
  nonnull node None (fun id =>
    n ← node_deref id; mret (m ← get_model n ele_idx model_id; md_pub m)).

End Models.
