(* ===== verification/NodeFacts.v ===== *)
(** * What the node layer does

    The well-formedness of the node store and its preservation; delivery to the
    models and the replay check; and that the node layer is the handler the
    network layer relies on. *)

From S2P Require Import Prelude Bytes Alg Ccm Crypto Packet Pdu Keys NetState Send Beacon Recv Reassembly Node.

Section Wp.
Implicit Types w : world node_store.

Definition has_node (id : Z) (s : node_store) : Prop := id ∈ nd_id <$> ns_nodes s.

Lemma has_node_find id s : has_node id s ->
  exists n, find_first (is_node id) (ns_nodes s) = Some n /\ nd_id n = id.
Proof.
  intros (n & -> & Hn)%list_elem_of_fmap.
  destruct (find_first (is_node (nd_id n)) (ns_nodes s)) as [m|] eqn:E.
  - exists m. split; [done|]. apply find_first_some in E as [_ E]. by apply Z.eqb_eq in E.
  - apply find_first_none in E. rewrite Forall_forall in E. specialize (E n Hn).
    unfold is_node in E. by rewrite Z.eqb_refl in E.
Qed.

Lemma find_by_id s n : store_wf s -> n ∈ ns_nodes s ->
  find_first (is_node (nd_id n)) (ns_nodes s) = Some n.
Proof. intros [_ Hnd _ _ _]. by apply find_first_key. Qed.

Lemma wp_of_ok {S A} (m : St S A) (Q : A -> S -> Prop) s r : m s = Ok r -> Q r.1 r.2 -> wp m Q s.
Proof. unfold wp. intros ->. by destruct r. Qed.

Lemma wp_eq {S A} (m : St S A) s r : wp m (fun a s' => (a, s') = r) s -> m s = Ok r.
Proof. unfold wp. by destruct (m s) as [[a s']|]; [intros ->|]. Qed.

Lemma wp_true {S} (m : St S bool) s (P : S -> Prop) :
  wp m (fun r s' => r = true /\ P s') s -> exists s', m s = Ok (true, s') /\ P s'.
Proof. unfold wp. destruct (m s) as [[r s']|]; [|done]. intros [-> HP]. by exists s'. Qed.

Lemma node_deref_wp id w (Q : mesh_node -> world node_store -> Prop) n :
  ns_valid (w_nodes w) = true -> find_first (is_node id) (ns_nodes (w_nodes w)) = Some n ->
  Q n w -> wp (node_deref id) Q w.
Proof.
  intros Hv Hn HQ. unfold node_deref, store. wp_run. eapply wp_lift; [|exact HQ].
  unfold node_ref. by rewrite Hv, Hn.
Qed.

Definition upd_node (id : Z) (f : mesh_node -> mesh_node) (s : node_store) : node_store :=
  set_nodes (update_first (is_node id) f (ns_nodes s)) s.

Lemma node_assign_wp id f w (Q : unit -> world node_store -> Prop) n :
  ns_valid (w_nodes w) = true -> find_first (is_node id) (ns_nodes (w_nodes w)) = Some n ->
  Q tt (on_store (upd_node id f) w) -> wp (node_assign id f) Q w.
Proof.
  intros Hv Hn HQ. unfold node_assign. wp_step. eapply node_deref_wp; [done..|].
  unfold mod_store. by wp_run.
Qed.

Lemma upd_ids id f s : (∀ n, nd_id (f n) = nd_id n) ->
  nd_id <$> ns_nodes (upd_node id f s) = nd_id <$> ns_nodes s.
Proof. intros Hid. by apply map_update_first. Qed.

Lemma ids_fresh next l : Forall (fun n => nd_id n < next) l <-> Forall (fun i => i < next) (nd_id <$> l).
Proof. by rewrite Forall_fmap. Qed.

Lemma find_update_both {B} (p q : B -> bool) f l x : (∀ y, q (f y) = q y) ->
  find_first p l = Some x -> find_first q l = Some x ->
  find_first q (update_first p f l) = Some (f x).
Proof.
  intros Hq Hp Hx. pose proof (find_first_some _ _ _ Hp) as [_ Hpx].
  pose proof (find_first_some _ _ _ Hx) as [_ Hqx]. revert Hp Hx. unfold find_first.
  induction l as [|y l IH]; [done|]. cbn [find update_first].
  destruct (p y) eqn:Ep; cbn [find]; rewrite ?Hq.
  - intros [= ->] _. by rewrite Hqx.
  - destruct (q y) eqn:Eq; [intros _ [= ->]; congruence | exact IH].
Qed.

Lemma find_upd id f s n : (∀ n, nd_id (f n) = nd_id n) ->
  find_first (is_node id) (ns_nodes s) = Some n ->
  find_first (is_node id) (ns_nodes (upd_node id f s)) = Some (f n).
Proof. intros Hid. apply find_update_first. intros y. unfold is_node. by rewrite Hid. Qed.

Lemma find_upd_other id j f s : (∀ n, nd_id (f n) = nd_id n) -> j <> id ->
  find_first (is_node j) (ns_nodes (upd_node id f s)) = find_first (is_node j) (ns_nodes s).
Proof.
  intros Hid Hne. apply find_update_first_other. intros y. unfold is_node.
  rewrite Hid, Z.eqb_eq, Z.eqb_neq. intros ->. split; [done | congruence].
Qed.

(** Replacing a node by one that is as good. *)
Lemma upd_node_wf_local id f s n : (∀ n, nd_id (f n) = nd_id n) ->
  find_first (is_node id) (ns_nodes s) = Some n -> node_wf (f n) ->
  (ns_local s = Some id -> nd_primary n < 0x8000 -> nd_primary (f n) < 0x8000) ->
  store_wf s -> store_wf (upd_node id f s).
Proof.
  intros Hid Hn Hf Hp [Hv Hnd Hall Hfr Hl].
  constructor; rewrite ?(ids_fresh (ns_next s)), ?upd_ids by done; try done; [|by rewrite <-ids_fresh|].
  - by apply (Forall_update_found _ _ _ _ n).
  - intros l Hs. destruct (Hl l Hs) as (m & Hm & Hpm). destruct (decide (l = id)) as [->|Hne].
    + exists (f m). assert (m = n) as -> by congruence. split; [|auto].
      by apply find_upd.
    + exists m. split; [|done]. by rewrite find_upd_other.
Qed.
Lemma upd_node_wf id f s n : (∀ n, nd_id (f n) = nd_id n) ->
  find_first (is_node id) (ns_nodes s) = Some n -> node_wf (f n) ->
  (nd_primary n < 0x8000 -> nd_primary (f n) < 0x8000) ->
  store_wf s -> store_wf (upd_node id f s).
Proof. intros. by eapply upd_node_wf_local. Qed.

Lemma upd_has id j f s : (∀ n, nd_id (f n) = nd_id n) ->
  has_node j (upd_node id f s) <-> has_node j s.
Proof. intros Hid. unfold has_node. by rewrite upd_ids. Qed.

Lemma push_node_wf f s : node_wf (f (ns_next s)) -> nd_id (f (ns_next s)) = ns_next s ->
  store_wf s -> store_wf (push_node f s).
Proof.
  intros Hn Hid [Hv Hnd Hall Hfr Hl].
  constructor; cbn [push_node ns_valid ns_nodes ns_local ns_next]; try done.
  - apply NoDup_snoc_elem; [done|]. intros (m & Hm & Hin)%list_elem_of_fmap.
    rewrite Forall_forall in Hfr. apply Hfr in Hin. lia.
  - apply Forall_app. by split; [|constructor].
  - apply Forall_app. split; [|constructor; [lia | constructor]].
    eapply Forall_impl; [exact Hfr|]. cbn. lia.
  - intros l Hs. destruct (Hl l Hs) as (m & Hm & Hp). exists m. split; [|done].
    by rewrite find_first_app, Hm.
Qed.

Lemma free_node_wf id s : ns_local s <> Some id -> store_wf s ->
  store_wf (set_nodes (remove_first (is_node id) (ns_nodes s)) s).
Proof.
  intros Hloc [Hv Hnd Hall Hfr Hl].
  constructor; cbn [set_nodes ns_valid ns_nodes ns_local]; try done.
  - by apply NoDup_remove_first.
  - by apply Forall_remove_first.
  - by apply Forall_remove_first.
  - intros l Hs. destruct (Hl l Hs) as (n & Hf & Hn). exists n. split; [|done].
    rewrite find_remove_first_other; [done|]. assert (l <> id) by congruence.
    intros y. unfold is_node. rewrite Z.eqb_eq, Z.eqb_neq. lia.
Qed.

Lemma zero_node_wf id : node_wf (zero_node id).
Proof. constructor; cbn; try constructor; lia. Qed.

(** A store that is well formed in a world. *)
Definition nodes_wf w : Prop := store_wf (w_nodes w).

Lemma has_node_wf id w : nodes_wf w -> has_node id (w_nodes w) ->
  exists n, find_first (is_node id) (ns_nodes (w_nodes w)) = Some n /\ nd_id n = id /\ node_wf n.
Proof.
  intros [_ _ Hall _ _] (n & Hf & Hid)%has_node_find. exists n. split_and!; try done.
  rewrite Forall_forall in Hall. by apply Hall, (find_first_some _ _ _ Hf).
Qed.

Lemma node_deref_ok id w (Q : mesh_node -> world node_store -> Prop) :
  nodes_wf w -> has_node id (w_nodes w) ->
  (∀ n, find_first (is_node id) (ns_nodes (w_nodes w)) = Some n -> nd_id n = id -> node_wf n -> Q n w) ->
  wp (node_deref id) Q w.
Proof.
  intros Hw (n & Hf & Hid & Hn)%has_node_wf HQ; [|done].
  eapply node_deref_wp; [by destruct Hw | exact Hf | by apply HQ].
Qed.

Lemma node_assign_ok id f w (Q : unit -> world node_store -> Prop) :
  nodes_wf w -> has_node id (w_nodes w) -> (∀ n, nd_id (f n) = nd_id n) ->
  (∀ n, find_first (is_node id) (ns_nodes (w_nodes w)) = Some n -> node_wf n ->
     node_wf (f n) /\ (nd_primary n < 0x8000 -> nd_primary (f n) < 0x8000)) ->
  (nodes_wf (on_store (upd_node id f) w) -> Q tt (on_store (upd_node id f) w)) ->
  wp (node_assign id f) Q w.
Proof.
  intros Hw (n & Hf & _ & Hn)%has_node_wf Hid Hok HQ; [|done].
  eapply node_assign_wp; [by destruct Hw | exact Hf|]. apply HQ.
  destruct (Hok n Hf Hn). by eapply upd_node_wf.
Qed.
End Wp.

(** *** Elements *)

Lemma node_wf_elements n l : Forall element_wf l -> node_wf n -> node_wf (set_nd_elements l n).
Proof. intros Hl []. by constructor. Qed.

(** Replacing the element that is found. *)
Lemma on_element_wf ele f n e : find_element n ele = Some e -> (element_wf e -> element_wf (f e)) ->
  node_wf n -> node_wf (on_element ele f n).
Proof.
  intros He Hf Hn. apply node_wf_elements; [|done]. destruct Hn as [_ _ Hel _ _].
  apply (Forall_update_found _ _ _ _ e); [done..|]. apply Hf.
  rewrite Forall_forall in Hel. apply Hel. by apply find_first_some in He as [? _].
Qed.

(** Replacing the model that is found by one of the same identifier. *)
Lemma on_model_wf ele id f n m : get_model n ele id = Some m -> (∀ m, md_id (f m) = md_id m) ->
  (model_wf m -> model_wf (f m)) -> node_wf n -> node_wf (on_model ele id f n).
Proof.
  unfold get_model. destruct (find_element n ele) as [e|] eqn:He; [|done]. cbn. intros Hm Hid Hf.
  apply (on_element_wf _ _ _ e); [done|]. intros [Hnd Hms].
  constructor; cbn [el_models set_el_models]; [by rewrite map_update_first|].
  apply (Forall_update_found _ _ _ _ m); [done..|]. apply Hf.
  rewrite Forall_forall in Hms. apply Hms. by apply find_first_some in Hm as [? _].
Qed.

Lemma push_model_wf id e : find_model e id = None -> element_wf e ->
  element_wf (set_el_models (el_models e ++ [zero_model id]) e).
Proof.
  intros Hf [Hnd Hm]. constructor; cbn [el_models set_el_models].
  - apply NoDup_snoc; [done|]. apply find_first_none in Hf. eapply Forall_impl; [exact Hf|].
    intros m. unfold match_model_id. cbn. intros E%Z.eqb_neq. done.
  - apply Forall_app. split; [done|]. constructor; [|constructor]. constructor. constructor.
Qed.

(** A field outside the lists, or one of the key lists. *)
Lemma node_wf_field n n' : node_wf n -> nd_net_keys n' = nd_net_keys n ->
  nd_app_keys n' = nd_app_keys n -> nd_elements n' = nd_elements n -> nd_dev_key n' = nd_dev_key n ->
  nd_primary n' = nd_primary n -> node_wf n'.
Proof. intros [] ? ? ? ? ?. by constructor; congruence. Qed.

Lemma in_list_false x l : negb (in_list x l) = true <-> x ∉ l.
Proof. unfold in_list. rewrite negb_true_iff. apply bool_decide_eq_false. Qed.

Lemma NoDup_push (x : Z) l : in_list x l = false -> NoDup l -> NoDup (l ++ [x]).
Proof.
  intros Hx%bool_decide_eq_false Hl. apply NoDup_app. split_and!; [done | | apply NoDup_singleton].
  intros y Hy ->%list_elem_of_singleton. done.
Qed.

Lemma NoDup_glist_remove x l : NoDup l -> NoDup (glist_remove x l).
Proof. intros Hl. eapply sublist_NoDup; [exact Hl | apply remove_first_sublist]. Qed.

(** ** What the model code promises *)

Definition has_model (id ele m : Z) (s : node_store) : Prop :=
  exists n, find_first (is_node id) (ns_nodes s) = Some n /\ is_Some (get_model n ele m).

(** No node and no model goes away. *)
Record keeps (s s' : node_store) : Prop := {
  keeps_local : ns_local s' = ns_local s;
  keeps_node : ∀ id, has_node id s -> has_node id s';
  keeps_model : ∀ id ele m, has_model id ele m s -> has_model id ele m s';
}.
#[export] Instance keeps_preorder : PreOrder keeps.
Proof. split; [by split | intros ? ? ? [] []; split; eauto; congruence]. Qed.

(** The state a callback is entered with, and what it leaves. *)
Record up_ready `{Alg} (fuel : nat) (w : world node_store) : Prop := {
  up_rx : rx_ready w;
  up_nodes : nodes_wf w;
  up_fuel : (2 * active (msg_out (w_net w)) + 2 <= fuel)%nat;
}.
Record up_post `{Alg} (fuel : nat) (w w' : world node_store) : Prop := {
  post_ready : up_ready fuel w';
  post_sar : sar_in (w_net w') = sar_in (w_net w);
  post_up : handed_up w' = handed_up w;
  post_keeps : keeps (w_nodes w) (w_nodes w');
}.

Class ModelCodeOk (MC : ModelCode) {A : Alg} : Prop := {
  recv_ok : ∀ fuel cb src data l user w, up_ready fuel w -> 0 <= l <= len data ->
    wp (run_recv fuel cb src data l user) (fun _ => up_post fuel w) w;
  bind_ok : ∀ cb idx action w, nodes_wf w ->
    wp (run_bind cb idx action) (fun _ w' => nodes_wf w' /\ keeps (w_nodes w) (w_nodes w')) w;
  pub_ok : ∀ cb p w, nodes_wf w ->
    wp (run_pub cb p) (fun _ w' => nodes_wf w' /\ keeps (w_nodes w) (w_nodes w')) w;
}.

Lemma up_ready_out `{Alg} fuel e w : up_ready fuel w -> up_ready fuel (with_out e w).
Proof. intros []. split; [by apply rx_ready_out | done | done]. Qed.

#[export] Instance noting_models_ok (A : Alg) : ModelCodeOk noting_models.
Proof.
  split; intros; cbn [run_recv run_bind run_pub noting_models]; unfold emit; wp_run.
  - split; [by apply up_ready_out | done | by apply handed_up_quiet | done].
  - done.
  - done.
Qed.

(** ** The node layer as the handler of the network layer *)

Section Handler.
Context `{A : Alg} {MC : ModelCode} {MCO : ModelCodeOk MC}.
Implicit Types w : world node_store.

Lemma store_nodes_ok s : store_wf s -> nodes_ok s.
Proof.
  intros Hwf. pose proof Hwf as [Hv _ Hall _ Hl]. rewrite Forall_forall in Hall.
  assert (Hok : ∀ o, (∀ n, o = Some n -> n ∈ ns_nodes s /\ nd_primary n < 0x8000) ->
    view_ok (option_map view_of o)).
  { intros [n|] Hn; [|done]. destruct (Hn n eq_refl) as [Hin Hp]. destruct (Hall n Hin) as [? ? ? ? ?].
    cbn. split; [done | lia]. }
  split; [done|]. split; cbn [node_get_local_node node_find_by_addr store_iface].
  - unfold local_view, get_local_node. destruct (ns_local s) as [l|] eqn:E; [|by exists None].
    destruct (Hl l eq_refl) as (n & Hf & Hp). exists (Some (view_of n)).
    split; [by unfold node_ref; rewrite Hv, Hf|]. apply (Hok (Some n)).
    intros ? [= <-]. split; [by apply (find_first_some _ _ _ Hf) | done].
  - intros addr. unfold addr_view, find_by_addr, all_nodes. rewrite Hv.
    case_goal; [by exists None|]. eexists. split; [done|]. apply Hok.
    intros n [Hin Hm]%find_first_some. split; [done|].
    unfold match_node_unicast, IS_UNICAST, VIRTUAL_ADDRESS_LOW, u16 in *.
    bool_hyps. zlia.
Qed.

(** A step that only changes the store. *)
Lemma store_step fuel w f : up_ready fuel w -> store_wf (f (w_nodes w)) ->
  keeps (w_nodes w) (f (w_nodes w)) -> up_post fuel w (on_store f w).
Proof.
  intros [[[[] Hn Hv Ht] H1 H2 H3] Hw Hf] Hok Hk.
  constructor; [constructor; [constructor; [constructor|..]|..] | ..]; try done.
  by apply store_nodes_ok.
Qed.

Lemma keeps_upd id f s : (∀ n, nd_id (f n) = nd_id n) ->
  (∀ n ele m, find_first (is_node id) (ns_nodes s) = Some n ->
     is_Some (get_model n ele m) -> is_Some (get_model (f n) ele m)) ->
  keeps s (upd_node id f s).
Proof.
  intros Hid Hm. constructor; [done | by intros; apply upd_has |].
  intros j ele m (n & Hf & Hg).
  destruct (decide (j = id)) as [->|Hne].
  - exists (f n). split; [by apply find_upd | by apply Hm].
  - exists n. split; [by rewrite find_upd_other | done].
Qed.

Lemma keeps_push f s : keeps s (push_node f s).
Proof.
  constructor; [done | |].
  - intros id Hid. unfold has_node. cbn. rewrite fmap_app. apply elem_of_app. by left.
  - intros id ele m (k & Hf & Hg). exists k. split; [|done]. cbn [push_node ns_nodes].
    rewrite find_first_app. by rewrite Hf.
Qed.

Lemma up_post_trans fuel w1 w2 w3 : up_post fuel w1 w2 -> up_post fuel w2 w3 -> up_post fuel w1 w3.
Proof. intros [] []. split; [done | congruence | congruence | by etrans]. Qed.

Lemma up_post_refl fuel w : up_ready fuel w -> up_post fuel w w.
Proof. by split. Qed.

(** The models of the element are offered the message in turn. *)
Lemma deliver_models_ok fuel id ele src app_idx data l ids w :
  up_ready fuel w -> 0 <= l <= len data -> has_node id (w_nodes w) ->
  Forall (fun m => has_model id ele m (w_nodes w)) ids ->
  wp (deliver_models fuel id ele ids src app_idx data l) (fun _ => up_post fuel w) w.
Proof.
  intros Hw Hl Hid Hids. revert w Hw Hid Hids. induction ids as [|m ids IH]; intros w Hw Hid Hids.
  - by apply wp_ret, up_post_refl.
  - apply Forall_cons in Hids as [(n & Hn & md & Hm) Hids]. cbn [deliver_models].
    apply wp_bind. eapply node_deref_wp; [by destruct Hw as [_ []] | exact Hn|]. rewrite Hm.
    case_goal; [by apply IH|]. destruct (op_recv (md_cbs md)) as [cb|]; [|by apply IH].
    apply wp_bind. eapply wp_mono; [by apply recv_ok|]. intros r w1 Hp. cbn beta.
    destruct r; [by apply wp_ret|]. pose proof Hp as [Hr _ _ [_ Hkn Hkm]].
    eapply wp_mono; [apply IH; [done | by apply Hkn |] | intros ? w2; by apply up_post_trans].
    eapply Forall_impl; [exact Hids|]. intros k. apply Hkm.
Qed.

Lemma remote_node_ok fuel local src w :
  up_ready fuel w ->
  wp (remote_node local src) (fun r w' => up_post fuel w w' /\
    match r with Some id => has_node id (w_nodes w') | None => True end) w.
Proof.
  intros Hw. unfold remote_node, store. wp_run. pose proof Hw as [_ Hn _].
  assert (Hv : ns_valid (w_nodes w) = true) by by destruct Hn.
  assert (Hfind : exists o, find_by_addr (w_nodes w) src = Ok o /\
    ∀ n, o = Some n -> n ∈ ns_nodes (w_nodes w)).
  { unfold find_by_addr, all_nodes. rewrite Hv. case_goal; [by exists None|].
    eexists. split; [done|]. intros n Hf. by apply (find_first_some _ _ _ Hf). }
  destruct Hfind as (o & Ho & Hin). eapply wp_lift; [exact Ho|].
  destruct o as [n|].
  - wp_run. split; [by apply up_post_refl|]. apply list_elem_of_fmap. exists n. auto.
  - destruct (nd_provisioner local); [wp_run; by split; [apply up_post_refl|]|].
    unfold mod_store. wp_run. split.
    + apply store_step; [done | | by apply keeps_push].
      apply push_node_wf; [|done..]. destruct (zero_node_wf (ns_next (w_nodes w))).
      constructor; try done. apply u16_range.
    + unfold has_node. cbn. rewrite fmap_app. apply elem_of_app. right. by left.
Qed.
(** The records of what a node was heard with. *)
Definition heard (iv_index seq_num : Z) (n : mesh_node) : mesh_node :=
  set_nd_seq_number seq_num (set_nd_iv_index iv_index n).

Lemma heard_wf iv seq n : node_wf n -> node_wf (heard iv seq n).
Proof. intros Hn. by apply (node_wf_field n). Qed.

Lemma dst_element_found n dst e :
  dst_element n dst = Some e -> find_element n (el_index e) = Some e.
Proof.
  assert (G : ∀ i, find_element n i = Some e -> find_element n (el_index e) = Some e).
  { intros i H. pose proof (find_first_some _ _ _ H) as [_ Hi]. apply Z.eqb_eq in Hi. by rewrite Hi. }
  unfold dst_element. repeat case_goal; intros H; try done; by apply (G _ H).
Qed.

Lemma element_has_models id n e s : find_first (is_node id) (ns_nodes s) = Some n ->
  find_element n (el_index e) = Some e -> element_wf e ->
  Forall (fun m => has_model id (el_index e) m s) (md_id <$> el_models e).
Proof.
  intros Hn He [_ _]. apply Forall_fmap, Forall_forall. intros m Hm. exists n. split; [done|].
  unfold get_model. rewrite He. cbn. unfold find_model.
  destruct (find_first (match_model_id (md_id m)) (el_models e)) as [m'|] eqn:E; [by eexists|].
  apply find_first_none in E. rewrite Forall_forall in E. specialize (E m Hm).
  unfold match_model_id in E. by rewrite Z.eqb_refl in E.
Qed.

Lemma store_data_handler_wp fuel src dst iv seq app_idx data l w :
  up_ready fuel w -> 0 <= l <= len data ->
  wp (store_data_handler fuel src dst iv seq app_idx data l)
    (fun _ => up_post fuel (with_out (Delivered src dst iv seq app_idx (take (Z.to_nat l) data)) w)) w.
Proof.
  intros Hw0 Hl. unfold store_data_handler, emit, store. set (ev := Delivered _ _ _ _ _ _).
  apply wp_bind, wp_modify. pose proof (up_ready_out fuel ev w Hw0) as Hw. clear Hw0.
  revert Hw. generalize (with_out ev w). clear w ev. intros w Hw. wp_run.
  pose proof (up_post_refl fuel w Hw) as Hid. pose proof Hw as [_ [Hv _ _ _ Hloc] _].
  destruct (ns_local (w_nodes w)) as [lid|] eqn:El; [|done].
  destruct (Hloc lid eq_refl) as (loc & Hn & _). case_goal; [done|]. wp_step.
  eapply node_deref_wp; [done | exact Hn|]. wp_step.
  eapply wp_mono; [by apply remote_node_ok|]. intros [rid|] w1 [Hp Hrid]; cbn beta iota; [|done].
  wp_step. eapply node_deref_ok; [apply Hp | done|]. intros r _ _ _. case_goal; [done|]. wp_step.
  pose proof Hp as [Hw1 _ _ [Hl1 Hk1 _]].
  assert (Hlid : has_node lid (w_nodes w1)).
  { apply Hk1, list_elem_of_fmap. exists loc. apply find_first_some in Hn as [Hin Hi].
    apply Z.eqb_eq in Hi. done. }
  eapply node_deref_ok; [apply Hp | done|]. intros loc1 Hn1 _ Hwf1.
  destruct (dst_element loc1 dst) as [e|] eqn:Ed; [|done]. apply dst_element_found in Ed. wp_step.
  eapply wp_mono; [apply deliver_models_ok; try done|].
  { apply (element_has_models _ loc1); try done. destruct Hwf1 as [_ _ He _ _].
    rewrite Forall_forall in He. apply He. by apply find_first_some in Ed as [? _]. }
  intros res w2 Hp2. pose proof (up_post_trans _ _ _ _ Hp Hp2) as Hp02. cbn beta.
  case_goal; [|done]. pose proof Hp2 as [Hw2 _ _ [_ Hk2 _]]. wp_step.
  assert (Hhid : ∀ n, nd_id (heard iv seq n) = nd_id n) by done.
  eapply node_assign_ok; [apply Hw2 | by apply Hk2 | exact Hhid | |].
  { intros n _ Hn2. split; [by apply heard_wf | done]. }
  intros Hw3. wp_step. eapply node_deref_ok; [exact Hw3 | by apply upd_has, Hk2|].
  intros r3 _ _ _. apply wp_modify.
  assert (Hp3 : up_post fuel w2 (on_store (upd_node rid (heard iv seq)) w2)).
  { apply store_step; [done | exact Hw3|]. by apply keeps_upd. }
  eapply up_post_trans; [exact Hp02|]. eapply up_post_trans; [exact Hp3|].
  split; [by apply up_ready_out, Hp3 | done | by apply handed_up_quiet | done].
Qed.

#[export] Instance store_handler_ok : DataHandlerOk node_store store_handler.
Proof.
  intros fuel src dst iv seq i d l w Hw Hf Hl. unfold node_local_data_handler, store_handler.
  eapply wp_mono; [apply store_data_handler_wp; [|done]|].
  - split; [done | | done]. by destruct Hw as [[_ [? _] _ _] _ _ _].
  - intros _ w' [[Hr Hn Hf'] Hs Hu _]. split_and!; try done.
    rewrite Hu. unfold handed_up. cbn [w_out with_out]. by rewrite filter_app, filter_cons_True, filter_nil by done.
Qed.
End Handler.

(** ** Delivery to the models *)

(** Models that note what they are handed, and take it or not as a test of the
    callback, the source, the message and the data of the model says. *)
Definition choosing_models (accepts : Z -> Z -> list Z -> Z -> bool) : ModelCode := {|
  run_recv _ cb src data l user :=
    let msg := take (Z.to_nat l) data in _ ← emit (ModelRecv cb src msg user); mret (accepts cb src msg user);
  run_bind _ _ _ := mret MESH_STATUS_SUCCESS;
  run_pub _ _ := mret tt |}.

(** The elements of a list up to the first with a property, that one included. *)
Fixpoint up_to {B} (p : B -> bool) (l : list B) : list B :=
  match l with [] => [] | x :: l' => if p x then [x] else x :: up_to p l' end.
Lemma filter_up_to {B} (p q : B -> bool) l x :
  (∀ y, q y = p y) -> find_first p l = Some x -> List.filter p (up_to q l) = [x].
Proof.
  intros Hq. unfold find_first. induction l as [|y l IH]; [done|]. cbn [find up_to List.filter]. rewrite Hq.
  destruct (p y) eqn:Hy; [intros [= ->]; cbn [List.filter]; by rewrite Hy|]. intros Hf. cbn [List.filter]. rewrite Hy. by apply IH.
Qed.

Section Delivery.
Implicit Types (w : world node_store) (s : node_store).
Context (accepts : Z -> Z -> list Z -> Z -> bool).

(** A model that a message under the key [app_idx] is for. *)
Definition receives (app_idx : Z) (m : mesh_model) : bool :=
  in_list app_idx (md_bindings m) && match op_recv (md_cbs m) with Some _ => true | None => false end.

(** The node a message is from, and the store after looking it up. *)
Definition source_node s (local : mesh_node) (src : Z) : option (mesh_node * node_store) :=
  match (if IS_UNICAST src then find_first (match_node_unicast src) (ns_nodes s) else None) with
  | Some r => Some (r, s)
  | None =>
      let fresh_node id := set_nd_num_ele 1 (set_nd_primary (u16 src) (zero_node id)) in
      if nd_provisioner local then None else Some (fresh_node (ns_next s), push_node fresh_node s)
  end.

Definition is_loopback (local : mesh_node) (src : Z) : bool :=
  (nd_primary local <=? src) && (src <? nd_primary local + nd_num_ele local).

(** The model an accepted message goes to: the first of the element that [dst]
    means that receives under the key. *)
Definition dst_model (local : mesh_node) (dst app_idx : Z) : option mesh_model :=
  e ← dst_element local dst; find_first (receives app_idx) (el_models e).

Definition model_event (m : mesh_model) (src : Z) (data : list Z) : event :=
  ModelRecv (default 0 (op_recv (md_cbs m))) src data (md_user_data m).

(** A model that takes the message, and the models that are offered it: those that
    receive under the key, up to the first that takes it. *)
Definition takes (app_idx src : Z) (data : list Z) (m : mesh_model) : bool :=
  receives app_idx m && accepts (default 0 (op_recv (md_cbs m))) src data (md_user_data m).
Definition offered (app_idx src : Z) (data : list Z) (ms : list mesh_model) : list mesh_model :=
  List.filter (receives app_idx) (up_to (takes app_idx src data) ms).
Definition taken (app_idx src : Z) (data : list Z) (ms : list mesh_model) : bool :=
  existsb (takes app_idx src data) ms.

(** What a message does: the events after it is handed up, and the store. *)
Definition delivery s (local : mesh_node) (src dst iv seq app_idx : Z) (data : list Z)
    : list event * node_store :=
  match source_node s local src with
  | None => ([], s)
  | Some (r, s1) =>
      if negb (is_loopback local src) && replayed r iv seq then ([], s1) else
      match dst_element local dst with
      | None => ([], s1)
      | Some e =>
          let offers := (fun m => model_event m src data) <$> offered app_idx src data (el_models e) in
          if taken app_idx src data (el_models e) && negb (is_loopback local src)
          then (offers ++ [StoreIvSeq (nd_primary r) iv seq], upd_node (nd_id r) (heard iv seq) s1)
          else (offers, s1)
      end
  end.
(** Without a local node, or with a sequence number beyond 24 bits, it does nothing. *)
Definition handling s (src dst iv seq app_idx : Z) (data : list Z) : list event * node_store :=
  match (id ← ns_local s; find_first (is_node id) (ns_nodes s)) with
  | None => ([], s)
  | Some local => if 0xffffff <? seq then ([], s) else delivery s local src dst iv seq app_idx data
  end.

Definition outs (es : list event) w : world node_store :=
  World (w_net w) (w_keys w) (w_nodes w) (w_next w) (w_timers w) (w_sync w) (w_out w ++ es).

Lemma find_model_in e m : element_wf e -> m ∈ el_models e -> find_model e (md_id m) = Some m.
Proof. intros [Hnd _]. by apply find_first_key. Qed.

(** The first model that receives gets the message; if it takes it, that is all. *)
Lemma deliver_first {MC : ModelCode} fuel id n ele src app_idx data l (ms : list mesh_model) m cb w w' :
  ns_valid (w_nodes w) = true -> find_first (is_node id) (ns_nodes (w_nodes w)) = Some n ->
  Forall (fun m => get_model n ele (md_id m) = Some m) ms ->
  find_first (receives app_idx) ms = Some m -> op_recv (md_cbs m) = Some cb ->
  run_recv fuel cb src data l (md_user_data m) w = Ok (true, w') ->
  deliver_models fuel id ele (md_id <$> ms) src app_idx data l w = Ok (true, w').
Proof.
  intros Hv Hn Hms Hm Hcb Hr. revert Hm. unfold find_first. induction Hms as [|x ms Hx _ IH]; [done|].
  rewrite fmap_cons. cbn [find deliver_models]. intros Hm. apply wp_eq. wp_step.
  eapply node_deref_wp; [done | exact Hn|]. rewrite Hx. unfold receives in Hm at 1.
  assert (Hgo : deliver_models fuel id ele (md_id <$> ms) src app_idx data l w = Ok (true, w') ->
    wp (deliver_models fuel id ele (md_id <$> ms) src app_idx data l)
      (fun a v => (a, v) = (true, w')) w) by (unfold wp; by intros ->).
  destruct (in_list app_idx (md_bindings x)); cbn [negb andb] in *; [|by apply Hgo, IH].
  destruct (op_recv (md_cbs x)) as [cb'|] eqn:E; [|by apply Hgo, IH].
  injection Hm as ->. assert (cb' = cb) as -> by congruence. wp_step. by eapply wp_of_ok.
Qed.

Lemma deliver_models_choosing fuel id n ele src app_idx data l (ms : list mesh_model) w :
  ns_valid (w_nodes w) = true -> find_first (is_node id) (ns_nodes (w_nodes w)) = Some n ->
  Forall (fun m => get_model n ele (md_id m) = Some m) ms ->
  let msg := take (Z.to_nat l) data in
  deliver_models (MC := choosing_models accepts) fuel id ele (md_id <$> ms) src app_idx data l w =
  Ok (taken app_idx src msg ms, outs ((fun m => model_event m src msg) <$> offered app_idx src msg ms) w).
Proof.
  intros Hv Hn Hms msg. revert w Hv Hn. unfold taken, offered.
  induction Hms as [|m ms Hm _ IH]; intros w Hv Hn.
  { cbn. do 2 f_equal. unfold outs. rewrite app_nil_r. by destruct w. }
  rewrite fmap_cons. cbn [deliver_models existsb up_to].
  assert (Hd : node_deref id w = Ok (n, w)).
  { unfold node_deref, store, gets, lift, node_ref. cbn [mbind st_bind]. unfold mbind, st_bind. by rewrite Hv, Hn. }
  unfold mbind at 1, st_bind at 1. rewrite Hd. cbn beta iota. rewrite Hm.
  assert (Ht : takes app_idx src msg m =
    receives app_idx m && accepts (default 0 (op_recv (md_cbs m))) src msg (md_user_data m)) by done.
  rewrite !Ht. clear Ht. destruct (receives app_idx m) eqn:Hr.
  - pose proof Hr as Hr'. unfold receives in Hr'. apply andb_true_iff in Hr' as [-> Hcb]. cbn [negb andb orb].
    destruct (op_recv (md_cbs m)) as [cb|] eqn:E; [|done]. change (default 0 (Some cb)) with cb. apply wp_eq. wp_step.
    cbn [run_recv choosing_models]. fold msg. unfold emit. wp_step. wp_step. wp_step.
    destruct (accepts cb src msg (md_user_data m)); cbn [andb orb List.filter]; rewrite Hr.
    + wp_step. f_equal. rewrite fmap_cons. unfold model_event. by rewrite E.
    + eapply wp_of_ok; [by apply IH|]. f_equal. rewrite fmap_cons. unfold model_event at 2. rewrite E.
      unfold outs, with_out. cbn. by rewrite <-app_assoc.
  - cbn [andb orb List.filter]. rewrite Hr. unfold receives in Hr.
    destruct (in_list app_idx (md_bindings m)); cbn [negb andb] in *; [|by apply IH].
    destruct (op_recv (md_cbs m)); [done | by apply IH].
Qed.

(** What [remote_node] does. *)
Lemma remote_node_eq local src w : ns_valid (w_nodes w) = true ->
  remote_node local src w =
  Ok (match source_node (w_nodes w) local src with
      | Some (r, s1) => (Some (nd_id r), on_store (fun _ => s1) w)
      | None => (None, w)
      end).
Proof.
  intros Hv. unfold remote_node, source_node, store, gets.
  unfold mbind at 1, st_bind at 1. unfold find_by_addr, all_nodes. rewrite Hv.
  destruct (IS_UNICAST src); cbn [negb mbind res_bind mret res_ret];
    unfold mbind at 1, st_bind at 1, lift; cbn beta iota;
    [destruct (find_first _ _) as [r|]; [by destruct w|]|]; by destruct (nd_provisioner local).
Qed.

(** The source of a message is in the store, and the local node stays there. *)
Lemma source_node_in s local src r s1 : store_wf s -> source_node s local src = Some (r, s1) ->
  store_wf s1 /\ find_first (is_node (nd_id r)) (ns_nodes s1) = Some r /\ ns_local s1 = ns_local s /\
  (∀ id n, find_first (is_node id) (ns_nodes s) = Some n ->
     find_first (is_node id) (ns_nodes s1) = Some n).
Proof.
  intros Hs. unfold source_node. destruct (if IS_UNICAST src then _ else None) as [k|] eqn:E.
  - intros [= <- <-]. split_and!; try done. case_in E; [|done]. apply find_first_some in E as [Hin _].
    by apply find_by_id.
  - destruct (nd_provisioner local); [done|]. intros [= <- <-].
    assert (Hw : store_wf (push_node (fun id => set_nd_num_ele 1 (set_nd_primary (u16 src) (zero_node id))) s)).
    { apply push_node_wf; [|done..]. destruct (zero_node_wf (ns_next s)). constructor; try done. apply u16_range. }
    split_and!; try done.
    + apply find_by_id; [done|]. cbn. apply elem_of_app. right. by left.
    + intros id n Hn. cbn. by rewrite find_first_app, Hn.
Qed.

Lemma store_data_handler_run fuel src dst iv seq app_idx data l w lid local :
  store_wf (w_nodes w) -> ns_local (w_nodes w) = Some lid ->
  find_first (is_node lid) (ns_nodes (w_nodes w)) = Some local -> 0 <= seq <= 0xffffff ->
  let msg := take (Z.to_nat l) data in
  let '(evs, s') := delivery (w_nodes w) local src dst iv seq app_idx msg in
  store_data_handler (MC := choosing_models accepts) fuel src dst iv seq app_idx data l w =
  Ok (tt, on_store (fun _ => s') (outs (Delivered src dst iv seq app_idx msg :: evs) w)).
Proof.
  intros Hs Hlid Hloc Hseq msg.
  assert (H : wp (store_data_handler (MC := choosing_models accepts) fuel src dst iv seq app_idx data l)
    (fun _ w' => w' = on_store (fun _ => (delivery (w_nodes w) local src dst iv seq app_idx msg).2)
       (outs (Delivered src dst iv seq app_idx msg ::
          (delivery (w_nodes w) local src dst iv seq app_idx msg).1) w)) w).
  2: { apply wp_ok in H as ([] & w' & Hr & ->). by destruct (delivery _ _ _ _ _ _ _ _). }
  unfold store_data_handler, emit, store. wp_run. fold msg.
  cbn [w_nodes with_out]. rewrite Hlid, (proj2 (Z.ltb_ge _ _)) by lia. wp_step.
  pose proof Hs as [Hv _ Hall _ _]. rewrite Forall_forall in Hall.
  eapply node_deref_wp; [done | exact Hloc|]. wp_step.
  eapply wp_of_ok; [by apply remote_node_eq|]. cbn [w_nodes with_out]. unfold delivery.
  destruct (source_node (w_nodes w) local src) as [[r s1]|] eqn:Er; cbn beta iota; [|by wp_run; destruct w].
  destruct (source_node_in _ _ _ _ _ Hs Er) as (Hs1 & Hr & Hl1 & Hk).
  unfold is_loopback. rewrite (andb_comm (nd_primary local <=? src)).
  wp_step. eapply node_deref_wp; [by destruct Hs1 | exact Hr|].
  case_goal; [by wp_run|]. wp_step.
  eapply node_deref_wp; [by destruct Hs1 | by apply Hk|].
  destruct (dst_element local dst) as [e|] eqn:Ed; [|by wp_run].
  pose proof (dst_element_found _ _ _ Ed) as He.
  assert (Hewf : element_wf e).
  { apply find_first_some in Hloc as [Hin _]. destruct (Hall local Hin) as [_ _ Hel _ _].
    rewrite Forall_forall in Hel. apply Hel. by apply find_first_some in He as [? _]. }
  wp_step. unfold deliver_model_data. eapply wp_of_ok.
  { apply (deliver_models_choosing _ _ local); [by destruct Hs1 | by apply Hk|].
    apply Forall_forall. intros m Hm. unfold get_model. rewrite He. by apply find_model_in. }
  fold msg. destruct (taken app_idx src msg (el_models e)); cbn [andb].
  2: { wp_run. unfold on_store, outs, with_out. cbn. by rewrite <-app_assoc. }
  destruct ((src <? _) && _); cbn [negb andb].
  - wp_run. unfold on_store, outs, with_out. cbn. by rewrite <-app_assoc.
  - wp_step. eapply node_assign_wp; [by destruct Hs1 | exact Hr|]. wp_step.
    eapply node_deref_wp; [by destruct Hs1 | by apply (find_upd (nd_id r) (heard iv seq))|].
    wp_run. unfold on_store, outs, with_out. cbn. by rewrite <-!app_assoc.
Qed.
(** On every branch. *)
Lemma handling_run fuel src dst iv seq app_idx data l w : store_wf (w_nodes w) -> 0 <= seq ->
  let msg := take (Z.to_nat l) data in
  let '(evs, s') := handling (w_nodes w) src dst iv seq app_idx msg in
  store_data_handler (MC := choosing_models accepts) fuel src dst iv seq app_idx data l w =
  Ok (tt, on_store (fun _ => s') (outs (Delivered src dst iv seq app_idx msg :: evs) w)) /\ store_wf s'.
Proof.
  intros Hs Hseq msg. unfold handling. destruct (ns_local (w_nodes w)) as [lid|] eqn:El; cbn [mbind option_bind].
  2: { split; [|done]. apply wp_eq. unfold store_data_handler, emit, store. wp_run. cbn [w_nodes with_out]. rewrite El. by wp_run. }
  destruct Hs as [Hv Hnd Hall Hlt Hl] eqn:EHs. destruct (Hl lid El) as (local & Hloc & _). rewrite Hloc.
  destruct (Z.ltb_spec 0xffffff seq).
  { split; [|done]. apply wp_eq. unfold store_data_handler, emit, store. wp_run. cbn [w_nodes with_out]. rewrite El, (proj2 (Z.ltb_lt _ _)) by lia. by wp_run. }
  pose proof (store_data_handler_run fuel src dst iv seq app_idx data l w lid local Hs El Hloc ltac:(lia)) as H'.
  cbn zeta in H'. fold msg in H'.
  destruct (delivery (w_nodes w) local src dst iv seq app_idx msg) as [evs s'] eqn:E. split; [exact H'|].
  revert E. unfold delivery. destruct (source_node (w_nodes w) local src) as [[r s1]|] eqn:Er; [|by intros [= <- <-]].
  destruct (source_node_in _ _ _ _ _ Hs Er) as (Hs1 & Hr & _).
  case_goal; [by intros [= <- <-]|]. destruct (dst_element local dst); [|by intros [= <- <-]].
  case_goal; intros [= <- <-]; [|done]. apply (upd_node_wf _ _ _ r); try done.
  destruct Hs1 as [_ _ Hall1 _ _]. rewrite Forall_forall in Hall1.
  apply heard_wf, Hall1. by apply find_first_some in Hr as [? _].
Qed.
End Delivery.

(** Models that take everything: the first that receives is offered the message. *)
Lemma offered_all app_idx src data ms m :
  find_first (receives app_idx) ms = Some m ->
  offered (fun _ _ _ _ => true) app_idx src data ms = [m] /\ taken (fun _ _ _ _ => true) app_idx src data ms = true.
Proof.
  intros Hm. assert (Ht : ∀ y, takes (fun _ _ _ _ => true) app_idx src data y = receives app_idx y) by (intros; apply andb_true_r).
  split; [by apply filter_up_to|]. apply existsb_exists. exists m. rewrite Ht. by apply List.find_some in Hm.
Qed.

(** ** Theorems *)

(** C11: the node layer is the handler the network layer relies on.  If the
    callbacks of the models return, keep the state well formed and the messages
    in progress, and free no node and no model, then so does
    [node_local_data_handler] with a store as its nodes: from a well-formed state
    it returns without a fault and takes delivery of exactly the message, so that
    what is proved of the network layer against the interface holds of the two
    together. *)
Theorem node_layer_handles (A : Alg) (MC : ModelCode) (MCO : ModelCodeOk MC) :
  DataHandlerOk node_store (fun fuel src dst iv seq app_idx data l =>
    store_data_handler fuel src dst iv seq app_idx data l).
Proof. apply store_handler_ok. Qed.

(** C12: what an incoming access message does to the nodes and the models, on
    every branch.  The models note what they are handed, and each takes a message or
    refuses it as any test says.  Without a local node or with a sequence number beyond
    24 bits nothing happens.  Otherwise the message is offered, if the source is known
    or we are not the provisioner and a node is made for it, if the replay check passes
    or the source is local, and if there is an element that is addressed, to those models
    of that element, in order, that are bound to the key and have a callback, until one
    takes it, and to no other; and the IV index and the sequence number of a remote
    source are kept and stored exactly if a model took the message. *)
Theorem local_data_delivery (accepts : Z -> Z -> list Z -> Z -> bool) fuel src dst iv seq app_idx data l
    (w : world node_store) :
  store_wf (w_nodes w) -> 0 <= seq ->
  exists w', store_data_handler (MC := choosing_models accepts) fuel src dst iv seq app_idx data l w = Ok (tt, w') /\
    let msg := take (Z.to_nat l) data in
    let '(evs, s') := handling accepts (w_nodes w) src dst iv seq app_idx msg in
    w_nodes w' = s' /\ w_out w' = w_out w ++ Delivered src dst iv seq app_idx msg :: evs /\
    w_net w' = w_net w /\ store_wf s'.
Proof.
  intros Hs Hseq. pose proof (handling_run accepts fuel src dst iv seq app_idx data l w Hs Hseq) as H. cbn zeta in *.
  destruct (handling _ _ _ _ _ _ _ _) as [evs s']. destruct H as [H Hs']. by eexists.
Qed.

(** The replay check, exactly.  With sequence numbers of 24 bits a message
    from a remote node is refused if and only if the low octet of its IV index is
    below that of the IV index the node was last heard with, or the two are equal
    and both sequence numbers are zero.  The sequence numbers are not compared: a
    message that is received again under the same IV index is not refused; and the
    IV index counts modulo 256, so that after 0xff the index 0x100 is refused. *)
Theorem replayed_exact remote iv seq :
  is_u32 iv -> is_u32 (nd_iv_index remote) -> 0 <= seq < 2 ^ 24 ->
  0 <= nd_seq_number remote < 2 ^ 24 ->
  replayed remote iv seq = true <->
  iv mod 256 < nd_iv_index remote mod 256 \/
  iv mod 256 = nd_iv_index remote mod 256 /\ seq = 0 /\ nd_seq_number remote = 0.
Proof.
  intros Hiv Hriv Hseq Hrseq. unfold replayed. rewrite Z.leb_le, <-Z.lor_assoc.
  assert (Hsh : ∀ x, u32 (Z.shiftl x 24) = Z.shiftl (x mod 256) 24).
  { intros x. unfold u32. rewrite !Z.shiftl_mul_pow2 by lia. zlia. }
  rewrite !Hsh. pose proof (lor_below seq (nd_seq_number remote) 24 ltac:(lia) Hseq Hrseq) as Hb.
  rewrite (Z.lor_comm (Z.shiftl _ _)), lor_shiftl_add by lia.
  rewrite <-(Z.lor_eq_0_iff seq). rewrite Z.shiftl_mul_pow2 by lia.
  revert Hb. generalize (Z.lor seq (nd_seq_number remote)). intros x Hx.
  pose proof (Z.mod_pos_bound iv 256). pose proof (Z.mod_pos_bound (nd_iv_index remote) 256). nia.
Qed.

(** A message that is received again is delivered again.  A message from a
    remote node that a model takes is handed to that model a second time when the
    same PDU, with the same IV index and sequence number, comes again. *)
Theorem replay_delivered_twice fuel src dst iv seq app_idx data l (w : world node_store) lid local r m :
  store_wf (w_nodes w) -> ns_local (w_nodes w) = Some lid ->
  find_first (is_node lid) (ns_nodes (w_nodes w)) = Some local ->
  IS_UNICAST src = true -> find_first (match_node_unicast src) (ns_nodes (w_nodes w)) = Some r ->
  is_loopback local src = false -> nd_id r <> lid -> 0 < seq <= 0xffffff -> is_u32 iv ->
  replayed r iv seq = false -> dst_model local dst app_idx = Some m ->
  let msg := take (Z.to_nat l) data in
  let handed := [Delivered src dst iv seq app_idx msg; model_event m src msg;
                 StoreIvSeq (nd_primary r) iv seq] in
  exists w' w'', store_data_handler (MC := noting_models) fuel src dst iv seq app_idx data l w = Ok (tt, w') /\
    store_data_handler (MC := noting_models) fuel src dst iv seq app_idx data l w' = Ok (tt, w'') /\
    w_out w'' = w_out w ++ handed ++ handed.
Proof.
  intros Hs Hlid Hloc Hu Hr Hlb Hne Hseq Hiv Hrep Hm msg handed.
  assert (Hrun : ∀ v k, store_wf (w_nodes v) -> ns_local (w_nodes v) = Some lid ->
    find_first (is_node lid) (ns_nodes (w_nodes v)) = Some local ->
    find_first (match_node_unicast src) (ns_nodes (w_nodes v)) = Some k ->
    nd_primary k = nd_primary r -> replayed k iv seq = false ->
    store_data_handler (MC := noting_models) fuel src dst iv seq app_idx data l v =
    Ok (tt, on_store (fun _ => upd_node (nd_id k) (heard iv seq) (w_nodes v)) (outs handed v))).
  { intros v k H1 H2 H3 H4 H5 H6.
    pose proof (store_data_handler_run (fun _ _ _ _ => true) fuel src dst iv seq app_idx data l v lid local H1 H2 H3 ltac:(lia)) as H.
    revert H Hm. cbn zeta. unfold delivery, source_node, dst_model. rewrite Hu, H4, Hlb, H6, H5.
    destruct (dst_element local dst) as [e|]; [|done]. cbn [mbind option_bind negb andb]. fold msg.
    intros H [Ho Hk]%(offered_all app_idx src msg). rewrite Ho, Hk in H. exact H. }
  assert (Hid : ∀ n, nd_id (heard iv seq n) = nd_id n) by done.
  pose proof (find_first_some _ _ _ Hr) as [Hin _]. pose proof (find_by_id _ _ Hs Hin) as Hrid.
  assert (Hwf : node_wf r) by (destruct Hs as [_ _ Hall _ _]; rewrite Forall_forall in Hall; auto).
  eexists _, _. split; [by apply (Hrun w r)|]. split.
  - apply (Hrun _ (heard iv seq r)); cbn [w_nodes on_store outs]; try done.
    + apply (upd_node_wf _ _ _ r); try done. by apply heard_wf.
    + by rewrite find_upd_other by done.
    + by apply find_update_both.
    + destruct (replayed (heard iv seq r) iv seq) eqn:E; [|done]. exfalso.
      revert E. unfold replayed. rewrite Z.leb_le, <-Z.lor_assoc, Z.lor_diag.
      cbn [nd_seq_number nd_iv_index heard set_nd_seq_number set_nd_iv_index].
      assert (Hsh : u32 (Z.shiftl iv 24) = Z.shiftl (iv mod 256) 24)
        by (unfold u32; rewrite !Z.shiftl_mul_pow2 by lia; zlia).
      rewrite Hsh, Z.lor_comm, lor_shiftl_add by lia. rewrite Z.shiftl_mul_pow2 by lia. lia.
  - cbn [w_out on_store outs]. by rewrite <-app_assoc.
Qed.

(** *** A network with a local and a remote node *)

Definition demo_model : mesh_model := Model (Ops (Some 7) None None None) 42 [1] [] 0xffff1001 None.
Definition demo_local : mesh_node :=
  MeshNode 1 [0] [app_index 0 1] 0 [Element [zero_model 0xffff0000; demo_model] 0 0] 5 0 0 0x77 0
    (rep 16 0) (rep 16 9) 1 7 true None.
Definition demo_remote : mesh_node :=
  MeshNode 2 [0] [] 0 [] 5 10 0 0x100 0 (rep 16 3) (rep 16 8) 1 7 false None.
Definition demo_store : node_store :=
  NodeStore [demo_local; demo_remote] (Some 1) true 3 start_statics.
Definition demo_nodes : world node_store := World demo_net demo_keys demo_store 1 [] false [].

Lemma demo_store_wf : store_wf demo_store.
Proof.
  split; [done | apply (bool_decide_unpack _); by vm_compute | | |].
  - repeat constructor; cbn; try (apply (bool_decide_unpack _); by vm_compute); lia.
  - repeat constructor.
  - intros l [= <-]. by exists demo_local.
Qed.

Lemma node_layer_handles_witness :
  DataHandlerOk (A := toy_alg) node_store (fun fuel src dst iv seq app_idx data l =>
    store_data_handler (MC := noting_models) fuel src dst iv seq app_idx data l).
Proof. apply (node_layer_handles toy_alg noting_models _). Defined.

(** A local node with two models for the key, the first of which refuses what does not
    begin with 9. *)
Definition demo_refusing : mesh_model := Model (Ops (Some 6) None None None) 41 [1] [] 0xffff1003 None.
Definition demo_two : mesh_node := set_nd_elements [Element [demo_refusing; demo_model] 0 0] demo_local.
Definition demo_two_nodes : world node_store :=
  World demo_net demo_keys (NodeStore [demo_two; demo_remote] (Some 1) true 3 start_statics) 1 [] false [].
Definition demo_accepts (cb src : Z) (msg : list Z) (user : Z) : bool :=
  (cb =? 7) || match msg with 9 :: _ => true | _ => false end.

Lemma local_data_delivery_witness :
  (handling demo_accepts (w_nodes demo_two_nodes) 0x100 0x77 5 11 1 [1; 2; 3; 4]).1 =
    [model_event demo_refusing 0x100 [1; 2; 3; 4]; model_event demo_model 0x100 [1; 2; 3; 4]; StoreIvSeq 0x100 5 11] /\
  exists w', store_data_handler (MC := choosing_models demo_accepts) 2 0x100 0x77 5 11 1 [1; 2; 3; 4; 0] 4 demo_two_nodes =
      Ok (tt, w') /\
    let msg := take (Z.to_nat 4) [1; 2; 3; 4; 0] in
    let '(evs, s') := handling demo_accepts (w_nodes demo_two_nodes) 0x100 0x77 5 11 1 msg in
    w_nodes w' = s' /\ w_out w' = w_out demo_two_nodes ++ Delivered 0x100 0x77 5 11 1 msg :: evs /\
    w_net w' = w_net demo_two_nodes /\ store_wf s'.
Proof.
  split; [done|]. apply (local_data_delivery demo_accepts 2 0x100 0x77 5 11 1 [1; 2; 3; 4; 0] 4 demo_two_nodes); [|done].
  split; [done | apply (bool_decide_unpack _); by vm_compute | | |].
  - repeat constructor; cbn; try (apply (bool_decide_unpack _); by vm_compute); lia.
  - repeat constructor.
  - intros l [= <-]. by exists demo_two.
Defined.

Lemma replayed_exact_witness :
  replayed demo_remote 5 10 = true <->
  5 mod 256 < nd_iv_index demo_remote mod 256 \/
  5 mod 256 = nd_iv_index demo_remote mod 256 /\ 10 = 0 /\ nd_seq_number demo_remote = 0.
Proof. apply (replayed_exact demo_remote 5 10); by vm_compute. Defined.

Lemma replay_delivered_twice_witness :
  let msg := take (Z.to_nat 4) [1; 2; 3; 4; 0] in
  let handed := [Delivered 0x100 0x77 5 11 1 msg; model_event demo_model 0x100 msg;
                 StoreIvSeq (nd_primary demo_remote) 5 11] in
  exists w' w'', store_data_handler (MC := noting_models) 2 0x100 0x77 5 11 1 [1; 2; 3; 4; 0] 4 demo_nodes =
      Ok (tt, w') /\
    store_data_handler (MC := noting_models) 2 0x100 0x77 5 11 1 [1; 2; 3; 4; 0] 4 w' = Ok (tt, w'') /\
    w_out w'' = w_out demo_nodes ++ handed ++ handed.
Proof.
  apply (replay_delivered_twice 2 0x100 0x77 5 11 1 [1; 2; 3; 4; 0] 4 demo_nodes 1 demo_local demo_remote);
    [apply demo_store_wf | done..].
Defined.
