(* ===== verification/NodeOps.v ===== *)
(** * The operations on nodes

    Every operation of [src/blueZ/mesh/node.c] on live pointers returns, and keeps
    the node store well formed. *)

From S2P Require Import Prelude Bytes Alg Ccm Crypto Packet Pdu Keys NetState Send Beacon Recv Reassembly Node NodeFacts.

(** ** Operations as data *)

Inductive node_op :=
| OpCreate (oob : Z) (uuid : list Z)
| OpNew
| OpFree (node : Z)
| OpSetProv (node prov : Z)
| OpSetPrimary (node unicast : Z)
| OpSetDeviceKey (node : Z) (key : option (list Z))
| OpSetNumElements (node num_ele : Z)
| OpNetKeyAdd (node index : Z)
| OpNetKeyDelete (node index : Z)
| OpAppKeyAdd (node idx : Z)
| OpAppKeyDelete (node net_idx idx : Z)
| OpSetElement (node ele_idx : Z)
| OpSetModel (node ele_idx model_id : Z)
| OpSetComposition (node : Z) (comp : option mesh_node_composition)
| OpParseComposition (node : Z) (data : list Z) (len : Z)
| OpSetLocal (node : Z)
| OpSetTtl (node ttl : Z)
| OpSetSequence (node seq : Z)
| OpSetIvIndex (node iv_index : Z)
| OpRegister (ele_idx model_id : Z) (ops : mesh_model_ops) (user_data : Z)
| OpRestore (node ele_idx model_id : Z)
| OpAddBinding (node ele_idx model_id app_idx : Z)
| OpAddSubscription (node ele_idx model_id addr : Z)
| OpPubSet (node ele_idx model_id : Z) (pub : mesh_publication).

Section Ops.
Context {MC : ModelCode}.

(** [h; ] with the result dropped. *)
Definition run_ {B} (h : NM B) : NM unit := _ ← h; mret tt.

Definition run_op (op : node_op) : NM unit :=
  match op with
  | OpCreate oob uuid => run_ (node_create_new oob uuid)
  | OpNew => run_ node_new
  | OpFree n => node_free (Some n)
  | OpSetProv n prov => node_set_prov (Some n) prov
  | OpSetPrimary n a => node_set_primary (Some n) a
  | OpSetDeviceKey n k => node_set_device_key (Some n) k
  | OpSetNumElements n k => node_set_num_elements (Some n) k
  | OpNetKeyAdd n i => run_ (node_net_key_add (Some n) i)
  | OpNetKeyDelete n i => run_ (node_net_key_delete (Some n) i)
  | OpAppKeyAdd n i => run_ (node_app_key_add (Some n) i)
  | OpAppKeyDelete n i j => run_ (node_app_key_delete (Some n) i j)
  | OpSetElement n e => run_ (node_set_element (Some n) e)
  | OpSetModel n e m => run_ (node_set_model (Some n) e m)
  | OpSetComposition n c => run_ (node_set_composition (Some n) c)
  | OpParseComposition n d l => run_ (node_parse_composition (Some n) d l)
  | OpSetLocal n => run_ (node_set_local_node (Some n))
  | OpSetTtl n t => run_ (node_set_default_ttl (Some n) t)
  | OpSetSequence n s => run_ (node_set_sequence_number (Some n) s)
  | OpSetIvIndex n i => run_ (node_set_iv_index (Some n) i)
  | OpRegister e m ops u => run_ (node_local_vendor_model_register e m ops u)
  | OpRestore n e m => run_ (restore_model_state n e m)
  | OpAddBinding n e m a => run_ (node_add_binding (Some n) e m a)
  | OpAddSubscription n e m a => run_ (node_add_subscription (Some n) e m a)
  | OpPubSet n e m p => run_ (node_model_pub_set (Some n) e m p)
  end.

(** The node an operation follows a pointer to. *)
Definition op_node (op : node_op) : option Z :=
  match op with
  | OpCreate _ _ | OpNew | OpRegister _ _ _ _ => None
  | OpFree n | OpSetProv n _ | OpSetPrimary n _ | OpSetDeviceKey n _ | OpSetNumElements n _
  | OpNetKeyAdd n _ | OpNetKeyDelete n _ | OpAppKeyAdd n _ | OpAppKeyDelete n _ _
  | OpSetElement n _ | OpSetModel n _ _ | OpSetComposition n _ | OpParseComposition n _ _
  | OpSetLocal n | OpSetTtl n _ | OpSetSequence n _ | OpSetIvIndex n _ | OpRestore n _ _
  | OpAddBinding n _ _ _ | OpAddSubscription n _ _ _ | OpPubSet n _ _ _ => Some n
  end.

(** The octets [node_parse_composition] reads at most: each element has two
    counts of an octet. *)
Definition composition_room (num_ele : Z) : Z := 11 + (4 + 2 * 255 + 4 * 255) * num_ele.

(** The octets of a page from the elements on: for each of [k] elements the header and
    the models that it counts. *)
Fixpoint elements_complete (k : nat) (d : list Z) : bool :=
  match k with
  | O => true
  | S k' =>
      match d with
      | _ :: _ :: m :: v :: d' =>
          (2 * m + 4 * v <=? len d') && elements_complete k' (drop (Z.to_nat (2 * m + 4 * v)) d')
      | _ => false
      end
  end.
(** A page of [l] octets that is complete, or one in an object with room for whatever it
    may count. *)
Definition page_readable (num_ele : Z) (d : list Z) (l : Z) : Prop :=
  composition_room num_ele <= len d \/
  11 <= l <= len d /\ l <= 0xffff /\ elements_complete (Z.to_nat num_ele) (drop 11 (take (Z.to_nat l) d)) = true.

(** What an operation needs beyond live pointers. *)
Definition op_pre (op : node_op) (s : node_store) : Prop :=
  match op with
  | OpFree n => ns_local s <> Some n
  | OpSetPrimary _ a => 0 <= a < 0x8000
  | OpSetDeviceKey _ (Some k) => len k = 16
  | OpParseComposition n d l =>
      bytes d /\ ∀ nd, node_ref s n = Ok nd ->
        is_u8 (nd_num_ele nd) /\ page_readable (nd_num_ele nd) d l
  | OpSetLocal n => ∀ nd, node_ref s n = Ok nd -> nd_primary nd < 0x8000
  | OpRestore n e m => has_model n e m s
  | _ => True
  end.
Definition op_ok (op : node_op) (s : node_store) : Prop :=
  (∀ n, op_node op = Some n -> has_node n s) /\ op_pre op s.

End Ops.

(** ** The invariant *)

Section Keep.
Context `{A : Alg} {MC : ModelCode} {MCO : ModelCodeOk MC}.
Implicit Types w : world node_store.

Definition wf_post {B} (_ : B) w : Prop := store_wf (w_nodes w).

Lemma assign_keeps id f w : store_wf (w_nodes w) -> has_node id (w_nodes w) ->
  (∀ n, nd_id (f n) = nd_id n) ->
  (∀ n, find_first (is_node id) (ns_nodes (w_nodes w)) = Some n -> node_wf n ->
     node_wf (f n) /\ (nd_primary n < 0x8000 -> nd_primary (f n) < 0x8000)) ->
  wp (node_assign id f) wf_post w.
Proof. intros Hw Hh Hid Hf. by eapply node_assign_ok. Qed.

(** Assignments that keep the identifier lists as they are. *)
Lemma assign_field_keeps id f w : store_wf (w_nodes w) -> has_node id (w_nodes w) ->
  (∀ n, nd_id (f n) = nd_id n /\ nd_net_keys (f n) = nd_net_keys n /\ nd_app_keys (f n) = nd_app_keys n /\
     nd_elements (f n) = nd_elements n /\ nd_dev_key (f n) = nd_dev_key n /\ nd_primary (f n) = nd_primary n) ->
  wp (node_assign id f) wf_post w.
Proof.
  intros Hw Hh Hf. apply assign_keeps; [done | done | intros n; apply Hf |].
  intros n _ Hn. destruct (Hf n) as (? & ? & ? & ? & ? & E). split; [by apply (node_wf_field n)|].
  by rewrite E.
Qed.

Lemma assign_model_keeps id n ele i m f w : store_wf (w_nodes w) ->
  find_first (is_node id) (ns_nodes (w_nodes w)) = Some n -> get_model n ele i = Some m ->
  (∀ k, md_id (f k) = md_id k) -> (model_wf m -> model_wf (f m)) ->
  wp (node_assign id (on_model ele i f)) wf_post w.
Proof.
  intros Hw Hn Hm Hid Hf. pose proof (find_first_some _ _ _ Hn) as [Hin Hi]. apply Z.eqb_eq in Hi.
  apply assign_keeps; [done | | done |].
  - apply list_elem_of_fmap. by exists n.
  - intros n' Hn' Hwf. assert (n' = n) as -> by congruence. split; [|done].
    by apply (on_model_wf _ _ _ _ m).
Qed.

Lemma run_keeps {B} (h : NM B) w : wp h wf_post w -> wp (run_ h) wf_post w.
Proof. intros H. unfold run_. wp_step. eapply wp_mono; [exact H | done]. Qed.

(** [if (...) return v; h; return true]. *)
Lemma then_keeps {B C} (h : NM B) (v : C) w : wp h wf_post w -> wp (_ ← h; mret v) wf_post w.
Proof. intros H. wp_step. eapply wp_mono; [exact H | done]. Qed.

(** *** A node that is followed through a computation *)

Definition at_node (id : Z) (n : mesh_node) w : Prop :=
  store_wf (w_nodes w) /\ find_first (is_node id) (ns_nodes (w_nodes w)) = Some n.

Lemma at_node_wf id n w : at_node id n w -> node_wf n /\ nd_id n = id /\ has_node id (w_nodes w).
Proof.
  intros [[_ _ Hall _ _] Hn]. rewrite Forall_forall in Hall.
  pose proof (find_first_some _ _ _ Hn) as [Hin Hi]. apply Z.eqb_eq in Hi. split_and!; [auto | done |].
  apply list_elem_of_fmap. by exists n.
Qed.

Lemma deref_at id n w (Q : mesh_node -> world node_store -> Prop) :
  at_node id n w -> Q n w -> wp (node_deref id) Q w.
Proof. intros [[] Hn] HQ. by eapply node_deref_wp. Qed.

Lemma assign_at id f n w (Q : unit -> world node_store -> Prop) :
  at_node id n w -> (∀ n, nd_id (f n) = nd_id n) -> (node_wf n -> node_wf (f n)) ->
  nd_primary (f n) = nd_primary n ->
  (∀ w', at_node id (f n) w' -> Q tt w') -> wp (node_assign id f) Q w.
Proof.
  intros Hat Hid Hf Hp HQ. destruct (at_node_wf _ _ _ Hat) as (Hn & _ & Hh). destruct Hat as [Hw Hfind].
  apply node_assign_ok; try done.
  - intros k Hk _. assert (k = n) as -> by congruence. split; [auto | by rewrite Hp].
  - intros Hw'. apply HQ. split; [done | by apply find_upd].
Qed.

Definition push_model (i : Z) (e : mesh_element) : mesh_element :=
  match find_model e i with
  | Some _ => e
  | None => set_el_models (el_models e ++ [zero_model i]) e
  end.

Lemma set_model_at id n ele i e w : at_node id n w -> find_element n ele = Some e ->
  wp (node_set_model (Some id) ele i) (fun r w' => r = true /\
    exists n', at_node id n' w' /\ find_element n' ele = Some (push_model i e) /\
      nd_elements n' = update_first (match_element_idx ele) (fun _ => push_model i e) (nd_elements n) /\
      nd_num_ele n' = nd_num_ele n) w.
Proof.
  intros Hat He. unfold node_set_model, nonnull, push_model. wp_step. eapply deref_at; [done|]. rewrite He.
  assert (Hi : match_element_idx ele e = true) by apply (find_first_some _ _ _ He).
  destruct (find_model e i) as [m|] eqn:Hm.
  - wp_run. split; [done|]. exists n. split_and!; try done. symmetry. by apply update_first_same.
  - wp_step. eapply assign_at; [done | done | | done |].
    + intros Hn. apply (on_element_wf _ _ _ e); [done | | done]. by apply push_model_wf.
    + intros w' Hat'. wp_run. split; [done|]. eexists. split; [exact Hat'|]. split_and!; [| | done].
      * unfold find_element, on_element. cbn [nd_elements set_nd_elements].
        by rewrite (find_update_first _ (fun e => set_el_models (el_models e ++ [zero_model i]) e) _ e).
      * unfold on_element. cbn [nd_elements set_nd_elements].
        by apply (update_first_found _ (fun e => set_el_models (el_models e ++ [zero_model i]) e)).
Qed.

(** *** Composition data *)

Lemma get_le16_ok data off : 0 <= off -> off + 2 <= len data -> exists v, get_le16 data off = Ok v.
Proof.
  intros. destruct (rd_range_total data off 2) as (m & Hm & _); [lia.. |].
  unfold get_le16. rewrite Hm. by eexists.
Qed.

Definition parse_post (id ele off l room : Z) (n : mesh_node) (r : option (Z * Z)) w : Prop :=
  exists n' off' len', r = Some (off', len') /\ at_node id n' w /\ is_Some (find_element n' ele) /\
    nd_num_ele n' = nd_num_ele n /\ off <= off' <= off + room /\
    (room <= l -> off' = off + room /\ len' = l - room).

Lemma parse_sig_total m id ele data off l n w : at_node id n w -> is_Some (find_element n ele) ->
  0 <= off -> off + 2 * Z.of_nat m <= len data ->
  wp (parse_sig m id ele data off l) (parse_post id ele off l (2 * Z.of_nat m) n) w.
Proof.
  revert off l n w. induction m as [|m IH]; intros off l n w Hat [e He] Ho Hl; cbn [parse_sig];
    (case_goal; [bool_hyps; wp_run; exists n, off, l; split_and!; by (done || lia || by eexists)|]).
  - wp_run. exists n, off, l. split_and!; by (done || lia || by eexists).
  - bool_hyps. destruct (get_le16_ok data off) as (i & Hi); [lia..|]. wp_step. eapply wp_lift; [exact Hi|]. wp_step.
    eapply wp_mono; [by apply set_model_at|]. intros r w1 (-> & n1 & Hat1 & He1 & _ & Hk).
    cbn [negb]. eapply wp_mono; [apply (IH (off + 2) (l - 2) n1); [done | by eexists | lia | lia]|].
    intros r w2 (n2 & o & l2 & -> & Hat2 & He2 & Hk2 & Hr & Hx). exists n2, o, l2. split_and!; [done.. | congruence | lia | lia | lia].
Qed.

Lemma parse_vendor_total m id ele data off l n w : at_node id n w -> is_Some (find_element n ele) ->
  0 <= off -> off + 4 * Z.of_nat m <= len data ->
  wp (parse_vendor m id ele data off l) (parse_post id ele off l (4 * Z.of_nat m) n) w.
Proof.
  revert off l n w. induction m as [|m IH]; intros off l n w Hat [e He] Ho Hl; cbn [parse_vendor];
    (case_goal; [bool_hyps; wp_run; exists n, off, l; split_and!; by (done || lia || by eexists)|]).
  - wp_run. exists n, off, l. split_and!; by (done || lia || by eexists).
  - bool_hyps. destruct (get_le16_ok data off) as (i & Hi); [lia..|].
    destruct (get_le16_ok data (off + 2)) as (j & Hj); [lia..|].
    wp_step. eapply wp_lift; [exact Hj|]. wp_step. eapply wp_lift; [exact Hi|]. wp_step.
    eapply wp_mono; [by apply set_model_at|]. intros r w1 (-> & n1 & Hat1 & He1 & _ & Hk).
    cbn [negb]. eapply wp_mono; [apply (IH (off + 4) (l - 4) n1); [done | by eexists | lia | lia]|].
    intros r w2 (n2 & o & l2 & -> & Hat2 & He2 & Hk2 & Hr & Hx). exists n2, o, l2. split_and!; [done.. | congruence | lia | lia | lia].
Qed.

Lemma rd_octet data i : bytes data -> 0 <= i < len data -> exists v, rd data i = Ok v /\ is_u8 v.
Proof.
  intros Hb Hi. destruct (rd_ok data i Hi) as (v & Hv & Hl). exists v. split; [done|].
  by apply (Forall_lookup_1 _ _ _ _ Hb Hl).
Qed.

Definition element_room : Z := 4 + 2 * 255 + 4 * 255.

Lemma push_element_wf loc i n : node_wf n ->
  node_wf (set_nd_elements (nd_elements n ++ [Element [] loc i]) n).
Proof.
  intros Hn. apply node_wf_elements; [|done]. destruct Hn as [_ _ He _ _]. apply Forall_app.
  split; [done|]. by repeat constructor.
Qed.

Lemma push_element_found loc i n :
  is_Some (find_element (set_nd_elements (nd_elements n ++ [Element [] loc i]) n) i).
Proof.
  unfold find_element. cbn [nd_elements set_nd_elements]. rewrite find_first_app.
  destruct (find_first _ _); [by eexists|]. unfold find_first, match_element_idx. cbn. rewrite Z.eqb_refl.
  by eexists.
Qed.

(** An element whose models are in the object; if it is believed that they are, they
    are all read. *)
Lemma parse_element_reads i id data off l n w m v : at_node id n w -> 0 <= off ->
  rd data (off + 2) = Ok m -> rd data (off + 3) = Ok v -> 0 <= m -> 0 <= v -> off + 4 + 2 * m + 4 * v <= len data ->
  wp (parse_element i id data off l) (fun r w' => exists n' off' len', r = Some (off', len') /\
    at_node id n' w' /\ off <= off' <= off + 4 + 2 * m + 4 * v /\
    (2 + 2 * m + 4 * v <= l <= 0xffff -> off' = off + 4 + 2 * m + 4 * v /\ len' = l - 2 - 2 * m - 4 * v)) w.
Proof.
  intros Hat Ho Hm Hv Hm0 Hv0 Hl. unfold parse_element.
  destruct (get_le16_ok data off) as (loc & Hloc); [lia..|].
  wp_step. eapply wp_lift; [exact Hloc|]. wp_step.
  eapply assign_at; [exact Hat | done | intros ?; by apply push_element_wf | done|]. intros w1 Hat1.
  wp_step. eapply wp_lift; [exact Hm|]. wp_step. eapply wp_lift; [exact Hv|]. wp_step.
  eapply wp_mono; [apply (parse_sig_total (Z.to_nat m) id i data _ _ _ _ Hat1); [apply push_element_found | lia..]|].
  intros r w2 (n2 & o2 & l2 & -> & Hat2 & He2 & _ & Hr2 & Hx2). cbn beta iota.
  eapply wp_mono; [apply (parse_vendor_total (Z.to_nat v) id i data _ _ _ _ Hat2); [done | lia..]|].
  intros r w3 (n3 & o3 & l3 & -> & Hat3 & _ & _ & Hr3 & Hx3). exists n3, o3, l3. split_and!; [done.. | lia | lia |].
  intros Hll. rewrite u16_small in Hx2 by lia. lia.
Qed.

Lemma parse_elements_total k i id data off l n w : bytes data -> at_node id n w -> 0 <= off ->
  off + element_room * Z.of_nat k <= len data ->
  wp (parse_elements k i id data off l) (fun r w' => r = true /\ exists n', at_node id n' w') w.
Proof.
  intros Hb. revert i off l n w.
  induction k as [|k IH]; intros i off l n w Hat Ho Hl; cbn [parse_elements]; [wp_run; eauto|].
  unfold element_room in *.
  destruct (rd_octet data (off + 2) Hb) as (m & Hm & Hmr); [lia|].
  destruct (rd_octet data (off + 3) Hb) as (v & Hv & Hvr); [lia|].
  wp_step. eapply wp_mono; [eapply (parse_element_reads _ _ _ _ _ _ _ m v); [exact Hat | lia | done | done | lia..]|].
  intros r w1 (n1 & o1 & l1 & -> & Hat1 & Hr & _). cbn beta iota. eapply IH; [exact Hat1 | lia..].
Qed.

Lemma drop_cons_reads (data : list Z) room off x l : 0 <= off ->
  drop (Z.to_nat off) (take room data) = x :: l -> rd data off = Ok x /\ drop (Z.to_nat (off + 1)) (take room data) = l.
Proof.
  intros Ho Hd. replace (Z.to_nat (off + 1)) with (S (Z.to_nat off)) by lia. split.
  - assert (E : take room data !! Z.to_nat off = Some x).
    { rewrite <-(Nat.add_0_r (Z.to_nat off)), <-lookup_drop, Hd. done. }
    apply lookup_take_Some in E as [E _]. pose proof (lookup_lt_Some _ _ _ E).
    destruct (rd_ok data off) as (y & Hy & Hl); [unfold len; lia|]. congruence.
  - by rewrite <-Nat.add_1_r, <-drop_drop, Hd.
Qed.

Lemma parse_elements_complete k i id data page off l n w : bytes data -> at_node id n w -> 0 <= off ->
  elements_complete k (drop (Z.to_nat off) (take (Z.to_nat page) data)) = true -> off <= page <= len data ->
  page - off <= l <= 0xffff ->
  wp (parse_elements k i id data off l) (fun r w' => r = true /\ exists n', at_node id n' w') w.
Proof.
  intros Hb. revert i off l n w.
  induction k as [|k IH]; intros i off l n w Hat Ho Hc Hp Hl; cbn [parse_elements elements_complete] in *; [wp_run; eauto|].
  assert (Hlen : len (drop (Z.to_nat off) (take (Z.to_nat page) data)) = page - off).
  { unfold len in *. rewrite length_drop, length_take. lia. }
  destruct (drop _ _) as [|a [|b [|m [|v d]]]] eqn:E0; try done. bool_hyps. rewrite !len_cons in Hlen.
  destruct (drop_cons_reads _ _ _ _ _ Ho E0) as [_ E1]. destruct (drop_cons_reads _ _ (off + 1) _ _ ltac:(lia) E1) as [_ E2].
  destruct (drop_cons_reads _ _ (off + 1 + 1) _ _ ltac:(lia) E2) as [Hm E3].
  destruct (drop_cons_reads _ _ (off + 1 + 1 + 1) _ _ ltac:(lia) E3) as [Hv E4].
  replace (off + 1 + 1 + 1) with (off + 3) in * by lia. replace (off + 1 + 1) with (off + 2) in * by lia.
  destruct (rd_octet data (off + 2) Hb) as (m' & Hm' & Hmr); [pose proof (len_nonneg d); lia|].
  destruct (rd_octet data (off + 3) Hb) as (v' & Hv' & Hvr); [pose proof (len_nonneg d); lia|].
  replace m' with m in * by congruence. replace v' with v in * by congruence.
  wp_step. eapply wp_mono; [eapply (parse_element_reads _ _ _ _ _ _ _ m v); [exact Hat | lia | done | done | lia..]|].
  intros r w1 (n1 & o1 & l1 & -> & Hat1 & _ & Hx). cbn beta iota. destruct Hx as [-> ->]; [lia|].
  eapply IH; [exact Hat1 | lia | | lia | lia].
  replace (Z.to_nat (off + 4 + 2 * m + 4 * v)) with (Z.to_nat (off + 3 + 1) + Z.to_nat (2 * m + 4 * v))%nat by lia.
  by rewrite <-drop_drop, E4.
Qed.

Lemma parse_composition_keeps id data l n w : bytes data -> at_node id n w ->
  page_readable (nd_num_ele n) data l -> 0 <= nd_num_ele n ->
  wp (node_parse_composition (Some id) data l) wf_post w.
Proof.
  intros Hb Hat Hl Hk. unfold node_parse_composition.
  assert (Hlen : 11 <= len data) by (destruct Hl as [Hl | [Hl _]]; unfold composition_room in *; lia).
  assert (H2 : ∀ off, 0 <= off <= 9 -> exists v, get_le16 data off = Ok v)
    by (intros; apply get_le16_ok; lia).
  destruct (H2 1) as (? & E1); [lia|]. destruct (H2 3) as (? & E3); [lia|].
  destruct (H2 5) as (? & E5); [lia|]. destruct (H2 7) as (? & E7); [lia|].
  destruct (H2 9) as (? & E9); [lia|].
  do 5 (wp_step; eapply wp_lift; [eassumption|]). unfold nonnull_or_fault. wp_step.
  eapply deref_at; [exact Hat|]. wp_step.
  apply (wp_mono _ (fun r w' => r = true /\ exists n', at_node id n' w')).
  { destruct Hl as [Hl | (Hl & Hl16 & Hc)].
    - eapply parse_elements_total; [done | exact Hat | lia | unfold composition_room, element_room in *; lia].
    - rewrite (u16_small (l - 1)), u16_small by lia. by eapply (parse_elements_complete _ _ _ _ l 11); [done | exact Hat | lia | | lia | lia]. }
  intros r w1 (-> & n1 & Hat1). cbn [negb]. wp_step.
  eapply assign_at; [exact Hat1 | done | | done |].
  - intros Hn. by apply (node_wf_field n1).
  - intros w2 [Hw2 _]. by wp_run.
Qed.

(** *** Keys, elements and models *)

Lemma has_at id w : store_wf (w_nodes w) -> has_node id (w_nodes w) -> exists n, at_node id n w.
Proof. intros Hw (n & Hn & _)%has_node_find. by exists n. Qed.

Lemma at_ref id n w : at_node id n w -> node_ref (w_nodes w) id = Ok n.
Proof. intros [[Hv _ _ _ _] Hn]. unfold node_ref. by rewrite Hv, Hn. Qed.

(** A list of identifiers that a guarded assignment extends or shortens. *)
Lemma assign_keys_keeps id n f v w : at_node id n w -> (∀ n, nd_id (f n) = nd_id n) ->
  (node_wf n -> node_wf (f n)) -> nd_primary (f n) = nd_primary n ->
  wp (_ ← node_assign id f; mret v : NM bool) wf_post w.
Proof. intros. wp_step. eapply assign_at; [done..|]. intros w' [Hw' _]. by wp_run. Qed.

Lemma net_keys_wf n l : NoDup l -> node_wf n -> node_wf (set_nd_net_keys l n).
Proof. intros Hl []. by constructor. Qed.
Lemma app_keys_wf n l : NoDup l -> node_wf n -> node_wf (set_nd_app_keys l n).
Proof. intros Hl []. by constructor. Qed.

Lemma run_keys_keeps id n w : at_node id n w ->
  (∀ i, wp (node_net_key_add (Some id) i) wf_post w) /\
  (∀ i, wp (node_net_key_delete (Some id) i) wf_post w) /\
  (∀ i, wp (node_app_key_add (Some id) i) wf_post w) /\
  (∀ i j, wp (node_app_key_delete (Some id) i j) wf_post w).
Proof.
  intros Hat. pose proof (at_node_wf _ _ _ Hat) as ([Hnet Happ _ _ _] & _). pose proof Hat as [Hw _].
  split_and!; intros; unfold node_net_key_add, node_net_key_delete, node_app_key_add,
    node_app_key_delete, nonnull; wp_run; repeat (case_goal; [by wp_run|]); wp_run;
    (eapply deref_at; [exact Hat|]); repeat (case_goal; [by wp_run|]);
    (eapply assign_keys_keeps; [exact Hat | done | | done]).
  - intros. apply net_keys_wf; [by apply NoDup_push | done].
  - intros. apply net_keys_wf; [by apply NoDup_glist_remove | done].
  - intros. apply app_keys_wf; [by apply NoDup_push | done].
  - intros. apply app_keys_wf; [by apply NoDup_glist_remove | done].
Qed.

Lemma set_element_keeps id n e w : at_node id n w -> wp (node_set_element (Some id) e) wf_post w.
Proof.
  intros Hat. unfold node_set_element, nonnull. wp_step. eapply deref_at; [exact Hat|].
  case_goal; [wp_run; by destruct Hat|]. eapply assign_keys_keeps; [exact Hat | done | | done].
  apply push_element_wf.
Qed.

Lemma set_model_keeps id n e i w : at_node id n w -> wp (node_set_model (Some id) e i) wf_post w.
Proof.
  intros Hat. destruct (find_element n e) as [el|] eqn:He.
  - eapply wp_mono; [by eapply set_model_at|]. by intros r w' (_ & n' & [Hw' _] & _).
  - unfold node_set_model, nonnull. wp_step. eapply deref_at; [exact Hat|]. rewrite He. wp_run. by destruct Hat.
Qed.

(** A callback, then an assignment to a model. *)
Lemma model_wf_subs m l : NoDup l -> model_wf (set_md_subscriptions l m).
Proof. by constructor. Qed.

Lemma add_subscription_keeps id n e i addr w : at_node id n w ->
  wp (node_add_subscription (Some id) e i addr) wf_post w.
Proof.
  intros Hat. unfold node_add_subscription, nonnull. wp_step. eapply deref_at; [exact Hat|].
  destruct (get_model n e i) as [m|] eqn:Hm; [|wp_run; by destruct Hat].
  case_goal; [wp_run; by destruct Hat|]. apply then_keeps. destruct Hat.
  eapply (assign_model_keeps _ n _ _ m); try done. intros []. apply model_wf_subs. by apply NoDup_push.
Qed.

(** The models that are found after one has been replaced. *)
Lemma get_on_model ele i f n ele' i' : (∀ m, md_id (f m) = md_id m) ->
  is_Some (get_model n ele' i') -> is_Some (get_model (on_model ele i f n) ele' i').
Proof.
  intros Hid. unfold get_model. destruct (find_element n ele') as [e|] eqn:He; [|by intros []].
  cbn [mbind option_bind]. intros [m Hm]. unfold on_model, on_element, find_element.
  cbn [nd_elements set_nd_elements]. destruct (decide (ele' = ele)) as [->|Hne].
  - erewrite find_update_first; [|done|exact He]. cbn [mbind option_bind]. unfold find_model.
    cbn [el_models set_el_models]. destruct (decide (i' = i)) as [->|Hi].
    + eexists. apply (find_update_first _ f _ m); [|exact Hm]. intros y. unfold match_model_id. by rewrite Hid.
    + exists m. rewrite find_update_first_other; [exact Hm|]. intros y. unfold match_model_id.
      rewrite Hid, Z.eqb_eq, Z.eqb_neq. intros ->. split; [done | congruence].
  - exists m. unfold find_element in He. rewrite find_update_first_other; [by rewrite He|]. intros y. unfold match_element_idx.
    cbn [el_index set_el_models]. rewrite Z.eqb_eq, Z.eqb_neq. intros ->. split; [done | congruence].
Qed.

Lemma get_on_model_same ele i f n m : (∀ m, md_id (f m) = md_id m) ->
  get_model n ele i = Some m -> get_model (on_model ele i f n) ele i = Some (f m).
Proof.
  intros Hid. unfold get_model. destruct (find_element n ele) as [e|] eqn:He; [|done].
  cbn [mbind option_bind]. intros Hm. unfold on_model, on_element, find_element.
  cbn [nd_elements set_nd_elements]. erewrite find_update_first; [|done|exact He].
  cbn [mbind option_bind]. unfold find_model. cbn [el_models set_el_models].
  apply find_update_first; [|exact Hm]. intros y. unfold match_model_id. by rewrite Hid.
Qed.

Definition kept_post {B} (w : world node_store) (_ : B) (w' : world node_store) : Prop :=
  store_wf (w_nodes w') /\ keeps (w_nodes w) (w_nodes w').

(** An assignment to a model that leaves its subscriptions. *)
Lemma model_field_keeps id ele i f w : store_wf (w_nodes w) -> has_model id ele i (w_nodes w) ->
  (∀ m, md_id (f m) = md_id m /\ md_subscriptions (f m) = md_subscriptions m) ->
  wp (node_assign id (on_model ele i f)) (kept_post w) w.
Proof.
  intros Hw (n & Hn & m & Hm) Hf.
  assert (Hid : ∀ n, nd_id (on_model ele i f n) = nd_id n) by done.
  pose proof Hw as [Hv _ Hall _ _]. rewrite Forall_forall in Hall.
  pose proof (find_first_some _ _ _ Hn) as [Hin _].
  eapply node_assign_wp; [done | exact Hn|]. split.
  - apply (upd_node_wf _ _ _ n); try done. apply (on_model_wf _ _ _ _ m); [done | intros k; apply Hf | | auto].
    intros []. constructor. by destruct (Hf m) as [_ ->].
  - apply keeps_upd; [exact Hid|]. intros n' e' i' _. apply get_on_model. intros k. apply Hf.
Qed.

Lemma kept_trans {B C} w1 w2 (x : B) (y : C) w3 : kept_post w1 x w2 -> kept_post w2 y w3 -> kept_post w1 y w3.
Proof. intros [_ ?] [? ?]. split; [done | by etrans]. Qed.

Lemma has_model_intro id n ele i m w : at_node id n w -> get_model n ele i = Some m ->
  has_model id ele i (w_nodes w).
Proof. intros [_ Hn] Hm. exists n. split; [done | by eexists]. Qed.

Lemma add_binding_keeps id n e i app_idx w : at_node id n w ->
  wp (node_add_binding (Some id) e i app_idx) wf_post w.
Proof.
  intros Hat. unfold node_add_binding, nonnull. wp_step. eapply deref_at; [exact Hat|].
  destruct (get_model n e i) as [m|] eqn:Hm; [|wp_run; by destruct Hat].
  case_goal; [wp_run; by destruct Hat|]. pose proof (has_model_intro _ _ _ _ _ _ Hat Hm) as Hmod.
  destruct Hat as [Hw _]. unfold node_is_local, store. wp_step. wp_step. wp_step. wp_step. wp_step.
  apply (wp_mono _ (kept_post w)).
  - do 2 (case_goal; [|by apply wp_ret]). wp_step.
    eapply wp_mono; [by apply bind_ok|]. intros r w1 H1. by apply wp_ret.
  - intros refused w1 [Hw1 [_ _ Hk]]. case_goal; [by apply wp_ret|]. apply then_keeps.
    eapply wp_mono; [apply model_field_keeps; [done | by apply Hk | done]|]. by intros [] w2 [? _].
Qed.

Lemma pub_set_keeps id n e i p w : at_node id n w ->
  wp (node_model_pub_set (Some id) e i p) wf_post w.
Proof.
  intros Hat. unfold node_model_pub_set, nonnull. wp_step. eapply deref_at; [exact Hat|].
  destruct (get_model n e i) as [m|] eqn:Hm; [|wp_run; by destruct Hat].
  pose proof (has_model_intro _ _ _ _ _ _ Hat Hm) as Hmod. destruct Hat as [Hw _]. wp_step.
  eapply wp_mono; [by apply model_field_keeps|]. intros [] w1 [Hw1 _].
  unfold node_is_local, store. do 4 wp_step. apply (wp_mono _ wf_post); [|done].
  do 2 (case_goal; [|by apply wp_ret]). eapply wp_mono; [by apply pub_ok|]. by intros [] w2 [? _].
Qed.

Lemma restore_bindings_keeps cb l w : store_wf (w_nodes w) -> wp (restore_bindings cb l) wf_post w.
Proof.
  revert w. induction l as [|x l IH]; intros w Hw; cbn [restore_bindings]; [done|].
  wp_step. eapply wp_mono; [by apply bind_ok|]. intros r w1 [Hw1 _]. case_goal; [done | by apply IH].
Qed.

Lemma restore_keeps id e i w : store_wf (w_nodes w) -> has_model id e i (w_nodes w) ->
  wp (restore_model_state id e i) wf_post w.
Proof.
  intros Hw (n & Hn & m & Hm). unfold restore_model_state. wp_step. eapply deref_at; [by split|].
  rewrite Hm. wp_step. apply (wp_mono _ wf_post).
  - case_goal; [by apply restore_bindings_keeps | done].
  - intros [] w1 Hw1. apply then_keeps. do 2 (case_goal; [|done]).
    eapply wp_mono; [by apply pub_ok|]. by intros [] w2 [? _].
Qed.

Lemma register_keeps e i ops u w : store_wf (w_nodes w) ->
  wp (node_local_vendor_model_register e i ops u) wf_post w.
Proof.
  intros Hw. unfold node_local_vendor_model_register, store. wp_run.
  destruct (ns_local (w_nodes w)) as [lid|] eqn:El; [|done].
  pose proof Hw as [_ _ _ _ Hl]. destruct (Hl lid El) as (n & Hn & _). wp_step.
  eapply deref_at; [by split|]. destruct (get_model n e i) as [m|] eqn:Hm; [|done].
  assert (Hmod : has_model lid e i (w_nodes w)) by (exists n; split; [done | by eexists]). wp_step.
  eapply wp_mono; [by apply model_field_keeps|]. intros [] w1 [Hw1 [_ _ Hk]]. apply then_keeps. case_goal.
  - eapply wp_mono; [apply model_field_keeps; [done | by apply Hk | done]|]. by intros [] w2 [? _].
  - unfold emit. by apply wp_modify.
Qed.

Lemma push_keeps {B} f (v : B) w : (∀ id, nd_id (f id) = id) -> (∀ id, node_wf (f id)) ->
  store_wf (w_nodes w) -> wp (_ ← mod_store (push_node f); mret v) wf_post w.
Proof. intros Hid Hf Hw. unfold mod_store. wp_run. by apply push_node_wf. Qed.

Lemma set_local_keeps id n w : at_node id n w -> nd_primary n < 0x8000 ->
  wp (node_set_local_node (Some id)) wf_post w.
Proof.
  intros Hat Hp. unfold node_set_local_node, store, nonnull_or_fault. wp_run.
  destruct (ns_local (w_nodes w)) as [l|] eqn:El; [wp_run; by destruct Hat|]. wp_step.
  eapply deref_at; [exact Hat|]. unfold mod_store.
  apply (wp_bind (modify _)), wp_modify, (wp_bind (node_assign _ _)). destruct Hat as [[Hv Hnd Hall Hfr Hl] Hn].
  eapply assign_at; [|done | intros; by apply (node_wf_field n) | done | by intros w' []].
  split; [|exact Hn]. constructor; cbn; try done. intros ? [= <-]. by exists n.
Qed.

(** Operations that also set a field of the network layer. *)
Lemma set_net_keeps id n f (g : NM bool) w : at_node id n w -> (∀ n, nd_id (f n) = nd_id n) ->
  (node_wf n -> node_wf (f n)) -> nd_primary (f n) = nd_primary n ->
  (∀ w, store_wf (w_nodes w) -> wp g wf_post w) ->
  wp (_ ← node_assign id f; local ← local_or_none id; if (local : bool) then g else mret true) wf_post w.
Proof.
  intros Hat Hid Hf Hp Hg. wp_step. eapply assign_at; [exact Hat | done..|]. intros w1 [Hw1 _].
  unfold local_or_none, store. do 4 wp_step. case_goal; [by apply Hg | by apply wp_ret].
Qed.

Lemma free_keeps id n w : at_node id n w -> ns_local (w_nodes w) <> Some id ->
  wp (node_free (Some id)) wf_post w.
Proof.
  intros Hat Hl. unfold node_free, nonnull, mod_store. wp_step. eapply deref_at; [exact Hat|].
  apply wp_modify. destruct Hat. by apply free_node_wf.
Qed.

(** Unfolds an operation that assigns a field. *)
Ltac field_keeps Hat :=
  apply assign_field_keeps; [by destruct Hat | by apply (at_node_wf _ _ _ Hat) | done].

Lemma run_op_keeps op w : store_wf (w_nodes w) -> op_ok op (w_nodes w) -> wp (run_op op) wf_post w.
Proof.
  intros Hw [Hn Hpre].
  assert (Hat : ∀ id, op_node op = Some id -> exists n, at_node id n w).
  { intros id Hid. by apply has_at, Hn. }
  destruct op; cbn [run_op op_node op_pre] in *;
    try (destruct (Hat node eq_refl) as (n & Hn'); clear Hat Hn; rename Hn' into Hat);
    try apply run_keeps.
  - unfold node_create_new, store. do 3 wp_step. eapply wp_lift.
    { unfold node_find_by_uuid, all_nodes. destruct Hw as [-> _ _ _ _]. done. }
    cbn beta. case_goal; [by apply wp_ret|]. apply push_keeps; [done | | done].
    intros id. by apply (node_wf_field _ _ (zero_node_wf id)).
  - unfold node_new, store. do 3 wp_step. eapply wp_lift.
    { unfold all_nodes. destruct Hw as [-> _ _ _ _]. done. }
    cbn beta. apply push_keeps; [done | apply zero_node_wf | done].
  - by eapply free_keeps.
  - field_keeps Hat.
  - apply assign_keeps; [done | by apply (at_node_wf _ _ _ Hat) | done|].
    intros k _ [? ? ? ? ?]. split; [constructor; try done; cbn; lia | cbn; lia].
  - unfold node_set_device_key, nonnull. destruct key as [k|]; [|by apply wp_ret].
    apply assign_keeps; [done | by apply (at_node_wf _ _ _ Hat) | done|].
    intros j _ [? ? ? ? ?]. split; [by constructor | done].
  - field_keeps Hat.
  - by apply (run_keys_keeps _ _ _ Hat).
  - by apply (run_keys_keeps _ _ _ Hat).
  - by apply (run_keys_keeps _ _ _ Hat).
  - by apply (run_keys_keeps _ _ _ Hat).
  - by eapply set_element_keeps.
  - by eapply set_model_keeps.
  - unfold node_set_composition, nonnull. case_goal; [|by apply wp_ret]. wp_step.
    eapply deref_at; [exact Hat|]. case_goal; [by apply wp_ret|]. apply then_keeps. field_keeps Hat.
  - destruct Hpre as [Hb Hr]. destruct (Hr n (at_ref _ _ _ Hat)) as [Hk Hl].
    by eapply parse_composition_keeps; [done | exact Hat | done | lia].
  - eapply set_local_keeps; [exact Hat|]. apply Hpre. by apply at_ref.
  - eapply set_net_keeps; [exact Hat | done | intros; by apply (node_wf_field n) | done|].
    intros w1 Hw1. unfold net_set_default_ttl. case_goal; by wp_run.
  - eapply set_net_keeps; [exact Hat | done | intros; by apply (node_wf_field n) | done|].
    intros w1 Hw1. unfold net_set_seq_num. case_goal; by wp_run.
  - apply then_keeps. field_keeps Hat.
  - by apply register_keeps.
  - by apply restore_keeps.
  - by eapply add_binding_keeps.
  - by eapply add_subscription_keeps.
  - by eapply pub_set_keeps.
Qed.
End Keep.

(** ** Theorems *)

(** The worlds that sequences of operations on the empty store reach, the
    pointers they are given being live. *)
Inductive node_reach {MC : ModelCode} : world node_store -> Prop :=
| reach_start w n : w_nodes w = NodeStore [] None true n start_statics -> node_reach w
| reach_op op w w' :
    node_reach w -> op_ok op (w_nodes w) -> run_op op w = Ok (tt, w') -> node_reach w'.

Lemma node_reach_wf `{A : Alg} {MC : ModelCode} {MCO : ModelCodeOk MC} w :
  node_reach w -> store_wf (w_nodes w).
Proof.
  induction 1 as [w n Hw | op w w' _ IH Hop Hrun].
  - rewrite Hw. by repeat constructor.
  - pose proof (run_op_keeps op w IH Hop) as H. unfold wp in H. by rewrite Hrun in H.
Qed.

(** C13: the operations on nodes never go wrong and keep the store well formed.
    Starting from the empty store, after any sequence of the operations of
    [node.c] on live pointers, with any callbacks that keep their promises: node
    addresses are distinct, no key of a node, model of an element or subscription
    of a model is listed twice, device keys have 16 octets, the local node is in
    the store and has a unicast address; and whatever operation comes next returns
    without a fault.  The operations are those of callers that do not free the local
    node, give a node a unicast address and a device key of 16 octets, restore a model
    that is there, and parse a composition page that is complete, or in an object with
    room for whatever it counts: a page that is cut short is read beyond its end, as
    [composition_over_read] shows. *)
Theorem node_store_safe (A : Alg) (MC : ModelCode) (MCO : ModelCodeOk MC) (w : world node_store) :
  node_reach w ->
  store_wf (w_nodes w) /\
  ∀ op, op_ok op (w_nodes w) -> exists w', run_op op w = Ok (tt, w') /\ store_wf (w_nodes w').
Proof.
  intros Hr%node_reach_wf. split; [done|]. intros op Hop.
  apply (run_op_keeps op w Hr) in Hop. apply wp_ok in Hop as ([] & w' & H & Hw'). by exists w'.
Qed.

Definition empty_nodes : world node_store :=
  World demo_net demo_keys (NodeStore [] None true 1 start_statics) 1 [] false [].

(** A node is made, addressed and described by a complete page of 21 octets. *)
Definition after_op (op : node_op) (w : world node_store) : world node_store :=
  match run_op (MC := noting_models) op w with Ok (_, w') => w' | Fault _ => w end.
Definition small_page : list Z := [0; 0xf1; 5; 1; 0; 2; 0; 3; 0; 5; 0; 0; 0; 1; 1; 0; 0x10; 0xf1; 5; 1; 0].
Definition one_node : world node_store :=
  after_op (OpParseComposition 1 small_page 21) (after_op (OpSetNumElements 1 1) (after_op (OpSetPrimary 1 0x100) (after_op OpNew empty_nodes))).
Lemma reach_after op w : node_reach (MC := noting_models) w -> op_ok op (w_nodes w) ->
  (if run_op (MC := noting_models) op w is Ok _ then true else false) = true -> node_reach (MC := noting_models) (after_op op w).
Proof.
  intros Hw Hop Hok. unfold after_op. destruct (run_op op w) as [[[] w']|] eqn:E; [|done]. by apply (reach_op op w).
Qed.
Lemma one_node_reach : node_reach (MC := noting_models) one_node.
Proof.
  refine (reach_after _ _ (reach_after _ _ (reach_after _ _ (reach_after _ _ (reach_start empty_nodes 1 eq_refl) _ _) _ _) _ _) _ _);
    try by vm_compute.
  all: split; [intros ? [= <-]; unfold has_node; apply (bool_decide_unpack _); by vm_compute | cbn [op_pre]; try done].
  split; [repeat constructor; lia|]. intros nd Hnd. vm_compute in Hnd. injection Hnd as <-.
  split; [done|]. right. by vm_compute.
Qed.

Lemma node_store_safe_witness :
  (∃ n, ns_nodes (w_nodes one_node) = [n] /\ md_id <$> mjoin (el_models <$> nd_elements n) = [0xffff1000; 0x05f10001]) /\
  store_wf (w_nodes one_node) /\
  ∀ op, op_ok op (w_nodes one_node) ->
    exists w', run_op (MC := noting_models) op one_node = Ok (tt, w') /\ store_wf (w_nodes w').
Proof.
  split; [eexists; by vm_compute|]. apply (node_store_safe toy_alg noting_models _ one_node). apply one_node_reach.
Defined.

(** What [node_add_binding] makes of the status of the bind callback. *)
Lemma add_binding_run {MC : ModelCode} (w w' : world node_store) id n e i m cb app_idx r :
  store_wf (w_nodes w) -> ns_local (w_nodes w) = Some id ->
  find_first (is_node id) (ns_nodes (w_nodes w)) = Some n -> get_model n e i = Some m ->
  op_bind (md_cbs m) = Some cb -> app_idx ∉ md_bindings m ->
  run_bind cb app_idx ACTION_ADD w = Ok (r, w') -> store_wf (w_nodes w') ->
  find_first (is_node id) (ns_nodes (w_nodes w')) = Some n ->
  node_add_binding (Some id) e i app_idx w =
  Ok (if r =? MESH_STATUS_SUCCESS then (false, w')
      else (true, on_store (upd_node id (on_model e i
              (fun m => set_md_bindings (md_bindings m ++ [app_idx]) m))) w')).
Proof.
  intros Hw Hl Hn Hm Hcb Happ Hr Hw' Hn'. apply wp_eq. unfold node_add_binding, nonnull. wp_step.
  eapply deref_at; [by split|]. rewrite Hm. unfold in_list. rewrite bool_decide_eq_false_2 by done.
  unfold node_is_local, store. do 4 wp_step. rewrite Hl, bool_decide_eq_true_2 by done. rewrite Hcb.
  do 2 wp_step. eapply wp_of_ok; [exact Hr|]. cbn [fst snd]. apply wp_ret.
  unfold truth. change MESH_STATUS_SUCCESS with 0. destruct (r =? 0); cbn [negb]; [done|].
  apply (wp_bind (node_assign _ _)). eapply node_assign_wp; [by destruct Hw' | exact Hn'|]. done.
Qed.
