(* ===== verification/Composition.v ===== *)
(** * Composition data

    What [node_parse_composition] of [src/blueZ/mesh/node.c] makes of a page of
    composition data, and what it reads beyond one. *)

From S2P Require Import Prelude Bytes Alg Ccm Crypto Packet Pdu Keys NetState Send Beacon Recv Reassembly Node NodeFacts NodeOps.

(** ** Page 0 of the composition data, as it is sent *)

Record page_element := PageElement {
  pe_loc : Z; pe_sig : list Z; pe_vendor : list (Z * Z) }.

Definition encode_sig (l : list Z) : list Z := concat (to_le 2 <$> l).
Definition encode_vendor (l : list (Z * Z)) : list Z :=
  concat ((fun v => to_le 2 v.1 ++ to_le 2 v.2) <$> l).
Definition encode_element (e : page_element) : list Z :=
  to_le 2 (pe_loc e) ++ [len (pe_sig e); Z.of_nat (length (pe_vendor e))] ++
  encode_sig (pe_sig e) ++ encode_vendor (pe_vendor e).
Definition encode_page (cid pid vid crpl features : Z) (els : list page_element) : list Z :=
  [0] ++ to_le 2 cid ++ to_le 2 pid ++ to_le 2 vid ++ to_le 2 crpl ++ to_le 2 features ++
  concat (encode_element <$> els).

(** The model identifiers of an element. *)
Definition sig_id (s : Z) : Z := Z.lor s 0xffff0000.
Definition vendor_id (v : Z * Z) : Z := Z.lor v.2 (u32 (Z.shiftl v.1 16)).
Definition pe_ids (e : page_element) : list Z := (sig_id <$> pe_sig e) ++ (vendor_id <$> pe_vendor e).

Record page_element_ok (e : page_element) : Prop := {
  pe_loc_ok : is_u16 (pe_loc e);
  pe_sig_ok : Forall (fun s => is_u16 s) (pe_sig e) /\ len (pe_sig e) <= 255;
  pe_vendor_ok : Forall (fun v => is_u16 v.1 /\ is_u16 v.2) (pe_vendor e) /\ (length (pe_vendor e) <= 255)%nat;
  pe_ids_ok : NoDup (pe_ids e);
}.

(** The element of a node that it stands for. *)
Definition element_of (i : nat) (e : page_element) : mesh_element :=
  Element (zero_model <$> pe_ids e) (pe_loc e) (Z.of_nat i).

(** ** Reading it back *)

Definition push_models (e : mesh_element) (ids : list Z) : mesh_element :=
  fold_left (fun e i => push_model i e) ids e.

Lemma push_model_index i e : el_index (push_model i e) = el_index e.
Proof. unfold push_model. by case_goal. Qed.

Lemma push_models_new ids ms loc i : NoDup ((md_id <$> ms) ++ ids) ->
  push_models (Element ms loc i) ids = Element (ms ++ (zero_model <$> ids)) loc i.
Proof.
  revert ms. induction ids as [|x ids IH]; intros ms Hnd.
  - by rewrite fmap_nil, app_nil_r.
  - unfold push_models. cbn [fold_left]. fold (push_models (push_model x (Element ms loc i)) ids).
    assert (Hx : x ∉ md_id <$> ms).
    { apply NoDup_app in Hnd as (_ & Hd & _). intros Hin. apply (Hd x Hin). by left. }
    assert (Hp : push_model x (Element ms loc i) = Element (ms ++ [zero_model x]) loc i).
    { unfold push_model, find_model. cbn [el_models]. destruct (find_first _ ms) as [m|] eqn:E; [|done].
      exfalso. apply find_first_some in E as [Hin Hm]. apply Z.eqb_eq in Hm. apply Hx.
      rewrite <-Hm. by apply list_elem_of_fmap_2. }
    rewrite Hp, IH.
    + by rewrite fmap_cons, <-app_assoc.
    + rewrite fmap_app, <-app_assoc. cbn. exact Hnd.
Qed.

Lemma get_le16_mid pre v post off : is_u16 v -> off = len pre ->
  get_le16 (pre ++ to_le 2 v ++ post) off = Ok v.
Proof.
  intros Hv Ho. unfold get_le16. rewrite rd_range_mid by done. cbn [fmap res_fmap].
  rewrite of_le_to_le. by rewrite Z.mod_small.
Qed.

Section Parse.
Context (id : Z).

(** After the models [ids] have been added to element [i] of the node [n]. *)
Definition added (n : mesh_node) (i : Z) (e : mesh_element) (ids : list Z) (w : world node_store) : Prop :=
  exists n', at_node id n' w /\ find_element n' i = Some (push_models e ids) /\
    nd_elements n' = update_first (match_element_idx i) (fun _ => push_models e ids) (nd_elements n) /\
    nd_num_ele n' = nd_num_ele n.

Lemma added_nil n i e w : at_node id n w -> find_element n i = Some e -> added n i e [] w.
Proof. intros Hat He. exists n. split_and!; try done. symmetry. by apply update_first_same. Qed.

Lemma added_cons n i e x ids n1 w : find_element n i = Some e ->
  find_element n1 i = Some (push_model x e) ->
  nd_elements n1 = update_first (match_element_idx i) (fun _ => push_model x e) (nd_elements n) ->
  nd_num_ele n1 = nd_num_ele n -> added n1 i (push_model x e) ids w -> added n i e (x :: ids) w.
Proof.
  intros He He1 Hl1 Hk1 (n2 & Hat & He2 & Hl2 & Hk2). exists n2. split_and!; [done.. | | congruence].
  rewrite Hl2, Hl1, update_first_twice; [done|].
  apply find_first_some in He as [_ He]. unfold match_element_idx in *. by rewrite push_model_index.
Qed.

Lemma parse_sig_added ids i data l pre post n e w :
  at_node id n w -> find_element n i = Some e -> Forall (fun s => is_u16 s) ids ->
  2 * len ids <= l -> data = pre ++ encode_sig ids ++ post ->
  wp (parse_sig (length ids) id i data (len pre) l) (fun r w' =>
    r = Some (len pre + 2 * len ids, l - 2 * len ids) /\ added n i e (sig_id <$> ids) w') w.
Proof.
  intros Hat He Hids Hl ->. revert l pre n e w Hat He Hl.
  induction Hids as [|x ids Hx Hids IH]; intros l pre n e w Hat He Hl; cbn [length parse_sig].
  - assert (added n i e [] w) by by apply added_nil.
    case_goal; wp_run; (split; [change (len []) with 0; do 2 f_equal; lia | done]).
  - rewrite len_cons in *. pose proof (len_nonneg ids).
    rewrite (proj2 (Z.leb_le 2 l)) by lia. cbn [negb].
    unfold encode_sig in *. rewrite fmap_cons in *. cbn [concat]. rewrite <-app_assoc.
    wp_step. eapply wp_lift; [by apply get_le16_mid|]. wp_step.
    eapply wp_mono; [by apply set_model_at|]. intros r w1 (-> & n1 & Hat1 & He1 & Hl1 & Hk1). cbn [negb].
    specialize (IH (l - 2) (pre ++ to_le 2 x) n1 _ w1 Hat1 He1 ltac:(lia)).
    rewrite len_app, <-app_assoc in IH. change (len (to_le 2 x)) with 2 in IH.
    eapply wp_mono; [exact IH|]. intros r w2 [-> Ha]. split; [do 2 f_equal; lia|].
    by eapply added_cons.
Qed.

Lemma parse_vendor_added ids i data l pre post n e w :
  at_node id n w -> find_element n i = Some e -> Forall (fun v => is_u16 v.1 /\ is_u16 v.2) ids ->
  4 * Z.of_nat (length ids) <= l -> data = pre ++ encode_vendor ids ++ post ->
  wp (parse_vendor (length ids) id i data (len pre) l) (fun r w' =>
    r = Some (len pre + 4 * Z.of_nat (length ids), l - 4 * Z.of_nat (length ids)) /\
    added n i e (vendor_id <$> ids) w') w.
Proof.
  intros Hat He Hids Hl ->. revert l pre n e w Hat He Hl.
  induction Hids as [|x ids [Hx1 Hx2] Hids IH]; intros l pre n e w Hat He Hl; cbn [length parse_vendor].
  - assert (added n i e [] w) by by apply added_nil.
    case_goal; wp_run; (split; [do 2 f_equal; simpl; lia | done]).
  - cbn [length] in Hl. rewrite (proj2 (Z.leb_le 4 l)) by lia. cbn [negb].
    unfold encode_vendor in *. rewrite fmap_cons in *. cbn [concat]. rewrite <-!app_assoc.
    wp_step. eapply wp_lift.
    { rewrite (app_assoc pre). apply get_le16_mid; [done|]. by rewrite len_app. }
    wp_step. eapply wp_lift; [by apply get_le16_mid|]. wp_step.
    eapply wp_mono; [by apply set_model_at|]. intros r w1 (-> & n1 & Hat1 & He1 & Hl1 & Hk1). cbn [negb].
    specialize (IH (l - 4) (pre ++ to_le 2 x.1 ++ to_le 2 x.2) n1 _ w1 Hat1 He1 ltac:(lia)).
    rewrite !len_app, <-!app_assoc in IH. change (len (to_le 2 x.1) + len (to_le 2 x.2)) with 4 in IH.
    eapply wp_mono; [exact IH|]. intros r w2 [-> Ha]. split; [do 2 f_equal; cbn [length]; lia|].
    by eapply added_cons.
Qed.

Lemma len_encode_sig l : len (encode_sig l) = 2 * len l.
Proof.
  unfold encode_sig. induction l as [|x l IH]; [done|]. rewrite fmap_cons. cbn [concat].
  rewrite len_app, IH, len_cons. change (len (to_le 2 x)) with 2. lia.
Qed.
Lemma len_encode_vendor l : len (encode_vendor l) = 4 * Z.of_nat (length l).
Proof.
  unfold encode_vendor. induction l as [|x l IH]; [done|]. rewrite fmap_cons. cbn [concat length].
  rewrite !len_app, IH. change (len (to_le 2 x.1) + len (to_le 2 x.2)) with 4. lia.
Qed.
Lemma len_encode_element e :
  len (encode_element e) = 4 + 2 * len (pe_sig e) + 4 * Z.of_nat (length (pe_vendor e)).
Proof.
  unfold encode_element. rewrite !len_app, len_encode_sig, len_encode_vendor.
  change (len (to_le 2 (pe_loc e))) with 2. rewrite !len_cons. change (len []) with 0. lia.
Qed.

(** One element: its models end up behind those that were there. *)
Lemma parse_element_added e i data l pre post n w :
  at_node id n w -> Forall (fun x => el_index x <> i) (nd_elements n) -> page_element_ok e ->
  len (encode_element e) <= l < 0x10000 -> data = pre ++ encode_element e ++ post ->
  wp (parse_element i id data (len pre) l)
    (fun r w' => r = Some (len pre + len (encode_element e), l + 2 - len (encode_element e)) /\
       exists n', at_node id n' w' /\
         nd_elements n' = nd_elements n ++ [Element (zero_model <$> pe_ids e) (pe_loc e) i]) w.
Proof.
  intros Hat Hi [Hloc [Hs _] [Hv _] Hids] Hl ->. rewrite len_encode_element in *. unfold encode_element.
  rewrite <-!app_assoc. pose proof (len_nonneg (pe_sig e)). unfold parse_element.
  set (tl := encode_sig _ ++ encode_vendor _ ++ post).
  wp_step. eapply wp_lift; [by apply get_le16_mid|]. wp_step.
  set (f := fun nd => set_nd_elements (nd_elements nd ++ [Element [] (pe_loc e) i]) nd).
  eapply (assign_at _ f); [exact Hat | done | intros; by apply push_element_wf | done|]. intros w1 Hat1.
  cbn [app]. wp_step. eapply wp_lift.
  { rewrite (app_assoc pre). apply rd_mid. rewrite len_app. change (len (to_le 2 (pe_loc e))) with 2. lia. }
  wp_step. eapply wp_lift.
  { rewrite (app_assoc pre), (cons_middle (len (pe_sig e))), (app_assoc (pre ++ _)).
    apply rd_mid. rewrite !len_app. change (len (to_le 2 (pe_loc e))) with 2. rewrite !len_cons. change (len []) with 0. lia. }
  assert (He : find_element (f n) i = Some (Element [] (pe_loc e) i)).
  { unfold find_element, f. cbn [nd_elements set_nd_elements]. rewrite find_first_app.
    rewrite (proj2 (find_first_none _ _)).
    - unfold find_first, match_element_idx. cbn. by rewrite Z.eqb_refl.
    - eapply Forall_impl; [exact Hi|]. intros x Hx. by apply Z.eqb_neq. }
  set (hdr := pre ++ to_le 2 (pe_loc e) ++ [len (pe_sig e); Z.of_nat (length (pe_vendor e))]).
  assert (Hh : len hdr = len pre + 4).
  { unfold hdr. rewrite !len_app. change (len (to_le 2 (pe_loc e))) with 2. rewrite !len_cons. change (len []) with 0. lia. }
  replace (pre ++ to_le 2 (pe_loc e) ++ len (pe_sig e) :: Z.of_nat (length (pe_vendor e)) :: tl) with (hdr ++ tl)
    by (unfold hdr; by rewrite <-!app_assoc).
  rewrite <-Hh. unfold len at 1. rewrite !Nat2Z.id, u16_small by lia. wp_step.
  eapply wp_mono; [apply (parse_sig_added (pe_sig e) i _ _ hdr (encode_vendor (pe_vendor e) ++ post) (f n) _ _
    Hat1 He Hs); [lia | done]|].
  intros r w2 [-> (n2 & Hat2 & He2 & Hl2 & Hk2)]. cbn beta iota. unfold tl.
  rewrite (app_assoc hdr), <-len_encode_sig, <-len_app.
  eapply wp_mono; [apply (parse_vendor_added (pe_vendor e) i _ _ (hdr ++ encode_sig (pe_sig e)) post n2 _ _
    Hat2 He2 Hv); [rewrite len_encode_sig; lia | done]|].
  intros r w3 [-> (n3 & Hat3 & He3 & Hl3 & Hk3)]. rewrite len_app, len_encode_sig.
  split; [do 2 f_equal; lia|]. exists n3. split; [done|].
  unfold push_models in *. rewrite <-fold_left_app in *. fold (pe_ids e) in *.
  assert (Hpm : fold_left (λ e i, push_model i e) (pe_ids e) (Element [] (pe_loc e) i) =
    Element (zero_model <$> pe_ids e) (pe_loc e) i) by by apply (push_models_new _ []).
  rewrite Hpm in *. rewrite Hl3, Hl2, update_first_twice.
  - unfold f. cbn [nd_elements set_nd_elements]. rewrite update_first_app.
    + cbn [update_first]. unfold match_element_idx. cbn [el_index]. by rewrite Z.eqb_refl.
    + eapply Forall_impl; [exact Hi|]. intros x Hx. by apply Z.eqb_neq.
  - by apply find_first_some in He2 as [_ He2].
Qed.

Lemma parse_elements_added els j data l pre post n w :
  at_node id n w -> Forall (fun x => el_index x < Z.of_nat j) (nd_elements n) ->
  Forall page_element_ok els -> len (concat (encode_element <$> els)) <= l < 0x10000 ->
  data = pre ++ concat (encode_element <$> els) ++ post ->
  wp (parse_elements (length els) (Z.of_nat j) id data (len pre) l) (fun r w' =>
    r = true /\ exists n', at_node id n' w' /\
      nd_elements n' = nd_elements n ++ imap (fun k e => element_of (j + k) e) els) w.
Proof.
  intros Hat Hj Hels Hl ->. revert j l pre n w Hat Hj Hl.
  induction Hels as [|e els He Hels IH]; intros j l pre n w Hat Hj Hl; cbn [length parse_elements].
  - wp_run. split; [done|]. exists n. by rewrite app_nil_r.
  - rewrite fmap_cons in *. cbn [concat] in *. rewrite len_app in Hl. rewrite <-app_assoc.
    pose proof (len_nonneg (concat (encode_element <$> els))). pose proof (len_encode_element e) as Hle.
    pose proof (len_nonneg (pe_sig e)). wp_step.
    eapply wp_mono; [apply (parse_element_added e _ _ _ pre (concat (encode_element <$> els) ++ post) n _ Hat);
      [| done | | done]|].
    { eapply Forall_impl; [exact Hj | cbn; lia]. }
    { lia. }
    intros r w1 [-> (n1 & Hat1 & Hel)]. cbn beta iota.
    replace (Z.of_nat j + 1) with (Z.of_nat (S j)) by lia. rewrite app_assoc, <-len_app.
    eapply wp_mono; [apply (IH (S j) _ _ n1 _ Hat1); [|lia]|].
    { rewrite Hel. apply Forall_app. split; [eapply Forall_impl; [exact Hj | cbn; lia]|].
      constructor; [cbn; lia | constructor]. }
    intros r w2 [-> (n2 & Hat2 & Hel2)]. split; [done|]. exists n2. split; [done|].
    rewrite Hel2, Hel, <-app_assoc. f_equal. cbn [app imap]. rewrite Nat.add_0_r. f_equal.
    apply imap_ext. intros k x _. cbn. by rewrite Nat.add_succ_r.
Qed.
End Parse.

(** ** Theorems *)

(** C25: composition data is read back as it was sent.  For a node without
    elements whose number of elements is that of the page, and a page of at most
    65535 octets with any octets behind it in the buffer:
    [node_parse_composition] gives the node, in order, an element with each
    location and the SIG and vendor models listed for it, and the features and
    numbers of the page. *)
Theorem composition_roundtrip id n cid pid vid crpl features els tail (w : world node_store) :
  store_wf (w_nodes w) -> find_first (is_node id) (ns_nodes (w_nodes w)) = Some n ->
  nd_elements n = [] -> nd_num_ele n = Z.of_nat (length els) -> Forall page_element_ok els ->
  Forall (fun x => is_u16 x) [cid; pid; vid; crpl; features] ->
  let page := encode_page cid pid vid crpl features els in
  len page < 0x10000 ->
  exists w' n', node_parse_composition (Some id) (page ++ tail) (len page) w = Ok (true, w') /\
    store_wf (w_nodes w') /\ find_first (is_node id) (ns_nodes (w_nodes w')) = Some n' /\
    nd_elements n' = imap element_of els /\ nd_comp n' = Some (comp_of features cid pid vid crpl).
Proof.
  intros Hw Hn Hnil Hk Hels Hu page Hl.
  assert (H : wp (node_parse_composition (Some id) (page ++ tail) (len page)) (fun r w' => r = true /\
    exists n', at_node id n' w' /\ nd_elements n' = imap element_of els /\
      nd_comp n' = Some (comp_of features cid pid vid crpl)) w).
  2: { apply wp_ok in H as (r & w' & Hr & -> & n' & [? ?] & ? & ?). by exists w', n'. }
  apply Forall_cons in Hu as [H1 Hu]. apply Forall_cons in Hu as [H2 Hu].
  apply Forall_cons in Hu as [H3 Hu]. apply Forall_cons in Hu as [H4 Hu].
  apply Forall_cons in Hu as [H5 _].
  set (hdr := [0] ++ to_le 2 cid ++ to_le 2 pid ++ to_le 2 vid ++ to_le 2 crpl ++ to_le 2 features).
  assert (Hpage : page = hdr ++ concat (encode_element <$> els))
    by (unfold page, encode_page, hdr; by rewrite <-!app_assoc).
  assert (Hlen : len page = 11 + len (concat (encode_element <$> els)))
    by (rewrite Hpage, len_app; done).
  pose proof (len_nonneg (concat (encode_element <$> els))).
  assert (Hget : ∀ pre v post, page ++ tail = pre ++ to_le 2 v ++ post -> is_u16 v ->
    get_le16 (page ++ tail) (len pre) = Ok v) by (intros pre v post -> ?; by apply get_le16_mid).
  unfold node_parse_composition. rewrite (u16_small (len page - 1)), u16_small by lia.
  wp_step. eapply wp_lift; [eapply (Hget [0]); [reflexivity | done]|]. wp_step.
  eapply wp_lift; [eapply (Hget ([0] ++ to_le 2 cid)); [reflexivity | done]|]. wp_step.
  eapply wp_lift; [eapply (Hget ([0] ++ to_le 2 cid ++ to_le 2 pid)); [reflexivity | done]|]. wp_step.
  eapply wp_lift; [eapply (Hget ([0] ++ to_le 2 cid ++ to_le 2 pid ++ to_le 2 vid)); [reflexivity | done]|]. wp_step.
  eapply wp_lift; [eapply (Hget ([0] ++ to_le 2 cid ++ to_le 2 pid ++ to_le 2 vid ++ to_le 2 crpl)); [reflexivity | done]|].
  unfold nonnull_or_fault. wp_step. eapply deref_at; [by split|]. wp_step.
  rewrite Hk, Nat2Z.id. change 11 with (len hdr) at 1. change 0 with (Z.of_nat 0).
  eapply wp_mono; [eapply (parse_elements_added id els 0 (page ++ tail) _ hdr tail n _)|].
  - by split.
  - by rewrite Hnil.
  - done.
  - lia.
  - by rewrite Hpage, <-app_assoc.
  - intros r w1 (-> & n1 & Hat1 & Hel). cbn [negb]. wp_step.
    eapply assign_at; [exact Hat1 | done | intros; by apply (node_wf_field n1) | done|].
    intros w2 Hat2. wp_run. split; [done|]. eexists. split; [exact Hat2|].
    by rewrite Hnil in Hel.
Qed.

Definition demo_page : list page_element :=
  [PageElement 0x100 [0; 2; 0x1000] [(0x5f1, 0x1001)]; PageElement 0x101 [] [(0x5f1, 0x1001); (0x5f1, 2)]].
Definition demo_blank : mesh_node := set_nd_num_ele 2 demo_remote.
Definition demo_blank_world : world node_store :=
  World demo_net demo_keys (NodeStore [demo_local; demo_blank] (Some 1) true 3 start_statics) 1 [] false [].

Lemma demo_blank_wf : store_wf (w_nodes demo_blank_world).
Proof.
  split; [done | apply (bool_decide_unpack _); by vm_compute | | |].
  - repeat constructor; cbn; try (apply (bool_decide_unpack _); by vm_compute); lia.
  - repeat constructor.
  - intros l [= <-]. by exists demo_local.
Qed.

Lemma composition_roundtrip_witness :
  let page := encode_page 0x5f1 1 2 3 5 demo_page in
  exists w' n', node_parse_composition (Some 2) (page ++ [7; 7]) (len page) demo_blank_world = Ok (true, w') /\
    store_wf (w_nodes w') /\ find_first (is_node 2) (ns_nodes (w_nodes w')) = Some n' /\
    nd_elements n' = imap element_of demo_page /\ nd_comp n' = Some (comp_of 5 0x5f1 1 2 3).
Proof.
  apply (composition_roundtrip 2 demo_blank 0x5f1 1 2 3 5 demo_page [7; 7] demo_blank_world); try done.
  - apply demo_blank_wf.
  - repeat constructor; cbn; try lia; apply (bool_decide_unpack _); by vm_compute.
  - by repeat constructor.
Defined.

(** Composition data that ends early is read past its end.  The parser goes
    by the number of elements that provisioning reported, and its count of the
    octets left, which leaves out half of each element's header, only stops the
    models: a page that holds the first of several elements and no whole header of
    the second makes it read beyond the object. *)
Theorem composition_over_read id n hdr l0 l1 rest l (w : world node_store) :
  store_wf (w_nodes w) -> find_first (is_node id) (ns_nodes (w_nodes w)) = Some n ->
  2 <= nd_num_ele n -> len hdr = 11 -> len rest < 2 ->
  node_parse_composition (Some id) (hdr ++ [l0; l1; 0; 0] ++ rest) l w = Fault Oob.
Proof.
  intros Hw Hn Hk Hh Hr. set (data := hdr ++ _).
  assert (Hle : ∀ off, 0 <= off <= 13 -> exists v, get_le16 data off = Ok v).
  { intros off Ho. apply get_le16_ok; [lia|]. unfold data. rewrite !len_app.
    pose proof (len_nonneg rest). change (len [l0; l1; 0; 0]) with 4. lia. }
  assert (Hrd : ∀ off, 13 <= off <= 14 -> rd data off = Ok 0).
  { intros off Ho. unfold data. assert (off = 13 \/ off = 14) as [-> | ->] by lia.
    - change (hdr ++ [l0; l1; 0; 0] ++ rest) with (hdr ++ [l0; l1] ++ 0 :: 0 :: rest). rewrite app_assoc. apply rd_mid. rewrite len_app, Hh. done.
    - change (hdr ++ [l0; l1; 0; 0] ++ rest) with (hdr ++ [l0; l1; 0] ++ 0 :: rest). rewrite app_assoc. apply rd_mid. rewrite len_app, Hh. done. }
  assert (Hoob : get_le16 data 15 = Fault Oob).
  { unfold get_le16. rewrite rd_range_oob; [done|]. unfold data. rewrite !len_app.
    change (len [l0; l1; 0; 0]) with 4. lia. }
  destruct (Hle 1) as (? & E1); [lia|]. destruct (Hle 3) as (? & E3); [lia|].
  destruct (Hle 5) as (? & E5); [lia|]. destruct (Hle 7) as (? & E7); [lia|].
  destruct (Hle 9) as (? & E9); [lia|]. destruct (Hle 11) as (loc & E11); [lia|].
  unfold node_parse_composition. do 5 (apply wp_bind_fault; eapply wp_lift; [eassumption|]). unfold nonnull_or_fault.
  apply wp_bind_fault. eapply deref_at; [by split|].
  assert (exists k, Z.to_nat (nd_num_ele n) = S (S k)) as [k ->] by (exists (Z.to_nat (nd_num_ele n - 2)); lia).
  apply bind_fault. cbn [parse_elements]. apply wp_bind_fault. unfold parse_element at 1.
  wp_step. eapply wp_lift; [exact E11|]. wp_step.
  eapply assign_at; [by split | done | intros; by apply push_element_wf | done|]. intros w1 Hat1.
  wp_step. eapply wp_lift; [by apply Hrd|]. wp_step. eapply wp_lift; [by apply Hrd|].
  change (Z.to_nat 0) with O. cbn [parse_sig]. wp_step.
  assert (Hnil : ∀ (b : bool) (r : option (Z * Z)) v (Q : option (Z * Z) -> world node_store -> Prop),
    Q r v -> wp (if b then mret r else mret r) Q v) by (by intros []).
  apply Hnil. cbn beta iota. cbn [parse_vendor]. apply Hnil. cbn beta iota.
  apply bind_fault. unfold parse_element. apply bind_fault. unfold lift. change (11 + 4) with 15. by rewrite Hoob.
Qed.

Lemma composition_over_read_witness :
  node_parse_composition (Some 2) (rep 11 0 ++ [0; 1; 0; 0] ++ [5]) 16 demo_blank_world = Fault Oob.
Proof.
  apply (composition_over_read 2 demo_blank (rep 11 0) 0 1 [5] 16 demo_blank_world); try done.
  apply demo_blank_wf.
Defined.
