(* ===== verification/ConfigModel.v ===== *)
(** * The configuration models

    [src/blueZ/mesh/config-server.c] and [src/blueZ/mesh/config-client.c]: the
    callbacks of the configuration server and client on the primary element, and
    the commands of the client's menu. *)

From S2P Require Import Prelude Bytes Util Alg Crypto AddrPool Packet Pdu Keys NetState Send Beacon Recv Node.

Definition OP_APPKEY_ADD : Z := 0x00.
Definition OP_APPKEY_DELETE : Z := 0x8000.
Definition OP_APPKEY_STATUS : Z := 0x8003.
Definition OP_DEV_COMP_GET : Z := 0x8008.
Definition OP_DEV_COMP_STATUS : Z := 0x02.
Definition OP_CONFIG_BEACON_GET : Z := 0x8009.
Definition OP_CONFIG_BEACON_SET : Z := 0x800A.
Definition OP_CONFIG_BEACON_STATUS : Z := 0x800B.
Definition OP_CONFIG_DEFAULT_TTL_GET : Z := 0x800C.
Definition OP_CONFIG_DEFAULT_TTL_SET : Z := 0x800D.
Definition OP_CONFIG_DEFAULT_TTL_STATUS : Z := 0x800E.
Definition OP_CONFIG_PROXY_GET : Z := 0x8012.
Definition OP_CONFIG_PROXY_SET : Z := 0x8013.
Definition OP_CONFIG_PROXY_STATUS : Z := 0x8014.
Definition OP_CONFIG_MODEL_PUB_GET : Z := 0x8018.
Definition OP_CONFIG_MODEL_PUB_SET : Z := 0x03.
Definition OP_CONFIG_MODEL_PUB_STATUS : Z := 0x8019.
Definition OP_CONFIG_MODEL_SUB_ADD : Z := 0x801B.
Definition OP_CONFIG_MODEL_SUB_STATUS : Z := 0x801F.
Definition OP_CONFIG_RELAY_GET : Z := 0x8026.
Definition OP_CONFIG_RELAY_SET : Z := 0x8027.
Definition OP_CONFIG_RELAY_STATUS : Z := 0x8028.
Definition OP_CONFIG_MODEL_SUB_GET : Z := 0x8029.
Definition OP_CONFIG_MODEL_SUB_LIST : Z := 0x802A.
Definition OP_CONFIG_HEARTBEAT_PUB_GET : Z := 0x8038.
Definition OP_CONFIG_HEARTBEAT_PUB_SET : Z := 0x8039.
Definition OP_CONFIG_HEARTBEAT_PUB_STATUS : Z := 0x06.
Definition OP_CONFIG_HEARTBEAT_SUB_GET : Z := 0x803A.
Definition OP_CONFIG_HEARTBEAT_SUB_SET : Z := 0x803B.
Definition OP_CONFIG_HEARTBEAT_SUB_STATUS : Z := 0x803C.
Definition OP_MODEL_APP_BIND : Z := 0x803D.
Definition OP_MODEL_APP_STATUS : Z := 0x803E.
Definition OP_NETKEY_ADD : Z := 0x8040.
Definition OP_NETKEY_DELETE : Z := 0x8041.
Definition OP_NETKEY_STATUS : Z := 0x8044.
Definition OP_NODE_IDENTITY_GET : Z := 0x8046.
Definition OP_NODE_IDENTITY_SET : Z := 0x8047.
Definition OP_NODE_IDENTITY_STATUS : Z := 0x8048.
Definition OP_NODE_RESET : Z := 0x8049.
Definition OP_NODE_RESET_STATUS : Z := 0x804A.
Definition OP_MODEL_APP_GET : Z := 0x804B.
Definition OP_MODEL_APP_LIST : Z := 0x804C.
Definition OP_UNRELIABLE : Z := 0x0100.
Definition PRIMARY_ELEMENT_IDX : Z := 0x00.
Definition MIN_COMPOSITION_LEN : Z := 16.
Definition MESH_STATUS_IDX_ALREADY_STORED : Z := 0x06.

(** [opcode & ~OP_UNRELIABLE] *)
Definition reliable (opcode : Z) : Z := Z.ldiff opcode OP_UNRELIABLE.

Section Config.
Context {A : Alg} {MC : ModelCode} {DH : DataHandler node_store}.

(** [node_get_primary] *)
Definition node_primary (node : option Z) : NM Z :=
  nonnull node UNASSIGNED (fun id => n ← node_deref id; mret (nd_primary n)).
(** [node_get_local_node] *)
Definition local_node : NM (option Z) := s ← store; mret (ns_local s).
(** [node_find_by_addr] *)
Definition node_by_addr (addr : Z) : NM (option Z) :=
  s ← store; n ← lift (find_by_addr s addr); mret (option_map nd_id n).

(** Database calls that name a node. *)
Definition db (op : db_op) : NM unit := emit (Db op).

(** What the model is handed: [opcode], the octets after it and [len], or [None]
    where [mesh_opcode_get] fails. *)
Definition open_msg (data : list Z) (len : Z) : NM (option (Z * list Z * Z)) :=
  r ← lift (mesh_opcode_get data len);
  mret (match r with
        | None => None
        | Some (opcode, n) => Some (reliable opcode, drop (Z.to_nat n) data, u16 (len - n))
        end).

(** [pub.u.addr16 = addr] on a little-endian host, in the [pub] on the stack. *)
Definition set_addr16 (addr : Z) (u : list Z) : list Z := to_le 2 addr ++ drop 2 u.

(** ** Server *)

(** [node_set_default_ttl], [prov_db_node_set_ttl] of [OP_CONFIG_DEFAULT_TTL_SET]. *)
Definition server_ttl_set (node ttl : Z) : NM unit :=
  if ttl <=? TTL_MASK then
    _ ← node_set_default_ttl (Some node) ttl; db (DbTtl node ttl)
  else mret tt.

(** [mod_id] of a publication message: at [off], in a message of [len] octets of
    which [vendor] have a vendor model. *)
Definition pub_mod_id (data : list Z) (len : Z) : NM Z :=
  lo ← lift (get_le16 data 9);
  if len =? 14 then hi ← lift (get_le16 data 11); mret (Z.lor (u32 (Z.shiftl lo 16)) hi)
  else mret (Z.lor lo 0xffff0000).

(** [junk] is what [pub] holds on the stack before. *)
Definition server_pub_set (junk : mesh_publication) (node : Z) (data : list Z) (len : Z) : NM unit :=
  ele_addr ← lift (get_le16 data 0);
  mod_id ← pub_mod_id data len;
  addr ← lift (get_le16 data 2);
  app_idx ← lift (get_le16 data 4);
  ttl ← lift (rd data 6);
  period ← lift (rd data 7);
  retransmit ← lift (rd data 8);
  let pub := Publication app_idx (set_addr16 addr (pub_u junk)) ttl (pub_credential junk) period
    retransmit in
  primary ← node_primary (Some node);
  let ele_idx := u8 (ele_addr - primary) in
  ok ← node_model_pub_set (Some node) ele_idx mod_id pub;
  if (ok : bool) then db (DbModelPub node ele_idx mod_id) else mret tt.

(** [msg] is the status message the server answers with; an answer to ourselves
    goes straight to the node layer. *)
Definition server_reply (fuel : nat) (node src : Z) (msg : list Z) : NM unit :=
  primary ← node_primary (Some node);
  if negb (src =? primary) then
    ttl ← node_get_default_ttl (Some node);
    _ ← net_access_layer_send fuel ttl primary src APP_IDX_DEV msg;
    mret tt
  else
    iv ← node_get_iv_index (Some node);
    seq ← node_get_sequence_number (Some node);
    node_local_data_handler fuel primary src iv seq APP_IDX_DEV msg (len msg).

Definition server_msg_recvd (junk : mesh_publication) (fuel : nat) (src : Z) (data : list Z) (len : Z)
    : NM bool :=
  m ← open_msg data len;
  match m with
  | None => mret false
  | Some (opcode, data, len) =>
      node ← local_node;
      match node with
      | None => mret true
      | Some node =>
          let ttl_status : NM bool :=
            '(n, msg) ← lift (mesh_opcode_set OP_CONFIG_DEFAULT_TTL_STATUS (rep 32 0));
            ttl ← node_get_default_ttl (Some node);
            msg ← lift (wr msg n ttl);
            _ ← server_reply fuel node src (take (Z.to_nat (n + 1)) msg);
            mret true in
          if opcode =? OP_CONFIG_DEFAULT_TTL_SET then
            if negb (len =? 1) then mret true else
            ttl ← lift (rd data 0);
            if (TTL_MASK <? ttl) || (ttl =? 1) then mret true else
            _ ← server_ttl_set node ttl;
            ttl_status
          else if opcode =? OP_CONFIG_DEFAULT_TTL_GET then ttl_status
          else if opcode =? OP_CONFIG_MODEL_PUB_SET then
            if negb (len =? 11) && negb (len =? 13) then mret true else
            _ ← server_pub_set junk node data len;
            mret true
          else mret false
      end
  end.

Definition config_server_init (cbs : mesh_model_ops) : NM bool :=
  node_local_model_register PRIMARY_ELEMENT_IDX CONFIG_SERVER_MODEL_ID cbs 0.

(** ** Client: status messages *)

(** [print_mod_id]: the model identifier at [off], of a vendor model if [vid]. *)
Definition print_mod_id (data : list Z) (off : Z) (vid : bool) : NM Z :=
  if negb vid then id ← lift (get_le16 data off); mret (Z.lor 0xffff0000 id)
  else
    id ← lift (get_le16 data (off + 2));
    v ← lift (get_le16 data off);
    mret (Z.lor (u32 (Z.shiftl v 16)) id).

(** The status octets that are only printed. *)
Fixpoint print_octets (data : list Z) (offs : list Z) : NM unit :=
  match offs with
  | [] => mret tt
  | i :: offs' => _ ← lift (rd data i); print_octets data offs'
  end.

(** [for (i = 5; i < len; i += 2)] over 16-bit values that are printed; [n]
    rounds at most. *)
Fixpoint print_list (n : nat) (data : list Z) (i len : Z) : NM unit :=
  if negb (i <? len) then mret tt else
  match n with
  | O => fail OutOfFuel
  | S n' => _ ← lift (get_le16 data i); print_list n' data (u16 (i + 2)) len
  end.

Definition client_comp_status (node : Z) (data : list Z) (len : Z) : NM unit :=
  if len <? MIN_COMPOSITION_LEN then mret tt else
  ok ← node_parse_composition (Some node) data len;
  if (ok : bool) then db (DbComposition node (take (Z.to_nat len) data)) else mret tt.

(** A key status: the key is taken off the node unless the remote node has it. *)
Definition key_refused (status : Z) : bool :=
  negb (status =? MESH_STATUS_SUCCESS) && negb (status =? MESH_STATUS_IDX_ALREADY_STORED).

Definition client_appkey_status (node : Z) (data : list Z) (len : Z) : NM unit :=
  if negb (len =? 4) then mret tt else
  status ← lift (rd data 0);
  w1 ← lift (get_le16 data 1);
  w2 ← lift (get_le16 data 2);
  let net_idx := Z.land w1 0xfff in
  let app_idx := Z.shiftr w2 4 in
  if negb (key_refused status) then mret tt else
  ok ← node_app_key_delete (Some node) net_idx app_idx;
  if (ok : bool) then keys ← node_get_app_keys (Some node); db (DbKeys node true keys) else mret tt.

Definition client_netkey_status (node : Z) (data : list Z) (len : Z) : NM unit :=
  if negb (len =? 3) then mret tt else
  status ← lift (rd data 0);
  w1 ← lift (get_le16 data 1);
  let net_idx := Z.land w1 0xfff in
  if negb (key_refused status) then mret tt else
  ok ← node_net_key_delete (Some node) net_idx;
  if (ok : bool) then keys ← node_get_net_keys (Some node); db (DbKeys node false keys) else mret tt.

Definition client_app_status (node src : Z) (data : list Z) (len : Z) : NM unit :=
  if negb (len =? 7) && negb (len =? 9) then mret tt else
  status ← lift (rd data 0);
  addr ← lift (get_le16 data 1);
  app_idx ← lift (get_le16 data 3);
  mod_id ← print_mod_id data 5 (len =? 9);
  if negb (status =? MESH_STATUS_SUCCESS) then mret tt else
  let ele_idx := u8 (addr - src) in
  ok ← node_add_binding (Some node) ele_idx mod_id app_idx;
  if (ok : bool) then db (DbBinding node ele_idx mod_id app_idx) else mret tt.

Definition client_ttl_status (node : Z) (data : list Z) (len : Z) : NM unit :=
  if negb (len =? 1) then mret tt else
  ttl ← lift (rd data 0);
  ok ← node_set_default_ttl (Some node) ttl;
  if (ok : bool) then db (DbTtl node ttl) else mret tt.

(** The configuration of the local node is saved by the server. *)
Definition client_pub_status (junk : mesh_publication) (node : Z) (data : list Z) (len : Z) : NM unit :=
  if negb (len =? 12) && negb (len =? 14) then mret tt else
  status ← lift (rd data 0);
  if negb (status =? MESH_STATUS_SUCCESS) then mret tt else
  ele_addr ← lift (get_le16 data 1);
  mod_id ← print_mod_id data 10 (len =? 14);
  addr ← lift (get_le16 data 3);
  app_idx ← lift (get_le16 data 5);
  ttl ← lift (rd data 7);
  period ← lift (rd data 8);
  retransmit ← lift (rd data 9);
  let pub := Publication app_idx (set_addr16 addr (pub_u junk)) ttl (pub_credential junk) period
    retransmit in
  primary ← node_primary (Some node);
  let ele_idx := u8 (ele_addr - primary) in
  local ← local_node;
  if bool_decide (Some node = local) then mret tt else
  ok ← node_model_pub_set (Some node) ele_idx mod_id pub;
  if (ok : bool) then db (DbModelPub node ele_idx mod_id) else mret tt.

Definition client_sub_status (node : Z) (data : list Z) (len : Z) : NM unit :=
  status ← lift (rd data 0);
  if negb (status =? MESH_STATUS_SUCCESS) then mret tt else
  ele_addr ← lift (get_le16 data 1);
  addr ← lift (get_le16 data 3);
  primary ← node_primary (Some node);
  let ele_idx := u8 (ele_addr - primary) in
  mod_id ← print_mod_id data 5 (len =? 9);
  ok ← node_add_subscription (Some node) ele_idx mod_id addr;
  if (ok : bool) then db (DbSubscription node ele_idx mod_id addr) else mret tt.

(** The subscription and key lists: printed only. *)
Definition client_list_status (data : list Z) (len : Z) : NM unit :=
  status ← lift (rd data 0);
  if negb (status =? MESH_STATUS_SUCCESS) then mret tt else
  _ ← lift (get_le16 data 1);
  _ ← lift (get_le16 data 3);
  print_list (Z.to_nat len) data 5 len.

(** A heartbeat status: printed only. *)
Definition client_heartbeat_status (data : list Z) (offs : list Z) : NM unit :=
  status ← lift (rd data 0);
  if negb (status =? MESH_STATUS_SUCCESS) then mret tt else print_octets data offs.

Definition client_reset_status (node : Z) (data : list Z) : NM unit :=
  _ ← lift (rd data 0);
  primary ← node_primary (Some node);
  num_ele ← node_get_num_elements (Some node);
  _ ← mod_net (fun n => set_address_pool (net_release_address primary num_ele (address_pool n)) n);
  node_free (Some node).

Definition client_case (junk : mesh_publication) (opcode node src : Z) (data : list Z) (len : Z)
    : option (NM unit) :=
  if opcode =? OP_DEV_COMP_STATUS then Some (client_comp_status node data len)
  else if opcode =? OP_APPKEY_STATUS then Some (client_appkey_status node data len)
  else if opcode =? OP_NETKEY_STATUS then Some (client_netkey_status node data len)
  else if opcode =? OP_MODEL_APP_STATUS then Some (client_app_status node src data len)
  else if opcode =? OP_NODE_IDENTITY_STATUS then
    Some (if negb (len =? 4) then mret tt else print_octets data [1; 2; 3; 0])
  else if (opcode =? OP_CONFIG_BEACON_STATUS) || (opcode =? OP_CONFIG_PROXY_STATUS) then
    Some (if negb (len =? 1) then mret tt else print_octets data [0])
  else if opcode =? OP_CONFIG_RELAY_STATUS then
    Some (if negb (len =? 2) then mret tt else print_octets data [0; 1])
  else if opcode =? OP_CONFIG_DEFAULT_TTL_STATUS then Some (client_ttl_status node data len)
  else if opcode =? OP_CONFIG_MODEL_PUB_STATUS then Some (client_pub_status junk node data len)
  else if opcode =? OP_CONFIG_MODEL_SUB_STATUS then Some (client_sub_status node data len)
  else if (opcode =? OP_CONFIG_MODEL_SUB_LIST) || (opcode =? OP_MODEL_APP_LIST) then
    Some (client_list_status data len)
  else if opcode =? OP_CONFIG_HEARTBEAT_PUB_STATUS then
    Some (client_heartbeat_status data [1; 2; 3; 4; 5; 6; 7; 8; 9])
  else if opcode =? OP_CONFIG_HEARTBEAT_SUB_STATUS then
    Some (client_heartbeat_status data [1; 2; 3; 4; 5; 6; 7; 8])
  else if opcode =? OP_NODE_RESET_STATUS then Some (client_reset_status node data)
  else None.

Definition client_msg_recvd (junk : mesh_publication) (src : Z) (data : list Z) (len : Z) : NM bool :=
  m ← open_msg data len;
  match m with
  | None => mret false
  | Some (opcode, data, len) =>
      node ← (if IS_UNICAST src then node_by_addr src else mret None);
      match node with
      | None => mret false
      | Some node =>
          primary ← node_primary (Some node);
          if negb (primary =? src) then mret false else
          match client_case junk opcode node src data len with
          | None => mret false
          | Some h => _ ← h; mret true
          end
      end
  end.

Definition config_client_init (cbs : mesh_model_ops) : NM bool :=
  node_local_model_register PRIMARY_ELEMENT_IDX CONFIG_CLIENT_MODEL_ID cbs 0.

(** ** Client: commands

    A command is given the words after its name, [None] for one that is not a
    hexadecimal number.  It returns whether it exits with success. *)

(** [read_input_parameters]: the numbers before the first word that is none, at
    most eight; 0xffffffff counts as none. *)
Fixpoint read_words (n : nat) (args : list (option Z)) : list Z :=
  match n, args with
  | S n', Some v :: args' =>
      let v := u32 v in if v =? 0xffffffff then [] else v :: read_words n' args'
  | _, _ => []
  end.
Definition read_input_parameters (args : list (option Z)) : list Z := read_words 8 args.

(** What is put behind the opcode: [msg\[n++\] = v], [put_le16(v, msg + n)] and
    [memcpy(msg + n, key, 16)]. *)
Inductive field := Octet (v : Z) | Half (v : Z) | Key (k : list Z).
Definition append_field (f : field) (m : Z * list Z) : res (Z * list Z) :=
  let '(n, msg) := m in
  match f with
  | Octet v => msg ← wr msg n (u8 v); mret (n + 1, msg)
  | Half v => msg ← put_le16 (u16 v) msg n; mret (n + 2, msg)
  | Key k => msg ← wr_range msg n k; mret (n + 16, msg)
  end.
(** A message built in a buffer of [size] octets on the stack. *)
Definition build_msg (size opcode : Z) (fields : list field) : res (list Z) :=
  m ← mesh_opcode_set opcode (rep size 0);
  '(n, msg) ← foldM append_field fields m;
  mret (take (Z.to_nat n) msg).

(** A model identifier among the parameters: for a vendor model the company
    identifier comes second, and first in the message. *)
Definition model_fields (ps : list Z) : option (list field) :=
  match ps with
  | [m] => Some [Half m]
  | [m; c] => Some [Half c; Half m]
  | _ => None
  end.

Definition config_send (fuel : nat) (target : Z) (buf : list Z) : NM bool :=
  node ← local_node;
  match node with
  | None => mret false
  | Some node =>
      primary ← node_primary (Some node);
      if negb (target =? primary) then
        net_access_layer_send fuel 0xff primary target APP_IDX_DEV buf
      else
        iv ← node_get_iv_index (Some node);
        seq ← node_get_sequence_number (Some node);
        _ ← node_local_data_handler fuel primary target iv seq APP_IDX_DEV buf (len buf);
        mret true
  end.

Definition send_config_msg (fuel : nat) (target size opcode : Z) (fields : list field) : NM bool :=
  msg ← lift (build_msg size opcode fields); config_send fuel target msg.

Definition cmd_default (fuel : nat) (target opcode : Z) : NM bool :=
  if target =? UNASSIGNED then mret false else send_config_msg fuel target 32 opcode [].

(** The target is only printed about; the message is sent all the same. *)
Definition cmd_composition_get (fuel : nat) (target : Z) (args : list (option Z)) : NM bool :=
  _ ← node_by_addr (u16 target);
  let page := match read_input_parameters args with [p] => p | _ => 0 end in
  send_config_msg fuel target 32 OP_DEV_COMP_GET [Octet page].

(** The index and the key are sent except with [OP_NETKEY_DELETE]. *)
Definition netkey_fields (opcode net_idx : Z) (key : list Z) : list field :=
  if opcode =? OP_NETKEY_DELETE then [] else [Half net_idx; Key key].

Definition cmd_net_key (fuel : nat) (target : Z) (args : list (option Z)) (opcode : Z) : NM bool :=
  if target =? UNASSIGNED then mret false else
  match read_input_parameters args with
  | [p] =>
      node ← node_by_addr (u16 target);
      match node with
      | None => mret false
      | Some node =>
          let net_idx := u16 p in
          w ← get;
          match (if opcode =? OP_NETKEY_DELETE then Some [] else keys_net_key_get (w_keys w) net_idx true) with
          | None => mret false
          | Some key =>
              ok ← send_config_msg fuel target 32 opcode (netkey_fields opcode net_idx key);
              if negb ok then mret false else
              ok ← (if opcode =? OP_NETKEY_DELETE then node_net_key_delete (Some node) net_idx
                    else node_net_key_add (Some node) net_idx);
              _ ← (if (ok : bool) then
                     keys ← node_get_net_keys (Some node); db (DbKeys node false keys)
                   else mret tt);
              mret true
          end
      end
  | _ => mret false
  end.
Definition cmd_netkey_add (fuel : nat) (target : Z) (args : list (option Z)) : NM bool :=
  cmd_net_key fuel target args OP_NETKEY_ADD.
Definition cmd_netkey_del (fuel : nat) (target : Z) (args : list (option Z)) : NM bool :=
  cmd_net_key fuel target args OP_NETKEY_DELETE.

(** The two indexes in three octets; the key except with [OP_APPKEY_DELETE]. *)
Definition index_fields (net_idx app_idx : Z) : list field :=
  [Octet (Z.land net_idx 0xf);
   Octet (Z.lor (Z.land (Z.shiftr net_idx 8) 0xf) (Z.land (Z.shiftl app_idx 4) 0xf0));
   Octet (Z.shiftr app_idx 4)].

Definition cmd_app_key (fuel : nat) (target : Z) (args : list (option Z)) (opcode : Z) : NM bool :=
  if target =? UNASSIGNED then mret false else
  match read_input_parameters args with
  | [p] =>
      node ← node_by_addr (u16 target);
      match node with
      | None => mret false
      | Some node =>
          let app_idx := u16 p in
          w ← get;
          let net_idx := keys_app_key_get_bound (w_keys w) app_idx in
          if net_idx =? NET_IDX_INVALID then mret false else
          match (if opcode =? OP_APPKEY_DELETE then Some [] else keys_app_key_get (w_keys w) app_idx true) with
          | None => mret false
          | Some key =>
              ok ← send_config_msg fuel target 32 opcode (index_fields net_idx app_idx ++
                     if opcode =? OP_APPKEY_DELETE then [] else [Key key]);
              if negb ok then mret false else
              ok ← (if opcode =? OP_APPKEY_DELETE then node_app_key_delete (Some node) net_idx app_idx
                    else node_app_key_add (Some node) app_idx);
              _ ← (if (ok : bool) then
                     keys ← node_get_app_keys (Some node); db (DbKeys node true keys)
                   else mret tt);
              mret true
          end
      end
  | _ => mret false
  end.
Definition cmd_appkey_add (fuel : nat) (target : Z) (args : list (option Z)) : NM bool :=
  cmd_app_key fuel target args OP_APPKEY_ADD.
Definition cmd_appkey_del (fuel : nat) (target : Z) (args : list (option Z)) : NM bool :=
  cmd_app_key fuel target args OP_APPKEY_DELETE.

Definition verify_config_target (dst : Z) : NM bool :=
  if dst =? UNASSIGNED then mret false else
  node ← node_by_addr (u16 dst);
  match node with
  | None => mret false
  | Some node =>
      comp ← node_get_composition (Some node);
      mret (match comp with Some _ => true | None => false end)
  end.

(** A command that sends [opcode] and the fields [layout] makes of its
    parameters, or fails where there are none for that many. *)
Definition send_layout (fuel : nat) (target size opcode : Z) (layout : list Z -> option (list field))
    (args : list (option Z)) : NM bool :=
  match layout (read_input_parameters args) with
  | None => mret false
  | Some fields => send_config_msg fuel target size opcode fields
  end.

(** Commands for a node whose composition is known, and for any target. *)
Definition cmd_verified (fuel : nat) (target size opcode : Z) (layout : list Z -> option (list field))
    (args : list (option Z)) : NM bool :=
  ok ← verify_config_target target;
  if negb ok then mret false else send_layout fuel target size opcode layout args.
Definition cmd_any (fuel : nat) (target size opcode : Z) (layout : list Z -> option (list field))
    (args : list (option Z)) : NM bool :=
  if target =? UNASSIGNED then mret false else send_layout fuel target size opcode layout args.

Definition bind_layout (target : Z) (ps : list Z) : option (list field) :=
  match ps with
  | p0 :: p1 :: m => f ← model_fields m; Some (Half (target + p0) :: Half p1 :: f)
  | _ => None
  end.
Definition cmd_bind (fuel : nat) (target : Z) : list (option Z) -> NM bool :=
  cmd_verified fuel target 32 OP_MODEL_APP_BIND (bind_layout target).

Definition octet_layout (ps : list Z) : option (list field) :=
  match ps with [p] => Some [Octet p] | _ => None end.
Definition cmd_beacon_set (fuel : nat) (target : Z) : list (option Z) -> NM bool :=
  cmd_verified fuel target (2 + 1) OP_CONFIG_BEACON_SET octet_layout.
Definition cmd_proxy_set (fuel : nat) (target : Z) : list (option Z) -> NM bool :=
  cmd_verified fuel target (2 + 1) OP_CONFIG_PROXY_SET octet_layout.

Definition ident_layout (ps : list Z) : option (list field) :=
  match ps with [p0; p1] => Some [Half p0; Octet p1] | _ => None end.
Definition cmd_ident_set (fuel : nat) (target : Z) : list (option Z) -> NM bool :=
  cmd_verified fuel target (2 + 3 + 4) OP_NODE_IDENTITY_SET ident_layout.
Definition half_layout (ps : list Z) : option (list field) :=
  match ps with [p] => Some [Half p] | _ => None end.
Definition cmd_ident_get (fuel : nat) (target : Z) : list (option Z) -> NM bool :=
  cmd_verified fuel target (2 + 2 + 4) OP_NODE_IDENTITY_GET half_layout.

Definition relay_layout (ps : list Z) : option (list field) :=
  match ps with
  | [p0; p1; p2] => Some [Octet p0; Octet (Z.lor (u32 (Z.shiftl p1 5)) p2)]
  | _ => None
  end.
Definition cmd_relay_set (fuel : nat) (target : Z) : list (option Z) -> NM bool :=
  cmd_verified fuel target (2 + 2 + 4) OP_CONFIG_RELAY_SET relay_layout.

Definition cmd_ttl_set (fuel : nat) (target : Z) (args : list (option Z)) : NM bool :=
  if target =? UNASSIGNED then mret false else
  ttl ← (match read_input_parameters args with
         | p :: _ => mret (Z.land p TTL_MASK)
         | [] => node ← local_node; node_get_default_ttl node
         end);
  send_config_msg fuel target 32 OP_CONFIG_DEFAULT_TTL_SET [Octet ttl].

Definition pub_layout (ps : list Z) : option (list field) :=
  match ps with
  | p0 :: p1 :: p2 :: p3 :: p4 :: m =>
      f ← model_fields m;
      Some (Half p0 :: Half p1 :: Half p2 :: Octet DEFAULT_TTL :: Octet p3 :: Octet p4 :: f)
  | _ => None
  end.
Definition cmd_pub_set (fuel : nat) (target : Z) : list (option Z) -> NM bool :=
  cmd_verified fuel target 32 OP_CONFIG_MODEL_PUB_SET pub_layout.

Definition pub_get_layout (ps : list Z) : option (list field) :=
  match ps with p0 :: m => f ← model_fields m; Some (Half p0 :: f) | _ => None end.
Definition cmd_pub_get (fuel : nat) (target : Z) : list (option Z) -> NM bool :=
  cmd_any fuel target 32 OP_CONFIG_MODEL_PUB_GET pub_get_layout.

Definition sub_layout (ps : list Z) : option (list field) :=
  match ps with [p0; p1; p2] => Some [Half p0; Half p1; Half p2] | _ => None end.
Definition cmd_sub_add (fuel : nat) (target : Z) : list (option Z) -> NM bool :=
  cmd_any fuel target 32 OP_CONFIG_MODEL_SUB_ADD sub_layout.

Definition two_halves_layout (ps : list Z) : option (list field) :=
  match ps with [p0; p1] => Some [Half p0; Half p1] | _ => None end.
Definition cmd_sub_get (fuel : nat) (target : Z) : list (option Z) -> NM bool :=
  cmd_any fuel target 32 OP_CONFIG_MODEL_SUB_GET two_halves_layout.
Definition cmd_mod_appidx_get (fuel : nat) (target : Z) : list (option Z) -> NM bool :=
  cmd_any fuel target 32 OP_MODEL_APP_GET two_halves_layout.

Definition hb_pub_layout (ps : list Z) : option (list field) :=
  match ps with
  | [p0; p1; p2; p3; p4; p5] =>
      Some [Half p0; Octet p1; Octet p2; Octet p3; Half p4; Half p5]
  | _ => None
  end.
Definition cmd_hb_pub_set (fuel : nat) (target : Z) : list (option Z) -> NM bool :=
  cmd_any fuel target 32 OP_CONFIG_HEARTBEAT_PUB_SET hb_pub_layout.

Definition hb_sub_layout (ps : list Z) : option (list field) :=
  match ps with [p0; p1; p2] => Some [Half p0; Half p1; Octet p2] | _ => None end.
Definition cmd_hb_sub_set (fuel : nat) (target : Z) : list (option Z) -> NM bool :=
  cmd_any fuel target 32 OP_CONFIG_HEARTBEAT_SUB_SET hb_sub_layout.

Definition cmd_beacon_get (fuel : nat) (target : Z) : NM bool :=
  cmd_default fuel target OP_CONFIG_BEACON_GET.
Definition cmd_proxy_get (fuel : nat) (target : Z) : NM bool :=
  cmd_default fuel target OP_CONFIG_PROXY_GET.
Definition cmd_relay_get (fuel : nat) (target : Z) : NM bool :=
  cmd_default fuel target OP_CONFIG_RELAY_GET.
Definition cmd_hb_pub_get (fuel : nat) (target : Z) : NM bool :=
  cmd_default fuel target OP_CONFIG_HEARTBEAT_PUB_GET.
Definition cmd_hb_sub_get (fuel : nat) (target : Z) : NM bool :=
  cmd_default fuel target OP_CONFIG_HEARTBEAT_SUB_GET.
Definition cmd_ttl_get (fuel : nat) (target : Z) : NM bool :=
  cmd_default fuel target OP_CONFIG_DEFAULT_TTL_GET.
Definition cmd_node_reset (fuel : nat) (target : Z) : NM bool :=
  cmd_default fuel target OP_NODE_RESET.
Definition config_client_get_composition (fuel : nat) (dst : Z) : NM bool :=
  cmd_composition_get fuel dst [].
End Config.
