(* ===== verification/Messages.v ===== *)
(** * The messages of the client models

    What [build_msg] makes of an opcode and its fields; shared by the client models. *)

From S2P Require Import Prelude Bytes Util Alg Crypto AddrPool Packet Pdu Keys NetState Send Beacon Recv Node ConfigModel.

Definition field_bytes (f : field) : list Z :=
  match f with Octet v => [u8 v] | Half v => to_le 2 (u16 v) | Key k => k end.
Definition fields_bytes (fs : list field) : list Z := concat (field_bytes <$> fs).
Definition field_ok (f : field) : Prop := match f with Key k => len k = 16 | _ => True end.

Lemma append_field_eq f pre old post : field_ok f -> length old = length (field_bytes f) ->
  append_field f (len pre, pre ++ old ++ post) =
  Ok (len pre + len (field_bytes f), pre ++ field_bytes f ++ post).
Proof.
  intros Hf Hl. destruct f as [v|v|k]; cbn [append_field field_bytes] in *.
  - destruct old as [|o [|]]; try done. pose proof (len_nonneg post). pose proof (len_nonneg pre).
    rewrite wr_ok by (rewrite !len_app; change (len [o]) with 1; lia).
    cbn [mbind res_bind mret res_ret app]. unfold len. rewrite Nat2Z.id.
    by rewrite insert_app_r_alt, Nat.sub_diag by done.
  - unfold put_le16. by rewrite wr_range_mid.
  - rewrite wr_range_mid by done. cbn [mbind res_bind mret res_ret]. cbn [field_ok] in Hf. by rewrite Hf.
Qed.

Definition le16 (v : Z) : list Z := to_le 2 (u16 v).
Lemma len_le16 v : len (le16 v) = 2.
Proof. done. Qed.

Lemma fields_bytes_cons f fs : fields_bytes (f :: fs) = field_bytes f ++ fields_bytes fs.
Proof. done. Qed.

Lemma append_fields fs pre room : Forall field_ok fs -> len (fields_bytes fs) <= room ->
  foldM append_field fs (len pre, pre ++ rep room 0) =
  Ok (len pre + len (fields_bytes fs), pre ++ fields_bytes fs ++ rep (room - len (fields_bytes fs)) 0).
Proof.
  intros Hfs. revert pre room. induction Hfs as [|f fs Hf Hfs IH]; intros pre room Hr.
  - cbn. by rewrite Z.add_0_r, Z.sub_0_r.
  - rewrite fields_bytes_cons, len_app in *. pose proof (len_nonneg (field_bytes f)).
    pose proof (len_nonneg (fields_bytes fs)). cbn [foldM].
    replace (rep room 0) with (rep (len (field_bytes f)) 0 ++ rep (room - len (field_bytes f)) 0).
    2: { unfold rep. rewrite <-replicate_add. f_equal. lia. }
    rewrite append_field_eq; [|done | unfold rep, len; rewrite length_replicate; lia].
    cbn [mbind res_bind]. specialize (IH (pre ++ field_bytes f) (room - len (field_bytes f)) ltac:(lia)).
    rewrite len_app, <-app_assoc in IH. rewrite IH. f_equal. f_equal; [lia|].
    rewrite <-!app_assoc. do 4 f_equal. lia.
Qed.

(** The opcodes of the configuration models take one or two octets. *)
Definition config_opcode (op : Z) : bool := (0 <=? op) && (op <=? 0x7e) || (0x8000 <=? op) && (op <=? 0xbfff).
Definition opcode_bytes (op : Z) : list Z := if op <=? 0x7e then [op] else to_be 2 op.

Lemma opcode_bytes_len op : 1 <= len (opcode_bytes op) <= 2.
Proof. unfold opcode_bytes. case_goal; [done|]. by change (len (to_be 2 op)) with 2. Qed.

Lemma opcode_set_bytes op size : config_opcode op = true -> 2 <= size ->
  mesh_opcode_set op (rep size 0) =
  Ok (len (opcode_bytes op), opcode_bytes op ++ rep (size - len (opcode_bytes op)) 0).
Proof.
  intros Hop Hs. unfold config_opcode, opcode_bytes, mesh_opcode_set in *.
  assert (Hrep : rep size 0 = 0 :: 0 :: rep (size - 2) 0).
  { unfold rep. replace (Z.to_nat size) with (S (S (Z.to_nat (size - 2)))) by lia. done. }
  rewrite Hrep. destruct (Z.leb_spec op 0x7e).
  - apply orb_true_iff in Hop as [Hop|Hop]; bool_hyps; [|lia].
    rewrite wr_ok by (rewrite !len_cons; pose proof (len_nonneg (rep (size - 2) 0)); lia).
    cbn [mbind res_bind mret res_ret]. rewrite u8_small by lia. do 2 f_equal. cbn. f_equal.
    unfold rep. change (len [op]) with 1. by replace (Z.to_nat (size - 1)) with (S (Z.to_nat (size - 2))) by lia.
  - apply orb_true_iff in Hop as [Hop|Hop]; bool_hyps; [lia|].
    rewrite (proj2 (Z.leb_le _ _)), (proj2 (Z.leb_le _ _)) by lia. cbn [andb].
    rewrite put_be16_at, u16_small by lia. done.
Qed.

Lemma build_msg_eq size op fs : config_opcode op = true -> 2 <= size -> Forall field_ok fs ->
  len (opcode_bytes op) + len (fields_bytes fs) <= size ->
  build_msg size op fs = Ok (opcode_bytes op ++ fields_bytes fs).
Proof.
  intros Hop Hs Hfs Hr. unfold build_msg. rewrite opcode_set_bytes by done.
  cbn [mbind res_bind]. rewrite append_fields by (done || lia). cbn [mbind res_bind mret res_ret].
  f_equal. rewrite app_assoc. apply take_app_length'. unfold len. rewrite length_app. lia.
Qed.

Lemma opcode_get_bytes op l : config_opcode op = true ->
  mesh_opcode_get (opcode_bytes op ++ l) (len (opcode_bytes op ++ l)) = Ok (Some (op, len (opcode_bytes op))).
Proof.
  intros Hop. unfold config_opcode, opcode_bytes in *. pose proof (len_nonneg l). rewrite len_app.
  apply orb_true_iff in Hop as [Hop|Hop]; bool_hyps; destruct (Z.leb_spec op 0x7e); try lia.
  - change (len [op]) with 1. apply opcode_get_one; lia.
  - change (len (to_be 2 op)) with 2. apply opcode_get_two; lia.
Qed.
