(* ===== verification/ConfigMenu.v ===== *)
(** * The commands of the configuration menu

    What each command of [src/blueZ/mesh/config-client.c] sends for the words after its
    name, octet by octet, and when it refuses. *)

From S2P Require Import Prelude Bytes Util Alg Crypto AddrPool Packet Pdu Keys NetState Send Beacon Recv Reassembly Node NodeFacts NodeOps ConfigModel Messages.

(** ** The menu *)

Inductive menu_command :=
| CompositionGet | NetkeyAdd | NetkeyDel | AppkeyAdd | AppkeyDel | Bind
| BeaconSet | BeaconGet | IdentSet | IdentGet | ProxySet | ProxyGet | RelaySet | RelayGet
| TtlSet | TtlGet | PubSet | PubGet | SubAdd | SubGet | ModAppidxGet
| HbPubSet | HbPubGet | HbSubSet | HbSubGet | NodeReset.

Definition run_menu {A : Alg} {MC : ModelCode} {DH : DataHandler node_store} (c : menu_command) (fuel : nat) (target : Z)
    (args : list (option Z)) : NM bool :=
  match c with
  | CompositionGet => cmd_composition_get fuel target args
  | NetkeyAdd => cmd_netkey_add fuel target args
  | NetkeyDel => cmd_netkey_del fuel target args
  | AppkeyAdd => cmd_appkey_add fuel target args
  | AppkeyDel => cmd_appkey_del fuel target args
  | Bind => cmd_bind fuel target args
  | BeaconSet => cmd_beacon_set fuel target args
  | BeaconGet => cmd_beacon_get fuel target
  | IdentSet => cmd_ident_set fuel target args
  | IdentGet => cmd_ident_get fuel target args
  | ProxySet => cmd_proxy_set fuel target args
  | ProxyGet => cmd_proxy_get fuel target
  | RelaySet => cmd_relay_set fuel target args
  | RelayGet => cmd_relay_get fuel target
  | TtlSet => cmd_ttl_set fuel target args
  | TtlGet => cmd_ttl_get fuel target
  | PubSet => cmd_pub_set fuel target args
  | PubGet => cmd_pub_get fuel target args
  | SubAdd => cmd_sub_add fuel target args
  | SubGet => cmd_sub_get fuel target args
  | ModAppidxGet => cmd_mod_appidx_get fuel target args
  | HbPubSet => cmd_hb_pub_set fuel target args
  | HbPubGet => cmd_hb_pub_get fuel target
  | HbSubSet => cmd_hb_sub_set fuel target args
  | HbSubGet => cmd_hb_sub_get fuel target
  | NodeReset => cmd_node_reset fuel target
  end.

(** The buffer on the stack that the message is built in. *)
Definition room (c : menu_command) : Z :=
  match c with BeaconSet | ProxySet => 3 | IdentSet => 9 | IdentGet | RelaySet => 8 | _ => 32 end.

(** ** The messages, octet by octet

    A model is the last parameter, or the last but one and its company, which goes
    first. *)
Definition model_id (ps : list Z) : option (list Z) :=
  match ps with
  | [model] => Some (le16 model)
  | [model; company] => Some (le16 company ++ le16 model)
  | _ => None
  end.
(** Two key indexes of 12 bits in three octets; the first loses its bits 4 to 7. *)
Definition key_indexes (net_idx app_idx : Z) : list Z :=
  to_le 3 (Z.land net_idx 0xf0f + 0x1000 * (app_idx mod 0x1000)).
Definition local_ttl (w : world node_store) : Z :=
  match ns_local (w_nodes w) with None => DEFAULT_TTL | Some _ => default_ttl (w_net w) end.

Definition menu_message (c : menu_command) (target : Z) (ps : list Z) (w : world node_store) : option (list Z) :=
  match c, ps with
  | CompositionGet, [page] => Some [0x80; 0x08; u8 page]
  | CompositionGet, _ => Some [0x80; 0x08; 0]
  | NetkeyAdd, [i] => key ← keys_net_key_get (w_keys w) (u16 i) true; Some ([0x80; 0x40] ++ le16 i ++ key)
  | NetkeyDel, [i] => Some [0x80; 0x41]
  | AppkeyAdd, [i] =>
      let net := keys_app_key_get_bound (w_keys w) (u16 i) in
      if net =? NET_IDX_INVALID then None else
      key ← keys_app_key_get (w_keys w) (u16 i) true; Some ([0x00] ++ key_indexes net i ++ key)
  | AppkeyDel, [i] =>
      let net := keys_app_key_get_bound (w_keys w) (u16 i) in
      if net =? NET_IDX_INVALID then None else Some ([0x80; 0x00] ++ key_indexes net i)
  | Bind, element :: app :: m => id ← model_id m; Some ([0x80; 0x3d] ++ le16 (target + element) ++ le16 app ++ id)
  | BeaconSet, [state] => Some [0x80; 0x0a; u8 state]
  | BeaconGet, _ => Some [0x80; 0x09]
  | IdentSet, [net; state] => Some ([0x80; 0x47] ++ le16 net ++ [u8 state])
  | IdentGet, [net] => Some ([0x80; 0x46] ++ le16 net)
  | ProxySet, [state] => Some [0x80; 0x13; u8 state]
  | ProxyGet, _ => Some [0x80; 0x12]
  | RelaySet, [state; count; steps] => Some [0x80; 0x27; u8 state; u8 (Z.lor (32 * count) steps)]
  | RelayGet, _ => Some [0x80; 0x26]
  | TtlSet, [] => Some [0x80; 0x0d; u8 (local_ttl w)]
  | TtlSet, ttl :: _ => Some [0x80; 0x0d; ttl mod 0x80]
  | TtlGet, _ => Some [0x80; 0x0c]
  | PubSet, element :: addr :: app :: period :: retransmit :: m =>
      id ← model_id m;
      Some ([0x03] ++ le16 element ++ le16 addr ++ le16 app ++ [0xff; u8 period; u8 retransmit] ++ id)
  | PubGet, element :: m => id ← model_id m; Some ([0x80; 0x18] ++ le16 element ++ id)
  | SubAdd, [element; addr; model] => Some ([0x80; 0x1b] ++ le16 element ++ le16 addr ++ le16 model)
  | SubGet, [element; model] => Some ([0x80; 0x29] ++ le16 element ++ le16 model)
  | ModAppidxGet, [element; model] => Some ([0x80; 0x4b] ++ le16 element ++ le16 model)
  | HbPubSet, [dst; count; period; ttl; features; net] =>
      Some ([0x80; 0x39] ++ le16 dst ++ [u8 count; u8 period; u8 ttl] ++ le16 features ++ le16 net)
  | HbPubGet, _ => Some [0x80; 0x38]
  | HbSubSet, [src; dst; period] => Some ([0x80; 0x3b] ++ le16 src ++ le16 dst ++ [u8 period])
  | HbSubGet, _ => Some [0x80; 0x3a]
  | NodeReset, _ => Some [0x80; 0x49]
  | _, _ => None
  end.

(** ** Who is addressed *)

Definition node_at (target : Z) (w : world node_store) : option mesh_node :=
  if IS_UNICAST (u16 target) then find_first (match_node_unicast (u16 target)) (ns_nodes (w_nodes w)) else None.
(** The composition is asked of anyone; keys go to nodes we know, settings of a node to
    those whose composition we know, and the rest to any address. *)
Definition accepts (c : menu_command) (target : Z) (w : world node_store) : bool :=
  match c with
  | CompositionGet => true
  | NetkeyAdd | NetkeyDel | AppkeyAdd | AppkeyDel =>
      negb (target =? UNASSIGNED) && (if node_at target w is Some _ then true else false)
  | Bind | BeaconSet | IdentSet | IdentGet | ProxySet | RelaySet | PubSet =>
      negb (target =? UNASSIGNED) &&
      (if (n ← node_at target w; nd_comp n) is Some _ then true else false)
  | _ => negb (target =? UNASSIGNED)
  end.

(** ** What is run *)

Section Run.
Context {A : Alg} {MC : ModelCode} {DH : DataHandler node_store}.
Implicit Types (w : world node_store) (fs : list field).

(** What a command does: nothing but refuse, or send a message and go on. *)
Definition sends (fuel : nat) (target size : Z) (o : option (list Z)) (m : NM bool) w : Prop :=
  match o with
  | None => m w = Ok (false, w)
  | Some msg => len msg <= size /\
      exists k : bool -> NM bool, (∀ v, k false v = Ok (false, v)) /\ m w = (config_send fuel target msg ≫= k) w
  end.

Definition bytes_of (op : Z) fs : list Z := opcode_bytes op ++ fields_bytes fs.
Definition fits (size op : Z) fs : Prop :=
  config_opcode op = true /\ 2 <= size /\ Forall field_ok fs /\ len (bytes_of op fs) <= size.

Lemma bind_mret (m : NM bool) w : (m ≫= mret) w = m w.
Proof. unfold mbind, st_bind. by destruct (m w) as [[[] ?]|]. Qed.

Lemma send_config_msg_eq fuel target size op fs w : fits size op fs ->
  send_config_msg fuel target size op fs w = config_send fuel target (bytes_of op fs) w.
Proof.
  intros (Hop & Hs & Hfs & Hl). unfold send_config_msg, bytes_of in *. rewrite len_app in Hl.
  apply wp_bind_eq. eapply wp_lift; [by apply build_msg_eq | done].
Qed.
Lemma sends_fields fuel target size op fs w : fits size op fs ->
  sends fuel target size (Some (bytes_of op fs)) (send_config_msg fuel target size op fs) w.
Proof.
  intros Hf. split; [apply Hf|]. exists mret. split; [done|]. rewrite bind_mret. by apply send_config_msg_eq.
Qed.
(** ... and does something with the result. *)
Lemma sends_then fuel target size op fs (k : bool -> NM bool) w : fits size op fs -> (∀ v, k false v = Ok (false, v)) ->
  sends fuel target size (Some (bytes_of op fs)) (send_config_msg fuel target size op fs ≫= k) w.
Proof.
  intros Hf Hk. split; [apply Hf|]. exists k. split; [done|]. unfold mbind, st_bind. by rewrite send_config_msg_eq.
Qed.

Lemma node_by_addr_eq target w : store_wf (w_nodes w) ->
  node_by_addr (u16 target) w = Ok (nd_id <$> node_at target w, w).
Proof.
  intros [Hv _ _ _ _]. unfold node_by_addr, node_at, find_by_addr, all_nodes. apply wp_eq. unfold store.
  do 3 wp_step. rewrite Hv. destruct (IS_UNICAST (u16 target)); cbn [negb]; eapply wp_lift; try done.
Qed.
Lemma node_at_deref target n w : store_wf (w_nodes w) -> node_at target w = Some n -> node_deref (nd_id n) w = Ok (n, w).
Proof.
  intros Hs. unfold node_at. destruct (IS_UNICAST _); [|done]. intros [Hin _]%find_first_some.
  apply wp_eq. eapply node_deref_wp; [by destruct Hs | by apply find_by_id | done].
Qed.
Lemma verify_eq target w : store_wf (w_nodes w) ->
  verify_config_target target w =
  Ok (negb (target =? UNASSIGNED) && (if (n ← node_at target w; nd_comp n) is Some _ then true else false), w).
Proof.
  intros Hs. unfold verify_config_target, UNASSIGNED. destruct (target =? 0); [done|]. cbn [negb andb].
  apply wp_bind_eq. eapply wp_of_ok; [by apply node_by_addr_eq|].
  destruct (node_at target w) as [n|] eqn:En; cbn [fmap option_fmap option_map mbind option_bind]; [|done].
  apply wp_bind_eq. unfold node_get_composition, nonnull. apply wp_bind. eapply wp_of_ok; [by eapply node_at_deref|].
  apply wp_ret. cbn [fst snd]. by destruct (nd_comp n).
Qed.

Definition layout_message (op : Z) (o : option (list field)) : option (list Z) := bytes_of op <$> o.
Lemma sends_layout fuel target size op layout args w :
  (∀ fs, layout (read_input_parameters args) = Some fs -> fits size op fs) ->
  sends fuel target size (layout_message op (layout (read_input_parameters args))) (send_layout fuel target size op layout args) w.
Proof.
  intros Hf. unfold send_layout. destruct (layout _) as [fs|]; [by apply sends_fields, Hf | done].
Qed.
Lemma sends_verified fuel target size op layout args w : store_wf (w_nodes w) ->
  (∀ fs, layout (read_input_parameters args) = Some fs -> fits size op fs) ->
  sends fuel target size
    (if negb (target =? UNASSIGNED) && (if (n ← node_at target w; nd_comp n) is Some _ then true else false)
     then layout_message op (layout (read_input_parameters args)) else None) (cmd_verified fuel target size op layout args) w.
Proof.
  intros Hs Hf. pose proof (sends_layout fuel target size op layout args w Hf) as H.
  unfold sends, cmd_verified, mbind, st_bind in *. rewrite verify_eq by done. by destruct (_ && _).
Qed.
Lemma sends_any fuel target size op layout args w :
  (∀ fs, layout (read_input_parameters args) = Some fs -> fits size op fs) ->
  sends fuel target size
    (if negb (target =? UNASSIGNED) then layout_message op (layout (read_input_parameters args)) else None)
    (cmd_any fuel target size op layout args) w.
Proof.
  intros Hf. unfold cmd_any. destruct (target =? UNASSIGNED); [done|]. by apply sends_layout.
Qed.
Lemma sends_default fuel target op w : fits 32 op [] ->
  sends fuel target 32 (if negb (target =? UNASSIGNED) then Some (bytes_of op []) else None) (cmd_default fuel target op) w.
Proof. intros Hf. unfold cmd_default. destruct (target =? UNASSIGNED); [done | by apply sends_fields]. Qed.

(** What has been read first. *)
Lemma sends_bind {B} fuel target size o (m : NM B) (a : B) (f : B -> NM bool) w : m w = Ok (a, w) ->
  sends fuel target size o (f a) w -> sends fuel target size o (m ≫= f) w.
Proof. intros Hm. unfold sends, mbind, st_bind in *. by rewrite Hm. Qed.

Lemma net_key_len s i key : keys_wf s -> keys_net_key_get s i true = Some key -> len key = 16.
Proof.
  intros (_ & _ & Hall & _). unfold keys_net_key_get, find_net_key_by_idx.
  destruct (find_first _ _) as [k|] eqn:E; cbn [mbind option_bind]; [|done]. intros [= <-].
  rewrite Forall_forall in Hall. apply find_first_some in E as [Hin _]. by destruct (Hall k Hin) as [(key & Hk & ->) _].
Qed.
Lemma app_key_len s i key : keys_wf s -> keys_app_key_get s i true = Some key -> len key = 16.
Proof.
  intros (_ & _ & _ & Hall). unfold keys_app_key_get, find_app_key_by_idx.
  destruct (find_first _ _) as [k|] eqn:E; cbn [mbind option_bind]; [|done]. intros [= <-].
  rewrite Forall_forall in Hall. apply find_first_some in E as [Hin _]. by destruct (Hall k Hin) as [(key & Hk & ->) _].
Qed.

(** The octets of indexes, as the code packs them. *)
Lemma index_fields_bytes net_idx i : fields_bytes (index_fields net_idx (u16 i)) = key_indexes net_idx i.
Proof.
  assert (Hn : Z.land net_idx 0xf0f = net_idx mod 16 + (net_idx / 256) mod 16 * 256).
  { change 0xf0f with (Z.lor (2 ^ 4 - 1) (Z.shiftl (2 ^ 4 - 1) 8)). rewrite Z.land_lor_distr_r, land_ones_mod by lia.
    assert (E : Z.land net_idx (Z.shiftl (2 ^ 4 - 1) 8) = Z.shiftl ((net_idx / 256) mod 16) 8).
    { apply Z.bits_inj'. intros n Hn. rewrite Z.land_spec, !Z.shiftl_spec by lia.
      destruct (Z.ltb_spec n 8); [by rewrite !(Z.testbit_neg_r _ (n - 8)), andb_false_r by lia|].
      change 16 with (2 ^ 4). rewrite <-land_ones_mod, Z.land_spec by lia. f_equal.
      change 256 with (2 ^ 8). by rewrite Z.div_pow2_bits, Z.sub_add by lia. }
    rewrite E. change (2 ^ 4) with 16. pose proof (Z.mod_pos_bound net_idx 16 ltac:(lia)). rewrite lor_shiftl_add by lia. lia. }
  unfold fields_bytes, index_fields, key_indexes. rewrite Hn. cbn [fmap list_fmap concat field_bytes app].
  change 0xf with (2 ^ 4 - 1). rewrite !land_ones_mod, !Z.shiftr_div_pow2 by lia.
  assert (E : Z.land (Z.shiftl (u16 i) 4) 0xf0 = Z.shiftl (i mod 16) 4).
  { change 0xf0 with (Z.shiftl (2 ^ 4 - 1) 4). rewrite <-Z.shiftl_land, land_ones_mod by lia. f_equal. unfold u16. zlia. }
  change (2 ^ 4) with 16. change (2 ^ 8) with 256.
  pose proof (Z.mod_pos_bound (net_idx / 256) 16 ltac:(lia)).
  rewrite E, lor_shiftl_add by lia. unfold u8, u16. cbn [to_le]. change (2 ^ 4) with 16.
  f_equal; [zlia | f_equal; [zlia | f_equal; zlia]].
Qed.

Lemma sends_net_key fuel target args w c op : store_wf (w_nodes w) -> keys_wf (w_keys w) ->
  (c, op) = (NetkeyAdd, OP_NETKEY_ADD) \/ (c, op) = (NetkeyDel, OP_NETKEY_DELETE) ->
  sends fuel target 32 (if accepts c target w then menu_message c target (read_input_parameters args) w else None)
    (cmd_net_key fuel target args op) w.
Proof.
  intros Hs Hk Hc. assert (Ha : accepts c target w = negb (target =? UNASSIGNED) && (if node_at target w is Some _ then true else false))
    by (destruct Hc as [[= -> ->]|[= -> ->]]; done).
  rewrite Ha. unfold cmd_net_key. destruct (target =? UNASSIGNED); [done|]. cbn [negb andb].
  destruct (read_input_parameters args) as [|i [|]].
  1, 3: destruct Hc as [[= -> ->]|[= -> ->]], (node_at target w); done.
  eapply sends_bind; [by apply node_by_addr_eq|]. destruct (node_at target w) as [n|]; cbn [fmap option_fmap option_map]; [|done].
  eapply sends_bind; [done|]. destruct Hc as [[= -> ->]|[= -> ->]]; cbn [menu_message].
  - change (OP_NETKEY_ADD =? OP_NETKEY_DELETE) with false. cbn iota.
    destruct (keys_net_key_get _ _ _) as [key|] eqn:E; [|done]. cbn [mbind option_bind].
    replace ([128; 64] ++ le16 i ++ key) with (bytes_of OP_NETKEY_ADD (netkey_fields OP_NETKEY_ADD (u16 i) key)).
    + apply sends_then; [|done]. pose proof (net_key_len _ _ _ Hk E). split_and!; try done.
      * by repeat constructor.
      * unfold bytes_of, netkey_fields, fields_bytes. cbn. unfold len in *. cbn. rewrite !length_app. cbn. lia.
    + unfold bytes_of, netkey_fields, fields_bytes, le16. cbn. rewrite app_nil_r. unfold u16. by rewrite Zmod_mod.
  - apply (sends_then _ _ _ OP_NETKEY_DELETE []); done.
Qed.

Lemma sends_app_key fuel target args w c op : store_wf (w_nodes w) -> keys_wf (w_keys w) ->
  (c, op) = (AppkeyAdd, OP_APPKEY_ADD) \/ (c, op) = (AppkeyDel, OP_APPKEY_DELETE) ->
  sends fuel target 32 (if accepts c target w then menu_message c target (read_input_parameters args) w else None)
    (cmd_app_key fuel target args op) w.
Proof.
  intros Hs Hk Hc. assert (Ha : accepts c target w = negb (target =? UNASSIGNED) && (if node_at target w is Some _ then true else false))
    by (destruct Hc as [[= -> ->]|[= -> ->]]; done).
  rewrite Ha. unfold cmd_app_key. destruct (target =? UNASSIGNED); [done|]. cbn [negb andb].
  destruct (read_input_parameters args) as [|i [|]].
  1, 3: destruct Hc as [[= -> ->]|[= -> ->]], (node_at target w); done.
  eapply sends_bind; [by apply node_by_addr_eq|]. destruct (node_at target w) as [n|]; cbn [fmap option_fmap option_map]; [|done].
  eapply sends_bind; [done|]. destruct Hc as [[= -> ->]|[= -> ->]]; cbn [menu_message];
    generalize (keys_app_key_get_bound (w_keys w) (u16 i)); intros net; (destruct (net =? NET_IDX_INVALID); [reflexivity|]).
  - change (OP_APPKEY_ADD =? OP_APPKEY_DELETE) with false. cbn iota.
    destruct (keys_app_key_get _ _ _) as [key|] eqn:E; [|done]. cbn [mbind option_bind].
    assert (Hb : bytes_of OP_APPKEY_ADD (index_fields net (u16 i) ++ [Key key]) = [0x00] ++ key_indexes net i ++ key).
    { unfold bytes_of. rewrite <-index_fields_bytes. unfold fields_bytes. rewrite fmap_app, concat_app. cbn. by rewrite app_nil_r. }
    rewrite <-Hb. apply sends_then; [|done]. pose proof (app_key_len _ _ _ Hk E). split_and!; try done.
    + by repeat constructor.
    + rewrite Hb, !len_app. change (len (key_indexes net i)) with 3. change (len [0]) with 1. lia.
  - change (OP_APPKEY_DELETE =? OP_APPKEY_DELETE) with true. cbn iota. rewrite app_nil_r.
    replace ([0x80; 0x00] ++ key_indexes net i) with (bytes_of OP_APPKEY_DELETE (index_fields net (u16 i)))
      by (unfold bytes_of; by rewrite index_fields_bytes).
    apply sends_then; [|done]. split_and!; try done. by repeat constructor.
Qed.

Lemma sends_composition_get fuel target args w : store_wf (w_nodes w) ->
  sends fuel target 32 (menu_message CompositionGet target (read_input_parameters args) w) (cmd_composition_get fuel target args) w.
Proof.
  intros Hs. unfold cmd_composition_get. eapply sends_bind; [by apply node_by_addr_eq|].
  assert (Hf : ∀ v, fits 32 OP_DEV_COMP_GET [Octet v]) by (intros v; split_and!; try done; by repeat constructor).
  destruct (read_input_parameters args) as [|page [|]]; cbn [menu_message];
    [apply (sends_fields _ _ _ OP_DEV_COMP_GET [Octet 0]) | apply (sends_fields _ _ _ OP_DEV_COMP_GET [Octet page]) | apply (sends_fields _ _ _ OP_DEV_COMP_GET [Octet 0])];
    apply Hf.
Qed.

Lemma sends_ttl_set fuel target args w : store_wf (w_nodes w) ->
  sends fuel target 32 (if negb (target =? UNASSIGNED) then menu_message TtlSet target (read_input_parameters args) w else None)
    (cmd_ttl_set fuel target args) w.
Proof.
  intros Hs. unfold cmd_ttl_set. destruct (target =? UNASSIGNED); [done|]. cbn [negb].
  assert (Hf : ∀ v, fits 32 OP_CONFIG_DEFAULT_TTL_SET [Octet v]) by (intros v; split_and!; try done; by repeat constructor).
  destruct (read_input_parameters args) as [|ttl ps]; cbn [menu_message].
  - eapply (sends_bind _ _ _ _ _ (local_ttl w)); [|apply (sends_fields _ _ _ OP_CONFIG_DEFAULT_TTL_SET [Octet (local_ttl w)]), Hf].
    apply wp_eq. unfold local_node, store, local_ttl, node_get_default_ttl, nonnull, node_is_local. do 4 wp_step.
    destruct (ns_local (w_nodes w)) as [l|] eqn:El; [|by wp_step]. unfold store. do 4 wp_step.
    rewrite El, bool_decide_eq_true_2 by done. unfold net_get_default_ttl, net_of. by wp_run.
  - eapply sends_bind; [done|]. change TTL_MASK with (2 ^ 7 - 1). rewrite land_ones_mod by lia. change (2 ^ 7) with 0x80.
    replace [128; 13; ttl mod 128] with (bytes_of OP_CONFIG_DEFAULT_TTL_SET [Octet (ttl mod 128)]).
    + by apply sends_fields.
    + unfold bytes_of, fields_bytes. cbn. rewrite u8_small by zlia. done.
Qed.

Lemma relay_octet count steps : u8 (Z.lor (u32 (Z.shiftl count 5)) steps) = u8 (Z.lor (32 * count) steps).
Proof.
  rewrite Z.shiftl_mul_pow2 by lia. change (2 ^ 5) with 32. unfold u8, u32.
  change 0x100 with (2 ^ 8). rewrite <-!land_ones_mod, !Z.land_lor_distr_l by lia. f_equal.
  rewrite !land_ones_mod by lia. rewrite (Z.mul_comm count). generalize (32 * count). intros x. change (2 ^ 8) with 256. zlia.
Qed.

(** A layout that fits and reads as the message, for any number of parameters. *)
Definition layout_ok (size op : Z) (layout : list Z -> option (list field)) (message : list Z -> option (list Z)) : Prop :=
  ∀ ps, layout_message op (layout ps) = message ps /\ ∀ fs, layout ps = Some fs -> fits size op fs.
Lemma layouts_ok w target :
  let says c ps := menu_message c target ps w in
  layout_ok 32 OP_MODEL_APP_BIND (bind_layout target) (says Bind) /\
  layout_ok 3 OP_CONFIG_BEACON_SET octet_layout (says BeaconSet) /\
  layout_ok 3 OP_CONFIG_PROXY_SET octet_layout (says ProxySet) /\
  layout_ok 9 OP_NODE_IDENTITY_SET ident_layout (says IdentSet) /\
  layout_ok 8 OP_NODE_IDENTITY_GET half_layout (says IdentGet) /\
  layout_ok 8 OP_CONFIG_RELAY_SET relay_layout (says RelaySet) /\
  layout_ok 32 OP_CONFIG_MODEL_PUB_SET pub_layout (says PubSet) /\
  layout_ok 32 OP_CONFIG_MODEL_PUB_GET pub_get_layout (says PubGet) /\
  layout_ok 32 OP_CONFIG_MODEL_SUB_ADD sub_layout (says SubAdd) /\
  layout_ok 32 OP_CONFIG_MODEL_SUB_GET two_halves_layout (says SubGet) /\
  layout_ok 32 OP_MODEL_APP_GET two_halves_layout (says ModAppidxGet) /\
  layout_ok 32 OP_CONFIG_HEARTBEAT_PUB_SET hb_pub_layout (says HbPubSet) /\
  layout_ok 32 OP_CONFIG_HEARTBEAT_SUB_SET hb_sub_layout (says HbSubSet).
Proof.
  cbn zeta. split_and!; intros [|? [|? [|? [|? [|? [|? [|? [|? ?]]]]]]]];
    (split; [| intros fs Hfs; try discriminate Hfs; injection Hfs as <-; split_and!; try done; by repeat constructor]); try reflexivity.
  unfold layout_message, relay_layout, bytes_of, fields_bytes. cbn [fmap option_fmap option_map list_fmap field_bytes concat app].
  by rewrite relay_octet.
Qed.

End Run.

(** A node whose composition is known: the vendor model 0x1001 of the company 0x5f1 is
    bound to the application key 3 on the second element. *)
Definition described : mesh_node := set_nd_comp (Some (Composition true true false false 0x5f1 1 2 3)) demo_remote.
Definition described_nodes : world node_store :=
  World demo_net demo_keys (NodeStore [demo_local; described] (Some 1) true 3 start_statics) 1 [] false [].
Lemma described_wf : store_wf (w_nodes described_nodes).
Proof.
  split; [done | apply (bool_decide_unpack _); by vm_compute | | |].
  - repeat constructor; cbn; try (apply (bool_decide_unpack _); by vm_compute); lia.
  - repeat constructor.
  - intros l [= <-]. by exists demo_local.
Qed.

