(* ===== verification/OnOff.v ===== *)
(** * The on/off client model

    [src/blueZ/mesh/onoff-model.c]. *)

From S2P Require Import Prelude Bytes Util Alg Crypto AddrPool Packet Pdu Keys NetState Send Beacon Recv Node ConfigModel.

Definition GENERIC_ONOFF_CLIENT_MODEL_ID : Z := 0x1001.
Definition OP_GENERIC_ONOFF_GET : Z := 0x8201.
Definition OP_GENERIC_ONOFF_SET : Z := 0x8202.
Definition OP_GENERIC_ONOFF_STATUS : Z := 0x8204.
Definition MESH_STATUS_INSUFF_RESOURCES : Z := 0x05.

(** [print_remaining_time]: hours, minutes, seconds and milliseconds. *)
Definition print_remaining_time (remaining_time : Z) : Z * Z * Z * Z :=
  let step := Z.shiftr (Z.land remaining_time 0xc0) 6 in
  let count := Z.land remaining_time 0x3f in
  if step =? 0 then
    let msecs := 100 * count in let secs := msecs / 1000 in (0, 0, secs, msecs - secs * 1000)
  else if step =? 1 then let minutes := count / 60 in (0, minutes, count - minutes * 60, 0)
  else if step =? 2 then
    let secs := 10 * count in let minutes := secs / 60 in (0, minutes, secs - minutes * 60, 0)
  else let minutes := 10 * count in let hours := minutes / 60 in (hours, minutes - hours * 60, 0, 0).

Section OnOff.
Context {A : Alg}.

Definition set_onoff_app_idx (v : Z) (s : node_store) : node_store :=
  NodeStore (ns_nodes s) (ns_local s) (ns_valid s) (ns_next s)
    (Statics v (trans_id (ns_statics s)) (light_vars (ns_statics s))).
Definition set_trans_id (v : Z) (s : node_store) : node_store :=
  NodeStore (ns_nodes s) (ns_local s) (ns_valid s) (ns_next s)
    (Statics (onoff_app_idx (ns_statics s)) v (light_vars (ns_statics s))).

Definition client_bind (app_idx action : Z) : NM Z :=
  s ← store;
  let cur := onoff_app_idx (ns_statics s) in
  if action =? ACTION_ADD then
    if negb (cur =? APP_IDX_INVALID) then mret MESH_STATUS_INSUFF_RESOURCES
    else _ ← mod_store (set_onoff_app_idx app_idx); mret MESH_STATUS_SUCCESS
  else
    _ ← (if cur =? app_idx then mod_store (set_onoff_app_idx APP_IDX_INVALID) else mret tt);
    mret MESH_STATUS_SUCCESS.

(** The status is only printed. *)
Definition onoff_msg_recvd (data : list Z) (len : Z) : NM bool :=
  m ← open_msg data len;
  match m with
  | None => mret false
  | Some (opcode, data, len) =>
      if opcode =? OP_GENERIC_ONOFF_STATUS then
        if negb (len =? 1) && negb (len =? 3) then mret true else
        _ ← print_octets data (if len =? 3 then [0; 1; 2] else [0]);
        mret true
      else mret false
  end.

Definition send_cmd (fuel : nat) (target : Z) (buf : list Z) : NM bool :=
  node ← local_node;
  match node with
  | None => mret false
  | Some node =>
      ttl ← node_get_default_ttl (Some node);
      primary ← node_primary (Some node);
      s ← store;
      net_access_layer_send fuel ttl primary target (onoff_app_idx (ns_statics s)) buf
  end.

Definition cmd_get_status (fuel : nat) (target : Z) : NM bool :=
  if target =? UNASSIGNED then mret false else
  node ← node_by_addr (u16 target);
  match node with
  | None => mret false
  | Some _ =>
      msg ← lift (build_msg 32 OP_GENERIC_ONOFF_GET []);
      send_cmd fuel target msg
  end.

(** [parms] is the static array, with what earlier commands left in it. *)
Definition cmd_set (fuel : nat) (target : Z) (parms : Z) (args : list (option Z)) : NM bool :=
  if target =? UNASSIGNED then mret false else
  node ← node_by_addr (u16 target);
  match node with
  | None => mret false
  | Some _ =>
      let ps := read_input_parameters args in
      let p0 := match args with [] => parms | _ => hd 0xffffffff ps end in
      if negb (Z.of_nat (length ps) =? 1) && negb (p0 =? 0) && negb (p0 =? 1) then mret false else
      s ← store;
      _ ← mod_store (set_trans_id (u8 (trans_id (ns_statics s) + 1)));
      msg ← lift (build_msg 32 OP_GENERIC_ONOFF_SET [Octet p0; Octet (trans_id (ns_statics s))]);
      send_cmd fuel target msg
  end.

Definition onoff_client_init (ele : Z) (cbs : mesh_model_ops) : NM bool :=
  node_local_model_register ele GENERIC_ONOFF_CLIENT_MODEL_ID cbs 0.
End OnOff.
