(* ===== verification/Light.v ===== *)
(** * The lighting and time client models

    [light-hsl-model.c], [light-ctl-model.c], [light-level-model.c],
    [light-lightness-model.c] and [time-model.c] of [src/blueZ/mesh/].  The five
    files have the same functions and static variables; what they share takes the
    model as an argument here, and what differs is a definition for each: the
    opcodes, the test of the parameters and the layout of the message. *)

From S2P Require Import Prelude Bytes Util Alg Crypto AddrPool Packet Pdu Keys NetState Send Beacon Recv Node ConfigModel OnOff.

Definition HSL_CLIENT_MODEL_ID : Z := 0x1309.
Definition OP_LIGHT_HSL_GET : Z := 0x826D.
Definition OP_LIGHT_HSL_SET : Z := 0x8276.
Definition OP_LIGHT_HSL_STATUS : Z := 0x8278.
Definition CTL_CLIENT_MODEL_ID : Z := 0x1305.
Definition OP_LIGHT_CTL_GET : Z := 0x825D.
Definition OP_LIGHT_CTL_SET : Z := 0x825E.
Definition OP_LIGHT_CTL_STATUS : Z := 0x8260.
Definition LEVEL_CLIENT_MODEL_ID : Z := 0x1003.
Definition OP_LEVEL_GET : Z := 0x8205.
Definition OP_LEVEL_SET : Z := 0x8206.
Definition OP_LEVEL_STATUS : Z := 0x8208.
Definition LIGHTNESS_CLIENT_MODEL_ID : Z := 0x1302.
Definition OP_LIGHTNESS_GET : Z := 0x824B.
Definition OP_LIGHTNESS_SET : Z := 0x824C.
Definition OP_LIGHTNESS_STATUS : Z := 0x824E.
Definition TIME_CLIENT_MODEL_ID : Z := 0x1202.
Definition OP_TIME_GET : Z := 0x8237.
Definition OP_TIME_SET : Z := 0x5C.
Definition OP_TIME_STATUS : Z := 0x5D.

(** ** The static variables *)

Definition set_cv_app_idx (v : Z) (c : client_vars) : client_vars :=
  ClientVars v (cv_trans_id c) (cv_target c) (cv_parms c).
Definition set_cv_trans_id (v : Z) (c : client_vars) : client_vars :=
  ClientVars (cv_app_idx c) v (cv_target c) (cv_parms c).
Definition set_cv_target (v : Z) (c : client_vars) : client_vars :=
  ClientVars (cv_app_idx c) (cv_trans_id c) v (cv_parms c).
Definition set_cv_parms (v : list Z) (c : client_vars) : client_vars :=
  ClientVars (cv_app_idx c) (cv_trans_id c) (cv_target c) v.

Definition set_vars (l : light) (v : client_vars) (s : node_store) : node_store :=
  NodeStore (ns_nodes s) (ns_local s) (ns_valid s) (ns_next s)
    (Statics (onoff_app_idx (ns_statics s)) (trans_id (ns_statics s))
      (set_light l v (light_vars (ns_statics s)))).
Definition mod_vars (l : light) (f : client_vars -> client_vars) : NM unit :=
  mod_store (fun s => set_vars l (f (get_light l (light_vars (ns_statics s)))) s).
Definition vars (l : light) : NM client_vars :=
  s ← store; mret (get_light l (light_vars (ns_statics s))).

(** ** The parameters of a command *)

Definition parm (ps : list Z) (i : nat) : Z := nth i ps 0.

(** [n] more rounds of the loop of [read_input_parameters]: the number of words
    read and the array.  [scan] is what [sscanf] stores. *)
Fixpoint input_loop (scan : list Z -> option Z) (n i : nat) (args : list (list Z)) (ps : list Z)
    : Z * list Z :=
  match n, args with
  | S n', arg :: args' =>
      let ps := match scan arg with Some v => <[i := v]> ps | None => ps end in
      if parm ps i =? 0xffffffff then (Z.of_nat i, ps) else input_loop scan n' (S i) args' ps
  | _, _ => (Z.of_nat i, ps)
  end.
(** [args] are the words after the name of the command. *)
Definition light_input (scan : list Z -> option Z) (args : list (list Z)) (ps : list Z) : Z * list Z :=
  match args with
  | [] | [] :: _ => (0, ps)
  | _ => input_loop scan 8 0 args (rep 8 0xffffffff)
  end.

(** [msg\[n++\] = *p++; msg\[n++\] = *p;] on a little-endian host, where [p] points
    to a parameter, and [msg\[n++\] = *p]. *)
Definition two_octets (v : Z) : list field := [Octet v; Octet (Z.shiftr v 8)].

Section Light.
Context {A : Alg}.

Definition light_bind (l : light) (app_idx action : Z) : NM Z :=
  v ← vars l;
  if action =? ACTION_ADD then
    if negb (cv_app_idx v =? APP_IDX_INVALID) then mret MESH_STATUS_INSUFF_RESOURCES
    else _ ← mod_vars l (set_cv_app_idx app_idx); mret MESH_STATUS_SUCCESS
  else
    _ ← (if cv_app_idx v =? app_idx then mod_vars l (set_cv_app_idx APP_IDX_INVALID) else mret tt);
    mret MESH_STATUS_SUCCESS.

(** A status of one or three octets is printed, any other is taken and dropped. *)
Definition light_msg_recvd (status : Z) (data : list Z) (len : Z) : NM bool :=
  m ← open_msg data len;
  match m with
  | None => mret false
  | Some (opcode, data, len) =>
      if opcode =? status then
        if negb (len =? 1) && negb (len =? 3) then mret true else
        _ ← print_octets data (if len =? 3 then [0; 1; 2] else [0]);
        mret true
      else mret false
  end.

Definition light_set_node (l : light) (word : list Z) : NM bool :=
  let '(dst, n) := strtol 16 word in
  if negb (n =? 4) then _ ← mod_vars l (set_cv_target UNASSIGNED); mret false
  else _ ← mod_vars l (set_cv_target (u32 dst)); mret true.

Definition light_send (fuel : nat) (l : light) (buf : list Z) : NM bool :=
  node ← local_node;
  match node with
  | None => mret false
  | Some node =>
      ttl ← node_get_default_ttl (Some node);
      primary ← node_primary (Some node);
      v ← vars l;
      net_access_layer_send fuel ttl primary (cv_target v) (cv_app_idx v) buf
  end.

(** The target is set and belongs to a node we know. *)
Definition light_target (l : light) : NM bool :=
  v ← vars l;
  if cv_target v =? UNASSIGNED then mret false else
  node ← node_by_addr (u16 (cv_target v));
  mret (match node with Some _ => true | None => false end).

Definition light_get (fuel : nat) (l : light) (opcode : Z) : NM bool :=
  ok ← light_target l;
  if negb ok then mret false else
  msg ← lift (build_msg 32 opcode []);
  light_send fuel l msg.

(** [refused] is the test that prints "Bad arguments"; [fields] gives the message
    for a transaction identifier and what it leaves in [parms]. *)
Definition light_set (fuel : nat) (l : light) (opcode : Z) (scan : list Z -> option Z)
    (refused : Z -> list Z -> bool) (fields : Z -> list Z -> list field * list Z)
    (args : list (list Z)) : NM bool :=
  ok ← light_target l;
  if negb ok then mret false else
  v ← vars l;
  let '(n, ps) := light_input scan args (cv_parms v) in
  _ ← mod_vars l (set_cv_parms ps);
  if refused n ps then mret false else
  let '(fs, ps') := fields (cv_trans_id v) ps in
  _ ← mod_vars l (fun v => set_cv_parms ps' (set_cv_trans_id (u8 (cv_trans_id v + 1)) v));
  msg ← lift (build_msg 32 opcode fs);
  light_send fuel l msg.

(** ** Colour: hue, saturation and lightness *)

Definition hsl_bind : Z -> Z -> NM Z := light_bind HSL.
Definition hsl_msg_recvd : list Z -> Z -> NM bool := light_msg_recvd OP_LIGHT_HSL_STATUS.
Definition hsl_set_node : list Z -> NM bool := light_set_node HSL.
Definition hsl_send (fuel : nat) : list Z -> NM bool := light_send fuel HSL.
Definition hsl_get_status (fuel : nat) : NM bool := light_get fuel HSL OP_LIGHT_HSL_GET.
Definition hsl_refused (n : Z) (ps : list Z) : bool :=
  negb (n =? 1) && ((360 <? parm ps 0) || (parm ps 0 <? 0)) &&
  ((100 <? parm ps 1) || (parm ps 1 <? 0)) && ((100 <? parm ps 2) || (parm ps 2 <? 0)).
Definition hsl_fields (tid : Z) (ps : list Z) : list field * list Z :=
  (two_octets (parm ps 2) ++ two_octets (parm ps 0) ++ two_octets (parm ps 1) ++
   [Octet tid; Octet (parm ps 3); Octet (parm ps 4 / 5)],
   <[4%nat := parm ps 4 / 5]> ps).
Definition hsl_set (fuel : nat) : list (list Z) -> NM bool :=
  light_set fuel HSL OP_LIGHT_HSL_SET scan_int hsl_refused hsl_fields.
Definition hsl_client_init (ele : Z) (cbs : mesh_model_ops) : NM bool :=
  node_local_model_register ele HSL_CLIENT_MODEL_ID cbs 0.

(** ** Colour temperature and lightness *)

Definition ctl_bind : Z -> Z -> NM Z := light_bind CTL.
Definition ctl_msg_recvd : list Z -> Z -> NM bool := light_msg_recvd OP_LIGHT_CTL_STATUS.
Definition ctl_set_node : list Z -> NM bool := light_set_node CTL.
Definition ctl_send (fuel : nat) : list Z -> NM bool := light_send fuel CTL.
Definition ctl_get_status (fuel : nat) : NM bool := light_get fuel CTL OP_LIGHT_CTL_GET.
Definition ctl_refused (n : Z) (ps : list Z) : bool :=
  negb (n =? 1) && ((20000 <? parm ps 0) && (parm ps 0 <? 800)) &&
  ((100 <? parm ps 1) && (parm ps 1 <? 0)) && ((64 <? parm ps 2) && (parm ps 2 <? 0)) &&
  ((1280 <? parm ps 3) && (parm ps 3 <? 0)).
(** [parms\[1\]] is cleared between its two uses. *)
Definition ctl_fields (tid : Z) (ps : list Z) : list field * list Z :=
  let ps1 := <[1%nat := 0]> ps in
  (two_octets (parm ps 1) ++ two_octets (parm ps 0) ++ two_octets (parm ps1 1) ++
   [Octet tid; Octet (parm ps1 2); Octet (parm ps1 3 / 5)],
   <[3%nat := parm ps1 3 / 5]> ps1).
Definition ctl_set (fuel : nat) : list (list Z) -> NM bool :=
  light_set fuel CTL OP_LIGHT_CTL_SET scan_int ctl_refused ctl_fields.
Definition ctl_client_init (ele : Z) (cbs : mesh_model_ops) : NM bool :=
  node_local_model_register ele CTL_CLIENT_MODEL_ID cbs 0.

(** ** Level and lightness *)

Definition percent_refused (n : Z) (ps : list Z) : bool :=
  negb (n =? 1) && (parm ps 0 <? 0) && (100 <? parm ps 0).
Definition percent_fields (tid : Z) (ps : list Z) : list field * list Z :=
  (two_octets (parm ps 0) ++ [Octet tid; Octet (parm ps 1); Octet (parm ps 2 / 5)],
   <[2%nat := parm ps 2 / 5]> ps).

Definition level_bind : Z -> Z -> NM Z := light_bind LEVEL.
Definition level_msg_recvd : list Z -> Z -> NM bool := light_msg_recvd OP_LEVEL_STATUS.
Definition level_set_node : list Z -> NM bool := light_set_node LEVEL.
Definition level_send (fuel : nat) : list Z -> NM bool := light_send fuel LEVEL.
Definition level_get_status (fuel : nat) : NM bool := light_get fuel LEVEL OP_LEVEL_GET.
Definition level_set (fuel : nat) : list (list Z) -> NM bool :=
  light_set fuel LEVEL OP_LEVEL_SET scan_int percent_refused percent_fields.
Definition level_client_init (ele : Z) (cbs : mesh_model_ops) : NM bool :=
  node_local_model_register ele LEVEL_CLIENT_MODEL_ID cbs 0.

Definition lightness_bind : Z -> Z -> NM Z := light_bind LIGHTNESS.
Definition lightness_msg_recvd : list Z -> Z -> NM bool := light_msg_recvd OP_LIGHTNESS_STATUS.
Definition lightness_set_node : list Z -> NM bool := light_set_node LIGHTNESS.
Definition lightness_send (fuel : nat) : list Z -> NM bool := light_send fuel LIGHTNESS.
Definition lightness_get_status (fuel : nat) : NM bool := light_get fuel LIGHTNESS OP_LIGHTNESS_GET.
Definition lightness_set (fuel : nat) : list (list Z) -> NM bool :=
  light_set fuel LIGHTNESS OP_LIGHTNESS_SET scan_int percent_refused percent_fields.
Definition lightness_client_init (ele : Z) (cbs : mesh_model_ops) : NM bool :=
  node_local_model_register ele LIGHTNESS_CLIENT_MODEL_ID cbs 0.

(** ** Time *)

(** The loop names [parms\[i\]] where the others scan the word. *)
Definition no_scan (word : list Z) : option Z := None.

Definition time_bind : Z -> Z -> NM Z := light_bind TIME.
Definition time_msg_recvd : list Z -> Z -> NM bool := light_msg_recvd OP_TIME_STATUS.
Definition time_set_node : list Z -> NM bool := light_set_node TIME.
Definition time_send (fuel : nat) : list Z -> NM bool := light_send fuel TIME.
Definition time_get_status (fuel : nat) : NM bool := light_get fuel TIME OP_TIME_GET.
Definition time_refused (n : Z) (ps : list Z) : bool :=
  negb (n =? 1) && ((360 <? parm ps 0) && (parm ps 0 <? 0)) &&
  ((100 <? parm ps 1) && (parm ps 1 <? 0)) && ((100 <? parm ps 2) && (parm ps 2 <? 0)).
Definition time_set (fuel : nat) : list (list Z) -> NM bool :=
  light_set fuel TIME OP_TIME_SET no_scan time_refused hsl_fields.
Definition time_client_init (ele : Z) (cbs : mesh_model_ops) : NM bool :=
  node_local_model_register ele TIME_CLIENT_MODEL_ID cbs 0.
End Light.
