(* ===== verification/Models.v ===== *)
(** * The models of the local node

    The callbacks that [config-client.c], [config-server.c], [onoff-model.c] and
    the five files of lights and time hand to [node_local_model_register], and
    their registration by [mesh_init] of [src/blueZ/mesh/main.c]. *)

From S2P Require Import Prelude Bytes Util Alg Crypto AddrPool Packet Pdu Keys NetState Send Beacon Recv Node ConfigModel OnOff Light.

(** ** The callbacks *)

Definition SERVER_CB : Z := 1.
Definition CLIENT_CB : Z := 2.
Definition ONOFF_CB : Z := 3.
Definition light_cb (l : light) : Z :=
  match l with HSL => 4 | CTL => 5 | LEVEL => 6 | LIGHTNESS => 7 | TIME => 8 end.
Definition lights : list light := [HSL; CTL; LEVEL; LIGHTNESS; TIME].
Definition light_of_cb (cb : Z) : option light := find_first (fun l => light_cb l =? cb) lights.

Section Code.
Context {A : Alg}.

Definition light_recv (l : light) : list Z -> Z -> NM bool :=
  match l with
  | HSL => hsl_msg_recvd | CTL => ctl_msg_recvd | LEVEL => level_msg_recvd
  | LIGHTNESS => lightness_msg_recvd | TIME => time_msg_recvd
  end.

(** The models that only keep their own variables. *)
Definition plain_models : ModelCode := {|
  run_recv fuel cb src data len _ :=
    if cb =? ONOFF_CB then onoff_msg_recvd data len
    else match light_of_cb cb with Some l => light_recv l data len | None => mret false end;
  run_bind cb app_idx action :=
    match light_of_cb cb with
    | Some l => light_bind l app_idx action
    | None => client_bind app_idx action
    end;
  run_pub _ _ := mret tt |}.

(** All models; messages they send to ourselves go to the node layer over [MC]. *)
Definition model_code_with (junk : mesh_publication) (MC : ModelCode) : ModelCode := {|
  run_recv fuel cb src data len _ :=
    if cb =? SERVER_CB then
      server_msg_recvd (MC := MC) (DH := store_data_handler (MC := MC)) junk fuel src data len
    else if cb =? CLIENT_CB then client_msg_recvd (MC := MC) junk src data len
    else run_recv (ModelCode := plain_models) fuel cb src data len 0;
  run_bind := run_bind (ModelCode := plain_models);
  run_pub _ _ := mret tt |}.

(** The recursion between the node layer and the models, [depth] calls deep. *)
Fixpoint model_code (junk : mesh_publication) (depth : nat) : ModelCode :=
  match depth with
  | O => {| run_recv _ _ _ _ _ _ := fail OutOfFuel; run_bind _ _ _ := fail OutOfFuel;
            run_pub _ _ := fail OutOfFuel |}
  | S d => model_code_with junk (model_code junk d)
  end.

(** ** Registration *)

(** [client_cbs] and [server_cbs] of the files. *)
Definition server_ops : mesh_model_ops := Ops (Some SERVER_CB) None None None.
Definition client_ops : mesh_model_ops := Ops (Some CLIENT_CB) None None None.
Definition light_ops (l : light) : mesh_model_ops := Ops (Some (light_cb l)) (Some (light_cb l)) None None.
Definition onoff_ops : mesh_model_ops := Ops (Some ONOFF_CB) (Some ONOFF_CB) None None.

(** The registrations of [mesh_init]; one that fails is only reported. *)
Definition init_models : NM (list bool) :=
  c ← config_client_init client_ops;
  s ← config_server_init server_ops;
  o ← onoff_client_init PRIMARY_ELEMENT_IDX onoff_ops;
  h ← hsl_client_init PRIMARY_ELEMENT_IDX (light_ops HSL);
  t ← ctl_client_init PRIMARY_ELEMENT_IDX (light_ops CTL);
  v ← level_client_init PRIMARY_ELEMENT_IDX (light_ops LEVEL);
  b ← lightness_client_init PRIMARY_ELEMENT_IDX (light_ops LIGHTNESS);
  k ← time_client_init PRIMARY_ELEMENT_IDX (light_ops TIME);
  mret [c; s; o; h; t; v; b; k].
End Code.
