(* ===== verification/ConfigFacts.v ===== *)
(** * What the configuration models do

    What is lost of key indexes; configuration of the local node through
    its own models; the status messages that go wrong. *)

From S2P Require Import Prelude Bytes Util Alg Crypto AddrPool Packet Pdu Keys NetState Send Beacon Recv Reassembly Node NodeFacts NodeOps ConfigModel OnOff Light Models Messages.

(** ** Theorems *)

(** The application key commands lose four bits of the network key index.  The
    three octets that carry the two 12-bit indexes, read as [OP_APPKEY_STATUS] and
    every other node read them, give the application key index, but the network
    key index without its bits 4 to 7. *)
Theorem key_index_loses_bits net_idx app_idx l :
  0 <= net_idx < 0x1000 -> 0 <= app_idx < 0x1000 ->
  let data := fields_bytes (index_fields net_idx app_idx) ++ l in
  exists w1 w2, get_le16 data 0 = Ok w1 /\ get_le16 data 1 = Ok w2 /\
    Z.shiftr w2 4 = app_idx /\ Z.land w1 0xfff = Z.land net_idx 0xf0f.
Proof.
  intros Hn Ha data.
  set (b0 := Z.land net_idx 0xf).
  set (b1 := Z.lor (Z.land (Z.shiftr net_idx 8) 0xf) (Z.land (Z.shiftl app_idx 4) 0xf0)).
  set (b2 := Z.shiftr app_idx 4).
  assert (H0 : b0 = net_idx mod 16) by by apply (land_ones_mod _ 4).
  assert (H2 : b2 = app_idx / 16) by by apply (Z.shiftr_div_pow2 _ 4).
  assert (H1 : b1 = net_idx / 256 + 16 * (app_idx mod 16)).
  { unfold b1. change 0xf with (2 ^ 4 - 1). rewrite land_ones_mod by lia.
    assert (E : Z.land (Z.shiftl app_idx 4) 0xf0 = Z.shiftl (app_idx mod 16) 4).
    { change 0xf0 with (Z.shiftl (2 ^ 4 - 1) 4). rewrite <-Z.shiftl_land, land_ones_mod by lia. done. }
    rewrite E, lor_shiftl_add by zlia. rewrite Z.shiftr_div_pow2 by lia. zlia. }
  assert (E : data = b0 :: b1 :: b2 :: l).
  { unfold data, fields_bytes, index_fields. cbn. fold b0 b1 b2. rewrite !u8_small by zlia. done. }
  exists (b0 + 0x100 * b1), (b1 + 0x100 * b2). rewrite E. split_and!.
  - unfold get_le16. rewrite (rd_range_begin [b0; b1] (b2 :: l)) by done. cbn. f_equal. lia.
  - unfold get_le16. rewrite (rd_range_mid [b0] [b1; b2] l) by done. cbn. f_equal. lia.
  - rewrite Z.shiftr_div_pow2 by lia. zlia.
  - change 0xfff with (2 ^ 12 - 1). rewrite land_ones_mod by lia.
    assert (E2 : Z.land net_idx 0xf0f = net_idx mod 16 + 256 * (net_idx / 256)).
    { clear -Hn. pose proof (all_below_spec 4096 (fun x => Z.land x 0xf0f =? x mod 16 + 256 * (x / 256)) net_idx
        ltac:(by vm_compute) ltac:(lia)) as H. cbn beta in H. by apply Z.eqb_eq in H. }
    rewrite E2. zlia.
Qed.

Lemma key_index_loses_bits_witness :
  let data := fields_bytes (index_fields 0x123 0x456) ++ [] in
  exists w1 w2, get_le16 data 0 = Ok w1 /\ get_le16 data 1 = Ok w2 /\
    Z.shiftr w2 4 = 0x456 /\ Z.land w1 0xfff = Z.land 0x123 0xf0f.
Proof. apply (key_index_loses_bits 0x123 0x456 []); lia. Defined.

(** *** A node that is reset *)

(** What the client does with a reset status of a node it knows. *)
Lemma reset_status_wp {A : Alg} {MC : ModelCode} junk src st rest l r (w : world node_store) :
  store_wf (w_nodes w) -> IS_UNICAST src = true ->
  find_first (match_node_unicast src) (ns_nodes (w_nodes w)) = Some r -> nd_primary r = src -> 3 <= l ->
  wp (client_msg_recvd junk src (to_be 2 OP_NODE_RESET_STATUS ++ st :: rest) l) (fun res w' =>
    res = true /\ w_nodes w' = set_nodes (remove_first (is_node (nd_id r)) (ns_nodes (w_nodes w))) (w_nodes w)) w.
Proof.
  intros Hw Hu Hr Hp Hl. pose proof (find_first_some _ _ _ Hr) as [Hin _].
  pose proof (find_by_id _ _ Hw Hin) as Hid. assert (Hat : at_node (nd_id r) r w) by done.
  unfold client_msg_recvd, open_msg. do 2 wp_step. eapply wp_lift.
  { apply opcode_get_two; [by vm_compute | lia]. }
  wp_step. change (reliable OP_NODE_RESET_STATUS) with OP_NODE_RESET_STATUS. rewrite Hu.
  unfold node_by_addr, store. do 3 wp_step. eapply wp_lift.
  { unfold find_by_addr, all_nodes. rewrite Hu, (store_valid _ Hw). cbn. by rewrite Hr. }
  wp_step. cbn [option_map]. unfold node_primary, nonnull. do 2 wp_step.
  eapply deref_at; [exact Hat|]. wp_step. rewrite Hp, Z.eqb_refl. cbn [negb].
  change (client_case junk OP_NODE_RESET_STATUS (nd_id r) src (drop (Z.to_nat 2)
    (to_be 2 OP_NODE_RESET_STATUS ++ st :: rest)) (u16 (l - 2))) with
    (Some (client_reset_status (nd_id r) (st :: rest))). wp_step. unfold client_reset_status, node_primary, nonnull.
  wp_step. eapply wp_lift; [apply rd_0|]. do 2 wp_step. eapply deref_at; [exact Hat|]. do 2 wp_step.
  unfold node_get_num_elements, nonnull_or_fault. wp_step. eapply deref_at; [exact Hat|]. wp_step.
  unfold mod_net. do 2 wp_step. unfold node_free, nonnull, mod_store. wp_step.
  eapply deref_at; [exact Hat|]. by wp_run.
Qed.

(** Resetting a node makes the node layer write to freed memory.  When a node
    we know answers [OP_NODE_RESET_STATUS] and the first model of the element that
    receives under the key is the configuration client, the client frees the node,
    and [node_local_data_handler] then stores the IV index and the sequence number
    of the message in it. *)
Theorem node_reset_use_after_free (A : Alg) depth junk fuel src dst iv seq app_idx st rest l
    (w : world node_store) lid local r m :
  store_wf (w_nodes w) -> ns_local (w_nodes w) = Some lid ->
  find_first (is_node lid) (ns_nodes (w_nodes w)) = Some local ->
  IS_UNICAST src = true -> find_first (match_node_unicast src) (ns_nodes (w_nodes w)) = Some r ->
  nd_primary r = src -> is_loopback local src = false -> 0 <= seq <= 0xffffff ->
  replayed r iv seq = false -> dst_model local dst app_idx = Some m -> op_recv (md_cbs m) = Some CLIENT_CB ->
  3 <= l ->
  store_data_handler (MC := model_code junk (S depth)) fuel src dst iv seq app_idx
    (to_be 2 OP_NODE_RESET_STATUS ++ st :: rest) l w = Fault UseAfterFree.
Proof.
  intros Hw Hlid Hloc Hu Hr Hp Hlb Hseq Hrep Hm Hcb Hl. set (data := to_be 2 OP_NODE_RESET_STATUS ++ st :: rest).
  pose proof (find_first_some _ _ _ Hr) as [Hin _]. pose proof (find_by_id _ _ Hw Hin) as Hid.
  unfold store_data_handler, emit. apply wp_bind_fault, wp_modify. set (w1 := with_out _ w).
  assert (Hat : at_node (nd_id r) r w1) by done. assert (Hatl : at_node lid local w1) by done.
  unfold store. apply wp_bind_fault, wp_gets. change (w_nodes w1) with (w_nodes w). rewrite Hlid.
  rewrite (proj2 (Z.ltb_ge _ _)) by lia. apply wp_bind_fault. eapply deref_at; [exact Hatl|].
  apply wp_bind_fault. eapply wp_of_ok; [by apply remote_node_eq; destruct Hw|].
  unfold source_node. change (w_nodes w1) with (w_nodes w). rewrite Hu, Hr. cbn [fst snd].
  change (on_store (fun _ => w_nodes w) w1) with w1.
  apply wp_bind_fault. eapply deref_at; [exact Hat|]. unfold is_loopback in Hlb. rewrite andb_comm in Hlb.
  rewrite Hlb, Hrep. cbn [negb andb]. apply wp_bind_fault. eapply deref_at; [exact Hatl|].
  unfold dst_model in Hm. destruct (dst_element local dst) as [e|] eqn:Ed; [|done]. cbn in Hm.
  pose proof (dst_element_found _ _ _ Ed) as He.
  assert (Hewf : element_wf e).
  { apply find_first_some in Hloc as [Hinl _]. destruct Hw as [_ _ Hall _ _]. rewrite Forall_forall in Hall.
    destruct (Hall local Hinl) as [_ _ Hel _ _]. rewrite Forall_forall in Hel. apply Hel.
    by apply find_first_some in He as [? _]. }
  pose proof (reset_status_wp (MC := model_code junk depth) junk src st rest l r w1 Hw Hu Hr Hp Hl) as Hrun.
  apply wp_ok in Hrun as (res & w2 & Hrun & -> & Hw2). change (w_nodes w1) with (w_nodes w) in Hw2.
  apply wp_bind_fault. eapply wp_of_ok.
  { eapply (deliver_first _ _ local _ _ _ _ _ _ m CLIENT_CB); [by destruct Hw | exact Hloc | | exact Hm | exact Hcb |].
    - apply Forall_forall. intros k Hk. unfold get_model. rewrite He. by apply find_model_in.
    - exact Hrun. }
  cbn [fst snd andb]. apply bind_fault. unfold node_assign. apply bind_fault. unfold node_deref, store.
  apply wp_bind_fault, wp_gets. rewrite Hw2. unfold lift, node_ref. cbn [set_nodes ns_valid ns_nodes].
  destruct Hw as [-> Hnd _ _ _]. rewrite (find_remove_first _ nd_id (nd_id r)); [done | | done].
  intros y. apply Z.eqb_eq.
Qed.

(** The client on the primary element of the local node. *)
Definition client_model : mesh_model :=
  Model (Ops (Some CLIENT_CB) None None None) 0 [APP_IDX_DEV] [] 0xffff0001 None.
Definition server_model : mesh_model :=
  Model (Ops (Some SERVER_CB) None None None) 0 [APP_IDX_DEV] [] 0xffff0000 None.
Definition config_local : mesh_node :=
  set_nd_elements [Element [server_model; client_model] 0 0] demo_local.
Definition client_local : mesh_node := set_nd_elements [Element [client_model] 0 0] demo_local.
Definition no_publication : mesh_publication := Publication 0 (rep 16 0) 0 0 0 0.
Definition world_with (local : mesh_node) : world node_store :=
  World demo_net demo_keys (NodeStore [local; demo_remote] (Some 1) true 3 start_statics) 1 [] false [].

Lemma world_with_wf els : Forall element_wf els -> store_wf (w_nodes (world_with (set_nd_elements els demo_local))).
Proof.
  intros He. split; [done | apply (bool_decide_unpack _); by vm_compute | | by repeat constructor |].
  - repeat apply List.Forall_cons; [..|constructor]; (constructor; try done; try constructor;
      try (apply (bool_decide_unpack _); by vm_compute); cbn; lia).
  - intros l [= <-]. by eexists.
Qed.

Lemma node_reset_use_after_free_witness :
  store_data_handler (MC := model_code (A := toy_alg) no_publication 1) 2 0x100 0x77 5 11 APP_IDX_DEV
    (to_be 2 OP_NODE_RESET_STATUS ++ 0 :: rep 4 0) 3 (world_with client_local) = Fault UseAfterFree.
Proof.
  apply (node_reset_use_after_free toy_alg 0 no_publication 2 0x100 0x77 5 11 APP_IDX_DEV 0 (rep 4 0) 3
    (world_with client_local) 1 client_local demo_remote client_model); try done.
  apply world_with_wf. repeat constructor; apply (bool_decide_unpack _); by vm_compute.
Defined.

(** ** Configuring ourselves *)

(** The local node [local] has the configuration models on its first element [e]. *)
Record config_self (lid : Z) (local : mesh_node) (e : mesh_element) (s c : mesh_model)
    (w : world node_store) : Prop := {
  self_wf : store_wf (w_nodes w);
  self_local : ns_local (w_nodes w) = Some lid;
  self_node : find_first (is_node lid) (ns_nodes (w_nodes w)) = Some local;
  self_addr : find_first (match_node_unicast (nd_primary local)) (ns_nodes (w_nodes w)) = Some local;
  self_unicast : IS_UNICAST (nd_primary local) = true;
  self_loop : is_loopback local (nd_primary local) = true;
  self_element : dst_element local (nd_primary local) = Some e;
  self_models : el_models e = [s; c];
  self_server : receives APP_IDX_DEV s = true /\ op_recv (md_cbs s) = Some SERVER_CB;
  self_client : receives APP_IDX_DEV c = true /\ op_recv (md_cbs c) = Some CLIENT_CB;
}.

Section Self.
Context {A : Alg} (lid : Z) (e : mesh_element) (s c : mesh_model).
Implicit Types w : world node_store.

Lemma self_out local ev w : config_self lid local e s c w -> config_self lid local e s c (with_out ev w).
Proof. by intros []. Qed.

Lemma self_at local w : config_self lid local e s c w -> at_node lid local w.
Proof. intros []. by split. Qed.

Lemma self_get local w : config_self lid local e s c w ->
  get_model local (el_index e) (md_id s) = Some s /\ get_model local (el_index e) (md_id c) = Some c.
Proof.
  intros H. pose proof (dst_element_found _ _ _ (self_element _ _ _ _ _ _ H)) as He.
  destruct H as [[_ _ Hall _ _] _ Hn _ _ _ _ Hms _ _].
  apply find_first_some in Hn as [Hin _]. rewrite Forall_forall in Hall. destruct (Hall _ Hin) as [_ _ Hel _ _].
  rewrite Forall_forall in Hel. specialize (Hel e ltac:(by apply find_first_some in He as [? _])).
  unfold get_model. rewrite He. cbn. split; apply find_model_in; try done; rewrite Hms; [left | right; left].
Qed.

(** A message to ourselves is offered to the two models. *)
Lemma self_handler {MC : ModelCode} fuel iv seq data l local w (Q : unit -> world node_store -> Prop) :
  config_self lid local e s c w -> 0 <= seq <= 0xffffff ->
  wp (r ← run_recv fuel SERVER_CB (nd_primary local) data l (md_user_data s);
      if (r : bool) then mret true
      else deliver_models fuel lid (el_index e) [md_id c] (nd_primary local) APP_IDX_DEV data l)
    (fun _ => Q tt)
    (with_out (Delivered (nd_primary local) (nd_primary local) iv seq APP_IDX_DEV (take (Z.to_nat l) data)) w) ->
  wp (store_data_handler fuel (nd_primary local) (nd_primary local) iv seq APP_IDX_DEV data l) Q w.
Proof.
  intros Hs Hseq HQ. unfold store_data_handler, emit. do 2 wp_step. set (w1 := with_out _ w) in *.
  pose proof (self_out _ (Delivered (nd_primary local) (nd_primary local) iv seq APP_IDX_DEV
    (take (Z.to_nat l) data)) _ Hs) as Hs1. fold w1 in Hs1. clearbody w1. clear Hs w. rename w1 into w.
  pose proof (self_at _ _ Hs1) as Hat. pose proof (self_get _ _ Hs1) as [Hgs Hgc].
  destruct Hs1 as [Hw Hl Hn Ha Hu Hlb He Hms [Hsr Hscb] [Hcr Hccb]].
  unfold store. do 2 wp_step. rewrite Hl, (proj2 (Z.ltb_ge _ _)) by lia. wp_step. eapply deref_at; [exact Hat|].
  wp_step. eapply wp_of_ok; [by apply remote_node_eq; destruct Hw|]. unfold source_node. rewrite Hu, Ha.
  cbn [fst snd]. replace (on_store (fun _ => w_nodes w) w) with w by by destruct w.
  destruct (at_node_wf _ _ _ Hat) as (_ & Hid & _). rewrite Hid.
  wp_step. eapply deref_at; [exact Hat|]. unfold is_loopback in Hlb. rewrite andb_comm in Hlb. rewrite Hlb.
  cbn [negb andb]. wp_step. eapply deref_at; [exact Hat|]. rewrite He. wp_step.
  unfold deliver_model_data. rewrite Hms. change (md_id <$> [s; c]) with [md_id s; md_id c].
  assert (HQ2 : wp (deliver_models fuel lid (el_index e) [md_id s; md_id c] (nd_primary local) APP_IDX_DEV data l)
    (fun _ => Q tt) w).
  { cbn [deliver_models]. wp_step. eapply deref_at; [exact Hat|]. rewrite Hgs, Hscb.
    unfold receives in Hsr. rewrite Hscb, andb_true_r in Hsr. rewrite Hsr. exact HQ. }
  eapply wp_mono; [exact HQ2|]. intros a w2 HQ3. rewrite andb_false_r. by apply wp_ret.
Qed.

(** The second model. *)
Lemma self_second {MC : ModelCode} fuel local data l w (Q : bool -> world node_store -> Prop) :
  config_self lid local e s c w ->
  wp (r ← run_recv fuel CLIENT_CB (nd_primary local) data l (md_user_data c); mret r) Q w ->
  wp (deliver_models fuel lid (el_index e) [md_id c] (nd_primary local) APP_IDX_DEV data l) Q w.
Proof.
  intros Hs HQ. pose proof (self_at _ _ Hs) as Hat. pose proof (self_get _ _ Hs) as [_ Hgc].
  destruct Hs as [_ _ _ _ _ _ _ _ _ [Hcr Hccb]]. unfold receives in Hcr. rewrite Hccb, andb_true_r in Hcr.
  cbn [deliver_models]. wp_step. eapply deref_at; [exact Hat|]. rewrite Hgc, Hcr, Hccb. cbn [negb].
  wp_step. eapply wp_mono; [exact (wp_bind_inv _ _ _ _ HQ)|]. by intros [].
Qed.

(** The state after the TTL has been set. *)
Definition ttl_world (v : Z) w : world node_store :=
  on_net (set_default_ttl v) (on_store (upd_node lid (set_nd_ttl v)) w).

Lemma self_ttl v local w : config_self lid local e s c w ->
  config_self lid (set_nd_ttl v local) e s c (ttl_world v w).
Proof.
  intros [Hw Hl Hn Ha Hu Hlb He Hms Hsr Hcr].
  assert (Hid : ∀ n, nd_id (set_nd_ttl v n) = nd_id n) by done.
  constructor; try done.
  - apply (upd_node_wf _ _ _ local); try done. destruct Hw as [_ _ Hall _ _]. rewrite Forall_forall in Hall.
    apply (node_wf_field local); try done. apply Hall. by apply find_first_some in Hn as [? _].
  - by apply find_upd.
  - by apply find_update_both.
Qed.

Lemma set_ttl_wp v local w (Q : bool -> world node_store -> Prop) : config_self lid local e s c w ->
  v <= 0x7f -> Q true (ttl_world v w) -> wp (node_set_default_ttl (Some lid) v) Q w.
Proof.
  intros Hs Hv HQ. unfold node_set_default_ttl, nonnull. wp_step.
  eapply node_assign_wp; [by destruct Hs as [[]] | by destruct Hs|]. unfold local_or_none, store. do 4 wp_step.
  cbn [on_store w_nodes upd_node set_nodes ns_local]. rewrite (self_local _ _ _ _ _ _ Hs), Z.eqb_refl.
  unfold net_set_default_ttl, mod_net. rewrite (proj2 (Z.ltb_ge _ _)) by lia. by wp_run.
Qed.
End Self.

Lemma u32_words v : is_u32 v -> v <> 0xffffffff -> read_input_parameters [Some v] = [v].
Proof.
  intros Hv Hne. unfold read_input_parameters. cbn [read_words]. rewrite u32_small by done.
  by rewrite (proj2 (Z.eqb_neq _ _)).
Qed.

Section SelfTtl.
Context {A : Alg} (lid : Z) (e : mesh_element) (s c : mesh_model) (junk : mesh_publication) (d : nat).
Implicit Types w : world node_store.

(** The client takes the status. *)
Lemma client_ttl_wp local v fuel w (Q : bool -> world node_store -> Prop) :
  config_self lid local e s c w -> 0 <= v <= 0x7f ->
  Q true (with_out (Db (DbTtl lid v)) (ttl_world lid v w)) ->
  wp (run_recv (ModelCode := model_code junk (S d)) fuel CLIENT_CB (nd_primary local)
    (to_be 2 OP_CONFIG_DEFAULT_TTL_STATUS ++ [v]) 3 (md_user_data c)) Q w.
Proof.
  intros Hs Hv HQ. pose proof (self_at _ _ _ _ _ _ Hs) as Hat. pose proof Hs as [Hw _ _ Ha Hu _ _ _ _ _].
  destruct (at_node_wf _ _ _ Hat) as (_ & Hid & _).
  change (wp (client_msg_recvd (MC := model_code junk d) junk (nd_primary local)
    (to_be 2 OP_CONFIG_DEFAULT_TTL_STATUS ++ [v]) 3) Q w).
  unfold client_msg_recvd, open_msg. do 2 wp_step. eapply wp_lift; [by apply opcode_get_two; vm_compute|].
  wp_step. change (reliable OP_CONFIG_DEFAULT_TTL_STATUS) with OP_CONFIG_DEFAULT_TTL_STATUS. rewrite Hu.
  unfold node_by_addr, store. do 3 wp_step. eapply wp_lift.
  { unfold find_by_addr, all_nodes. rewrite Hu, (store_valid _ Hw). cbn. by rewrite Ha. }
  wp_step. cbn [option_map]. rewrite Hid. unfold node_primary, nonnull. do 2 wp_step.
  eapply deref_at; [exact Hat|]. wp_step. rewrite Z.eqb_refl. cbn [negb].
  change (client_case (MC := model_code junk d) junk OP_CONFIG_DEFAULT_TTL_STATUS lid (nd_primary local) (drop (Z.to_nat 2)
    (to_be 2 OP_CONFIG_DEFAULT_TTL_STATUS ++ [v])) (u16 (3 - 2))) with
    (Some (client_ttl_status lid [v] 1)). wp_step. unfold client_ttl_status. cbn [negb Z.eqb Pos.eqb].
  wp_step. eapply wp_lift; [apply rd_0|]. wp_step. eapply set_ttl_wp; [exact Hs | lia|].
  unfold db, emit. wp_step. by wp_step.
Qed.

(** The server leaves it. *)
Lemma server_status_wp local v fuel w (Q : bool -> world node_store -> Prop) :
  config_self lid local e s c w -> Q false w ->
  wp (run_recv (ModelCode := model_code junk (S d)) fuel SERVER_CB (nd_primary local)
    (to_be 2 OP_CONFIG_DEFAULT_TTL_STATUS ++ [v]) 3 (md_user_data s)) Q w.
Proof.
  intros Hs HQ.
  change (wp (server_msg_recvd (MC := model_code junk d) (DH := store_data_handler (MC := model_code junk d))
    junk fuel (nd_primary local) (to_be 2 OP_CONFIG_DEFAULT_TTL_STATUS ++ [v]) 3) Q w).
  unfold server_msg_recvd, open_msg. do 2 wp_step. eapply wp_lift; [by apply opcode_get_two; vm_compute|].
  wp_step. change (reliable OP_CONFIG_DEFAULT_TTL_STATUS) with OP_CONFIG_DEFAULT_TTL_STATUS.
  unfold local_node, store. do 4 wp_step. by rewrite (self_local _ _ _ _ _ _ Hs).
Qed.

(** The answer to ourselves. *)
Definition ttl_status (v : Z) : list Z := to_be 2 OP_CONFIG_DEFAULT_TTL_STATUS ++ [v].
Definition ttl_set (v : Z) : list Z := to_be 2 OP_CONFIG_DEFAULT_TTL_SET ++ [v].
Definition to_self local w (msg : list Z) : event :=
  Delivered (nd_primary local) (nd_primary local) (iv_index (w_net w)) (seq_num (w_net w)) APP_IDX_DEV msg.

Lemma self_iv_seq local w (Q : Z -> world node_store -> Prop) : config_self lid local e s c w ->
  (Q (iv_index (w_net w)) w -> wp (node_get_iv_index (Some lid)) Q w) /\
  (Q (seq_num (w_net w)) w -> wp (node_get_sequence_number (Some lid)) Q w).
Proof.
  intros Hs. unfold node_get_iv_index, node_get_sequence_number, nonnull, node_is_local, store.
  split; intros HQ; do 4 wp_step; rewrite (self_local _ _ _ _ _ _ Hs), bool_decide_eq_true_2 by done;
    unfold net_get_iv_index, net_get_seq_num, net_of; by wp_run.
Qed.

Lemma server_reply_wp local v fuel w (Q : unit -> world node_store -> Prop) :
  config_self lid local e s c w -> 0 <= v <= 0x7f -> 0 <= seq_num (w_net w) <= 0xffffff ->
  Q tt (with_out (Db (DbTtl lid v)) (ttl_world lid v (with_out (to_self local w (ttl_status v)) w))) ->
  wp (server_reply (DH := store_data_handler (MC := model_code junk (S d))) fuel lid (nd_primary local)
    (ttl_status v)) Q w.
Proof.
  intros Hs Hv Hseq HQ. unfold server_reply, node_primary, nonnull. do 2 wp_step.
  eapply deref_at; [by eapply self_at|]. wp_step. rewrite Z.eqb_refl. cbn [negb]. wp_step.
  eapply (self_iv_seq _ _ _ Hs). wp_step. eapply (self_iv_seq _ _ _ Hs).
  eapply (self_handler lid e s c (MC := model_code junk (S d))); [exact Hs | done|]. change (len (ttl_status v)) with 3.
  change (take (Z.to_nat 3) (ttl_status v)) with (ttl_status v). fold (to_self local w (ttl_status v)).
  pose proof (self_out _ _ _ _ _ (to_self local w (ttl_status v)) _ Hs) as Hs1.
  wp_step. eapply server_status_wp; [exact Hs1|]. eapply (self_second lid e s c (MC := model_code junk (S d))); [exact Hs1|].
  wp_step. eapply client_ttl_wp; [exact Hs1 | done|]. by wp_step.
Qed.

Lemma server_set_wp local v fuel w (Q : bool -> world node_store -> Prop) :
  config_self lid local e s c w -> 0 <= v <= 0x7f -> v <> 1 -> 0 <= seq_num (w_net w) <= 0xffffff ->
  (let w1 := with_out (Db (DbTtl lid v)) (ttl_world lid v w) in
   Q true (with_out (Db (DbTtl lid v)) (ttl_world lid v (with_out (to_self local w1 (ttl_status v)) w1)))) ->
  wp (run_recv (ModelCode := model_code junk (S (S d))) fuel SERVER_CB (nd_primary local) (ttl_set v) 3
    (md_user_data s)) Q w.
Proof.
  intros Hs Hv Hv1 Hseq HQ.
  change (wp (server_msg_recvd (MC := model_code junk (S d)) (DH := store_data_handler (MC := model_code junk (S d)))
    junk fuel (nd_primary local) (ttl_set v) 3) Q w).
  unfold server_msg_recvd, open_msg. do 2 wp_step. eapply wp_lift; [by apply opcode_get_two; vm_compute|].
  wp_step. change (reliable OP_CONFIG_DEFAULT_TTL_SET) with OP_CONFIG_DEFAULT_TTL_SET.
  unfold local_node, store. do 4 wp_step. rewrite (self_local _ _ _ _ _ _ Hs).
  change (drop (Z.to_nat 2) (ttl_set v)) with [v]. change (u16 (3 - 2)) with 1.
  rewrite Z.eqb_refl. cbn [negb]. wp_step. eapply wp_lift; [apply rd_0|].
  rewrite (proj2 (Z.ltb_ge _ _)), (proj2 (Z.eqb_neq _ _)) by (done || (unfold TTL_MASK; lia)). cbn [orb].
  unfold server_ttl_set. rewrite (proj2 (Z.leb_le _ _)) by (unfold TTL_MASK; lia). do 2 wp_step.
  eapply set_ttl_wp; [exact Hs | lia|]. unfold db, emit. wp_step. set (w1 := with_out _ _) in *.
  assert (Hs1 : config_self lid (set_nd_ttl v local) e s c w1) by (by apply self_out, self_ttl).
  eapply wp_lift; [by apply opcode_set_bytes|]. cbn beta iota. wp_step.
  unfold node_get_default_ttl, nonnull, node_is_local, store. do 3 wp_step.
  rewrite (self_local _ _ _ _ _ _ Hs1), bool_decide_eq_true_2 by done. unfold net_get_default_ttl, net_of. do 2 wp_step.
  change (default_ttl (w_net w1)) with v. eapply wp_lift; [done|]. wp_step.
  change (take _ _) with (ttl_status v).
  apply (server_reply_wp (set_nd_ttl v local)); [exact Hs1 | done | done | by wp_step].
Qed.
End SelfTtl.

(** Setting our own default TTL ends, and stays inside.  With the
    configuration server and client on the first element of the local node, in a
    well-formed state, the command to set the default TTL of the local node to a
    value the server accepts returns success: the server stores it and answers,
    the answer goes through the node layer to the server, which leaves it, and to
    the client, which stores the value again and does not answer.  Calls of the
    callbacks nest two deep.  The TTL of the network layer and of the node is the
    one given, and nothing is sent. *)
Theorem config_ttl_self (A : Alg) junk depth fuel lid e s c local v (w : world node_store) :
  config_self lid local e s c w -> 0 <= v <= 0x7f -> v <> 1 -> 0 <= seq_num (w_net w) <= 0xffffff ->
  exists w', cmd_ttl_set (DH := store_data_handler (MC := model_code junk (S (S depth)))) fuel
      (nd_primary local) [Some v] w = Ok (true, w') /\
    w_net w' = set_default_ttl v (w_net w) /\
    find_first (is_node lid) (ns_nodes (w_nodes w')) = Some (set_nd_ttl v local) /\
    w_out w' = w_out w ++
      [to_self local w (ttl_set v); Db (DbTtl lid v);
       to_self local w (ttl_status v); Db (DbTtl lid v)].
Proof.
  intros Hs Hv Hv1 Hseq. apply wp_true. unfold cmd_ttl_set.
  assert (Hu : nd_primary local <> 0).
  { pose proof (self_unicast _ _ _ _ _ _ Hs) as H. unfold IS_UNICAST in H. bool_hyps. lia. }
  rewrite (proj2 (Z.eqb_neq _ _)) by done. rewrite u32_words by lia. wp_step. wp_step.
  assert (Hl : Z.land v TTL_MASK = v) by (unfold TTL_MASK; rewrite land_7f, Z.mod_small by lia; done).
  rewrite Hl. eapply wp_lift.
  { apply build_msg_eq; [done | lia | by repeat constructor | done]. }
  unfold config_send, local_node, store. do 4 wp_step. rewrite (self_local _ _ _ _ _ _ Hs).
  unfold node_primary, nonnull. do 2 wp_step. eapply deref_at; [by eapply self_at|]. wp_step.
  rewrite Z.eqb_refl. cbn [negb]. wp_step. eapply (self_iv_seq _ _ _ _ _ _ _ Hs). wp_step.
  eapply (self_iv_seq _ _ _ _ _ _ _ Hs). wp_step.
  assert (Hb : opcode_bytes OP_CONFIG_DEFAULT_TTL_SET ++ fields_bytes [Octet v] = ttl_set v).
  { cbn. by rewrite u8_small by lia. }
  rewrite Hb. eapply (self_handler lid e s c (MC := model_code junk (S (S depth)))); [exact Hs | done|].
  change (len (ttl_set v)) with 3. change (take (Z.to_nat 3) (ttl_set v)) with (ttl_set v).
  fold (to_self local w (ttl_set v)).
  pose proof (self_out _ _ _ _ _ (to_self local w (ttl_set v)) _ Hs) as Hs1. wp_step.
  eapply server_set_wp; [exact Hs1 | done | done | done|]. do 2 wp_step.
  split_and!; [done | done | |].
  2: { cbn [w_out with_out ttl_world on_net on_store]. by rewrite <-!app_assoc. }
  pose proof (self_ttl _ _ _ _ v _ _ (self_ttl _ _ _ _ v _ _ Hs1)) as Hs2.
  exact (self_node _ _ _ _ _ _ Hs2).
Qed.

Lemma config_ttl_self_witness :
  exists w', cmd_ttl_set (A := toy_alg)
      (DH := store_data_handler (MC := model_code (A := toy_alg) no_publication 2)) 2
      (nd_primary config_local) [Some 9] (world_with config_local) = Ok (true, w') /\
    w_net w' = set_default_ttl 9 (w_net (world_with config_local)) /\
    find_first (is_node 1) (ns_nodes (w_nodes w')) = Some (set_nd_ttl 9 config_local) /\
    w_out w' = w_out (world_with config_local) ++
      [to_self config_local (world_with config_local) (ttl_set 9); Db (DbTtl 1 9);
       to_self config_local (world_with config_local) (ttl_status 9); Db (DbTtl 1 9)].
Proof.
  apply (config_ttl_self toy_alg no_publication 0 2 1 (Element [server_model; client_model] 0 0) server_model
    client_model config_local 9 (world_with config_local)); try done.
  split; try by vm_compute. apply world_with_wf. repeat constructor; apply (bool_decide_unpack _); by vm_compute.
Defined.

(** The on/off client keeps one key and is bound to another.
    [node_add_binding] takes the status of the bind callback the wrong way round:
    the first key is taken by the on/off client, which returns
    [MESH_STATUS_SUCCESS], and the binding is refused; the second key is refused by
    the client, and the model is bound to it.  From then on it sends under the
    first key and is handed the messages under the second. *)
Theorem onoff_binding_inverted (A : Alg) junk d (w : world node_store) id n e i m k1 k2 :
  store_wf (w_nodes w) -> ns_local (w_nodes w) = Some id ->
  find_first (is_node id) (ns_nodes (w_nodes w)) = Some n -> get_model n e i = Some m ->
  op_bind (md_cbs m) = Some ONOFF_CB -> k1 ∉ md_bindings m -> k2 ∉ md_bindings m ->
  onoff_app_idx (ns_statics (w_nodes w)) = APP_IDX_INVALID -> k1 <> APP_IDX_INVALID ->
  exists w1 w2 n' m', node_add_binding (MC := model_code junk (S d)) (Some id) e i k1 w = Ok (false, w1) /\
    node_add_binding (MC := model_code junk (S d)) (Some id) e i k2 w1 = Ok (true, w2) /\
    find_first (is_node id) (ns_nodes (w_nodes w2)) = Some n' /\ get_model n' e i = Some m' /\
    onoff_app_idx (ns_statics (w_nodes w2)) = k1 /\ md_bindings m' = md_bindings m ++ [k2].
Proof.
  intros Hw Hl Hn Hm Hcb H1 H2 Hidle Hk1. set (f := fun m => set_md_bindings (md_bindings m ++ [k2]) m).
  set (w1 := on_store (set_onoff_app_idx k1) w).
  assert (Hw1 : store_wf (w_nodes w1)) by (destruct Hw; by constructor).
  assert (Hr1 : client_bind k1 ACTION_ADD w = Ok (MESH_STATUS_SUCCESS, w1)).
  { apply wp_eq. unfold client_bind, store. do 2 wp_step. rewrite Hidle. unfold mod_store. by wp_run. }
  assert (Hr2 : client_bind k2 ACTION_ADD w1 = Ok (MESH_STATUS_INSUFF_RESOURCES, w1)).
  { apply wp_eq. unfold client_bind, store. do 2 wp_step. cbn [w1 on_store w_nodes set_onoff_app_idx ns_statics onoff_app_idx].
    rewrite (proj2 (Z.eqb_neq k1 _)) by done. by wp_run. }
  exists w1, (on_store (upd_node id (on_model e i f)) w1), (on_model e i f n), (f m). split_and!.
  - by rewrite (add_binding_run w w1 id n e i m ONOFF_CB k1 MESH_STATUS_SUCCESS).
  - by rewrite (add_binding_run w1 w1 id n e i m ONOFF_CB k2 MESH_STATUS_INSUFF_RESOURCES).
  - by apply find_upd.
  - by apply get_on_model_same.
  - done.
  - done.
Qed.

Definition onoff_model : mesh_model :=
  Model (Ops (Some ONOFF_CB) (Some ONOFF_CB) None None) 0 [] [] 0xffff1001 None.

Lemma onoff_binding_inverted_witness :
  let w := world_with (set_nd_elements [Element [onoff_model] 0 0] demo_local) in
  exists w1 w2 n' m',
    node_add_binding (MC := model_code (A := toy_alg) no_publication 1) (Some 1) 0 0xffff1001 4 w = Ok (false, w1) /\
    node_add_binding (MC := model_code (A := toy_alg) no_publication 1) (Some 1) 0 0xffff1001 5 w1 = Ok (true, w2) /\
    find_first (is_node 1) (ns_nodes (w_nodes w2)) = Some n' /\ get_model n' 0 0xffff1001 = Some m' /\
    onoff_app_idx (ns_statics (w_nodes w2)) = 4 /\ md_bindings m' = md_bindings onoff_model ++ [5].
Proof.
  apply (onoff_binding_inverted toy_alg no_publication 0 (world_with (set_nd_elements [Element [onoff_model] 0 0] demo_local))
    1 (set_nd_elements [Element [onoff_model] 0 0] demo_local) 0 0xffff1001 onoff_model 4 5);
    try done; try (apply (bool_decide_unpack _); by vm_compute).
  apply world_with_wf. repeat constructor; apply (bool_decide_unpack _); by vm_compute.
Defined.
