(* ===== verification/LightFacts.v ===== *)
(** * What the lighting and time clients do

    The parameters of a command, the messages the commands send, what the callbacks
    promise to the node layer, and the types of the static variables. *)

From S2P Require Import Prelude Bytes Util Words Alg Crypto AddrPool Packet Pdu Keys NetState Send Beacon Recv Reassembly Node NodeFacts NodeOps ConfigModel Messages OnOff Light Models.

(** ** The parameters of a command *)

(** [arg] is a word that [sscanf] reads as [v], a value the loop goes on with. *)
Definition typed (arg : list Z) (v : Z) : Prop := scan_int arg = Some v /\ v <> 0xffffffff.

Lemma typed_digits n v : 0 <= v < 10 ^ Z.of_nat (S n) -> 0 <= v < 0xffffffff -> typed (digits 10 (S n) v) v.
Proof. intros ??. split; [apply scan_int_digits; lia | lia]. Qed.

Lemma typed_nonempty v : ¬ typed [] v.
Proof. by intros []. Qed.

Lemma input_loop_typed args vs n i ps : Forall2 typed args vs -> (length vs <= n)%nat ->
  (i + length vs <= length ps)%nat ->
  input_loop scan_int n i args ps =
  (Z.of_nat (i + length vs), take i ps ++ vs ++ drop (i + length vs) ps).
Proof.
  intros H. revert n i ps. induction H as [|arg v args vs [Hs Hne] H IH]; intros n i ps Hn Hi.
  - cbn [length app]. rewrite Nat.add_0_r, take_drop. by destruct n.
  - cbn [length] in *. destruct n as [|n]; [lia|]. cbn [input_loop]. rewrite Hs.
    unfold parm. rewrite nth_lookup, list_lookup_insert_eq by lia. cbn [default].
    rewrite (proj2 (Z.eqb_neq v _)) by done. rewrite IH by (try rewrite length_insert; lia).
    f_equal; [lia|]. rewrite drop_insert_lt by lia. erewrite take_S_r by (by apply list_lookup_insert_eq; lia).
    rewrite take_insert_ge by lia. rewrite <-app_assoc. cbn [app]. do 4 f_equal. lia.
Qed.

Lemma light_input_typed args vs old : Forall2 typed args vs -> (0 < length vs <= 8)%nat ->
  light_input scan_int args old =
  (Z.of_nat (length vs), vs ++ rep (8 - Z.of_nat (length vs)) 0xffffffff).
Proof.
  intros H Hn. destruct H as [|arg v args vs Ha H]; [cbn in Hn; lia|].
  destruct arg as [|c arg]; [by apply typed_nonempty in Ha|]. unfold light_input.
  rewrite (input_loop_typed _ (v :: vs)).
  - f_equal. change (take 0 (rep 8 0xffffffff)) with (@nil Z). cbn [app]. do 2 f_equal.
    unfold rep. rewrite drop_replicate. f_equal. lia.
  - by constructor.
  - lia.
  - change (length (rep 8 _)) with 8%nat. lia.
Qed.

(** ** The static variables *)

Lemma get_set_light l v r : get_light l (set_light l v r) = v.
Proof. by destruct l. Qed.
Lemma get_set_light_ne l l' v r : l <> l' -> get_light l' (set_light l v r) = get_light l' r.
Proof. by destruct l, l'. Qed.
Lemma set_set_light l u v r : set_light l u (set_light l v r) = set_light l u r.
Proof. by destruct l. Qed.
Create Rewrite HintDb light.
#[export] Hint Rewrite get_set_light set_set_light : light.

Definition vars_of (l : light) (w : world node_store) : client_vars :=
  get_light l (light_vars (ns_statics (w_nodes w))).
Definition with_vars (l : light) (v : client_vars) (w : world node_store) : world node_store :=
  on_store (set_vars l v) w.

Lemma vars_with l v w : vars_of l (with_vars l v w) = v.
Proof. apply get_set_light. Qed.
Lemma with_vars_twice l u v w : with_vars l u (with_vars l v w) = with_vars l u w.
Proof. unfold with_vars, on_store, set_vars. cbn. by rewrite set_set_light. Qed.
#[export] Hint Rewrite vars_with with_vars_twice : light.

(** ** Messages of the specification *)

(** The message for the values typed by the user, in the order of the menu.  For the
    four lights it is that of the Mesh Model specification: the transition time and the
    delay come last, the delay in steps of five milliseconds.  The time client sends the
    same octets whatever is typed. *)
Definition set_message (l : light) (tid : Z) (vs : list Z) : option (list Z) :=
  match l, vs with
  | HSL, [h; s; b; t; d] =>
      Some (opcode_bytes OP_LIGHT_HSL_SET ++ le16 b ++ le16 h ++ le16 s ++ [u8 tid; u8 t; u8 (d / 5)])
  | CTL, [k; b; t; d] =>
      Some (opcode_bytes OP_LIGHT_CTL_SET ++ le16 b ++ le16 k ++ le16 0 ++ [u8 tid; u8 t; u8 (d / 5)])
  | LEVEL, [v; t; d] => Some (opcode_bytes OP_LEVEL_SET ++ le16 v ++ [u8 tid; u8 t; u8 (d / 5)])
  | LIGHTNESS, [v; t; d] => Some (opcode_bytes OP_LIGHTNESS_SET ++ le16 v ++ [u8 tid; u8 t; u8 (d / 5)])
  | TIME, _ :: _ => Some ([OP_TIME_SET] ++ rep 6 0xff ++ [u8 tid; 0xff; 0x33])
  | _, _ => None
  end.

Lemma two_octets_bytes v : fields_bytes (two_octets v) = le16 v.
Proof.
  unfold fields_bytes, two_octets, le16. cbn. unfold u8, u16. rewrite Z.shiftr_div_pow2 by lia.
  f_equal; [zlia | f_equal; zlia].
Qed.
Lemma fields_bytes_app fs gs : fields_bytes (fs ++ gs) = fields_bytes fs ++ fields_bytes gs.
Proof. unfold fields_bytes. by rewrite fmap_app, concat_app. Qed.
Create Rewrite HintDb message.
#[export] Hint Rewrite two_octets_bytes fields_bytes_app len_le16 len_app len_cons : message.

Section Facts.
Context {A : Alg}.
Implicit Types w : world node_store.

Lemma vars_wp l w (Q : client_vars -> world node_store -> Prop) : Q (vars_of l w) w -> wp (vars l) Q w.
Proof. intros HQ. unfold vars, store. by wp_run. Qed.
Lemma mod_vars_wp l f w (Q : unit -> world node_store -> Prop) :
  Q tt (with_vars l (f (vars_of l w)) w) -> wp (mod_vars l f) Q w.
Proof. intros HQ. unfold mod_vars, mod_store. by wp_run. Qed.

(** The target of the commands is a node we know. *)
Definition targeted (l : light) w : Prop :=
  cv_target (vars_of l w) <> UNASSIGNED /\
  exists n, find_by_addr (w_nodes w) (u16 (cv_target (vars_of l w))) = Ok (Some n).

Lemma light_target_wp l w (Q : bool -> world node_store -> Prop) :
  targeted l w -> Q true w -> wp (light_target l) Q w.
Proof.
  intros [Ht [n Hn]] HQ. unfold light_target. wp_step. apply vars_wp. rewrite (proj2 (Z.eqb_neq _ _)) by done.
  unfold node_by_addr, store. do 3 wp_step. eapply wp_lift; [exact Hn|]. do 2 wp_step. by wp_step.
Qed.

(** ** The messages *)

(** The variables after a command that sends. *)
Definition sent (ps : list Z) (v : client_vars) : client_vars :=
  ClientVars (cv_app_idx v) (u8 (cv_trans_id v + 1)) (cv_target v) ps.

Lemma light_set_run fuel l op scan refused fields args n ps fs ps' w : targeted l w ->
  light_input scan args (cv_parms (vars_of l w)) = (n, ps) -> refused n ps = false ->
  fields (cv_trans_id (vars_of l w)) ps = (fs, ps') ->
  config_opcode op = true -> Forall field_ok fs -> len (opcode_bytes op) + len (fields_bytes fs) <= 32 ->
  light_set fuel l op scan refused fields args w =
  light_send fuel l (opcode_bytes op ++ fields_bytes fs) (with_vars l (sent ps' (vars_of l w)) w).
Proof.
  intros Ht Hin Hr Hf Hop Hok Hfit. unfold light_set.
  apply wp_bind_eq, light_target_wp; [done|]. cbn [negb]. apply wp_bind_eq, vars_wp. rewrite Hin.
  apply wp_bind_eq, mod_vars_wp. rewrite Hr, Hf. apply wp_bind_eq, mod_vars_wp.
  autorewrite with light. apply wp_bind_eq. eapply wp_lift; [by apply build_msg_eq|]. done.
Qed.

(** The command of the menu of [l] that sets its value. *)
Definition light_command (l : light) (fuel : nat) : list (list Z) -> NM bool :=
  match l with
  | HSL => hsl_set fuel | CTL => ctl_set fuel | LEVEL => level_set fuel
  | LIGHTNESS => lightness_set fuel | TIME => time_set fuel
  end.

(** No test of the parameters but that of the colour ever refuses anything. *)
Lemma percent_accepts n ps : percent_refused n ps = false.
Proof. unfold percent_refused. zbool. Qed.
Lemma ctl_accepts n ps : ctl_refused n ps = false.
Proof. unfold ctl_refused. zbool. Qed.
Lemma time_accepts n ps : time_refused n ps = false.
Proof. unfold time_refused. zbool. Qed.

(** [light_set_run] with the message given. *)
Lemma light_set_sends fuel l op scan refused fields args n ps fs ps' msg w : targeted l w ->
  light_input scan args (cv_parms (vars_of l w)) = (n, ps) -> refused n ps = false ->
  fields (cv_trans_id (vars_of l w)) ps = (fs, ps') -> config_opcode op = true -> Forall field_ok fs ->
  opcode_bytes op ++ fields_bytes fs = msg -> len msg <= 32 ->
  light_set fuel l op scan refused fields args w =
  light_send fuel l msg (with_vars l (sent ps' (vars_of l w)) w).
Proof. intros ?????? <- Hl. rewrite len_app in Hl. by eapply light_set_run. Qed.


(** ** What the callbacks promise *)

Lemma opcode_get_bounds data l : 0 <= l <= len data -> exists r, mesh_opcode_get data l = Ok r /\
  ∀ op n, r = Some (op, n) -> 1 <= n <= l.
Proof.
  intros Hl. unfold mesh_opcode_get. destruct (Z.ltb_spec l 1); [by eexists|].
  destruct (rd_ok data 0) as (b0 & -> & _); [lia|]. cbn [mbind res_bind].
  repeat case_goal; bool_hyps; try by eexists.
  - eexists. split; [done|]. intros ?? [= <- <-]. lia.
  - destruct (rd_range_total data 0 2) as (v & Hv & _); [lia..|]. unfold get_be16. rewrite Hv. cbn.
    eexists. split; [done|]. intros ?? [= <- <-]. lia.
  - destruct (rd_range_total data 1 2) as (v & Hv & _); [lia..|]. unfold get_be16. rewrite Hv. cbn.
    eexists. split; [done|]. intros ?? [= <- <-]. lia.
Qed.

Lemma print_octets_wp data offs w (Q : unit -> world node_store -> Prop) :
  Forall (fun i => 0 <= i < len data) offs -> Q tt w -> wp (print_octets data offs) Q w.
Proof.
  intros H HQ. induction H as [|i offs Hi H IH]; [done|]. cbn [print_octets]. wp_step.
  destruct (rd_ok data i Hi) as (v & Hv & _). by eapply wp_lift.
Qed.

(** A model that looks for a status of one or three octets changes nothing. *)
Lemma status_wp op data l w (Q : bool -> world node_store -> Prop) :
  0 <= l <= len data -> (∀ r, Q r w) -> wp (light_msg_recvd op data l) Q w.
Proof.
  intros Hl HQ. unfold light_msg_recvd, open_msg. do 2 wp_step.
  destruct (opcode_get_bounds data l Hl) as (r & Hr & Hn). eapply wp_lift; [exact Hr|]. wp_step.
  destruct r as [[opc n]|]; [|by wp_step]. specialize (Hn _ _ eq_refl).
  assert (Hle : u16 (l - n) <= len (drop (Z.to_nat n) data)).
  { pose proof (Z.mod_le (l - n) 0x10000). unfold u16, len in *. rewrite length_drop. lia. }
  case_goal; [|by wp_step]. case_goal; [by wp_step|]. apply andb_false_iff in Heqb0. wp_step.
  apply print_octets_wp; [|by wp_step].
  destruct (Z.eqb_spec (u16 (l - n)) 3); repeat constructor; destruct Heqb0; bool_hyps; lia.
Qed.

Lemma light_recv_wp l data len_ w (Q : bool -> world node_store -> Prop) :
  0 <= len_ <= len data -> (∀ r, Q r w) -> wp (light_recv l data len_) Q w.
Proof. intros ??. by destruct l; apply status_wp. Qed.
Lemma onoff_recv_wp data l w (Q : bool -> world node_store -> Prop) :
  0 <= l <= len data -> (∀ r, Q r w) -> wp (onoff_msg_recvd data l) Q w.
Proof. apply status_wp. Qed.

Lemma with_vars_keeps l v w : nodes_wf w ->
  nodes_wf (with_vars l v w) /\ keeps (w_nodes w) (w_nodes (with_vars l v w)).
Proof. intros []. split; [by constructor | by constructor]. Qed.

Lemma light_bind_wp l idx action w (Q : Z -> world node_store -> Prop) :
  (∀ r, Q r w) ->
  (∀ r i, i = idx \/ i = APP_IDX_INVALID -> Q r (with_vars l (set_cv_app_idx i (vars_of l w)) w)) ->
  wp (light_bind l idx action) Q w.
Proof.
  intros HQ HQv. unfold light_bind. wp_step. apply vars_wp. repeat case_goal; wp_run; try done.
  - by apply (HQv _ idx); left.
  - by apply (HQv _ APP_IDX_INVALID); right.
Qed.
Lemma onoff_bind_wp idx action w (Q : Z -> world node_store -> Prop) :
  (∀ r, Q r w) -> (∀ r v, Q r (on_store (set_onoff_app_idx v) w)) -> wp (client_bind idx action) Q w.
Proof.
  intros HQ HQv. unfold client_bind, store, mod_store. do 2 wp_step. repeat case_goal; by wp_run.
Qed.


#[export] Instance plain_models_ok : ModelCodeOk plain_models.
Proof.
  split; cbn [run_recv run_bind run_pub plain_models].
  - intros fuel cb src data l user w Hw Hl. assert (∀ r : bool, up_post fuel w w) by by intros; apply up_post_refl.
    case_goal; [by apply onoff_recv_wp|]. case_goal; [by apply light_recv_wp | by wp_step; apply up_post_refl].
  - intros cb idx action w Hw. case_goal.
    + apply light_bind_wp; [done | intros; by apply with_vars_keeps].
    + apply onoff_bind_wp; [done|]. intros. destruct Hw. split; by constructor.
  - intros. by wp_step.
Qed.

(** The time client stops at the first word: every parameter is what it was cleared to. *)
Lemma time_set_run fuel c arg args w : targeted TIME w ->
  exists ps, time_set fuel ((c :: arg) :: args) w =
    light_send fuel TIME ([OP_TIME_SET] ++ rep 6 0xff ++ [u8 (cv_trans_id (vars_of TIME w)); 0xff; 0x33])
      (with_vars TIME (sent ps (vars_of TIME w)) w).
Proof.
  intros Ht. eexists. eapply light_set_sends; [exact Ht | reflexivity | apply time_accepts
    | reflexivity | done | by repeat constructor | | done].
  by autorewrite with message.
Qed.

(** C17: what the set commands of the five models send.  A command of the four lights'
    menus with all its parameters sends, in one unsegmented message, the opcode, the
    values in the order and at the width the models specify, the next transaction
    identifier, the transition time and the delay in steps of five milliseconds; values
    are truncated to their width.  The command of the time model sends a message of the
    same kind whose time, transition time and delay are always the same: what is typed
    does not matter.  The identifier is counted up and the static variables are otherwise
    kept.  The colour command needs one of its three values in range. *)
Theorem light_command_message (l : light) fuel args vs msg w :
  targeted l w -> Forall2 typed args vs ->
  set_message l (cv_trans_id (vars_of l w)) vs = Some msg ->
  (l = HSL -> hsl_refused (len vs) vs = false) ->
  len msg <= 11 /\
  exists ps, light_command l fuel args w =
    light_send fuel l msg (with_vars l (sent ps (vars_of l w)) w).
Proof.
  intros Ht Ha Hm Hr. destruct (decide (l = TIME)) as [->|Hl].
  { destruct Ha as [|arg v args vs Ha _]; [done|]. destruct arg as [|c arg]; [by apply typed_nonempty in Ha|].
    injection Hm as <-. split; [done|]. by apply time_set_run. }
  assert (Hin : (0 < length vs <= 8)%nat).
  { destruct l, vs as [|? [|? [|? [|? [|? [|]]]]]]; try done; cbn; lia. }
  pose proof (light_input_typed _ _ (cv_parms (vars_of l w)) Ha Hin) as Hi.
  destruct l, vs as [|? [|? [|? [|? [|? [|]]]]]]; try done; injection Hm as <-; (split; [done|]);
    eexists; (eapply light_set_sends;
      [exact Ht | exact Hi | first [by apply Hr | apply ctl_accepts | apply percent_accepts]
      | reflexivity | done | by repeat constructor | | done]);
    by autorewrite with message.
Qed.

(** The percentage is not checked.  The test of [cmd_set] in the level and the
    lightness client asks for a value below 0 and above 100 at once: any value is
    sent, truncated to 16 bits, with the transition time 0xff and the delay 0x33
    that stand for parameters that were not given. *)
Theorem percentage_unchecked fuel arg v w : targeted LIGHTNESS w -> typed arg v ->
  exists ps, lightness_set fuel [arg] w =
    light_send fuel LIGHTNESS
      (opcode_bytes OP_LIGHTNESS_SET ++ le16 v ++ [u8 (cv_trans_id (vars_of LIGHTNESS w)); 0xff; 0x33])
      (with_vars LIGHTNESS (sent ps (vars_of LIGHTNESS w)) w).
Proof.
  intros Ht Ha. pose proof (light_input_typed [arg] [v] (cv_parms (vars_of LIGHTNESS w))) as Hi.
  eexists. eapply light_set_sends; [exact Ht | apply Hi; [constructor; [exact Ha | constructor] | cbn; lia]
    | apply percent_accepts | reflexivity | done | by repeat constructor | | done].
  by autorewrite with message.
Qed.

(** The time client sends the same message whatever the user types.  Its loop
    over the words names [parms\[i\]] without scanning the word, so every parameter
    is 0xffffffff: the time, the transition time 0xff and the delay 0x33. *)
Theorem time_ignores_words fuel c arg args w : targeted TIME w ->
  exists ps, time_set fuel ((c :: arg) :: args) w =
    light_send fuel TIME ([OP_TIME_SET] ++ rep 6 0xff ++ [u8 (cv_trans_id (vars_of TIME w)); 0xff; 0x33])
      (with_vars TIME (sent ps (vars_of TIME w)) w).
Proof. apply time_set_run. Qed.

(** The target of a light command round-trips.  An address written with four
    hexadecimal digits, as the program prints it, is the target the client sends to
    from then on; nothing else changes. *)
Theorem target_roundtrip (l : light) a w : is_u16 a ->
  light_set_node l (digits 16 4 a) w = Ok (true, with_vars l (set_cv_target a (vars_of l w)) w).
Proof.
  intros Ha. unfold light_set_node. rewrite strtol_digits by lia. cbn [Z.eqb Pos.eqb negb Z.of_nat Pos.of_succ_nat Pos.succ].
  apply wp_bind_eq, mod_vars_wp. by rewrite u32_small by lia.
Qed.

(** ** Commands are safe, and the variables keep their types *)

Record vars_wf (v : client_vars) : Prop := {
  vars_app_idx : is_u16 (cv_app_idx v);
  vars_trans_id : is_u8 (cv_trans_id v);
  vars_target : is_u32 (cv_target v);
  vars_parms : length (cv_parms v) = 8%nat /\ Forall (fun p => is_u32 p) (cv_parms v);
}.
Definition lights_wf w : Prop := ∀ l, vars_wf (vars_of l w).

Lemma lights_with l v w : lights_wf w -> vars_wf v -> lights_wf (with_vars l v w).
Proof.
  intros Hw Hv l'. destruct (decide (l = l')) as [<-|Hne]; [by rewrite vars_with|].
  change (vars_wf (get_light l' (set_light l v (light_vars (ns_statics (w_nodes w)))))).
  rewrite get_set_light_ne by done. apply Hw.
Qed.

Lemma ready_with l v w : tx_ready w -> nodes_wf w -> tx_ready (with_vars l v w) /\ nodes_wf (with_vars l v w).
Proof.
  intros [[] _ Hv Ht] Hw. destruct (with_vars_keeps l v w Hw) as [Hw' _].
  split; [|done]. split; [by constructor | by apply store_nodes_ok | done | done].
Qed.

Lemma parm_u32 ps i : Forall (fun p => is_u32 p) ps -> is_u32 (parm ps i).
Proof.
  intros H. unfold parm. rewrite nth_lookup. destruct (ps !! i) as [p|] eqn:E; cbn; [|lia].
  by apply (Forall_lookup_1 _ _ _ _ H E).
Qed.

Definition parms_ok (ps : list Z) : Prop := length ps = 8%nat /\ Forall (fun p => is_u32 p) ps.
Lemma parms_insert ps i v : parms_ok ps -> is_u32 v -> parms_ok (<[i := v]> ps).
Proof. intros [Hl Hp] Hv. split; [by rewrite length_insert | by apply Forall_insert]. Qed.
Lemma parms_quotient ps i : parms_ok ps -> is_u32 (parm ps i / 5).
Proof. intros [_ Hp]. pose proof (parm_u32 ps i Hp). zlia. Qed.

Lemma scan_int_u32 arg v : scan_int arg = Some v -> is_u32 v.
Proof. unfold scan_int. repeat case_goal; try done. intros [= <-]. apply u32_range. Qed.

Lemma input_loop_ok scan n i args ps : (∀ a v, scan a = Some v -> is_u32 v) -> parms_ok ps ->
  parms_ok (input_loop scan n i args ps).2.
Proof.
  intros Hs. revert i args ps. induction n as [|n IH]; intros i args ps Hp; [done|].
  destruct args as [|a args]; [done|]. cbn [input_loop].
  assert (Hp' : parms_ok (match scan a with Some v => <[i := v]> ps | None => ps end)).
  { destruct (scan a) eqn:E; [|done]. apply parms_insert; [done | by eapply Hs]. }
  case_goal; [done | by apply IH].
Qed.

Lemma light_input_ok scan args ps : (∀ a v, scan a = Some v -> is_u32 v) -> parms_ok ps ->
  parms_ok (light_input scan args ps).2.
Proof.
  intros Hs Hp. unfold light_input. destruct args as [|[|c a] args]; [done..|].
  apply input_loop_ok; [done|]. split; [done|]. by repeat constructor.
Qed.
End Facts.

Section Safety.
Context {A : Alg} {AO : AlgOk A} {AT : AlgTotal A}.
Implicit Types w : world node_store.

(** What a command leaves. *)
Record typed_post w' : Prop := {
  post_inv : tx_inv w';
  post_store : nodes_wf w';
  post_types : lights_wf w';
}.
Definition ready fuel w : Prop :=
  tx_ready w /\ nodes_wf w /\ lights_wf w /\ (2 * active (msg_out (w_net w)) + 2 <= fuel)%nat.

Lemma ready_post fuel w : ready fuel w -> typed_post w.
Proof. intros ([] & ? & ? & _). by split. Qed.
Lemma ready_vars fuel l v w : ready fuel w -> vars_wf v -> ready fuel (with_vars l v w).
Proof.
  intros (Ht & Hn & Hl & Hf) Hv. destruct (ready_with l v w Ht Hn). split_and!; try done. by apply lights_with.
Qed.

Lemma light_target_ok l fuel w (Q : bool -> world node_store -> Prop) :
  ready fuel w -> (∀ r, Q r w) -> wp (light_target l) Q w.
Proof.
  intros (_ & [Hv _ _ _ _] & _) HQ. unfold light_target. wp_step. apply vars_wp. case_goal; [by wp_step|].
  assert (Ho : exists o, find_by_addr (w_nodes w) (u16 (cv_target (vars_of l w))) = Ok o).
  { unfold find_by_addr, all_nodes. rewrite Hv. destruct (IS_UNICAST _); by eexists. }
  destruct Ho as [o Ho]. unfold node_by_addr, store. do 3 wp_step. eapply wp_lift; [exact Ho|]. by wp_run.
Qed.

Lemma light_send_ok l fuel buf w : ready fuel w -> 1 <= len buf <= 255 ->
  wp (light_send fuel l buf) (fun _ => typed_post) w.
Proof.
  intros Hr Hb. pose proof Hr as (Ht & Hn & Hl & Hf). pose proof (ready_post _ _ Hr) as Hp.
  unfold light_send, local_node, store. do 3 wp_step.
  destruct (ns_local (w_nodes w)) as [lid|] eqn:E; [|by wp_step].
  pose proof Hn as [Hv _ _ _ Hloc]. destruct (Hloc _ E) as (n & Hfind & _).
  unfold node_get_default_ttl, nonnull, node_is_local, store, net_get_default_ttl, net_of. do 4 wp_step.
  rewrite E, bool_decide_eq_true_2 by done. wp_run. unfold node_primary, nonnull.
  eapply node_deref_wp; [done | exact Hfind|]. do 2 wp_step. apply vars_wp.
  destruct (Hl l) as [_ _ Htg _]. pose proof (ready_ttl _ Ht).
  eapply wp_mono; [apply access_send_wp; [done | done | by left | lia | done]|].
  cbn beta. intros _ w' (Hi & _ & Hnn & _). split; [done | unfold nodes_wf; by rewrite Hnn |].
  intros l'. unfold vars_of. rewrite Hnn. apply Hl.
Qed.

Lemma light_get_ok l fuel op w : config_opcode op = true -> ready fuel w ->
  wp (light_get fuel l op) (fun _ => typed_post) w.
Proof.
  intros Hop Hr. unfold light_get. wp_step. eapply light_target_ok; [exact Hr|].
  intros []; [|by wp_step; eapply ready_post]. cbn [negb]. wp_step.
  pose proof (opcode_bytes_len op) as Hlen.
  eapply wp_lift.
  { apply build_msg_eq; [done | done | constructor | change (len (fields_bytes [])) with 0; lia]. }
  apply light_send_ok; [done|]. rewrite app_nil_r. lia.
Qed.

Lemma light_set_ok l fuel op scan refused fields args w : config_opcode op = true ->
  (∀ a v, scan a = Some v -> is_u32 v) ->
  (∀ tid ps, parms_ok ps -> Forall field_ok (fields tid ps).1 /\ len (fields_bytes (fields tid ps).1) <= 30 /\
     parms_ok (fields tid ps).2) -> ready fuel w ->
  wp (light_set fuel l op scan refused fields args) (fun _ => typed_post) w.
Proof.
  intros Hop Hs Hfs Hr. pose proof Hr as (_ & _ & Hl & _). destruct (Hl l) as [Ha Hid Htg Hps].
  unfold light_set. wp_step. eapply light_target_ok; [exact Hr|].
  intros []; [|by wp_step; eapply ready_post]. cbn [negb]. wp_step. apply vars_wp.
  pose proof (light_input_ok scan args _ Hs Hps) as Hin.
  destruct (light_input _ _ _) as [n ps]. cbn [snd] in Hin. wp_step. apply mod_vars_wp.
  case_goal; [by wp_step; eapply ready_post, ready_vars|].
  destruct (Hfs (cv_trans_id (vars_of l w)) ps Hin) as (Hok & Hfit & Hps').
  destruct (fields _ ps) as [fs ps']. cbn [fst snd] in *. wp_step. apply mod_vars_wp. wp_step.
  pose proof (opcode_bytes_len op) as Hlen.
  autorewrite with light. eapply wp_lift; [apply build_msg_eq; [done | done | done | lia]|].
  apply light_send_ok; [|rewrite len_app; pose proof (len_nonneg (fields_bytes fs)); lia].
  apply ready_vars; [done|]. split; try done. apply u8_range.
Qed.

Lemma hsl_fields_ok tid ps : parms_ok ps -> Forall field_ok (hsl_fields tid ps).1 /\
  len (fields_bytes (hsl_fields tid ps).1) <= 30 /\ parms_ok (hsl_fields tid ps).2.
Proof.
  intros Hp. split; [by repeat constructor | split; [by cbn [hsl_fields fst]; autorewrite with message |]].
  apply parms_insert, parms_quotient; done.
Qed.
Lemma percent_fields_ok tid ps : parms_ok ps -> Forall field_ok (percent_fields tid ps).1 /\
  len (fields_bytes (percent_fields tid ps).1) <= 30 /\ parms_ok (percent_fields tid ps).2.
Proof.
  intros Hp. split; [by repeat constructor | split; [by cbn [percent_fields fst]; autorewrite with message |]].
  apply parms_insert, parms_quotient; done.
Qed.
Lemma ctl_fields_ok tid ps : parms_ok ps -> Forall field_ok (ctl_fields tid ps).1 /\
  len (fields_bytes (ctl_fields tid ps).1) <= 30 /\ parms_ok (ctl_fields tid ps).2.
Proof.
  intros Hp. split; [by repeat constructor | split; [by cbn [ctl_fields fst]; autorewrite with message |]].
  assert (Hp1 : parms_ok (<[1%nat := 0]> ps)) by by apply parms_insert.
  apply parms_insert, parms_quotient; done.
Qed.

(** The operations of a client model. *)
Inductive light_op :=
| BindOp (app_idx action : Z) | RecvOp (data : list Z) (len : Z) | TargetOp (word : list Z)
| GetOp | SetOp (args : list (list Z)).

Definition run_light (l : light) (fuel : nat) (op : light_op) : NM unit :=
  match op with
  | BindOp app_idx action => _ ← light_bind l app_idx action; mret tt
  | RecvOp data len => _ ← light_recv l data len; mret tt
  | TargetOp word => _ ← light_set_node l word; mret tt
  | GetOp =>
      _ ← (match l with
           | HSL => hsl_get_status fuel | CTL => ctl_get_status fuel | LEVEL => level_get_status fuel
           | LIGHTNESS => lightness_get_status fuel | TIME => time_get_status fuel
           end); mret tt
  | SetOp args => _ ← light_command l fuel args; mret tt
  end.
Definition light_op_ok (op : light_op) : Prop :=
  match op with
  | BindOp app_idx _ => is_u16 app_idx
  | RecvOp data l => 0 <= l <= len data
  | _ => True
  end.

Lemma light_command_ok l fuel args w : ready fuel w -> wp (light_command l fuel args) (fun _ => typed_post) w.
Proof.
  intros Hr. destruct l; (apply light_set_ok; [done | | | done]);
    first [exact scan_int_u32 | exact hsl_fields_ok | exact ctl_fields_ok | exact percent_fields_ok | done].
Qed.

(** C18: the client models are type-safe.  From a well-formed state, every operation
    of every model - a binding, an incoming message of any content, the choice of a
    target, a query, a command with any words - returns without touching memory
    outside an object, and the static variables keep their types: indexes of 16
    bits, a transaction identifier of 8, a target and eight parameters of 32. *)
Theorem light_ops_typed (l : light) fuel op w : ready fuel w -> light_op_ok op ->
  exists w', run_light l fuel op w = Ok (tt, w') /\ typed_post w'.
Proof.
  intros Hr Hok. assert (H : wp (run_light l fuel op) (fun _ => typed_post) w).
  { pose proof (ready_post _ _ Hr) as Hp. pose proof Hr as (_ & _ & Hl & _). destruct (Hl l) as [Ha Hid Htg Hps].
    destruct op as [app_idx action|data len_|word| |args]; cbn [run_light light_op_ok] in *; wp_step.
    - apply light_bind_wp; [by intros; wp_step|]. intros r i Hi. wp_step.
      eapply ready_post, ready_vars; [exact Hr|]. split; try done. cbn. destruct Hi as [->| ->]; done.
    - apply light_recv_wp; [done|]. intros. by wp_step.
    - unfold light_set_node. destruct (strtol 16 word) as [dst n]. case_goal; wp_step; apply mod_vars_wp; wp_run;
        eapply ready_post, ready_vars; try exact Hr; split; try done; apply u32_range.
    - eapply wp_mono; [|intros ? ? H; wp_step; exact H]. by destruct l; apply light_get_ok.
    - eapply wp_mono; [by apply light_command_ok|]. intros ? ? H. by wp_step. }
  unfold wp in H. destruct (run_light _ _ _ _) as [[[] w']|]; [|done]. by exists w'.
Qed.
End Safety.

(** ** Witnesses *)

Definition demo_vars : client_vars := ClientVars 1 7 0x100 (rep 8 0).
Definition demo_lit (l : light) : world node_store := with_vars l demo_vars demo_nodes.

Lemma demo_targeted l : targeted l (demo_lit l).
Proof. unfold targeted, demo_lit. rewrite vars_with. split; [done|]. exists demo_remote. by vm_compute. Qed.

Lemma demo_light_ready l : ready (A := toy_alg) 2 (demo_lit l).
Proof.
  assert (Ht : tx_ready (A := toy_alg) demo_nodes).
  { split; [split; [apply demo_keys_wf | simpl; done || constructor..] | apply store_nodes_ok, demo_store_wf
      | constructor | done]. }
  destruct (ready_with (A := toy_alg) l demo_vars demo_nodes Ht demo_store_wf) as [Ht' Hn'].
  assert (Hp : length (rep 8 0) = 8%nat /\ Forall (fun p => is_u32 p) (rep 8 0)) by (split; [done | by repeat constructor]).
  split_and!; [exact Ht' | exact Hn' | | done]. apply lights_with; [|by split].
  intros l'. by destruct l'; split.
Qed.

Lemma light_command_message_witness :
  let msg := opcode_bytes OP_LIGHT_HSL_SET ++ le16 50 ++ le16 300 ++ le16 90 ++ [u8 7; u8 10; u8 (100 / 5)] in
  len msg <= 11 /\
  exists ps, light_command (A := toy_alg) HSL 2 (digits 10 3 <$> [300; 90; 50; 10; 100]) (demo_lit HSL) =
    light_send (A := toy_alg) 2 HSL msg (with_vars HSL (sent ps (vars_of HSL (demo_lit HSL))) (demo_lit HSL)).
Proof.
  apply (light_command_message (A := toy_alg) HSL 2 (digits 10 3 <$> [300; 90; 50; 10; 100]) [300; 90; 50; 10; 100]);
    [apply demo_targeted | | reflexivity | by intros; vm_compute].
  cbn [fmap list_fmap]. repeat (constructor; [by apply typed_digits|]). constructor.
Defined.

Lemma percentage_unchecked_witness :
  exists ps, lightness_set (A := toy_alg) 2 [digits 10 5 70000] (demo_lit LIGHTNESS) =
    light_send (A := toy_alg) 2 LIGHTNESS
      (opcode_bytes OP_LIGHTNESS_SET ++ le16 70000 ++
        [u8 (cv_trans_id (vars_of LIGHTNESS (demo_lit LIGHTNESS))); 0xff; 0x33])
      (with_vars LIGHTNESS (sent ps (vars_of LIGHTNESS (demo_lit LIGHTNESS))) (demo_lit LIGHTNESS)).
Proof.
  apply (percentage_unchecked (A := toy_alg) 2 (digits 10 5 70000) 70000);
    [apply demo_targeted | by apply typed_digits].
Defined.

Lemma time_ignores_words_witness :
  exists ps, time_set (A := toy_alg) 2 [[49; 50]; [51]] (demo_lit TIME) =
    light_send (A := toy_alg) 2 TIME
      ([OP_TIME_SET] ++ rep 6 0xff ++ [u8 (cv_trans_id (vars_of TIME (demo_lit TIME))); 0xff; 0x33])
      (with_vars TIME (sent ps (vars_of TIME (demo_lit TIME))) (demo_lit TIME)).
Proof. apply (time_ignores_words (A := toy_alg) 2 49 [50] [[51]]), demo_targeted. Defined.

Lemma target_roundtrip_witness :
  light_set_node CTL (digits 16 4 0x1b0) (demo_lit CTL) =
  Ok (true, with_vars CTL (set_cv_target 0x1b0 (vars_of CTL (demo_lit CTL))) (demo_lit CTL)).
Proof. apply (target_roundtrip CTL 0x1b0); lia. Defined.

Lemma light_ops_typed_witness :
  exists w', run_light (A := toy_alg) CTL 2 (SetOp [[56]; [45; 55]]) (demo_lit CTL) = Ok (tt, w') /\
    typed_post (A := toy_alg) w'.
Proof. apply (light_ops_typed (A := toy_alg) CTL 2); [apply demo_light_ready | done]. Defined.
