(* ===== verification/Json.v ===== *)
(** * JSON documents

    What [src/blueZ/mesh/prov-db.c] takes from json-c: values, access to their
    members, and the numbers, strings and keys it writes and reads.  A [json_object *]
    into a document is the path to it; NULL is [None], as is the value [null].  The
    printed text, the parser and what the library makes of a value of another type
    are a parameter, [JsonC], with its documented behaviour as laws. *)

From Stdlib Require Import Ascii String.
From stdpp Require Import base strings.
From S2P Require Import Prelude Bytes Util Words.

Open Scope string_scope.
Open Scope list_scope.
Open Scope Z_scope.

(** ** Documents

    The values of JSON.  A number that is no integer is kept as it is written. *)
Unset Elimination Schemes.
Inductive json :=
| JNull
| JBool (b : bool)
| JInt (n : Z)
| JDouble (text : list Z)
| JString (s : list Z)
| JArray (l : list json)
| JObject (l : list (string * json)).
Set Elimination Schemes.

(** The library: [json_tokener_parse], [None] where it returns NULL;
    [json_object_to_json_string_ext]; [json_object_get_string] of a value that is
    no string; [json_object_get_int] and [json_object_get_boolean] of strings and
    doubles. *)
Class JsonC := {
  json_tokener_parse : list Z -> option json;
  json_to_string : json -> list Z;
  json_text : json -> list Z;
  json_string_int : list Z -> Z;
  json_double_int : list Z -> Z;
  json_double_true : list Z -> bool;
}.

(** *** Access

    [json_object_object_get_ex] finds nothing in what is no object. *)
Definition ptr (j : json) : option json := match j with JNull => None | _ => Some j end.
Definition has_key (k : string) (x : string * json) : bool := bool_decide (x.1 = k).
Definition object_get (o : option json) (k : string) : option json :=
  match o with
  | Some (JObject l) => x ← find_first (has_key k) l; ptr x.2
  | _ => None
  end.

(** What an array holds: [json_object_array_length] and
    [json_object_array_get_idx] for every index below it. *)
Definition array_items (a : option json) : res (list (option json)) :=
  match a with
  | None => Fault NullDeref
  | Some (JArray l) => Ok (ptr <$> l)
  | Some _ => Fault WrongType
  end.
Definition array_get (a : option json) (i : Z) : res (option json) :=
  l ← array_items a; mret (l !! Z.to_nat i ≫= id).

(** [json_object_object_add]: a key that is there keeps its place. *)
Definition put_key (k : string) (v : json) (l : list (string * json)) : list (string * json) :=
  if existsb (has_key k) l then update_first (has_key k) (fun _ => (k, v)) l else l ++ [(k, v)].
Definition object_add (k : string) (v : json) (o : json) : res json :=
  match o with JObject l => Ok (JObject (put_key k v l)) | _ => Fault WrongType end.
Definition object_del (k : string) (o : json) : res json :=
  match o with JObject l => Ok (JObject (remove_first (has_key k) l)) | _ => Fault WrongType end.
Definition array_add (v : json) (a : json) : res json :=
  match a with JArray l => Ok (JArray (l ++ [v])) | _ => Fault WrongType end.

(** *** Pointers into a document *)
Inductive pstep := Key (k : string) | Idx (i : nat).

Definition at_step (st : pstep) (j : json) : option json :=
  match st, j with
  | Key k, JObject l => snd <$> find_first (has_key k) l
  | Idx i, JArray l => l !! i
  | _, _ => None
  end.
Fixpoint at_path (p : list pstep) (j : json) : option json :=
  match p with [] => ptr j | st :: p' => j' ← at_step st j; at_path p' j' end.

Definition set_step (st : pstep) (v : json) (j : json) : json :=
  match st, j with
  | Key k, JObject l => JObject (update_first (has_key k) (fun _ => (k, v)) l)
  | Idx i, JArray l => JArray (<[i := v]> l)
  | _, _ => j
  end.
(** Changes the object that a pointer means. *)
Fixpoint mod_path (p : list pstep) (f : json -> res json) (j : json) : res json :=
  match p with
  | [] => match j with JNull => Fault NullDeref | _ => f j end
  | st :: p' =>
      match at_step st j with
      | None => Fault NullDeref
      | Some j' => v ← mod_path p' f j'; mret (set_step st v j)
      end
  end.

(** ** Values *)

Definition int_max : Z := 0x7fffffff.
Definition clamp_int (v : Z) : Z := Z.max (- int_max - 1) (Z.min int_max v).

Section Values.
Context {J : JsonC}.

Definition get_int (v : option json) : Z :=
  match v with
  | Some (JInt n) => clamp_int n
  | Some (JBool b) => b2z b
  | Some (JString s) => json_string_int (c_string s)
  | Some (JDouble t) => json_double_int t
  | _ => 0
  end.
Definition get_boolean (v : option json) : bool :=
  match v with
  | Some (JBool b) => b
  | Some (JInt n) => truth n
  | Some (JDouble t) => json_double_true t
  | Some (JString s) => truth (len s)
  | _ => false
  end.
(** [None] for NULL. *)
Definition get_string (v : option json) : option (list Z) :=
  match v with
  | None => None
  | Some (JString s) => Some (c_string s)
  | Some j => Some (c_string (json_text j))
  end.
(** The string is read without a test for NULL. *)
Definition the_string (v : option json) : res (list Z) := of_option NullDeref (get_string v).

(** [sscanf] with [%0nx]: white space, then at most [n] characters, a sign and a
    prefix among them. *)
Definition scan_x (n : nat) (s : list Z) : option Z :=
  let t := take n (skip_spaces s) in
  let digits := drop (Z.to_nat (sign_len t)) t in
  let prefixed := match digits with z :: x :: _ => (z =? 48) && ((x =? 120) || (x =? 88)) | _ => false end in
  let '(v, cnt) := scan_digits 16 (if prefixed then drop 2 digits else digits) 0 0 in
  if cnt =? 0 then None else Some (if is_negative t then - v else v).
Definition scan_u16 (v : option json) : res (option Z) := s ← the_string v; mret (u16 <$> scan_x 4 s).

(** A model identifier: four or eight digits. *)
Definition scan_model_id (v : option json) : res (option Z) :=
  s ← the_string v;
  if negb (len s =? 4) && negb (len s =? 8) then mret None else
  mret (match scan_x 8 s with
        | None => None
        | Some id => Some (if len s =? 4 then u32 (u32 id + 0xffff0000) else u32 id)
        end).

(** [snprintf] with [%4.4x] and [%8.8x]. *)
Definition hex_u16 (v : Z) : json := JString (digits 16 4 (u16 v)).
Definition hex_u32 (v : Z) : json := JString (digits 16 8 (u32 v)).
Definition put_uint16 (desc : string) (v : Z) (o : json) : res json := object_add desc (hex_u16 v) o.
Definition put_uint32 (desc : string) (v : Z) (o : json) : res json := object_add desc (hex_u32 v) o.
Definition put_uint16_array_entry (v : Z) (a : json) : res json := array_add (hex_u16 v) a.
Definition put_uint32_array_entry (v : Z) (a : json) : res json := array_add (hex_u32 v) a.
Definition put_uint16_list (l : list Z) (a : json) : res json := foldM put_uint16_array_entry l a.
Definition add_node_idxs (desc : string) (idxs : list Z) (o : json) : res json :=
  a ← put_uint16_list idxs (JArray []); object_add desc a o.
Definition new_int (v : Z) : json := JInt (s32 v).
Definition add_key (desc : string) (key : list Z) (o : json) : res json :=
  '(_, hexstr) ← hex2str key 16 (rep 33 0) 33; object_add desc (JString (c_string hexstr)) o.

(** The octets of a key as [str2hex] leaves them in [key], and its result. *)
Definition read_hex_key (s key : list Z) : bool * list Z :=
  if u16 (len s) <? 32 then (false, key) else
  let '(w, ok) := hex_written 16 s in (ok, w ++ drop (length w) key).
End Values.

(** ** Documents that survive being written

    At most [d] levels, no fractions, integers of 64 bits, no octet 0 in a string
    and no key twice in an object. *)
Definition plain_text (s : list Z) : bool := forallb (fun c => (0 <? c) && (c <? 128)) s.
Definition key_codes (k : string) : list Z := (fun c => Z.of_nat (nat_of_ascii c)) <$> list_ascii_of_string k.
Definition keys_ok (l : list (string * json)) : bool :=
  bool_decide (NoDup l.*1) && forallb (fun x => plain_text (key_codes x.1)) l.
Fixpoint json_ok (d : nat) (j : json) : bool :=
  match d with
  | O => false
  | S d' =>
      match j with
      | JNull | JBool _ => true
      | JInt n => (- 2 ^ 63 <=? n) && (n <? 2 ^ 63)
      | JDouble _ => false
      | JString s => plain_text s
      | JArray l => forallb (json_ok d') l
      | JObject l => keys_ok l && forallb (fun x => json_ok d' x.2) l
      end
  end.
(** The depth that the parser takes by default. *)
Definition max_depth : nat := 32.

(** What is documented of json-c: such a document is read back, and a string of
    digits is an integer. *)
Class JsonLaws (J : JsonC) : Prop := {
  parse_print j : json_ok max_depth j = true -> j <> JNull ->
    json_tokener_parse (json_to_string j) = Some j;
  string_int_decimal s : s <> [] -> forallb is_digit s = true -> digits_value s 0 <= int_max ->
    json_string_int s = digits_value s 0;
}.

(** ** A concrete library

    Not JSON, but a notation with the same laws: a tag and a count before each
    value. *)
Definition toy_key (k : string) : list Z := Z.of_nat (String.length k) :: key_codes k.
Fixpoint toy_print (j : json) : list Z :=
  match j with
  | JNull => [0]
  | JBool b => [1; b2z b]
  | JInt n => [2; n]
  | JDouble t => 3 :: len t :: t
  | JString s => 4 :: len s :: s
  | JArray l => 5 :: Z.of_nat (length l) :: concat (map toy_print l)
  | JObject l => 6 :: Z.of_nat (length l) :: concat (map (fun x => toy_key x.1 ++ toy_print x.2) l)
  end.

Definition toy_read_key (s : list Z) : option (string * list Z) :=
  match s with
  | [] => None
  | n :: r => Some (string_of_list_ascii ((fun c => ascii_of_nat (Z.to_nat c)) <$> take (Z.to_nat n) r),
                    drop (Z.to_nat n) r)
  end.
Section Toy.
Context (parse : list Z -> option (json * list Z)).
Fixpoint toy_items (n : nat) (s : list Z) : option (list json * list Z) :=
  match n with
  | O => Some ([], s)
  | S n' => '(j, r) ← parse s; '(l, r) ← toy_items n' r; Some (j :: l, r)
  end.
Fixpoint toy_members (n : nat) (s : list Z) : option (list (string * json) * list Z) :=
  match n with
  | O => Some ([], s)
  | S n' => '(k, r) ← toy_read_key s; '(j, r) ← parse r; '(l, r) ← toy_members n' r; Some ((k, j) :: l, r)
  end.
End Toy.
Fixpoint toy_parse (d : nat) (s : list Z) : option (json * list Z) :=
  match d with
  | O => None
  | S d' =>
      match s with
      | 0 :: r => Some (JNull, r)
      | 1 :: b :: r => Some (JBool (truth b), r)
      | 2 :: n :: r => Some (JInt n, r)
      | 3 :: n :: r => Some (JDouble (take (Z.to_nat n) r), drop (Z.to_nat n) r)
      | 4 :: n :: r => Some (JString (take (Z.to_nat n) r), drop (Z.to_nat n) r)
      | 5 :: n :: r => '(l, r) ← toy_items (toy_parse d') (Z.to_nat n) r; Some (JArray l, r)
      | 6 :: n :: r => '(l, r) ← toy_members (toy_parse d') (Z.to_nat n) r; Some (JObject l, r)
      | _ => None
      end
  end.

#[export] Instance toy_json : JsonC := {
  json_tokener_parse s := '(j, _) ← toy_parse max_depth s; ptr j;
  json_to_string := toy_print;
  json_text := toy_print;
  json_string_int s := if forallb is_digit s && (digits_value s 0 <=? int_max) then digits_value s 0 else 0;
  json_double_int _ := 0;
  json_double_true _ := false;
}.

Lemma toy_read_key_ok k r : toy_read_key (toy_key k ++ r) = Some (k, r).
Proof.
  unfold toy_read_key, toy_key. cbn [app]. rewrite Nat2Z.id.
  assert (Hl : length (key_codes k) = String.length k).
  { unfold key_codes. rewrite length_fmap. induction k; cbn; congruence. }
  rewrite take_app_length', drop_app_length' by done. do 2 f_equal.
  unfold key_codes. rewrite <-list_fmap_compose. rewrite (list_fmap_ext _ id).
  - rewrite list_fmap_id. apply string_of_list_ascii_of_string.
  - intros i c _. unfold compose. by rewrite Nat2Z.id, ascii_nat_embedding.
Qed.

Lemma toy_parse_print d j r : json_ok d j = true -> toy_parse d (toy_print j ++ r) = Some (j, r).
Proof.
  revert j r. induction d as [|d IH]; intros j r; [done|].
  destruct j as [| b | n | t | s | l | l]; cbn [json_ok toy_print toy_parse app]; intros Hj; try done.
  - by destruct b.
  - unfold len. rewrite Nat2Z.id. by rewrite take_app_length, drop_app_length.
  - rewrite Nat2Z.id. assert (H : toy_items (toy_parse d) (length l) (concat (map toy_print l) ++ r) = Some (l, r)).
    { induction l as [|x l IHl]; [done|]. cbn [length map concat toy_items forallb] in *.
      apply andb_true_iff in Hj as [Hx Hl]. rewrite <-app_assoc, IH by done. cbn [mbind option_bind].
      by rewrite IHl. }
    by rewrite H.
  - rewrite Nat2Z.id. apply andb_true_iff in Hj as [_ Hj].
    assert (H : toy_members (toy_parse d) (length l)
      (concat (map (fun x => toy_key x.1 ++ toy_print x.2) l) ++ r) = Some (l, r)).
    { induction l as [|[k x] l IHl]; [done|]. cbn [length map concat toy_members forallb fst snd] in *.
      apply andb_true_iff in Hj as [Hx Hl]. rewrite <-!app_assoc, toy_read_key_ok. cbn [mbind option_bind].
      rewrite IH by done. cbn [mbind option_bind]. by rewrite IHl. }
    by rewrite H.
Qed.

#[export] Instance toy_json_laws : JsonLaws toy_json.
Proof.
  split.
  - intros j Hj Hn. cbn [json_tokener_parse toy_json json_to_string]. rewrite <-(app_nil_r (toy_print j)).
    rewrite toy_parse_print by done. by destruct j.
  - intros s _ Hd Hv. cbn [json_string_int toy_json]. rewrite Hd. by rewrite (proj2 (Z.leb_le _ _)) by done.
Qed.
