(* ===== verification/JsonFacts.v ===== *)
(** * Documents and their shapes

    How access and change of a JSON document go together, shapes of documents with
    the changes that keep them, and the numbers that are written and read back. *)

From stdpp Require Import base strings.
From S2P Require Import Prelude Bytes Util Words Json.

Open Scope string_scope.
Open Scope list_scope.
Open Scope Z_scope.

(** ** Members *)

Lemma has_key_true k x : has_key k x = true <-> x.1 = k.
Proof. unfold has_key. by rewrite bool_decide_eq_true. Qed.

Lemma find_put k k' v l :
  find_first (has_key k') (put_key k v l) =
  if decide (k = k') then Some (k, v) else find_first (has_key k') l.
Proof.
  unfold put_key. destruct (existsb (has_key k) l) eqn:E.
  - rewrite existsb_find_first in E. destruct (find_first (has_key k) l) as [x|] eqn:Ef; [|done].
    unfold find_first in *. revert Ef. clear E. induction l as [|y l IH]; [done|]. cbn [find update_first].
    destruct (has_key k y) eqn:Ey; cbn [find].
    + intros _. apply has_key_true in Ey. destruct (decide (k = k')) as [-> | Hn].
      * by rewrite (proj2 (has_key_true k' (k', v)) eq_refl).
      * assert (H : ∀ z, z.1 = k -> has_key k' z = false).
        { intros z <-. apply not_true_iff_false. rewrite has_key_true. congruence. }
        by rewrite (H (k, v)), (H y) by done.
    + intros Hf. destruct (has_key k' y) eqn:Ey'; [|by apply IH].
      apply has_key_true in Ey'. apply not_true_iff_false in Ey. rewrite has_key_true in Ey.
      destruct (decide (k = k')); [congruence | done].
  - rewrite existsb_find_first in E. rewrite find_first_app.
    destruct (find_first (has_key k) l) as [x|] eqn:Ef; [done|]. destruct (decide (k = k')) as [-> | Hn].
    + rewrite Ef. unfold find_first. cbn [find]. by rewrite (proj2 (has_key_true k' (k', v)) eq_refl).
    + unfold find_first. cbn [find]. destruct (has_key k' (k, v)) eqn:Ek; [by apply has_key_true in Ek|].
      by destruct (find _ l).
Qed.

Lemma object_get_put k k' v l : object_get (Some (JObject (put_key k v l))) k' =
  if decide (k = k') then ptr v else object_get (Some (JObject l)) k'.
Proof. cbn [object_get]. rewrite find_put. by destruct (decide (k = k')). Qed.

Lemma put_key_keys k v l : (put_key k v l).*1 = if existsb (has_key k) l then l.*1 else l.*1 ++ [k].
Proof.
  unfold put_key. destruct (existsb (has_key k) l) eqn:E; [|by rewrite fmap_app].
  clear E. induction l as [|x l IH]; [done|]. cbn [update_first].
  destruct (has_key k x) eqn:Ex; rewrite !fmap_cons; [|by rewrite IH].
  apply has_key_true in Ex. by rewrite Ex.
Qed.

Lemma put_key_elem k v l x : x ∈ put_key k v l -> x = (k, v) \/ x ∈ l.
Proof.
  unfold put_key. case_goal; [|rewrite elem_of_app, list_elem_of_singleton; tauto].
  clear Heqb. induction l as [|y l IH]; [by right|]. cbn [update_first].
  destruct (has_key k y); rewrite !elem_of_cons; intros [-> | Hx]; auto. destruct (IH Hx); auto.
Qed.

Lemma existsb_has_key k l : existsb (has_key k) l = true <-> k ∈ l.*1.
Proof.
  rewrite existsb_exists. split.
  - intros (x & Hx & Hk). apply has_key_true in Hk as <-. apply list_elem_of_fmap_2. by apply list_elem_of_In.
  - intros (x & -> & Hx)%list_elem_of_fmap. exists x. split; [by apply list_elem_of_In | by apply has_key_true].
Qed.

Lemma find_del k k' l : NoDup l.*1 -> find_first (has_key k') (remove_first (has_key k) l) =
  if decide (k = k') then None else find_first (has_key k') l.
Proof.
  intros Hnd. destruct (decide (k = k')) as [-> | Hn].
  - induction l as [|x l IH]; [done|]. rewrite fmap_cons, NoDup_cons in Hnd. destruct Hnd as [Hx Hnd].
    cbn [remove_first]. destruct (has_key k' x) eqn:Ex.
    + apply find_first_none, Forall_forall. intros y Hy. apply not_true_iff_false.
      rewrite has_key_true. intros E. apply has_key_true in Ex. apply Hx. rewrite Ex, <-E.
      by apply list_elem_of_fmap_2.
    + unfold find_first in *. cbn [find]. rewrite Ex. by apply IH.
  - apply find_remove_first_other. intros y Hy%has_key_true. apply not_true_iff_false. rewrite has_key_true. congruence.
Qed.

Lemma object_get_del k k' l : NoDup l.*1 -> object_get (Some (JObject (remove_first (has_key k) l))) k' =
  if decide (k = k') then None else object_get (Some (JObject l)) k'.
Proof. intros Hl. cbn [object_get]. rewrite find_del by done. by destruct (decide (k = k')). Qed.

(** ** Paths *)

Lemma at_path_app p q j : at_path (p ++ q) j = match at_path p j with None => None | Some v => at_path q v end.
Proof.
  revert j. induction p as [|st p IH]; intros j; cbn [app at_path].
  - destruct j; cbn [ptr]; try done. by destruct q as [|[] q].
  - destruct (at_step st j) as [v|]; cbn [mbind option_bind]; [by apply IH | done].
Qed.

Lemma at_path_key p k j : at_path (p ++ [Key k]) j = object_get (at_path p j) k.
Proof.
  rewrite at_path_app. destruct (at_path p j) as [v|]; [|done]. cbn [at_path at_step].
  destruct v; try done. cbn [object_get]. by destruct (find_first _ l).
Qed.

Lemma at_path_nonnull p j v : at_path p j = Some v -> ptr v = Some v.
Proof.
  revert j. induction p as [|st p IH]; intros j; cbn [at_path].
  - intros H. destruct j; cbn [ptr] in H; try done; by injection H as <-.
  - destruct (at_step st j); cbn [mbind option_bind]; [apply IH | done].
Qed.

Lemma find_update_key k v l x : find_first (has_key k) l = Some x ->
  find_first (has_key k) (update_first (has_key k) (fun _ => (k, v)) l) = Some (k, v).
Proof.
  unfold find_first. induction l as [|y l IH]; [done|]. cbn [find update_first].
  destruct (has_key k y) eqn:Ey; cbn [find]; [|by rewrite Ey].
  intros _. by rewrite (proj2 (has_key_true k (k, v)) eq_refl).
Qed.

Lemma at_set_step st v j j' : at_step st j = Some j' -> at_step st (set_step st v j) = Some v.
Proof.
  destruct st as [k|i], j as [| | | | | l | l]; try done; cbn [at_step set_step].
  - destruct (find_first (has_key k) l) eqn:E; [|done]. intros _. by erewrite find_update_key.
  - intros H. apply list_lookup_insert_eq. by eapply lookup_lt_Some.
Qed.

Lemma at_mod_path p f j v v' : at_path p j = Some v -> f v = Ok v' ->
  exists j', mod_path p f j = Ok j' /\ at_path p j' = ptr v'.
Proof.
  revert j. induction p as [|st p IH]; intros j; cbn [at_path mod_path].
  - intros Hp Hf. destruct j; cbn [ptr] in Hp; try done; injection Hp as <-; exists v'; done.
  - destruct (at_step st j) as [x|] eqn:E; cbn [mbind option_bind]; [|done]. intros Hp Hf.
    destruct (IH x Hp Hf) as (x' & -> & Hx). cbn [mbind res_bind mret res_ret]. eexists. split; [done|].
    by rewrite (at_set_step _ _ _ _ E).
Qed.

(** ** Shapes

    [Obj] lists the members that the program looks at, and whether it relies on them;
    an array may have holes, values [null]. *)
Unset Elimination Schemes.
Inductive schema :=
| Any
| Arr (holes : bool) (s : schema)
| Obj (fs : list (string * bool * schema)).
Set Elimination Schemes.

Fixpoint conforms (s : schema) (j : json) : bool :=
  match s, j with
  | Any, _ => true
  | Arr holes s', JArray l =>
      forallb (fun x => match ptr x with None => holes | Some _ => conforms s' x end) l
  | Obj fs, JObject _ =>
      forallb (fun f => match object_get (Some j) f.1.1 with
                        | None => negb f.1.2 | Some v => conforms f.2 v end) fs
  | _, _ => false
  end.

(** No member is listed twice. *)
Fixpoint schema_wf (s : schema) : bool :=
  match s with
  | Any => true
  | Arr _ s' => schema_wf s'
  | Obj fs => bool_decide (NoDup (fst <$> (fst <$> fs))) && forallb (fun f => schema_wf f.2) fs
  end.

Definition is_field (k : string) (f : string * bool * schema) : bool := bool_decide (f.1.1 = k).
(** The shape of a part. *)
Definition step_schema (st : pstep) (s : schema) : schema :=
  match st, s with
  | Idx _, Arr _ s' => s'
  | Key k, Obj fs => match find_first (is_field k) fs with Some f => f.2 | None => Any end
  | _, _ => Any
  end.
Definition path_schema (p : list pstep) (s : schema) : schema := fold_left (fun s st => step_schema st s) p s.

Lemma step_schema_wf st s : schema_wf s = true -> schema_wf (step_schema st s) = true.
Proof.
  destruct st as [k|i], s as [| h s | fs]; cbn [step_schema schema_wf]; try done.
  intros [_ H]%andb_true_iff. destruct (find_first (is_field k) fs) as [f|] eqn:E; [|done].
  apply find_first_some in E as [Hin _]. rewrite forallb_forall in H. apply H. by apply list_elem_of_In.
Qed.

Lemma field_unique fs k f : NoDup (fst <$> (fst <$> fs)) -> f ∈ fs -> f.1.1 = k ->
  find_first (is_field k) fs = Some f.
Proof.
  unfold find_first. induction fs as [|g fs IH]; [by intros _ ?%not_elem_of_nil|]. rewrite !fmap_cons, NoDup_cons.
  intros [Hg Hnd] Hf Hk. cbn [find]. unfold is_field at 1. apply elem_of_cons in Hf as [<- | Hf].
  - by rewrite bool_decide_eq_true_2.
  - rewrite bool_decide_eq_false_2; [by apply IH|]. intros E. apply Hg. rewrite E, <-Hk.
    by do 2 apply list_elem_of_fmap_2.
Qed.

(** What a field asks of an object. *)
Definition field_ok (o : json) (f : string * bool * schema) : Prop :=
  match object_get (Some o) f.1.1 with None => f.1.2 = false | Some v => conforms f.2 v = true end.

Lemma conforms_obj fs o : conforms (Obj fs) o = true <->
  (exists l, o = JObject l) /\ Forall (field_ok o) fs.
Proof.
  destruct o; try (split; [done | by intros [[? [=]] _]]). cbn [conforms]. rewrite forallb_forall, Forall_forall.
  setoid_rewrite list_elem_of_In. unfold field_ok. split.
  - intros H. split; [by eexists|]. intros f Hf. specialize (H f Hf). case_match; [done|].
    by apply negb_true_iff.
  - intros [_ H] f Hf. specialize (H f Hf). case_match; [done|]. by rewrite H.
Qed.

Lemma conforms_arr h s a : conforms (Arr h s) a = true <->
  exists l, a = JArray l /\
    Forall (fun x => match ptr x with None => h = true | Some _ => conforms s x = true end) l.
Proof.
  destruct a; try (split; [done | by intros (? & [=] & _)]). cbn [conforms]. rewrite forallb_forall. split.
  - intros H. eexists. split; [done|]. apply Forall_forall. intros x Hx. specialize (H x (proj1 (list_elem_of_In _ _) Hx)).
    by destruct (ptr x).
  - intros (l' & [= <-] & H) x Hx. rewrite Forall_forall in H. specialize (H x (proj2 (list_elem_of_In _ _) Hx)).
    by destruct (ptr x).
Qed.

Lemma at_step_get k l v : at_step (Key k) (JObject l) = Some v -> object_get (Some (JObject l)) k = ptr v.
Proof. cbn [at_step object_get]. destruct (find_first (has_key k) l); [|done]. by intros [= <-]. Qed.

Lemma get_conforms fs o k v : conforms (Obj fs) o = true -> object_get (Some o) k = Some v ->
  conforms (step_schema (Key k) (Obj fs)) v = true.
Proof.
  intros [_ H]%conforms_obj Hv. cbn [step_schema]. destruct (find_first (is_field k) fs) as [f|] eqn:E; [|done].
  apply find_first_some in E as [Hf Hk]. apply bool_decide_eq_true in Hk. rewrite Forall_forall in H.
  specialize (H f Hf). unfold field_ok in H. by rewrite Hk, Hv in H.
Qed.

(** A member that a shape relies on. *)
Lemma get_required fs o k f : conforms (Obj fs) o = true -> find_first (is_field k) fs = Some f -> f.1.2 = true ->
  exists v, object_get (Some o) k = Some v /\ conforms f.2 v = true.
Proof.
  intros [_ H]%conforms_obj [Hf Hk]%find_first_some Hr. apply bool_decide_eq_true in Hk.
  rewrite Forall_forall in H. specialize (H f Hf). unfold field_ok in H. rewrite Hk in H.
  destruct (object_get _ _); [by eexists | congruence].
Qed.

Lemma conforms_step st s j v : conforms s j = true -> at_step st j = Some v -> ptr v = Some v ->
  conforms (step_schema st s) v = true.
Proof.
  intros Hj Hv Hn. destruct s as [| h s | fs]; [by destruct st | |].
  - apply conforms_arr in Hj as (l & -> & Hl). destruct st as [k|i]; [done|]. cbn [at_step step_schema] in *.
    rewrite Forall_lookup in Hl. specialize (Hl i v Hv). by rewrite Hn in Hl.
  - pose proof Hj as [[l ->] _]%conforms_obj. destruct st as [k|i]; [|done].
    apply (get_conforms _ _ _ _ Hj). by rewrite (at_step_get _ _ _ Hv).
Qed.

Lemma conforms_put fs l k v : schema_wf (Obj fs) = true -> conforms (Obj fs) (JObject l) = true ->
  ptr v = Some v -> conforms (step_schema (Key k) (Obj fs)) v = true ->
  conforms (Obj fs) (JObject (put_key k v l)) = true.
Proof.
  intros [Hnd _]%andb_true_iff [_ H]%conforms_obj Hn Hv. apply bool_decide_eq_true in Hnd.
  apply conforms_obj. split; [by eexists|]. rewrite Forall_forall in *. intros f Hf. specialize (H f Hf).
  unfold field_ok in *. rewrite object_get_put. destruct (decide (k = f.1.1)) as [E|]; [|done]. rewrite Hn.
  cbn [step_schema] in Hv. by rewrite (field_unique fs k f Hnd Hf (eq_sym E)) in Hv.
Qed.

Lemma conforms_del fs l k : NoDup l.*1 -> conforms (Obj fs) (JObject l) = true ->
  Forall (fun f => f.1.1 = k -> f.1.2 = false) fs ->
  conforms (Obj fs) (JObject (remove_first (has_key k) l)) = true.
Proof.
  intros Hnd [_ H]%conforms_obj Hk. apply conforms_obj. split; [by eexists|].
  rewrite Forall_forall in *. intros f Hf. specialize (H f Hf). specialize (Hk f Hf). unfold field_ok in *.
  rewrite object_get_del by done. destruct (decide (k = f.1.1)); [by apply Hk | done].
Qed.

Lemma conforms_add h s l v : conforms (Arr h s) (JArray l) = true -> ptr v = Some v -> conforms s v = true ->
  conforms (Arr h s) (JArray (l ++ [v])) = true.
Proof.
  intros (l' & [= <-] & H)%conforms_arr Hn Hv. apply conforms_arr. eexists. split; [done|].
  apply Forall_app. split; [done|]. constructor; [by rewrite Hn | constructor].
Qed.

Lemma put_key_present k v l : existsb (has_key k) l = true ->
  update_first (has_key k) (fun _ => (k, v)) l = put_key k v l.
Proof. unfold put_key. by intros ->. Qed.

Lemma at_step_present k l v : at_step (Key k) (JObject l) = Some v -> existsb (has_key k) l = true.
Proof. cbn [at_step]. rewrite existsb_find_first. by destruct (find_first (has_key k) l). Qed.

Lemma conforms_set st s j v v' : schema_wf s = true -> conforms s j = true -> at_step st j = Some v ->
  ptr v' = Some v' -> conforms (step_schema st s) v' = true -> conforms s (set_step st v' j) = true.
Proof.
  intros Hw Hj Hv Hn Hv'. destruct s as [| h s | fs]; [done | |].
  - apply conforms_arr in Hj as (l & -> & Hl). destruct st as [k|i]; [done|]. cbn [set_step step_schema] in *.
    apply conforms_arr. eexists. split; [done|]. apply Forall_insert; [done|]. by rewrite Hn.
  - pose proof Hj as [[l ->] _]%conforms_obj. destruct st as [k|i]; [|done]. cbn [set_step].
    rewrite put_key_present by by eapply at_step_present. by apply conforms_put.
Qed.

Lemma conforms_at p s j v : conforms s j = true -> at_path p j = Some v -> conforms (path_schema p s) v = true.
Proof.
  revert s j. induction p as [|st p IH]; intros s j Hj; cbn [at_path path_schema fold_left].
  - destruct j; cbn [ptr]; try done; by intros [= <-].
  - destruct (at_step st j) as [x|] eqn:E; [|done]. cbn [mbind option_bind]. intros Hv.
    apply (IH (step_schema st s) x); [|done]. apply (conforms_step _ _ _ _ Hj E).
    destruct x; try done. by destruct p as [|[] p].
Qed.

(** A change that keeps the shape of the object keeps that of the document. *)
Lemma conforms_mod p s f j v v' j' : schema_wf s = true -> conforms s j = true ->
  at_path p j = Some v -> f v = Ok v' -> ptr v' = Some v' -> conforms (path_schema p s) v' = true ->
  mod_path p f j = Ok j' -> conforms s j' = true /\ ptr j' = Some j'.
Proof.
  revert s j j'. induction p as [|st p IH]; intros s j j' Hw Hj Hat Hf Hn Hv'; cbn [mod_path].
  - cbn [at_path] in Hat. intros Hm. assert (E : f j = Ok j' /\ j = v).
    { destruct j; cbn [ptr] in Hat; try done; by injection Hat as <-. }
    destruct E as [E ->]. assert (v' = j') as -> by congruence. done.
  - cbn [at_path] in Hat. destruct (at_step st j) as [x|] eqn:E; [|done]. cbn [mbind option_bind] in Hat.
    destruct (mod_path p f x) as [x'|] eqn:Em; [|done]. cbn [mbind res_bind mret res_ret]. intros [= <-].
    assert (Hx : ptr x = Some x) by (destruct x; try done; by destruct p as [|[] p]).
    destruct (IH (step_schema st s) x x') as [H1 H2]; try done.
    + by apply step_schema_wf.
    + by apply (conforms_step _ _ _ _ Hj E).
    + split; [by apply (conforms_set _ _ _ x)|]. by destruct st, j.
Qed.

(** ** Writable documents *)

Lemma json_ok_S d j : json_ok (S d) j =
  match j with
  | JNull | JBool _ => true
  | JInt n => (- 2 ^ 63 <=? n) && (n <? 2 ^ 63)
  | JDouble _ => false
  | JString s => plain_text s
  | JArray l => forallb (json_ok d) l
  | JObject l => keys_ok l && forallb (fun x => json_ok d x.2) l
  end.
Proof. done. Qed.

Lemma json_ok_mono d d' j : (d <= d')%nat -> json_ok d j = true -> json_ok d' j = true.
Proof.
  revert d' j. induction d as [|d IH]; intros d' j Hd; [done|]. destruct d' as [|d']; [lia|]. rewrite !json_ok_S.
  destruct j as [| | | | | l | l]; try done.
  - rewrite !forallb_forall. intros H x Hx. apply IH; [lia | by apply H].
  - rewrite !andb_true_iff, !forallb_forall. intros [Hk H]. split; [done|]. intros x Hx. apply IH; [lia | by apply H].
Qed.

Lemma keys_ok_spec l : keys_ok l = true <-> NoDup l.*1 /\ Forall (fun k => plain_text (key_codes k) = true) l.*1.
Proof.
  unfold keys_ok. rewrite andb_true_iff, bool_decide_eq_true, forallb_forall, Forall_fmap, Forall_forall.
  by setoid_rewrite list_elem_of_In.
Qed.

Lemma keys_ok_put k v l : keys_ok l = true -> plain_text (key_codes k) = true -> keys_ok (put_key k v l) = true.
Proof.
  rewrite !keys_ok_spec, put_key_keys. intros [Hnd H] Hk. destruct (existsb (has_key k) l) eqn:E; [done|].
  assert (Hn : k ∉ l.*1) by (intros Hin%existsb_has_key; congruence). split.
  - apply NoDup_app. split; [done|]. split; [|by apply NoDup_singleton]. intros x Hx Hx'.
    apply list_elem_of_singleton in Hx'. by subst.
  - apply Forall_app. by split; [|repeat constructor].
Qed.

Lemma json_ok_object d l : json_ok (S d) (JObject l) = true <->
  keys_ok l = true /\ Forall (fun x => json_ok d x.2 = true) l.
Proof. rewrite json_ok_S, andb_true_iff, forallb_forall, Forall_forall. by setoid_rewrite list_elem_of_In. Qed.
Lemma json_ok_array d l : json_ok (S d) (JArray l) = true <-> Forall (fun x => json_ok d x = true) l.
Proof. rewrite json_ok_S, forallb_forall, Forall_forall. by setoid_rewrite list_elem_of_In. Qed.

Lemma json_ok_put d k v l : json_ok (S d) (JObject l) = true -> plain_text (key_codes k) = true ->
  json_ok d v = true -> json_ok (S d) (JObject (put_key k v l)) = true.
Proof.
  rewrite !json_ok_object. intros [Hl H] Hk Hv. split; [by apply keys_ok_put|].
  rewrite Forall_forall in *. intros x [-> | Hx]%put_key_elem; [done | by apply H].
Qed.

Lemma json_ok_del d k l : json_ok d (JObject l) = true -> json_ok d (JObject (remove_first (has_key k) l)) = true.
Proof.
  destruct d as [|d]; [done|]. rewrite !json_ok_object, !keys_ok_spec. intros [[Hnd Hk] H].
  split; [split|].
  - by apply NoDup_remove_first.
  - rewrite Forall_forall in *. intros x Hx. apply Hk. eapply elem_of_sublist; [exact Hx|].
    apply fmap_sublist, remove_first_sublist.
  - by apply Forall_remove_first.
Qed.

Lemma json_ok_add d l v : json_ok (S d) (JArray l) = true -> json_ok d v = true ->
  json_ok (S d) (JArray (l ++ [v])) = true.
Proof. rewrite !json_ok_array. intros Hl Hv. apply Forall_app. by split; [|repeat constructor]. Qed.

Lemma json_ok_step d st j v : json_ok (S d) j = true -> at_step st j = Some v -> json_ok d v = true.
Proof.
  destruct st as [k|i], j as [| | | | | l | l]; try done; cbn [at_step].
  - rewrite json_ok_object. intros [_ H] Hv. destruct (find_first (has_key k) l) as [x|] eqn:E; [|done].
    injection Hv as <-. apply find_first_some in E as [Hin _]. rewrite Forall_forall in H. by apply H.
  - rewrite json_ok_array, Forall_lookup. intros H Hv. by apply (H i).
Qed.

Lemma json_ok_set d st j v v' : json_ok (S d) j = true -> at_step st j = Some v -> json_ok d v' = true ->
  json_ok (S d) (set_step st v' j) = true.
Proof.
  destruct st as [k|i], j as [| | | | | l | l]; try done; intros Hj Hv Hv'; cbn [set_step].
  - rewrite put_key_present by by eapply at_step_present. apply json_ok_put; [done | | done].
    apply json_ok_object in Hj as [[_ Hk]%keys_ok_spec _]. rewrite Forall_forall in Hk. apply Hk, existsb_has_key.
    by eapply at_step_present.
  - apply json_ok_array in Hj. apply json_ok_array. by apply Forall_insert.
Qed.

Lemma json_ok_at p d j v : json_ok (length p + d) j = true -> at_path p j = Some v -> json_ok d v = true.
Proof.
  revert j. induction p as [|st p IH]; intros j; cbn [length at_path Nat.add].
  - intros Hj. destruct j; cbn [ptr]; try done; by intros [= <-].
  - intros Hj. destruct (at_step st j) as [x|] eqn:E; [|done]. cbn [mbind option_bind]. apply IH.
    by apply (json_ok_step _ _ _ _ Hj E).
Qed.

Lemma json_ok_mod p d f j v v' j' : json_ok (length p + d) j = true -> at_path p j = Some v -> f v = Ok v' ->
  json_ok d v' = true -> mod_path p f j = Ok j' -> json_ok (length p + d) j' = true.
Proof.
  revert j j'. induction p as [|st p IH]; intros j j' Hj Hat Hf Hv'; cbn [mod_path length Nat.add].
  - cbn [at_path] in Hat. intros Hm. assert (E : f j = Ok j' /\ j = v).
    { destruct j; cbn [ptr] in Hat; try done; by injection Hat as <-. }
    destruct E as [E ->]. congruence.
  - cbn [at_path] in Hat. destruct (at_step st j) as [x|] eqn:E; [|done]. cbn [mbind option_bind] in Hat.
    destruct (mod_path p f x) as [x'|] eqn:Em; [|done]. cbn [mbind res_bind mret res_ret]. intros [= <-].
    apply (json_ok_set _ _ _ x); [done..|]. apply (IH x x'); try done.
    by apply (json_ok_step _ _ _ _ Hj E).
Qed.

(** ** Documents of a shape *)

Record doc_ok (s : schema) (j : json) : Prop := {
  doc_writable : json_ok max_depth j = true;
  doc_shape : conforms s j = true;
  doc_nonnull : ptr j = Some j;
}.

Lemma doc_mod s p d f j v v' : schema_wf s = true -> doc_ok s j -> (length p + d = max_depth)%nat ->
  at_path p j = Some v -> f v = Ok v' -> ptr v' = Some v' ->
  conforms (path_schema p s) v' = true -> json_ok d v' = true ->
  exists j', mod_path p f j = Ok j' /\ doc_ok s j' /\ at_path p j' = Some v'.
Proof.
  intros Hw [Hj Hc Hn] Hd Hat Hf Hn' Hc' Hv'. destruct (at_mod_path p f j v v' Hat Hf) as (j' & Hm & Ha).
  exists j'. rewrite Hn' in Ha. split; [done|]. split; [|done].
  destruct (conforms_mod p s f j v v' j') as [H1 H2]; try done. split; [|done..].
  rewrite <-Hd in *. by apply (json_ok_mod p d f j v v').
Qed.

(** Adding a member. *)
Lemma doc_object_add s p k v j l n : schema_wf s = true -> schema_wf (path_schema p s) = true ->
  doc_ok s j -> (length p + S n <= max_depth)%nat -> plain_text (key_codes k) = true ->
  at_path p j = Some (JObject l) -> ptr v = Some v ->
  conforms (step_schema (Key k) (path_schema p s)) v = true -> json_ok n v = true ->
  exists j', mod_path p (object_add k v) j = Ok j' /\ doc_ok s j' /\ at_path p j' = Some (JObject (put_key k v l)).
Proof.
  intros Hw Hw' Hj Hd Hk Hat Hn Hv Hok.
  set (d := (max_depth - S (length p))%nat).
  assert (HS : (length p + S d = max_depth)%nat) by (unfold d; lia).
  apply (doc_mod s p (S d) _ _ (JObject l)); try done.
  - pose proof (conforms_at p s j _ (doc_shape _ _ Hj) Hat) as Hc.
    destruct (path_schema p s) as [| | fs]; [done | done|]. by apply conforms_put.
  - apply json_ok_put; [| done | apply (json_ok_mono n); [unfold d; lia | done]].
    apply (json_ok_at p (S d) j); [rewrite HS; by destruct Hj | done].
Qed.

(** Removing a member that the shape does not rely on. *)
Definition optional_in (k : string) (s : schema) : Prop :=
  match s with Obj fs => Forall (fun f => f.1.1 = k -> f.1.2 = false) fs | _ => True end.
Lemma doc_object_del s p k j l : schema_wf s = true -> doc_ok s j -> (length p < max_depth)%nat ->
  optional_in k (path_schema p s) -> at_path p j = Some (JObject l) ->
  exists j', mod_path p (object_del k) j = Ok j' /\ doc_ok s j' /\
    at_path p j' = Some (JObject (remove_first (has_key k) l)).
Proof.
  intros Hw Hj Hd Hk Hat. set (d := (max_depth - length p)%nat).
  assert (HS : (length p + d = max_depth)%nat) by (unfold d; lia).
  assert (Hl : json_ok d (JObject l) = true) by (apply (json_ok_at p d j); [rewrite HS; by destruct Hj | done]).
  assert (Hnd : NoDup l.*1).
  { assert (exists m, d = S m) as [m E] by (exists (d - 1)%nat; unfold d; lia). rewrite E in Hl.
    by apply json_ok_object in Hl as [[? _]%keys_ok_spec _]. }
  apply (doc_mod s p d _ _ (JObject l)); try done.
  - pose proof (conforms_at p s j _ (doc_shape _ _ Hj) Hat) as Hc.
    destruct (path_schema p s) as [| | fs]; [done | done|]. by apply conforms_del.
  - by apply json_ok_del.
Qed.

Lemma doc_array_add s p v j l n : schema_wf s = true -> doc_ok s j -> (length p + S n <= max_depth)%nat ->
  at_path p j = Some (JArray l) -> ptr v = Some v ->
  conforms (step_schema (Idx (length l)) (path_schema p s)) v = true -> json_ok n v = true ->
  exists j', mod_path p (array_add v) j = Ok j' /\ doc_ok s j' /\ at_path p j' = Some (JArray (l ++ [v])).
Proof.
  intros Hw Hj Hd Hat Hn Hv Hok. set (d := (max_depth - S (length p))%nat).
  assert (HS : (length p + S d = max_depth)%nat) by (unfold d; lia).
  apply (doc_mod s p (S d) _ _ (JArray l)); try done.
  - pose proof (conforms_at p s j _ (doc_shape _ _ Hj) Hat) as Hc.
    destruct (path_schema p s) as [| h s' | fs]; [done | by apply conforms_add | done].
  - apply json_ok_add; [|apply (json_ok_mono n); [unfold d; lia | done]].
    apply (json_ok_at p (S d) j); [rewrite HS; by destruct Hj | done].
Qed.
