(* ===== verification/ProvDb.v ===== *)
(** * Changes of the provisioning database

    [src/blueZ/mesh/prov-db.c]: the nodes, keys and settings in two JSON files that
    are rewritten at every change.  An operation reads a file, changes the document in
    memory and writes it; the text and the document are on the heap, and using or
    releasing them twice is a fault. *)

From stdpp Require Import gmap strings.
From S2P Require Import Prelude Bytes Util Words Keys NetState Node ConfigModel Json.

Open Scope string_scope.
Open Scope list_scope.
Open Scope Z_scope.

(** ** State

    What a pointer to the heap means. *)
Inductive heap (T : Type) := Null | Live (a : T) | Freed.
Arguments Null {T}.
Arguments Live {T} a.
Arguments Freed {T}.

Record file := File { f_data : list Z; f_writable : bool }.

(** [prov_filename] and [local_filename]; the variables [in_str] and [jmain] of
    the operation that runs; the files; what the coming reads of /dev/urandom
    return, [None] for one that fails. *)
Record db_state := DbState {
  db_world : world node_store; prov_filename : option string; local_filename : option string;
  in_str : heap (list Z); jmain : heap json; db_files : gmap string file;
  db_random : list (option (list Z)) }.

Definition set_db_world (v : world node_store) (s : db_state) : db_state :=
  DbState v (prov_filename s) (local_filename s) (in_str s) (jmain s) (db_files s) (db_random s).
Definition set_prov_filename (v : option string) (s : db_state) : db_state :=
  DbState (db_world s) v (local_filename s) (in_str s) (jmain s) (db_files s) (db_random s).
Definition set_local_filename (v : option string) (s : db_state) : db_state :=
  DbState (db_world s) (prov_filename s) v (in_str s) (jmain s) (db_files s) (db_random s).
Definition set_in_str (v : heap (list Z)) (s : db_state) : db_state :=
  DbState (db_world s) (prov_filename s) (local_filename s) v (jmain s) (db_files s) (db_random s).
Definition set_jmain (v : heap json) (s : db_state) : db_state :=
  DbState (db_world s) (prov_filename s) (local_filename s) (in_str s) v (db_files s) (db_random s).
Definition set_db_files (v : gmap string file) (s : db_state) : db_state :=
  DbState (db_world s) (prov_filename s) (local_filename s) (in_str s) (jmain s) v (db_random s).
Definition set_db_random (v : list (option (list Z))) (s : db_state) : db_state :=
  DbState (db_world s) (prov_filename s) (local_filename s) (in_str s) (jmain s) (db_files s) v.

Definition DM (T : Type) : Type := St db_state T.
Definition on_nodes {T} (h : NM T) : DM T := fun s =>
  match h (db_world s) with Ok (a, w) => Ok (a, set_db_world w s) | Fault e => Fault e end.

(** ** Files and buffers *)

(** The content, [None] where the function returns NULL.  The test of the
    descriptor is wrong, but then [fstat] fails. *)
Definition prov_file_read (filename : option string) : DM (option (list Z)) :=
  s ← get; mret (name ← filename; f_data <$> db_files s !! name).

(** [mesh_get_random_bytes] of sixteen octets: the read is complete. *)
Definition random_key : DM (option (list Z)) :=
  s ← get;
  match db_random s with
  | [] => mret None
  | d :: rest => _ ← modify (set_db_random rest); mret d
  end.

(** [g_free(in_str)] and [json_object_put(jmain)]. *)
Definition free_str : DM unit :=
  s ← get;
  match in_str s with
  | Null => mret tt
  | Live _ => modify (set_in_str Freed)
  | Freed => fail UseAfterFree
  end.
Definition put_main : DM unit :=
  s ← get;
  match jmain s with
  | Null => fail NullDeref
  | Live _ => modify (set_jmain Freed)
  | Freed => fail UseAfterFree
  end.
(** [if (jmain) json_object_put(jmain);] *)
Definition put_main_if : DM unit :=
  s ← get; match jmain s with Null => mret tt | _ => put_main end.
Definition main_doc : DM json :=
  s ← get;
  match jmain s with Null => fail NullDeref | Live j => mret j | Freed => fail UseAfterFree end.
(** The object at a path of [jmain], and a change of it. *)
Definition obj_at (p : list pstep) : DM (option json) := j ← main_doc; mret (at_path p j).
Definition obj_mod (p : list pstep) (f : json -> res json) : DM unit :=
  j ← main_doc; j' ← lift (mod_path p f j); modify (set_jmain (Live j')).

Section Db.
Context {J : JsonC}.

(** A file that cannot be opened for writing stays as it is, and nobody learns of
    it. *)
Definition prov_file_write (local : bool) : DM unit :=
  j ← main_doc;
  s ← get;
  match (if local then local_filename s else prov_filename s) with
  | None => fail NullDeref
  | Some name =>
      match db_files s !! name with
      | Some (File _ false) => mret tt
      | _ => modify (set_db_files (<[name := File (json_to_string j) true]> (db_files s)))
      end
  end.

(** [in_str = prov_file_read(filename)] and [jmain = json_tokener_parse(in_str)]:
    whether there is a text, and whether there is a document. *)
Definition load (filename : option string) : DM bool :=
  str ← prov_file_read filename;
  match str with
  | None => _ ← modify (set_in_str Null); mret false
  | Some t =>
      _ ← modify (set_in_str (Live t));
      _ ← modify (set_jmain (match json_tokener_parse t with None => Null | Some j => Live j end));
      mret true
  end.
Definition has_main : DM bool :=
  s ← get; mret (match jmain s with Null => false | _ => true end).

(** The frame of the operations: return false without a text; with a document run
    the body, whose false is a [goto done]; then [done]. *)
Definition with_main (filename : option string) (body : DM bool) : DM bool :=
  ok ← load filename;
  if negb ok then mret false else
  m ← has_main;
  res ← (if (m : bool) then body else mret false);
  _ ← free_str;
  _ ← put_main_if;
  mret res.

(** [*p = ...; if (!p) goto done;] for an object of the document. *)
Definition when_obj (p : list pstep) (body : DM bool) : DM bool :=
  j ← obj_at p; match j with None => mret false | Some _ => body end.

(** [json_object_object_del] and [json_object_object_add]. *)
Definition replace (p : list pstep) (k : string) (v : json) : DM unit :=
  _ ← obj_mod p (object_del k); obj_mod p (object_add k v).

(** ** Nodes of the document *)

(** The loop of [find_node_by_primary] over what is left of the array: the index
    of the node. *)
Fixpoint find_primary (primary : Z) (l : list (option json)) (i : nat) : res (option nat) :=
  match l with
  | [] => mret None
  | jnode :: l' =>
      let jconfig := object_get jnode "configuration" in
      match object_get jconfig "elements" with
      | None => mret None
      | Some jelements =>
          jelement ← array_get (Some jelements) 0;
          match jelement with
          | None => mret None
          | Some _ =>
              addr ← scan_u16 (object_get jelement "unicastAddress");
              match addr with
              | None => mret None
              | Some addr => if addr =? primary then mret (Some i) else find_primary primary l' (S i)
              end
          end
      end
  end.
Definition find_node_by_primary (primary : Z) (j : json) : res (option (list pstep)) :=
  match object_get (Some j) "nodes" with
  | None => mret None
  | Some jarray =>
      l ← array_items (Some jarray);
      i ← find_primary primary l 0;
      mret (option_map (fun i => [Key "nodes"; Idx i]) i)
  end.
Definition primary_path (primary : Z) : DM (option (list pstep)) :=
  j ← main_doc; lift (find_node_by_primary primary j).
(** [if (!jnode) goto done;] *)
Definition with_primary (primary : Z) (body : list pstep -> DM bool) : DM bool :=
  p ← primary_path primary; match p with None => mret false | Some p => body p end.

Definition is_local (node : option Z) : DM bool := on_nodes (node_is_local node).
Definition db_filename (local : bool) : DM (option string) :=
  s ← get; mret (if local then local_filename s else prov_filename s).
(** The node object of an operation that distinguishes the local node. *)
Definition with_node (local : bool) (primary : Z) (body : list pstep -> DM bool) : DM bool :=
  if local then when_obj [Key "node"] (body [Key "node"]) else with_primary primary body.

(** ** Changes of the settings *)

(** Whether the composition is there to be printed. *)
Definition prov_db_print_node_composition (node : option Z) : DM bool :=
  primary ← on_nodes (node_primary node);
  comp ← on_nodes (node_get_composition node);
  match comp with
  | None => mret false
  | Some _ =>
      local ← is_local node;
      filename ← db_filename local;
      with_main filename (with_primary primary (fun p => when_obj (p ++ [Key "composition"]) (mret true)))
  end.

Definition prov_db_node_set_ttl (node : option Z) (ttl : Z) : DM bool :=
  primary ← on_nodes (node_primary node);
  local ← is_local node;
  filename ← db_filename local;
  with_main filename (with_node local primary (fun p =>
    when_obj (p ++ [Key "configuration"])
      (_ ← replace (p ++ [Key "configuration"]) "defaultTTL" (new_int ttl);
       _ ← prov_file_write local;
       mret true))).

Definition set_local_iv_index (p : list pstep) (idx : Z) (update : bool) : DM unit :=
  _ ← replace p "IVindex" (new_int idx); replace p "IVupdate" (JInt (b2z update)).

(** What comes between the two buffers and the label [done]: the text and the
    document are released, and unless this is the provisioner they are released
    again.  [None] where the function returns false at once. *)
Definition provisioner_iv_index (iv_index : Z) (update prov : bool) : DM (option bool) :=
  if prov then
    s ← get;
    ok ← load (prov_filename s);
    if negb ok then mret None else
    m ← has_main;
    if negb m then mret (Some false) else
    _ ← set_local_iv_index [] iv_index update;
    _ ← prov_file_write false;
    mret (Some true)
  else mret (Some true).
Definition prov_db_local_set_iv_index (iv_index : Z) (update prov : bool) : DM bool :=
  s ← get;
  ok ← load (local_filename s);
  if negb ok then mret false else
  m ← has_main;
  res ← (if negb m then mret (Some false) else
         _ ← set_local_iv_index [Key "node"] iv_index update;
         _ ← prov_file_write true;
         _ ← free_str;
         _ ← put_main;
         provisioner_iv_index iv_index update prov);
  match res with
  | None => mret false
  | Some res => _ ← free_str; _ ← put_main_if; mret res
  end.

Definition prov_db_local_set_seq_num (seq_num : Z) : DM bool :=
  s ← get;
  with_main (local_filename s)
    (_ ← replace [Key "node"] "sequenceNumber" (new_int seq_num);
     _ ← prov_file_write true;
     mret true).

Definition prov_db_node_set_iv_seq (node : option Z) (iv seq : Z) : DM bool :=
  primary ← on_nodes (node_primary node);
  s ← get;
  with_main (prov_filename s) (with_primary primary (fun p =>
    _ ← replace p "IVindex" (new_int iv);
    _ ← replace p "sequenceNumber" (new_int seq);
    _ ← prov_file_write false;
    mret true)).

Definition prov_db_node_keys (node : option Z) (idxs : list Z) (desc : string) : DM bool :=
  primary ← on_nodes (node_primary node);
  local ← is_local node;
  filename ← db_filename local;
  with_main filename (with_primary primary (fun p =>
    let jconfig := p ++ [Key "configuration"] in
    when_obj jconfig
      (_ ← obj_mod jconfig (object_del desc);
       _ ← (match idxs with
            | [] => mret tt
            | _ => a ← lift (put_uint16_list idxs (JArray [])); obj_mod jconfig (object_add desc a)
            end);
       _ ← prov_file_write local;
       mret true))).

(** *** Composition data

    [data] is the object from the pointer on, read at the offset [off]; [len] is a
    [uint16_t] that wraps. *)

(** [while (len >= 2 && m--)] and [while (len >= 4 && v--)]. *)
Fixpoint comp_sig (m : nat) (data : list Z) (off len : Z) (a : json) : res (json * Z * Z) :=
  if negb (2 <=? len) then mret (a, off, len) else
  match m with
  | O => mret (a, off, len)
  | S m' =>
      id ← get_le16 data off;
      a ← put_uint16_array_entry id a;
      comp_sig m' data (off + 2) (len - 2) a
  end.
Fixpoint comp_vendor (v : nat) (data : list Z) (off len : Z) (a : json) : res (json * Z * Z) :=
  if negb (4 <=? len) then mret (a, off, len) else
  match v with
  | O => mret (a, off, len)
  | S v' =>
      mod_id ← get_le16 data (off + 2);
      vendor_id ← get_le16 data off;
      a ← put_uint32_array_entry (Z.lor mod_id (u32 (Z.shiftl vendor_id 16))) a;
      comp_vendor v' data (off + 4) (len - 4) a
  end.

Definition comp_element (i : Z) (data : list Z) (off len : Z) : res (json * Z * Z) :=
  e ← object_add "elementIndex" (new_int i) (JObject []);
  loc ← get_le16 data off;
  e ← put_uint16 "location" loc e;
  m ← rd data (off + 2);
  v ← rd data (off + 3);
  '(a, off, len) ← comp_sig (Z.to_nat m) data (off + 4) (u16 (len - 4)) (JArray []);
  '(a, off, len) ← comp_vendor (Z.to_nat v) data off len a;
  e ← object_add "models" a e;
  mret (e, off, len).
Fixpoint comp_elements (n : nat) (i : Z) (data : list Z) (off len : Z) (a : json) : res json :=
  match n with
  | O => mret a
  | S n' =>
      '(e, off, len) ← comp_element i data off len;
      a ← array_add e a;
      comp_elements n' (i + 1) data off len a
  end.

Definition comp_features (c : mesh_node_composition) : res json :=
  o ← object_add "relay" (JBool (relay c)) (JObject []);
  o ← object_add "proxy" (JBool (proxy c)) o;
  o ← object_add "friend" (JBool (friend c)) o;
  object_add "lpn" (JBool (lpn c)) o.
Definition comp_object (c : mesh_node_composition) (num_ele : Z) (data : list Z) (len : Z) : res json :=
  o ← put_uint16 "cid" (cid c) (JObject []);
  o ← put_uint16 "pid" (pid c) o;
  o ← put_uint16 "vid" (vid c) o;
  o ← put_uint16 "crpl" (crpl c) o;
  features ← comp_features c;
  o ← object_add "features" features o;
  elements ← comp_elements (Z.to_nat num_ele) 0 data 11 (u16 (len - 11)) (JArray []);
  object_add "elements" elements o.

Definition prov_db_add_node_composition (node : option Z) (data : list Z) (len : Z) : DM bool :=
  primary ← on_nodes (node_primary node);
  comp ← on_nodes (node_get_composition node);
  match comp with
  | None => mret false
  | Some c =>
      s ← get;
      with_main (prov_filename s) (with_primary primary (fun p =>
        num_ele ← on_nodes (node_get_num_elements node);
        jcomp ← lift (comp_object c num_ele data len);
        _ ← obj_mod p (object_add "composition" jcomp);
        _ ← prov_file_write false;
        mret true))
  end.

(** *** Models *)

(** [find_configured_model] over what is left of the array. *)
Fixpoint find_model_obj (target : Z) (l : list (option json)) (i : nat) : res (option nat) :=
  match l with
  | [] => mret None
  | jmodel :: l' =>
      id ← scan_model_id (object_get jmodel "modelId");
      match id with
      | None => mret None
      | Some id => if id =? target then mret (Some i) else find_model_obj target l' (S i)
      end
  end.
Definition find_configured_model (jmodels : option json) (target : Z) : res (option nat) :=
  l ← array_items jmodels; find_model_obj target l 0.

Definition new_model (model_id : Z) : res json :=
  if Z.land model_id 0xffff0000 =? 0xffff0000
  then put_uint16 "modelId" (Z.land model_id 0xffff) (JObject [])
  else put_uint32 "modelId" model_id (JObject []).

(** The model object of an element, made if it is not there. *)
Definition element_model (pelement : list pstep) (model_id : Z) : DM (list pstep) :=
  let pmodels := pelement ++ [Key "models"] in
  jmodels ← obj_at pmodels;
  jmodel ← (match jmodels with
            | None => _ ← obj_mod pelement (object_add "models" (JArray [])); mret None
            | Some _ => lift (find_configured_model jmodels model_id)
            end);
  match jmodel with
  | Some i => mret (pmodels ++ [Idx i])
  | None =>
      a ← obj_at pmodels;
      l ← lift (array_items a);
      m ← lift (new_model model_id);
      _ ← obj_mod pmodels (array_add m);
      mret (pmodels ++ [Idx (length l)])
  end.
(** The element of a node object; [None] where the function jumps to [done]. *)
Definition node_element (p : list pstep) (ele_idx : Z) : DM (option (list pstep)) :=
  jconfig ← obj_at (p ++ [Key "configuration"]);
  match object_get jconfig "elements" with
  | None => mret None
  | Some jelements =>
      jelement ← lift (array_get (Some jelements) ele_idx);
      mret (option_map (fun _ => p ++ [Key "configuration"; Key "elements"; Idx (Z.to_nat ele_idx)])
              jelement)
  end.
Definition jnode_path (local : bool) (primary : Z) : DM (option (list pstep)) :=
  if local then jnode ← obj_at [Key "node"]; mret (option_map (fun _ => [Key "node"]) jnode)
  else primary_path primary.
Definition get_jmodel_obj (node : option Z) (ele_idx model_id : Z) : DM (option (list pstep)) :=
  primary ← on_nodes (node_primary node);
  local ← is_local node;
  filename ← db_filename local;
  ok ← load filename;
  if negb ok then mret None else
  m ← has_main;
  jmodel ← (if negb m then mret None else
            jnode ← jnode_path local primary;
            match jnode with
            | None => mret None
            | Some p =>
                jelement ← node_element p ele_idx;
                match jelement with
                | None => mret None
                | Some pe => pm ← element_model pe model_id; mret (Some pm)
                end
            end);
  _ ← free_str;
  _ ← (match jmodel with None => put_main_if | Some _ => mret tt end);
  mret jmodel.

(** The frame of the changes of a model. *)
Definition with_model (node : option Z) (ele_idx model_id : Z) (change : list pstep -> DM unit) : DM bool :=
  local ← is_local node;
  jmodel ← get_jmodel_obj node ele_idx model_id;
  match jmodel with
  | None => mret false
  | Some p =>
      _ ← change p;
      _ ← prov_file_write local;
      _ ← put_main;
      mret true
  end.

(** Adds to the array [k] of an object, which is made if it is not there. *)
Definition append_to (p : list pstep) (k : string) (v : json) : DM unit :=
  a ← obj_at (p ++ [Key k]);
  _ ← (match a with None => obj_mod p (object_add k (JArray [])) | Some _ => mret tt end);
  obj_mod (p ++ [Key k]) (array_add v).
Definition prov_db_add_binding (node : option Z) (ele_idx model_id app_idx : Z) : DM bool :=
  with_model node ele_idx model_id (fun p => append_to p "bind" (new_int app_idx)).
Definition prov_db_add_subscription (node : option Z) (ele_idx model_id addr : Z) : DM bool :=
  with_model node ele_idx model_id (fun p => append_to p "subscribe" (hex_u16 addr)).

Definition pub_object (pub : mesh_publication) : res json :=
  o ← put_uint16 "address" (of_le (take 2 (pub_u pub))) (JObject []);
  o ← put_uint16 "index" (pub_app_idx pub) o;
  object_add "ttl" (new_int (pub_ttl pub)) o.
Definition prov_db_node_set_model_pub (node : option Z) (ele_idx model_id : Z)
    (pub : option mesh_publication) : DM bool :=
  with_model node ele_idx model_id (fun p =>
    _ ← obj_mod p (object_del "publish");
    match pub with
    | None => mret tt
    | Some pub => jpub ← lift (pub_object pub); obj_mod p (object_add "publish" jpub)
    end).

(** *** New nodes *)

Fixpoint new_elements (n : nat) (i primary : Z) (a : json) : res json :=
  match n with
  | O => mret a
  | S n' =>
      e ← object_add "elementIndex" (new_int i) (JObject []);
      e ← put_uint16 "unicastAddress" (primary + i) e;
      a ← array_add e a;
      new_elements n' (i + 1) primary a
  end.
Definition prov_db_add_new_node (node : option Z) : DM bool :=
  s ← get;
  with_main (prov_filename s)
    (jm ← main_doc;
     n ← on_nodes (nonnull_or_fault node node_deref);
     jnode ← lift (add_key "deviceKey" (nd_dev_key n) (JObject []));
     jconfig ← lift (add_node_idxs "netKeys" (nd_net_keys n) (JObject []));
     if nd_num_ele n =? 0 then mret false else
     if nd_primary n =? UNASSIGNED then mret false else
     jelements ← lift (new_elements (Z.to_nat (nd_num_ele n)) 0 (nd_primary n) (JArray []));
     jconfig ← lift (object_add "elements" jelements jconfig);
     jnode ← lift (object_add "configuration" jconfig jnode);
     _ ← (match object_get (Some jm) "nodes" with
          | None => obj_mod [] (object_add "nodes" (JArray [jnode]))
          | Some _ => obj_mod [Key "nodes"] (array_add jnode)
          end);
     _ ← prov_file_write false;
     mret true).
End Db.
