(* ===== verification/ProvDbFacts.v ===== *)
(** * Changes of the provisioning database keep its shape

    The shape that the program relies on in its two files, and that every change of
    the database goes through without a fault and leaves files of that shape. *)

From stdpp Require Import gmap strings.
From S2P Require Import Prelude Bytes Util Words Alg Ccm Crypto Keys NetState Send Recv Reassembly Node NodeFacts NodeOps ConfigModel Json JsonFacts ProvDb.

Open Scope string_scope.
Open Scope list_scope.
Open Scope Z_scope.

(** ** Shapes of the files *)

Definition model_schema : schema :=
  Obj [("modelId", true, Any); ("bind", false, Arr true Any); ("subscribe", false, Arr true Any)].
Definition element_schema : schema :=
  Obj [("unicastAddress", true, Any); ("models", false, Arr false model_schema)].
Definition config_schema : schema :=
  Obj [("elements", false, Arr true element_schema); ("netKeys", false, Arr true Any);
       ("appKeys", false, Arr true Any)].
Definition comp_schema : schema :=
  Obj [("elements", false, Arr true (Obj [("models", false, Arr false Any)]))].
Definition node_schema : schema :=
  Obj [("configuration", false, config_schema); ("composition", false, comp_schema)].
Definition range_schema : schema := Obj [("lowAddress", true, Any); ("highAddress", true, Any)].
Definition prov_schema : schema :=
  Obj [("nodes", false, Arr true node_schema); ("netKeys", false, Arr true Any); ("appKeys", false, Arr true Any);
       ("provisioners", false, Arr true (Obj [("allocatedUnicastRange", false, Arr false range_schema)]))].
Definition local_schema : schema := Obj [("node", true, node_schema); ("nodes", false, Arr true node_schema)].

(** The two files: [true] for that of the local node. *)
Definition schema_of (local : bool) : schema := if local then local_schema else prov_schema.
Definition filename_of (local : bool) (s : db_state) : option string :=
  if local then local_filename s else prov_filename s.

Lemma schema_of_wf local : schema_wf (schema_of local) = true.
Proof. by destruct local; vm_compute. Qed.

(** Finds out that a fixed value is writable or has a shape. *)
Ltac by_shape := by vm_compute.

Section Facts.
Context {J : JsonC} {L : JsonLaws J}.

(** What is in the files: a text that is a document at all is one of the right
    shape. *)
Definition file_ok (local : bool) (s : db_state) : Prop :=
  ∀ n f j, filename_of local s = Some n -> db_files s !! n = Some f ->
    json_tokener_parse (f_data f) = Some j -> doc_ok (schema_of local) j.
Record db_ok (s : db_state) : Prop := {
  db_file local : file_ok local s;
  db_names n : prov_filename s = Some n -> local_filename s <> Some n;
}.

(** States that differ in the variables of an operation only. *)
Record same_db (s s' : db_state) : Prop := {
  sm_world : db_world s' = db_world s;
  sm_prov : prov_filename s' = prov_filename s;
  sm_local : local_filename s' = local_filename s;
  sm_files : db_files s' = db_files s;
  sm_random : db_random s' = db_random s;
}.
#[export] Instance same_db_preorder : PreOrder same_db.
Proof. split; [by split | intros ? ? ? [] []; split; congruence]. Qed.

Lemma same_name local s s' : same_db s s' -> filename_of local s' = filename_of local s.
Proof. intros []. by destruct local. Qed.
Lemma same_db_ok s s' : same_db s s' -> db_ok s -> db_ok s'.
Proof.
  intros Hs [Hf Hn]. split.
  - intros local n f j. rewrite (same_name _ _ _ Hs). destruct Hs as [_ _ _ -> _]. apply Hf.
  - destruct Hs as [_ -> -> _ _]. done.
Qed.

(** ** An operation at work

    The document [j] of a file is in memory; [t] is the text. *)
Record edit (local : bool) (t : heap (list Z)) (j : json) (s : db_state) : Prop := {
  ed_str : in_str s = t;
  ed_main : jmain s = Live j;
  ed_doc : doc_ok (schema_of local) j;
  ed_db : db_ok s;
  ed_name : is_Some (filename_of local s);
}.

Lemma wp_main_doc local t j s (Q : json -> db_state -> Prop) : edit local t j s -> Q j s -> wp main_doc Q s.
Proof. intros [] HQ. unfold main_doc. wp_run. by rewrite ed_main0. Qed.

Lemma edit_at local t j s p (Q : option json -> db_state -> Prop) :
  edit local t j s -> Q (at_path p j) s -> wp (obj_at p) Q s.
Proof. intros He HQ. unfold obj_at. wp_step. eapply wp_main_doc; [exact He|]. by wp_run. Qed.

Lemma edit_mod local t j s p f j' (Q : unit -> db_state -> Prop) :
  edit local t j s -> mod_path p f j = Ok j' -> doc_ok (schema_of local) j' ->
  (∀ s', edit local t j' s' -> same_db s s' -> Q tt s') -> wp (obj_mod p f) Q s.
Proof.
  intros He Hm Hj HQ. unfold obj_mod. wp_step. eapply wp_main_doc; [exact He|]. wp_step.
  eapply wp_lift; [exact Hm|]. apply wp_modify. destruct He. apply HQ; [|by split].
  split; try done. by apply (same_db_ok s).
Qed.

(** What is in a file when it has been written. *)
Definition stored (local : bool) (j : json) (s : db_state) : Prop :=
  exists n f, filename_of local s = Some n /\ db_files s !! n = Some f /\ f_writable f = true /\
    json_tokener_parse (f_data f) = Some j.
Definition writable_db (local : bool) (s : db_state) : Prop :=
  ∀ n f, filename_of local s = Some n -> db_files s !! n = Some f -> f_writable f = true.

(** What a write leaves alone. *)
Record wrote (local : bool) (s s' : db_state) : Prop := {
  wr_world : db_world s' = db_world s;
  wr_prov : prov_filename s' = prov_filename s;
  wr_local : local_filename s' = local_filename s;
  wr_files n : filename_of local s <> Some n -> db_files s' !! n = db_files s !! n;
  wr_random : db_random s' = db_random s;
}.

Lemma edit_write local t j s (Q : unit -> db_state -> Prop) : edit local t j s ->
  (∀ s', edit local t j s' -> wrote local s s' -> (writable_db local s -> stored local j s') -> Q tt s') ->
  wp (prov_file_write local) Q s.
Proof.
  intros He HQ. unfold prov_file_write. wp_step. eapply wp_main_doc; [exact He|]. wp_step. wp_step.
  pose proof He as [Hs Hm Hj Hdb [n Hn]]. unfold filename_of in Hn. rewrite Hn.
  assert (Hpar : json_tokener_parse (json_to_string j) = Some j).
  { destruct Hj as [Hok _ Hnn]. apply parse_print; [done | by intros ->]. }
  assert (Hset : wp (modify (set_db_files (<[n:=File (json_to_string j) true]> (db_files s)))) Q s).
  { apply wp_modify. set (s' := set_db_files _ s). assert (Hname : ∀ l, filename_of l s' = filename_of l s) by done.
    apply HQ.
    - split; [done..| |by exists n]. destruct Hdb as [Hf Hd]. split; [|done]. intros l n' f j'. rewrite Hname. cbn [db_files s' set_db_files].
      destruct (decide (n = n')) as [<- | Hne].
      + rewrite lookup_insert_eq. intros Hl [= <-]. cbn [f_data]. rewrite Hpar. intros [= <-].
        destruct (decide (l = local)) as [-> | Hne]; [done|]. exfalso. unfold filename_of in Hl.
        destruct l, local; try done; by apply (Hd n).
      + rewrite lookup_insert_ne by done. apply Hf.
    - split; try done. intros n' Hn'. unfold filename_of in Hn'. rewrite Hn in Hn'. cbn [db_files s' set_db_files].
      apply lookup_insert_ne. congruence.
    - intros _. exists n, (File (json_to_string j) true). cbn [db_files s' set_db_files].
      rewrite lookup_insert_eq. by rewrite Hname. }
  destruct (db_files s !! n) as [[d []]|] eqn:E; [exact Hset | | exact Hset].
  apply wp_ret. apply HQ; [done | by split|]. intros Hw. specialize (Hw n _ Hn E). done.
Qed.

(** [h] reads the nodes. *)
Lemma nodes_read {T} (h : NM T) a s (Q : T -> db_state -> Prop) :
  h (db_world s) = Ok (a, db_world s) -> Q a s -> wp (on_nodes h) Q s.
Proof. intros Hh HQ. unfold wp, on_nodes. rewrite Hh. by destruct s. Qed.

(** The document that is in a file. *)
Definition holds (local : bool) (s : db_state) (j : json) : Prop :=
  exists n f, filename_of local s = Some n /\ db_files s !! n = Some f /\ json_tokener_parse (f_data f) = Some j.

(** Reading a file into memory. *)
Lemma load_wp local s (Q : bool -> db_state -> Prop) : db_ok s ->
  (∀ s', same_db s s' -> (∀ j, ~ holds local s j) -> Q false s') ->
  (∀ t s', same_db s s' -> (∀ j, ~ holds local s j) -> in_str s' = Live t -> jmain s' = Null -> Q true s') ->
  (∀ t j s', same_db s s' -> holds local s j -> edit local (Live t) j s' -> Q true s') ->
  wp (load (filename_of local s)) Q s.
Proof.
  intros Hdb Hno Hbad Hdoc. unfold load, prov_file_read. do 3 wp_step. cbn [mbind option_bind].
  destruct (filename_of local s) as [n|] eqn:En; cbn [mbind option_bind].
  2: { wp_run. apply Hno; [done|]. intros j (n & f & Hn & _). by rewrite En in Hn. }
  destruct (db_files s !! n) as [f|] eqn:Ef; cbn [fmap option_fmap option_map].
  2: { wp_run. apply Hno; [done|]. intros j (n' & f & Hn & Hf & _). rewrite En in Hn. injection Hn as <-. by rewrite Ef in Hf. }
  wp_run. destruct (json_tokener_parse (f_data f)) as [j|] eqn:Ej.
  2: { apply (Hbad (f_data f)); try done. intros j (n' & f' & Hn & Hf & Hj). rewrite En in Hn. injection Hn as <-.
       rewrite Ef in Hf. injection Hf as <-. by rewrite Ej in Hj. }
  apply (Hdoc (f_data f) j); [done | by exists n, f|]. set (s1 := set_jmain _ _). assert (Hs1 : same_db s s1) by by split.
  split; [done | done | by apply (db_file s Hdb local n f) | by apply (same_db_ok s)|].
  rewrite (same_name _ _ _ Hs1), En. by eexists.
Qed.

Lemma has_main_wp s (Q : bool -> db_state -> Prop) :
  Q (match jmain s with Null => false | _ => true end) s -> wp has_main Q s.
Proof. done. Qed.

(** Releasing the two. *)
Lemma free_str_wp t s (Q : unit -> db_state -> Prop) : in_str s = Live t -> Q tt (set_in_str Freed s) ->
  wp free_str Q s.
Proof. intros Ht HQ. unfold free_str. wp_run. by rewrite Ht. Qed.
Lemma put_main_wp j s (Q : unit -> db_state -> Prop) : jmain s = Live j -> Q tt (set_jmain Freed s) ->
  wp put_main Q s.
Proof. intros Hj HQ. unfold put_main. wp_run. by rewrite Hj. Qed.
Lemma put_main_if_wp s (Q : unit -> db_state -> Prop) : jmain s <> Freed ->
  (∀ s', same_db s s' -> Q tt s') -> wp put_main_if Q s.
Proof.
  intros Hj HQ. unfold put_main_if. wp_run. destruct (jmain s) as [|j|] eqn:E; [by apply HQ | | done].
  eapply put_main_wp; [exact E|]. by apply HQ.
Qed.

(** The frame of the operations. *)
Lemma with_main_wp local body (Q : bool -> db_state -> Prop) s : db_ok s ->
  (∀ s', same_db s s' -> (∀ j, ~ holds local s j) -> Q false s') ->
  (∀ t j s', edit local (Live t) j s' -> same_db s s' -> holds local s j ->
     wp body (fun r s2 => (exists j', edit local (Live t) j' s2) /\ ∀ s3, same_db s2 s3 -> Q r s3) s') ->
  wp (with_main (filename_of local s) body) Q s.
Proof.
  intros Hdb Hno Hbody. unfold with_main. wp_step. apply load_wp; [done | | |]; cbn [negb].
  - intros s' Hs Hd. wp_run. by apply Hno.
  - intros t s' Hs Hd Ht Hm. wp_step. apply has_main_wp. rewrite Hm. do 3 wp_step.
    eapply free_str_wp; [exact Ht|]. wp_step. apply put_main_if_wp; [by cbn; rewrite Hm|].
    intros s2 Hs2. wp_run. apply Hno; [|done]. etrans; [exact Hs|]. etrans; [|exact Hs2]. by split.
  - intros t j s' Hs Hd He. wp_step. apply has_main_wp. rewrite (ed_main _ _ _ _ He). wp_step.
    eapply wp_mono; [by apply (Hbody t j)|]. intros r s2 [(j' & [E1 E2 _ _ _]) HQ]. wp_step.
    eapply free_str_wp; [exact E1|]. wp_step. apply put_main_if_wp; [by cbn; rewrite E2|].
    intros s3 Hs3. wp_run. apply HQ. etrans; [|exact Hs3]. by split.
Qed.

(** ** Safe operations

    What an operation leaves: files of the right shape, the same names, and the world
    as it was. *)
Record settled (s s' : db_state) : Prop := {
  se_db : db_ok s';
  se_world : db_world s' = db_world s;
  se_name local : filename_of local s' = filename_of local s;
}.
Lemma settled_same s s1 s2 : settled s s1 -> same_db s1 s2 -> settled s s2.
Proof.
  intros [Hd Hw Hn] Hs. split; [by apply (same_db_ok s1) | destruct Hs; congruence|].
  intros l. by rewrite (same_name _ _ _ Hs).
Qed.
Lemma settled_refl s s' : db_ok s -> same_db s s' -> settled s s'.
Proof. intros Hd. by apply settled_same. Qed.

Definition editing (s0 : db_state) (local : bool) (t : heap (list Z)) (j : json) (s : db_state) : Prop :=
  edit local t j s /\ settled s0 s.

Section Rules.
Context (s0 : db_state) (local : bool) (t : heap (list Z)).
Implicit Types (j : json) (s : db_state).

Lemma ed_doc_ok j s : editing s0 local t j s -> doc_ok (schema_of local) j.
Proof. by intros [[] _]. Qed.
Lemma ed_get j s (Q : json -> db_state -> Prop) : editing s0 local t j s -> Q j s -> wp main_doc Q s.
Proof. intros [He _]. by eapply wp_main_doc. Qed.
Lemma ed_at j s p (Q : option json -> db_state -> Prop) :
  editing s0 local t j s -> Q (at_path p j) s -> wp (obj_at p) Q s.
Proof. intros [He _]. by eapply edit_at. Qed.
Lemma ed_mod j s p f j' (Q : unit -> db_state -> Prop) :
  editing s0 local t j s -> mod_path p f j = Ok j' -> doc_ok (schema_of local) j' ->
  (∀ s', editing s0 local t j' s' -> Q tt s') -> wp (obj_mod p f) Q s.
Proof.
  intros [He Hs] Hm Hj HQ. eapply edit_mod; [done..|]. intros s' He' Hsame. apply HQ. split; [done|].
  by eapply settled_same.
Qed.
Lemma ed_write_stored j s (Q : unit -> db_state -> Prop) : editing s0 local t j s ->
  (∀ s', editing s0 local t j s' -> wrote local s s' -> (writable_db local s -> stored local j s') -> Q tt s') ->
  wp (prov_file_write local) Q s.
Proof.
  intros [He [Hd Hw Hn]] HQ. eapply edit_write; [done|]. intros s' He' Hwr Hst. apply HQ; [|done..].
  split; [done|]. split.
  - by destruct He'.
  - destruct Hwr. congruence.
  - intros l. rewrite <-Hn. destruct Hwr as [_ Hp Hl _ _], l; done.
Qed.
Lemma ed_write j s (Q : unit -> db_state -> Prop) : editing s0 local t j s ->
  (∀ s', editing s0 local t j s' -> Q tt s') -> wp (prov_file_write local) Q s.
Proof. intros He HQ. eapply ed_write_stored; [done|]. intros s' He' _ _. by apply HQ. Qed.
Lemma ed_nodes {T} (h : NM T) a j s (Q : T -> db_state -> Prop) : editing s0 local t j s ->
  h (db_world s0) = Ok (a, db_world s0) -> Q a s -> wp (on_nodes h) Q s.
Proof. intros [_ [_ Hw _]]. rewrite <-Hw. by apply nodes_read. Qed.

(** A member of an object: added, or replaced. *)
Lemma ed_add j s p k v l n (Q : unit -> db_state -> Prop) : editing s0 local t j s ->
  schema_wf (path_schema p (schema_of local)) = true ->
  (length p + S n <= max_depth)%nat -> plain_text (key_codes k) = true ->
  at_path p j = Some (JObject l) -> ptr v = Some v ->
  conforms (step_schema (Key k) (path_schema p (schema_of local))) v = true -> json_ok n v = true ->
  (∀ j' s', editing s0 local t j' s' -> at_path p j' = Some (JObject (put_key k v l)) -> Q tt s') ->
  wp (obj_mod p (object_add k v)) Q s.
Proof.
  intros He Hwf Hd Hk Hat Hn Hc Hv HQ.
  edestruct (doc_object_add (schema_of local) p k v j l n) as (j' & Hm & Hj' & Hat'); try done.
  - apply schema_of_wf.
  - by eapply ed_doc_ok.
  - eapply ed_mod; [done..|]. intros s' He'. by eapply HQ.
Qed.
Lemma ed_del j s p k l (Q : unit -> db_state -> Prop) : editing s0 local t j s ->
  (length p < max_depth)%nat -> optional_in k (path_schema p (schema_of local)) ->
  at_path p j = Some (JObject l) ->
  (∀ j' s', editing s0 local t j' s' -> at_path p j' = Some (JObject (remove_first (has_key k) l)) -> Q tt s') ->
  wp (obj_mod p (object_del k)) Q s.
Proof.
  intros He Hd Hk Hat HQ.
  edestruct (doc_object_del (schema_of local) p k j l) as (j' & Hm & Hj' & Hat'); try done.
  - apply schema_of_wf.
  - by eapply ed_doc_ok.
  - eapply ed_mod; [done..|]. intros s' He'. by eapply HQ.
Qed.
Lemma ed_append j s p v l n (Q : unit -> db_state -> Prop) : editing s0 local t j s ->
  (length p + S n <= max_depth)%nat -> at_path p j = Some (JArray l) -> ptr v = Some v ->
  conforms (step_schema (Idx (length l)) (path_schema p (schema_of local))) v = true -> json_ok n v = true ->
  (∀ j' s', editing s0 local t j' s' -> at_path p j' = Some (JArray (l ++ [v])) -> Q tt s') ->
  wp (obj_mod p (array_add v)) Q s.
Proof.
  intros He Hd Hat Hn Hc Hv HQ.
  edestruct (doc_array_add (schema_of local) p v j l n) as (j' & Hm & Hj' & Hat'); try done.
  - apply schema_of_wf.
  - by eapply ed_doc_ok.
  - eapply ed_mod; [done..|]. intros s' He'. by eapply HQ.
Qed.
Lemma ed_replace j s p k v l n (Q : unit -> db_state -> Prop) : editing s0 local t j s ->
  schema_wf (path_schema p (schema_of local)) = true -> optional_in k (path_schema p (schema_of local)) ->
  (length p + S n <= max_depth)%nat -> plain_text (key_codes k) = true ->
  at_path p j = Some (JObject l) -> ptr v = Some v ->
  conforms (step_schema (Key k) (path_schema p (schema_of local))) v = true -> json_ok n v = true ->
  (∀ j' s', editing s0 local t j' s' ->
     at_path p j' = Some (JObject (put_key k v (remove_first (has_key k) l))) -> Q tt s') ->
  wp (replace p k v) Q s.
Proof.
  intros He Hwf Ho Hd Hk Hat Hn Hc Hv HQ. unfold replace. wp_step. eapply ed_del; [done | lia | done..|].
  intros j1 s1 He1 Hat1. by eapply ed_add.
Qed.
End Rules.

Lemma with_main_safe local body s : db_ok s ->
  (∀ t j s', editing s local (Live t) j s' ->
     wp body (fun _ s2 => exists j', editing s local (Live t) j' s2) s') ->
  wp (with_main (filename_of local s) body) (fun _ => settled s) s.
Proof.
  intros Hdb Hbody. apply with_main_wp; [done | intros s' Hs _; by apply settled_refl|]. intros t j s' He Hs _.
  eapply wp_mono; [apply (Hbody t j s'); split; [done | by apply settled_refl]|].
  intros r s2 (j' & He' & Hs2). split; [by eexists|]. intros s3 Hs3. by eapply settled_same.
Qed.

(** *** Finding a node *)

Lemma the_string_ok v : exists t, the_string (Some v) = Ok t.
Proof. unfold the_string, get_string. destruct v; by eexists. Qed.
Lemma scan_u16_ok v : exists r, scan_u16 (Some v) = Ok r.
Proof. unfold scan_u16. destruct (the_string_ok v) as [t ->]. by eexists. Qed.
Lemma scan_model_id_ok v : exists r, scan_model_id (Some v) = Ok r.
Proof. unfold scan_model_id. destruct (the_string_ok v) as [t ->]. cbn. case_goal; by eexists. Qed.

Definition hole_or (s : schema) (x : option json) : Prop :=
  match x with None => True | Some v => conforms s v = true end.
Lemma array_items_ok h s a : conforms (Arr h s) a = true ->
  exists l, a = JArray l /\ array_items (Some a) = Ok (ptr <$> l) /\ Forall (hole_or s) (ptr <$> l) /\
    (h = false -> Forall is_Some (ptr <$> l)).
Proof.
  intros (l & -> & Hl)%conforms_arr. exists l. split; [done|]. split; [done|]. rewrite !Forall_fmap.
  rewrite !Forall_forall in *. split.
  - intros x Hx. specialize (Hl x Hx). unfold compose, hole_or. destruct (ptr x) as [y|] eqn:E; [|done].
    assert (y = x) as -> by (destruct x; cbn in E; congruence). done.
  - intros -> x Hx. specialize (Hl x Hx). unfold compose. by destruct (ptr x).
Qed.

(** The elements of a node object, each with an address. *)
Lemma node_elements_ok v a : conforms node_schema v = true ->
  object_get (object_get (Some v) "configuration") "elements" = Some a ->
  conforms (Arr true element_schema) a = true.
Proof.
  intros Hv Ha. destruct (object_get (Some v) "configuration") as [c|] eqn:E; [|done].
  pose proof (get_conforms _ v "configuration" c Hv E) as Hc. exact (get_conforms _ c "elements" a Hc Ha).
Qed.

Lemma find_primary_ok primary l i : Forall (hole_or node_schema) l ->
  exists r, find_primary primary l i = Ok r /\
    ∀ k, r = Some k -> exists v m, k = (i + m)%nat /\ l !! m = Some (Some v) /\ conforms node_schema v = true.
Proof.
  revert i. induction l as [|x l IH]; intros i Hl; cbn [find_primary]; [by exists None|].
  apply Forall_cons in Hl as [Hx Hl].
  destruct (object_get (object_get x "configuration") "elements") as [a|] eqn:Ea; [|by exists None].
  destruct x as [v|]; [|done]. destruct (array_items_ok _ _ _ (node_elements_ok v a Hx Ea)) as (es & -> & Hes & Hall & _).
  unfold array_get. rewrite Hes. cbn [mbind res_bind mret res_ret].
  destruct ((ptr <$> es) !! Z.to_nat 0 ≫= id) as [e|] eqn:Ee; [|by exists None].
  assert (He : conforms element_schema e = true).
  { rewrite Forall_lookup in Hall. destruct ((ptr <$> es) !! Z.to_nat 0) as [y|] eqn:Ey; [|done].
    cbn in Ee. subst y. by apply (Hall _ _ Ey). }
  destruct (get_required _ e "unicastAddress" _ He eq_refl eq_refl) as (u & Hu & _). rewrite Hu.
  destruct (scan_u16_ok u) as [r ->]. cbn [mbind res_bind]. destruct r as [addr|]; [|by exists None].
  case_goal.
  - exists (Some i). split; [done|]. intros k [= <-]. exists v, O. by rewrite Nat.add_0_r.
  - destruct (IH (S i) Hl) as (r & -> & Hr). exists r. split; [done|]. intros k Hk.
    destruct (Hr k Hk) as (v' & m & -> & ? & ?). exists v', (S m). split; [lia | done].
Qed.

Lemma schema_nodes local : path_schema [Key "nodes"] (schema_of local) = Arr true node_schema.
Proof. by destruct local. Qed.

(** A node object of the document, which may be that of the local node. *)
Record node_at (local : bool) (p : list pstep) (j : json) : Prop := {
  na_schema : path_schema p (schema_of local) = node_schema;
  na_depth : (length p <= 2)%nat;
  na_object : exists l, at_path p j = Some (JObject l);
}.

Lemma find_node_ok local primary j : doc_ok (schema_of local) j ->
  exists r, find_node_by_primary primary j = Ok r /\
    ∀ p, r = Some p -> node_at local p j.
Proof.
  intros [_ Hc Hn]. unfold find_node_by_primary. destruct (object_get (Some j) "nodes") as [a|] eqn:Ea; [|by exists None].
  assert (Hp : at_path [Key "nodes"] j = Some a) by (change [Key "nodes"] with ([] ++ [Key "nodes"]); rewrite at_path_key; cbn [at_path]; by rewrite Hn).
  pose proof (conforms_at _ _ _ _ Hc Hp) as Ha. rewrite schema_nodes in Ha.
  destruct (array_items_ok _ _ _ Ha) as (l & -> & -> & Hall & _). cbn [mbind res_bind].
  destruct (find_primary_ok primary _ 0 Hall) as (r & -> & Hr). eexists. split; [done|].
  intros p Hr'. destruct r as [k|]; [|done]. injection Hr' as <-. destruct (Hr k eq_refl) as (v & m & -> & Hm & Hv).
  split; [by destruct local | cbn; lia|]. cbn [Nat.add].
  apply conforms_obj in Hv as [[o ->] _]. exists o.
  change [Key "nodes"; Idx m] with ([Key "nodes"] ++ [Idx m]). rewrite at_path_app, Hp. cbn [at_path at_step].
  rewrite list_lookup_fmap in Hm. destruct (l !! m) as [x|]; [|done]. cbn in Hm. by injection Hm.
Qed.

(** *** What is written *)

Lemma new_int_ok v d : json_ok (S d) (new_int v) = true.
Proof. cbn. apply andb_true_iff. rewrite Z.leb_le, Z.ltb_lt. unfold s32, u32. case_goal; bool_hyps; zlia. Qed.

Lemma digits_plain n v : plain_text (digits 16 n v) = true.
Proof.
  induction n as [|n IH]; [done|]. cbn [digits plain_text forallb]. rewrite andb_true_iff. split; [|exact IH].
  assert (H : 0 <= v / 16 ^ Z.of_nat n mod 16 < 16) by (apply Z.mod_pos_bound; lia).
  exact (all_below_spec 16 (fun d => (0 <? digit_char d) && (digit_char d <? 128)) _ ltac:(by vm_compute) H).
Qed.
Lemma hex_u16_ok v d : json_ok (S d) (hex_u16 v) = true.
Proof. apply digits_plain. Qed.
Lemma hex_u32_ok v d : json_ok (S d) (hex_u32 v) = true.
Proof. apply digits_plain. Qed.

Lemma put_uint16_list_ok l acc : put_uint16_list l (JArray acc) = Ok (JArray (acc ++ (hex_u16 <$> l))).
Proof.
  revert acc. unfold put_uint16_list. induction l as [|x l IH]; intros acc; cbn [foldM].
  - by rewrite fmap_nil, app_nil_r.
  - transitivity (foldM put_uint16_array_entry l (JArray (acc ++ [hex_u16 x]))); [done|].
    rewrite IH. by rewrite fmap_cons, <-app_assoc.
Qed.
Lemma hex_list_ok l d : json_ok (S (S d)) (JArray (hex_u16 <$> l)) = true.
Proof. apply json_ok_array, Forall_fmap, Forall_forall. intros x _. apply hex_u16_ok. Qed.
Lemma hex_list_shape h l : conforms (Arr h Any) (JArray (hex_u16 <$> l)) = true.
Proof. apply conforms_arr. eexists. split; [done|]. by apply Forall_fmap, Forall_forall. Qed.

(** ** The operations *)

(** A node of the world. *)
Record live (id : Z) (n : mesh_node) (w : world node_store) : Prop := {
  lv_valid : ns_valid (w_nodes w) = true;
  lv_node : find_first (is_node id) (ns_nodes (w_nodes w)) = Some n;
}.

Lemma live_deref id n w : live id n w -> node_deref id w = Ok (n, w).
Proof. intros [Hv Hn]. unfold node_deref, store, mbind, st_bind, gets, lift, node_ref. by rewrite Hv, Hn. Qed.
Lemma live_primary id n w : live id n w -> node_primary (Some id) w = Ok (nd_primary n, w).
Proof. intros Hl. unfold node_primary, nonnull, mbind, st_bind. by rewrite (live_deref _ _ _ Hl). Qed.
Lemma live_comp id n w : live id n w -> node_get_composition (Some id) w = Ok (nd_comp n, w).
Proof. intros Hl. unfold node_get_composition, nonnull, mbind, st_bind. by rewrite (live_deref _ _ _ Hl). Qed.
Lemma live_num id n w : live id n w -> node_get_num_elements (Some id) w = Ok (nd_num_ele n, w).
Proof. intros Hl. unfold node_get_num_elements, nonnull_or_fault, mbind, st_bind. by rewrite (live_deref _ _ _ Hl). Qed.
Lemma local_read id w : node_is_local id w = Ok (bool_decide (id = ns_local (w_nodes w)), w).
Proof. done. Qed.

Section Parts.
Context (s0 : db_state) (local : bool) (t : heap (list Z)).
Implicit Types (j : json) (s : db_state) (Q : bool -> db_state -> Prop).

Lemma with_primary_safe j s primary body Q : editing s0 local t j s -> Q false s ->
  (∀ p, node_at local p j -> wp (body p) Q s) -> wp (with_primary primary body) Q s.
Proof.
  intros He Hno Hp. unfold with_primary, primary_path. wp_step. wp_step. eapply ed_get; [exact He|].
  destruct (find_node_ok local primary j (ed_doc_ok _ _ _ _ _ He)) as (r & Hr & Hnode).
  eapply wp_lift; [exact Hr|]. destruct r as [p|]; [by apply Hp, Hnode | by wp_run].
Qed.

End Parts.

Section Nodes.
Context (s0 : db_state) (local : bool) (t : heap (list Z)).
Implicit Types (j : json) (s : db_state) (Q : bool -> db_state -> Prop).

Lemma local_node_at j s : editing s0 true t j s -> node_at true [Key "node"] j.
Proof.
  intros [[_ _ [Hok Hc Hn] _ _] _]. split; [done | cbn; lia|].
  destruct (get_required _ j "node" _ Hc eq_refl eq_refl) as (v & Hv & Hcv).
  apply conforms_obj in Hcv as [[l ->] _]. exists l. change [Key "node"] with ([] ++ [Key "node"]).
  rewrite at_path_key. cbn [at_path]. by rewrite Hn.
Qed.

Lemma with_node_safe j s primary body Q : editing s0 local t j s -> Q false s ->
  (∀ p, node_at local p j -> wp (body p) Q s) -> wp (with_node local primary body) Q s.
Proof.
  intros He Hno Hp. unfold with_node. destruct local eqn:El.
  - destruct (local_node_at j s He) as [H1 H2 [l H3]]. unfold when_obj. wp_step. eapply ed_at; [exact He|].
    rewrite H3. apply Hp. split; [done..|]. by eexists.
  - eapply with_primary_safe; [exact He | exact Hno | exact Hp].
Qed.

Lemma schema_config p j : node_at local p j ->
  path_schema (p ++ [Key "configuration"]) (schema_of local) = config_schema.
Proof. intros [Hs _ _]. unfold path_schema in *. rewrite fold_left_app, Hs. done. Qed.

Lemma when_config j s p body Q : editing s0 local t j s -> node_at local p j -> Q false s ->
  (∀ l, at_path (p ++ [Key "configuration"]) j = Some (JObject l) -> wp body Q s) ->
  wp (when_obj (p ++ [Key "configuration"]) body) Q s.
Proof.
  intros He Hp Hno Hbody. unfold when_obj. wp_step. eapply ed_at; [exact He|].
  destruct (at_path _ j) as [v|] eqn:E; [|by wp_run].
  pose proof (conforms_at _ _ _ _ (doc_shape _ _ (ed_doc_ok _ _ _ _ _ He)) E) as Hc.
  rewrite (schema_config p j Hp) in Hc. apply conforms_obj in Hc as [[l ->] _]. by apply (Hbody l).
Qed.
End Nodes.

Lemma filename_read local s (Q : option string -> db_state -> Prop) :
  Q (filename_of local s) s -> wp (db_filename local) Q s.
Proof. done. Qed.

(** Where an operation ends. *)
Lemma ed_done {T} s0 local t j (a : T) s : editing s0 local t j s ->
  wp (mret a) (fun _ s2 => exists j', editing s0 local t j' s2) s.
Proof. intros He. apply wp_ret. by eexists. Qed.

Lemma set_ttl_safe id n ttl s : db_ok s -> live id n (db_world s) ->
  wp (prov_db_node_set_ttl (Some id) ttl) (fun _ => settled s) s.
Proof.
  intros Hdb Hl. unfold prov_db_node_set_ttl. wp_step. eapply nodes_read; [by apply live_primary|].
  wp_step. eapply nodes_read; [by apply local_read|]. set (local := bool_decide _). wp_step. apply filename_read.
  apply with_main_safe; [done|]. intros t j s1 He.
  eapply with_node_safe; [exact He | by eexists |]. intros p Hp.
  eapply when_config; [exact He | exact Hp | by eexists |]. intros l Hat. wp_step.
  assert (Hd : (length (p ++ [Key "configuration"]) <= 3)%nat) by (destruct Hp; rewrite length_app; cbn; lia).
  eapply (ed_replace _ _ _ j s1 _ "defaultTTL" (new_int ttl) l 1); [exact He | | | | | exact Hat | | | |].
  - by rewrite (schema_config local p j Hp).
  - rewrite (schema_config local p j Hp). repeat constructor.
  - unfold max_depth. lia.
  - done.
  - done.
  - by rewrite (schema_config local p j Hp).
  - apply new_int_ok.
  - intros j2 s2 He2 _. wp_step. eapply ed_write; [exact He2|]. intros s3 He3. by apply (ed_done _ _ _ j2).
Qed.

(** The settings of the local node. *)
Lemma set_iv_safe s0 local t j s p idx upd (Q : unit -> db_state -> Prop) l :
  editing s0 local t j s -> (length p <= 1)%nat -> at_path p j = Some (JObject l) ->
  path_schema p (schema_of local) = node_schema \/ path_schema p (schema_of local) = prov_schema ->
  (∀ j' s', editing s0 local t j' s' -> Q tt s') ->
  wp (set_local_iv_index p idx upd) Q s.
Proof.
  intros He Hp Hat Hs HQ. unfold set_local_iv_index. wp_step.
  eapply (ed_replace _ _ _ j s p "IVindex" (new_int idx) l 1);
    [exact He | | | unfold max_depth; lia | done | exact Hat | done | | apply new_int_ok |].
  - by destruct Hs as [-> | ->].
  - destruct Hs as [-> | ->]; repeat constructor.
  - by destruct Hs as [-> | ->].
  - intros j1 s1 He1 Hat1.
    eapply (ed_replace _ _ _ j1 s1 p "IVupdate" (JInt (b2z upd)) _ 1);
      [exact He1 | | | unfold max_depth; lia | done | exact Hat1 | done | | by destruct upd |].
    + by destruct Hs as [-> | ->].
    + destruct Hs as [-> | ->]; repeat constructor.
    + by destruct Hs as [-> | ->].
    + intros j2 s2 He2 _. by apply (HQ j2).
Qed.

Lemma main_object local j : doc_ok (schema_of local) j -> exists l, at_path [] j = Some (JObject l).
Proof.
  intros [_ Hc Hn]. cbn [at_path]. rewrite Hn. destruct local; apply conforms_obj in Hc as [[l ->] _]; by exists l.
Qed.

Lemma set_seq_safe seq s : db_ok s -> wp (prov_db_local_set_seq_num seq) (fun _ => settled s) s.
Proof.
  intros Hdb. unfold prov_db_local_set_seq_num. wp_step. apply wp_get. change (local_filename s) with (filename_of true s).
  apply with_main_safe; [done|]. intros t j s1 He. destruct (local_node_at _ _ j s1 He) as [Hs Hd [l Hat]]. wp_step.
  eapply (ed_replace _ _ _ j s1 [Key "node"] "sequenceNumber" (new_int seq) l 1);
    [exact He | done | repeat constructor | unfold max_depth; cbn; lia | done | exact Hat | done | done | apply new_int_ok |].
  intros j2 s2 He2 _. wp_step. eapply ed_write; [exact He2|]. intros s3 He3. by apply (ed_done _ _ _ j2).
Qed.

(** With the provisioner's database there is nothing to release twice. *)
Lemma set_iv_index_safe iv upd s : db_ok s ->
  wp (prov_db_local_set_iv_index iv upd true) (fun _ => settled s) s.
Proof.
  intros Hdb. unfold prov_db_local_set_iv_index. wp_step. apply wp_get. wp_step. change (local_filename s) with (filename_of true s).
  apply load_wp; [done | | |]; cbn [negb].
  - intros s' Hs _. wp_run. by apply settled_refl.
  - intros t s' Hs _ Ht Hm. wp_step. apply has_main_wp. rewrite Hm. cbn [negb]. wp_step. wp_step. wp_step.
    eapply free_str_wp; [exact Ht|]. wp_step. apply put_main_if_wp; [by cbn; rewrite Hm|]. intros s2 Hs2. wp_run.
    eapply settled_same; [|exact Hs2]. eapply settled_same; [by apply settled_refl|]. by split.
  - intros t j s' Hs _ He. wp_step. apply has_main_wp. rewrite (ed_main _ _ _ _ He). cbn [negb].
    assert (He' : editing s true (Live t) j s') by (split; [done | by apply settled_refl]).
    destruct (local_node_at _ _ j s' He') as [Hsch _ [l Hat]]. wp_step. wp_step.
    eapply set_iv_safe; [exact He' | done | exact Hat | by left |]. intros j1 s1 He1. wp_step.
    eapply ed_write; [exact He1|]. intros s2 [[E1 E2 _ _ _] Hs2]. wp_step. eapply free_str_wp; [exact E1|]. wp_step.
    eapply put_main_wp; [exact E2|]. set (s3 := set_jmain _ _).
    assert (Hs3 : settled s s3) by (eapply settled_same; [exact Hs2 | by split]).
    unfold provisioner_iv_index. wp_step. apply wp_get. wp_step. change (prov_filename s3) with (filename_of false s3).
    apply load_wp; [by destruct Hs3 | | |]; cbn [negb].
    + intros s4 Hs4 _. wp_run. by eapply settled_same.
    + intros t4 s4 Hs4 _ Ht4 Hm4. wp_step. apply has_main_wp. rewrite Hm4. cbn [negb]. wp_step. wp_step.
      eapply free_str_wp; [exact Ht4|]. wp_step. apply put_main_if_wp; [by cbn; rewrite Hm4|]. intros s5 Hs5. wp_run.
      eapply settled_same; [|exact Hs5]. eapply settled_same; [by eapply settled_same|]. by split.
    + intros t4 j4 s4 Hs4 _ He4. wp_step. apply has_main_wp. rewrite (ed_main _ _ _ _ He4). cbn [negb].
      assert (He4' : editing s false (Live t4) j4 s4) by (split; [done | by eapply settled_same]).
      destruct (main_object false j4 (ed_doc _ _ _ _ He4)) as [l4 Hat4]. wp_step.
      eapply set_iv_safe; [exact He4' | cbn; lia | exact Hat4 | by right |]. intros j5 s5 He5. wp_step.
      eapply ed_write; [exact He5|]. intros s6 [[F1 F2 _ _ _] Hs6]. wp_step. wp_step.
      eapply free_str_wp; [exact F1|]. wp_step. apply put_main_if_wp; [by cbn; rewrite F2|]. intros s7 Hs7. wp_run.
      eapply settled_same; [|exact Hs7]. eapply settled_same; [exact Hs6 | by split].
Qed.

Lemma set_iv_seq_safe node primary iv seq s : db_ok s ->
  node_primary node (db_world s) = Ok (primary, db_world s) ->
  wp (prov_db_node_set_iv_seq node iv seq) (fun _ => settled s) s.
Proof.
  intros Hdb Hp. unfold prov_db_node_set_iv_seq. wp_step. eapply nodes_read; [exact Hp|].
  wp_step. apply wp_get. change (prov_filename s) with (filename_of false s). apply with_main_safe; [done|]. intros t j s1 He.
  eapply with_primary_safe; [exact He | by eexists |]. intros p [Hs Hd [l Hat]]. wp_step.
  eapply (ed_replace _ _ _ j s1 p "IVindex" (new_int iv) l 1);
    [exact He | by rewrite Hs | rewrite Hs; repeat constructor | unfold max_depth; lia | done | exact Hat | done
    | by rewrite Hs | apply new_int_ok |].
  intros j2 s2 He2 Hat2. wp_step.
  eapply (ed_replace _ _ _ j2 s2 p "sequenceNumber" (new_int seq) _ 1);
    [exact He2 | by rewrite Hs | rewrite Hs; repeat constructor | unfold max_depth; lia | done | exact Hat2 | done
    | by rewrite Hs | apply new_int_ok |].
  intros j3 s3 He3 _. wp_step. eapply ed_write; [exact He3|]. intros s4 He4. by apply (ed_done _ _ _ j3).
Qed.

Definition keys_desc (desc : string) : Prop := desc = "netKeys" \/ desc = "appKeys".
Lemma node_keys_safe id n idxs desc s : db_ok s -> live id n (db_world s) -> keys_desc desc ->
  wp (prov_db_node_keys (Some id) idxs desc) (fun _ => settled s) s.
Proof.
  intros Hdb Hl Hk. unfold prov_db_node_keys. wp_step. eapply nodes_read; [by apply live_primary|].
  wp_step. eapply nodes_read; [by apply local_read|]. set (local := bool_decide _). wp_step. apply filename_read.
  apply with_main_safe; [done|]. intros t j s1 He.
  eapply with_primary_safe; [exact He | by eexists |]. intros p Hp.
  eapply when_config; [exact He | exact Hp | by eexists |]. intros l Hat. cbv zeta.
  pose proof (schema_config local p j Hp) as Hsch.
  assert (Hd : (length (p ++ [Key "configuration"]) <= 3)%nat) by (destruct Hp; rewrite length_app; cbn; lia). wp_step.
  eapply (ed_del _ _ _ j s1 _ desc l); [exact He | unfold max_depth; lia | | exact Hat |].
  { rewrite Hsch. destruct Hk as [-> | ->]; repeat constructor. }
  intros j2 s2 He2 Hat2. wp_step. apply (wp_mono _ (fun _ s' => exists j', editing s local (Live t) j' s')).
  - destruct idxs as [|x idxs]; [by apply (ed_done _ _ _ j2)|]. wp_step.
    eapply wp_lift; [exact (put_uint16_list_ok (x :: idxs) [])|]. rewrite app_nil_l.
    eapply (ed_add _ _ _ j2 s2 _ desc _ _ 2); [exact He2 | by rewrite Hsch | unfold max_depth; lia | | exact Hat2 | done
      | | apply hex_list_ok |].
    + by destruct Hk as [-> | ->].
    + rewrite Hsch. destruct Hk as [-> | ->]; apply hex_list_shape.
    + intros j3 s3 He3 _. by eexists.
  - intros _ s3 (j3 & He3). wp_step. eapply ed_write; [exact He3|]. intros s4 He4. by apply (ed_done _ _ _ j3).
Qed.

(** *** Models *)

Lemma find_model_obj_ok target l i : Forall (fun x => exists v, x = Some v /\ conforms model_schema v = true) l ->
  exists r, find_model_obj target l i = Ok r /\
    ∀ k, r = Some k -> exists m v, k = (i + m)%nat /\ l !! m = Some (Some v).
Proof.
  revert i. induction l as [|x l IH]; intros i Hl; cbn [find_model_obj]; [by exists None|].
  apply Forall_cons in Hl as [(v & -> & Hv) Hl].
  destruct (get_required _ v "modelId" _ Hv eq_refl eq_refl) as (u & Hu & _). rewrite Hu.
  destruct (scan_model_id_ok u) as [r ->]. cbn [mbind res_bind]. destruct r as [id|]; [|by exists None].
  case_goal.
  - exists (Some i). split; [done|]. intros k [= <-]. exists O, v. by rewrite Nat.add_0_r.
  - destruct (IH (S i) Hl) as (r & -> & Hr). exists r. split; [done|]. intros k Hk.
    destruct (Hr k Hk) as (m & v' & -> & ?). exists (S m), v'. split; [lia | done].
Qed.

Lemma new_model_ok id : exists l, new_model id = Ok (JObject l) /\
  conforms model_schema (JObject l) = true /\ json_ok 2 (JObject l) = true.
Proof.
  unfold new_model. case_goal; (eexists; split; [reflexivity|]; split; [done|]); apply json_ok_object;
    (split; [done|]); repeat constructor; apply digits_plain.
Qed.

(** A pointer to an object of a given shape. *)
Record obj_of (local : bool) (sch : schema) (d : nat) (p : list pstep) (j : json) : Prop := {
  oo_schema : path_schema p (schema_of local) = sch;
  oo_depth : (length p <= d)%nat;
  oo_object : exists l, at_path p j = Some (JObject l);
}.

Lemma path_schema_app p q sch : path_schema (p ++ q) sch = path_schema q (path_schema p sch).
Proof. apply fold_left_app. Qed.

Lemma get_path p k j v : at_path p j = Some v -> object_get (Some v) k = at_path (p ++ [Key k]) j.
Proof. intros Hv. by rewrite at_path_key, Hv. Qed.

Section Model.
Context (s0 : db_state) (local : bool) (t : heap (list Z)).
Implicit Types (j : json) (s : db_state).

Lemma element_model_safe j s pe model_id (Q : list pstep -> db_state -> Prop) : editing s0 local t j s ->
  obj_of local element_schema 5 pe j ->
  (∀ j' s' pm, editing s0 local t j' s' -> obj_of local model_schema 7 pm j' -> Q pm s') ->
  wp (element_model pe model_id) Q s.
Proof.
  intros He [Hs Hd [le Hat]] HQ. unfold element_model. wp_step. eapply ed_at; [exact He|].
  assert (Hsm : path_schema (pe ++ [Key "models"]) (schema_of local) = Arr false model_schema)
    by (rewrite path_schema_app, Hs; done).
  assert (Hlen : length (pe ++ [Key "models"]) = S (length pe)) by (rewrite length_app; cbn; lia).
  (* the array, with the place of the model or none *)
  assert (Hmid : ∀ (Q' : option nat -> db_state -> Prop),
    (∀ j1 s1 lm, editing s0 local t j1 s1 -> at_path (pe ++ [Key "models"]) j1 = Some (JArray lm) -> Q' None s1) ->
    (∀ lm i o, at_path (pe ++ [Key "models"]) j = Some (JArray lm) -> lm !! i = Some (JObject o) -> Q' (Some i) s) ->
    wp (match at_path (pe ++ [Key "models"]) j with
        | None => _ ← obj_mod pe (object_add "models" (JArray [])); mret None
        | Some _ => lift (find_configured_model (at_path (pe ++ [Key "models"]) j) model_id)
        end) Q' s).
  { intros Q' Hnone Hsome. destruct (at_path (pe ++ [Key "models"]) j) as [a|] eqn:Ea.
    - pose proof (conforms_at _ _ _ _ (doc_shape _ _ (ed_doc_ok _ _ _ _ _ He)) Ea) as Ha. rewrite Hsm in Ha.
      destruct (array_items_ok _ _ _ Ha) as (lm & -> & Hl & Hall & Hfull). specialize (Hfull eq_refl).
      unfold find_configured_model. rewrite Hl. cbn [mbind res_bind].
      destruct (find_model_obj_ok model_id (ptr <$> lm) 0) as (r & Hr & Hi).
      { rewrite Forall_forall in *. intros x Hx. specialize (Hall x Hx). destruct (Hfull x Hx) as [v ->]. by exists v. }
      eapply wp_lift; [exact Hr|]. destruct r as [k|]; [|by eapply Hnone].
      destruct (Hi k eq_refl) as (m & v & -> & Hm). cbn [Nat.add]. rewrite list_lookup_fmap in Hm.
      destruct (lm !! m) as [x|] eqn:Ex; [|done]. cbn in Hm. injection Hm as Hx.
      assert (x = v) as -> by (destruct x; cbn in Hx; congruence).
      assert (Hv : conforms model_schema v = true).
      { rewrite Forall_lookup in Hall. apply (Hall m (Some v)). rewrite list_lookup_fmap, Ex. cbn. by rewrite Hx. }
      apply conforms_obj in Hv as [[o ->] _]. by eapply Hsome.
    - wp_step. eapply (ed_add _ _ _ j s pe "models" (JArray []) le 1);
        [exact He | by rewrite Hs | unfold max_depth; lia | done | exact Hat | done | by rewrite Hs | done |].
      intros j1 s1 He1 Hat1. apply wp_ret. apply (Hnone j1 s1 []); [done|].
      rewrite at_path_key, Hat1, object_get_put. by rewrite decide_True. }
  wp_step. apply Hmid.
  - intros j1 s1 lm He1 Hlm. wp_step. eapply ed_at; [exact He1|]. rewrite Hlm. wp_step.
    eapply wp_lift; [done|]. destruct (new_model_ok model_id) as (lo & Hn & Hc & Hok). wp_step.
    eapply wp_lift; [exact Hn|]. wp_step.
    eapply (ed_append _ _ _ j1 s1 _ (JObject lo) lm 2);
      [exact He1 | rewrite Hlen; unfold max_depth; lia | exact Hlm | done | by rewrite Hsm | done |].
    intros j2 s2 He2 Hat2. apply wp_ret. apply (HQ j2 s2); [done|]. rewrite length_fmap. split.
    + by rewrite path_schema_app, Hsm.
    + rewrite length_app, Hlen. cbn. lia.
    + exists lo. rewrite at_path_app, Hat2. cbn [at_path at_step]. by rewrite list_lookup_middle.
  - intros lm i o Hlm Hi. apply wp_ret. apply (HQ j s); [done|]. split.
    + by rewrite path_schema_app, Hsm.
    + rewrite length_app, Hlen. cbn. lia.
    + exists o. rewrite at_path_app, Hlm. cbn [at_path at_step]. by rewrite Hi.
Qed.

Lemma node_element_safe j s p ele_idx (Q : option (list pstep) -> db_state -> Prop) : editing s0 local t j s ->
  node_at local p j -> Q None s ->
  (∀ pe, obj_of local element_schema 5 pe j -> Q (Some pe) s) ->
  wp (node_element p ele_idx) Q s.
Proof.
  intros He Hp Hno Hsome. unfold node_element. wp_step. eapply ed_at; [exact He|].
  destruct (object_get _ "elements") as [a|] eqn:Ea; [|by wp_run].
  rewrite <-at_path_key, <-app_assoc in Ea. cbn [app] in Ea.
  assert (Hse : path_schema (p ++ [Key "configuration"; Key "elements"]) (schema_of local) = Arr true element_schema).
  { rewrite path_schema_app. destruct Hp as [-> _ _]. done. }
  pose proof (conforms_at _ _ _ _ (doc_shape _ _ (ed_doc_ok _ _ _ _ _ He)) Ea) as Ha. rewrite Hse in Ha.
  destruct (array_items_ok _ _ _ Ha) as (le & -> & Hl & Hall & _). wp_step.
  eapply wp_lift; [unfold array_get; by rewrite Hl|]. apply wp_ret.
  destruct ((ptr <$> le) !! Z.to_nat ele_idx ≫= id) as [e|] eqn:Ee; [|done]. apply Hsome.
  destruct ((ptr <$> le) !! Z.to_nat ele_idx) as [x|] eqn:Ex; [|done]. cbn in Ee. subst x.
  assert (Hc : conforms element_schema e = true) by (rewrite Forall_lookup in Hall; by apply (Hall (Z.to_nat ele_idx) (Some e))).
  apply conforms_obj in Hc as [[o ->] _]. split.
  - change [Key "configuration"; Key "elements"; Idx (Z.to_nat ele_idx)]
      with ([Key "configuration"; Key "elements"] ++ [Idx (Z.to_nat ele_idx)]).
    by rewrite app_assoc, path_schema_app, Hse.
  - destruct Hp as [_ Hd _]. rewrite length_app. cbn. lia.
  - exists o. change [Key "configuration"; Key "elements"; Idx (Z.to_nat ele_idx)]
      with ([Key "configuration"; Key "elements"] ++ [Idx (Z.to_nat ele_idx)]).
    rewrite app_assoc, at_path_app, Ea. cbn [at_path at_step]. rewrite list_lookup_fmap in Ex.
    destruct (le !! _) as [x|]; [|done]. cbn in Ex. by injection Ex.
Qed.
End Model.

Lemma jnode_path_safe s0 local t j s primary (Q : option (list pstep) -> db_state -> Prop) :
  editing s0 local t j s -> Q None s -> (∀ p, node_at local p j -> Q (Some p) s) ->
  wp (jnode_path local primary) Q s.
Proof.
  intros He Hno Hsome. unfold jnode_path. destruct local.
  - pose proof (local_node_at _ _ _ _ He) as Hn. destruct Hn as [Hs Hd [l Hat]]. wp_step. eapply ed_at; [exact He|].
    rewrite Hat. apply wp_ret. apply Hsome. split; [done..|]. by exists l.
  - unfold primary_path. wp_step. eapply ed_get; [exact He|].
    destruct (find_node_ok false primary j (ed_doc_ok _ _ _ _ _ He)) as (r & Hr & Hnode).
    eapply wp_lift; [exact Hr|]. destruct r as [p|]; [by apply Hsome, Hnode | done].
Qed.

Lemma get_jmodel_safe id n ele_idx model_id s (Q : option (list pstep) -> db_state -> Prop) :
  let local := bool_decide (Some id = ns_local (w_nodes (db_world s))) in
  db_ok s -> live id n (db_world s) ->
  (∀ s', settled s s' -> Q None s') ->
  (∀ j s' pm, editing s local Freed j s' -> obj_of local model_schema 7 pm j -> Q (Some pm) s') ->
  wp (get_jmodel_obj (Some id) ele_idx model_id) Q s.
Proof.
  intros local Hdb Hl Hno Hsome. unfold get_jmodel_obj. wp_step. eapply nodes_read; [by apply live_primary|].
  wp_step. eapply nodes_read; [by apply local_read|]. fold local. wp_step. apply filename_read. wp_step.
  apply load_wp; [done | | |]; cbn [negb].
  - intros s' Hs _. wp_run. apply Hno. by apply settled_refl.
  - intros t s' Hs _ Ht Hm. wp_step. apply has_main_wp. rewrite Hm. cbn [negb]. wp_step. wp_step. wp_step.
    eapply free_str_wp; [exact Ht|]. wp_step. apply put_main_if_wp; [by cbn; rewrite Hm|]. intros s2 Hs2. wp_run.
    apply Hno. eapply settled_same; [|exact Hs2]. eapply settled_same; [by apply settled_refl|]. by split.
  - intros t j s' Hs _ He. wp_step. apply has_main_wp. rewrite (ed_main _ _ _ _ He). cbn [negb].
    assert (He' : editing s local (Live t) j s') by (split; [done | by apply settled_refl]).
    assert (Hend : wp (_ ← free_str; _ ← put_main_if; mret None) Q s').
    { wp_step. eapply free_str_wp; [by destruct He|]. wp_step. apply put_main_if_wp; [by cbn; rewrite (ed_main _ _ _ _ He)|].
      intros s2 Hs2. wp_run. apply Hno. eapply settled_same; [|exact Hs2]. eapply settled_same; [by apply settled_refl|]. by split. }
    wp_step. wp_step. eapply jnode_path_safe; [exact He' | by apply wp_ret |]. intros p Hp. wp_step.
    eapply node_element_safe; [exact He' | exact Hp | by apply wp_ret |]. intros pe Hpe. wp_step.
    eapply element_model_safe; [exact He' | exact Hpe|]. intros j1 s1 pm He1 Hpm. apply wp_ret. wp_step.
    pose proof He1 as [[E1 E2 _ _ _] _]. eapply free_str_wp; [exact E1|]. wp_run. apply (Hsome j1); [|done].
    destruct He1 as [[F1 F2 F3 F4 F5] Hs1]. split.
    + split; try done. apply (same_db_ok s1); [by split | done].
    + eapply settled_same; [exact Hs1 | by split].
Qed.

Lemma with_model_safe id n ele_idx model_id change s : db_ok s -> live id n (db_world s) ->
  (∀ local t j s' pm, editing s local t j s' -> obj_of local model_schema 7 pm j ->
     wp (change pm) (fun _ s2 => exists j', editing s local t j' s2) s') ->
  wp (with_model (Some id) ele_idx model_id change) (fun _ => settled s) s.
Proof.
  intros Hdb Hl Hch. unfold with_model. wp_step. eapply nodes_read; [by apply local_read|].
  set (local := bool_decide _). wp_step. eapply get_jmodel_safe; [done | exact Hl | |].
  - intros s' Hs. by wp_run.
  - intros j s' pm He Hpm. wp_step. eapply wp_mono; [by eapply Hch|]. intros _ s2 (j2 & He2). wp_step.
    eapply ed_write; [exact He2|]. intros s3 He3. wp_step. eapply put_main_wp; [by destruct He3 as [[]]|]. wp_run.
    destruct He3 as [_ Hs3]. eapply settled_same; [exact Hs3 | by split].
Qed.

Lemma append_to_safe s0 local t j s pm k v : editing s0 local t j s -> obj_of local model_schema 7 pm j ->
  k = "bind" \/ k = "subscribe" -> ptr v = Some v -> json_ok 1 v = true ->
  wp (append_to pm k v) (fun _ s2 => exists j', editing s0 local t j' s2) s.
Proof.
  intros He [Hs Hd [l Hat]] Hk Hn Hv. unfold append_to. wp_step. eapply ed_at; [exact He|].
  assert (Hsk : path_schema (pm ++ [Key k]) (schema_of local) = Arr true Any)
    by (rewrite path_schema_app, Hs; by destruct Hk as [-> | ->]).
  assert (Hlen : length (pm ++ [Key k]) = S (length pm)) by (rewrite length_app; cbn; lia).
  assert (Hadd : ∀ j1 s1 la, editing s0 local t j1 s1 -> at_path (pm ++ [Key k]) j1 = Some (JArray la) ->
    wp (obj_mod (pm ++ [Key k]) (array_add v)) (fun _ s2 => exists j', editing s0 local t j' s2) s1).
  { intros j1 s1 la He1 Hla.
    eapply (ed_append _ _ _ j1 s1 _ v la 1); [exact He1 | rewrite Hlen; unfold max_depth; lia | exact Hla | done | by rewrite Hsk | done |].
    intros j2 s2 He2 _. by exists j2. }
  wp_step. destruct (at_path (pm ++ [Key k]) j) as [a|] eqn:Ea.
  - apply wp_ret. pose proof (conforms_at _ _ _ _ (doc_shape _ _ (ed_doc_ok _ _ _ _ _ He)) Ea) as Ha. rewrite Hsk in Ha.
    apply conforms_arr in Ha as (la & -> & _). by eapply Hadd.
  - eapply (ed_add _ _ _ j s pm k (JArray []) l 1);
      [exact He | by rewrite Hs | unfold max_depth; lia | by destruct Hk as [-> | ->] | exact Hat | done
      | rewrite Hs; by destruct Hk as [-> | ->] | done |].
    intros j1 s1 He1 Hat1. apply (Hadd j1 s1 []); [done|]. rewrite at_path_key, Hat1, object_get_put. by rewrite decide_True.
Qed.

Lemma add_binding_safe id n ele_idx model_id app_idx s : db_ok s -> live id n (db_world s) ->
  wp (prov_db_add_binding (Some id) ele_idx model_id app_idx) (fun _ => settled s) s.
Proof.
  intros Hdb Hl. eapply with_model_safe; [done | exact Hl|]. intros local t j s' pm He Hpm.
  eapply append_to_safe; [exact He | exact Hpm | by left | done | apply new_int_ok].
Qed.
Lemma add_subscription_safe id n ele_idx model_id addr s : db_ok s -> live id n (db_world s) ->
  wp (prov_db_add_subscription (Some id) ele_idx model_id addr) (fun _ => settled s) s.
Proof.
  intros Hdb Hl. eapply with_model_safe; [done | exact Hl|]. intros local t j s' pm He Hpm.
  eapply append_to_safe; [exact He | exact Hpm | by right | done | apply hex_u16_ok].
Qed.

Lemma pub_object_ok pub : exists l, pub_object pub = Ok (JObject l) /\ json_ok 2 (JObject l) = true.
Proof.
  unfold pub_object. eexists. split; [reflexivity|]. apply json_ok_object. split; [done|].
  repeat constructor; [apply digits_plain.. | apply new_int_ok].
Qed.

Lemma set_model_pub_safe id n ele_idx model_id pub s : db_ok s -> live id n (db_world s) ->
  wp (prov_db_node_set_model_pub (Some id) ele_idx model_id pub) (fun _ => settled s) s.
Proof.
  intros Hdb Hl. eapply with_model_safe; [done | exact Hl|]. intros local t j s' pm He [Hs Hd [l Hat]]. wp_step.
  eapply (ed_del _ _ _ j s' pm "publish" l); [exact He | unfold max_depth; lia | rewrite Hs; repeat constructor; done | exact Hat |].
  intros j1 s1 He1 Hat1. destruct pub as [pub|]; [|by apply (ed_done _ _ _ j1)]. wp_step.
  destruct (pub_object_ok pub) as (lp & Hp & Hok). eapply wp_lift; [exact Hp|].
  eapply (ed_add _ _ _ j1 s1 pm "publish" (JObject lp) _ 2);
    [exact He1 | by rewrite Hs | unfold max_depth; lia | done | exact Hat1 | done | by rewrite Hs | done |].
  intros j2 s2 He2 _. by exists j2.
Qed.
End Facts.
