(* ===== verification/ProvRead.v ===== *)
(** * Reading the provisioning database

    [src/blueZ/mesh/prov-db.c]: what the program makes of the two files when it
    starts, with the part of [mesh_init] of [main.c] that names them; and the calls of
    the layers above into the database. *)

From stdpp Require Import gmap strings.
From S2P Require Import Prelude Bytes Util Words AddrPool Alg Ccm Crypto Packet Pdu Keys NetState Send Beacon Recv Node ConfigModel Json ProvDb.

Open Scope string_scope.
Open Scope list_scope.
Open Scope Z_scope.

(** ** Reading a node *)

Section Read.
Context {J : JsonC} {A : Alg} {MC : ModelCode}.

Definition CHECK_KEY_IDX_RANGE (x : Z) : bool := (0 <=? x) && (x <=? 4095).

(** The rounds of [parse_node_keys]; the result is the number of keys looked at. *)
Fixpoint parse_node_keys (node : Z) (l : list (option json)) (is_app_key : bool) (i : Z) : DM Z :=
  match l with
  | [] => mret i
  | jvalue :: l' =>
      let idx := get_int jvalue in
      match jvalue with
      | None => mret i
      | Some _ =>
          if negb (CHECK_KEY_IDX_RANGE idx) then mret i else
          _ ← on_nodes (if is_app_key then node_app_key_add (Some node) (u16 idx)
                        else node_net_key_add (Some node) (u16 idx));
          parse_node_keys node l' is_app_key (i + 1)
      end
  end.

Fixpoint parse_composition_models (node index : Z) (l : list (option json)) : DM bool :=
  match l with
  | [] => mret true
  | jmodel :: l' =>
      id ← lift (scan_model_id jmodel);
      match id with
      | None => mret false
      | Some id =>
          _ ← on_nodes (node_set_model (Some node) (u8 index) id);
          parse_composition_models node index l'
      end
  end.

(** [elementIndex] of an element, [None] where the parser gives up. *)
Definition element_index (jelement : option json) (el_cnt : Z) : option Z :=
  jvalue ← object_get jelement "elementIndex";
  let index := get_int (Some jvalue) in
  if el_cnt <=? index then None else Some index.

Fixpoint parse_composition_elements (node el_cnt : Z) (l : list (option json)) : DM bool :=
  match l with
  | [] => mret true
  | jelement :: l' =>
      match element_index jelement el_cnt with
      | None => mret false
      | Some index =>
          ok ← on_nodes (node_set_element (Some node) (u8 index));
          if negb ok then mret false else
          match object_get jelement "models" with
          | None => parse_composition_elements node el_cnt l'
          | Some jmodels =>
              ms ← lift (array_items (Some jmodels));
              ok ← parse_composition_models node index ms;
              if negb ok then mret false else parse_composition_elements node el_cnt l'
          end
      end
  end.

(** A required number of a composition. *)
Definition required_u16 (o : option json) (k : string) : res (option Z) :=
  match object_get o k with None => mret None | Some v => scan_u16 (Some v) end.

Definition parse_node_composition (node : Z) (jcomp : option json) : DM bool :=
  cid ← lift (required_u16 jcomp "cid");
  match cid with None => mret false | Some cid =>
  pid ← lift (required_u16 jcomp "pid");
  match pid with None => mret false | Some pid =>
  vid ← lift (required_u16 jcomp "vid");
  match vid with None => mret false | Some vid =>
  crpl ← lift (required_u16 jcomp "crpl");
  match crpl with None => mret false | Some crpl =>
  match object_get jcomp "features" with None => mret false | Some jfeatures =>
  let feature k := get_boolean (object_get (Some jfeatures) k) in
  let comp := Composition (feature "relay") (feature "proxy") (feature "lowPower") (feature "friend")
                cid pid vid crpl in
  ok ← on_nodes (node_set_composition (Some node) (Some comp));
  if negb ok then mret false else
  match object_get jcomp "elements" with None => mret false | Some jelements =>
  l ← lift (array_items (Some jelements));
  _ ← on_nodes (node_set_num_elements (Some node) (u8 (Z.of_nat (length l))));
  parse_composition_elements node (Z.of_nat (length l)) l
  end end end end end end.

Fixpoint parse_bindings (node ele_idx model_id : Z) (l : list (option json)) : DM bool :=
  match l with
  | [] => mret true
  | None :: _ => mret true
  | Some jvalue :: l' =>
      let key_idx := get_int (Some jvalue) in
      if negb (CHECK_KEY_IDX_RANGE key_idx) then mret false else
      ok ← on_nodes (node_add_binding (Some node) (u8 ele_idx) model_id (u16 key_idx));
      if negb ok then mret false else parse_bindings node ele_idx model_id l'
  end.

Fixpoint parse_subscriptions (node ele_idx model_id : Z) (l : list (option json)) : DM bool :=
  match l with
  | [] => mret true
  | None :: _ => mret false
  | Some jsubscription :: l' =>
      addr ← lift (scan_u16 (Some jsubscription));
      match addr with
      | None => mret false
      | Some addr =>
          ok ← on_nodes (node_add_subscription (Some node) (u8 ele_idx) model_id addr);
          if negb ok then mret false else parse_subscriptions node ele_idx model_id l'
      end
  end.

Definition parse_model_pub (node ele_idx model_id : Z) (jpub : option json) : DM bool :=
  addr ← lift (required_u16 jpub "address");
  match addr with None => mret false | Some addr =>
  app_idx ← lift (required_u16 jpub "index");
  match app_idx with None => mret false | Some app_idx =>
  let ttl := get_int (object_get jpub "ttl") in
  on_nodes (node_model_pub_set (Some node) (u8 ele_idx) model_id
    (Publication app_idx (set_addr16 addr (rep 16 0)) (u8 ttl) 0 0 0))
  end end.

(** An array of a model, if it is there. *)
Definition model_array (jmodel : option json) (k : string) (parse : list (option json) -> DM bool) : DM bool :=
  match object_get jmodel k with
  | None => mret true
  | Some a => l ← lift (array_items (Some a)); parse l
  end.

Fixpoint parse_configuration_models (node ele_idx : Z) (l : list (option json)) : DM bool :=
  match l with
  | [] => mret true
  | jmodel :: l' =>
      id ← lift (scan_model_id (object_get jmodel "modelId"));
      match id with
      | None => mret false
      | Some id =>
          ok ← model_array jmodel "bind" (parse_bindings node ele_idx id);
          if negb ok then mret false else
          ok ← model_array jmodel "subscribe" (parse_subscriptions node ele_idx id);
          if negb ok then mret false else
          ok ← (match object_get jmodel "publish" with
                | None => mret true
                | Some jpub => parse_model_pub node ele_idx id (Some jpub)
                end);
          if negb ok then mret false else parse_configuration_models node ele_idx l'
      end
  end.

(** [net_reserve_address_range]. *)
Definition reserve_addresses (base num_elements : Z) : DM bool :=
  on_nodes (n ← net_of;
    let '(ok, pool) := net_reserve_address_range base (u8 num_elements) (address_pool n) in
    _ ← mod_net (set_address_pool pool); mret ok).

(** The address of the first element. *)
Definition parse_primary (node : Z) (jelement : option json) (el_cnt : Z) (local : bool) : DM bool :=
  addr ← lift (scan_u16 (object_get jelement "unicastAddress"));
  match addr with
  | None => mret false
  | Some addr =>
      ok ← (if local then mret true else reserve_addresses addr el_cnt);
      if negb ok then mret false else _ ← on_nodes (node_set_primary (Some node) addr); mret true
  end.
Fixpoint parse_configuration_elements (node el_cnt : Z) (l : list (option json)) (local : bool) : DM bool :=
  match l with
  | [] => mret true
  | jelement :: l' =>
      match element_index jelement el_cnt with
      | None => mret false
      | Some index =>
          ok ← (if index =? 0 then parse_primary node jelement el_cnt local else mret true);
          if negb ok then mret false else
          match object_get jelement "models" with
          | None => parse_configuration_elements node el_cnt l' local
          | Some jmodels =>
              ms ← lift (array_items (Some jmodels));
              ok ← parse_configuration_models node index ms;
              if negb ok then mret false else parse_configuration_elements node el_cnt l' local
          end
      end
  end.

(** The device key, drawn and added to the document if it is not there. *)
Definition node_device_key (p : list pstep) (jnode : option json) (key : list Z) : DM (option (list Z)) :=
  match object_get jnode "deviceKey" with
  | None =>
      r ← random_key;
      match r with None => mret None | Some k => _ ← obj_mod p (add_key "deviceKey" k); mret (Some k) end
  | Some v =>
      s ← lift (the_string (Some v));
      let '(ok, k) := read_hex_key s key in
      mret (if ok then Some k else None)
  end.

(** The configuration of a node: its elements, keys and ttl. *)
Definition parse_configuration (node : Z) (jconfig : option json) (local : bool) : DM bool :=
  match object_get jconfig "elements" with None => mret false | Some jelements =>
  l ← lift (array_items (Some jelements));
  _ ← on_nodes (node_set_num_elements (Some node) (u8 (Z.of_nat (length l))));
  ok ← parse_configuration_elements node (Z.of_nat (length l)) l local;
  if negb ok then mret false else
  match object_get jconfig "netKeys" with None => mret false | Some jidxs =>
  l ← lift (array_items (Some jidxs));
  cnt ← parse_node_keys node l false 0;
  if cnt =? 0 then mret false else
  _ ← (match object_get jconfig "appKeys" with
       | None => mret 0
       | Some jidxs => l ← lift (array_items (Some jidxs)); parse_node_keys node l true 0
       end);
  _ ← (match object_get jconfig "defaultTTL" with
       | None => mret true
       | Some v => on_nodes (node_set_default_ttl (Some node) (u8 (Z.land (get_int (Some v)) TTL_MASK)))
       end);
  mret true
  end end.

(** [return false] after [node_free(node)]. *)
Definition discard_node (node : Z) : DM bool := _ ← on_nodes (node_free (Some node)); mret false.

(** The IV index and the sequence number. *)
Definition parse_counters (node : Z) (jnode : option json) (local : bool) : DM unit :=
  let idx := u32 (get_int (object_get jnode "IVindex")) in
  _ ← on_nodes (node_set_iv_index (Some node) idx);
  _ ← (if local then on_nodes (net_set_iv_index idx (truth (get_int (object_get jnode "IVupdate"))))
       else mret tt);
  match object_get jnode "sequenceNumber" with
  | None => mret tt
  | Some v => _ ← on_nodes (node_set_sequence_number (Some node) (u32 (get_int (Some v)))); mret tt
  end.
Definition finish_node (node : Z) (local : bool) : DM bool :=
  if local then
    ok ← on_nodes (node_set_local_node (Some node)); if negb ok then discard_node node else mret true
  else mret true.
Definition parse_node (junk_key : list Z) (p : list pstep) (local : bool) : DM bool :=
  jnode ← obj_at p;
  key ← node_device_key p jnode junk_key;
  match key with None => mret false | Some key =>
  jnode ← obj_at p;
  node ← on_nodes node_new;
  match node with None => mret false | Some id =>
  _ ← on_nodes (node_set_device_key node (Some key));
  _ ← parse_counters id jnode local;
  let jcomp := object_get jnode "composition" in
  ok ← (match jcomp with None => mret (negb local) | Some _ => parse_node_composition id jcomp end);
  if negb ok then discard_node id else
  match object_get jnode "configuration" with
  | None => if local then finish_node id local else discard_node id
  | Some jconfig =>
      ok ← parse_configuration id (Some jconfig) local;
      if negb ok then discard_node id else finish_node id local
  end
  end end.

(** ** Reading a file *)

(** What [g_new] and the stack hold: [key] of [read_json_db] and of [parse_node],
    and the fields of a new key that are not assigned. *)
Record read_junk := ReadJunk {
  junk_key : list Z; junk_node_key : list Z; junk_net : mesh_net_key; junk_app : mesh_app_key }.
Context (junk : read_junk).

(** The member "key" of a key object: what [key] holds then, whether it has been
    drawn, and whether it could be read; [None] where no key can be drawn. *)
Definition read_key (p : list pstep) (key : list Z) : DM (option (list Z * bool * bool)) :=
  jtemp ← obj_at p;
  match object_get jtemp "key" with
  | None =>
      r ← random_key;
      match r with
      | None => mret None
      | Some k => _ ← obj_mod p (add_key "key" k); mret (Some (k, true, true))
      end
  | Some v =>
      s ← lift (the_string (Some v));
      let '(ok, k) := read_hex_key s key in mret (Some (k, false, ok))
  end.

Definition add_net_key (idx : Z) (key : list Z) : DM bool :=
  on_nodes (w ← get;
    let '(ok, ks) := keys_net_key_add (w_keys w) (junk_net junk) (u16 idx) key false in
    _ ← modify (fun w => World (w_net w) ks (w_nodes w) (w_next w) (w_timers w) (w_sync w) (w_out w));
    mret ok).
Definition set_kr_phase (idx ph : Z) : DM bool :=
  on_nodes (w ← get;
    let '(ok, ks) := keys_set_kr_phase (w_keys w) (u16 idx) (u8 ph) in
    _ ← modify (fun w => World (w_net w) ks (w_nodes w) (w_next w) (w_timers w) (w_sync w) (w_out w));
    mret ok).
Definition add_app_key (net_idx app_idx : Z) (key : list Z) : DM bool :=
  on_nodes (w ← get;
    let '(ok, ks) := keys_app_key_add (w_keys w) (junk_app junk) (u16 net_idx) (u16 app_idx) key false in
    _ ← modify (fun w => World (w_net w) ks (w_nodes w) (w_next w) (w_timers w) (w_sync w) (w_out w));
    mret ok).

(** The loop over the network keys, [n] rounds left: [key] and [refresh], or
    [None] where the function jumps to [done]. *)
Fixpoint read_net_keys (n i : nat) (key : list Z) (refresh : bool) : DM (option (list Z * bool)) :=
  match n with
  | O => mret (Some (key, refresh))
  | S n' =>
      let p := [Key "netKeys"; Idx i] in
      jtemp ← obj_at p;
      match object_get jtemp "index" with None => mret None | Some jindex =>
      let idx := u32 (get_int (Some jindex)) in
      r ← read_key p key;
      match r with None => mret None | Some (key, drawn, ok) =>
      if negb ok then mret None else
      ok ← add_net_key idx key;
      if negb ok then mret None else
      jtemp ← obj_at p;
      match object_get jtemp "keyRefresh" with None => mret None | Some jphase =>
      _ ← set_kr_phase idx (get_int (Some jphase));
      read_net_keys n' (S i) key (refresh || drawn)
      end end end
  end.

(** An index of a key object in its range. *)
Definition key_index (jtemp : option json) (k : string) : option Z :=
  v ← object_get jtemp k;
  let idx := get_int (Some v) in if CHECK_KEY_IDX_RANGE idx then Some idx else None.

(** The loop over the application keys; the result of [str2hex] is not looked at. *)
Fixpoint read_app_keys (n i : nat) (key : list Z) (refresh : bool) : DM (option bool) :=
  match n with
  | O => mret (Some refresh)
  | S n' =>
      let p := [Key "appKeys"; Idx i] in
      jtemp ← obj_at p;
      match key_index jtemp "index" with None => mret None | Some app_idx =>
      r ← read_key p key;
      match r with None => mret None | Some (key, drawn, _) =>
      jtemp ← obj_at p;
      match key_index jtemp "boundNetKey" with None => mret None | Some net_idx =>
      _ ← add_app_key net_idx app_idx key;
      read_app_keys n' (S i) key (refresh || drawn)
      end end end
  end.

Fixpoint parse_unicast_range (l : list (option json)) : DM bool :=
  match l with
  | [] => mret true
  | jrange :: l' =>
      low ← lift (scan_u16 (object_get jrange "lowAddress"));
      match low with None => mret false | Some low =>
      high ← lift (scan_u16 (object_get jrange "highAddress"));
      match high with None => mret false | Some high =>
      if high <? low then mret false else
      _ ← on_nodes (mod_net (fun n => set_address_pool (net_add_address_pool low high (address_pool n)).2 n));
      parse_unicast_range l'
      end end
  end.
Fixpoint read_provisioners (l : list (option json)) : DM bool :=
  match l with
  | [] => mret true
  | jprov :: l' =>
      match object_get jprov "allocatedUnicastRange" with
      | None => mret false
      | Some jtemp =>
          ranges ← lift (array_items (Some jtemp));
          ok ← parse_unicast_range ranges;
          if negb ok then mret false else read_provisioners l'
      end
  end.

Fixpoint read_nodes (n i : nat) : DM bool :=
  match n with
  | O => mret true
  | S n' =>
      let p := [Key "nodes"; Idx i] in
      jnode ← obj_at p;
      match jnode with
      | None => mret false
      | Some _ =>
          ok ← parse_node (junk_node_key junk) p false;
          if negb ok then mret false else read_nodes n' (S i)
      end
  end.

(** An array of the document. *)
Definition main_array (k : string) : DM (option (list (option json))) :=
  j ← main_doc;
  match object_get (Some j) k with
  | None => mret None
  | Some a => l ← lift (array_items (Some a)); mret (Some l)
  end.

(** From the IV index on: the result, and [refresh]. *)
Definition read_mesh : DM (bool * bool) :=
  j ← main_doc;
  match object_get (Some j) "IVindex" with None => mret (false, false) | Some jiv =>
  match object_get (Some j) "IVupdate" with None => mret (false, false) | Some jupdate =>
  _ ← on_nodes (net_set_iv_index (u32 (get_int (Some jiv))) (truth (get_int (Some jupdate))));
  l ← main_array "netKeys";
  match l with None => mret (false, false) | Some l =>
  r ← read_net_keys (length l) 0 (junk_key junk) false;
  match r with None => mret (false, false) | Some (key, refresh) =>
  l ← main_array "appKeys";
  r ← (match l with None => mret (Some refresh) | Some l => read_app_keys (length l) 0 key refresh end);
  match r with None => mret (false, false) | Some refresh =>
  l ← main_array "provisioners";
  match l with None => mret (false, false) | Some l =>
  ok ← read_provisioners l;
  if negb ok then mret (false, false) else
  l ← main_array "nodes";
  match l with None => mret (true, refresh) | Some l =>
  ok ← read_nodes (length l) 0; mret (ok, refresh)
  end end end end end end end.

(** The local node's part, whose result counts only for a provisioner; [Some]
    where the function jumps to [done]. *)
Definition read_local (provisioner : bool) : DM (option bool) :=
  jnode ← obj_at [Key "node"];
  match jnode with
  | None => mret (Some false)
  | Some _ =>
      result ← parse_node (junk_node_key junk) [Key "node"] true;
      mret (if provisioner then Some result else None)
  end.
Definition read_json_db (filename : string) (provisioner local : bool) : DM bool :=
  ok ← load (Some filename);
  if negb ok then mret false else
  m ← has_main;
  '(res, refresh) ← (if negb m then mret (false, false) else
    early ← (if local then read_local provisioner else mret None);
    match early with Some res => mret (res, false) | None => read_mesh end);
  _ ← free_str;
  _ ← (if (res : bool) && refresh then prov_file_write false else mret tt);
  _ ← put_main_if;
  mret res.

Definition prov_db_read (filename : string) : DM bool :=
  _ ← modify (set_prov_filename (Some filename)); read_json_db filename true false.
Definition prov_db_read_local_node (filename : string) (provisioner : bool) : DM bool :=
  _ ← modify (set_local_filename (Some filename)); read_json_db filename provisioner true.
(** Whether there is something to print. *)
Definition prov_db_show (filename : string) : DM bool :=
  str ← prov_file_read (Some filename); mret (match str with None => false | Some _ => true end).

(** The part of [mesh_init] that makes the names of the files and reads them. *)
Definition config_filename (dir name : string) : string :=
  if String.eqb dir "" then name
  else match String.get (String.length dir - 1) dir with
       | Some c => if Ascii.eqb c (Ascii.ascii_of_nat 47) then (dir +:+ name)%string else (dir +:+ "/" +:+ name)%string
       | None => name
       end.
Definition read_config (mesh_config_dir : string) : DM bool :=
  ok ← prov_db_read_local_node (config_filename mesh_config_dir "local_node.json") true;
  if negb ok then mret false else prov_db_read (config_filename mesh_config_dir "prov_db.json").

(** ** The calls of the layers above

    A call into the database is an event of the world; this runs it.  The
    publication of a model is read where the caller read it, from the node. *)
Definition db_call (op : db_op) : DM bool :=
  match op with
  | DbTtl node ttl => prov_db_node_set_ttl (Some node) ttl
  | DbKeys node app keys => prov_db_node_keys (Some node) keys (if app then "appKeys" else "netKeys")
  | DbModelPub node ele model =>
      pub ← on_nodes (node_model_pub_get (Some node) ele model);
      prov_db_node_set_model_pub (Some node) ele model pub
  | DbBinding node ele model app_idx => prov_db_add_binding (Some node) ele model app_idx
  | DbSubscription node ele model addr => prov_db_add_subscription (Some node) ele model addr
  | DbComposition node data => prov_db_add_node_composition (Some node) data (len data)
  | DbNewNode node _ => prov_db_add_new_node (Some node)
  end.
(** [prov_db_node_set_iv_seq] is given a node; the event names it by its address. *)
Definition db_event (e : event) : DM unit :=
  match e with
  | Db op => _ ← db_call op; mret tt
  | StoreSeq seq => _ ← prov_db_local_set_seq_num seq; mret tt
  | StoreIv iv upd prov => _ ← prov_db_local_set_iv_index iv upd prov; mret tt
  | StoreIvSeq primary iv seq =>
      s ← get;
      node ← on_nodes (lift (find_by_addr (w_nodes (db_world s)) primary));
      _ ← prov_db_node_set_iv_seq (option_map nd_id node) iv seq; mret tt
  | _ => mret tt
  end.
Definition db_events (l : list event) : DM unit := mapM_ db_event l.
End Read.
