(* ===== verification/DbComposition.v ===== *)
(** * Composition data in the database

    What [prov_db_add_node_composition] writes of a page of composition data, and
    what [parse_node_composition] makes of it when the program starts again. *)

From stdpp Require Import gmap strings.
From S2P Require Import Prelude Bytes Util Words Alg Ccm Crypto Pdu Keys NetState Send Recv Reassembly Node NodeFacts NodeOps Composition ConfigModel Json JsonFacts ProvDb ProvDbFacts ProvRead.

Open Scope string_scope.
Open Scope list_scope.
Open Scope Z_scope.

(** ** What is written *)

Definition models_json (e : page_element) : list json :=
  (hex_u16 <$> pe_sig e) ++ (hex_u32 <$> (vendor_id <$> pe_vendor e)).
Definition element_json (i : nat) (e : page_element) : json :=
  JObject [("elementIndex", new_int (Z.of_nat i)); ("location", hex_u16 (pe_loc e));
           ("models", JArray (models_json e))].
Definition features_json (c : mesh_node_composition) : json :=
  JObject [("relay", JBool (relay c)); ("proxy", JBool (proxy c)); ("friend", JBool (friend c));
           ("lpn", JBool (lpn c))].
Definition comp_json (c : mesh_node_composition) (els : list page_element) : json :=
  JObject [("cid", hex_u16 (cid c)); ("pid", hex_u16 (pid c)); ("vid", hex_u16 (vid c));
           ("crpl", hex_u16 (crpl c)); ("features", features_json c);
           ("elements", JArray (imap element_json els))].

Lemma comp_sig_ok ids data l pre post acc : Forall (fun s => is_u16 s) ids -> 2 * len ids <= l ->
  data = pre ++ encode_sig ids ++ post ->
  comp_sig (length ids) data (len pre) l (JArray acc) =
  Ok (JArray (acc ++ (hex_u16 <$> ids)), len pre + 2 * len ids, l - 2 * len ids).
Proof.
  intros Hids Hl ->. revert l pre acc Hl. induction Hids as [|x ids Hx Hids IH]; intros l pre acc Hl; cbn [length comp_sig].
  - rewrite fmap_nil, app_nil_r. change (len []) with 0. case_goal; do 3 f_equal; lia.
  - rewrite len_cons in *. pose proof (len_nonneg ids). rewrite (proj2 (Z.leb_le 2 l)) by lia. cbn [negb].
    unfold encode_sig in *. rewrite fmap_cons in *. cbn [concat]. rewrite <-app_assoc, get_le16_mid by done.
    cbn [mbind res_bind]. unfold put_uint16_array_entry at 1. cbn [array_add].
    specialize (IH (l - 2) (pre ++ to_le 2 x) (acc ++ [hex_u16 x]) ltac:(lia)).
    rewrite len_app, <-!app_assoc in IH. change (len (to_le 2 x)) with 2 in IH.
    etrans; [exact IH|]. do 2 f_equal; [f_equal; lia | lia].
Qed.

Lemma comp_vendor_ok ids data l pre post acc : Forall (fun v => is_u16 v.1 /\ is_u16 v.2) ids ->
  4 * Z.of_nat (length ids) <= l -> data = pre ++ encode_vendor ids ++ post ->
  comp_vendor (length ids) data (len pre) l (JArray acc) =
  Ok (JArray (acc ++ (hex_u32 <$> (vendor_id <$> ids))), len pre + 4 * Z.of_nat (length ids),
      l - 4 * Z.of_nat (length ids)).
Proof.
  intros Hids Hl ->. revert l pre acc Hl.
  induction Hids as [|x ids [Hx1 Hx2] Hids IH]; intros l pre acc Hl; cbn [length comp_vendor].
  - rewrite !fmap_nil, app_nil_r. case_goal; do 3 f_equal; simpl; lia.
  - cbn [length] in Hl. rewrite (proj2 (Z.leb_le 4 l)) by lia. cbn [negb].
    unfold encode_vendor in *. rewrite fmap_cons in *. cbn [concat]. rewrite <-!app_assoc.
    set (data := pre ++ _).
    assert (E1 : get_le16 data (len pre + 2) = Ok x.2).
    { unfold data. rewrite (app_assoc pre). apply get_le16_mid; [done | by rewrite len_app]. }
    assert (E2 : get_le16 data (len pre) = Ok x.1) by by apply get_le16_mid.
    rewrite E1. cbn [mbind res_bind]. rewrite E2. cbn [mbind res_bind]. unfold put_uint32_array_entry at 1.
    cbn [array_add]. unfold data.
    specialize (IH (l - 4) (pre ++ to_le 2 x.1 ++ to_le 2 x.2) (acc ++ [hex_u32 (vendor_id x)]) ltac:(lia)).
    rewrite !len_app, <-!app_assoc in IH. change (len (to_le 2 x.1) + len (to_le 2 x.2)) with 4 in IH.
    etrans; [exact IH|]. cbn [length]. do 2 f_equal; [f_equal; lia | lia].
Qed.

Lemma comp_element_ok e i data l pre post : page_element_ok e -> len (encode_element e) <= l < 0x10000 ->
  data = pre ++ encode_element e ++ post ->
  comp_element (Z.of_nat i) data (len pre) l =
  Ok (element_json i e, len pre + len (encode_element e), l - len (encode_element e)).
Proof.
  intros [Hloc [Hs _] [Hv _] _] Hl ->. rewrite len_encode_element in *. unfold encode_element.
  rewrite <-!app_assoc. pose proof (len_nonneg (pe_sig e)). unfold comp_element.
  set (tl := encode_sig _ ++ encode_vendor _ ++ post).
  set (hdr := pre ++ to_le 2 (pe_loc e) ++ [len (pe_sig e); Z.of_nat (length (pe_vendor e))]).
  assert (Hh : len hdr = len pre + 4).
  { unfold hdr. rewrite !len_app. change (len (to_le 2 (pe_loc e))) with 2. rewrite !len_cons. change (len []) with 0. lia. }
  assert (Hd : pre ++ to_le 2 (pe_loc e) ++ [len (pe_sig e); Z.of_nat (length (pe_vendor e))] ++ tl = hdr ++ tl)
    by (unfold hdr; by rewrite <-!app_assoc).
  rewrite Hd.
  assert (E0 : get_le16 (hdr ++ tl) (len pre) = Ok (pe_loc e)) by (rewrite <-Hd; by apply get_le16_mid).
  assert (E1 : rd (hdr ++ tl) (len pre + 2) = Ok (len (pe_sig e))).
  { rewrite <-Hd, (app_assoc pre). apply rd_mid. by rewrite len_app. }
  assert (E2 : rd (hdr ++ tl) (len pre + 3) = Ok (Z.of_nat (length (pe_vendor e)))).
  { rewrite <-Hd, (app_assoc pre). cbn [app]. rewrite (cons_middle (len (pe_sig e))), (app_assoc (pre ++ _)). apply rd_mid.
    rewrite !len_app. change (len (to_le 2 (pe_loc e))) with 2. rewrite !len_cons. change (len []) with 0. lia. }
  cbn [object_add mbind res_bind]. rewrite E0. cbn [mbind res_bind]. unfold put_uint16 at 1. cbn [object_add app].
  rewrite E1. cbn [mbind res_bind]. rewrite E2.
  cbn [mbind res_bind]. rewrite <-Hh. unfold len at 1. rewrite !Nat2Z.id, u16_small by lia.
  rewrite (comp_sig_ok (pe_sig e) _ _ hdr (encode_vendor (pe_vendor e) ++ post) [] Hs) by (done || lia).
  cbn [mbind res_bind app]. unfold tl. rewrite (app_assoc hdr), <-len_encode_sig, <-len_app.
  rewrite (comp_vendor_ok (pe_vendor e) _ _ (hdr ++ encode_sig (pe_sig e)) post _ Hv) by (done || rewrite ?len_encode_sig; lia).
  cbn [mbind res_bind object_add]. rewrite len_app, len_encode_sig. do 2 f_equal; [f_equal; lia | lia].
Qed.

Lemma comp_elements_ok els i data l pre post acc : Forall page_element_ok els ->
  len (concat (encode_element <$> els)) <= l < 0x10000 ->
  data = pre ++ concat (encode_element <$> els) ++ post ->
  comp_elements (length els) (Z.of_nat i) data (len pre) l (JArray acc) =
  Ok (JArray (acc ++ imap (fun k => element_json (i + k)) els)).
Proof.
  intros Hels Hl ->. revert i l pre acc Hl. induction Hels as [|e els He Hels IH]; intros i l pre acc Hl.
  - cbn. by rewrite app_nil_r.
  - cbn [length comp_elements]. rewrite fmap_cons in *. cbn [concat] in *. rewrite len_app in Hl.
    rewrite <-app_assoc. pose proof (len_nonneg (concat (encode_element <$> els))).
    pose proof (len_nonneg (encode_element e)).
    rewrite (comp_element_ok e i _ l pre (concat (encode_element <$> els) ++ post) He) by (done || lia).
    cbn [mbind res_bind array_add]. replace (Z.of_nat i + 1) with (Z.of_nat (S i)) by lia.
    specialize (IH (S i) (l - len (encode_element e)) (pre ++ encode_element e) (acc ++ [element_json i e]) ltac:(lia)).
    rewrite len_app, <-!app_assoc in IH. etrans; [exact IH|]. cbn [app imap]. rewrite Nat.add_0_r. do 4 f_equal.
    apply imap_ext. intros k x _. cbn. by rewrite Nat.add_succ_r.
Qed.

(** The object for a page. *)
Lemma comp_object_ok c els cid pid vid crpl features tail :
  Forall page_element_ok els ->
  let page := encode_page cid pid vid crpl features els in
  len page < 0x10000 ->
  comp_object c (Z.of_nat (length els)) (page ++ tail) (len page) = Ok (comp_json c els).
Proof.
  intros Hels page Hl.
  set (hdr := [0] ++ to_le 2 cid ++ to_le 2 pid ++ to_le 2 vid ++ to_le 2 crpl ++ to_le 2 features).
  assert (Hpage : page = hdr ++ concat (encode_element <$> els))
    by (unfold page, encode_page, hdr; by rewrite <-!app_assoc).
  assert (Hlen : len page = 11 + len (concat (encode_element <$> els))) by (rewrite Hpage, len_app; done).
  pose proof (len_nonneg (concat (encode_element <$> els))). unfold comp_object, comp_features.
  cbn [put_uint16 object_add mbind res_bind]. unfold put_uint16. cbn [object_add mbind res_bind].
  rewrite Nat2Z.id, u16_small by lia. rewrite Hpage, <-app_assoc. change 11 with (len hdr). change 0 with (Z.of_nat 0).
  rewrite (comp_elements_ok els 0 _ _ hdr tail [] Hels); [done | | done].
  rewrite <-Hpage, Hlen. change (len hdr) with 11. lia.
Qed.

Lemma models_json_ok e : json_ok 2 (JArray (models_json e)) = true.
Proof.
  apply json_ok_array, Forall_app. split; apply Forall_fmap, Forall_forall; intros x _; apply digits_plain.
Qed.
Lemma element_json_ok i e : json_ok 3 (element_json i e) = true.
Proof.
  apply json_ok_object. split; [done|].
  repeat (apply Forall_cons; split); [apply new_int_ok | apply digits_plain | apply models_json_ok | constructor].
Qed.
Lemma comp_json_ok c els : json_ok 5 (comp_json c els) = true.
Proof.
  apply json_ok_object. split; [done|]. repeat (apply Forall_cons; split); try apply digits_plain; [done | | constructor].
  apply json_ok_array. apply Forall_lookup. intros i x Hx. rewrite list_lookup_imap in Hx.
  destruct (els !! i); [|done]. injection Hx as <-. apply element_json_ok.
Qed.
Lemma comp_json_shape c els : conforms comp_schema (comp_json c els) = true.
Proof.
  apply conforms_obj. split; [by eexists|]. repeat constructor. unfold field_ok. cbn [fst snd].
  change (object_get (Some (comp_json c els)) "elements") with (Some (JArray (imap element_json els))).
  apply conforms_arr. eexists. split; [done|]. apply Forall_lookup. intros i x Hx. rewrite list_lookup_imap in Hx.
  destruct (els !! i) as [e|]; [|done]. injection Hx as <-. cbn [ptr element_json].
  apply conforms_obj. split; [by eexists|]. repeat constructor. unfold field_ok. cbn [fst snd].
  match goal with |- context [object_get (Some ?o) "models"] =>
    change (object_get (Some o) "models") with (Some (JArray (models_json e))) end.
  apply conforms_arr. eexists. split; [done|]. apply Forall_app.
  split; apply Forall_fmap, Forall_forall; intros y _; done.
Qed.

(** ** Reading it back *)

Lemma on_nodes_wp {T} (h : NM T) s (Q : T -> db_state -> Prop) :
  wp h (fun a w => Q a (set_db_world w s)) (db_world s) -> wp (on_nodes h) Q s.
Proof. unfold wp, on_nodes. by destruct (h (db_world s)) as [[a w]|]. Qed.

(** Digits are read as they are written. *)
Lemma c_string_digits n v : c_string (digits 16 n v) = digits 16 n v.
Proof.
  induction n as [|n IH]; [done|]. cbn [digits c_string]. rewrite IH.
  set (d := v / _ mod 16). assert (H : 0 <= d < 16) by (apply Z.mod_pos_bound; lia).
  pose proof (all_below_spec 16 (fun d => negb (digit_char d =? 0)) d ltac:(by vm_compute) H) as Hd. cbn beta in Hd.
  apply negb_true_iff in Hd. by rewrite Hd.
Qed.

Lemma scan_x_digits n k v : (S k <= n)%nat -> 0 <= v < 16 ^ Z.of_nat (S k) -> scan_x n (digits 16 (S k) v) = Some v.
Proof.
  intros Hn Hv. unfold scan_x.
  assert (Hs : skip_spaces (digits 16 (S k) v) = digits 16 (S k) v /\
    sign_len (digits 16 (S k) v) = 0 /\ is_negative (digits 16 (S k) v) = false).
  { cbn [digits skip_spaces sign_len is_negative]. set (d := _ mod 16).
    assert (Hd : 0 <= d < 16) by (apply Z.mod_pos_bound; lia).
    destruct (digit_char_plain d Hd) as [H1 H2]. rewrite H1, H2. split; [done|]. split; [done|].
    unfold is_sign in H2. by apply orb_false_iff in H2 as [_ ?]. }
  destruct Hs as (-> & Hsl & Hng). rewrite take_ge by (rewrite scan_digits_len; lia). rewrite Hsl, Hng.
  change (drop (Z.to_nat 0)) with (fun l : list Z => l). cbn beta.
  assert (Hp : (match digits 16 (S k) v with z :: x :: _ => (z =? 48) && ((x =? 120) || (x =? 88)) | _ => false end) = false).
  { destruct k as [|k]; [done|]. cbn [digits]. set (d := v / 16 ^ Z.of_nat k mod 16).
    assert (Hd : 0 <= d < 16) by (apply Z.mod_pos_bound; lia).
    pose proof (all_below_spec 16 (fun d => negb ((digit_char d =? 120) || (digit_char d =? 88))) d
      ltac:(by vm_compute) Hd) as H. cbn beta in H. apply negb_true_iff in H. by rewrite H, andb_false_r. }
  rewrite Hp, scan_digits_spec by lia. rewrite (proj2 (Z.eqb_neq _ 0)) by lia.
  rewrite Z.mod_small by done. f_equal; lia.
Qed.

Section Read.
Context {J : JsonC}.

Lemma the_digits k v : the_string (Some (JString (digits 16 k v))) = Ok (digits 16 k v).
Proof. unfold the_string, get_string. cbn [of_option]. by rewrite c_string_digits. Qed.

Lemma scan_hex_u16 v : is_u16 v -> scan_u16 (Some (hex_u16 v)) = Ok (Some v).
Proof.
  intros Hv. unfold scan_u16, hex_u16. rewrite the_digits. cbn [mbind res_bind mret res_ret].
  rewrite u16_small by done. rewrite (scan_x_digits 4 3 v) by (done || lia). cbn [fmap option_fmap option_map]. by rewrite u16_small.
Qed.

Lemma scan_sig v : is_u16 v -> scan_model_id (Some (hex_u16 v)) = Ok (Some (sig_id v)).
Proof.
  intros Hv. unfold scan_model_id, hex_u16. rewrite the_digits. cbn [mbind res_bind].
  assert (Hl : len (digits 16 4 (u16 v)) = 4) by (unfold len; by rewrite scan_digits_len).
  rewrite Hl. cbn [negb andb Z.eqb]. rewrite u16_small, (scan_x_digits 8 3 v) by (done || lia). cbn. do 2 f_equal.
  unfold sig_id. rewrite (u32_small v), u32_small by lia. change 0xffff0000 with (Z.shiftl 0xffff 16) at 2.
  rewrite lor_shiftl_add by lia. lia.
Qed.

Lemma vendor_range x : is_u16 x.1 /\ is_u16 x.2 -> is_u32 (vendor_id x).
Proof.
  intros [H1 H2]. unfold vendor_id. rewrite u32_small by (rewrite Z.shiftl_mul_pow2 by lia; lia).
  rewrite lor_shiftl_add by lia. lia.
Qed.
Lemma scan_vendor v : is_u32 v -> scan_model_id (Some (hex_u32 v)) = Ok (Some v).
Proof.
  intros Hv. unfold scan_model_id, hex_u32. rewrite the_digits. cbn [mbind res_bind].
  assert (Hl : len (digits 16 8 (u32 v)) = 8) by (unfold len; by rewrite scan_digits_len).
  rewrite Hl. cbn [negb andb Z.eqb]. rewrite u32_small, (scan_x_digits 8 7 v) by (done || lia). cbn. do 2 f_equal.
  by rewrite u32_small.
Qed.

Context {A : Alg} {MC : ModelCode} (id : Z).

(** The models of an element. *)
Lemma read_models l ids n i e s : Forall2 (fun x id => scan_model_id x = Ok (Some id)) l ids ->
  is_u8 i -> at_node id n (db_world s) -> find_element n i = Some e ->
  wp (parse_composition_models id i l) (fun r s' => r = true /\ added id n i e ids (db_world s')) s.
Proof.
  intros Hl Hi. revert n e s. induction Hl as [|x y l ids Hx Hl IH]; intros n e s Hat He; cbn [parse_composition_models].
  - apply wp_ret. split; [done | by apply added_nil].
  - wp_step. eapply wp_lift; [exact Hx|]. wp_step. apply on_nodes_wp. rewrite u8_small by done.
    eapply wp_mono; [by apply set_model_at|]. intros r w1 (-> & n1 & Hat1 & He1 & Hl1 & Hk1).
    eapply wp_mono; [by apply (IH n1)|]. intros r s2 [-> Ha]. split; [done|]. by eapply added_cons.
Qed.

Lemma set_element_at n i w : at_node id n w -> find_element n i = None ->
  wp (node_set_element (Some id) i) (fun r w' => r = true /\ exists n', at_node id n' w' /\
    nd_elements n' = nd_elements n ++ [Element [] 0 i] /\ nd_num_ele n' = nd_num_ele n /\ nd_comp n' = nd_comp n) w.
Proof.
  intros Hat Hn. unfold node_set_element, nonnull. wp_step. eapply deref_at; [exact Hat|]. rewrite Hn. wp_step.
  eapply assign_at; [exact Hat | done | intros; by apply push_element_wf | done|]. intros w' Hat'. wp_run.
  split; [done|]. by eexists.
Qed.

(** An element as it comes back: the place it is at is not read. *)
Definition read_element (i : nat) (e : page_element) : mesh_element :=
  Element (zero_model <$> pe_ids e) 0 (Z.of_nat i).

Lemma models_scanned e : page_element_ok e ->
  Forall2 (fun x id => scan_model_id x = Ok (Some id)) (ptr <$> models_json e) (pe_ids e).
Proof.
  intros [_ [Hs _] [Hv _] _]. unfold models_json, pe_ids. rewrite fmap_app. apply Forall2_app.
  - induction Hs; constructor; [by apply scan_sig | done].
  - induction Hv; constructor; [|done]. cbn [ptr hex_u32]. apply scan_vendor. by apply vendor_range.
Qed.

Lemma get_int_new i : is_u8 i -> get_int (Some (new_int i)) = i.
Proof.
  intros Hi. cbn [get_int new_int]. unfold clamp_int, int_max, s32. rewrite u32_small by lia.
  rewrite (proj2 (Z.ltb_lt _ _)) by lia. lia.
Qed.

Lemma read_elements els j n s : Forall page_element_ok els -> at_node id n (db_world s) ->
  Forall (fun x => el_index x < Z.of_nat j) (nd_elements n) -> (j + length els <= 255)%nat ->
  wp (parse_composition_elements id (Z.of_nat (j + length els)) (ptr <$> imap (fun k => element_json (j + k)) els))
    (fun r s' => r = true /\ exists n', at_node id n' (db_world s') /\
       nd_elements n' = nd_elements n ++ imap (fun k => read_element (j + k)) els) s.
Proof.
  intros Hels. revert j n s. induction Hels as [|e els He Hels IH]; intros j n s Hat Hj Hn.
  - apply wp_ret. split; [done|]. exists n. split; [done|]. by rewrite app_nil_r.
  - cbn [length] in Hn. cbn [imap]. rewrite Nat.add_0_r, fmap_cons. cbn [ptr element_json parse_composition_elements].
    set (el := Some _).
    assert (Hidx : element_index el (Z.of_nat (j + length (e :: els))) = Some (Z.of_nat j)).
    { unfold element_index. change (object_get el "elementIndex") with (Some (new_int (Z.of_nat j))).
      cbn [mbind option_bind]. rewrite get_int_new by lia. rewrite (proj2 (Z.leb_gt _ _)) by (cbn [length]; lia). done. }
    rewrite Hidx. wp_step. apply on_nodes_wp. rewrite u8_small by lia.
    assert (Hnone : find_element n (Z.of_nat j) = None).
    { apply find_first_none. eapply Forall_impl; [exact Hj|]. intros x Hx. apply Z.eqb_neq. cbn in Hx. lia. }
    eapply wp_mono; [by apply set_element_at|]. intros r w1 (-> & n1 & Hat1 & He1 & Hk1 & Hc1). cbn [negb].
    change (object_get el "models") with (Some (JArray (models_json e))). cbn [array_items]. wp_step.
    eapply wp_lift; [done|].
    assert (Hf : find_element n1 (Z.of_nat j) = Some (Element [] 0 (Z.of_nat j))).
    { unfold find_element. rewrite He1, find_first_app. unfold find_element in Hnone. rewrite Hnone.
      unfold find_first, match_element_idx. cbn. by rewrite Z.eqb_refl. }
    wp_step. eapply wp_mono; [eapply (read_models _ _ n1); [by apply models_scanned | lia | exact Hat1 | exact Hf]|].
    intros r s2 [-> (n2 & Hat2 & He2 & Hl2 & Hk2)]. cbn [negb].
    replace (j + length (e :: els))%nat with (S j + length els)%nat by (cbn [length]; lia).
    rewrite (imap_ext ((fun k => element_json (j + k)) ∘ S) (fun k => element_json (S j + k)))
      by (intros k x _; cbn; by rewrite Nat.add_succ_r).
    assert (Hel2 : nd_elements n2 = nd_elements n ++ [read_element j e]).
    { rewrite Hl2, He1, update_first_app.
      - cbn [update_first]. unfold match_element_idx. cbn [el_index]. rewrite Z.eqb_refl.
        unfold read_element. destruct He. by rewrite (push_models_new (pe_ids e) []).
      - eapply Forall_impl; [exact Hj|]. intros x Hx. apply Z.eqb_neq. cbn in Hx. lia. }
    eapply wp_mono; [apply (IH (S j) n2); [done | | lia]|].
    { rewrite Hel2. apply Forall_app. split; [|repeat constructor; cbn; lia].
      eapply Forall_impl; [exact Hj|]. cbn. lia. }
    intros r s3 [-> (n3 & Hat3 & He3)]. split; [done|]. exists n3. split; [done|].
    rewrite He3, Hel2, <-app_assoc. cbn [app imap]. do 2 f_equal.
    apply imap_ext. intros k x _. cbn. by rewrite Nat.add_succ_r.
Qed.

(** Elements and models leave the composition alone. *)
Definition comp_at (c : option mesh_node_composition) (w : world node_store) : Prop :=
  exists n, at_node id n w /\ nd_comp n = c.
Lemma set_element_comp c i w : comp_at c w -> wp (node_set_element (Some id) i) (fun _ => comp_at c) w.
Proof.
  intros (n & Hat & Hc). unfold node_set_element, nonnull. wp_step. eapply deref_at; [exact Hat|].
  case_goal; [wp_run; by exists n|]. wp_step.
  eapply assign_at; [exact Hat | done | intros; by apply push_element_wf | done|]. intros w' Hat'. wp_run. by eexists.
Qed.
Lemma set_model_comp c i m w : comp_at c w -> wp (node_set_model (Some id) i m) (fun _ => comp_at c) w.
Proof.
  intros (n & Hat & Hc). unfold node_set_model, nonnull. wp_step. eapply deref_at; [exact Hat|].
  destruct (find_element n i) as [e|] eqn:He; [|wp_run; by exists n].
  assert (Hi : match_element_idx i e = true) by apply (find_first_some _ _ _ He).
  destruct (find_model e m) as [x|] eqn:Hm; [wp_run; by exists n|]. wp_step.
  eapply assign_at; [exact Hat | done | | done |].
  - intros Hn. apply (on_element_wf _ _ _ e); [done | | done]. by apply push_model_wf.
  - intros w' Hat'. wp_run. by eexists.
Qed.
Lemma read_models_comp c i l s : comp_at c (db_world s) ->
  ∀ r s', parse_composition_models id i l s = Ok (r, s') -> comp_at c (db_world s').
Proof.
  revert s. induction l as [|x l IH]; intros s Hc r s'; cbn [parse_composition_models]; [by intros [= <- <-]|].
  intros (a & s1 & H1 & H)%st_bind_ok. unfold lift in H1. destruct (scan_model_id x) as [o|]; [|done].
  injection H1 as <- <-. destruct o as [mid|]; [|by injection H as <- <-].
  apply st_bind_ok in H as (b & s2 & H2 & H). unfold on_nodes in H2.
  pose proof (set_model_comp c (u8 i) mid (db_world s) Hc) as Hw. unfold wp in Hw.
  destruct (node_set_model _ _ _ _) as [[? w]|]; [|done]. injection H2 as <- <-.
  eapply IH; [|exact H]. exact Hw.
Qed.
Lemma read_elements_comp c k l s : comp_at c (db_world s) ->
  ∀ r s', parse_composition_elements id k l s = Ok (r, s') -> comp_at c (db_world s').
Proof.
  revert s. induction l as [|x l IH]; intros s Hc r s'; cbn [parse_composition_elements]; [by intros [= <- <-]|].
  destruct (element_index x k) as [i|]; [|by intros [= <- <-]].
  intros (ok & s1 & H1 & H)%st_bind_ok. unfold on_nodes in H1.
  pose proof (set_element_comp c (u8 i) (db_world s) Hc) as Hw. unfold wp in Hw.
  destruct (node_set_element _ _ _) as [[? w]|]; [|done]. injection H1 as <- <-.
  destruct b; cbn [negb] in H; [|by injection H as <- <-].
  destruct (object_get x "models") as [ms|]; [|eapply IH; [|exact H]; exact Hw].
  apply st_bind_ok in H as (lms & s2 & H2 & H). unfold lift in H2. destruct (array_items (Some ms)); [|done].
  injection H2 as <- <-. apply st_bind_ok in H as (ok & s3 & H3 & H).
  apply read_models_comp with (c := c) in H3; [|done]. destruct ok; cbn [negb] in H; [by eapply IH | by injection H as <- <-].
Qed.

(** What is read for a composition: a low power node loses that feature. *)
Definition read_comp (c : mesh_node_composition) : mesh_node_composition :=
  Composition (relay c) (proxy c) false (friend c) (cid c) (pid c) (vid c) (crpl c).
Record comp_ok (c : mesh_node_composition) : Prop := {
  co_cid : is_u16 (cid c); co_pid : is_u16 (pid c); co_vid : is_u16 (vid c); co_crpl : is_u16 (crpl c) }.

Lemma read_composition c els n s : comp_ok c -> Forall page_element_ok els -> (length els <= 255)%nat ->
  at_node id n (db_world s) -> nd_elements n = [] -> nd_comp n = None ->
  wp (parse_node_composition id (Some (comp_json c els))) (fun r s' => r = true /\
    exists n', at_node id n' (db_world s') /\ nd_elements n' = imap read_element els /\ nd_comp n' = Some (read_comp c)) s.
Proof.
  intros [H1 H2 H3 H4] Hels Hlen Hat Hnil Hnone. unfold parse_node_composition, required_u16. set (o := Some _).
  change (object_get o "features") with (Some (features_json c)).
  change (object_get o "elements") with (Some (JArray (imap element_json els))).
  do 4 (wp_step; eapply wp_lift; [by apply scan_hex_u16|]; cbn beta iota). wp_step.
  apply on_nodes_wp. unfold node_set_composition, nonnull. wp_step. eapply deref_at; [exact Hat|]. rewrite Hnone. wp_step.
  eapply assign_at; [exact Hat | done | intros; by apply (node_wf_field n) | done|]. intros w1 Hat1. wp_run.
  apply on_nodes_wp. unfold node_set_num_elements, nonnull_or_fault.
  eapply assign_at; [exact Hat1 | done | intros Hwf; by eapply (node_wf_field _ _ Hwf) | done|]. intros w2 Hat2.
  rewrite length_fmap, length_imap.
  set (s2 := set_db_world w2 _). assert (Hc2 : comp_at (Some (read_comp c)) (db_world s2)) by by eexists.
  pose proof (read_elements els 0 _ s2 Hels Hat2 ltac:(by cbn; rewrite Hnil; constructor) ltac:(lia)) as Hr.
  apply wp_ok in Hr as (r & s3 & Hr & -> & n3 & Hat3 & He3). apply wp_ok. exists true, s3. split; [exact Hr|].
  split; [done|]. destruct (read_elements_comp _ _ _ _ Hc2 _ _ Hr) as (n3' & [_ Hf'] & Hc3).
  exists n3. split; [done|]. destruct Hat3 as [_ Hf]. assert (n3' = n3) as -> by congruence. split; [|done].
  rewrite He3. cbn [nd_elements set_nd_num_ele set_nd_comp]. by rewrite Hnil.
Qed.
End Read.
