(* ===== verification/DbNodes.v ===== *)
(** * Nodes in the database

    What [prov_db_add_new_node] writes for a node that has been provisioned, and what
    [parse_node] makes of it when the program starts again. *)

From stdpp Require Import gmap strings.
From S2P Require Import Prelude Bytes Util Words AddrPool Alg Ccm Crypto Pdu Keys NetState Send Recv Reassembly Node NodeFacts NodeOps Composition ConfigModel Json JsonFacts ProvDb ProvDbFacts ProvRead DbComposition.

Open Scope string_scope.
Open Scope list_scope.
Open Scope Z_scope.

(** ** Keys in hexadecimal *)

Lemma hex_nibbles b : is_u8 b ->
  rd hexdigits (Z.shiftr b 4) = Ok (digit_char (b / 16 mod 16)) /\ rd hexdigits (Z.land b 0xf) = Ok (digit_char (b mod 16)).
Proof.
  intros Hb.
  assert (Hrd : ∀ d, 0 <= d < 16 -> rd hexdigits d = Ok (digit_char d)).
  { intros d Hd. unfold rd. rewrite (proj2 (Z.leb_le _ _)) by lia.
    assert (H : hexdigits !! Z.to_nat d = Some (digit_char d)); [|by rewrite H].
    pose proof (all_below_spec 16 (fun d => bool_decide (hexdigits !! Z.to_nat d = Some (digit_char d))) d
      ltac:(by vm_compute) Hd) as H. by apply bool_decide_eq_true in H. }
  rewrite Z.shiftr_div_pow2 by lia. change (2 ^ 4) with 16. change 0xf with (2 ^ 4 - 1).
  rewrite land_ones_mod by lia. change (2 ^ 4) with 16. split; [|apply Hrd; zlia].
  rewrite (Z.mod_small (b / 16)) by zlia. apply Hrd. zlia.
Qed.

Lemma hex2str_loop_ok src i a rest : bytes src -> len a = 2 * i -> length rest = (2 * length src)%nat -> 
  ∀ tl, hex2str_loop src i (a ++ rest ++ tl) = Ok (a ++ hex_text src ++ tl).
Proof.
  intros Hb. revert i a rest. induction Hb as [|b src Hb Hsrc IH]; intros i a rest Ha Hr tl.
  - by destruct rest.
  - destruct rest as [|x [|y rest]]; try (cbn in Hr; lia). cbn [hex2str_loop].
    destruct (hex_nibbles b Hb) as [-> ->]. cbn [mbind res_bind].
    cbn [app]. rewrite wr_mid by lia. cbn [mbind res_bind].
    set (hi := digit_char _). rewrite (cons_middle hi), app_assoc.
    rewrite wr_mid by (rewrite len_app; change (len [hi]) with 1; lia). cbn [mbind res_bind].
    set (lo := digit_char _). rewrite (cons_middle lo), (app_assoc (a ++ [hi])).
    rewrite (IH (i + 1) ((a ++ [hi]) ++ [lo]) rest); [| rewrite !len_app; change (len [hi]) with 1; change (len [lo]) with 1; lia | cbn in Hr; lia].
    unfold hex_text. rewrite fmap_cons. cbn [concat]. rewrite <-!app_assoc. do 2 f_equal. cbn [app digits].
    change (16 ^ Z.of_nat 1) with 16. change (16 ^ Z.of_nat 0) with 1. by rewrite Z.div_1_r.
Qed.

Lemma c_string_app s t : forallb (fun c => negb (c =? 0)) s = true -> c_string (s ++ t) = s ++ c_string t.
Proof.
  induction s as [|c s IH]; [done|]. cbn [forallb app c_string]. intros [Hc Hs]%andb_true_iff.
  apply negb_true_iff in Hc. by rewrite Hc, IH.
Qed.
Lemma plain_nonzero s : plain_text s = true -> forallb (fun c => negb (c =? 0)) s = true.
Proof. unfold plain_text. rewrite !forallb_forall. intros H c Hc. specialize (H c Hc). bool_hyps. apply negb_true_iff. lia. Qed.
Lemma c_string_plain s : plain_text s = true -> c_string s = s.
Proof. intros H. rewrite <-(app_nil_r s) at 1. rewrite c_string_app by by apply plain_nonzero. by rewrite app_nil_r. Qed.
Lemma hex_text_plain key : plain_text (hex_text key) = true.
Proof.
  unfold hex_text, plain_text. induction key as [|b key IH]; [done|]. rewrite fmap_cons. cbn [concat].
  rewrite forallb_app, IH, andb_true_r. apply digits_plain.
Qed.

Lemma add_key_ok desc key o : len key = 16 -> bytes key -> 
  add_key desc key (JObject o) = Ok (JObject (put_key desc (JString (hex_text key)) o)).
Proof.
  intros Hl Hb. unfold add_key, hex2str. change (u64 (33 - 1) <? u64 (16 * 2)) with false. cbn iota.
  rewrite rd_range_ok by lia. change (drop (Z.to_nat 0) key) with key.
  rewrite take_ge by (unfold len in Hl; lia). cbn [mbind res_bind].
  assert (Hn : length key = 16%nat) by (unfold len in Hl; lia).
  pose proof (hex2str_loop_ok key 0 [] (rep 32 0) Hb eq_refl ltac:(by rewrite Hn) [0]) as E.
  change ([] ++ rep 32 0 ++ [0]) with (rep 33 0) in E. rewrite E. cbn [mbind res_bind app].
  assert (Hw : wr (hex_text key ++ [0]) 32 0 = Ok (hex_text key ++ [0])).
  { pose proof (len_hex_text key) as Ht. rewrite Hl in Ht. rewrite wr_ok by (rewrite len_app, Ht; done).
    unfold len in Ht. rewrite insert_app_r_alt by lia. replace (Z.to_nat 32 - length (hex_text key))%nat with O by lia. done. }
  change (16 * 2) with 32. rewrite Hw. cbn [mbind res_bind mret res_ret object_add]. do 3 f_equal. f_equal.
  rewrite c_string_app by apply plain_nonzero, hex_text_plain. by rewrite app_nil_r.
Qed.

(** A key is read as it was written. *)
Lemma read_hex_text key old : len key = 16 -> bytes key -> len old = 16 -> read_hex_key (hex_text key) old = (true, key).
Proof.
  intros Hl Hb Ho. unfold read_hex_key. rewrite len_hex_text, Hl. cbn [Z.mul]. rewrite u16_small by lia.
  change (2 * 16 <? 32) with false. cbn iota.
  assert (Hn : length key = 16%nat) by (unfold len in Hl; lia).
  pose proof (hex_written_text key [] Hb) as E. rewrite Hn, app_nil_r in E. rewrite E, Hn.
  rewrite drop_ge by (unfold len in Ho; lia). by rewrite app_nil_r.
Qed.

(** ** What is written for a node *)

Definition element_entry (primary : Z) (i : nat) : json :=
  JObject [("elementIndex", new_int (Z.of_nat i)); ("unicastAddress", hex_u16 (primary + Z.of_nat i))].
Definition elements_json (n : mesh_node) : json :=
  JArray (element_entry (nd_primary n) <$> seq 0 (Z.to_nat (nd_num_ele n))).
Definition node_json (n : mesh_node) : json :=
  JObject [("deviceKey", JString (hex_text (nd_dev_key n)));
           ("configuration", JObject [("netKeys", JArray (hex_u16 <$> nd_net_keys n));
                                      ("elements", elements_json n)])].

Lemma new_elements_ok k i primary acc :
  new_elements k (Z.of_nat i) primary (JArray acc) = Ok (JArray (acc ++ (element_entry primary <$> seq i k))).
Proof.
  revert i acc. induction k as [|k IH]; intros i acc; cbn [new_elements seq].
  - by rewrite fmap_nil, app_nil_r.
  - unfold put_uint16 at 1. cbn [object_add mbind res_bind array_add].
    replace (Z.of_nat i + 1) with (Z.of_nat (S i)) by lia. etrans; [apply IH|].
    by rewrite fmap_cons, <-app_assoc.
Qed.

Lemma node_json_ok n : json_ok 5 (node_json n) = true.
Proof.
  apply json_ok_object. split; [done|]. repeat (apply Forall_cons; split); [apply hex_text_plain | | constructor].
  apply json_ok_object. split; [done|]. repeat (apply Forall_cons; split); [apply hex_list_ok | | constructor].
  apply json_ok_array, Forall_fmap, Forall_forall. intros i _. apply json_ok_object. split; [done|].
  repeat (apply Forall_cons; split); [apply new_int_ok | apply digits_plain | constructor].
Qed.
Lemma node_json_shape n : conforms node_schema (node_json n) = true.
Proof.
  apply conforms_obj. split; [by eexists|]. repeat constructor. unfold field_ok. cbn [fst snd].
  match goal with |- match object_get ?o ?k with _ => _ end => change (object_get o k)
    with (Some (JObject [("netKeys", JArray (hex_u16 <$> nd_net_keys n)); ("elements", elements_json n)])) end.
  apply conforms_obj. split; [by eexists|]. repeat (apply Forall_cons; split); try done; unfold field_ok; cbn [fst snd].
  - match goal with |- match object_get ?o ?k with _ => _ end => change (object_get o k) with (Some (elements_json n)) end.
    apply conforms_arr. eexists. split; [done|]. apply Forall_fmap, Forall_forall. intros i _. done.
  - match goal with |- match object_get ?o ?k with _ => _ end => change (object_get o k)
      with (Some (JArray (hex_u16 <$> nd_net_keys n))) end. apply hex_list_shape.
Qed.

(** A node that [prov_db_add_new_node] takes. *)
Record new_node_ok (n : mesh_node) : Prop := {
  nn_key : len (nd_dev_key n) = 16 /\ bytes (nd_dev_key n);
  nn_num : 0 < nd_num_ele n < 0x100;
  nn_primary : 0 < nd_primary n < 0x10000;
}.

Section Write.
Context {J : JsonC} {L : JsonLaws J}.

(** The array of the nodes of a document. *)
Definition nodes_of (j : json) : list json :=
  match object_get (Some j) "nodes" with Some (JArray l) => l | _ => [] end.

Lemma add_new_node_wp id n s (Q : bool -> db_state -> Prop) : db_ok s -> live id n (db_world s) -> new_node_ok n ->
  (∀ s', settled s s' -> (∀ j, ~ holds false s j) -> Q false s') ->
  (∀ j0 j s', holds false s j0 -> settled s s' ->
     (writable_db false s -> stored false j s') ->
     at_path [Key "nodes"; Idx (length (nodes_of j0))] j = Some (node_json n) -> Q true s') ->
  wp (prov_db_add_new_node (Some id)) Q s.
Proof.
  intros Hdb Hl [[Hk Hb] Hnum Hprim] Hno Hyes. unfold prov_db_add_new_node. wp_step. apply wp_get.
  change (prov_filename s) with (filename_of false s). apply with_main_wp; [done | |].
  { intros s' Hs Hd. apply Hno; [by apply settled_refl | done]. }
  intros t j s1 He1 Hs1 Hholds. assert (He : editing s false (Live t) j s1) by (split; [done | by apply settled_refl]).
  wp_step. eapply ed_get; [exact He|]. wp_step. eapply ed_nodes; [exact He | unfold nonnull_or_fault; by apply live_deref|].
  wp_step. eapply wp_lift; [by apply add_key_ok|]. wp_step.
  eapply wp_lift; [unfold add_node_idxs; rewrite put_uint16_list_ok; done|].
  rewrite (proj2 (Z.eqb_neq (nd_num_ele n) 0)), (proj2 (Z.eqb_neq (nd_primary n) UNASSIGNED)) by (unfold UNASSIGNED; lia).
  wp_step. eapply wp_lift; [exact (new_elements_ok _ 0 _ [])|]. wp_step. eapply wp_lift; [done|]. wp_step.
  eapply wp_lift; [done|]. cbn [put_key existsb has_key app]. fold (node_json n). wp_step.
  assert (Hend : ∀ j2 s2, editing s false (Live t) j2 s2 ->  same_db s1 s2 ->
    at_path [Key "nodes"; Idx (length (nodes_of j))] j2 = Some (node_json n) ->
    wp (_ ← prov_file_write false; mret true) (fun r s3 =>
      (exists j', edit false (Live t) j' s3) /\ ∀ s4, same_db s3 s4 -> Q r s4) s2).
  { intros j2 s2 He2 Hs2 Hat2. wp_step. eapply ed_write_stored; [exact He2|]. intros s3 [He3 Hs3] Hw Hst. apply wp_ret.
    split; [by eexists|]. intros s4 Hs4. apply (Hyes j j2); try done.
    - by eapply settled_same.
    - intros Hwr. destruct (Hst) as (nm & f & F1 & F2 & F3 & F4).
      { intros nm f Hnm Hf. apply (Hwr nm f).
        - rewrite <-Hnm. symmetry. rewrite (same_name _ _ _ Hs2). by apply same_name.
        - rewrite <-Hf. destruct Hs2 as [_ _ _ -> _], Hs1 as [_ _ _ -> _]. done. }
      exists nm, f. rewrite (same_name _ _ _ Hs4). destruct Hs4 as [_ _ _ -> _]. done. }
  destruct (main_object false j (ed_doc_ok _ _ _ _ _ He)) as [l Hat].
  assert (Hj : j = JObject l).
  { pose proof (ed_doc_ok _ _ _ _ _ He) as [_ _ Hn]. cbn [at_path] in Hat. rewrite Hn in Hat. by injection Hat. }
  assert (Hnodes : object_get (Some j) "nodes" = at_path [Key "nodes"] j).
  { change [Key "nodes"] with ([] ++ [Key "nodes"]). rewrite at_path_key, Hat. by rewrite Hj. }
  assert (Hidx : ∀ j2 la k, at_path [Key "nodes"] j2 = Some (JArray la) -> la !! k = Some (node_json n) ->
    at_path [Key "nodes"; Idx k] j2 = Some (node_json n)).
  { intros j2 la k H2 Hlk. change [Key "nodes"; Idx k] with ([Key "nodes"] ++ [Idx k]). rewrite at_path_app, H2.
    cbn [at_path at_step]. by rewrite Hlk. }
  wp_step. unfold nodes_of in Hend. rewrite Hnodes in *.
  destruct (at_path [Key "nodes"] j) as [a|] eqn:Ea.
  - pose proof (conforms_at _ _ _ _ (doc_shape _ _ (ed_doc_ok _ _ _ _ _ He)) Ea) as Ha.
    rewrite (schema_nodes false) in Ha. apply conforms_arr in Ha as (la & -> & _).
    destruct (doc_array_add (schema_of false) [Key "nodes"] (node_json n) j la 5) as (j2 & Hm & Hj2 & Hat2);
      [done | by eapply ed_doc_ok | unfold max_depth; cbn; lia | done | done | apply node_json_shape | apply node_json_ok |].
    eapply edit_mod; [exact He1 | exact Hm | done|]. intros s2 He2 Hs2. apply (Hend j2); [| done |].
    + split; [done|]. eapply settled_same; [|exact Hs2]. by apply settled_refl.
    + eapply Hidx; [exact Hat2|]. by rewrite list_lookup_middle.
  - destruct (doc_object_add (schema_of false) [] "nodes" (JArray [node_json n]) j l 6) as (j2 & Hm & Hj2 & Hat2);
      [done | done | by eapply ed_doc_ok | unfold max_depth; cbn; lia | done | done | done | | |].
    { apply conforms_arr. eexists. split; [done|]. repeat constructor. apply node_json_shape. }
    { apply json_ok_array. repeat constructor. apply node_json_ok. }
    eapply edit_mod; [exact He1 | exact Hm | done|]. intros s2 He2 Hs2. apply (Hend j2); [| done |].
    + split; [done|]. eapply settled_same; [|exact Hs2]. by apply settled_refl.
    + apply (Hidx j2 [node_json n]); [|done]. change [Key "nodes"] with ([] ++ [Key "nodes"]).
      rewrite at_path_key, Hat2, object_get_put. by rewrite decide_True.
Qed.

Lemma add_new_node_safe id n s : db_ok s -> live id n (db_world s) -> new_node_ok n ->
  wp (prov_db_add_new_node (Some id)) (fun _ => settled s) s.
Proof. intros Hdb Hl Hn. by eapply add_new_node_wp. Qed.
End Write.

(** ** Key indexes are written in hexadecimal and read as decimal *)

Definition decimal_hex (k : Z) : bool := forallb is_digit (digits 16 4 (u16 k)).
Definition misread (k : Z) : Z := digits_value (digits 16 4 (u16 k)) 0.

Lemma misread_spec k : 0 <= k < 4096 -> decimal_hex k = true -> 0 <= misread k < 1000 /\ (misread k = k <-> k < 10).
Proof.
  intros Hk Hd.
  pose proof (all_below_spec 4096 (fun k => implb (decimal_hex k)
    ((0 <=? misread k) && (misread k <? 1000) && eqb (misread k =? k) (k <? 10))) k ltac:(by vm_compute) Hk) as H.
  cbn beta in H. rewrite Hd in H. cbn [implb] in H. bool_hyps. split; [lia|].
  match goal with H : eqb _ _ = true |- _ => apply eqb_prop in H; rename H into He end.
  rewrite <-Z.eqb_eq, He. apply Z.ltb_lt.
Qed.

Section Misread.
Context {J : JsonC} {L : JsonLaws J}.
Lemma get_int_hex k : 0 <= k < 4096 -> decimal_hex k = true -> get_int (Some (hex_u16 k)) = misread k.
Proof.
  intros Hk Hd. destruct (misread_spec k Hk Hd) as [Hr _]. cbn [get_int hex_u16]. rewrite c_string_digits.
  apply string_int_decimal; [done | exact Hd|]. fold (misread k). unfold int_max. lia.
Qed.
End Misread.

(** ** Reading a node *)

(** [g_list_append] of what is not there yet. *)
Definition add_new (l : list Z) (k : Z) : list Z := if in_list k l then l else l ++ [k].

Section Read.
Context {J : JsonC} {L : JsonLaws J} {A : Alg} {MC : ModelCode}.
Context (s0 : node_store) (Hs0 : store_wf s0).
Implicit Types (x : mesh_node) (w : world node_store).

(** The store [s0] with one more node, and the addresses that are free. *)
Record newest (x : mesh_node) (pool : list Z) (w : world node_store) : Prop := {
  nw_nodes : w_nodes w = NodeStore (ns_nodes s0 ++ [x]) (ns_local s0) true (ns_next s0 + 1) (ns_statics s0);
  nw_id : nd_id x = ns_next s0;
  nw_pool : address_pool (w_net w) = pool;
}.

Lemma others_differ : Forall (fun y => is_node (ns_next s0) y = false) (ns_nodes s0).
Proof. destruct Hs0 as [_ _ _ Hf _]. eapply Forall_impl; [exact Hf|]. intros y Hy. apply Z.eqb_neq. cbn in Hy. lia. Qed.

Lemma newest_find x pool w : newest x pool w -> find_first (is_node (ns_next s0)) (ns_nodes (w_nodes w)) = Some x.
Proof.
  intros [-> Hid _]. cbn [ns_nodes]. rewrite find_first_app, (proj2 (find_first_none _ _) others_differ).
  unfold find_first, is_node. cbn [find]. by rewrite Hid, Z.eqb_refl.
Qed.

Lemma newest_deref x pool w (Q : mesh_node -> world node_store -> Prop) : newest x pool w -> Q x w ->
  wp (node_deref (ns_next s0)) Q w.
Proof. intros Hn HQ. eapply node_deref_wp; [by destruct Hn as [-> _ _] | by eapply newest_find | done]. Qed.

Lemma newest_assign f x pool w (Q : unit -> world node_store -> Prop) : newest x pool w -> nd_id (f x) = nd_id x ->
  (∀ w', newest (f x) pool w' -> Q tt w') -> wp (node_assign (ns_next s0) f) Q w.
Proof.
  intros Hn Hid HQ. eapply node_assign_wp; [by destruct Hn as [-> _ _] | by eapply newest_find|]. apply HQ.
  destruct Hn as [Hw Hx Hp]. split; [| congruence | done]. unfold on_store. cbn [w_nodes]. rewrite Hw.
  unfold upd_node, set_nodes. cbn [ns_nodes ns_local ns_valid ns_next ns_statics]. f_equal.
  rewrite update_first_app by apply others_differ. cbn [update_first]. unfold is_node. by rewrite Hx, Z.eqb_refl.
Qed.

Lemma newest_new w pool (Q : option Z -> world node_store -> Prop) : w_nodes w = s0 -> address_pool (w_net w) = pool ->
  (∀ w', newest (zero_node (ns_next s0)) pool w' -> Q (Some (ns_next s0)) w') -> wp node_new Q w.
Proof.
  intros Hw Hp HQ. unfold node_new, store, all_nodes. wp_run. eapply wp_lift; [rewrite Hw; by destruct Hs0 as [-> _ _ _ _]|].
  unfold mod_store. wp_run. rewrite Hw. apply HQ. split; [|done|done]. unfold on_store. cbn [w_nodes]. rewrite Hw.
  unfold push_node. by destruct Hs0 as [-> _ _ _ _].
Qed.

(** Key indexes. *)
Definition with_keys (l : list Z) x : mesh_node := set_nd_net_keys l x.
Lemma read_net_idxs ks x pool i s : Forall (fun k => 0 <= k < 4096 /\ decimal_hex k = true) ks ->
  newest x pool (db_world s) ->
  wp (parse_node_keys (ns_next s0) (Some <$> (hex_u16 <$> ks)) false i) (fun r s' => r = i + len ks /\
    newest (with_keys (fold_left add_new (misread <$> ks) (nd_net_keys x)) x) pool (db_world s')) s.
Proof.
  intros Hks. revert x i s. induction Hks as [|k ks [Hk Hd] Hks IH]; intros x i s Hn.
  - cbn. apply wp_ret. split; [change (len []) with 0; lia|]. by destruct x.
  - rewrite !fmap_cons. cbn [parse_node_keys fold_left]. rewrite get_int_hex by done.
    destruct (misread_spec k Hk Hd) as [Hr _]. unfold CHECK_KEY_IDX_RANGE.
    rewrite (proj2 (Z.leb_le _ _)), (proj2 (Z.leb_le _ _)) by lia. cbn [andb negb]. wp_step. apply on_nodes_wp.
    rewrite u16_small by lia. unfold node_net_key_add, nonnull. wp_step. eapply newest_deref; [exact Hn|].
    assert (Hend : ∀ x' w', newest x' pool w' -> nd_net_keys x' = add_new (nd_net_keys x) (misread k) ->
      (∀ l, with_keys l x' = with_keys l x) ->
      wp (parse_node_keys (ns_next s0) (Some <$> (hex_u16 <$> ks)) false (i + 1)) (fun r s' => r = i + len (k :: ks) /\
        newest (with_keys (fold_left add_new (misread <$> ks) (add_new (nd_net_keys x) (misread k))) x) pool (db_world s'))
        (set_db_world w' s)).
    { intros x' w' Hn' Hk' Hx'. eapply wp_mono; [by apply (IH x')|]. intros r s' [-> Hs']. split; [rewrite len_cons; lia|].
      by rewrite <-Hk', <-Hx'. }
    unfold add_new at 1 in Hend. destruct (in_list (misread k) (nd_net_keys x)) eqn:Ein.
    + apply wp_ret. by apply (Hend x).
    + wp_step. eapply newest_assign; [exact Hn | done|]. intros w' Hn'. wp_run. by eapply Hend.
Qed.

(** The elements of a node, of which the first has the address. *)
Lemma skip_elements j k (id : Z) el_cnt primary s : (0 < j)%nat -> Z.of_nat (j + k) <= el_cnt < 0x100 ->
  parse_configuration_elements id el_cnt (Some <$> (element_entry primary <$> seq j k)) false s = Ok (true, s).
Proof.
  intros Hj. revert j Hj. induction k as [|k IH]; intros j Hj Hk; [done|].
  cbn [seq]. rewrite !fmap_cons. cbn [parse_configuration_elements].
  set (o := Some (element_entry primary j)).
  assert (Hi : element_index o el_cnt = Some (Z.of_nat j)).
  { unfold element_index. change (object_get o "elementIndex") with (Some (new_int (Z.of_nat j))).
    cbn [mbind option_bind]. rewrite get_int_new by lia. by rewrite (proj2 (Z.leb_gt _ _)) by lia. }
  rewrite Hi, (proj2 (Z.eqb_neq _ 0)) by lia. change (object_get o "models") with (@None json).
  transitivity (parse_configuration_elements id el_cnt (Some <$> (element_entry primary <$> seq (S j) k)) false s); [done|].
  apply IH; lia.
Qed.

Lemma read_elements_entries n x pool pool' s : new_node_ok n -> newest x pool (db_world s) ->
  net_reserve_address_range (nd_primary n) (nd_num_ele n) pool = (true, pool') ->
  wp (parse_configuration_elements (ns_next s0) (nd_num_ele n)
        (Some <$> (element_entry (nd_primary n) <$> seq 0 (Z.to_nat (nd_num_ele n)))) false)
    (fun r s' => r = true /\ newest (set_nd_primary (nd_primary n) x) pool' (db_world s')) s.
Proof.
  intros [_ Hnum Hprim] Hn Hr. destruct (Z.to_nat (nd_num_ele n)) as [|k] eqn:Ek; [lia|].
  cbn [seq]. rewrite !fmap_cons. cbn [parse_configuration_elements].
  set (o := Some (element_entry (nd_primary n) 0)).
  assert (Hi : element_index o (nd_num_ele n) = Some 0).
  { unfold element_index. change (object_get o "elementIndex") with (Some (new_int 0)).
    cbn [mbind option_bind]. rewrite get_int_new by lia. by rewrite (proj2 (Z.leb_gt _ _)) by lia. }
  rewrite Hi. change (0 =? 0) with true. cbn iota. wp_step. unfold parse_primary. wp_step.
  eapply wp_lift.
  { change (object_get o "unicastAddress") with (Some (hex_u16 (nd_primary n + 0))). rewrite Z.add_0_r.
    apply scan_hex_u16. lia. }
  cbn beta iota. wp_step. unfold reserve_addresses. apply on_nodes_wp. unfold net_of. do 2 wp_step.
  destruct Hn as [Hw Hid Hp]. rewrite Hp, u8_small, Hr by lia. unfold mod_net. wp_run. cbn [negb]. wp_step.
  apply on_nodes_wp. unfold node_set_primary, nonnull_or_fault.
  eapply (newest_assign _ x pool'); [split; done | done|]. intros w' Hn'. apply wp_ret.
  change (object_get o "models") with (@None json). apply wp_ok. eexists true, _.
  split; [apply (skip_elements 1 k); lia|]. by split.
Qed.

(** The node that is made of the object. *)
Definition read_node (n : mesh_node) : mesh_node :=
  with_keys (fold_left add_new (misread <$> nd_net_keys n) [])
    (set_nd_primary (nd_primary n) (set_nd_num_ele (nd_num_ele n)
       (set_nd_dev_key (nd_dev_key n) (zero_node (ns_next s0))))).

Lemma read_new_node junk n p j pool pool' s : new_node_ok n -> nd_net_keys n <> [] ->
  Forall (fun k => 0 <= k < 4096 /\ decimal_hex k = true) (nd_net_keys n) -> len junk = 16 ->
  jmain s = Live j -> at_path p j = Some (node_json n) ->
  w_nodes (db_world s) = s0 -> address_pool (w_net (db_world s)) = pool ->
  net_reserve_address_range (nd_primary n) (nd_num_ele n) pool = (true, pool') ->
  wp (parse_node junk p false) (fun r s' => r = true /\ newest (read_node n) pool' (db_world s')) s.
Proof.
  intros Hn Hne Hks Hj Hm Hat Hw Hp Hr. pose proof Hn as [[Hkl Hkb] Hnum Hprim]. unfold parse_node.
  assert (Hobj : ∀ (Q : option json -> db_state -> Prop), Q (Some (node_json n)) s -> wp (obj_at p) Q s).
  { intros Q HQ. unfold obj_at, main_doc. wp_run. rewrite Hm. wp_run. by rewrite Hat. }
  set (o := Some (node_json n)) in *.
  wp_step. apply Hobj. wp_step. unfold node_device_key. change (object_get o "deviceKey") with (Some (JString (hex_text (nd_dev_key n)))).
  wp_step. eapply wp_lift; [unfold the_string, get_string; rewrite c_string_plain by apply hex_text_plain; reflexivity|].
  rewrite read_hex_text by done. cbn iota. wp_step. apply Hobj. wp_step. apply on_nodes_wp.
  eapply newest_new; [done | done|]. intros w1 H1. cbn iota. wp_step. apply on_nodes_wp. unfold node_set_device_key, nonnull.
  eapply newest_assign; [exact H1 | done|]. intros w2 H2. wp_step. unfold parse_counters. wp_step. apply on_nodes_wp.
  change (object_get o "IVindex") with (@None json). change (object_get o "sequenceNumber") with (@None json).
  unfold node_set_iv_index, nonnull. wp_step. eapply newest_assign; [exact H2 | done|]. intros w3 H3. apply wp_ret.
  wp_step. apply wp_ret. apply wp_ret. cbv zeta. change (object_get o "composition") with (@None json).
  wp_step. apply wp_ret. cbn [negb].
  set (c := JObject [("netKeys", JArray (hex_u16 <$> nd_net_keys n)); ("elements", elements_json n)]).
  change (object_get o "configuration") with (Some c). cbn iota. wp_step. unfold parse_configuration.
  change (object_get (Some c) "elements") with (Some (elements_json n)).
  change (object_get (Some c) "netKeys") with (Some (JArray (hex_u16 <$> nd_net_keys n))).
  change (object_get (Some c) "appKeys") with (@None json). change (object_get (Some c) "defaultTTL") with (@None json).
  cbn iota. wp_step. eapply (wp_lift _ (Some <$> (element_entry (nd_primary n) <$> seq 0 (Z.to_nat (nd_num_ele n))))).
  { cbn [array_items elements_json]. f_equal. rewrite <-!list_fmap_compose. by apply list_fmap_ext. }
  rewrite !length_fmap, length_seq, Z2Nat.id by lia. wp_step. apply on_nodes_wp. rewrite u8_small by lia.
  unfold node_set_num_elements, nonnull_or_fault. eapply newest_assign; [exact H3 | done|]. intros w4 H4. wp_step.
  eapply wp_mono; [eapply (read_elements_entries n _ pool pool'); [done | exact H4 | done]|].
  intros r s5 [-> H5]. cbn [negb]. wp_step.
  eapply (wp_lift _ (Some <$> (hex_u16 <$> nd_net_keys n))).
  { cbn [array_items]. f_equal. rewrite <-!list_fmap_compose. by apply list_fmap_ext. }
  wp_step. eapply wp_mono; [by eapply read_net_idxs|]. intros r s6 [-> H6].
  assert (Hlen : 0 < len (nd_net_keys n)).
  { destruct (nd_net_keys n) as [|k ks]; [done|]. rewrite len_cons. pose proof (len_nonneg ks). lia. }
  rewrite (proj2 (Z.eqb_neq _ 0)) by lia. wp_run. split; [done|]. exact H6.
Qed.
End Read.
