(* ===== verification/DbFacts.v ===== *)
(** * The database of the program

    Every call into the database keeps its files in shape; what is stored for a node
    is what the next start of the program reads, up to the key indexes, a feature and
    the places of the elements; and where the database goes wrong. *)

From stdpp Require Import gmap strings.
From S2P Require Import Prelude Bytes Util Words AddrPool Alg Ccm Crypto Pdu Keys NetState Send Recv Reassembly Node NodeFacts NodeOps Composition ConfigModel Json JsonFacts ProvDb ProvDbFacts ProvRead DbComposition DbNodes.

Open Scope string_scope.
Open Scope list_scope.
Open Scope Z_scope.

(** ** Every call is safe *)

(** Composition data of a node, as it arrives. *)
Definition page_of (n : mesh_node) (data : list Z) : Prop :=
  exists cid pid vid crpl features els, data = encode_page cid pid vid crpl features els /\
    Forall page_element_ok els /\ nd_num_ele n = Z.of_nat (length els) /\ len data < 0x10000.

Definition op_node (op : db_op) : Z :=
  match op with
  | DbTtl n _ | DbKeys n _ _ | DbModelPub n _ _ | DbBinding n _ _ _ | DbSubscription n _ _ _
  | DbComposition n _ | DbNewNode n _ => n
  end.
(** A call on a node that is there, with what the node layer guarantees. *)
Definition db_event_ok (w : world node_store) (e : event) : Prop :=
  match e with
  | Db op => exists n, live (op_node op) n w /\
      match op with
      | DbNewNode _ _ => new_node_ok n
      | DbComposition _ data => page_of n data
      | _ => True
      end
  | StoreIv _ _ prov => prov = true
  | _ => True
  end.

Section Safe.
Context {J : JsonC} {L : JsonLaws J} {A : Alg} {MC : ModelCode}.

Lemma comp_stored id n c data s (Q : bool -> db_state -> Prop) els : db_ok s -> live id n (db_world s) ->
  nd_comp n = Some c -> comp_object c (nd_num_ele n) data (len data) = Ok (comp_json c els) ->
  (∀ s', settled s s' -> (∀ j p, holds false s j -> find_node_by_primary (nd_primary n) j <> Ok (Some p)) -> Q false s') ->
  (∀ j0 p j s', holds false s j0 ->
     find_node_by_primary (nd_primary n) j0 = Ok (Some p) -> settled s s' ->
     (writable_db false s -> stored false j s') ->
     at_path (p ++ [Key "composition"]) j = Some (comp_json c els) -> Q true s') ->
  wp (prov_db_add_node_composition (Some id) data (len data)) Q s.
Proof.
  intros Hdb Hl Hc Hobj Hno Hyes. unfold prov_db_add_node_composition. wp_step.
  eapply nodes_read; [by apply live_primary|]. wp_step. eapply nodes_read; [by apply live_comp|]. rewrite Hc.
  wp_step. apply wp_get. change (prov_filename s) with (filename_of false s). apply with_main_wp; [done | |].
  { intros s' Hs Hd. apply Hno; [by apply settled_refl|]. intros j p Hj. by apply Hd in Hj. }
  intros t j s1 He1 Hs1 Hholds. assert (He : editing s false (Live t) j s1) by (split; [done | by apply settled_refl]).
  unfold with_primary, primary_path. wp_step. wp_step. eapply ed_get; [exact He|].
  destruct (find_node_ok false (nd_primary n) j (ed_doc_ok _ _ _ _ _ He)) as (r & Hr & Hnode).
  eapply wp_lift; [exact Hr|]. destruct r as [p|].
  2: { apply wp_ret. split; [by eexists|]. intros s3 Hs3. apply Hno.
       { eapply settled_same; [by apply settled_refl | exact Hs3]. }
       intros j' p (nm & f & F1 & F2 & F3) Hp. destruct Hholds as (nm' & f' & G1 & G2 & G3). congruence. }
  destruct (Hnode p eq_refl) as [Hsch Hd [l Hat]]. wp_step. eapply ed_nodes; [exact He | by apply live_num|]. wp_step.
  eapply wp_lift; [exact Hobj|]. wp_step.
  destruct (doc_object_add (schema_of false) p "composition" (comp_json c els) j l 5) as (j2 & Hm & Hj2 & Hat2);
    [done | by rewrite Hsch | by eapply ed_doc_ok | unfold max_depth; lia | done | exact Hat | done
    | rewrite Hsch; apply comp_json_shape | apply comp_json_ok |].
  eapply edit_mod; [exact He1 | exact Hm | done|]. intros s2 He2 Hs2.
  assert (He2' : editing s false (Live t) j2 s2).
  { split; [done|]. eapply settled_same; [|exact Hs2]. by apply settled_refl. }
  wp_step. eapply ed_write_stored; [exact He2'|]. intros s3 [He3 Hs3] Hw Hst. apply wp_ret.
  split; [by eexists|]. intros s4 Hs4. apply (Hyes j p j2); try done.
  - by eapply settled_same.
  - intros Hwr. destruct Hst as (nm & f & F1 & F2 & F3 & F4).
    { intros nm f Hnm Hf. apply (Hwr nm f).
      - rewrite <-Hnm. symmetry. rewrite (same_name _ _ _ Hs2). by apply same_name.
      - rewrite <-Hf. destruct Hs2 as [_ _ _ -> _], Hs1 as [_ _ _ -> _]. done. }
    exists nm, f. rewrite (same_name _ _ _ Hs4). destruct Hs4 as [_ _ _ -> _]. done.
  - rewrite at_path_key, Hat2, object_get_put. by rewrite decide_True.
Qed.

Lemma no_comp_safe id n data s : db_ok s -> live id n (db_world s) -> nd_comp n = None ->
  wp (prov_db_add_node_composition (Some id) data (len data)) (fun _ => settled s) s.
Proof.
  intros Hdb Hl Hc. unfold prov_db_add_node_composition. wp_step.
  eapply nodes_read; [by apply live_primary|]. wp_step. eapply nodes_read; [by apply live_comp|]. rewrite Hc.
  apply wp_ret. by apply settled_refl.
Qed.

Lemma db_call_safe op s : db_ok s -> db_event_ok (db_world s) (Db op) ->
  wp (db_call op) (fun _ => settled s) s.
Proof.
  intros Hdb (n & Hl & Hop). destruct op as [nd ttl | nd app ks | nd e m | nd e m a | nd e m a | nd data | nd pr];
    cbn [db_call op_node] in *.
  - by eapply set_ttl_safe.
  - eapply node_keys_safe; [done | exact Hl|]. destruct app; [by right | by left].
  - wp_step. eapply nodes_read.
    + unfold node_model_pub_get, nonnull, mbind, st_bind. by rewrite (live_deref _ _ _ Hl).
    + by eapply set_model_pub_safe.
  - by eapply add_binding_safe.
  - by eapply add_subscription_safe.
  - destruct (nd_comp n) as [c|] eqn:Ec; [|by eapply no_comp_safe].
    destruct Hop as (cid & pid & vid & crpl & features & els & -> & Hels & Hk & Hlen).
    eapply comp_stored; [done | exact Hl | exact Ec | | by intros | by intros].
    rewrite Hk, <-(app_nil_r (encode_page _ _ _ _ _ _)) at 1. by apply comp_object_ok.
  - by eapply add_new_node_safe.
Qed.

Lemma found_live w addr n : store_wf (w_nodes w) -> find_by_addr (w_nodes w) addr = Ok (Some n) -> live (nd_id n) n w.
Proof.
  intros [Hv Hnd _ _ _] Hf. split; [done|]. unfold find_by_addr, all_nodes in Hf. rewrite Hv in Hf.
  case_in Hf; [done|]. cbn [mbind res_bind] in Hf. injection Hf as Hf. apply find_first_some in Hf as [Hin _].
  by apply (find_first_key nd_id).
Qed.

Lemma db_event_safe e s : db_ok s -> store_wf (w_nodes (db_world s)) -> db_event_ok (db_world s) e ->
  wp (db_event e) (fun _ => settled s) s.
Proof.
  intros Hdb Hw He.
  assert (Hdone : ∀ h : DM bool, wp h (fun _ => settled s) s -> wp (_ ← h; mret tt) (fun _ => settled s) s).
  { intros h Hh. wp_step. eapply wp_mono; [exact Hh|]. intros b s' Hs. by wp_run. }
  destruct e; cbn [db_event db_event_ok] in *; try (apply wp_ret; by apply settled_refl).
  - by apply Hdone, set_seq_safe.
  - subst. by apply Hdone, set_iv_index_safe.
  - wp_step. apply wp_get. wp_step. unfold node_by_addr.
    destruct (find_by_addr (w_nodes (db_world s)) primary) as [o|f] eqn:Ef.
    + eapply nodes_read; [done|]. apply Hdone. destruct o as [n|].
      * eapply set_iv_seq_safe; [done|]. apply live_primary. by eapply found_live.
      * by eapply set_iv_seq_safe.
    + exfalso. unfold find_by_addr, all_nodes in Ef. destruct Hw as [Hv _ _ _ _]. rewrite Hv in Ef. by case_in Ef.
  - by apply Hdone, db_call_safe.
Qed.

Lemma db_events_run l s : db_ok s -> store_wf (w_nodes (db_world s)) -> Forall (db_event_ok (db_world s)) l ->
  wp (db_events l) (fun _ => settled s) s.
Proof.
  intros Hdb Hw Hl. unfold db_events. revert s Hdb Hw Hl. induction l as [|e l IH]; intros s Hdb Hw Hl; cbn [mapM_].
  - apply wp_ret. by apply settled_refl.
  - apply Forall_cons in Hl as [He Hl]. apply wp_bind. eapply wp_mono; [by apply db_event_safe|].
    intros _ s1 [H1 H2 H3]. eapply wp_mono; [apply IH; by rewrite ?H2|]. intros _ s2 [H4 H5 H6].
    split; [done | congruence|]. intros local. by rewrite H6.
Qed.
End Safe.

(** C9: every call into the database that a provisioner makes goes through, and leaves
    the files in shape.  With any JSON library that reads back the documents it has
    written: if what the two files hold has the shape that the program relies on, then
    any sequence of calls into the database by the layers above returns without a fault:
    no NULL is read, nothing is released twice and nothing is taken for an object of
    another kind.  The files have that shape again, and the nodes are as they were.  The
    calls are those of [db_event_ok]: for nodes that exist, a new node is one that
    provisioning has made, the composition data that is stored is a page that describes
    all elements of its node, each model once, and is not cut short, and the IV index is
    stored by a provisioner; [set_iv_index_double_free] and [composition_over_read] are what
    happens otherwise. *)
Theorem database_safe (J : JsonC) (L : JsonLaws J) (MC : ModelCode) (l : list event) (s : db_state) :
  db_ok s -> store_wf (w_nodes (db_world s)) -> Forall (db_event_ok (db_world s)) l ->
  exists s', db_events l s = Ok (tt, s') /\ db_ok s' /\ db_world s' = db_world s.
Proof.
  intros Hdb Hw Hl. pose proof (db_events_run l s Hdb Hw Hl) as H.
  apply wp_ok in H as ([] & s' & Hr & [H1 H2 _]). by exists s'.
Qed.

(** ** What the next start reads *)

Section Restart.
Context {J : JsonC} {L : JsonLaws J}.

(** The file that an operation has left, read with the nodes of another run. *)
Lemma load_holds local j s w : holds local s j ->
  exists t, load (filename_of local s) (set_db_world w s) =
    Ok (true, set_jmain (Live j) (set_in_str (Live t) (set_db_world w s))).
Proof.
  intros (n & f & Hn & Hf & Hj). exists (f_data f). unfold load, prov_file_read.
  cbv beta iota delta [mbind st_bind get mret st_ret modify]. cbn [db_files set_db_world]. rewrite Hn. cbn [option_bind].
  rewrite Hf. cbn [fmap option_fmap option_map]. by rewrite Hj.
Qed.

Lemma stored_holds local j s : stored local j s -> holds local s j.
Proof. intros (n & f & ? & ? & _ & ?). by exists n, f. Qed.
Lemma holds_unique local j j' s : holds local s j -> holds local s j' -> j = j'.
Proof. intros (? & ? & ? & ? & ?) (? & ? & ? & ? & ?). congruence. Qed.
Lemma bind_run {T U} (h : DM T) (f : T -> DM U) s a s' : h s = Ok (a, s') -> (h ≫= f) s = f a s'.
Proof. intros H. unfold mbind, st_bind. by rewrite H. Qed.
End Restart.

(** The key indexes that are the same in hexadecimal and in decimal. *)
Lemma small_keys_misread l : Forall (fun k => 0 <= k < 10) l -> misread <$> l = l.
Proof.
  intros Hl. induction Hl as [|k l Hk Hl IH]; [done|]. rewrite fmap_cons, IH. f_equal.
  pose proof (all_below_spec 10 (fun k => misread k =? k) k ltac:(by vm_compute) Hk) as H. cbn beta in H. lia.
Qed.
Lemma small_keys_decimal l : Forall (fun k => 0 <= k < 10) l ->
  Forall (fun k => 0 <= k < 4096 /\ decimal_hex k = true) l.
Proof.
  intros Hl. eapply Forall_impl; [exact Hl|]. cbn beta. intros k Hk. split; [lia|].
  exact (all_below_spec 10 decimal_hex k ltac:(by vm_compute) Hk).
Qed.
Lemma add_new_all l acc : NoDup (acc ++ l) -> fold_left add_new l acc = acc ++ l.
Proof.
  revert acc. induction l as [|k l IH]; intros acc Hnd; cbn [fold_left]; [by rewrite app_nil_r|].
  rewrite cons_middle, app_assoc in Hnd. unfold add_new.
  destruct (in_list k acc) eqn:E.
  - exfalso. assert (Hk : k ∈ acc) by (apply dec_stable; intros Hk; apply in_list_false in Hk; by rewrite E in Hk).
    apply NoDup_app in Hnd as [Hnd _]. apply NoDup_app in Hnd as (_ & Hd & _). apply (Hd k Hk). by left.
  - rewrite IH by done. by rewrite <-app_assoc.
Qed.

(** A new node, stored and read by the next start. *)
Lemma new_node_run (J : JsonC) (L : JsonLaws J) (A : Alg) (MC : ModelCode) (id : Z) (n : mesh_node) (j0 : json)
    (s : db_state) (w0 : world node_store) (junk pool' : list Z) :
  db_ok s -> live id n (db_world s) -> new_node_ok n -> holds false s j0 -> writable_db false s ->
  nd_net_keys n <> [] -> NoDup (nd_net_keys n) -> Forall (fun k => 0 <= k < 10) (nd_net_keys n) ->
  store_wf (w_nodes w0) -> len junk = 16 ->
  net_reserve_address_range (nd_primary n) (nd_num_ele n) (address_pool (w_net w0)) = (true, pool') ->
  exists s' r r' x, prov_db_add_new_node (Some id) s = Ok (true, s') /\
    load (prov_filename s') (set_db_world w0 s') = Ok (true, r) /\
    parse_node junk [Key "nodes"; Idx (length (nodes_of j0))] false r = Ok (true, r') /\
    ns_nodes (w_nodes (db_world r')) = ns_nodes (w_nodes w0) ++ [x] /\
    address_pool (w_net (db_world r')) = pool' /\
    nd_dev_key x = nd_dev_key n /\ nd_num_ele x = nd_num_ele n /\ nd_primary x = nd_primary n /\
    nd_net_keys x = nd_net_keys n.
Proof.
  intros Hdb Hl Hn Hj0 Hw Hne Hnd Hks Hw0 Hjunk Hr.
  assert (H : wp (prov_db_add_new_node (Some id)) (fun r s' => r = true /\ exists j, stored false j s' /\
    at_path [Key "nodes"; Idx (length (nodes_of j0))] j = Some (node_json n)) s).
  { eapply add_new_node_wp; [done | exact Hl | done | |].
    - intros s' _ Hno. by destruct (Hno j0).
    - intros j1 j s' Hj1 _ Hst Hat. split; [done|]. exists j. split; [by apply Hst|].
      assert (j1 = j0) as -> by by eapply holds_unique. done. }
  apply wp_ok in H as (r0 & s' & H1 & -> & j & Hst & Hat).
  destruct (load_holds false j s' w0 (stored_holds _ _ _ Hst)) as [t Hload]. set (r := set_jmain _ _) in Hload.
  pose proof (read_new_node (w_nodes w0) Hw0 junk n _ j _ pool' r Hn Hne (small_keys_decimal _ Hks) Hjunk eq_refl Hat
    eq_refl eq_refl Hr) as H.
  apply wp_ok in H as (b & r' & H2 & -> & [Hw' _ Hp]).
  exists s', r, r', (read_node (w_nodes w0) n). split; [done|]. split; [done|]. split; [done|].
  split; [by rewrite Hw'|]. split; [done|]. do 3 (split; [done|]).
  unfold read_node. cbn [nd_net_keys with_keys set_nd_net_keys]. rewrite small_keys_misread by done. by apply (add_new_all _ []).
Qed.

(** A node that has been provisioned is there after the next start.
    A node of which all the network key indexes are below ten is added to a database
    that can be written.  When the file is read again, in another run of the program,
    the object at the end of its nodes makes a new node with that device key, that
    number of elements, that address and those network keys, whose addresses
    are taken from the pool; nothing else changes among the nodes. *)
Theorem new_node_read_back (J : JsonC) (L : JsonLaws J) (A : Alg) (MC : ModelCode) (id : Z) (n : mesh_node) (j0 : json)
    (s : db_state) (w0 : world node_store) (junk pool' : list Z) :
  db_ok s -> live id n (db_world s) -> new_node_ok n -> holds false s j0 -> writable_db false s ->
  nd_net_keys n <> [] -> NoDup (nd_net_keys n) -> Forall (fun k => 0 <= k < 10) (nd_net_keys n) ->
  store_wf (w_nodes w0) -> len junk = 16 ->
  net_reserve_address_range (nd_primary n) (nd_num_ele n) (address_pool (w_net w0)) = (true, pool') ->
  exists s' r r' x, prov_db_add_new_node (Some id) s = Ok (true, s') /\
    load (prov_filename s') (set_db_world w0 s') = Ok (true, r) /\
    parse_node junk [Key "nodes"; Idx (length (nodes_of j0))] false r = Ok (true, r') /\
    ns_nodes (w_nodes (db_world r')) = ns_nodes (w_nodes w0) ++ [x] /\
    address_pool (w_net (db_world r')) = pool' /\
    nd_dev_key x = nd_dev_key n /\ nd_num_ele x = nd_num_ele n /\ nd_primary x = nd_primary n /\
    nd_net_keys x = nd_net_keys n.
Proof. exact (new_node_run J L A MC id n j0 s w0 junk pool'). Qed.

(** Key indexes are stored in one base and read in another.  An index is
    written as four hexadecimal digits and read as a decimal number: of the indexes
    whose digits are all decimal, those below ten, and only those, are read as they
    were. *)
Theorem key_index_misread (J : JsonC) (L : JsonLaws J) (k : Z) :
  0 <= k < 4096 -> decimal_hex k = true ->
  exists a, put_uint16_list [k] (JArray []) = Ok (JArray [a]) /\
    0 <= get_int (Some a) < 1000 /\ (get_int (Some a) = k <-> k < 10).
Proof.
  intros Hk Hd. exists (hex_u16 k). split; [done|]. rewrite get_int_hex by done. by apply misread_spec.
Qed.
Lemma key_index_misread_witness : exists a, put_uint16_list [0x10] (JArray []) = Ok (JArray [a]) /\
  0 <= get_int (Some a) < 1000 /\ (get_int (Some a) = 0x10 <-> 0x10 < 10).
Proof. apply (key_index_misread toy_json toy_json_laws 0x10); [lia | by vm_compute]. Defined.

(** C24: the composition of a node is there after the next start, less one
    feature and the places of the elements.  A page of composition data of a node that
    is in the database is stored; when the file is read again, the object of that node
    has a composition, from which a node without one gets the same elements, models,
    numbers and features, but for the low power feature, which is stored under a name
    that is not read, and the location of each element, which is 0. *)
Theorem composition_read_back (J : JsonC) (L : JsonLaws J) (A : Alg) (MC : ModelCode) (id new : Z) (n m : mesh_node)
    (c : mesh_node_composition) (j0 : json) (p : list pstep) (s : db_state) (w0 : world node_store)
    (company product version protect features : Z) (els : list page_element) :
  let page := encode_page company product version protect features els in
  db_ok s -> live id n (db_world s) -> nd_comp n = Some c -> comp_ok c ->
  Forall page_element_ok els -> (length els <= 255)%nat -> nd_num_ele n = Z.of_nat (length els) -> len page < 0x10000 ->
  holds false s j0 -> find_node_by_primary (nd_primary n) j0 = Ok (Some p) -> writable_db false s ->
  store_wf (w_nodes w0) -> find_first (is_node new) (ns_nodes (w_nodes w0)) = Some m ->
  nd_elements m = [] -> nd_comp m = None ->
  exists s' r r' j m', prov_db_add_node_composition (Some id) page (len page) s = Ok (true, s') /\
    load (prov_filename s') (set_db_world w0 s') = Ok (true, r) /\ jmain r = Live j /\
    parse_node_composition new (at_path (p ++ [Key "composition"]) j) r = Ok (true, r') /\
    find_first (is_node new) (ns_nodes (w_nodes (db_world r'))) = Some m' /\
    nd_elements m' = imap (fun i e => Element (zero_model <$> pe_ids e) 0 (Z.of_nat i)) els /\
    nd_comp m' = Some (Composition (relay c) (proxy c) false (friend c)
      (cid c) (pid c) (vid c) (crpl c)).
Proof.
  intros page Hdb Hl Hc Hco Hels Hk Hnum Hlen Hj0 Hp Hw Hw0 Hm Hnil Hnone.
  assert (H : wp (prov_db_add_node_composition (Some id) page (len page)) (fun r s' => r = true /\
    exists j, stored false j s' /\ at_path (p ++ [Key "composition"]) j = Some (comp_json c els)) s).
  { eapply comp_stored; [done | exact Hl | exact Hc | | |].
    - rewrite Hnum. unfold page. rewrite <-(app_nil_r (encode_page _ _ _ _ _ _)) at 1. by apply comp_object_ok.
    - intros s' _ Hno. by destruct (Hno j0 p Hj0).
    - intros j1 p1 j s' Hj1 Hp1 _ Hst Hat. split; [done|]. exists j. split; [by apply Hst|].
      assert (j1 = j0) as -> by by eapply holds_unique.
      assert (p1 = p) as -> by congruence. done. }
  apply wp_ok in H as (b & s' & H1 & -> & j & Hst & Hat).
  destruct (load_holds false j s' w0 (stored_holds _ _ _ Hst)) as [t Hload]. set (r := set_jmain _ _) in Hload.
  assert (Hm0 : at_node new m (db_world r)) by by split.
  pose proof (read_composition new c els m r Hco Hels Hk Hm0 Hnil Hnone) as H.
  apply wp_ok in H as (b & r' & H2 & -> & m' & [_ Hm'] & He' & Hc').
  exists s', r, r', j, m'. rewrite Hat. by repeat (split; [done|]).
Qed.

(** C40: without the provisioner's database the IV index is stored and the memory
    is released twice.  When the local file can be read and the call is not that of
    a provisioner, the text and the document are released before the test for a
    provisioner and once more after it. *)
Theorem set_iv_index_double_free (J : JsonC) (L : JsonLaws J) (iv : Z) (upd : bool) (j : json) (s : db_state) :
  db_ok s -> holds true s j -> prov_db_local_set_iv_index iv upd false s = Fault UseAfterFree.
Proof.
  intros Hdb Hj. destruct (load_holds true j s (db_world s) Hj) as [t Hload].
  assert (E : set_db_world (db_world s) s = s) by by destruct s. rewrite E in Hload. set (s1 := set_jmain _ _) in Hload.
  assert (He : editing s true (Live t) j s1).
  { destruct Hj as (nm & f & Hn & Hf & Hp). assert (Hs1 : same_db s s1) by by split. split; [|by apply settled_refl].
    split; [done | done | by eapply (db_file s Hdb true) | by apply (same_db_ok s)|].
    rewrite (same_name _ _ _ Hs1), Hn. by eexists. }
  destruct (local_node_at _ _ j s1 He) as [Hsch _ [l Hat]].
  assert (H : wp (_ ← set_local_iv_index [Key "node"] iv upd; prov_file_write true)
    (fun _ s2 => exists j2, edit true (Live t) j2 s2) s1).
  { wp_step. eapply set_iv_safe; [exact He | done | exact Hat | by left |]. intros j1 s2 He1.
    eapply ed_write; [exact He1|]. intros s3 [He3 _]. by eexists. }
  apply wp_ok in H as ([] & s2 & H & j2 & [E1 E2 _ _ _]). apply st_bind_ok in H as ([] & s2' & H1 & H2).
  unfold prov_db_local_set_iv_index.
  erewrite bind_run by reflexivity. erewrite bind_run by exact Hload. cbn [negb].
  erewrite bind_run by reflexivity. cbn [jmain s1 set_jmain negb].
  rewrite (bind_run _ _ _ (Some true) (set_jmain Freed (set_in_str Freed s2))); [done|].
  erewrite bind_run by exact H1. erewrite bind_run by exact H2.
  erewrite bind_run by (unfold free_str; erewrite bind_run by reflexivity; rewrite E1; reflexivity).
  by erewrite bind_run by (unfold put_main; erewrite bind_run by reflexivity; cbn [jmain set_in_str]; rewrite E2; reflexivity).
Qed.

(** ** A database *)

(** The node of the program and one other, of two elements. *)
Definition demo_comp : mesh_node_composition := Composition true false true true 0x5f1 1 2 3.
Definition demo_node (addr : Z) (more : list (string * json)) : json :=
  JObject (more ++ [("deviceKey", JString (hex_text (rep 16 8)));
           ("configuration", JObject [("netKeys", JArray [hex_u16 0]); ("defaultTTL", JInt 7);
              ("elements", JArray [element_entry addr 0; element_entry addr 1])])]).
Definition demo_prov_file : json :=
  JObject [("IVindex", JInt 5); ("IVupdate", JInt 0);
           ("netKeys", JArray [JObject [("index", JInt 0); ("key", JString (hex_text (rep 16 1))); ("keyRefresh", JInt 0)]]);
           ("provisioners", JArray [JObject [("allocatedUnicastRange",
              JArray [JObject [("lowAddress", hex_u16 0x100); ("highAddress", hex_u16 0x7fff)]])]]);
           ("nodes", JArray [demo_node 0x100 []])].
Definition demo_local_file : json := JObject [("node", demo_node 0x77 [("composition", comp_json demo_comp demo_page)])].
Definition demo_db_of (w : world node_store) : db_state :=
  DbState w (Some "prov_db.json") (Some "local_node.json") Null Null
    (<["prov_db.json" := File (toy_print demo_prov_file) true]>
       (<["local_node.json" := File (toy_print demo_local_file) true]> ∅)) [].

Lemma demo_holds local w : holds local (demo_db_of w) (if local then demo_local_file else demo_prov_file).
Proof.
  destruct local; cbn [filename_of].
  - exists "local_node.json", (File (toy_print demo_local_file) true). split; [done|]. split; [done | by vm_compute].
  - exists "prov_db.json", (File (toy_print demo_prov_file) true). split; [done|]. split; [done | by vm_compute].
Qed.
Lemma demo_db_ok w : db_ok (demo_db_of w).
Proof.
  split.
  - intros local n f j Hn Hf Hj. assert (j = if local then demo_local_file else demo_prov_file) as ->.
    { eapply holds_unique; [|apply demo_holds]. by exists n, f. }
    destruct local; split; by vm_compute.
  - by intros n [= <-].
Qed.
Lemma demo_writable local w : writable_db local (demo_db_of w).
Proof. intros n f Hn Hf. destruct local; injection Hn as <-; by injection Hf as <-. Qed.

(** *** Witnesses *)
Definition demo_calls : list event :=
  [Db (DbTtl 2 5); Db (DbKeys 2 false [0; 3]); Db (DbBinding 2 1 0xffff1000 0); Db (DbSubscription 2 0 0x5f11001 0xc000);
   StoreSeq 300; StoreIv 6 false true; StoreIvSeq 0x100 6 12;
   Db (DbComposition 2 (encode_page 0x5f1 1 2 3 5 demo_page)); Db (DbNewNode 2 0x100)].

Lemma demo_page_elements : Forall page_element_ok demo_page.
Proof. repeat constructor; cbn; try lia; apply (bool_decide_unpack _); by vm_compute. Qed.
Definition demo_full : mesh_node := set_nd_comp (Some demo_comp) demo_blank.
Definition demo_full_world : world node_store :=
  World demo_net demo_keys (NodeStore [demo_local; demo_full] (Some 1) true 3 start_statics) 1 [] false [].
Lemma demo_full_wf : store_wf (w_nodes demo_full_world).
Proof.
  split; [done | apply (bool_decide_unpack _); by vm_compute | | |].
  - repeat constructor; cbn; try (apply (bool_decide_unpack _); by vm_compute); lia.
  - repeat constructor.
  - intros l [= <-]. by exists demo_local.
Qed.
Lemma demo_full_live : live 2 demo_full demo_full_world.
Proof. done. Qed.
Lemma demo_new_node_ok : new_node_ok demo_full.
Proof. split; [|done..]. split; [done|]. by repeat constructor. Qed.

Lemma database_safe_witness :
  exists s', db_events demo_calls (demo_db_of demo_full_world) = Ok (tt, s') /\ db_ok s' /\ db_world s' = demo_full_world.
Proof.
  apply (database_safe toy_json toy_json_laws noting_models demo_calls (demo_db_of demo_full_world)).
  - apply demo_db_ok.
  - apply demo_full_wf.
  - repeat (apply Forall_cons; split); try done; (exists demo_full); split; try done; [|apply demo_new_node_ok].
    exists 0x5f1, 1, 2, 3, 5, demo_page. split; [done|]. split; [apply demo_page_elements | done].
Defined.

(** The program at its next start, with the addresses of the provisioner. *)
Definition demo_restart : world node_store :=
  World (set_address_pool [mk_range 0x100 0x7fff] demo_net) demo_keys demo_store 1 [] false [].

Lemma new_node_read_back_witness : exists s' r r' x,
  prov_db_add_new_node (Some 2) (demo_db_of demo_full_world) = Ok (true, s') /\
  load (prov_filename s') (set_db_world demo_restart s') = Ok (true, r) /\
  parse_node (rep 16 0) [Key "nodes"; Idx 1] false r = Ok (true, r') /\
  ns_nodes (w_nodes (db_world r')) = ns_nodes (w_nodes demo_restart) ++ [x] /\
  address_pool (w_net (db_world r')) = [mk_range 0x102 0x7fff] /\
  nd_dev_key x = rep 16 8 /\ nd_num_ele x = 2 /\ nd_primary x = 0x100 /\ nd_net_keys x = [0].
Proof.
  apply (new_node_read_back toy_json toy_json_laws toy_alg noting_models 2 demo_full demo_prov_file
    (demo_db_of demo_full_world) demo_restart (rep 16 0) [mk_range 0x102 0x7fff]).
  - apply demo_db_ok.
  - done.
  - apply demo_new_node_ok.
  - apply (demo_holds false).
  - apply demo_writable.
  - done.
  - apply (bool_decide_unpack _); by vm_compute.
  - by repeat constructor.
  - apply demo_store_wf.
  - done.
  - by vm_compute.
Defined.

Lemma composition_read_back_witness : exists s' r r' j m',
  let page := encode_page 0x5f1 1 2 3 5 demo_page in
  prov_db_add_node_composition (Some 2) page (len page) (demo_db_of demo_full_world) = Ok (true, s') /\
  load (prov_filename s') (set_db_world demo_nodes s') = Ok (true, r) /\ jmain r = Live j /\
  parse_node_composition 2 (at_path [Key "nodes"; Idx 0; Key "composition"] j) r = Ok (true, r') /\
  find_first (is_node 2) (ns_nodes (w_nodes (db_world r'))) = Some m' /\
  nd_elements m' = imap (fun i e => Element (zero_model <$> pe_ids e) 0 (Z.of_nat i)) demo_page /\
  nd_comp m' = Some (Composition true false false true 0x5f1 1 2 3).
Proof.
  apply (composition_read_back toy_json toy_json_laws toy_alg noting_models 2 2 demo_full demo_remote demo_comp
    demo_prov_file [Key "nodes"; Idx 0] (demo_db_of demo_full_world) demo_nodes 0x5f1 1 2 3 5 demo_page); try done.
  - apply demo_db_ok.
  - apply demo_page_elements.
  - cbn. lia.
  - apply (demo_holds false).
  - apply demo_writable.
  - apply demo_store_wf.
Defined.

Lemma set_iv_index_double_free_witness :
  prov_db_local_set_iv_index 6 true false (demo_db_of demo_nodes) = Fault UseAfterFree.
Proof.
  apply (set_iv_index_double_free toy_json toy_json_laws 6 true demo_local_file).
  - apply demo_db_ok.
  - apply (demo_holds true).
Defined.
