(* ===== verification/DbStart.v ===== *)
(** * Starting with the database

    Whatever documents of the right shape the two files hold, the program reads them
    without a fault, and the nodes it makes of them are well formed. *)

From stdpp Require Import gmap strings.
From S2P Require Import Prelude Bytes Util Words AddrPool Alg Ccm Crypto Pdu Keys NetState Send Recv Reassembly Node NodeFacts NodeOps Composition ConfigModel Json JsonFacts ProvDb ProvDbFacts ProvRead DbComposition DbNodes DbFacts.

Open Scope string_scope.
Open Scope list_scope.
Open Scope Z_scope.

(** ** A node that is being read

    Not the local one yet; if it is to be, its address is unicast. *)
Section Parsing.
Context {A : Alg} {MC : ModelCode} (lc : bool) (l : option Z) (id : Z).
Implicit Types w : world node_store.

Record parsing w : Prop := {
  ps_wf : store_wf (w_nodes w);
  ps_local : ns_local (w_nodes w) = l;
  ps_other : l <> Some id;
  ps_node : exists n, find_first (is_node id) (ns_nodes (w_nodes w)) = Some n /\ (lc = true -> nd_primary n < 0x8000);
}.

Lemma ps_deref w (Q : mesh_node -> world node_store -> Prop) : parsing w ->
  (∀ n, at_node id n w -> Q n w) -> wp (node_deref id) Q w.
Proof. intros [Hw _ _ (n & Hn & _)] HQ. eapply deref_at; [by split|]. by apply HQ. Qed.

Lemma ps_assign f w (Q : unit -> world node_store -> Prop) : parsing w -> (∀ n, nd_id (f n) = nd_id n) ->
  (∀ n, at_node id n w -> node_wf n -> node_wf (f n)) ->
  (∀ n, lc = true -> nd_primary n < 0x8000 -> nd_primary (f n) < 0x8000) ->
  (∀ w', parsing w' -> Q tt w') -> wp (node_assign id f) Q w.
Proof.
  intros [Hw Hl Ho (n & Hn & Hp)] Hid Hf Hpf HQ. eapply node_assign_wp; [by destruct Hw | exact Hn|]. apply HQ.
  destruct (at_node_wf id n w (conj Hw Hn)) as [Hwf _].
  split; [| done | done |].
  - apply (upd_node_wf_local _ _ _ n); try done; [by apply Hf|]. intros E. by rewrite Hl in E.
  - exists (f n). split; [by apply find_upd | auto].
Qed.

(** Operations that leave it so. *)
Definition reads {T} (h : NM T) : Prop := ∀ w, parsing w -> wp h (fun _ => parsing) w.

Lemma assign_reads {T} f (v : T) w : parsing w -> (∀ n, nd_id (f n) = nd_id n) ->
  (∀ n, at_node id n w -> node_wf n -> node_wf (f n)) -> (∀ n, nd_primary (f n) = nd_primary n) ->
  wp (_ ← node_assign id f; mret v : NM T) (fun _ => parsing) w.
Proof. intros Hp Hid Hf Hprim. wp_step. eapply ps_assign; [done.. | |]; [intros n _; by rewrite Hprim | by intros; wp_run]. Qed.

(** Fields that well-formedness says nothing of. *)
Lemma assign_field_reads f : (∀ n, nd_id (f n) = nd_id n /\ nd_net_keys (f n) = nd_net_keys n /\
     nd_app_keys (f n) = nd_app_keys n /\ nd_elements (f n) = nd_elements n /\ nd_dev_key (f n) = nd_dev_key n /\
     nd_primary (f n) = nd_primary n) -> reads (node_assign id f).
Proof.
  intros Hf w Hp. eapply ps_assign; [done | intros n; apply Hf | | | done].
  - intros n _ Hn. destruct (Hf n) as (? & ? & ? & ? & ? & ?). by apply (node_wf_field n).
  - intros n _. by destruct (Hf n) as (_ & _ & _ & _ & _ & ->).
Qed.

Lemma then_reads {T U} (h : NM T) (k : T -> NM U) : reads h -> (∀ a, reads (k a)) -> reads (a ← h; k a).
Proof. intros Hh Hk w Hp. wp_step. eapply wp_mono; [by apply Hh|]. intros a w' Hp'. by apply Hk. Qed.
Lemma ret_reads {T} (v : T) : reads (mret v).
Proof. intros w Hp. by wp_run. Qed.
Lemma same_nodes_reads {T} (h : NM T) : (∀ w, wp h (fun _ w' => w_nodes w' = w_nodes w) w) -> reads h.
Proof. intros Hh w Hp. eapply wp_mono; [apply Hh|]. intros a w' E. cbn beta in E. destruct Hp as [H1 H2 H3 H4]. split; [by rewrite E.. | done | by rewrite E]. Qed.

Lemma at_same n n' w : at_node id n w -> at_node id n' w -> n' = n.
Proof. intros [_ H1] [_ H2]. congruence. Qed.

Lemma net_key_add_reads i : reads (node_net_key_add (Some id) i).
Proof.
  intros w Hp. unfold node_net_key_add, nonnull. wp_step. eapply ps_deref; [done|]. intros n Hat.
  case_goal; [by wp_run|]. apply assign_reads; [done..| | done]. intros n' Hat' Hwf. apply net_keys_wf; [|done].
  rewrite (at_same n n' w Hat Hat') in *. apply NoDup_push; [done | by destruct Hwf].
Qed.
Lemma app_key_add_reads i : reads (node_app_key_add (Some id) i).
Proof.
  intros w Hp. unfold node_app_key_add, nonnull. wp_run. case_goal; [by wp_run|]. wp_run. eapply ps_deref; [done|].
  intros n Hat. repeat (case_goal; [by wp_run|]). apply assign_reads; [done..| | done]. intros n' Hat' Hwf. apply app_keys_wf; [|done].
  rewrite (at_same n n' w Hat Hat') in *. apply NoDup_push; [done | by destruct Hwf].
Qed.
Lemma set_element_reads e : reads (node_set_element (Some id) e).
Proof.
  intros w Hp. unfold node_set_element, nonnull. wp_step. eapply ps_deref; [done|]. intros n Hat.
  case_goal; [by wp_run|]. apply assign_reads; [done..| | done]. intros n' Hat' Hwf.
  rewrite (at_same n n' w Hat Hat') in *. by apply push_element_wf.
Qed.
Lemma set_model_reads e i : reads (node_set_model (Some id) e i).
Proof.
  intros w Hp. unfold node_set_model, nonnull. wp_step. eapply ps_deref; [done|]. intros n Hat.
  destruct (find_element n e) as [el|] eqn:He; [|by wp_run]. case_goal; [by wp_run|].
  apply assign_reads; [done..| | done]. intros n' Hat' Hwf. rewrite (at_same n n' w Hat Hat') in *.
  apply (on_element_wf _ _ _ el); [done | | done]. by apply push_model_wf.
Qed.
Lemma set_composition_reads c : reads (node_set_composition (Some id) c).
Proof.
  intros w Hp. unfold node_set_composition, nonnull. case_goal; [|by wp_run]. wp_step. eapply ps_deref; [done|].
  intros n Hat. case_goal; [by wp_run|]. by apply (then_reads (node_assign id _)); [apply assign_field_reads | intros; apply ret_reads|].
Qed.
Lemma model_reads (e i : Z) f n m w : parsing w -> at_node id n w -> get_model n e i = Some m -> (∀ m, md_id (f m) = md_id m) ->
  (model_wf m -> model_wf (f m)) -> wp (node_assign id (on_model e i f)) (fun _ => parsing) w.
Proof.
  intros Hp Hat Hm Hid Hf. eapply ps_assign; [done..| | done | done]. intros n' Hat' Hwf.
  rewrite (at_same n n' w Hat Hat') in *. by apply (on_model_wf _ _ _ _ m).
Qed.
Lemma not_local w : parsing w -> bool_decide (Some id = ns_local (w_nodes w)) = false.
Proof. intros [_ Hl Ho _]. apply bool_decide_eq_false. congruence. Qed.
Lemma add_subscription_reads e i addr : reads (node_add_subscription (Some id) e i addr).
Proof.
  intros w Hp. unfold node_add_subscription, nonnull. wp_step. eapply ps_deref; [done|]. intros n Hat.
  destruct (get_model n e i) as [m|] eqn:Hm; [|by wp_run]. case_goal; [by wp_run|]. wp_step.
  eapply (wp_mono _ (fun _ => parsing)); [|done]. eapply model_reads; [done.. |]. intros []. apply model_wf_subs. by apply NoDup_push.
Qed.
Lemma add_binding_reads e i app_idx : reads (node_add_binding (Some id) e i app_idx).
Proof.
  intros w Hp. unfold node_add_binding, nonnull. wp_step. eapply ps_deref; [done|]. intros n Hat.
  destruct (get_model n e i) as [m|] eqn:Hm; [|by wp_run]. case_goal; [by wp_run|].
  unfold node_is_local, store. do 4 wp_step. rewrite not_local by done. cbn iota. wp_step. apply wp_ret. cbn iota.
  eapply (wp_mono _ (fun _ => parsing)); [|done]. eapply model_reads; [done..|]. by intros [].
Qed.
Lemma pub_set_reads e i pub : reads (node_model_pub_set (Some id) e i pub).
Proof.
  intros w Hp. unfold node_model_pub_set, nonnull. wp_step. eapply ps_deref; [done|]. intros n Hat.
  destruct (get_model n e i) as [m|] eqn:Hm; [|by wp_run]. wp_step.
  eapply wp_mono; [eapply model_reads; [done..|]; by intros []|].
  intros ? w' Hp'. unfold node_is_local, store. do 4 wp_step. rewrite not_local by done. cbn iota. wp_run. done.
Qed.
Lemma default_ttl_reads ttl : reads (node_set_default_ttl (Some id) ttl).
Proof.
  unfold node_set_default_ttl, nonnull. apply then_reads; [by apply assign_field_reads|]. intros _.
  apply then_reads; [by apply same_nodes_reads|]. intros []; [|apply ret_reads]. apply same_nodes_reads.
  intros w. unfold net_set_default_ttl, mod_net. case_goal; by wp_run.
Qed.
Lemma sequence_number_reads seq : reads (node_set_sequence_number (Some id) seq).
Proof.
  unfold node_set_sequence_number, nonnull. apply then_reads; [by apply assign_field_reads|]. intros _.
  apply then_reads; [by apply same_nodes_reads|]. intros []; [|apply ret_reads]. apply same_nodes_reads.
  intros w. unfold net_set_seq_num, mod_net. case_goal; by wp_run.
Qed.
Lemma iv_index_reads iv : reads (node_set_iv_index (Some id) iv).
Proof. unfold node_set_iv_index, nonnull. apply then_reads; [by apply assign_field_reads | intros; apply ret_reads]. Qed.
Lemma num_elements_reads k : reads (node_set_num_elements (Some id) k).
Proof. by apply (assign_field_reads (set_nd_num_ele k)). Qed.
Lemma device_key_reads k : len k = 16 -> reads (node_set_device_key (Some id) (Some k)).
Proof.
  intros Hk w Hp. unfold node_set_device_key, nonnull. eapply ps_assign; [done | done | | done | done].
  intros n _ []. by constructor.
Qed.
Lemma primary_reads a : is_u16 a -> (lc = true -> a < 0x8000) -> reads (node_set_primary (Some id) a).
Proof.
  intros Ha Hl w Hp. unfold node_set_primary, nonnull_or_fault. eapply ps_assign; [done | done | | | done].
  - intros n _ []. by constructor.
  - intros n Hlc _. by apply Hl.
Qed.
End Parsing.

(** ** Reading one *)

Section Read.
Context {J : JsonC} {L : JsonLaws J} {A : Alg} {MC : ModelCode} (lc : bool) (l : option Z) (id : Z) (s0 : db_state).
Implicit Types s : db_state.

(** Only the nodes and the network have changed. *)
Record reading s : Prop := {
  rg_nodes : parsing lc l id (db_world s);
  rg_db : s = set_db_world (db_world s) s0;
}.
(** Computations that leave it so. *)
Definition read_ok {T} (h : DM T) : Prop := ∀ s, reading s -> wp h (fun _ => reading) s.

Lemma read_ret {T} (v : T) : read_ok (mret v).
Proof. intros s Hs. by apply wp_ret. Qed.
Lemma read_bind {T U} (h : DM T) (k : T -> DM U) : read_ok h -> (∀ a, read_ok (k a)) -> read_ok (a ← h; k a).
Proof. intros Hh Hk s Hs. wp_step. eapply wp_mono; [by apply Hh|]. intros a s' Hs'. by apply Hk. Qed.
Lemma read_nodes_op {T} (h : NM T) : reads lc l id h -> read_ok (on_nodes h).
Proof.
  intros Hh s [Hp Hs]. apply on_nodes_wp. eapply wp_mono; [by apply Hh|]. intros a w Hp'. split; [done|]. by rewrite Hs.
Qed.
Lemma read_lift {T U} (r : res T) a (k : T -> DM U) : r = Ok a -> read_ok (k a) -> read_ok (a ← lift r; k a).
Proof. intros Hr Hk s Hs. wp_step. eapply wp_lift; [exact Hr|]. by apply Hk. Qed.
Lemma read_if {T} (b : bool) (h k : DM T) : read_ok h -> read_ok k -> read_ok (if b then h else k).
Proof. by destruct b. Qed.

Lemma parse_node_keys_ok li app i : read_ok (parse_node_keys id li app i).
Proof.
  revert i. induction li as [|x li IH]; intros i; cbn [parse_node_keys]; [apply read_ret|].
  destruct x as [v|]; [|apply read_ret]. case_goal; [apply read_ret|]. apply read_bind; [|intros; apply IH].
  apply read_nodes_op. destruct app; [apply app_key_add_reads | apply net_key_add_reads].
Qed.

Lemma parse_models_ok i li : Forall is_Some li -> read_ok (parse_composition_models id i li).
Proof.
  intros Hli. induction Hli as [|x li [v ->] _ IH]; cbn [parse_composition_models]; [apply read_ret|].
  destruct (scan_model_id_ok v) as [r Hr]. eapply read_lift; [exact Hr|]. destruct r; [|apply read_ret].
  apply read_bind; [apply read_nodes_op, set_model_reads | done].
Qed.

Definition comp_element_schema : schema := Obj [("models", false, Arr false Any)].
Lemma element_member x k i v sch : element_index x k = Some i -> hole_or sch x -> object_get x "models" = Some v ->
  exists e, x = Some e /\ conforms sch e = true.
Proof. by destruct x as [e|]; [exists e|]. Qed.

Lemma parse_elements_ok k li : Forall (hole_or comp_element_schema) li -> read_ok (parse_composition_elements id k li).
Proof.
  intros Hli. induction Hli as [|x li Hx _ IH]; cbn [parse_composition_elements]; [apply read_ret|].
  destruct (element_index x k) as [i|] eqn:Ei; [|apply read_ret].
  apply read_bind; [apply read_nodes_op, set_element_reads|]. intros ok. apply read_if; [apply read_ret|].
  destruct (object_get x "models") as [ms|] eqn:Em; [|done].
  destruct (element_member _ _ _ _ _ Ei Hx Em) as (e & -> & He).
  pose proof (get_conforms _ e "models" ms He Em) as Hms. change (step_schema _ _) with (Arr false Any) in Hms.
  destruct (array_items_ok _ _ _ Hms) as (ml & -> & Hml & _ & Hsome). eapply read_lift; [exact Hml|].
  apply read_bind; [apply parse_models_ok, Hsome; done|]. intros b. by apply read_if; [apply read_ret|].
Qed.

Lemma read_required o k (f : Z -> DM bool) : (∀ x, read_ok (f x)) ->
  read_ok (a ← lift (required_u16 o k); match a with None => mret false | Some x => f x end).
Proof.
  intros Hf. assert (exists r, required_u16 o k = Ok r) as [r Hr].
  { unfold required_u16. destruct (object_get o k) as [v|]; [apply scan_u16_ok | by eexists]. }
  eapply read_lift; [exact Hr|]. destruct r; [done | apply read_ret].
Qed.

Lemma parse_composition_ok v : conforms comp_schema v = true -> read_ok (parse_node_composition id (Some v)).
Proof.
  intros Hv. unfold parse_node_composition.
  do 4 (apply read_required; intros ?).
  case_goal; [|apply read_ret]. apply read_bind; [apply read_nodes_op, set_composition_reads|]. intros ok.
  apply read_if; [apply read_ret|]. destruct (object_get (Some v) "elements") as [es|] eqn:Ee; [|apply read_ret].
  pose proof (get_conforms _ v "elements" es Hv Ee) as Hes. change (step_schema _ _) with (Arr true comp_element_schema) in Hes.
  destruct (array_items_ok _ _ _ Hes) as (el & -> & Hel & Hall & _). eapply read_lift; [exact Hel|].
  apply read_bind; [apply read_nodes_op, num_elements_reads|]. intros _. by apply parse_elements_ok.
Qed.

Lemma parse_bindings_ok e m li : read_ok (parse_bindings id e m li).
Proof.
  induction li as [|x li IH]; cbn [parse_bindings]; [apply read_ret|]. destruct x as [v|]; [|apply read_ret].
  apply read_if; [apply read_ret|]. apply read_bind; [apply read_nodes_op, add_binding_reads|]. intros ok.
  by apply read_if; [apply read_ret|].
Qed.
Lemma parse_subscriptions_ok e m li : read_ok (parse_subscriptions id e m li).
Proof.
  induction li as [|x li IH]; cbn [parse_subscriptions]; [apply read_ret|]. destruct x as [v|]; [|apply read_ret].
  destruct (scan_u16_ok v) as [r Hr]. eapply read_lift; [exact Hr|]. destruct r; [|apply read_ret].
  apply read_bind; [apply read_nodes_op, add_subscription_reads|]. intros ok. by apply read_if; [apply read_ret|].
Qed.
Lemma parse_model_pub_ok e m v : read_ok (parse_model_pub id e m v).
Proof.
  unfold parse_model_pub.
  do 2 (apply read_required; intros ?).
  apply read_nodes_op, pub_set_reads.
Qed.
Lemma model_array_ok v k parse : step_schema (Key k) model_schema = Arr true Any -> conforms model_schema v = true ->
  (∀ li, read_ok (parse li)) -> read_ok (model_array (Some v) k parse).
Proof.
  intros Hk Hv Hp. unfold model_array. destruct (object_get (Some v) k) as [a|] eqn:Ea; [|apply read_ret].
  assert (Ha : conforms (step_schema (Key k) model_schema) a = true) by exact (get_conforms _ v k a Hv Ea). rewrite Hk in Ha.
  destruct (array_items_ok _ _ _ Ha) as (al & -> & Hal & _). by eapply read_lift; [exact Hal|].
Qed.

Lemma parse_configuration_models_ok e li :
  Forall (fun x => exists v, x = Some v /\ conforms model_schema v = true) li ->
  read_ok (parse_configuration_models id e li).
Proof.
  intros Hli. induction Hli as [|x li (v & -> & Hv) _ IH]; cbn [parse_configuration_models]; [apply read_ret|].
  destruct (get_required _ v "modelId" _ Hv eq_refl eq_refl) as (mid & Hm & _). rewrite Hm.
  destruct (scan_model_id_ok mid) as [r Hr]. eapply read_lift; [exact Hr|]. destruct r as [m|]; [|apply read_ret].
  apply read_bind; [apply model_array_ok; [done | done | intros; apply parse_bindings_ok]|]. intros ok.
  apply read_if; [apply read_ret|].
  apply read_bind; [apply model_array_ok; [done | done | intros; apply parse_subscriptions_ok]|]. intros ok2.
  apply read_if; [apply read_ret|]. apply read_bind; [|intros ok3; by apply read_if; [apply read_ret|]].
  case_goal; [apply parse_model_pub_ok | apply read_ret].
Qed.

(** The address of an element of the local node is unicast. *)
Definition address_ok (x : option json) : Prop :=
  hole_or element_schema x /\
  (lc = true -> ∀ a, scan_u16 (object_get x "unicastAddress") = Ok (Some a) -> a < 0x8000).

Lemma scan_u16_range o a : scan_u16 o = Ok (Some a) -> is_u16 a.
Proof.
  unfold scan_u16. destruct (the_string o) as [t|]; [|done]. cbn [mbind res_bind mret res_ret].
  destruct (scan_x 4 t) as [x|]; [|done]. cbn. intros [= <-]. unfold u16. apply Z.mod_pos_bound. lia.
Qed.

Lemma parse_primary_ok x k : address_ok x -> is_Some x -> read_ok (parse_primary id x k lc).
Proof.
  intros [Hx Ha] [v ->]. unfold parse_primary.
  destruct (get_required _ v "unicastAddress" _ Hx eq_refl eq_refl) as (u & Hu & _). rewrite Hu in *.
  destruct (scan_u16_ok u) as [r Hr]. eapply read_lift; [exact Hr|]. destruct r as [a|]; [|apply read_ret].
  apply read_bind.
  { apply read_if; [apply read_ret|]. apply read_nodes_op, same_nodes_reads. intros w. unfold net_of, mod_net. wp_run.
    case_goal. by wp_run. }
  intros ok. apply read_if; [apply read_ret|]. apply read_bind; [|intros; apply read_ret].
  apply read_nodes_op, primary_reads; [by eapply scan_u16_range | intros Hlc; by apply Ha].
Qed.

Lemma parse_configuration_elements_ok k li : Forall address_ok li ->
  read_ok (parse_configuration_elements id k li lc).
Proof.
  intros Hli. induction Hli as [|x li Hx _ IH]; cbn [parse_configuration_elements]; [apply read_ret|].
  destruct (element_index x k) as [i|] eqn:Ei; [|apply read_ret].
  apply read_bind; [apply read_if; [apply parse_primary_ok; [done | by destruct x] | apply read_ret]|]. intros ok.
  apply read_if; [apply read_ret|]. destruct (object_get x "models") as [ms|] eqn:Em; [|done].
  destruct Hx as [Hx _]. destruct (element_member _ _ _ _ _ Ei Hx Em) as (e & -> & He).
  pose proof (get_conforms _ e "models" ms He Em) as Hms. change (step_schema _ _) with (Arr false model_schema) in Hms.
  destruct (array_items_ok _ _ _ Hms) as (ml & -> & Hml & Hall & Hsome). eapply read_lift; [exact Hml|].
  apply read_bind; [|intros b; by apply read_if; [apply read_ret|]]. apply parse_configuration_models_ok.
  specialize (Hsome eq_refl). rewrite Forall_forall in *. intros y Hy. destruct (Hsome y Hy) as [v ->]. exists v.
  split; [done|]. exact (Hall _ Hy).
Qed.

Lemma parse_configuration_ok v : conforms config_schema v = true ->
  (∀ li, object_get (Some v) "elements" = Some (JArray li) -> Forall address_ok (ptr <$> li)) ->
  read_ok (parse_configuration id (Some v) lc).
Proof.
  intros Hv Hels. unfold parse_configuration.
  destruct (object_get (Some v) "elements") as [es|] eqn:Ee; [|apply read_ret].
  pose proof (get_conforms _ v "elements" es Hv Ee) as Hes. change (step_schema _ _) with (Arr true element_schema) in Hes.
  destruct (array_items_ok _ _ _ Hes) as (el & -> & Hel & _). eapply read_lift; [exact Hel|].
  apply read_bind; [apply read_nodes_op, num_elements_reads|]. intros _.
  apply read_bind; [by apply parse_configuration_elements_ok, Hels|]. intros ok. apply read_if; [apply read_ret|].
  assert (Hidxs : ∀ k, step_schema (Key k) config_schema = Arr true Any -> ∀ a, object_get (Some v) k = Some a ->
    exists al, array_items (Some a) = Ok al).
  { intros k Hk a Ha. assert (Hc : conforms (step_schema (Key k) config_schema) a = true) by exact (get_conforms _ v k a Hv Ha). rewrite Hk in Hc.
    destruct (array_items_ok _ _ _ Hc) as (al & -> & Hal & _). by eexists. }
  destruct (object_get (Some v) "netKeys") as [nk|] eqn:En; [|apply read_ret].
  destruct (Hidxs "netKeys" eq_refl nk En) as [nl Hnl]. eapply read_lift; [exact Hnl|].
  apply read_bind; [apply parse_node_keys_ok|]. intros cnt. apply read_if; [apply read_ret|].
  apply read_bind.
  { destruct (object_get (Some v) "appKeys") as [ak|] eqn:Ea; [|apply read_ret].
    destruct (Hidxs "appKeys" eq_refl ak Ea) as [al Hal]. eapply read_lift; [exact Hal|]. apply parse_node_keys_ok. }
  intros _. apply read_bind; [|intros; apply read_ret]. case_goal; [|apply read_ret].
  apply read_nodes_op, default_ttl_reads.
Qed.

Lemma parse_counters_ok o : read_ok (parse_counters id o lc).
Proof.
  unfold parse_counters. apply read_bind; [apply read_nodes_op, iv_index_reads|]. intros _. apply read_bind.
  { apply read_if; [|apply read_ret]. apply read_nodes_op, same_nodes_reads. intros w.
    unfold net_set_iv_index, mod_net. by wp_run. }
  intros _. case_goal; [|apply read_ret]. apply read_bind; [apply read_nodes_op, sequence_number_reads | intros; apply read_ret].
Qed.
End Read.

(** ** A document at work *)

Section Document.
Context {J : JsonC} {L : JsonLaws J} {A : Alg} {MC : ModelCode}.

(** What the random device returns: whole keys. *)
Definition random_ok (s : db_state) : Prop :=
  Forall (fun d => ∀ k, d = Some k -> len k = 16 /\ bytes k) (db_random s).

Lemma edit_keep local t j s s' : edit local t j s -> prov_filename s' = prov_filename s ->
  local_filename s' = local_filename s -> db_files s' = db_files s -> in_str s' = in_str s -> jmain s' = jmain s ->
  edit local t j s'.
Proof.
  intros [H1 H2 H3 [Hf Hn] H5] E1 E2 E3 E4 E5.
  assert (E : ∀ l, filename_of l s' = filename_of l s) by (intros []; done).
  split; [congruence | congruence | done | | by rewrite E]. split; [|by rewrite E1, E2].
  intros l n f j'. rewrite E, E3. apply Hf.
Qed.

Record at_start (local : bool) (t : heap (list Z)) (s0 s : db_state) (j : json) : Prop := {
  as_edit : edit local t j s;
  as_wf : store_wf (w_nodes (db_world s));
  as_random : random_ok s;
  as_files : db_files s = db_files s0;
  as_names : prov_filename s = prov_filename s0 /\ local_filename s = local_filename s0;
  as_local : is_Some (ns_local (w_nodes (db_world s0))) -> is_Some (ns_local (w_nodes (db_world s)));
}.

Lemma at_start_world local t s0 s s1 j : at_start local t s0 s j -> store_wf (w_nodes (db_world s1)) ->
  (is_Some (ns_local (w_nodes (db_world s))) -> is_Some (ns_local (w_nodes (db_world s1)))) ->
  s1 = set_db_world (db_world s1) s -> at_start local t s0 s1 j.
Proof. intros [He Hw Hr Hf Hn Hl] Hw1 Hl1 E. split; [rewrite E; by apply (edit_keep _ _ _ s) | done | by rewrite E.. | auto]. Qed.

(** *** Keys that are drawn *)

Lemma mod_path_same p f g j v : at_path p j = Some v -> f v = g v -> mod_path p f j = mod_path p g j.
Proof.
  intros Hat Hfg. revert j Hat. induction p as [|st p IH]; intros j; cbn [at_path mod_path].
  - intros Hat. assert (j = v) as -> by (destruct j; cbn in Hat; congruence). by destruct v.
  - destruct (at_step st j) as [j'|]; [|done]. cbn [mbind option_bind]. intros Hat. by rewrite IH.
Qed.

Lemma draw_key_wp {T} local t s0 s j p desc lo (v : list Z -> T) (Q : option T -> db_state -> Prop) :
  at_start local t s0 s j -> at_path p j = Some (JObject lo) -> (length p <= 3)%nat ->
  schema_wf (path_schema p (schema_of local)) = true -> step_schema (Key desc) (path_schema p (schema_of local)) = Any ->
  plain_text (key_codes desc) = true ->
  (∀ s', at_start local t s0 s' j -> db_world s' = db_world s -> Q None s') ->
  (∀ k s' j', at_start local t s0 s' j' -> db_world s' = db_world s -> len k = 16 ->
     at_path p j' = Some (JObject (put_key desc (JString (hex_text k)) lo)) -> Q (Some (v k)) s') ->
  wp (r ← random_key; match r with None => mret None | Some k => _ ← obj_mod p (add_key desc k); mret (Some (v k)) end) Q s.
Proof.
  intros Hs Hat Hp Hwf Hany Hdesc Hno Hyes. unfold random_key. wp_step. wp_step. wp_step.
  destruct (db_random s) as [|d rest] eqn:Er; [apply wp_ret, wp_ret; by apply Hno|]. wp_step. apply wp_modify.
  assert (Hs1 : at_start local t s0 (set_db_random rest s) j).
  { destruct Hs as [He Hw Hr Hf Hn Hl]. split; [by apply (edit_keep _ _ _ s) | done | | done..].
    unfold random_ok in *. rewrite Er in Hr. by apply Forall_cons in Hr as [_ ?]. }
  apply wp_ret. destruct d as [k|]; [|apply wp_ret; by apply Hno]. wp_step.
  assert (Hk : len k = 16 /\ bytes k).
  { destruct Hs as [_ _ Hr _ _ _]. unfold random_ok in Hr. rewrite Er in Hr. apply Forall_cons in Hr as [Hk _]. by apply Hk. }
  destruct Hk as [Hk Hb]. pose proof Hs1 as [He _ _ _ _ _].
  destruct (doc_object_add (schema_of local) p desc (JString (hex_text k)) j lo 1) as (j' & Hm & Hj' & Hat'); try done.
  - apply schema_of_wf.
  - by destruct He.
  - unfold max_depth. lia.
  - by rewrite Hany.
  - apply hex_text_plain.
  - eapply edit_mod; [exact He | | exact Hj' |].
    { rewrite <-Hm. eapply mod_path_same; [exact Hat|]. by rewrite add_key_ok. }
    intros s2 He2 Hs2. wp_run. apply (Hyes k s2 j'); [| by destruct Hs2 | done | done].
    destruct Hs1 as [_ Hw Hr Hf [? ?] Hl], Hs2 as [Ew ? ? Ef Er'].
    split; [done | by rewrite Ew | | congruence | split; congruence | by rewrite Ew].
    unfold random_ok. by rewrite Er'.
Qed.

Lemma hex_written_le n s : (length (hex_written n s).1 <= n)%nat.
Proof.
  revert s. induction n as [|n IH]; intros s; cbn [hex_written]; [done|]. destruct (scan_hex s); cbn [fst length]; [|lia].
  specialize (IH (drop 2 s)). destruct (hex_written n (drop 2 s)). cbn [fst length] in *. lia.
Qed.
Lemma read_hex_len s key : len key = 16 -> len (read_hex_key s key).2 = 16.
Proof.
  intros Hk. unfold read_hex_key. case_goal; [done|]. pose proof (hex_written_le 16 s) as Hl.
  destruct (hex_written 16 s) as [w ok]. cbn [fst snd] in *. unfold len in *. rewrite length_app, length_drop. lia.
Qed.

(** *** A node object *)

Lemma node_new_wp w (Q : option Z -> world node_store -> Prop) : store_wf (w_nodes w) ->
  (∀ id w', parsing true (ns_local (w_nodes w)) id w' -> Q (Some id) w') -> wp node_new Q w.
Proof.
  intros Hw HQ. unfold node_new, store. do 3 wp_step. eapply wp_lift; [unfold all_nodes; by destruct Hw as [-> _ _ _ _]|].
  unfold mod_store. wp_step. apply wp_modify, wp_ret, HQ. cbn [w_nodes on_store]. split.
  - by apply push_node_wf; [apply zero_node_wf | |].
  - done.
  - intros Hl. destruct Hw as [_ _ _ Hf Hloc]. destruct (Hloc _ Hl) as (n & Hn & _).
    apply find_first_some in Hn as [Hin Hi]. rewrite Forall_forall in Hf. specialize (Hf n Hin). apply Z.eqb_eq in Hi.
    cbn beta in Hf. unfold is_node in Hi. lia.
  - exists (zero_node (ns_next (w_nodes w))). split; [|done]. destruct Hw as [_ _ _ Hf _].
    cbn [ns_nodes push_node w_nodes on_store]. rewrite find_first_app.
    rewrite (proj2 (find_first_none _ _)); [by unfold find_first, is_node; cbn; rewrite Z.eqb_refl|].
    eapply Forall_impl; [exact Hf|]. intros n Hn. apply Z.eqb_neq. cbn in Hn. lia.
Qed.
Lemma parsing_weaken lc l id w : parsing true l id w -> parsing lc l id w.
Proof. intros [? ? ? (n & ? & Hp)]. split; [done..|]. exists n. split; [done|]. intros _. by apply Hp. Qed.

(** The addresses of a node object. *)
Definition addresses (lc : bool) (v : json) : Prop := ∀ c li, object_get (Some v) "configuration" = Some c ->
  object_get (Some c) "elements" = Some (JArray li) -> Forall (address_ok lc) (ptr <$> li).
Lemma addresses_any v : conforms node_schema v = true -> addresses false v.
Proof.
  intros Hv c li Hc Hl. pose proof (get_conforms _ v "configuration" c Hv Hc) as Hcs.
  pose proof (get_conforms _ c "elements" _ Hcs Hl) as Hes. destruct (array_items_ok _ _ _ Hes) as (l' & [= <-] & _ & Hall & _).
  eapply Forall_impl; [exact Hall|]. intros x Hx. by split.
Qed.

Lemma node_device_key_wp local t s0 s j p v junk (Q : option (list Z) -> db_state -> Prop) :
  at_start local t s0 s j -> at_path p j = Some v -> path_schema p (schema_of local) = node_schema -> (length p <= 2)%nat ->
  len junk = 16 -> addresses local v -> (∀ s' j', at_start local t s0 s' j' -> db_world s' = db_world s -> Q None s') ->
  (∀ k s' j' v', at_start local t s0 s' j' -> db_world s' = db_world s -> len k = 16 -> at_path p j' = Some v' ->
     addresses local v' -> Q (Some k) s') ->
  wp (node_device_key p (Some v) junk) Q s.
Proof.
  intros Hs Hat Hsch Hp Hj Ha Hno Hyes. unfold node_device_key.
  destruct (object_get (Some v) "deviceKey") as [dk|] eqn:Ed.
  - destruct (the_string_ok dk) as [str Hstr]. wp_step. eapply wp_lift; [exact Hstr|].
    pose proof (read_hex_len str junk Hj) as Hk. destruct (read_hex_key str junk) as [ok k]. cbn [snd] in Hk.
    apply wp_ret. destruct ok; [by eapply Hyes | by eapply Hno].
  - assert (Hv : conforms node_schema v = true).
    { rewrite <-Hsch. eapply conforms_at; [|exact Hat]. by destruct Hs as [[_ _ [_ ? _] _ _] _ _ _ _ _]. }
    pose proof Hv as [[lo ->] _]%conforms_obj.
    eapply (draw_key_wp local t s0 s j p "deviceKey" lo (fun k => k)); [done | done | lia | by rewrite Hsch | by rewrite Hsch | done | |].
    + intros. by eapply Hno.
    + intros k s' j' Hs' Hw Hk Hat'. eapply Hyes; [done.. |]. intros c li Hc. apply Ha. rewrite object_get_put in Hc. by rewrite decide_False in Hc.
Qed.

Lemma node_free_wp lc l id w (Q : unit -> world node_store -> Prop) : parsing lc l id w ->
  (∀ w', store_wf (w_nodes w') -> ns_local (w_nodes w') = l -> Q tt w') -> wp (node_free (Some id)) Q w.
Proof.
  intros Hp HQ. unfold node_free, nonnull, mod_store. wp_step. eapply ps_deref; [exact Hp|]. intros _ _. apply wp_modify.
  destruct Hp as [Hw Hl Ho _]. apply HQ; [|done]. apply free_node_wf; [by rewrite Hl | done].
Qed.

Lemma set_local_wp l id w : parsing true l id w ->
  wp (node_set_local_node (Some id)) (fun r w' => (r = false /\ w' = w) \/
    (r = true /\ store_wf (w_nodes w') /\ is_Some (ns_local (w_nodes w')))) w.
Proof.
  intros Hp. unfold node_set_local_node, store, nonnull_or_fault. do 3 wp_step.
  pose proof Hp as [Hw Hl _ (n & Hn & Hprim)]. rewrite Hl. destruct l as [o|]; [apply wp_ret; by left|].
  wp_step. eapply ps_deref; [exact Hp|]. intros _ _. unfold mod_store. wp_step. apply wp_modify.
  destruct Hw as [Hv Hnd Hall Hfr _]. wp_step. eapply node_assign_wp; [done | exact Hn|]. apply wp_ret. right. split; [done|].
  split; [|done]. apply (upd_node_wf_local _ _ _ n); [done | exact Hn | | by intros |].
  - rewrite Forall_forall in Hall. apply (node_wf_field n); [|done..]. apply Hall. by apply find_first_some in Hn as [? _].
  - split; [done..|]. intros ? [= <-]. exists n. split; [done | by apply Hprim].
Qed.

Lemma parse_node_wp local t s0 s j p v junk (Q : bool -> db_state -> Prop) :
  at_start local t s0 s j -> at_path p j = Some v -> path_schema p (schema_of local) = node_schema -> (length p <= 2)%nat ->
  len junk = 16 -> addresses local v ->
  (∀ r s' j', at_start local t s0 s' j' ->
     (r = true -> local = true -> is_Some (ns_local (w_nodes (db_world s')))) -> Q r s') ->
  wp (parse_node junk p local) Q s.
Proof.
  intros Hs Hat Hsch Hp Hj Ha HQ. unfold parse_node. wp_step. pose proof Hs as [He _ _ _ _ _].
  eapply edit_at; [exact He|]. rewrite Hat. wp_step. eapply node_device_key_wp; try done.
  { intros s1 j1 Hs1 Hw1. apply wp_ret. by eapply HQ. }
  intros k s1 j1 v1 Hs1 Hw1 Hk Hat1 Ha1. wp_step. pose proof Hs1 as [He1 Hwf1 _ _ _ _]. eapply edit_at; [exact He1|]. rewrite Hat1.
  assert (Hv1 : conforms node_schema v1 = true).
  { rewrite <-Hsch. eapply conforms_at; [|exact Hat1]. by destruct He1 as [_ _ [_ ? _] _ _]. }
  wp_step. apply on_nodes_wp. apply node_new_wp; [done|]. intros id w1 Hp1%(parsing_weaken local).
  set (l := ns_local (w_nodes (db_world s1))) in *.
  assert (Hr1 : reading local l id s1 (set_db_world w1 s1)) by by split.
  assert (Hback : ∀ s2, reading local l id s1 s2 -> at_start local t s0 s2 j1).
  { intros s2 [[Hw2 Hl2 _ _] E2]. eapply at_start_world; [done.. | | done]. by rewrite Hl2. }
  assert (Hgive : ∀ s2, reading local l id s1 s2 -> wp (discard_node id) Q s2).
  { intros s2 Hr2. pose proof Hr2 as [Hp2 _]. unfold discard_node. wp_step. apply on_nodes_wp. eapply node_free_wp; [exact Hp2|].
    intros w' Hw' Hl'. apply wp_ret. eapply HQ; [|done]. eapply at_start_world; [by apply Hback | done | | done].
    cbn [db_world set_db_world]. rewrite Hl'. by destruct Hp2 as [_ -> _ _]. }
  assert (Hfin : ∀ s2, reading local l id s1 s2 -> wp (finish_node id local) Q s2).
  { intros s2 Hr2. unfold finish_node. pose proof Hr2 as [Hp2 _].
    destruct local; [|apply wp_ret; eapply HQ; [by apply Hback | done]].
    wp_step. apply on_nodes_wp. eapply wp_mono; [by eapply set_local_wp|].
    intros r w' [[-> ->] | (-> & Hw' & Hl')]; cbn [negb].
    - by destruct s2; apply Hgive.
    - apply wp_ret. eapply HQ; [|done]. by eapply at_start_world; [by apply Hback | | |]. }
  wp_step. apply on_nodes_wp. eapply wp_mono; [by apply device_key_reads|]. intros ? w2 Hp2. wp_step.
  eapply wp_mono; [eapply parse_counters_ok; split; [exact Hp2 | done]|].
  intros ? s3 [Hp3 E3]. assert (Hr3 : reading local l id s1 s3) by by split. clear Hp3 E3. wp_step.
  eapply (wp_mono _ (fun _ => reading local l id s1)).
  { destruct (object_get (Some v1) "composition") as [c|] eqn:Ec; [|by apply wp_ret].
    apply parse_composition_ok; [|done]. exact (get_conforms _ v1 "composition" c Hv1 Ec). }
  intros ok s4 Hr4. destruct ok; cbn [negb]; [|by apply Hgive].
  destruct (object_get (Some v1) "configuration") as [c|] eqn:Ec; [|destruct local; [by apply Hfin | by apply Hgive]].
  wp_step. eapply (wp_mono _ (fun _ => reading local l id s1)).
  { apply parse_configuration_ok; [|intros li Hli; by eapply Ha1 | done]. exact (get_conforms _ v1 "configuration" c Hv1 Ec). }
  intros ok s5 Hr5. destruct ok; cbn [negb]; [by apply Hfin | by apply Hgive].
Qed.

(** *** The provisioner's document *)

Context (t : heap (list Z)) (s0 : db_state).

Definition runs {T} (h : DM T) : Prop := ∀ s j, at_start false t s0 s j ->
  wp h (fun _ s' => exists j', at_start false t s0 s' j') s.

Lemma runs_ret {T} (v : T) : runs (mret v).
Proof. intros s j Hs. apply wp_ret. by exists j. Qed.
Lemma runs_bind {T U} (h : DM T) (k : T -> DM U) : runs h -> (∀ a, runs (k a)) -> runs (a ← h; k a).
Proof. intros Hh Hk s j Hs. wp_step. eapply wp_mono; [by eapply Hh|]. intros a s' [j' Hs']. by eapply Hk. Qed.
Lemma runs_if {T} (b : bool) (h k : DM T) : runs h -> runs k -> runs (if b then h else k).
Proof. by destruct b. Qed.
Lemma runs_lift {T U} (r : res T) a (k : T -> DM U) : r = Ok a -> runs (k a) -> runs (a ← lift r; k a).
Proof. intros Hr Hk s j Hs. wp_step. eapply wp_lift; [exact Hr|]. by eapply Hk. Qed.
Lemma runs_nodes {T} (h : NM T) : (∀ w, wp h (fun _ w' => w_nodes w' = w_nodes w) w) -> runs (on_nodes h).
Proof.
  intros Hh s j Hs. apply on_nodes_wp. eapply wp_mono; [apply Hh|]. intros a w' E. exists j.
  eapply at_start_world; [exact Hs | | | done]; cbn [db_world set_db_world]; rewrite E; by destruct Hs.
Qed.
Lemma runs_at {T} p (k : option json -> DM T) : (∀ s j, at_start false t s0 s j ->
    wp (k (at_path p j)) (fun _ s' => exists j', at_start false t s0 s' j') s) -> runs (o ← obj_at p; k o).
Proof. intros Hk s j Hs. wp_step. eapply edit_at; [by destruct Hs|]. by apply Hk. Qed.

Lemma read_key_runs p key s j lo : at_start false t s0 s j -> at_path p j = Some (JObject lo) ->
  path_schema p prov_schema = Any -> (length p <= 3)%nat ->
  wp (read_key p key) (fun _ s' => exists j', at_start false t s0 s' j') s.
Proof.
  intros Hs Hat Hsch Hp. unfold read_key. wp_step. eapply edit_at; [by destruct Hs|]. rewrite Hat.
  destruct (object_get (Some (JObject lo)) "key") as [v|] eqn:Ek.
  - destruct (the_string_ok v) as [str Hstr]. wp_step. eapply wp_lift; [exact Hstr|].
    destruct (read_hex_key str key) as [ok k]. apply wp_ret. by exists j.
  - eapply (draw_key_wp false t s0 s j p "key" lo (fun k => (k, true, true)));
      [done | done | done | by cbn [schema_of]; rewrite Hsch | by cbn [schema_of]; rewrite Hsch | done | |].
    + intros s' Hs' _. by exists j.
    + intros k s' j' Hs' _ _ _. by exists j'.
Qed.
Lemma get_object o k v : object_get o k = Some v -> exists lo, o = Some (JObject lo).
Proof. destruct o as [[]|]; try done. by eexists. Qed.

Context (junk : read_junk).

Lemma add_net_key_runs idx k : runs (add_net_key junk idx k).
Proof. apply runs_nodes. intros w. wp_step. apply wp_get. case_goal. by wp_run. Qed.
Lemma set_kr_phase_runs idx ph : runs (set_kr_phase idx ph).
Proof. apply runs_nodes. intros w. wp_step. apply wp_get. case_goal. by wp_run. Qed.
Lemma add_app_key_runs net idx k : runs (add_app_key junk net idx k).
Proof. apply runs_nodes. intros w. wp_step. apply wp_get. case_goal. by wp_run. Qed.

Lemma read_net_keys_runs n i key refresh : runs (read_net_keys junk n i key refresh).
Proof.
  revert i key refresh. induction n as [|n IH]; intros i key refresh; cbn [read_net_keys]; [apply runs_ret|].
  apply runs_at. intros s j Hs. destruct (object_get _ "index") as [v|] eqn:Ev; [|by eapply runs_ret].
  destruct (get_object _ _ _ Ev) as [lo Hat]. wp_step.
  eapply wp_mono; [eapply read_key_runs; [exact Hs | exact Hat | done | cbn; lia]|]. intros r s1 [j1 Hs1].
  destruct r as [[[k drawn] ok]|]; [|by eapply runs_ret]. revert s1 j1 Hs1.
  apply runs_if; [apply runs_ret|]. apply runs_bind; [apply add_net_key_runs|]. intros b.
  apply runs_if; [apply runs_ret|]. apply runs_at. intros s1 j1 Hs1.
  destruct (object_get _ "keyRefresh") as [ph|]; [|by eapply runs_ret]. revert s1 j1 Hs1. apply runs_bind; [apply set_kr_phase_runs|]. intros _. apply IH.
Qed.
Lemma read_app_keys_runs n i key refresh : runs (read_app_keys junk n i key refresh).
Proof.
  revert i key refresh. induction n as [|n IH]; intros i key refresh; cbn [read_app_keys]; [apply runs_ret|].
  apply runs_at. intros s j Hs. unfold key_index at 1. destruct (object_get _ "index") as [v|] eqn:Ev; [|by eapply runs_ret].
  cbn [mbind option_bind]. case_goal; [|by eapply runs_ret].
  destruct (get_object _ _ _ Ev) as [lo Hat]. wp_step.
  eapply wp_mono; [eapply read_key_runs; [exact Hs | exact Hat | done | cbn; lia]|]. intros r s1 [j1 Hs1].
  destruct r as [[[k drawn] ok]|]; [|by eapply runs_ret]. revert s1 j1 Hs1. apply runs_at. intros s1 j1 Hs1.
  destruct (key_index _ "boundNetKey") as [net|]; [|by eapply runs_ret]. revert s1 j1 Hs1. apply runs_bind; [apply add_app_key_runs|]. intros _. apply IH.
Qed.

Lemma parse_unicast_range_runs li : Forall (fun x => exists v, x = Some v /\ conforms range_schema v = true) li ->
  runs (parse_unicast_range li).
Proof.
  intros Hli. induction Hli as [|x li (v & -> & Hv) _ IH]; cbn [parse_unicast_range]; [apply runs_ret|].
  destruct (get_required _ v "lowAddress" _ Hv eq_refl eq_refl) as (lo & Hlo & _). rewrite Hlo.
  destruct (scan_u16_ok lo) as [r Hr]. eapply runs_lift; [exact Hr|]. destruct r as [low|]; [|apply runs_ret].
  destruct (get_required _ v "highAddress" _ Hv eq_refl eq_refl) as (hi & Hhi & _). rewrite Hhi.
  destruct (scan_u16_ok hi) as [r Hr']. eapply runs_lift; [exact Hr'|]. destruct r as [high|]; [|apply runs_ret].
  apply runs_if; [apply runs_ret|]. apply runs_bind; [|done]. apply runs_nodes. intros w. unfold mod_net. by wp_run.
Qed.
Definition provisioner_schema : schema := Obj [("allocatedUnicastRange", false, Arr false range_schema)].
Lemma read_provisioners_runs li : Forall (hole_or provisioner_schema) li -> runs (read_provisioners li).
Proof.
  intros Hli. induction Hli as [|x li Hx _ IH]; cbn [read_provisioners]; [apply runs_ret|].
  destruct (object_get x "allocatedUnicastRange") as [a|] eqn:Ea; [|apply runs_ret].
  destruct x as [v|]; [|done]. pose proof (get_conforms _ v "allocatedUnicastRange" a Hx Ea) as Ha.
  change (step_schema _ _) with (Arr false range_schema) in Ha.
  destruct (array_items_ok _ _ _ Ha) as (al & -> & Hal & Hall & Hsome). eapply runs_lift; [exact Hal|].
  apply runs_bind; [|intros ok; by apply runs_if; [apply runs_ret|]]. apply parse_unicast_range_runs.
  specialize (Hsome eq_refl). rewrite Forall_forall in *. intros y Hy. destruct (Hsome y Hy) as [u ->]. exists u.
  split; [done|]. exact (Hall _ Hy).
Qed.

Lemma read_nodes_runs n i : len (junk_node_key junk) = 16 -> runs (read_nodes junk n i).
Proof.
  intros Hj. revert i. induction n as [|n IH]; intros i; cbn [read_nodes]; [apply runs_ret|].
  apply runs_at. intros s j Hs. destruct (at_path [Key "nodes"; Idx i] j) as [v|] eqn:Ev; [|by eapply runs_ret].
  wp_step. eapply parse_node_wp; [exact Hs | exact Ev | done | done | done | |].
  - apply addresses_any. change node_schema with (path_schema [Key "nodes"; Idx i] prov_schema).
    eapply conforms_at; [|exact Ev]. by destruct Hs as [[_ _ [_ ? _] _ _] _ _ _ _ _].
  - intros r s' j' Hs' _. destruct r; cbn [negb]; [by eapply IH | by eapply runs_ret].
Qed.

Lemma main_array_runs {T} k sch (f : option (list (option json)) -> DM T) :
  step_schema (Key k) prov_schema = Arr true sch -> runs (f None) ->
  (∀ li, Forall (hole_or sch) li -> runs (f (Some li))) -> runs (l ← main_array k; f l).
Proof.
  intros Hk Hno Hyes s j Hs. wp_step. unfold main_array. wp_step.
  eapply wp_main_doc; [by destruct Hs|]. destruct (object_get (Some j) k) as [a|] eqn:Ea; [|apply wp_ret; by eapply Hno].
  assert (Ha : conforms (Arr true sch) a = true).
  { rewrite <-Hk. apply (get_conforms _ j k a); [|done]. by destruct Hs as [[_ _ [_ ? _] _ _] _ _ _ _ _]. }
  destruct (array_items_ok _ _ _ Ha) as (al & -> & Hal & Hall & _). wp_step. eapply wp_lift; [exact Hal|]. apply wp_ret.
  by eapply Hyes.
Qed.

Lemma read_mesh_runs : len (junk_node_key junk) = 16 -> runs (read_mesh junk).
Proof.
  intros Hj s j Hs. unfold read_mesh. wp_step. eapply wp_main_doc; [by destruct Hs|].
  destruct (object_get _ "IVindex") as [iv|]; [|by eapply runs_ret].
  destruct (object_get _ "IVupdate") as [upd|]; [|by eapply runs_ret]. revert s j Hs.
  apply runs_bind; [apply runs_nodes; intros w; unfold net_set_iv_index, mod_net; by wp_run|]. intros _.
  apply (main_array_runs "netKeys" Any); [done | apply runs_ret|]. intros nl _.
  apply runs_bind; [apply read_net_keys_runs|]. intros r. destruct r as [[key refresh]|]; [|apply runs_ret].
  apply (main_array_runs "appKeys" Any (fun l => r ← _; _)); [done | |].
  2: intros al _. all: apply runs_bind; [apply runs_ret || apply read_app_keys_runs|]; intros [rf|]; [|apply runs_ret].
  all: apply (main_array_runs "provisioners" provisioner_schema); [done | apply runs_ret|]; intros pl Hpl.
  all: apply runs_bind; [by apply read_provisioners_runs|]; intros ok; apply runs_if; [apply runs_ret|].
  all: apply (main_array_runs "nodes" node_schema); [done | apply runs_ret|]; intros nodes _.
  all: apply runs_bind; [by apply read_nodes_runs | intros; apply runs_ret].
Qed.
End Document.

(** ** Reading the files *)

Section Files.
Context {J : JsonC} {L : JsonLaws J} {A : Alg} {MC : ModelCode} (junk : read_junk).

(** What reading a file leaves. *)
Record file_read (s0 s : db_state) : Prop := {
  fr_db : db_ok s;
  fr_wf : store_wf (w_nodes (db_world s));
  fr_random : random_ok s;
  fr_names : prov_filename s = prov_filename s0 /\ local_filename s = local_filename s0;
  fr_local : is_Some (ns_local (w_nodes (db_world s0))) -> is_Some (ns_local (w_nodes (db_world s)));
}.
Lemma file_read_same s0 s s' : file_read s0 s -> same_db s s' -> file_read s0 s'.
Proof.
  intros [Hd Hw Hr [? ?] Hl] Hs. pose proof (same_db_ok _ _ Hs Hd) as Hd'. destruct Hs as [Ew ? ? Ef Er].
  split; [done | by rewrite Ew | by unfold random_ok; rewrite Er | split; congruence | by rewrite Ew].
Qed.
Lemma file_read_refl s s' : db_ok s -> store_wf (w_nodes (db_world s)) -> random_ok s -> same_db s s' -> file_read s s'.
Proof. intros Hd Hw Hr. apply file_read_same. by split. Qed.
Lemma at_start_read local t s0 s j : at_start local t s0 s j -> file_read s0 s.
Proof. intros [[] ? ? ? ?]. by split. Qed.

Lemma load_start local s (Q : bool -> db_state -> Prop) : db_ok s -> store_wf (w_nodes (db_world s)) -> random_ok s ->
  (∀ s', same_db s s' -> Q false s') ->
  (∀ t s', same_db s s' -> in_str s' = Live t -> jmain s' = Null -> Q true s') ->
  (∀ t j s', holds local s j -> at_start local (Live t) s s' j -> Q true s') ->
  wp (load (filename_of local s)) Q s.
Proof.
  intros Hdb Hw Hr Hno Hbad Hdoc. apply load_wp; [done | by auto | |].
  - intros t s' Hs _. by apply Hbad.
  - intros t j s' Hs Hh He. apply (Hdoc t j s' Hh). destruct Hs as [Ew ? ? ? Er].
    split; [done | by rewrite Ew | by unfold random_ok; rewrite Er | done | done | by rewrite Ew].
Qed.

Lemma read_prov_wp filename s : db_ok s -> store_wf (w_nodes (db_world s)) -> random_ok s ->
  prov_filename s = Some filename -> len (junk_node_key junk) = 16 ->
  wp (read_json_db junk filename true false) (fun _ => file_read s) s.
Proof.
  intros Hdb Hw Hr Hn Hj. unfold read_json_db. wp_step. rewrite <-Hn. change (prov_filename s) with (filename_of false s).
  apply load_start; [done..| | |]; cbn [negb].
  - intros s' Hs. apply wp_ret. by apply file_read_refl.
  - intros t s' Hs Ht Hm. wp_step. apply has_main_wp. rewrite Hm. wp_step. apply wp_ret. wp_step.
    eapply free_str_wp; [exact Ht|]. wp_step. apply wp_ret. wp_step. apply put_main_if_wp; [by cbn; rewrite Hm|].
    intros s2 Hs2. apply wp_ret. apply file_read_refl; [done..|]. etrans; [exact Hs|]. etrans; [|exact Hs2]. by split.
  - intros t j s1 _ Hs1. wp_step. apply has_main_wp. pose proof Hs1 as [He1 _ _ _ _ _]. rewrite (ed_main _ _ _ _ He1). cbn [negb].
    wp_step. wp_step. apply wp_ret. eapply wp_mono; [by eapply read_mesh_runs|]. intros [res refresh] s2 [j2 Hs2]. wp_step.
    pose proof (at_start_read _ _ _ _ _ Hs2) as Hf2. pose proof Hs2 as [[E1 E2 E3 E4 E5] _ _ _ _ _].
    eapply free_str_wp; [exact E1|]. set (s3 := set_in_str Freed s2).
    assert (Hs23 : same_db s2 s3) by by split. pose proof (file_read_same _ _ _ Hf2 Hs23) as Hf3.
    assert (He3 : edit false Freed j2 s3) by by split; try done; apply (same_db_ok s2).
    assert (Hend : ∀ s4, edit false Freed j2 s4 -> file_read s s4 -> wp (_ ← put_main_if; mret res) (fun _ => file_read s) s4).
    { intros s4 He4 Hf4. wp_step. apply put_main_if_wp; [by rewrite (ed_main _ _ _ _ He4)|]. intros s5 Hs5. apply wp_ret.
      by eapply file_read_same. }
    wp_step. destruct (res && refresh); [|apply wp_ret; by apply Hend].
    eapply edit_write; [exact He3|]. intros s4 He4 [Ew En1 En2 _ Er] _. apply Hend; [done|].
    destruct Hf3 as [_ F2 F3 [F4 F5] F6]. split; [by destruct He4 | by rewrite Ew | by unfold random_ok; rewrite Er | split; congruence | by rewrite Ew].
Qed.

Lemma read_local_wp filename s (Q : bool -> db_state -> Prop) : db_ok s -> store_wf (w_nodes (db_world s)) -> random_ok s ->
  local_filename s = Some filename -> len (junk_node_key junk) = 16 ->
  (∀ j v, holds true s j -> object_get (Some j) "node" = Some v -> addresses true v) ->
  (∀ r s', file_read s s' -> db_files s' = db_files s ->
     (r = true -> is_Some (ns_local (w_nodes (db_world s')))) -> Q r s') ->
  wp (read_json_db junk filename true true) Q s.
Proof.
  intros Hdb Hw Hr Hn Hj Haddr HQ. unfold read_json_db. wp_step. rewrite <-Hn. change (local_filename s) with (filename_of true s).
  apply load_start; [done..| | |]; cbn [negb].
  - intros s' Hs. apply wp_ret. apply HQ; [by apply file_read_refl | by destruct Hs | done].
  - intros t s' Hs Ht Hm. wp_step. apply has_main_wp. rewrite Hm. wp_step. apply wp_ret. wp_step.
    eapply free_str_wp; [exact Ht|]. wp_step. apply wp_ret. wp_step. apply put_main_if_wp; [by cbn; rewrite Hm|].
    intros s2 Hs2. apply wp_ret. assert (same_db s s2) by (etrans; [exact Hs|]; etrans; [|exact Hs2]; by split).
    apply HQ; [by apply file_read_refl | by destruct H | done].
  - intros t j s1 Hh Hs1. wp_step. apply has_main_wp. pose proof Hs1 as [He1 _ _ _ _ _]. rewrite (ed_main _ _ _ _ He1). cbn [negb].
    assert (Hend : ∀ (r : bool) s2 j2, at_start true (Live t) s s2 j2 ->
      (r = true -> is_Some (ns_local (w_nodes (db_world s2)))) ->
      wp (_ ← free_str; _ ← (if r && false then prov_file_write false else mret tt); _ ← put_main_if; mret r) Q s2).
    { intros r s2 j2 Hs2 Hr2. pose proof (at_start_read _ _ _ _ _ Hs2) as Hf2. pose proof Hs2 as [[E1 E2 _ _ _] _ _ Ef _ _].
      rewrite andb_false_r. wp_step. eapply free_str_wp; [exact E1|]. wp_step. apply wp_ret. wp_step.
      apply put_main_if_wp; [by cbn; rewrite E2|]. intros s4 Hs4. apply wp_ret.
      assert (same_db s2 s4) as Hs by (etrans; [|exact Hs4]; by split). apply HQ; [by eapply file_read_same | |].
      - destruct Hs. congruence.
      - by destruct Hs as [-> _ _ _ _]. }
    unfold read_local. wp_step. wp_step. wp_step. eapply edit_at; [exact He1|].
    pose proof (ed_doc _ _ _ _ He1) as Hdoc. destruct (main_object true j Hdoc) as [lo Hlo].
    assert (Hjl : j = JObject lo) by (cbn [at_path] in Hlo; destruct Hdoc as [_ _ Hnn]; congruence).
    destruct (at_path [Key "node"] j) as [v|] eqn:Ev; [|apply wp_ret, wp_ret; by eapply Hend].
    wp_step. eapply parse_node_wp; [exact Hs1 | exact Ev | done | cbn; lia | done | |].
    + eapply Haddr; [exact Hh|]. change [Key "node"] with ([] ++ [Key "node"]) in Ev. rewrite at_path_key in Ev.
      rewrite Hlo in Ev. by rewrite Hjl.
    + intros r s2 j2 Hs2 Hr2. apply wp_ret, wp_ret. eapply Hend; [exact Hs2 | by auto].
Qed.
End Files.

(** ** The start of the program *)

Definition config_file (dir : string) (local : bool) : string :=
  config_filename dir (if local then "local_node.json" else "prov_db.json").
Lemma config_files_differ dir : config_file dir false <> config_file dir true.
Proof.
  unfold config_file, config_filename. destruct (String.eqb dir ""); [done|].
  destruct (String.get _ dir) as [c|]; [|done]. destruct (Ascii.eqb c _); intros H%(inj (String.append dir)); done.
Qed.

(** C10: the program starts with whatever its files hold, as long as it has
    the right shape.  When each of the two files, if it is a document at all, has that
    shape and the addresses of the local node are unicast, [mesh_init] reads them without
    a fault, whatever the octets that the heap and the stack had before, and even if
    no random key can be drawn; the files have that shape afterwards, the nodes are well
    formed, and if it succeeds there is a local node. *)
Theorem start_safe (J : JsonC) (L : JsonLaws J) (A : Alg) (MC : ModelCode) (junk : read_junk) (dir : string) (s : db_state) :
  prov_filename s = None -> random_ok s -> store_wf (w_nodes (db_world s)) -> len (junk_node_key junk) = 16 ->
  (∀ local f j, db_files s !! config_file dir local = Some f -> json_tokener_parse (f_data f) = Some j ->
     doc_ok (schema_of local) j) ->
  (∀ f j v, db_files s !! config_file dir true = Some f -> json_tokener_parse (f_data f) = Some j ->
     object_get (Some j) "node" = Some v -> addresses true v) ->
  exists b s', read_config junk dir s = Ok (b, s') /\ db_ok s' /\ store_wf (w_nodes (db_world s')) /\
    (b = true -> local_filename s' = Some (config_file dir true) /\ prov_filename s' = Some (config_file dir false) /\
       is_Some (ns_local (w_nodes (db_world s')))).
Proof.
  intros Hn Hr Hw Hj Hfiles Haddr. apply wp_ok. unfold read_config, prov_db_read_local_node, prov_db_read.
  change (config_filename dir "local_node.json") with (config_file dir true).
  change (config_filename dir "prov_db.json") with (config_file dir false). wp_step. wp_step. apply wp_modify.
  set (s1 := set_local_filename _ s).
  assert (Hd1 : db_ok s1).
  { split; [|intros n; cbn [prov_filename s1 set_local_filename]; by rewrite Hn].
    intros [] n f j; cbn [filename_of s1 set_local_filename prov_filename local_filename]; [|by rewrite Hn].
    intros [= <-]. apply Hfiles. }
  eapply read_local_wp; [done..| |].
  { intros j v (n & f & [= <-] & Hf & Hp). by eapply Haddr. }
  intros r s2 [Hd2 Hw2 Hr2 [En El] _] Ef Hlocal. destruct r; cbn [negb]; [|by apply wp_ret].
  wp_step. apply wp_modify. set (s3 := set_prov_filename _ s2).
  assert (Hd3 : db_ok s3).
  { split.
    - intros [] n f j; cbn [filename_of s3 set_prov_filename prov_filename local_filename db_files]; rewrite ?El, Ef;
        intros [= <-]; apply Hfiles.
    - cbn [s3 set_prov_filename prov_filename local_filename]. rewrite El. intros n [= <-] [= E].
      symmetry in E. by apply config_files_differ in E. }
  eapply wp_mono; [by eapply read_prov_wp|]. intros b s4 [Hd4 Hw4 _ [En4 El4] Hl4]. split; [done|]. split; [done|].
  intros _. rewrite En4, El4. cbn [s3 set_prov_filename prov_filename local_filename]. rewrite El. split; [done|].
  split; [done|]. apply Hl4. by apply Hlocal.
Qed.

Definition demo_junk : read_junk :=
  ReadJunk (rep 16 0xa5) (rep 16 0x5a) (NetKey 0 0 no_parts no_parts) (AppKey 0 0 (AppKeyParts [] 0) (AppKeyParts [] 0)).
Definition demo_stopped : db_state :=
  DbState empty_nodes None None Null Null
    (<["cfg/prov_db.json" := File (toy_print demo_prov_file) true]>
       (<["cfg/local_node.json" := File (toy_print demo_local_file) true]> ∅)) [Some (rep 16 1); None].

Definition demo_doc (local : bool) : json := if local then demo_local_file else demo_prov_file.
Lemma demo_stopped_file local f j : db_files demo_stopped !! config_file "cfg" local = Some f ->
  json_tokener_parse (f_data f) = Some j -> j = demo_doc local.
Proof.
  assert (E : json_tokener_parse (toy_print (demo_doc local)) = Some (demo_doc local)) by (destruct local; by vm_compute).
  intros Hf. assert (f = File (toy_print (demo_doc local)) true) as -> by (destruct local; by injection Hf).
  cbn [f_data]. rewrite E. by intros [= ->].
Qed.

Lemma start_safe_witness :
  exists b s', read_config (J := toy_json) (A := toy_alg) (MC := noting_models) demo_junk "cfg" demo_stopped = Ok (b, s') /\
    db_ok s' /\ store_wf (w_nodes (db_world s')) /\
    (b = true -> local_filename s' = Some (config_file "cfg" true) /\ prov_filename s' = Some (config_file "cfg" false) /\
       is_Some (ns_local (w_nodes (db_world s')))).
Proof.
  apply (start_safe toy_json toy_json_laws toy_alg noting_models demo_junk "cfg" demo_stopped).
  - done.
  - repeat (apply Forall_cons; split); [| done | constructor]. intros k [= <-]. split; [done|]. by repeat constructor.
  - by repeat constructor.
  - done.
  - intros local f j Hf Hj. rewrite (demo_stopped_file local f j Hf Hj). destruct local; split; by vm_compute.
  - intros f j v Hf Hj. rewrite (demo_stopped_file true f j Hf Hj). intros [= <-] c li [= <-] [= <-].
    repeat (apply Forall_cons; split); try apply Forall_nil_2; (split; [by vm_compute|]); intros _ a Ha; vm_compute in Ha; injection Ha as <-; lia.
Defined.

(** The application keys of the local node are not read: its file is read first, when
    no application key is known yet, and [node_app_key_add] wants the network
    key that an application key is bound to. *)
Lemma local_app_keys_dropped {J : JsonC} {A : Alg} {MC : ModelCode} (id : Z) (l : list (option json)) (i : Z) (s : db_state) :
  app_keys (w_keys (db_world s)) = [] -> exists r, parse_node_keys id l true i s = Ok (r, s).
Proof.
  intros Hk. revert i. induction l as [|x l IH]; intros i; cbn [parse_node_keys]; [by eexists|].
  destruct x as [v|]; [|by eexists]. case_goal; [by eexists|]. destruct (IH (i + 1)) as [r Hr]. exists r.
  rewrite (bind_run _ _ _ false s); [done|]. unfold on_nodes, node_app_key_add, nonnull, mbind, st_bind, get.
  unfold keys_app_key_get_bound, find_app_key_by_idx. destruct s as [w]. cbn [db_world] in *. by rewrite Hk.
Qed.

(** *** The files of the repository

    [src/blueZ/mesh/local_node.json] and [src/blueZ/mesh/prov_db.json]. *)
Definition shipped_model (id : Z) : json := JObject [("modelId", hex_u16 id); ("bind", JArray [JInt 1])].
Definition shipped_local : json :=
  JObject [("meshName", JString [66; 84; 32; 77; 101; 115; 104]);
    ("netKeys", JArray [JObject [("index", JInt 0); ("keyRefresh", JInt 0)]]);
    ("appKeys", JArray [JObject [("index", JInt 0); ("boundNetKey", JInt 0)];
                        JObject [("index", JInt 1); ("boundNetKey", JInt 0)]]);
    ("node", JObject [("IVindex", JString [48]); ("IVupdate", JString [48]); ("sequenceNumber", JInt 0);
       ("composition", JObject [("cid", hex_u16 0x2); ("pid", hex_u16 0x10); ("vid", hex_u16 1); ("crpl", hex_u16 0xa);
          ("features", JObject [("relay", JBool false); ("proxy", JBool true); ("friend", JBool false); ("lowPower", JBool false)]);
          ("elements", JArray [JObject [("elementIndex", JInt 0); ("location", hex_u16 1);
             ("models", JArray (hex_u16 <$> [0; 1; 0x1001; 0x1003; 0x1202; 0x1302; 0x1305; 0x1309]))]])]);
       ("configuration", JObject [("netKeys", JArray [JInt 0]); ("appKeys", JArray [JInt 0; JInt 1]); ("defaultTTL", JInt 10);
          ("elements", JArray [JObject [("elementIndex", JInt 0); ("unicastAddress", hex_u16 0x77);
             ("models", JArray (shipped_model <$> [0x1001; 0x1003; 0x1202; 0x1302; 0x1305; 0x1309]))]])])])].
Definition shipped_app_key (i : Z) (key : list Z) : json :=
  JObject [("index", JInt i); ("boundNetKey", JInt 0); ("key", JString (hex_text key))].
Definition shipped_prov : json :=
  JObject [("meshName", JString [66; 84; 32; 77; 101; 115; 104]); ("IVindex", JInt 0); ("IVupdate", JInt 0);
    ("netKeys", JArray [JObject [("index", JInt 0); ("keyRefresh", JInt 0);
       ("key", JString (hex_text [0x18; 0xee; 0xd9; 0xc2; 0xa5; 0x6a; 0xdd; 0x85; 0x04; 0x9f; 0xfc; 0x3c; 0x59; 0xad; 0x0e; 0x12]))]]);
    ("appKeys", JArray
       [shipped_app_key 0 [0x4f; 0x68; 0xad; 0x85; 0xd9; 0xf4; 0x8a; 0xc8; 0x58; 0x9d; 0xf6; 0x65; 0xb6; 0xb4; 0x9b; 0x8a];
        shipped_app_key 1 [0x2a; 0xa2; 0xa6; 0xde; 0xd5; 0xa0; 0x79; 0x8c; 0xea; 0xb5; 0x78; 0x7c; 0xa3; 0xae; 0x39; 0xfc]]);
    ("provisioners", JArray [JObject [("provisionerName", JString [84; 104; 101; 32; 78; 85; 67]); ("unicastAddress", hex_u16 0x77);
       ("allocatedUnicastRange", JArray [JObject [("lowAddress", hex_u16 0x100); ("highAddress", hex_u16 0x7fff)]])]])].
Definition first_start : world node_store :=
  World demo_net (KeyStore [] [] []) (NodeStore [] None true 1 start_statics) 1 [] false [].
Definition shipped : db_state :=
  DbState first_start None None Null Null
    (<["prov_db.json" := File (toy_print shipped_prov) true]>
       (<["local_node.json" := File (toy_print shipped_local) true]> ∅)) [Some (rep 16 7)].

(** The program starts with the files of the repository.  They have the
    shape that is relied on; the local node has its address, its network key and the
    models with their bindings, and both application keys are known: but the node
    has none of the two that its file lists.  Its device key is drawn, since the
    file has none, and not stored: the next start draws another one. *)
Theorem shipped_files_start :
  Forall (fun x => doc_ok (schema_of x.1) x.2) [(true, shipped_local); (false, shipped_prov)] /\
  exists s n, read_config (J := toy_json) (A := toy_alg) (MC := noting_models) demo_junk "" shipped = Ok (true, s) /\
    ns_nodes (w_nodes (db_world s)) = [n] /\ ns_local (w_nodes (db_world s)) = Some (nd_id n) /\
    nd_primary n = 0x77 /\ nd_net_keys n = [0] /\ nd_app_keys n = [] /\ nd_ttl n = 10 /\
    nd_dev_key n = rep 16 7 /\ db_files s = db_files shipped /\
    md_bindings <$> concat (el_models <$> nd_elements n) = [[]; []; [1]; [1]; [1]; [1]; [1]; [1]] /\
    ak_idx <$> app_keys (w_keys (db_world s)) = [0; 1] /\
    address_pool (w_net (db_world s)) = [mk_range 0x100 0x7fff].
Proof.
  split; [repeat (apply Forall_cons; split); [split; by vm_compute | split; by vm_compute | constructor]|].
  destruct (read_config (J := toy_json) (A := toy_alg) (MC := noting_models) demo_junk "" shipped) as [[b s]|] eqn:E;
    [|vm_compute in E; discriminate]. vm_compute in E. injection E as <- <-. eexists _, _. by repeat (split; [reflexivity|]).
Qed.
