(* ===== verification/Vli.v ===== *)
(** * Multi-word integers

    The [vli_*] functions of [src/blueZ/src/shared/ecc.c]: 256-bit integers as
    four 64-bit digits, the least significant first.  A loop over the digits is
    a recursion over the list; the carry logic, the 32-bit partial products and
    the comparisons that detect a carry are those of the code. *)

From S2P Require Import Prelude Bytes.

Definition NUM_ECC_DIGITS : nat := 4.

(** The base of the digits. *)
Abbreviation DIGIT := 0x10000000000000000.

Definition vli_clear : list Z := replicate NUM_ECC_DIGITS 0.

Definition vli_is_zero (vli : list Z) : bool := forallb (fun d => d =? 0) vli.

(** All callers ask for a bit below 256. *)
Definition vli_test_bit (vli : list Z) (bit : Z) : Z :=
  Z.land (nth (Z.to_nat (bit / 64)) vli 0) (u64 (Z.shiftl 1 (bit mod 64))).

(** [for (i = NUM_ECC_DIGITS - 1; i >= 0 && vli[i] == 0; i--)], with [n] digits
    left. *)
Fixpoint num_digits_loop (n : nat) (vli : list Z) : Z :=
  match n with
  | O => 0
  | S i => if nth i vli 0 =? 0 then num_digits_loop i vli else Z.of_nat n
  end.
Definition vli_num_digits (vli : list Z) : Z := num_digits_loop NUM_ECC_DIGITS vli.

(** [for (i = 0; digit; i++) digit >>= 1]: 64 rounds clear a digit. *)
Fixpoint digit_bits_loop (n : nat) (digit i : Z) : Z :=
  match n with
  | O => i
  | S n' => if truth digit then digit_bits_loop n' (Z.shiftr digit 1) (i + 1) else i
  end.
Definition vli_num_bits (vli : list Z) : Z :=
  let num_digits := vli_num_digits vli in
  if num_digits =? 0 then 0 else
  let digit := nth (Z.to_nat (num_digits - 1)) vli 0 in
  (num_digits - 1) * 64 + digit_bits_loop 64 digit 0.

Fixpoint cmp_loop (n : nat) (left right : list Z) : Z :=
  match n with
  | O => 0
  | S i =>
      let l := nth i left 0 in
      let r := nth i right 0 in
      if r <? l then 1 else if l <? r then -1 else cmp_loop i left right
  end.
Definition vli_cmp (left right : list Z) : Z := cmp_loop NUM_ECC_DIGITS left right.

Fixpoint diff_loop (diff : Z) (left right : list Z) : Z :=
  match left, right with
  | l :: left', r :: right' => diff_loop (Z.lor diff (Z.lxor l r)) left' right'
  | _, _ => diff
  end.
Definition vli_equal (left right : list Z) : bool := diff_loop 0 (rev left) (rev right) =? 0.

(** ** Shifts, sums and differences: the digits and what is carried out *)

Fixpoint lshift_loop (carry : Z) (v : list Z) (shift : Z) : list Z * Z :=
  match v with
  | [] => ([], carry)
  | temp :: v' =>
      let '(r, c) := lshift_loop (Z.shiftr temp (64 - shift)) v' shift in
      (Z.lor (u64 (Z.shiftl temp shift)) carry :: r, c)
  end.
Definition vli_lshift (v : list Z) (shift : Z) : list Z * Z := lshift_loop 0 v shift.

(** From the most significant digit down: the digits above first. *)
Fixpoint rshift1_loop (v : list Z) : list Z * Z :=
  match v with
  | [] => ([], 0)
  | temp :: v' =>
      let '(r, carry) := rshift1_loop v' in
      (Z.lor (Z.shiftr temp 1) carry :: r, u64 (Z.shiftl temp 63))
  end.
Definition vli_rshift1 (v : list Z) : list Z := (rshift1_loop v).1.

Fixpoint add_loop (carry : Z) (left right : list Z) : list Z * Z :=
  match left, right with
  | l :: left', r :: right' =>
      let sum := u64 (l + r + carry) in
      let '(s, c) := add_loop (if sum =? l then carry else b2z (sum <? l)) left' right' in
      (sum :: s, c)
  | _, _ => ([], carry)
  end.
Definition vli_add (left right : list Z) : list Z * Z := add_loop 0 left right.

Fixpoint sub_loop (borrow : Z) (left right : list Z) : list Z * Z :=
  match left, right with
  | l :: left', r :: right' =>
      let diff := u64 (l - r - borrow) in
      let '(s, c) := sub_loop (if diff =? l then borrow else b2z (l <? diff)) left' right' in
      (diff :: s, c)
  | _, _ => ([], borrow)
  end.
Definition vli_sub (left right : list Z) : list Z * Z := sub_loop 0 left right.

(** ** Products *)

Record uint128_t := U128 { m_low : Z; m_high : Z }.

Definition mul_64_64 (left right : Z) : uint128_t :=
  let a0 := Z.land left 0xffffffff in
  let a1 := Z.shiftr left 32 in
  let b0 := Z.land right 0xffffffff in
  let b1 := Z.shiftr right 32 in
  let m0 := u64 (a0 * b0) in
  let m1 := u64 (a0 * b1) in
  let m2 := u64 (a1 * b0) in
  let m3 := u64 (a1 * b1) in
  let m2 := u64 (m2 + Z.shiftr m0 32) in
  let m2 := u64 (m2 + m1) in
  let m3 := if m2 <? m1 then u64 (m3 + 0x100000000) else m3 in
  U128 (Z.lor (Z.land m0 0xffffffff) (u64 (Z.shiftl m2 32))) (u64 (m3 + Z.shiftr m2 32)).

Definition add_128_128 (a b : uint128_t) : uint128_t :=
  let low := u64 (m_low a + m_low b) in
  U128 low (u64 (m_high a + m_high b + b2z (low <? m_low a))).

(** The accumulator of a column: [r01] and [r2]. *)
Definition column_add (acc : uint128_t * Z) (product : uint128_t) : uint128_t * Z :=
  let '(r01, r2) := acc in
  let r01 := add_128_128 r01 product in
  (r01, u64 (r2 + b2z (m_high r01 <? m_high product))).

Definition column_min (k : Z) : Z := if k <? 4 then 0 else k + 1 - 4.

(** [for (i = min; i <= k && i < NUM_ECC_DIGITS; i++)]: at most four rounds. *)
Fixpoint mult_column (n : nat) (left right : list Z) (k i : Z) (acc : uint128_t * Z)
    : uint128_t * Z :=
  match n with
  | O => acc
  | S n' =>
      if (i <=? k) && (i <? 4) then
        let product := mul_64_64 (nth (Z.to_nat i) left 0) (nth (Z.to_nat (k - i)) right 0) in
        mult_column n' left right k (i + 1) (column_add acc product)
      else acc
  end.

(** [for (k = 0; k < NUM_ECC_DIGITS * 2 - 1; k++)] with [n] columns left, and the
    last digit. *)
Fixpoint columns (column : Z -> uint128_t * Z -> uint128_t * Z) (n : nat) (k : Z)
    (r01 : uint128_t) : list Z :=
  match n with
  | O => [m_low r01]
  | S n' =>
      let '(r01, r2) := column k (r01, 0) in
      m_low r01 :: columns column n' (k + 1) (U128 (m_high r01) r2)
  end.

Definition vli_mult (left right : list Z) : list Z :=
  columns (fun k => mult_column 4 left right k (column_min k)) 7 0 (U128 0 0).

(** [product] doubled; what is shifted out goes to [r2]. *)
Definition double_128 (product : uint128_t) : uint128_t :=
  U128 (u64 (Z.shiftl (m_low product) 1))
       (Z.lor (u64 (Z.shiftl (m_high product) 1)) (Z.shiftr (m_low product) 63)).

Fixpoint square_column (n : nat) (left : list Z) (k i : Z) (acc : uint128_t * Z)
    : uint128_t * Z :=
  match n with
  | O => acc
  | S n' =>
      if (i <=? k) && (i <=? k - i) then
        let product := mul_64_64 (nth (Z.to_nat i) left 0) (nth (Z.to_nat (k - i)) left 0) in
        let acc :=
          if i <? k - i then
            column_add (acc.1, u64 (acc.2 + Z.shiftr (m_high product) 63)) (double_128 product)
          else column_add acc product in
        square_column n' left k (i + 1) acc
      else acc
  end.

Definition vli_square (left : list Z) : list Z :=
  columns (fun k => square_column 4 left k (column_min k)) 7 0 (U128 0 0).

(** ** The value of a list of digits *)

Fixpoint eval (v : list Z) : Z :=
  match v with [] => 0 | d :: v' => d + DIGIT * eval v' end.

Definition digits (v : list Z) : Prop := Forall (fun d => is_u64 d) v.

(** A 256-bit integer in memory. *)
Definition vli_ok (v : list Z) : Prop := length v = NUM_ECC_DIGITS /\ digits v.

#[export] Instance digits_dec v : Decision (digits v).
Proof. unfold digits. apply _. Defined.

Lemma eval_range v : digits v -> 0 <= eval v < DIGIT ^ len v.
Proof.
  induction 1 as [|d v Hd Hv IH]; [done|]. unfold len in *. cbn [eval length].
  rewrite Nat2Z.inj_succ, Z.pow_succ_r by lia. lia.
Qed.

Lemma vli_range v : vli_ok v -> 0 <= eval v < 2 ^ 256.
Proof. intros [Hl Hd]. apply eval_range in Hd. unfold len in Hd. by rewrite Hl in Hd. Qed.

Lemma eval_app a b : eval (a ++ b) = eval a + DIGIT ^ len a * eval b.
Proof.
  induction a as [|d a IH]; cbn [eval app].
  - change (DIGIT ^ len []) with 1. lia.
  - rewrite IH. unfold len. cbn [length]. rewrite Nat2Z.inj_succ, Z.pow_succ_r by lia. lia.
Qed.

Lemma eval_inj a b : digits a -> digits b -> length a = length b -> eval a = eval b -> a = b.
Proof.
  intros Ha. revert b. induction Ha as [|x a Hx Ha IH]; intros [|y b] Hb Hl H; try done.
  inversion_clear Hb. cbn [eval] in H. injection Hl as Hl.
  assert (x = y) as -> by lia. f_equal. apply IH; [done | done | lia].
Qed.

(** The four digits of a 256-bit integer. *)
Lemma vli_inv v : vli_ok v ->
  exists a b c d, v = [a; b; c; d] /\ is_u64 a /\ is_u64 b /\ is_u64 c /\ is_u64 d.
Proof.
  intros [Hl Hd]. unfold NUM_ECC_DIGITS in Hl.
  destruct v as [|a [|b [|c [|d [|? ?]]]]]; try done.
  repeat match goal with H : digits (_ :: _) |- _ => inversion_clear H end.
  repeat match goal with H : Forall _ (_ :: _) |- _ => inversion_clear H end.
  by exists a, b, c, d.
Qed.

Lemma vli_clear_ok : vli_ok vli_clear.
Proof. split; [done|]. repeat constructor; lia. Qed.

Lemma vli_is_zero_spec v : digits v -> vli_is_zero v = (eval v =? 0).
Proof.
  unfold vli_is_zero. induction 1 as [|d v Hd Hv IH]; [done|]. cbn [forallb eval]. rewrite IH.
  apply eval_range in Hv. zbool.
Qed.

(** *** Comparison *)

Lemma take_S_eval n v : (n < length v)%nat ->
  eval (take (S n) v) = eval (take n v) + DIGIT ^ Z.of_nat n * nth n v 0.
Proof.
  intros Hn. rewrite (take_S_r v n (nth n v 0))
    by (rewrite nth_lookup; by destruct (lookup_lt_is_Some_2 v n Hn) as [x ->]).
  rewrite eval_app. unfold len. rewrite length_take_le by lia. cbn [eval]. lia.
Qed.

Lemma cmp_loop_spec n a b : (n <= length a)%nat -> (n <= length b)%nat -> digits a -> digits b ->
  cmp_loop n a b = Z.sgn (eval (take n a) - eval (take n b)).
Proof.
  intros Hna Hnb Ha Hb. induction n as [|n IH]; [done|].
  cbn [cmp_loop]. rewrite IH by lia. rewrite !take_S_eval by lia.
  assert (Ra : 0 <= eval (take n a) < DIGIT ^ Z.of_nat n).
  { pose proof (eval_range (take n a) (Forall_take _ n a Ha)) as R. unfold len in R.
    by rewrite length_take_le in R by lia. }
  assert (Rb : 0 <= eval (take n b) < DIGIT ^ Z.of_nat n).
  { pose proof (eval_range (take n b) (Forall_take _ n b Hb)) as R. unfold len in R.
    by rewrite length_take_le in R by lia. }
  revert Ra Rb. generalize (eval (take n a)) (eval (take n b)) (DIGIT ^ Z.of_nat n)
    (nth n a 0) (nth n b 0). intros x y w p q Hx Hy.
  destruct (Z.ltb_spec q p); [symmetry; apply Z.sgn_pos_iff; nia|].
  destruct (Z.ltb_spec p q); [symmetry; apply Z.sgn_neg_iff; nia|].
  assert (p = q) as -> by lia. f_equal. lia.
Qed.

Lemma vli_cmp_spec a b : vli_ok a -> vli_ok b -> vli_cmp a b = Z.sgn (eval a - eval b).
Proof.
  intros [La Ha] [Lb Hb]. unfold vli_cmp. rewrite cmp_loop_spec by (done || lia).
  by rewrite !firstn_all2 by lia.
Qed.

Lemma vli_cmp_pos a b : vli_ok a -> vli_ok b -> vli_cmp a b = 1 <-> eval b < eval a.
Proof. intros. rewrite vli_cmp_spec, Z.sgn_pos_iff by done. lia. Qed.
Lemma vli_cmp_nonneg a b : vli_ok a -> vli_ok b -> 0 <= vli_cmp a b <-> eval b <= eval a.
Proof. intros. rewrite vli_cmp_spec, Z.sgn_nonneg by done. lia. Qed.

Lemma diff_loop_spec diff a b : length a = length b ->
  diff_loop diff a b = 0 <-> diff = 0 /\ a = b.
Proof.
  revert diff b. induction a as [|x a IH]; intros diff [|y b] Hl; try done.
  - by intuition.
  - injection Hl as Hl. cbn [diff_loop]. rewrite IH, Z.lor_eq_0_iff, Z.lxor_eq_0_iff by done.
    split; [by intros [[-> ->] ->] | by intros [-> [= -> ->]]].
Qed.

Lemma vli_equal_spec a b : vli_ok a -> vli_ok b -> vli_equal a b = (eval a =? eval b).
Proof.
  intros [La Ha] [Lb Hb]. unfold vli_equal. apply eq_true_iff_eq.
  rewrite !Z.eqb_eq, diff_loop_spec by (rewrite !length_rev; congruence). split.
  - intros [_ H%rev_inj]. by subst.
  - intros H. split; [done|]. f_equal. apply eval_inj; [done | done | congruence | done].
Qed.

(** *** Sums, differences and shifts *)

Lemma add_loop_spec carry a b : length a = length b -> digits a -> digits b -> 0 <= carry <= 1 ->
  let '(s, c) := add_loop carry a b in
  length s = length a /\ digits s /\ 0 <= c <= 1 /\
  eval s + DIGIT ^ len a * c = eval a + eval b + carry.
Proof.
  intros Hl Ha. revert carry b Hl. induction Ha as [|x a Hx Ha IH]; intros carry [|y b] Hl Hb Hc;
    try done; cbn [add_loop].
  { change (DIGIT ^ len []) with 1. cbn. split_and!; [done | constructor | lia | lia | lia]. }
  injection Hl as Hl. inversion_clear Hb.
  set (sum := u64 (x + y + carry)). set (k := if sum =? x then carry else b2z (sum <? x)).
  assert (Hk : 0 <= k <= 1 /\ sum + DIGIT * k = x + y + carry /\ is_u64 sum).
  { subst k sum. unfold u64. assert (Hm : (x + y + carry) mod DIGIT =
      if x + y + carry <? DIGIT then x + y + carry else x + y + carry - DIGIT) by (case_goal; zlia).
    rewrite Hm. zbool. }
  destruct Hk as (Hk & Hsum & Hr). specialize (IH k b Hl ltac:(done) Hk).
  destruct (add_loop k a b) as [s c]. destruct IH as (IHl & IHd & IHc & IH).
  split_and!; [cbn; lia | by constructor | lia | lia |].
  unfold len in *. cbn [eval length]. rewrite Nat2Z.inj_succ, Z.pow_succ_r by lia. lia.
Qed.

Lemma sub_loop_spec borrow a b : length a = length b -> digits a -> digits b -> 0 <= borrow <= 1 ->
  let '(s, c) := sub_loop borrow a b in
  length s = length a /\ digits s /\ 0 <= c <= 1 /\
  eval s - DIGIT ^ len a * c = eval a - eval b - borrow.
Proof.
  intros Hl Ha. revert borrow b Hl. induction Ha as [|x a Hx Ha IH]; intros borrow [|y b] Hl Hb Hc;
    try done; cbn [sub_loop].
  { change (DIGIT ^ len []) with 1. cbn. split_and!; [done | constructor | lia | lia | lia]. }
  injection Hl as Hl. inversion_clear Hb.
  set (diff := u64 (x - y - borrow)). set (k := if diff =? x then borrow else b2z (x <? diff)).
  assert (Hk : 0 <= k <= 1 /\ diff - DIGIT * k = x - y - borrow /\ is_u64 diff).
  { subst k diff. unfold u64. assert (Hm : (x - y - borrow) mod DIGIT =
      if x - y - borrow <? 0 then x - y - borrow + DIGIT else x - y - borrow) by (case_goal; zlia).
    rewrite Hm. zbool. }
  destruct Hk as (Hk & Hdiff & Hr). specialize (IH k b Hl ltac:(done) Hk).
  destruct (sub_loop k a b) as [s c]. destruct IH as (IHl & IHd & IHc & IH).
  split_and!; [cbn; lia | by constructor | lia | lia |].
  unfold len in *. cbn [eval length]. rewrite Nat2Z.inj_succ, Z.pow_succ_r by lia. lia.
Qed.

(** What [vli_add] and [vli_sub] promise their callers. *)
Lemma vli_add_spec a b : vli_ok a -> vli_ok b ->
  exists s c, vli_add a b = (s, c) /\ vli_ok s /\ 0 <= c <= 1 /\
    eval s + 2 ^ 256 * c = eval a + eval b.
Proof.
  intros [La Ha] [Lb Hb]. pose proof (add_loop_spec 0 a b ltac:(congruence) Ha Hb ltac:(lia)) as H.
  unfold vli_add. destruct (add_loop 0 a b) as [s c]. destruct H as (Hl & Hd & Hc & He).
  exists s, c. split_and!; [done | by split; [congruence|] | lia.. |].
  unfold len in He. rewrite La in He. change (DIGIT ^ Z.of_nat NUM_ECC_DIGITS) with (2 ^ 256) in He.
  lia.
Qed.

Lemma vli_sub_spec a b : vli_ok a -> vli_ok b ->
  exists s c, vli_sub a b = (s, c) /\ vli_ok s /\ 0 <= c <= 1 /\
    eval s - 2 ^ 256 * c = eval a - eval b.
Proof.
  intros [La Ha] [Lb Hb]. pose proof (sub_loop_spec 0 a b ltac:(congruence) Ha Hb ltac:(lia)) as H.
  unfold vli_sub. destruct (sub_loop 0 a b) as [s c]. destruct H as (Hl & Hd & Hc & He).
  exists s, c. split_and!; [done | by split; [congruence|] | lia.. |].
  unfold len in He. rewrite La in He. change (DIGIT ^ Z.of_nat NUM_ECC_DIGITS) with (2 ^ 256) in He.
  lia.
Qed.

Lemma lshift1_loop_spec carry a : digits a -> 0 <= carry <= 1 ->
  let '(r, c) := lshift_loop carry a 1 in
  length r = length a /\ digits r /\ 0 <= c <= 1 /\
  eval r + DIGIT ^ len a * c = 2 * eval a + carry.
Proof.
  intros Ha. revert carry. induction Ha as [|x a Hx Ha IH]; intros carry Hc; cbn [lshift_loop].
  { change (DIGIT ^ len []) with 1. cbn. split_and!; [done | constructor | lia | lia | lia]. }
  change (64 - 1) with 63. rewrite Z.shiftr_div_pow2, Z.shiftl_mul_pow2 by lia.
  change (2 ^ 63) with 0x8000000000000000. change (2 ^ 1) with 2.
  assert (Hk : 0 <= x / 0x8000000000000000 <= 1) by zlia.
  specialize (IH _ Hk). destruct (lshift_loop _ a 1) as [r c]. destruct IH as (IHl & IHd & IHc & IH).
  assert (Hm : Z.lor (u64 (x * 2)) carry = 2 * x + carry - DIGIT * (x / 0x8000000000000000)).
  { unfold u64. replace ((x * 2) mod DIGIT) with (Z.shiftl (x mod 0x8000000000000000) 1)
      by (rewrite Z.shiftl_mul_pow2 by lia; zlia).
    rewrite Z.lor_comm, lor_shiftl_add by lia. zlia. }
  rewrite Hm. split_and!; [cbn; lia | constructor; [zlia | done] | lia | lia |].
  unfold len in *. cbn [eval length]. rewrite Nat2Z.inj_succ, Z.pow_succ_r by lia. lia.
Qed.

Lemma vli_lshift1_spec a : vli_ok a ->
  exists r c, vli_lshift a 1 = (r, c) /\ vli_ok r /\ 0 <= c <= 1 /\
    eval r + 2 ^ 256 * c = 2 * eval a.
Proof.
  intros [La Ha]. pose proof (lshift1_loop_spec 0 a Ha ltac:(lia)) as H.
  unfold vli_lshift. destruct (lshift_loop 0 a 1) as [r c]. destruct H as (Hl & Hd & Hc & He).
  exists r, c. split_and!; [done | by split; [congruence|] | lia.. |].
  unfold len in He. rewrite La in He. change (DIGIT ^ Z.of_nat NUM_ECC_DIGITS) with (2 ^ 256) in He.
  lia.
Qed.

Lemma rshift1_loop_spec a : digits a ->
  let '(r, c) := rshift1_loop a in
  length r = length a /\ digits r /\ 2 * eval r + eval a mod 2 = eval a /\
  c = 0x8000000000000000 * (eval a mod 2).
Proof.
  induction 1 as [|x a Hx Ha IH]; cbn [rshift1_loop]; [by repeat split; constructor|].
  destruct (rshift1_loop a) as [r c]. destruct IH as (IHl & IHd & IH & ->).
  rewrite Z.shiftr_div_pow2, Z.shiftl_mul_pow2 by lia.
  change (2 ^ 63) with 0x8000000000000000. change (2 ^ 1) with 2. set (e := eval a) in *.
  assert (Hm : Z.lor (x / 2) (0x8000000000000000 * (e mod 2)) = x / 2 + 0x8000000000000000 * (e mod 2)).
  { replace (0x8000000000000000 * (e mod 2)) with (Z.shiftl (e mod 2) 63)
      by (rewrite Z.shiftl_mul_pow2 by lia; lia).
    rewrite lor_shiftl_add by (lia || (split; zlia)). rewrite Z.shiftl_mul_pow2 by lia. done. }
  rewrite Hm. cbn [eval length]. fold e.
  assert (He2 : (x + DIGIT * e) mod 2 = x mod 2) by zlia.
  split_and!; [lia | constructor; [zlia | done] | zlia |].
  rewrite He2. unfold u64. zlia.
Qed.

Lemma vli_rshift1_spec a : vli_ok a ->
  vli_ok (vli_rshift1 a) /\ eval (vli_rshift1 a) = eval a / 2.
Proof.
  intros [La Ha]. pose proof (rshift1_loop_spec a Ha) as H. unfold vli_rshift1.
  destruct (rshift1_loop a) as [r c]. destruct H as (Hl & Hd & He & _). cbn.
  split; [by split; congruence | zlia].
Qed.

(** *** Products

    The test that detects a carry out of 128 bits compares the high digits only:
    a carry is lost when the high digit of the sum equals that of the product
    and the low digit is below its. *)

Definition val128 (x : uint128_t) : Z := m_low x + DIGIT * m_high x.
Definition ok128 (x : uint128_t) : Prop := is_u64 (m_low x) /\ is_u64 (m_high x).
Definition column_val (acc : uint128_t * Z) : Z := val128 acc.1 + DIGIT * DIGIT * acc.2.

Definition carry_lost (r01 product : uint128_t) : bool :=
  let r := add_128_128 r01 product in
  (m_high r =? m_high product) && (m_low r <? m_low product).

Lemma mul_64_64_spec l r : is_u64 l -> is_u64 r ->
  ok128 (mul_64_64 l r) /\ val128 (mul_64_64 l r) = l * r.
Proof.
  intros Hl Hr. unfold mul_64_64, ok128, val128.
  rewrite !(land_ones_mod _ 32) by lia. rewrite !Z.shiftr_div_pow2, Z.shiftl_mul_pow2 by lia.
  change (2 ^ 32) with 0x100000000.
  pose proof (Z.div_mod l 0x100000000 ltac:(lia)) as El.
  pose proof (Z.div_mod r 0x100000000 ltac:(lia)) as Er.
  assert (Ha0 : 0 <= l mod 0x100000000 <= 0xffffffff) by zlia.
  assert (Ha1 : 0 <= l / 0x100000000 <= 0xffffffff) by zlia.
  assert (Hb0 : 0 <= r mod 0x100000000 <= 0xffffffff) by zlia.
  assert (Hb1 : 0 <= r / 0x100000000 <= 0xffffffff) by zlia.
  revert El Er Ha0 Ha1 Hb0 Hb1.
  generalize (l mod 0x100000000) (l / 0x100000000) (r mod 0x100000000) (r / 0x100000000).
  intros a0 a1 b0 b1 -> -> Ha0 Ha1 Hb0 Hb1.
  assert (B : ∀ x y, 0 <= x <= 0xffffffff -> 0 <= y <= 0xffffffff ->
    0 <= x * y <= 0xffffffff * 0xffffffff) by (intros; nia).
  pose proof (B a0 b0 Ha0 Hb0) as H0. pose proof (B a0 b1 Ha0 Hb1) as H1.
  pose proof (B a1 b0 Ha1 Hb0) as H2. pose proof (B a1 b1 Ha1 Hb1) as H3.
  replace ((0x100000000 * a1 + a0) * (0x100000000 * b1 + b0)) with
    (a0 * b0 + 0x100000000 * (a0 * b1 + a1 * b0) + DIGIT * (a1 * b1)) by ring.
  revert H0 H1 H2 H3. generalize (a0 * b0) (a0 * b1) (a1 * b0) (a1 * b1).
  intros m0 m1 m2 m3 H0 H1 H2 H3. rewrite (u64_small m0), (u64_small m1), (u64_small m2),
    (u64_small m3) by lia.
  rewrite (u64_small (m2 + m0 / 0x100000000)) by zlia.
  set (s := m2 + m0 / 0x100000000) in *. assert (Hs : 0 <= s <= 0xffffffff * 0x100000000) by (subst s; zlia).
  assert (Hover : exists o, 0 <= o <= 1 /\ u64 (s + m1) = s + m1 - DIGIT * o /\
    (u64 (s + m1) <? m1) = (o =? 1)).
  { unfold u64. destruct (Z.lt_ge_cases (s + m1) DIGIT).
    - exists 0. rewrite Z.mod_small by lia. split_and!; [lia.. | zbool].
    - exists 1. assert ((s + m1) mod DIGIT = s + m1 - DIGIT) as -> by zlia. split_and!; [lia.. | zbool]. }
  destruct Hover as (o & Ho & Hm2 & ->). rewrite Hm2. set (t := s + m1 - DIGIT * o) in *.
  assert (Ht : is_u64 t) by (rewrite <-Hm2; apply u64_range).
  assert (Hm3 : (if o =? 1 then u64 (m3 + 0x100000000) else m3) = m3 + 0x100000000 * o).
  { destruct (Z.eqb_spec o 1); [rewrite u64_small by lia|]; lia. }
  cbn [m_low m_high]. rewrite Hm3. clear Hm3.
  assert (Hlow : Z.lor (m0 mod 0x100000000) (u64 (t * 0x100000000)) =
    m0 mod 0x100000000 + 0x100000000 * (t mod 0x100000000)).
  { replace (u64 (t * 0x100000000)) with (Z.shiftl (t mod 0x100000000) 32)
      by (rewrite Z.shiftl_mul_pow2 by lia; unfold u64; zlia).
    rewrite lor_shiftl_add by (lia || (split; zlia)). lia. }
  rewrite Hlow. assert (Hhigh : m3 + 0x100000000 * o + t / 0x100000000 < DIGIT).
  { subst t s. zlia. }
  rewrite (u64_small (m3 + _ + _)) by zlia. subst t s. zlia.
Qed.

Lemma add_128_128_spec a b : ok128 a -> ok128 b ->
  exists o, 0 <= o <= 1 /\ ok128 (add_128_128 a b) /\
    val128 (add_128_128 a b) + DIGIT * DIGIT * o = val128 a + val128 b.
Proof.
  intros [Ha1 Ha2] [Hb1 Hb2]. unfold add_128_128, ok128, val128. cbn.
  assert (Hl : exists c, 0 <= c <= 1 /\ u64 (m_low a + m_low b) + DIGIT * c = m_low a + m_low b /\
    b2z (u64 (m_low a + m_low b) <? m_low a) = c).
  { unfold u64. destruct (Z.lt_ge_cases (m_low a + m_low b) DIGIT).
    - exists 0. rewrite Z.mod_small by lia. split_and!; [lia.. | zbool].
    - exists 1. assert ((m_low a + m_low b) mod DIGIT = m_low a + m_low b - DIGIT) as -> by zlia.
      split_and!; [lia.. | zbool]. }
  destruct Hl as (c & Hc & Hl & ->). set (h := m_high a + m_high b + c).
  exists (h / DIGIT). pose proof (u64_range (m_low a + m_low b)).
  pose proof (u64_range h). subst h. unfold u64 in *. split_and!; zlia.
Qed.

Lemma column_add_spec r01 r2 p : ok128 r01 -> ok128 p -> 0 <= r2 < DIGIT - 1 ->
  let acc := column_add (r01, r2) p in
  ok128 acc.1 /\ 0 <= acc.2 <= r2 + 1 /\
  column_val acc + DIGIT * DIGIT * b2z (carry_lost r01 p) = column_val (r01, r2) + val128 p.
Proof.
  intros Hr Hp H2. destruct (add_128_128_spec r01 p Hr Hp) as (o & Ho & Hok & Hv).
  unfold column_add, column_val, carry_lost. cbn [fst snd].
  destruct Hr as [Hr1 Hr2], Hp as [Hp1 Hp2].
  destruct (add_128_128 r01 p) as [l h]. destruct Hok as [Hok1 Hok2].
  unfold val128 in *. cbn [m_low m_high] in *.
  rewrite u64_small by (unfold b2z; case_match; lia).
  split; [done|]. split; [unfold b2z; case_match; lia|].
  assert (o = b2z ((h <? m_high p) || (h =? m_high p) && (l <? m_low p))) as -> by zbool.
  zbool.
Qed.

(** *** Columns

    [terms k] is what column [k] should add up to, [lost k r01] how many carries
    it loses when it starts from [r01]. *)
Section Columns.
Variables (column : Z -> uint128_t * Z -> uint128_t * Z) (terms : Z -> Z)
  (lost : Z -> uint128_t -> Z).
Hypothesis column_ok : ∀ k r01, ok128 r01 ->
  let acc := column k (r01, 0) in
  ok128 acc.1 /\ is_u64 acc.2 /\ 0 <= lost k r01 /\
  column_val acc + DIGIT * DIGIT * lost k r01 = val128 r01 + terms k.

Fixpoint columns_sum (n : nat) (k : Z) : Z :=
  match n with O => 0 | S n' => terms k + DIGIT * columns_sum n' (k + 1) end.

(** The value of the carries that [n] columns from [k] on lose. *)
Fixpoint columns_lost (n : nat) (k : Z) (r01 : uint128_t) : Z :=
  match n with
  | O => 0
  | S n' =>
      let acc := column k (r01, 0) in
      DIGIT * DIGIT * lost k r01
        + DIGIT * columns_lost n' (k + 1) (U128 (m_high acc.1) acc.2)
  end.

Lemma columns_spec n k r01 : ok128 r01 ->
  length (columns column n k r01) = S n /\ digits (columns column n k r01) /\
  0 <= columns_lost n k r01 /\
  exists h, 0 <= h /\ eval (columns column n k r01) + DIGIT ^ (Z.of_nat n + 1) * h
    = val128 r01 + columns_sum n k - columns_lost n k r01.
Proof.
  revert k r01. induction n as [|n IH]; intros k r01 Hr; cbn [columns columns_sum columns_lost].
  { destruct Hr as [H1 H2]. split_and!; [done | by constructor | done |].
    exists (m_high r01). cbn. unfold val128. lia. }
  pose proof (column_ok k r01 Hr) as Hc. destruct (column k (r01, 0)) as [r r2].
  destruct Hc as ([H1 H2] & H3 & Hlost & Hv). cbn [fst snd] in *.
  destruct (IH (k + 1) (U128 (m_high r) r2) ltac:(done)) as (IHl & IHd & IHp & h & Hh & IHv).
  split_and!; [cbn; lia | by constructor | lia |]. exists h. split; [done|].
  cbn [eval]. rewrite Nat2Z.inj_succ, Z.add_succ_l, Z.pow_succ_r by lia.
  unfold column_val, val128 in *. cbn [fst snd m_low m_high] in *. lia.
Qed.

(** All columns, when the sum fits the digits. *)
Lemma columns_exact n : columns_sum n 0 < DIGIT ^ (Z.of_nat n + 1) ->
  length (columns column n 0 (U128 0 0)) = S n /\ digits (columns column n 0 (U128 0 0)) /\
  0 <= columns_lost n 0 (U128 0 0) /\
  eval (columns column n 0 (U128 0 0)) = columns_sum n 0 - columns_lost n 0 (U128 0 0).
Proof.
  intros Hs. destruct (columns_spec n 0 (U128 0 0) ltac:(by split; cbn)) as (Hl & Hd & Hp & h & Hh & Hv).
  split_and!; [done.. |]. pose proof (eval_range _ Hd) as He. unfold len in He.
  rewrite Hl in He. unfold val128 in Hv. cbn [m_low m_high] in Hv.
  assert (h = 0) as -> by nia. lia.
Qed.
End Columns.

(** *** [vli_mult] *)

Section Mult.
Variables (left right : list Z).
Let l i := nth (Z.to_nat i) left 0.
Let r i := nth (Z.to_nat i) right 0.

Fixpoint mult_terms (n : nat) (k i : Z) : Z :=
  match n with
  | O => 0
  | S n' => if (i <=? k) && (i <? 4) then l i * r (k - i) + mult_terms n' k (i + 1) else 0
  end.

(** The carries column [k] loses. *)
Fixpoint mult_carries (n : nat) (k i : Z) (acc : uint128_t * Z) : Z :=
  match n with
  | O => 0
  | S n' =>
      if (i <=? k) && (i <? 4) then
        let product := mul_64_64 (l i) (r (k - i)) in
        b2z (carry_lost acc.1 product) + mult_carries n' k (i + 1) (column_add acc product)
      else 0
  end.

Definition mult_lost : Z :=
  columns_lost (fun k => mult_column 4 left right k (column_min k))
    (fun k r01 => mult_carries 4 k (column_min k) (r01, 0)) 7 0 (U128 0 0).

Hypothesis Hl : digits left.
Hypothesis Hr : digits right.

Lemma nth_digit v i : digits v -> is_u64 (nth i v 0).
Proof.
  intros Hv. destruct (nth_in_or_default i v 0) as [H | ->]; [|lia].
  apply list_elem_of_In in H. unfold digits in Hv. rewrite Forall_forall in Hv. by apply Hv.
Qed.

Lemma mult_column_spec n k i acc : ok128 acc.1 -> 0 <= acc.2 <= DIGIT - 1 - Z.of_nat n ->
  let acc' := mult_column n left right k i acc in
  ok128 acc'.1 /\ 0 <= acc'.2 <= acc.2 + Z.of_nat n /\ 0 <= mult_carries n k i acc /\
  column_val acc' + DIGIT * DIGIT * mult_carries n k i acc = column_val acc + mult_terms n k i.
Proof.
  revert i acc. induction n as [|n IH]; intros i [r01 r2] H1 H2;
    cbn [mult_column mult_carries mult_terms fst snd] in *; [split_and!; (apply H1 || lia)|].
  destruct ((i <=? k) && (i <? 4)); [|split_and!; cbn [fst snd]; (apply H1 || lia)].
  destruct (mul_64_64_spec (l i) (r (k - i)) (nth_digit left _ Hl) (nth_digit right _ Hr)) as [Hp Hv].
  fold (l i) (r (k - i)). set (p := mul_64_64 (l i) (r (k - i))) in *.
  destruct (column_add_spec r01 r2 p H1 Hp ltac:(lia)) as (G1 & G2 & G3).
  destruct (column_add (r01, r2) p) as [s1 s2]. cbn [fst snd] in *.
  destruct (IH (i + 1) (s1, s2) G1 ltac:(cbn; lia)) as (J1 & J2 & J3 & J4). cbn [fst snd] in *.
  split; [done|]. split; [lia|]. split; [unfold b2z; case_match; lia|]. lia.
Qed.
End Mult.

(** The digits of the product, short of the carries lost. *)
Lemma vli_mult_eval left right : vli_ok left -> vli_ok right ->
  length (vli_mult left right) = 8%nat /\ digits (vli_mult left right) /\
  0 <= mult_lost left right /\
  eval (vli_mult left right) = eval left * eval right - mult_lost left right.
Proof.
  intros Hl Hr. pose proof (vli_range left Hl) as Bl. pose proof (vli_range right Hr) as Br.
  assert (Hsum : columns_sum (fun k => mult_terms left right 4 k (column_min k)) 7 0
                 = eval left * eval right).
  { destruct (vli_inv left Hl) as (a & b & c & d & -> & _).
    destruct (vli_inv right Hr) as (a' & b' & c' & d' & -> & _).
    transitivity
        ((a * a' + 0) + DIGIT * ((a * b' + (b * a' + 0)) + DIGIT * ((a * c' + (b * b' + (c * a'
        + 0))) + DIGIT * ((a * d' + (b * c' + (c * b' + (d * a' + 0)))) + DIGIT * ((b * d' + (c
        * c' + (d * b' + 0))) + DIGIT * ((c * d' + (d * c' + 0)) + DIGIT * ((d * d' + 0) + DIGIT
        * 0))))))); [reflexivity | cbn [eval]; ring]. }
  rewrite <-Hsum. apply columns_exact;
    [|rewrite Hsum; change (DIGIT ^ (Z.of_nat 7 + 1)) with (2 ^ 256 * 2 ^ 256); nia].
  intros k r01 Hok. destruct (mult_column_spec left right (proj2 Hl) (proj2 Hr) 4 k (column_min k) (r01, 0)
    Hok ltac:(cbn; lia)) as (H1 & H2 & H3 & H4). cbn [fst snd] in *.
  split_and!; [done | lia.. | done | ].
  unfold column_val in *. cbn [fst snd] in *. lia.
Qed.

(** *** [vli_square] *)

Lemma double_128_spec p : ok128 p ->
  ok128 (double_128 p) /\ 0 <= Z.shiftr (m_high p) 63 <= 1 /\
  val128 (double_128 p) + DIGIT * DIGIT * Z.shiftr (m_high p) 63 = 2 * val128 p.
Proof.
  destruct p as [l h]. intros [Hl Hh]. unfold double_128, ok128, val128. cbn [m_low m_high] in *.
  rewrite !Z.shiftr_div_pow2, !Z.shiftl_mul_pow2 by lia. change (2 ^ 63) with 0x8000000000000000.
  change (2 ^ 1) with 2.
  assert (Hor : Z.lor (u64 (h * 2)) (l / 0x8000000000000000) =
    2 * (h mod 0x8000000000000000) + l / 0x8000000000000000).
  { replace (u64 (h * 2)) with (Z.shiftl (h mod 0x8000000000000000) 1)
      by (rewrite Z.shiftl_mul_pow2 by lia; unfold u64; zlia).
    rewrite Z.lor_comm, lor_shiftl_add by (lia || (split; zlia)). lia. }
  rewrite Hor. unfold u64. split_and!; zlia.
Qed.

Section Square.
Variable left : list Z.
Let l i := nth (Z.to_nat i) left 0.

Fixpoint square_terms (n : nat) (k i : Z) : Z :=
  match n with
  | O => 0
  | S n' =>
      if (i <=? k) && (i <=? k - i) then
        (if i <? k - i then 2 * (l i * l (k - i)) else l i * l (k - i)) + square_terms n' k (i + 1)
      else 0
  end.

(** One round of the inner loop. *)
Definition square_round (k i : Z) (acc : uint128_t * Z) : (uint128_t * Z) * bool :=
  let product := mul_64_64 (l i) (l (k - i)) in
  if i <? k - i then
    (column_add (acc.1, u64 (acc.2 + Z.shiftr (m_high product) 63)) (double_128 product),
     carry_lost acc.1 (double_128 product))
  else (column_add acc product, carry_lost acc.1 product).

Fixpoint square_carries (n : nat) (k i : Z) (acc : uint128_t * Z) : Z :=
  match n with
  | O => 0
  | S n' =>
      if (i <=? k) && (i <=? k - i) then
        b2z (square_round k i acc).2 + square_carries n' k (i + 1) (square_round k i acc).1
      else 0
  end.

Definition square_lost : Z :=
  columns_lost (fun k => square_column 4 left k (column_min k))
    (fun k r01 => square_carries 4 k (column_min k) (r01, 0)) 7 0 (U128 0 0).

Hypothesis Hl : digits left.

Lemma square_round_spec k i r01 r2 : ok128 r01 -> 0 <= r2 <= DIGIT - 3 ->
  let '(acc, lost) := square_round k i (r01, r2) in
  ok128 acc.1 /\ 0 <= acc.2 <= r2 + 2 /\
  column_val acc + DIGIT * DIGIT * b2z lost
    = column_val (r01, r2) + (if i <? k - i then 2 * (l i * l (k - i)) else l i * l (k - i)).
Proof.
  intros H1 H2. unfold square_round.
  destruct (mul_64_64_spec (l i) (l (k - i)) (nth_digit left _ Hl) (nth_digit left _ Hl)) as [Hp Hv].
  set (p := mul_64_64 (l i) (l (k - i))) in *. destruct (i <? k - i).
  - destruct (double_128_spec p Hp) as (Hd & Hb & Hdv). cbn [fst snd].
    rewrite u64_small by lia. set (e := Z.shiftr (m_high p) 63) in *.
    destruct (column_add_spec r01 (r2 + e) (double_128 p) H1 Hd ltac:(lia)) as (G1 & G2 & G3).
    split; [done|]. split; [lia|]. unfold column_val in *. cbn [fst snd] in *. lia.
  - destruct (column_add_spec r01 r2 p H1 Hp ltac:(lia)) as (G1 & G2 & G3).
    split; [done|]. split; [lia|]. cbn [fst snd] in *. lia.
Qed.

Lemma square_column_S n k i acc :
  square_column (S n) left k i acc =
  if (i <=? k) && (i <=? k - i) then square_column n left k (i + 1) (square_round k i acc).1 else acc.
Proof.
  cbn [square_column]. unfold square_round. destruct (_ && _); [|done].
  by destruct (i <? k - i).
Qed.

Lemma square_column_spec n k i acc : ok128 acc.1 -> 0 <= acc.2 <= DIGIT - 1 - 2 * Z.of_nat n ->
  let acc' := square_column n left k i acc in
  ok128 acc'.1 /\ 0 <= acc'.2 <= acc.2 + 2 * Z.of_nat n /\ 0 <= square_carries n k i acc /\
  column_val acc' + DIGIT * DIGIT * square_carries n k i acc = column_val acc + square_terms n k i.
Proof.
  revert i acc. induction n as [|n IH]; intros i [r01 r2] H1 H2;
    rewrite ?square_column_S; cbn [square_column square_carries square_terms fst snd] in *;
    [split_and!; (apply H1 || lia)|].
  destruct ((i <=? k) && (i <=? k - i)); [|split_and!; cbn [fst snd]; (apply H1 || lia)].
  pose proof (square_round_spec k i r01 r2 H1 ltac:(lia)) as G.
  destruct (square_round k i (r01, r2)) as [[s1 s2] lost]. destruct G as (G1 & G2 & G3).
  cbn [fst snd] in *.
  destruct (IH (i + 1) (s1, s2) G1 ltac:(cbn [fst snd]; lia)) as (J1 & J2 & J3 & J4).
  cbn [fst snd] in *.
  split; [done|]. split; [lia|]. split; [pose proof (b2z_range lost); lia|]. lia.
Qed.
End Square.

Lemma vli_square_eval left : vli_ok left ->
  length (vli_square left) = 8%nat /\ digits (vli_square left) /\ 0 <= square_lost left /\
  eval (vli_square left) = eval left * eval left - square_lost left.
Proof.
  intros Hl. pose proof (vli_range left Hl) as Bl.
  assert (Hsum : columns_sum (fun k => square_terms left 4 k (column_min k)) 7 0
                 = eval left * eval left).
  { destruct (vli_inv left Hl) as (a & b & c & d & -> & _).
    transitivity
        ((a * a + 0) + DIGIT * ((2 * (a * b) + 0) + DIGIT * ((2 * (a * c) + (b * b + 0)) + DIGIT
        * ((2 * (a * d) + (2 * (b * c) + 0)) + DIGIT * ((2 * (b * d) + (c * c + 0)) + DIGIT *
        ((2 * (c * d) + 0) + DIGIT * ((d * d + 0) + DIGIT * 0))))))); [reflexivity | cbn [eval]; ring]. }
  rewrite <-Hsum. apply columns_exact;
    [|rewrite Hsum; change (DIGIT ^ (Z.of_nat 7 + 1)) with (2 ^ 256 * 2 ^ 256); nia].
  intros k r01 Hok. destruct (square_column_spec left (proj2 Hl) 4 k (column_min k) (r01, 0)
    Hok ltac:(cbn; lia)) as (H1 & H2 & H3 & H4). cbn [fst snd] in *.
  split_and!; [done | lia.. | done | ].
  unfold column_val in *. cbn [fst snd] in *. lia.
Qed.

(** *** Theorems *)

(** The product of two 256-bit integers.  [vli_mult] returns eight digits;
    their value is the product less [mult_lost], the value of the carries that
    the test in the inner loop does not see.  So it is the product whenever none
    is lost, and too small otherwise. *)
Theorem vli_mult_value left right : vli_ok left -> vli_ok right ->
  length (vli_mult left right) = 8%nat /\ digits (vli_mult left right) /\
  eval (vli_mult left right) <= eval left * eval right /\
  (eval (vli_mult left right) = eval left * eval right <-> mult_lost left right = 0).
Proof.
  intros Hl Hr. destruct (vli_mult_eval left right Hl Hr) as (H1 & H2 & H3 & H4).
  split_and!; [done | done | lia | lia].
Qed.

Lemma vli_mult_value_witness :
  vli_ok [5; 0; 0; 0x8000000000000000] /\ eval (vli_mult [5; 0; 0; 0x8000000000000000] [7; 0; 1; 0])
    = eval [5; 0; 0; 0x8000000000000000] * eval [7; 0; 1; 0].
Proof.
  split; [by apply (bool_decide_unpack _); vm_compute|].
  apply (vli_mult_value [5; 0; 0; 0x8000000000000000] [7; 0; 1; 0]);
    [by apply (bool_decide_unpack _); vm_compute.. |]. by vm_compute.
Defined.

(** [vli_mult] drops a carry.  In the third column of this product the sum
    of two partial products has the high digit 2^64 - 1 and the next one carries
    into it: the high digit comes out equal to that of the partial product, the
    test takes this for no carry, and the result is 2^256 too small. *)
Theorem vli_mult_drops_carry :
  let left := [0x8000000000000000; 0xffffffffffffffff; 0x8000000000000000; 0] in
  let right := [1; 0xffffffffffffffff; 2; 0] in
  eval (vli_mult left right) = eval left * eval right - 2 ^ 256.
Proof. reflexivity. Qed.
