(* ===== verification/VliMod.v ===== *)
(** * Arithmetic modulo the field prime

    [vli_mod_add] to [vli_mod_inv] of [src/blueZ/src/shared/ecc.c]: arithmetic
    modulo an odd number and, with the fast reduction, modulo the prime of the
    curve P-256. *)

From S2P Require Import Prelude Bytes Vli.

Definition curve_p : list Z :=
  [0xFFFFFFFFFFFFFFFF; 0x00000000FFFFFFFF; 0x0000000000000000; 0xFFFFFFFF00000001].

(** The value of [curve_p]. *)
Definition P256 : Z := 0xffffffff00000001000000000000000000000000ffffffffffffffffffffffff.

Definition vli_mod_add (left right mod_ : list Z) : list Z :=
  let '(result, carry) := vli_add left right in
  if truth carry || (0 <=? vli_cmp result mod_) then (vli_sub result mod_).1 else result.

Definition vli_mod_sub (left right mod_ : list Z) : list Z :=
  let '(result, borrow) := vli_sub left right in
  if truth borrow then (vli_add result mod_).1 else result.

(** ** Reduction of a product

    [carry] is an [int]; a borrow subtracted from it wraps around to the same
    value.  [result = result + tmp] and [result = result - tmp] are the two
    steps. *)
Definition reduce_add (st : list Z * Z) (tmp : list Z) : list Z * Z :=
  let '(result, carry) := st in
  let '(result, c) := vli_add result tmp in (result, carry + c).
Definition reduce_add2 (st : list Z * Z) (tmp : list Z) : list Z * Z :=
  let '(result, carry) := st in
  let '(tmp, c) := vli_lshift tmp 1 in reduce_add (result, carry + c) tmp.
Definition reduce_sub (st : list Z * Z) (tmp : list Z) : list Z * Z :=
  let '(result, carry) := st in
  let '(result, c) := vli_sub result tmp in (result, carry - c).

Fixpoint reduce_up (fuel : nat) (result : list Z) (carry : Z) : option (list Z) :=
  match fuel with
  | O => None
  | S fuel' =>
      let '(result, carry) := reduce_add (result, carry) curve_p in
      if carry <? 0 then reduce_up fuel' result carry else Some result
  end.
Fixpoint reduce_down (fuel : nat) (result : list Z) (carry : Z) : option (list Z) :=
  match fuel with
  | O => None
  | S fuel' =>
      if truth carry || negb (vli_cmp curve_p result =? 1) then
        let '(result, carry) := reduce_sub (result, carry) curve_p in
        reduce_down fuel' result carry
      else Some result
  end.

Definition high32 (x : Z) : Z := Z.land x 0xffffffff00000000.
Definition low32 (x : Z) : Z := Z.land x 0xffffffff.
(** [(x >> 32) | (y << 32)] *)
Definition join32 (x y : Z) : Z := Z.lor (Z.shiftr x 32) (u64 (Z.shiftl y 32)).
(** [(x >> 32) | (y & 0xffffffff00000000)] *)
Definition join_high (x y : Z) : Z := Z.lor (Z.shiftr x 32) (high32 y).

Definition vli_mmod_sum (product : list Z) : list Z * Z :=
  let p i := nth i product 0 in
  let st := (take 4 product, 0) in
  let st := reduce_add2 st [0; high32 (p 5%nat); p 6%nat; p 7%nat] in
  let st := reduce_add2 st [0; u64 (Z.shiftl (p 6%nat) 32); join32 (p 6%nat) (p 7%nat);
                            Z.shiftr (p 7%nat) 32] in
  let st := reduce_add st [p 4%nat; low32 (p 5%nat); 0; p 7%nat] in
  let st := reduce_add st [join32 (p 4%nat) (p 5%nat); join_high (p 5%nat) (p 6%nat); p 7%nat;
                           join32 (p 6%nat) (p 4%nat)] in
  let st := reduce_sub st [join32 (p 5%nat) (p 6%nat); Z.shiftr (p 6%nat) 32; 0;
                           Z.lor (low32 (p 4%nat)) (u64 (Z.shiftl (p 5%nat) 32))] in
  let st := reduce_sub st [p 6%nat; p 7%nat; 0; join_high (p 4%nat) (p 5%nat)] in
  let st := reduce_sub st [join32 (p 6%nat) (p 7%nat); join32 (p 7%nat) (p 4%nat);
                           join32 (p 4%nat) (p 5%nat); u64 (Z.shiftl (p 6%nat) 32)] in
  reduce_sub st [p 7%nat; high32 (p 4%nat); p 5%nat; high32 (p 6%nat)].

(** The final loops run at most sixteen times (theorem [vli_mmod_fast_spec]). *)
Definition vli_mmod_loops (product : list Z) : option (list Z) :=
  let '(result, carry) := vli_mmod_sum product in
  if carry <? 0 then reduce_up 16 result carry else reduce_down 16 result carry.
Definition vli_mmod_fast (product : list Z) : list Z := default vli_clear (vli_mmod_loops product).

Definition vli_mod_mult_fast (left right : list Z) : list Z := vli_mmod_fast (vli_mult left right).
Definition vli_mod_square_fast (left : list Z) : list Z := vli_mmod_fast (vli_square left).

(** ** Inversion *)

Definition EVEN (vli : list Z) : bool := Z.land (nth 0 vli 0) 1 =? 0.

(** [u[NUM_ECC_DIGITS - 1] |= 0x8000000000000000] *)
Definition set_top (v : list Z) : list Z :=
  alter (fun d => Z.lor d 0x8000000000000000) 3%nat v.

(** [carry = vli_add(u, u, mod)] if [u] is odd, [vli_rshift1(u)], and the carry
    as the top bit. *)
Definition mod_halve (u mod_ : list Z) : list Z :=
  let '(u, carry) := if negb (EVEN u) then vli_add u mod_ else (u, 0) in
  let u := vli_rshift1 u in
  if truth carry then set_top u else u.

(** [if (vli_cmp(u, v) < 0) vli_add(u, u, mod); vli_sub(u, u, v)] *)
Definition inv_sub (u v mod_ : list Z) : list Z :=
  let u := if vli_cmp u v <? 0 then (vli_add u mod_).1 else u in
  (vli_sub u v).1.

Record inv_state := InvState { inv_a : list Z; inv_b : list Z; inv_u : list Z; inv_v : list Z }.

(** The body of [while ((cmp_result = vli_cmp(a, b)) != 0)]. *)
Definition inv_step (mod_ : list Z) (st : inv_state) : inv_state :=
  let '(InvState a b u v) := st in
  if EVEN a then InvState (vli_rshift1 a) b (mod_halve u mod_) v
  else if EVEN b then InvState a (vli_rshift1 b) u (mod_halve v mod_)
  else if 0 <? vli_cmp a b then
    InvState (vli_rshift1 (vli_sub a b).1) b (mod_halve (inv_sub u v mod_) mod_) v
  else InvState a (vli_rshift1 (vli_sub b a).1) u (mod_halve (inv_sub v u mod_) mod_).

Fixpoint inv_loop (fuel : nat) (mod_ : list Z) (st : inv_state) : option (list Z) :=
  if vli_cmp (inv_a st) (inv_b st) =? 0 then Some (inv_u st) else
  match fuel with
  | O => None
  | S fuel' => inv_loop fuel' mod_ (inv_step mod_ st)
  end.

(** [512] rounds are enough (theorem [vli_mod_inv_spec]). *)
Definition vli_mod_inv_loop (input mod_ : list Z) : option (list Z) :=
  inv_loop 512 mod_ (InvState input mod_ [1; 0; 0; 0] vli_clear).
Definition vli_mod_inv (input mod_ : list Z) : list Z :=
  if vli_is_zero input then vli_clear else default vli_clear (vli_mod_inv_loop input mod_).

(** ** Sums and differences *)

Lemma curve_p_ok : vli_ok curve_p.
Proof. split; [done|]. repeat constructor; lia. Qed.
Lemma P256_pos : 0 < P256.
Proof. reflexivity. Qed.
Lemma P256_neq : P256 <> 0.
Proof. pose proof P256_pos. lia. Qed.
#[export] Hint Resolve P256_pos P256_neq : width.
Lemma curve_p_val : eval curve_p = P256.
Proof. reflexivity. Qed.

Lemma vli_mod_add_spec a b m : vli_ok a -> vli_ok b -> vli_ok m ->
  eval a < eval m -> eval b < eval m ->
  vli_ok (vli_mod_add a b m) /\ eval (vli_mod_add a b m) = (eval a + eval b) mod eval m.
Proof.
  intros Ha Hb Hm Hlta Hltb. unfold vli_mod_add.
  destruct (vli_add_spec a b Ha Hb) as (s & c & -> & Hs & Hc & He).
  pose proof (vli_range a Ha). pose proof (vli_range b Hb). pose proof (vli_range s Hs).
  pose proof (vli_range m Hm).
  destruct (truth c || (0 <=? vli_cmp s m)) eqn:E.
  - destruct (vli_sub_spec s m Hs Hm) as (d & o & -> & Hd & Ho & Hv). cbn.
    pose proof (vli_range d Hd). split; [done|].
    assert (Hge : eval m <= eval s + 2 ^ 256 * c).
    { apply orb_true_iff in E as [E | E].
      - apply truth_true in E. lia.
      - apply Z.leb_le, vli_cmp_nonneg in E; [lia | done | done]. }
    apply Z.mod_unique_pos with (q := 1); lia.
  - apply orb_false_iff in E as [E1 E2]. apply truth_false in E1 as ->.
    apply Z.leb_gt in E2. split; [done|].
    assert (eval s < eval m).
    { destruct (Z.lt_ge_cases (eval s) (eval m)); [done|].
      apply (proj2 (vli_cmp_nonneg s m Hs Hm)) in H3. lia. }
    rewrite Z.mod_small; lia.
Qed.

Lemma vli_mod_sub_spec a b m : vli_ok a -> vli_ok b -> vli_ok m ->
  eval a < eval m -> eval b < eval m ->
  vli_ok (vli_mod_sub a b m) /\ eval (vli_mod_sub a b m) = (eval a - eval b) mod eval m.
Proof.
  intros Ha Hb Hm Hlta Hltb. unfold vli_mod_sub.
  destruct (vli_sub_spec a b Ha Hb) as (s & c & -> & Hs & Hc & He).
  pose proof (vli_range a Ha). pose proof (vli_range b Hb). pose proof (vli_range s Hs).
  pose proof (vli_range m Hm).
  destruct (truth c) eqn:E.
  - apply truth_true in E. destruct (vli_add_spec s m Hs Hm) as (d & o & -> & Hd & Ho & Hv). cbn.
    pose proof (vli_range d Hd). split; [done|]. apply Z.mod_unique_pos with (q := -1); lia.
  - apply truth_false in E as ->. split; [done|]. rewrite Z.mod_small; lia.
Qed.

(** ** The fast reduction

    The 32-bit halves of the digits of the product. *)

Lemma high32_eq x : is_u64 x -> high32 x = 0x100000000 * (x / 0x100000000).
Proof.
  intros Hx. unfold high32. replace 0xffffffff00000000 with (Z.shiftl (Z.ones 32) 32) by done.
  replace x with (Z.lor (x mod 0x100000000) (Z.shiftl (x / 0x100000000) 32)) at 1.
  - rewrite Z.land_lor_distr_l, <-Z.shiftl_land, land_shiftl_0, Z.land_ones by (lia || (split; zlia)).
    rewrite Z.lor_0_l, Z.shiftl_mul_pow2, Z.mod_small by (lia || (split; zlia)). lia.
  - rewrite lor_shiftl_add by (lia || (split; zlia)). zlia.
Qed.
Lemma low32_eq x : low32 x = x mod 0x100000000.
Proof. exact (land_ones_mod x 32 ltac:(lia)). Qed.
Lemma shl32_eq x : u64 (Z.shiftl x 32) = 0x100000000 * (x mod 0x100000000).
Proof. rewrite Z.shiftl_mul_pow2 by lia. unfold u64. zlia. Qed.
Lemma shr32_eq x : Z.shiftr x 32 = x / 0x100000000.
Proof. by rewrite Z.shiftr_div_pow2 by lia. Qed.

Lemma lor_halves a b : 0 <= a < 0x100000000 -> 0 <= b ->
  Z.lor a (0x100000000 * b) = a + 0x100000000 * b.
Proof.
  intros Ha Hb. replace (0x100000000 * b) with (Z.shiftl b 32)
    by (rewrite Z.shiftl_mul_pow2 by lia; lia).
  rewrite lor_shiftl_add by (lia || done). rewrite Z.shiftl_mul_pow2 by lia. done.
Qed.

Lemma join32_eq x y : is_u64 x -> is_u64 y ->
  join32 x y = x / 0x100000000 + 0x100000000 * (y mod 0x100000000).
Proof.
  intros Hx Hy. unfold join32. rewrite shr32_eq, shl32_eq. apply lor_halves; [split|]; zlia.
Qed.
Lemma join_high_eq x y : is_u64 x -> is_u64 y ->
  join_high x y = x / 0x100000000 + 0x100000000 * (y / 0x100000000).
Proof.
  intros Hx Hy. unfold join_high. rewrite shr32_eq, high32_eq by done.
  apply lor_halves; [split|]; zlia.
Qed.

(** One step adds the value of [tmp]; [reduced V st]: the state stands for [V]. *)
Definition reduced (V : Z) (st : list Z * Z) : Prop :=
  vli_ok st.1 /\ eval st.1 + 2 ^ 256 * st.2 = V.

Lemma reduce_add_spec V st tmp : reduced V st -> vli_ok tmp ->
  reduced (V + eval tmp) (reduce_add st tmp).
Proof.
  destruct st as [r c]. intros [Hr HV] Ht. unfold reduce_add, reduced in *. cbn in *.
  destruct (vli_add_spec r tmp Hr Ht) as (s & o & -> & Hs & Ho & He). cbn. split; [done | lia].
Qed.
Lemma reduce_sub_spec V st tmp : reduced V st -> vli_ok tmp ->
  reduced (V - eval tmp) (reduce_sub st tmp).
Proof.
  destruct st as [r c]. intros [Hr HV] Ht. unfold reduce_sub, reduced in *. cbn in *.
  destruct (vli_sub_spec r tmp Hr Ht) as (s & o & -> & Hs & Ho & He). cbn. split; [done | lia].
Qed.
Lemma reduce_add2_spec V st tmp : reduced V st -> vli_ok tmp ->
  reduced (V + 2 * eval tmp) (reduce_add2 st tmp).
Proof.
  destruct st as [r c]. intros [Hr HV] Ht. unfold reduce_add2.
  destruct (vli_lshift1_spec tmp Ht) as (s & o & -> & Hs & Ho & He).
  replace (V + 2 * eval tmp) with (V + 2 ^ 256 * o + eval s) by lia.
  apply reduce_add_spec; [|done]. unfold reduced in *. cbn in *. split; [done | lia].
Qed.

Lemma vli_ok4 a b c d : is_u64 a -> is_u64 b -> is_u64 c -> is_u64 d -> vli_ok [a; b; c; d].
Proof. intros. split; [done|]. unfold digits. rewrite !Forall_cons. auto. Qed.

#[local] Opaque reduce_add reduce_add2 reduce_sub.

(** The value before the final loops: congruent to the product, and within eight
    times the modulus. *)
Lemma vli_mmod_sum_spec product : length product = 8%nat -> digits product ->
  exists V q, reduced V (vli_mmod_sum product) /\ V = eval product - P256 * q /\
    - (8 * P256) < V < 8 * P256.
Proof.
  intros Hl Hd.
  destruct product as [|p0 [|p1 [|p2 [|p3 [|p4 [|p5 [|p6 [|p7 [|? ?]]]]]]]]]; try done. clear Hl.
  unfold digits in Hd. rewrite !Forall_cons in Hd.
  destruct Hd as (H0 & H1 & H2 & H3 & H4 & H5 & H6 & H7 & _).
  unfold vli_mmod_sum. cbn [nth take]. rewrite !join32_eq, !join_high_eq, !high32_eq, !low32_eq,
    !shl32_eq, !shr32_eq by done. rewrite !lor_halves by (lia || (split; zlia) || zlia).
  assert (Hh : ∀ p, is_u64 p -> exists l h, p = l + 0x100000000 * h /\ p mod 0x100000000 = l /\
    p / 0x100000000 = h /\ 0 <= l < 0x100000000 /\ 0 <= h < 0x100000000).
  { intros p Hp. exists (p mod 0x100000000), (p / 0x100000000). split_and!; zlia. }
  destruct (Hh p4 H4) as (l4 & h4 & E4 & -> & -> & L4).
  destruct (Hh p5 H5) as (l5 & h5 & E5 & -> & -> & L5).
  destruct (Hh p6 H6) as (l6 & h6 & E6 & -> & -> & L6).
  destruct (Hh p7 H7) as (l7 & h7 & E7 & -> & -> & L7).
  eexists _, (1 * l4 +
    4294967297 * h4 +
    18446744078004518912 * l5 +
    79228162532711081667253501951 * h5 +
    340282367000166625977638945021017194495 * l6 +
    1461501637671185285124623296161210883009696235519 * h6 +
    6277101736848182401166692341332123086285927382448418586623 * l7 +
    26959946673427741530053695850515137729844644212646842236464328081408 * h7).
  split.
  { repeat (apply reduce_add_spec || apply reduce_sub_spec || apply reduce_add2_spec
      || (apply vli_ok4; lia)).
    split; [by apply vli_ok4 | cbn; reflexivity]. }
  cbn [eval fst snd]. subst p4 p5 p6 p7. clear Hh H4 H5 H6 H7.
  unfold P256. split; lia.
Qed.

Lemma reduced_sign V st : reduced V st -> (st.2 < 0 <-> V < 0) /\ (st.2 = 0 -> 0 <= V < 2 ^ 256).
Proof.
  destruct st as [r c]. intros [Hr HV]. cbn [fst snd] in *. pose proof (vli_range _ Hr) as Br.
  revert HV Br. generalize (eval r). change (2 ^ 256) with (Z.pow_pos 2 256).
  generalize (Z.pow_pos 2 256) as W. intros W e HV Br. split; [split; nia | nia].
Qed.

Lemma reduce_up_spec fuel V st : reduced V st -> V < 0 -> - (Z.of_nat fuel * P256) <= V ->
  exists s, reduce_up fuel st.1 st.2 = Some s /\ vli_ok s /\ eval s = V mod P256.
Proof.
  revert V st. induction fuel as [|fuel IH]; intros V [r c] Hst HV Hf; [clear Hst; lia|].
  cbn [reduce_up fst snd].
  pose proof (reduce_add_spec V (r, c) curve_p Hst curve_p_ok) as Hn. rewrite curve_p_val in Hn.
  destruct (reduce_add (r, c) curve_p) as [r' c']. pose proof (reduced_sign _ _ Hn) as [Hneg H0].
  cbn [fst snd] in *. destruct (Z.ltb_spec c' 0) as [Hc | Hc].
  - destruct (IH _ (r', c') Hn ltac:(lia) ltac:(unfold P256 in *; lia)) as (s & Hs & Hok & He).
    exists s. split_and!; [done.. |]. rewrite He.
    replace (V + P256) with (V + 1 * P256) by lia. apply Z.mod_add, P256_neq.
  - destruct Hn as [Hr Hv]. cbn in Hr, Hv. exists r'. split_and!; [done.. |].
    assert (0 <= V + P256) by lia. pose proof (vli_range r' Hr).
    assert (c' = 0) as -> by (unfold P256 in *; lia).
    apply Z.mod_unique_pos with (q := -1); lia.
Qed.

Lemma reduce_down_spec fuel V st : reduced V st -> 0 <= V -> V < Z.of_nat fuel * P256 ->
  exists s, reduce_down fuel st.1 st.2 = Some s /\ vli_ok s /\ eval s = V mod P256.
Proof.
  revert V st. induction fuel as [|fuel IH]; intros V [r c] Hst HV Hf; [clear Hst; lia|].
  cbn [reduce_down fst snd]. pose proof (reduced_sign _ _ Hst) as [Hneg H0].
  pose proof Hst as [Hr Hv]. cbn [fst snd] in *. pose proof (vli_range r Hr) as Br.
  assert (Hcond : truth c || negb (vli_cmp curve_p r =? 1) = (P256 <=? V)).
  { pose proof (vli_cmp_pos curve_p r curve_p_ok Hr) as Hcmp. rewrite curve_p_val in Hcmp.
    unfold truth. destruct (Z.eqb_spec c 0) as [-> | Hc]; cbn [negb orb].
    - destruct (Z.eqb_spec (vli_cmp curve_p r) 1) as [E | E]; symmetry.
      + apply Z.leb_gt. apply Hcmp in E. lia.
      + apply Z.leb_le. destruct (Z.lt_ge_cases (eval r) P256) as [L | L]; [by apply Hcmp in L | lia].
    - symmetry. apply Z.leb_le. unfold P256. lia. }
  rewrite Hcond. destruct (Z.leb_spec P256 V) as [Hp | Hp].
  - pose proof (reduce_sub_spec V (r, c) curve_p Hst curve_p_ok) as Hn. rewrite curve_p_val in Hn.
    destruct (reduce_sub (r, c) curve_p) as [r' c'].
    destruct (IH _ (r', c') Hn ltac:(lia) ltac:(unfold P256 in *; lia)) as (s & Hs & Hok & He).
    exists s. split_and!; [done.. |]. rewrite He.
    replace (V - P256) with (V + (-1) * P256) by lia. apply Z.mod_add, P256_neq.
  - exists r. split_and!; [done.. |]. rewrite Z.mod_small by lia.
    assert (c = 0) as -> by (unfold P256 in *; lia). lia.
Qed.

Lemma vli_mmod_loops_spec product : length product = 8%nat -> digits product ->
  exists s, vli_mmod_loops product = Some s /\ vli_ok s /\ eval s = eval product mod P256.
Proof.
  intros Hl Hd. destruct (vli_mmod_sum_spec product Hl Hd) as (V & q & HV & Hq & Hb).
  unfold vli_mmod_loops. destruct (vli_mmod_sum product) as [r c].
  pose proof (reduced_sign _ _ HV) as [Hneg _]. cbn [snd] in Hneg.
  assert (Hm : V mod P256 = eval product mod P256).
  { replace V with (eval product + - q * P256) by lia. rewrite Z.mod_add by auto with width. done. }
  rewrite <-Hm. destruct (Z.ltb_spec c 0).
  - apply (reduce_up_spec 16 V (r, c)); [done | lia..].
  - apply (reduce_down_spec 16 V (r, c)); [done | lia..].
Qed.

Lemma vli_mmod_fast_eval product : length product = 8%nat -> digits product ->
  vli_ok (vli_mmod_fast product) /\ eval (vli_mmod_fast product) = eval product mod P256.
Proof.
  intros Hl Hd. unfold vli_mmod_fast.
  destruct (vli_mmod_loops_spec product Hl Hd) as (s & -> & Hs & He). done.
Qed.

Lemma vli_mod_mult_fast_spec a b : vli_ok a -> vli_ok b ->
  vli_ok (vli_mod_mult_fast a b) /\
  eval (vli_mod_mult_fast a b) = (eval a * eval b - mult_lost a b) mod P256.
Proof.
  intros Ha Hb. destruct (vli_mult_eval a b Ha Hb) as (Hl & Hd & _ & He).
  unfold vli_mod_mult_fast. rewrite <-He. by apply vli_mmod_fast_eval.
Qed.

Lemma vli_mod_square_fast_spec a : vli_ok a ->
  vli_ok (vli_mod_square_fast a) /\
  eval (vli_mod_square_fast a) = (eval a * eval a - square_lost a) mod P256.
Proof.
  intros Ha. destruct (vli_square_eval a Ha) as (Hl & Hd & _ & He).
  unfold vli_mod_square_fast. rewrite <-He. by apply vli_mmod_fast_eval.
Qed.

Lemma mod_P256_range x : 0 <= x mod P256 < P256.
Proof. apply Z.mod_pos_bound, P256_pos. Qed.

(** ** Inversion

    The loop keeps [a = u * input] and [b = v * input] modulo [mod], and the
    greatest common divisor of [a] and [b]; the product of [a] and [b] at least
    halves in every round. *)

Lemma EVEN_spec v : vli_ok v -> EVEN v = Z.even (eval v).
Proof.
  intros Hv. destruct (vli_inv v Hv) as (a & b & c & d & -> & _). unfold EVEN. cbn [nth eval].
  assert (Z.land a 1 = a mod 2) as -> by exact (land_ones_mod a 1 ltac:(lia)).
  apply eq_true_iff_eq. rewrite Z.eqb_eq, Z.even_spec. set (e := b + _). split.
  - intros H. exists (a / 2 + 0x8000000000000000 * e). zlia.
  - intros [k Hk]. zlia.
Qed.

Lemma set_top_spec v : vli_ok v -> eval v < 2 ^ 255 ->
  vli_ok (set_top v) /\ eval (set_top v) = eval v + 2 ^ 255.
Proof.
  intros Hv. destruct (vli_inv v Hv) as (a & b & c & d & -> & Ha & Hb & Hc & Hd). cbn [eval].
  intros Hlt. unfold set_top. cbn [alter list_alter].
  assert (Hd' : d < 2 ^ 63) by lia.
  assert (Hor : Z.lor d 0x8000000000000000 = d + 2 ^ 63).
  { change 0x8000000000000000 with (Z.shiftl 1 63). rewrite lor_shiftl_add by lia. lia. }
  rewrite Hor. split; [apply vli_ok4; lia | cbn [eval]; lia].
Qed.

Lemma mod_halve_spec u m : vli_ok u -> vli_ok m -> Z.odd (eval m) = true -> eval u < eval m ->
  vli_ok (mod_halve u m) /\ eval (mod_halve u m) < eval m /\
  exists k, 2 * eval (mod_halve u m) = eval u + k * eval m.
Proof.
  intros Hu Hm Hodd Hlt. unfold mod_halve. rewrite EVEN_spec by done.
  pose proof (vli_range u Hu) as Bu. pose proof (vli_range m Hm) as Bm.
  apply Z.odd_spec in Hodd as [j Hj].
  destruct (Z.even (eval u)) eqn:E; cbn [negb].
  - apply Z.even_spec in E as [i Hi]. destruct (vli_rshift1_spec u Hu) as [Ho He]. cbn.
    split; [done|]. rewrite He. split; [zlia|]. exists 0. zlia.
  - rewrite <-Z.negb_odd in E. apply negb_false_iff, Z.odd_spec in E as [i Hi].
    destruct (vli_add_spec u m Hu Hm) as (s & c & -> & Hs & Hc & Hv).
    destruct (vli_rshift1_spec s Hs) as [Ho He]. pose proof (vli_range s Hs) as Bs.
    destruct (truth c) eqn:Ec.
    + apply truth_true in Ec. assert (c = 1) as -> by lia.
      destruct (set_top_spec _ Ho ltac:(rewrite He; zlia)) as [Ht Hte].
      split; [done|]. rewrite Hte, He.
      change (2 ^ 256) with (2 * 2 ^ 255) in *. split; [zlia|]. exists 1. zlia.
    + apply truth_false in Ec as ->. split; [done|]. rewrite He. split; [zlia|]. exists 1. zlia.
Qed.

Lemma inv_sub_spec u v m : vli_ok u -> vli_ok v -> vli_ok m -> eval u < eval m -> eval v < eval m ->
  vli_ok (inv_sub u v m) /\ eval (inv_sub u v m) < eval m /\
  exists k, eval (inv_sub u v m) = eval u - eval v + k * eval m.
Proof.
  intros Hu Hv Hm Hlu Hlv. unfold inv_sub.
  pose proof (vli_range u Hu). pose proof (vli_range v Hv). pose proof (vli_range m Hm).
  pose proof (vli_cmp_nonneg u v Hu Hv) as Hcmp. destruct (Z.ltb_spec (vli_cmp u v) 0) as [E | E].
  - destruct (vli_add_spec u m Hu Hm) as (s & c & -> & Hs & Hc & Hsv). cbn [fst].
    destruct (vli_sub_spec s v Hs Hv) as (r & o & -> & Hr & Ho & Hrv). cbn [fst].
    pose proof (vli_range r Hr).
    assert (eval u < eval v).
    { destruct (Z.lt_ge_cases (eval u) (eval v)); [done|]. apply Hcmp in H3. lia. }
    split; [done|]. split; [lia|]. exists 1. lia.
  - apply Hcmp in E. destruct (vli_sub_spec u v Hu Hv) as (r & o & -> & Hr & Ho & Hrv). cbn [fst].
    pose proof (vli_range r Hr). split; [done|]. split; [lia|]. exists 0. lia.
Qed.

Section Inversion.
Variables (mod_ : list Z) (X : Z).
Let M := eval mod_.
Hypothesis Hmod : vli_ok mod_.
Hypothesis Hodd : Z.odd M = true.

Record inv_good (st : inv_state) : Prop := {
  good_a : vli_ok (inv_a st); good_b : vli_ok (inv_b st);
  good_u : vli_ok (inv_u st); good_v : vli_ok (inv_v st);
  good_apos : 0 < eval (inv_a st); good_bpos : 0 < eval (inv_b st);
  good_ult : eval (inv_u st) < M; good_vlt : eval (inv_v st) < M;
  good_au : (M | eval (inv_a st) - eval (inv_u st) * X);
  good_bv : (M | eval (inv_b st) - eval (inv_v st) * X);
  good_gcd : Z.gcd (eval (inv_a st)) (eval (inv_b st)) = Z.gcd X M }.

(** Halving both sides of a congruence modulo an odd number. *)
Lemma halve_congruence a u r k :
  (M | 2 * a - u * X) -> 2 * r = u + k * M -> (M | a - r * X).
Proof.
  intros Hd Hr. apply (Z.gauss M 2).
  - replace (2 * (a - r * X)) with (2 * a - u * X - k * X * M) by nia.
    apply Z.divide_sub_r; [done | apply Z.divide_factor_r].
  - apply Z.odd_spec in Hodd as [j Hj]. rewrite Hj, Z.gcd_comm.
    replace (2 * j + 1) with (1 + j * 2) by lia. by rewrite Z.gcd_add_mult_diag_r.
Qed.

Lemma odd_gcd_2 b : Z.odd b = true -> Z.gcd 2 b = 1.
Proof.
  intros [j ->]%Z.odd_spec. replace (2 * j + 1) with (1 + j * 2) by lia.
  by rewrite Z.gcd_add_mult_diag_r.
Qed.
Lemma gcd_halve a b : Z.odd b = true -> Z.gcd (2 * a) b = Z.gcd a b.
Proof.
  intros Hb. pose proof (odd_gcd_2 b Hb) as H2.
  apply Z.gcd_unique; [apply Z.gcd_nonneg | | apply Z.gcd_divide_r |].
  - apply Z.divide_trans with a; [apply Z.gcd_divide_l | apply Z.divide_factor_r].
  - intros q Hq Hqb. apply Z.gcd_greatest; [|done]. apply (Z.gauss q 2); [done|].
    apply Z.divide_antisym_nonneg; [apply Z.gcd_nonneg | lia | | apply Z.divide_1_l].
    rewrite <-H2. apply Z.gcd_greatest; [apply Z.gcd_divide_r |].
    apply Z.divide_trans with q; [apply Z.gcd_divide_l | done].
Qed.

(** One of [a] and [b] is odd. *)
Lemma good_odd st : inv_good st ->
  EVEN (inv_a st) = true -> Z.odd (eval (inv_b st)) = true.
Proof.
  intros Hg Ha. rewrite EVEN_spec in Ha by apply Hg. apply Z.even_spec in Ha as [i Hi].
  destruct (Z.odd (eval (inv_b st))) eqn:E; [done|].
  rewrite <-Z.negb_even in E. apply negb_false_iff, Z.even_spec in E as [j Hj].
  assert (H2 : (2 | Z.gcd X M)).
  { rewrite <-(good_gcd st Hg). apply Z.gcd_greatest; [rewrite Hi | rewrite Hj];
    apply Z.divide_factor_l. }
  assert (HM : (2 | M)) by (apply Z.divide_trans with (Z.gcd X M); [done | apply Z.gcd_divide_r]).
  apply Z.odd_spec in Hodd as [n Hn]. destruct HM as [k Hk]. lia.
Qed.

(** A round on one side: [a' = (a - e) / 2] and [u' = (u - f) / 2], where [e] and
    [f] correspond. *)
Lemma round_spec a u a' w :
  2 * a' = a -> vli_ok w -> eval w < M -> (M | a - eval w * X) -> u = mod_halve w mod_ ->
  vli_ok u /\ eval u < M /\ (M | a' - eval u * X).
Proof.
  intros Ha Hw Hlt Hd ->. destruct (mod_halve_spec w mod_ Hw Hmod Hodd Hlt) as (H1 & H2 & k & H3).
  split_and!; [done.. |]. apply (halve_congruence a' (eval w) _ k); [by rewrite Ha | done].
Qed.

Lemma sub_congruence a b u v w k :
  (M | a - u * X) -> (M | b - v * X) -> w = u - v + k * M -> (M | (a - b) - w * X).
Proof.
  intros Ha Hb ->. replace (a - b - (u - v + k * M) * X) with ((a - u * X) - (b - v * X) - k * X * M)
    by ring.
  apply Z.divide_sub_r; [by apply Z.divide_sub_r | apply Z.divide_factor_r].
Qed.

Lemma even_rshift a : vli_ok a -> EVEN a = true ->
  vli_ok (vli_rshift1 a) /\ 2 * eval (vli_rshift1 a) = eval a.
Proof.
  intros Ha He. rewrite EVEN_spec in He by done. apply Z.even_spec in He as [i Hi].
  destruct (vli_rshift1_spec a Ha) as [Ho ->]. split; [done | zlia].
Qed.

(** The difference of two odd numbers, halved. *)
Lemma odd_sub_rshift a b : vli_ok a -> vli_ok b -> EVEN a = false -> EVEN b = false ->
  eval b < eval a ->
  vli_ok (vli_rshift1 (vli_sub a b).1) /\
  2 * eval (vli_rshift1 (vli_sub a b).1) = eval a - eval b /\ 0 < eval (vli_rshift1 (vli_sub a b).1).
Proof.
  intros Ha Hb Ea Eb Hlt. rewrite EVEN_spec in Ea, Eb by done.
  rewrite <-Z.negb_odd in Ea, Eb. apply negb_false_iff, Z.odd_spec in Ea as [i Hi].
  apply negb_false_iff, Z.odd_spec in Eb as [j Hj].
  destruct (vli_sub_spec a b Ha Hb) as (s & c & -> & Hs & Hc & Hv). cbn [fst].
  pose proof (vli_range a Ha). pose proof (vli_range b Hb). pose proof (vli_range s Hs).
  destruct (vli_rshift1_spec s Hs) as [Ho ->]. assert (c = 0) as -> by lia.
  split; [done|]. split; zlia.
Qed.

Lemma inv_step_good st : inv_good st -> vli_cmp (inv_a st) (inv_b st) <> 0 ->
  inv_good (inv_step mod_ st) /\
  2 * (eval (inv_a (inv_step mod_ st)) * eval (inv_b (inv_step mod_ st)))
    <= eval (inv_a st) * eval (inv_b st).
Proof.
  intros Hg Hne. pose proof (good_odd st Hg) as Hob. destruct st as [a b u v].
  destruct Hg as [Ha Hb Hu Hv Ap Bp Ul Vl Hau Hbv Hgcd].
  cbn [inv_step inv_a inv_b inv_u inv_v] in *.
  pose proof (EVEN_spec a Ha) as Ea. pose proof (EVEN_spec b Hb) as Eb.
  destruct (EVEN a) eqn:Ga; [|destruct (EVEN b) eqn:Gb; [|destruct (Z.ltb_spec 0 (vli_cmp a b)) as [L | L]]].
  - destruct (even_rshift a Ha Ga) as [Ho He].
    destruct (round_spec (eval a) _ _ u He Hu Ul Hau eq_refl) as (H1 & H2 & H3).
    split; [|cbn [inv_a inv_b]; nia]. constructor; cbn [inv_a inv_b inv_u inv_v]; try done; [lia|].
    by rewrite <-Hgcd, <-He, gcd_halve by (by apply Hob).
  - destruct (even_rshift b Hb Gb) as [Ho He].
    destruct (round_spec (eval b) _ _ v He Hv Vl Hbv eq_refl) as (H1 & H2 & H3).
    split; [|cbn [inv_a inv_b]; nia]. constructor; cbn [inv_a inv_b inv_u inv_v]; try done; [lia|].
    rewrite Z.gcd_comm, <-Hgcd, (Z.gcd_comm (eval a)), <-He, gcd_halve; [done|].
    by rewrite <-Z.negb_even, <-Ea.
  - rewrite vli_cmp_spec in L by done.
    destruct (odd_sub_rshift a b Ha Hb Ga Gb ltac:(lia)) as (Ho & He & Hp).
    destruct (inv_sub_spec u v mod_ Hu Hv Hmod Ul Vl) as (Hw & Wl & k & Hwv).
    pose proof (sub_congruence _ _ _ _ _ _ Hau Hbv Hwv) as Hd.
    destruct (round_spec _ _ _ _ He Hw Wl Hd eq_refl) as (H1 & H2 & H3).
    split; [|cbn [inv_a inv_b]; nia]. constructor; cbn [inv_a inv_b inv_u inv_v]; try done.
    rewrite <-gcd_halve, He, Z.gcd_comm, Z.gcd_sub_diag_r, Z.gcd_comm; [done|].
    by rewrite <-Z.negb_even, <-Eb.
  - rewrite vli_cmp_spec in L, Hne by done.
    destruct (odd_sub_rshift b a Hb Ha Gb Ga ltac:(lia)) as (Ho & He & Hp).
    destruct (inv_sub_spec v u mod_ Hv Hu Hmod Vl Ul) as (Hw & Wl & k & Hwv).
    pose proof (sub_congruence _ _ _ _ _ _ Hbv Hau Hwv) as Hd.
    destruct (round_spec _ _ _ _ He Hw Wl Hd eq_refl) as (H1 & H2 & H3).
    split; [|cbn [inv_a inv_b]; nia]. constructor; cbn [inv_a inv_b inv_u inv_v]; try done.
    rewrite Z.gcd_comm, <-gcd_halve, He, Z.gcd_comm, Z.gcd_sub_diag_r; [done|].
    by rewrite <-Z.negb_even, <-Ea.
Qed.

(** The loop ends before the product of [a] and [b] would fall below one. *)
Lemma inv_loop_good n st : inv_good st -> eval (inv_a st) * eval (inv_b st) < 2 ^ Z.of_nat n ->
  exists r, inv_loop n mod_ st = Some r /\ vli_ok r /\ eval r < M /\
    (M | Z.gcd X M - eval r * X).
Proof.
  revert st. induction n as [|n IH]; intros st Hg Hn; cbn [inv_loop];
    (destruct (Z.eqb_spec (vli_cmp (inv_a st) (inv_b st)) 0) as [E | E];
     [exists (inv_u st); split; [done|] |]).
  1,3: pose proof Hg as [Ha Hb Hu Hv Ap Bp Ul Vl Hau Hbv Hgcd];
    rewrite vli_cmp_spec, Z.sgn_null_iff in E by done;
    (split; [done|]); (split; [done|]);
    rewrite <-Hgcd; replace (eval (inv_b st)) with (eval (inv_a st)) by lia;
    by rewrite Z.gcd_diag, Z.abs_eq by lia.
  - destruct Hg. change (2 ^ Z.of_nat 0) with 1 in Hn. nia.
  - destruct (inv_step_good st Hg E) as [Hg' Hle]. apply IH; [done|].
    rewrite Nat2Z.inj_succ, Z.pow_succ_r in Hn by lia. lia.
Qed.
End Inversion.

Lemma vli_mod_inv_loop_spec input m : vli_ok input -> vli_ok m -> Z.odd (eval m) = true ->
  0 < eval input < eval m ->
  exists r, vli_mod_inv_loop input m = Some r /\ vli_ok r /\ eval r < eval m /\
    (eval r * eval input) mod eval m = Z.gcd (eval input) (eval m) mod eval m.
Proof.
  intros Hi Hm Hodd Hr. pose proof (vli_range m Hm) as Bm.
  destruct (inv_loop_good m (eval input) Hm Hodd 512 (InvState input m [1; 0; 0; 0] vli_clear))
    as (r & Hl & Hok & Hlt & k & Hk).
  - constructor; cbn [inv_a inv_b inv_u inv_v]; try done; try lia.
    + by apply vli_ok4.
    + apply vli_clear_ok.
    + change (eval [1; 0; 0; 0]) with 1. lia.
    + change (eval vli_clear) with 0. lia.
    + change (eval [1; 0; 0; 0]) with 1. rewrite Z.mul_1_l, Z.sub_diag. apply Z.divide_0_r.
    + change (eval vli_clear) with 0. rewrite Z.mul_0_l, Z.sub_0_r. apply Z.divide_refl.
  - cbn [inv_a inv_b]. change (2 ^ Z.of_nat 512) with (2 ^ 256 * 2 ^ 256). nia.
  - exists r. split_and!; [done.. |]. symmetry.
    replace (Z.gcd (eval input) (eval m)) with (eval r * eval input + k * eval m) by lia.
    apply Z.mod_add. lia.
Qed.

(** ** Theorems *)

(** C15: the fast reduction is reduction modulo the prime.  For every product of
    eight digits the final loops end within sixteen rounds, and [vli_mmod_fast]
    returns the remainder of its value modulo the prime of P-256. *)
Theorem vli_mmod_fast_spec product : length product = 8%nat -> digits product ->
  is_Some (vli_mmod_loops product) /\
  vli_ok (vli_mmod_fast product) /\ eval (vli_mmod_fast product) = eval product mod P256.
Proof.
  intros Hl Hd. destruct (vli_mmod_loops_spec product Hl Hd) as (s & Hs & _).
  split; [by exists s | by apply vli_mmod_fast_eval].
Qed.

Lemma vli_mmod_fast_spec_witness :
  eval (vli_mmod_fast (replicate 8 0xffffffffffffffff))
    = eval (replicate 8 0xffffffffffffffff) mod P256.
Proof.
  apply (vli_mmod_fast_spec (replicate 8 0xffffffffffffffff)); [done|].
  by apply (bool_decide_unpack _); vm_compute.
Defined.

(** C16: inversion terminates and is right.  For an odd modulus [m] and
    [0 < input < m] the binary algorithm ends within 512 rounds, and its result,
    below [m], times [input] is the greatest common divisor of the two modulo
    [m] - one, when they are coprime.  The inverse of zero is zero. *)
Theorem vli_mod_inv_spec input m : vli_ok input -> vli_ok m -> Z.odd (eval m) = true ->
  0 <= eval input < eval m ->
  (eval input = 0 -> vli_mod_inv input m = vli_clear) /\
  (0 < eval input -> is_Some (vli_mod_inv_loop input m)) /\
  vli_ok (vli_mod_inv input m) /\ eval (vli_mod_inv input m) < eval m /\
  (Z.gcd (eval input) (eval m) = 1 -> 1 < eval m ->
   (eval (vli_mod_inv input m) * eval input) mod eval m = 1).
Proof.
  intros Hi Hm Hodd Hr. unfold vli_mod_inv. rewrite vli_is_zero_spec by apply Hi.
  destruct (Z.eqb_spec (eval input) 0) as [E | E].
  - split_and!; [done | lia | apply vli_clear_ok | change (eval vli_clear) with 0; lia |].
    intros Hg H1. rewrite E, Z.gcd_0_l in Hg. lia.
  - destruct (vli_mod_inv_loop_spec input m Hi Hm Hodd ltac:(lia)) as (r & Hl & Hok & Hlt & Hv).
    rewrite Hl. cbn [default]. split_and!; [done | by exists r | done | done |].
    intros Hg H1. rewrite Hg in Hv. by rewrite Z.mod_1_l in Hv.
Qed.

Lemma vli_mod_inv_spec_witness :
  (eval (vli_mod_inv [5; 0; 7; 0] curve_p) * eval [5; 0; 7; 0]) mod eval curve_p = 1.
Proof.
  apply (vli_mod_inv_spec [5; 0; 7; 0] curve_p);
    [by apply (bool_decide_unpack _); vm_compute.. | done | by vm_compute | done | done].
Defined.
