(* ===== verification/Ecc.v ===== *)
(** * The curve P-256

    The points, the ladder and the interface of [src/blueZ/src/shared/ecc.c],
    which [prov.c] uses for the key exchange of provisioning.  [rnd] are the
    draws of 32 octets that [get_random_number] makes, [None] for one that
    fails. *)

From S2P Require Import Prelude Bytes Vli VliMod.

Definition ECC_BYTES : Z := 32.
Definition MAX_TRIES : nat := 16.

Record ecc_point := EccPoint { pt_x : list Z; pt_y : list Z }.

Definition curve_g : ecc_point := EccPoint
  [0xF4A13945D898C296; 0x77037D812DEB33A0; 0xF8BCE6E563A440F2; 0x6B17D1F2E12C4247]
  [0xCBB6406837BF51F5; 0x2BCE33576B315ECE; 0x8EE7EB4A7C0F9E16; 0x4FE342E2FE1A7F9B].
Definition curve_n : list Z :=
  [0xF3B9CAC2FC632551; 0xBCE6FAADA7179E84; 0xFFFFFFFFFFFFFFFF; 0xFFFFFFFF00000000].
Definition curve_b : list Z :=
  [0x3BCE3C3E27D2604B; 0x651D06B0CC53B0F6; 0xB3EBBD55769886BC; 0x5AC635D8AA3A93E7].

Definition ecc_point_is_zero (point : ecc_point) : bool :=
  vli_is_zero (pt_x point) && vli_is_zero (pt_y point).

(** ** Point operations

    The registers of each routine carry the names of its comments. *)

Definition ecc_point_double_jacobian (x1 y1 z1 : list Z) : list Z * list Z * list Z :=
  if vli_is_zero z1 then (x1, y1, z1) else
  let t4 := vli_mod_square_fast y1 in
  let t5 := vli_mod_mult_fast x1 t4 in
  let t4 := vli_mod_square_fast t4 in
  let y1 := vli_mod_mult_fast y1 z1 in
  let z1 := vli_mod_square_fast z1 in
  let x1 := vli_mod_add x1 z1 curve_p in
  let z1 := vli_mod_add z1 z1 curve_p in
  let z1 := vli_mod_sub x1 z1 curve_p in
  let x1 := vli_mod_mult_fast x1 z1 in
  let z1 := vli_mod_add x1 x1 curve_p in
  let x1 := vli_mod_add x1 z1 curve_p in
  let x1 :=
    if truth (vli_test_bit x1 0) then
      let '(x1, carry) := vli_add x1 curve_p in
      alter (fun d => Z.lor d (u64 (Z.shiftl carry 63))) 3%nat (vli_rshift1 x1)
    else vli_rshift1 x1 in
  let z1 := vli_mod_square_fast x1 in
  let z1 := vli_mod_sub z1 t5 curve_p in
  let z1 := vli_mod_sub z1 t5 curve_p in
  let t5 := vli_mod_sub t5 z1 curve_p in
  let x1 := vli_mod_mult_fast x1 t5 in
  let t4 := vli_mod_sub x1 t4 curve_p in
  (z1, t4, y1).

Definition apply_z (x1 y1 z : list Z) : list Z * list Z :=
  let t1 := vli_mod_square_fast z in
  let x1 := vli_mod_mult_fast x1 t1 in
  let t1 := vli_mod_mult_fast t1 z in
  (x1, vli_mod_mult_fast y1 t1).

(** [(x1, y1, x2, y2)] after the call. *)
Definition xycz_initial_double (x1 y1 : list Z) (initial_z : option (list Z))
    : list Z * list Z * list Z * list Z :=
  let x2 := x1 in
  let y2 := y1 in
  let z := default [1; 0; 0; 0] initial_z in
  let '(x1, y1) := apply_z x1 y1 z in
  let '(x1, y1, z) := ecc_point_double_jacobian x1 y1 z in
  let '(x2, y2) := apply_z x2 y2 z in
  (x1, y1, x2, y2).

Definition xycz_add (x1 y1 x2 y2 : list Z) : list Z * list Z * list Z * list Z :=
  let t5 := vli_mod_sub x2 x1 curve_p in
  let t5 := vli_mod_square_fast t5 in
  let x1 := vli_mod_mult_fast x1 t5 in
  let x2 := vli_mod_mult_fast x2 t5 in
  let y2 := vli_mod_sub y2 y1 curve_p in
  let t5 := vli_mod_square_fast y2 in
  let t5 := vli_mod_sub t5 x1 curve_p in
  let t5 := vli_mod_sub t5 x2 curve_p in
  let x2 := vli_mod_sub x2 x1 curve_p in
  let y1 := vli_mod_mult_fast y1 x2 in
  let x2 := vli_mod_sub x1 t5 curve_p in
  let y2 := vli_mod_mult_fast y2 x2 in
  let y2 := vli_mod_sub y2 y1 curve_p in
  (x1, y1, t5, y2).

Definition xycz_add_c (x1 y1 x2 y2 : list Z) : list Z * list Z * list Z * list Z :=
  let t5 := vli_mod_sub x2 x1 curve_p in
  let t5 := vli_mod_square_fast t5 in
  let x1 := vli_mod_mult_fast x1 t5 in
  let x2 := vli_mod_mult_fast x2 t5 in
  let t5 := vli_mod_add y2 y1 curve_p in
  let y2 := vli_mod_sub y2 y1 curve_p in
  let t6 := vli_mod_sub x2 x1 curve_p in
  let y1 := vli_mod_mult_fast y1 t6 in
  let t6 := vli_mod_add x1 x2 curve_p in
  let x2 := vli_mod_square_fast y2 in
  let x2 := vli_mod_sub x2 t6 curve_p in
  let t7 := vli_mod_sub x1 x2 curve_p in
  let y2 := vli_mod_mult_fast y2 t7 in
  let y2 := vli_mod_sub y2 y1 curve_p in
  let t7 := vli_mod_square_fast t5 in
  let t7 := vli_mod_sub t7 t6 curve_p in
  let t6 := vli_mod_sub t7 x1 curve_p in
  let t6 := vli_mod_mult_fast t6 t5 in
  let y1 := vli_mod_sub t6 y1 curve_p in
  (t7, y1, x2, y2).

(** ** The ladder

    [rx[0], ry[0], rx[1], ry[1]].  [f rx[1 - nb] ry[1 - nb] rx[nb] ry[nb]] is
    [f] on the registers in that order. *)
Record ladder := Ladder { rx0 : list Z; ry0 : list Z; rx1 : list Z; ry1 : list Z }.

Definition on_ladder (f : list Z -> list Z -> list Z -> list Z -> list Z * list Z * list Z * list Z)
    (first_is_1 : bool) (r : ladder) : ladder :=
  if first_is_1 then
    let '(a, b, c, d) := f (rx1 r) (ry1 r) (rx0 r) (ry0 r) in Ladder c d a b
  else
    let '(a, b, c, d) := f (rx0 r) (ry0 r) (rx1 r) (ry1 r) in Ladder a b c d.

(** [nb = !vli_test_bit(scalar, i)]: true for 1. *)
Definition ladder_nb (scalar : list Z) (i : Z) : bool := negb (truth (vli_test_bit scalar i)).

(** [for (i = num_bits - 2; i > 0; i--)], [n] rounds, the last with [i = 1]. *)
Fixpoint ladder_loop (n : nat) (scalar : list Z) (r : ladder) : ladder :=
  match n with
  | O => r
  | S n' =>
      let nb := ladder_nb scalar (Z.of_nat n) in
      let r := on_ladder xycz_add_c (negb nb) r in
      let r := on_ladder xycz_add nb r in
      ladder_loop n' scalar r
  end.

Definition ecc_point_mult (point : ecc_point) (scalar : list Z) (initial_z : option (list Z))
    (num_bits : Z) : ecc_point :=
  let '(x1, y1, x0, y0) := xycz_initial_double (pt_x point) (pt_y point) initial_z in
  let r := ladder_loop (Z.to_nat (num_bits - 2)) scalar (Ladder x0 y0 x1 y1) in
  let nb := ladder_nb scalar 0 in
  let r := on_ladder xycz_add_c (negb nb) r in
  let xb := if nb then rx0 r else rx1 r in
  let yb := if nb then ry0 r else ry1 r in
  let z := vli_mod_sub (rx1 r) (rx0 r) curve_p in
  let z := vli_mod_mult_fast z yb in
  let z := vli_mod_mult_fast z (pt_x point) in
  let z := vli_mod_inv z curve_p in
  let z := vli_mod_mult_fast z (pt_y point) in
  let z := vli_mod_mult_fast z xb in
  let r := on_ladder xycz_add nb r in
  let '(x, y) := apply_z (rx0 r) (ry0 r) z in
  EccPoint x y.

(** ** Points in memory and the interface *)

Definition ecc_valid_point (point : ecc_point) : bool :=
  if ecc_point_is_zero point then false else
  if negb (vli_cmp curve_p (pt_x point) =? 1) || negb (vli_cmp curve_p (pt_y point) =? 1)
  then false else
  let tmp1 := vli_mod_square_fast (pt_y point) in
  let tmp2 := vli_mod_square_fast (pt_x point) in
  let tmp2 := vli_mod_sub tmp2 [3; 0; 0; 0] curve_p in
  let tmp2 := vli_mod_mult_fast tmp2 (pt_x point) in
  let tmp2 := vli_mod_add tmp2 curve_b curve_p in
  vli_equal tmp1 tmp2.

(** The 32 octets at an offset, little endian, digit by digit. *)
Definition ecc_bytes2native (p : list Z) (off : Z) : res (list Z) :=
  d0 ← rd_range p off 8; d1 ← rd_range p (off + 8) 8;
  d2 ← rd_range p (off + 16) 8; d3 ← rd_range p (off + 24) 8;
  mret [of_le d0; of_le d1; of_le d2; of_le d3].

Definition ecc_native2bytes (native : list Z) : list Z := native ≫= to_le 8.

Definition read_point (public_key : list Z) : res ecc_point :=
  x ← ecc_bytes2native public_key 0;
  y ← ecc_bytes2native public_key 32;
  mret (EccPoint x y).

(** The result, and [public_key] afterwards. *)
Definition ecc_make_public_key (private_key public_key : list Z) : res (bool * list Z) :=
  priv ← ecc_bytes2native private_key 0;
  if vli_is_zero priv then mret (false, public_key) else
  if negb (vli_cmp curve_n priv =? 1) then mret (false, public_key) else
  let pk := ecc_point_mult curve_g priv None (vli_num_bits priv) in
  if ecc_point_is_zero pk then mret (false, public_key) else
  pub ← wr_range public_key 0 (ecc_native2bytes (pt_x pk));
  pub ← wr_range pub 32 (ecc_native2bytes (pt_y pk));
  mret (true, pub).

Definition random_source : Type := list (option (list Z)).
Definition get_random_number (rnd : random_source) : option (list Z) * random_source :=
  match rnd with [] => (None, []) | d :: rnd' => (d, rnd') end.

(** The loop of [ecc_make_key], with [n] tries left before [tries] reaches
    [MAX_TRIES].  [pk] is [None] until it is first assigned: [continue] goes to
    the loop condition, which reads it. *)
Fixpoint make_key_loop (n : nat) (rnd : random_source) (pk : option ecc_point)
    : res (option (list Z * ecc_point) * random_source) :=
  let '(draw, rnd) := get_random_number rnd in
  match draw, n with
  | None, _ | _, O => mret (None, rnd)
  | Some priv, S n' =>
      let pk :=
        if vli_is_zero priv || negb (vli_cmp curve_n priv =? 1) then pk
        else Some (ecc_point_mult curve_g priv None (vli_num_bits priv)) in
      match pk with
      | None => Fault Uninit
      | Some p => if ecc_point_is_zero p then make_key_loop n' rnd pk else mret (Some (priv, p), rnd)
      end
  end.

Definition ecc_make_key (rnd : random_source) (public_key private_key : list Z)
    : res (bool * list Z * list Z * random_source) :=
  '(r, rnd) ← make_key_loop MAX_TRIES rnd None;
  match r with
  | None => mret (false, public_key, private_key, rnd)
  | Some (priv, pk) =>
      private ← wr_range private_key 0 (ecc_native2bytes priv);
      pub ← wr_range public_key 0 (ecc_native2bytes (pt_x pk));
      pub ← wr_range pub 32 (ecc_native2bytes (pt_y pk));
      mret (true, pub, private, rnd)
  end.

Definition ecc_valid_public_key (public_key : list Z) : res bool :=
  pk ← read_point public_key; mret (ecc_valid_point pk).

Definition ecdh_shared_secret (rnd : random_source) (public_key private_key secret : list Z)
    : res (bool * list Z * random_source) :=
  let '(draw, rnd) := get_random_number rnd in
  match draw with
  | None => mret (false, secret, rnd)
  | Some z =>
      pk ← read_point public_key;
      if negb (ecc_valid_point pk) then mret (false, secret, rnd) else
      priv ← ecc_bytes2native private_key 0;
      let product := ecc_point_mult pk priv (Some z) (vli_num_bits priv) in
      secret ← wr_range secret 0 (ecc_native2bytes (pt_x product));
      mret (negb (ecc_point_is_zero product), secret, rnd)
  end.

(** ** Field elements: every register stays one *)

Definition field_ok (v : list Z) : Prop := vli_ok v /\ eval v < P256.

Lemma field_mult a b : vli_ok a -> vli_ok b -> field_ok (vli_mod_mult_fast a b).
Proof.
  intros Ha Hb. destruct (vli_mod_mult_fast_spec a b Ha Hb) as [H E]. split; [done|].
  rewrite E. apply mod_P256_range.
Qed.
Lemma field_square a : vli_ok a -> field_ok (vli_mod_square_fast a).
Proof.
  intros Ha. destruct (vli_mod_square_fast_spec a Ha) as [H E]. split; [done|].
  rewrite E. apply mod_P256_range.
Qed.
Lemma field_add a b : field_ok a -> field_ok b -> field_ok (vli_mod_add a b curve_p).
Proof.
  intros [Ha La] [Hb Lb]. rewrite <-curve_p_val in La, Lb.
  destruct (vli_mod_add_spec a b curve_p Ha Hb curve_p_ok La Lb) as [H E]. split; [done|].
  rewrite E, curve_p_val. apply mod_P256_range.
Qed.
Lemma field_sub a b : field_ok a -> field_ok b -> field_ok (vli_mod_sub a b curve_p).
Proof.
  intros [Ha La] [Hb Lb]. rewrite <-curve_p_val in La, Lb.
  destruct (vli_mod_sub_spec a b curve_p Ha Hb curve_p_ok La Lb) as [H E]. split; [done|].
  rewrite E, curve_p_val. apply mod_P256_range.
Qed.
Lemma field_vli a : field_ok a -> vli_ok a.
Proof. by intros [? _]. Qed.

Create HintDb field.
#[export] Hint Resolve field_mult field_square field_add field_sub field_vli vli_clear_ok : field.

Lemma vli_mod_inv_ok z : field_ok z -> field_ok (vli_mod_inv z curve_p).
Proof.
  intros [Hz Lz]. unfold vli_mod_inv. rewrite vli_is_zero_spec by apply Hz.
  destruct (Z.eqb_spec (eval z) 0) as [E | E].
  { split; [apply vli_clear_ok | reflexivity]. }
  pose proof (vli_range z Hz).
  destruct (vli_mod_inv_loop_spec z curve_p Hz curve_p_ok eq_refl
    ltac:(rewrite curve_p_val; lia)) as (r & -> & Hr & Lr & _).
  rewrite curve_p_val in Lr. done.
Qed.

(** The halving in the doubling: [3/2 * ...]. *)
Lemma double_half_ok x : field_ok x ->
  field_ok (if truth (vli_test_bit x 0) then
      let '(x1, carry) := vli_add x curve_p in
      alter (fun d => Z.lor d (u64 (Z.shiftl carry 63))) 3%nat (vli_rshift1 x1)
    else vli_rshift1 x).
Proof.
  intros [Hx Lx]. destruct (truth (vli_test_bit x 0)).
  - destruct (vli_add_spec x curve_p Hx curve_p_ok) as (s & c & -> & Hs & Hc & Hv).
    rewrite curve_p_val in Hv. destruct (vli_rshift1_spec s Hs) as [Ho He].
    pose proof (vli_range s Hs). pose proof (vli_range x Hx).
    destruct (Z.eq_dec c 0) as [-> | Hne].
    + change (u64 (Z.shiftl 0 63)) with 0.
      destruct (vli_inv _ Ho) as (a & b & c' & d & Eq & _). rewrite Eq. cbn [alter list_alter].
      rewrite Z.lor_0_r, <-Eq. split; [done|]. rewrite He. zlia.
    + assert (c = 1) as -> by lia. change (u64 (Z.shiftl 1 63)) with 0x8000000000000000.
      fold (set_top (vli_rshift1 s)).
      destruct (set_top_spec _ Ho ltac:(rewrite He; zlia)) as [Ht Hte]. split; [done|].
      rewrite Hte, He. change (2 ^ 256) with (2 * 2 ^ 255) in *. zlia.
  - destruct (vli_rshift1_spec x Hx) as [Ho He]. split; [done|]. rewrite He.
    pose proof (vli_range x Hx). zlia.
Qed.
#[export] Hint Resolve vli_mod_inv_ok double_half_ok : field.

Lemma ecc_point_double_jacobian_ok x y z : field_ok x -> field_ok y -> vli_ok z ->
  let '(x', y', z') := ecc_point_double_jacobian x y z in
  field_ok x' /\ field_ok y' /\ vli_ok z'.
Proof.
  intros Hx Hy Hz. unfold ecc_point_double_jacobian. destruct (vli_is_zero z); [done|].
  match goal with |- context [if truth (vli_test_bit ?t 0) then _ else _] =>
    pose proof (double_half_ok t ltac:(auto 20 with field)) as Hh end.
  split_and!; auto 20 with field.
Qed.

Lemma apply_z_ok x y z : vli_ok x -> vli_ok y -> vli_ok z ->
  let '(x', y') := apply_z x y z in field_ok x' /\ field_ok y'.
Proof. intros. unfold apply_z. auto 20 with field. Qed.

Definition quad_ok (q : list Z * list Z * list Z * list Z) : Prop :=
  let '(a, b, c, d) := q in field_ok a /\ field_ok b /\ field_ok c /\ field_ok d.

Lemma xycz_add_ok a b c d : quad_ok (a, b, c, d) -> quad_ok (xycz_add a b c d).
Proof. intros (H1 & H2 & H3 & H4). unfold xycz_add, quad_ok. split_and!; auto 30 with field. Qed.
Lemma xycz_add_c_ok a b c d : quad_ok (a, b, c, d) -> quad_ok (xycz_add_c a b c d).
Proof. intros (H1 & H2 & H3 & H4). unfold xycz_add_c, quad_ok. split_and!; auto 30 with field. Qed.

Lemma xycz_initial_double_ok x y z : vli_ok x -> vli_ok y -> (∀ z', z = Some z' -> vli_ok z') ->
  quad_ok (xycz_initial_double x y z).
Proof.
  intros Hx Hy Hz. unfold xycz_initial_double.
  assert (Hz' : vli_ok (default [1; 0; 0; 0] z)).
  { destruct z as [z|]; [by apply Hz | by apply vli_ok4]. }
  pose proof (apply_z_ok x y _ Hx Hy Hz') as H1. destruct (apply_z x y _) as [x1 y1].
  destruct H1 as [H1 H2].
  pose proof (ecc_point_double_jacobian_ok x1 y1 _ H1 H2 Hz') as H3.
  destruct (ecc_point_double_jacobian x1 y1 _) as [[x2 y2] z2]. destruct H3 as (H3 & H4 & H5).
  pose proof (apply_z_ok x y z2 Hx Hy H5) as H6. by destruct (apply_z x y z2) as [x3 y3].
Qed.

Definition ladder_ok (r : ladder) : Prop :=
  field_ok (rx0 r) /\ field_ok (ry0 r) /\ field_ok (rx1 r) /\ field_ok (ry1 r).

Lemma on_ladder_ok f b r : (∀ a b c d, quad_ok (a, b, c, d) -> quad_ok (f a b c d)) ->
  ladder_ok r -> ladder_ok (on_ladder f b r).
Proof.
  intros Hf (H1 & H2 & H3 & H4). unfold on_ladder. destruct b.
  - pose proof (Hf (rx1 r) (ry1 r) (rx0 r) (ry0 r) ltac:(done)) as Hq.
    destruct (f _ _ _ _) as [[[a b] c] d]. destruct Hq as (? & ? & ? & ?). done.
  - pose proof (Hf (rx0 r) (ry0 r) (rx1 r) (ry1 r) ltac:(done)) as Hq.
    destruct (f _ _ _ _) as [[[a b] c] d]. destruct Hq as (? & ? & ? & ?). done.
Qed.

Lemma ladder_loop_ok n scalar r : ladder_ok r -> ladder_ok (ladder_loop n scalar r).
Proof.
  revert r. induction n as [|n IH]; intros r Hr; cbn [ladder_loop]; [done|].
  apply IH, on_ladder_ok; [apply xycz_add_ok|]. apply on_ladder_ok; [apply xycz_add_c_ok | done].
Qed.

Definition point_ok (p : ecc_point) : Prop := vli_ok (pt_x p) /\ vli_ok (pt_y p).

(** The product of any point and scalar has coordinates below the prime. *)
Lemma ecc_point_mult_ok p scalar z bits : point_ok p -> (∀ z', z = Some z' -> vli_ok z') ->
  field_ok (pt_x (ecc_point_mult p scalar z bits)) /\
  field_ok (pt_y (ecc_point_mult p scalar z bits)).
Proof.
  intros [Hx Hy] Hz. unfold ecc_point_mult.
  pose proof (xycz_initial_double_ok _ _ z Hx Hy Hz) as H1.
  destruct (xycz_initial_double _ _ z) as [[[x1 y1] x0] y0]. destruct H1 as (H1 & H2 & H3 & H4).
  pose proof (ladder_loop_ok (Z.to_nat (bits - 2)) scalar (Ladder x0 y0 x1 y1) ltac:(done)) as Hr.
  set (nb := ladder_nb scalar 0). set (r := ladder_loop _ _ _) in *.
  pose proof (on_ladder_ok xycz_add_c (negb nb) r xycz_add_c_ok Hr) as Hc.
  set (rc := on_ladder xycz_add_c (negb nb) r) in *. pose proof Hc as (C1 & C2 & C3 & C4).
  pose proof (on_ladder_ok xycz_add nb rc xycz_add_ok Hc) as (D1 & D2 & D3 & D4).
  set (rd := on_ladder xycz_add nb rc) in *.
  assert (Hb : field_ok (if nb then rx0 rc else rx1 rc) /\ field_ok (if nb then ry0 rc else ry1 rc))
    by (by destruct nb).
  destruct Hb as [Hb1 Hb2].
  match goal with |- context [apply_z (rx0 rd) (ry0 rd) ?w] =>
    pose proof (apply_z_ok (rx0 rd) (ry0 rd) w (field_vli _ D1) (field_vli _ D2)
      ltac:(auto 20 with field)) as Hz'; destruct (apply_z (rx0 rd) (ry0 rd) w) as [x y] end.
  exact Hz'.
Qed.

(** ** Octets *)

Lemma of_le_range l : bytes l -> 0 <= of_le l < 0x100 ^ len l.
Proof.
  unfold len. induction 1 as [|b l Hb Hl IH]; [done|]. cbn [of_le length].
  rewrite Nat2Z.inj_succ, Z.pow_succ_r by lia. lia.
Qed.

Lemma bytes_to_le n v : bytes (to_le n v).
Proof.
  unfold bytes. revert v. induction n as [|n IH]; intros v; cbn [to_le]; constructor; [|apply IH].
  apply u8_range.
Qed.

Lemma bytes_range p off n m : bytes p -> rd_range p off n = Ok m -> bytes m.
Proof.
  unfold rd_range, bytes. intros Hp. case_goal; [|done]. intros [= <-].
  by apply Forall_take, Forall_drop.
Qed.

Lemma ecc_bytes2native_ok p off : bytes p -> 0 <= off -> off + 32 <= len p ->
  exists v, ecc_bytes2native p off = Ok v /\ vli_ok v.
Proof.
  intros Hp Ho Hl. unfold ecc_bytes2native.
  destruct (rd_range_total p off 8 ltac:(lia) ltac:(lia) ltac:(lia)) as (d0 & E0 & L0).
  destruct (rd_range_total p (off + 8) 8 ltac:(lia) ltac:(lia) ltac:(lia)) as (d1 & E1 & L1).
  destruct (rd_range_total p (off + 16) 8 ltac:(lia) ltac:(lia) ltac:(lia)) as (d2 & E2 & L2).
  destruct (rd_range_total p (off + 24) 8 ltac:(lia) ltac:(lia) ltac:(lia)) as (d3 & E3 & L3).
  rewrite E0, E1, E2, E3. eexists. split; [reflexivity|].
  assert (R : ∀ d off, rd_range p off 8 = Ok d -> len d = 8 -> is_u64 (of_le d)).
  { intros d o E L. pose proof (of_le_range d (bytes_range _ _ _ _ Hp E)) as R. by rewrite L in R. }
  apply vli_ok4; eauto.
Qed.

Lemma read_point_ok pub : bytes pub -> 64 <= len pub ->
  exists p, read_point pub = Ok p /\ point_ok p.
Proof.
  intros Hp Hl. unfold read_point.
  destruct (ecc_bytes2native_ok pub 0 Hp ltac:(lia) ltac:(lia)) as (x & -> & Hx).
  destruct (ecc_bytes2native_ok pub 32 Hp ltac:(lia) ltac:(lia)) as (y & -> & Hy).
  eexists. by split.
Qed.

Lemma ecc_native2bytes_len v : length v = 4%nat -> len (ecc_native2bytes v) = 32.
Proof. intros Hl. by destruct v as [|a [|b [|c [|d [|? ?]]]]]. Qed.
Lemma ecc_native2bytes_bytes v : bytes (ecc_native2bytes v).
Proof.
  unfold bytes, ecc_native2bytes. induction v as [|d v IH]; [constructor|].
  rewrite bind_cons. apply Forall_app. split; [apply bytes_to_le | apply IH].
Qed.

(** Writing the digits and reading them back. *)
Lemma native_bytes_native a v c : vli_ok v ->
  ecc_bytes2native (a ++ ecc_native2bytes v ++ c) (len a) = Ok v.
Proof.
  intros Hv. destruct (vli_inv v Hv) as (d0 & d1 & d2 & d3 & -> & H0 & H1 & H2 & H3).
  unfold ecc_bytes2native.
  assert (Hd : ∀ d, is_u64 d -> len (to_le 8 d) = 8 /\ of_le (to_le 8 d) = d).
  { intros d Hd. split; [done|]. rewrite of_le_to_le. by apply Z.mod_small. }
  change (ecc_native2bytes [d0; d1; d2; d3]) with
    (to_le 8 d0 ++ to_le 8 d1 ++ to_le 8 d2 ++ to_le 8 d3 ++ []). rewrite app_nil_r.
  set (L := a ++ _ ++ c).
  assert (Hr : ∀ b d e o, L = b ++ to_le 8 d ++ e -> o = len b -> rd_range L o 8 = Ok (to_le 8 d)).
  { intros b d e o -> ->. by apply rd_range_mid. }
  assert (L8 : ∀ d, len (to_le 8 d) = 8) by done.
  rewrite (Hr a d0 (to_le 8 d1 ++ to_le 8 d2 ++ to_le 8 d3 ++ c) (len a)),
    (Hr (a ++ to_le 8 d0) d1 (to_le 8 d2 ++ to_le 8 d3 ++ c) (len a + 8)),
    (Hr (a ++ to_le 8 d0 ++ to_le 8 d1) d2 (to_le 8 d3 ++ c) (len a + 16)),
    (Hr (a ++ to_le 8 d0 ++ to_le 8 d1 ++ to_le 8 d2) d3 c (len a + 24))
    by (subst L; rewrite ?len_app, ?L8, <-?app_assoc; done || lia).
  cbn [mbind res_bind mret res_ret].
  by rewrite (proj2 (Hd d0 H0)), (proj2 (Hd d1 H1)), (proj2 (Hd d2 H2)), (proj2 (Hd d3 H3)).
Qed.

(** ** Validity of a public key *)

Definition on_curve (x y : Z) : Prop :=
  (y * y) mod P256 = (x * x * x - 3 * x + eval curve_b) mod P256.

(** No product in the check of the curve equation loses a carry. *)
Definition check_exact (p : ecc_point) : bool :=
  (square_lost (pt_y p) =? 0) && (square_lost (pt_x p) =? 0) &&
  (mult_lost (vli_mod_sub (vli_mod_square_fast (pt_x p)) [3; 0; 0; 0] curve_p) (pt_x p) =? 0).

Lemma curve_b_ok : field_ok curve_b.
Proof. split; [by apply vli_ok4 | reflexivity]. Qed.
Lemma three_ok : field_ok [3; 0; 0; 0].
Proof. split; [by apply vli_ok4 | reflexivity]. Qed.

Lemma curve_rhs_val x : vli_ok x -> square_lost x = 0 ->
  mult_lost (vli_mod_sub (vli_mod_square_fast x) [3; 0; 0; 0] curve_p) x = 0 ->
  let r := vli_mod_add (vli_mod_mult_fast (vli_mod_sub (vli_mod_square_fast x) [3; 0; 0; 0] curve_p) x)
             curve_b curve_p in
  vli_ok r /\
  eval r = (eval x * eval x * eval x - 3 * eval x + eval curve_b) mod P256.
Proof.
  intros Hx Hs Hm. destruct (vli_mod_square_fast_spec x Hx) as [S1 S2]. rewrite Hs, Z.sub_0_r in S2.
  pose proof (field_square x Hx) as Sf. pose proof three_ok as [T1 T2]. pose proof curve_b_ok as [B1 B2].
  destruct (vli_mod_sub_spec _ _ curve_p S1 T1 curve_p_ok (proj2 Sf) T2) as [D1 D2].
  rewrite S2, curve_p_val in D2. change (eval [3; 0; 0; 0]) with 3 in D2.
  destruct (vli_mod_mult_fast_spec _ x D1 Hx) as [M1 M2]. rewrite Hm, Z.sub_0_r, D2 in M2.
  pose proof (field_mult _ x D1 Hx) as Mf.
  destruct (vli_mod_add_spec _ _ curve_p M1 B1 curve_p_ok (proj2 Mf) B2) as [A1 A2].
  split; [done|]. rewrite A2, M2, curve_p_val.
  rewrite Z.mul_mod_idemp_l, Z.add_mod_idemp_l by apply P256_neq.
  rewrite (Z.mod_eq (eval x * eval x) P256) by apply P256_neq.
  set (q := eval x * eval x / P256).
  replace ((eval x * eval x - P256 * q - 3) * eval x + eval curve_b) with
    (eval x * eval x * eval x - 3 * eval x + eval curve_b + - (q * eval x) * P256) by ring.
  apply Z.mod_add, P256_neq.
Qed.

(** C34: a public key is accepted exactly if it is a point of the curve.  As long
    as no product loses a carry, [ecc_valid_point] answers true exactly for
    coordinates below the prime that satisfy y^2 = x^3 - 3x + b. *)
Theorem ecc_valid_point_spec p : point_ok p -> check_exact p = true ->
  ecc_valid_point p = true <->
  eval (pt_x p) < P256 /\ eval (pt_y p) < P256 /\ on_curve (eval (pt_x p)) (eval (pt_y p)).
Proof.
  intros [Hx Hy] He. unfold check_exact in He. bool_hyps.
  destruct (curve_rhs_val (pt_x p) Hx ltac:(done) ltac:(done)) as [R1 R2].
  destruct (vli_mod_square_fast_spec (pt_y p) Hy) as [Y1 Y2].
  pose proof (vli_range _ Hx). pose proof (vli_range _ Hy).
  unfold ecc_valid_point, ecc_point_is_zero.
  rewrite !vli_is_zero_spec, vli_equal_spec, R2, Y2 by (done || apply Hx || apply Hy).
  replace (eval (pt_y p) * eval (pt_y p) - square_lost (pt_y p)) with (eval (pt_y p) * eval (pt_y p)) by lia.
  pose proof (vli_cmp_pos curve_p _ curve_p_ok Hx) as Cx. rewrite curve_p_val in Cx.
  pose proof (vli_cmp_pos curve_p _ curve_p_ok Hy) as Cy. rewrite curve_p_val in Cy.
  unfold on_curve.
  destruct ((eval (pt_x p) =? 0) && (eval (pt_y p) =? 0)) eqn:Ez; bool_hyps.
  { split; [done|]. intros (_ & _ & Hc). exfalso. revert Hc.
    replace (eval (pt_x p)) with 0 by lia. replace (eval (pt_y p)) with 0 by lia. by vm_compute. }
  destruct (Z.eqb_spec (vli_cmp curve_p (pt_x p)) 1) as [E1 | E1];
    destruct (Z.eqb_spec (vli_cmp curve_p (pt_y p)) 1) as [E2 | E2]; cbn [negb orb];
    rewrite ?Z.eqb_eq; try tauto.
  all: split; [done | tauto].
Qed.

Lemma ecc_valid_point_spec_witness : on_curve (eval (pt_x curve_g)) (eval (pt_y curve_g)).
Proof.
  apply (ecc_valid_point_spec curve_g); [split; by apply vli_ok4 | by vm_compute | by vm_compute].
Defined.

(** The private key 1 has the wrong public key.  The ladder assumes a scalar
    of two bits or more: for 1, which passes the range check, it returns three
    times the base point. *)
Theorem ecc_public_key_of_one :
  let pub k := ecc_make_public_key (k :: rep 31 0) (rep 64 0) in
  pub 1 = pub 3 /\ pub 1 <> Ok (true, ecc_native2bytes (pt_x curve_g) ++ ecc_native2bytes (pt_y curve_g)).
Proof. split; vm_compute; [reflexivity | discriminate]. Qed.

(** ** The interface *)

Definition random_ok (rnd : random_source) : Prop := Forall (fun d => ∀ v, d = Some v -> vli_ok v) rnd.

Lemma get_random_number_ok rnd d rnd' : random_ok rnd -> get_random_number rnd = (d, rnd') ->
  (∀ v, d = Some v -> vli_ok v) /\ random_ok rnd'.
Proof. destruct 1 as [|x l Hx Hl]; intros [= <- <-]; [by split; [|constructor]|]. done. Qed.

(** What the key exchange promises [prov.c]: it never leaves its buffers, and
    without a valid public key it leaves the secret alone. *)
Lemma ecdh_shared_secret_ok rnd pub priv secret : random_ok rnd -> bytes pub -> 64 <= len pub ->
  bytes priv -> 32 <= len priv -> bytes secret -> len secret = 32 ->
  exists r secret' rnd', ecdh_shared_secret rnd pub priv secret = Ok (r, secret', rnd') /\
    bytes secret' /\ len secret' = 32 /\ random_ok rnd' /\
    (ecc_valid_public_key pub = Ok false -> r = false /\ secret' = secret).
Proof.
  intros Hr Hp Lp Hk Lk Hs Ls. unfold ecdh_shared_secret, ecc_valid_public_key.
  destruct (get_random_number rnd) as [d rnd'] eqn:Er.
  destruct (get_random_number_ok _ _ _ Hr Er) as [Hd Hr'].
  destruct d as [z|]; [|by exists false, secret, rnd'; split_and!].
  destruct (read_point_ok pub Hp Lp) as (p & -> & Hpt). cbn [mbind res_bind mret res_ret].
  destruct (ecc_valid_point p) eqn:Ev; cbn [negb]; [|by exists false, secret, rnd'; split_and!].
  destruct (ecc_bytes2native_ok priv 0 Hk ltac:(lia) ltac:(lia)) as (k & -> & Hkok). cbn [mbind res_bind].
  destruct (ecc_point_mult_ok p k (Some z) (vli_num_bits k) Hpt ltac:(intros ? [= <-]; by apply Hd))
    as [[[Hx _] _] _].
  set (q := ecc_point_mult p k (Some z) (vli_num_bits k)) in *.
  pose proof (ecc_native2bytes_len _ Hx) as Ln.
  assert (Hw : wr_range secret 0 (ecc_native2bytes (pt_x q)) = Ok (ecc_native2bytes (pt_x q))).
  { rewrite <-(app_nil_r secret), wr_range_begin; [by rewrite app_nil_r|].
    unfold len in *. lia. }
  rewrite Hw. eexists _, _, _. split; [reflexivity|].
  split; [apply ecc_native2bytes_bytes|]. by split_and!.
Qed.

(** The first draw fails, or is a private key with a public key. *)
Definition good_draw (rnd : random_source) : Prop :=
  match (get_random_number rnd).1 with
  | None => True
  | Some k => 0 < eval k < eval curve_n /\
      ecc_point_is_zero (ecc_point_mult curve_g k None (vli_num_bits k)) = false
  end.

Lemma curve_n_ok : vli_ok curve_n.
Proof. by apply vli_ok4. Qed.
Lemma curve_g_ok : point_ok curve_g.
Proof. split; by apply vli_ok4. Qed.

Lemma draw_in_range k : vli_ok k ->
  vli_is_zero k || negb (vli_cmp curve_n k =? 1) = negb ((0 <? eval k) && (eval k <? eval curve_n)).
Proof.
  intros Hk. rewrite vli_is_zero_spec by apply Hk. pose proof (vli_range k Hk).
  pose proof (vli_cmp_pos curve_n k curve_n_ok Hk) as Hc. revert Hc. generalize (eval curve_n).
  intros n Hc. destruct (Z.eqb_spec (vli_cmp curve_n k) 1) as [E | E].
  - apply Hc in E. zbool.
  - assert (~ eval k < n) by (by intros L%Hc). zbool.
Qed.

(** The keys that [ecc_make_key] makes of the scalar [k]. *)
Definition public_of (k : list Z) : list Z :=
  let p := ecc_point_mult curve_g k None (vli_num_bits k) in
  ecc_native2bytes (pt_x p) ++ ecc_native2bytes (pt_y p).

Lemma public_of_ok k : bytes (public_of k) /\ len (public_of k) = 64.
Proof.
  unfold public_of.
  destruct (ecc_point_mult_ok curve_g k None (vli_num_bits k) curve_g_ok ltac:(done))
    as [[[Lx _] _] [[Ly _] _]]. split.
  - apply Forall_app. split; apply ecc_native2bytes_bytes.
  - rewrite len_app, !ecc_native2bytes_len by done. done.
Qed.

Lemma wr_range_whole b src : len b = len src -> wr_range b 0 src = Ok src.
Proof.
  intros Hl. rewrite <-(app_nil_r b), wr_range_begin; [by rewrite app_nil_r|].
  unfold len in Hl. lia.
Qed.

(** What [ecc_make_key] makes of a good draw.  A first draw [k] with
    [0 < k < n] whose public key is not the pair (0, 0) is the private key, and
    the public key is its product with the base point; one draw is consumed.  A
    draw that fails leaves both buffers alone. *)
Theorem ecc_make_key_spec rnd pub priv : random_ok rnd -> good_draw rnd ->
  len pub = 64 -> len priv = 32 ->
  let '(draw, rnd') := get_random_number rnd in
  ecc_make_key rnd pub priv =
  Ok (match draw with
      | None => (false, pub, priv, rnd')
      | Some k => (true, public_of k, ecc_native2bytes k, rnd')
      end).
Proof.
  intros Hr Hg Lp Lk. unfold good_draw in Hg. destruct (get_random_number rnd) as [draw rnd'] eqn:E.
  destruct (get_random_number_ok _ _ _ Hr E) as [Hd _].
  unfold ecc_make_key, MAX_TRIES. cbn [make_key_loop]. rewrite E. cbn [fst] in Hg.
  destruct draw as [k|]; [|done]. destruct Hg as [Hk Hnz]. specialize (Hd k eq_refl).
  rewrite (draw_in_range k Hd). destruct (Z.ltb_spec 0 (eval k)); [|lia].
  destruct (Z.ltb_spec (eval k) (eval curve_n)); [|lia]. cbn [andb negb]. rewrite Hnz.
  cbn [mbind res_bind mret res_ret].
  destruct (ecc_point_mult_ok curve_g k None (vli_num_bits k) curve_g_ok ltac:(done))
    as [[[Lx _] _] [[Ly _] _]].
  unfold public_of. revert Lx Ly. clear Hnz. generalize (ecc_point_mult curve_g k None (vli_num_bits k)).
  intros p Lx Ly.
  pose proof (ecc_native2bytes_len _ Lx) as Nx. pose proof (ecc_native2bytes_len _ Ly) as Ny.
  pose proof (ecc_native2bytes_len k (proj1 Hd)) as Nk.
  rewrite (wr_range_whole priv) by lia. cbn [mbind res_bind].
  rewrite <-(take_drop 32 pub).
  rewrite wr_range_begin by (rewrite length_take; unfold len in *; lia). cbn [mbind res_bind].
  rewrite wr_range_end; [done | by rewrite Nx |].
  rewrite length_drop. unfold len in *. lia.
Qed.

Lemma ecc_make_key_spec_witness :
  good_draw [Some [2; 0; 0; 0]] /\
  ecc_make_key [Some [2; 0; 0; 0]] (rep 64 0) (rep 32 0) =
    Ok (true, public_of [2; 0; 0; 0], ecc_native2bytes [2; 0; 0; 0], []).
Proof.
  assert (Hg : good_draw [Some [2; 0; 0; 0]]) by (split; [by vm_compute | vm_compute; reflexivity]).
  split; [exact Hg|].
  refine (ecc_make_key_spec [Some [2; 0; 0; 0]] (rep 64 0) (rep 32 0) _ Hg eq_refl eq_refl).
  constructor; [intros v [= <-]; by apply vli_ok4 | constructor].
Defined.

(** A bad draw ends the search with garbage.  A first draw of zero or of the
    group order or more is meant to be drawn again, but [continue] goes to the
    loop condition, which reads a point that has not been assigned. *)
Theorem ecc_make_key_uninitialised k rnd pub priv : vli_ok k ->
  eval k = 0 \/ eval curve_n <= eval k ->
  ecc_make_key (Some k :: rnd) pub priv = Fault Uninit.
Proof.
  intros Hk Hbad. unfold ecc_make_key, MAX_TRIES. cbn [make_key_loop get_random_number].
  rewrite (draw_in_range k Hk).
  assert ((0 <? eval k) && (eval k <? eval curve_n) = false) as ->; [|done].
  revert Hbad. generalize (eval curve_n). intros n Hbad. zbool.
Qed.

Lemma ecc_make_key_uninitialised_witness :
  ecc_make_key [Some [0; 0; 0; 0]] (rep 64 0) (rep 32 0) = Fault Uninit.
Proof.
  apply (ecc_make_key_uninitialised [0; 0; 0; 0] []); [by apply vli_ok4 | by left].
Defined.
