(* ===== verification/Prov.v ===== *)
(** * Provisioning

    [src/blueZ/mesh/prov.c], the provisioner's side of the provisioning protocol;
    [src/blueZ/mesh/agent.c], which asks the user for a value; and
    [mesh_prov_done] of [src/blueZ/mesh/main.c]. *)

From S2P Require Import Prelude Bytes Util Alg Ccm Crypto AddrPool Pdu Keys NetState Send Beacon Recv Node Vli VliMod Ecc.

Definition PROXY_PROVISIONING_PDU : Z := 0x03.
Definition PROV_INVITE : Z := 0x00.
Definition PROV_CAPS : Z := 0x01.
Definition PROV_START : Z := 0x02.
Definition PROV_PUB_KEY : Z := 0x03.
Definition PROV_INP_CMPLT : Z := 0x04.
Definition PROV_CONFIRM : Z := 0x05.
Definition PROV_RANDOM : Z := 0x06.
Definition PROV_DATA : Z := 0x07.
Definition PROV_COMPLETE : Z := 0x08.
Definition PROV_FAILED : Z := 0x09.
Definition PROV_NO_OOB : Z := 0.
Definition PROV_STATIC_OOB : Z := 1.
Definition PROV_OUTPUT_OOB : Z := 2.
Definition PROV_INPUT_OOB : Z := 3.
Definition PROV_ERR_INVALID_PDU : Z := 0x01.
Definition MESH_PROV_SEC_HIGH : Z := 2.
Definition MESH_PROV_SEC_MED : Z := 1.
Definition MESH_PROV_SEC_LOW : Z := 0.
Definition MAX_HEXADECIMAL_OOB_LEN : Z := 128.
Definition DECIMAL_OOB_LEN : Z := 4.
Definition MAX_ASCII_OOB_LEN : Z := 16.

Definition expected_pdu_size : list Z :=
  [1 + 1; 1 + 1 + 2 + 1 + 1 + 1 + 2 + 1 + 2; 1 + 1 + 1 + 1 + 1 + 1; 1 + 64; 1; 1 + 16; 1 + 16;
   1 + 16 + 2 + 1 + 4 + 2 + 8; 1; 1 + 1].

(** ** Data *)

Record prov_start := ProvStart {
  algorithm : Z; pub_key : Z; auth_method : Z; auth_action : Z; auth_size : Z }.

(** [conf_input]; [caps] is the eleven octets of [prov_caps], whose fields are read
    at their offsets. *)
Record conf_input := ConfInput {
  attention : Z; caps : list Z; start : prov_start; prv_pub_key : list Z; dev_pub_key : list Z }.

Definition start_bytes (s : prov_start) : list Z :=
  [algorithm s; pub_key s; auth_method s; auth_action s; auth_size s].
(** The octets of the packed structure. *)
Definition conf_bytes (c : conf_input) : list Z :=
  [attention c] ++ caps c ++ start_bytes (start c) ++ prv_pub_key c ++ dev_pub_key c.

Definition cap (c : conf_input) (i : nat) : Z := nth i (caps c) 0.
Definition num_ele (c : conf_input) : Z := cap c 0.
Definition pub_type (c : conf_input) : Z := cap c 3.
Definition static_type (c : conf_input) : Z := cap c 4.
Definition output_size (c : conf_input) : Z := cap c 5.
Definition input_size (c : conf_input) : Z := cap c 8.

(** [prov_in], [prov_done] and [user_data] are those [cmd_start_prov] passes: the
    connection, [mesh_prov_done] and the node. *)
Record prov_data := ProvData {
  pv_net_idx : Z; new_addr : Z; pv_state : Z; eph_priv_key : list Z; ecdh_secret : list Z;
  conf_in : conf_input; rand_auth : list Z; salt : list Z; conf_key : list Z; mesh_conf : list Z;
  pv_dev_key : list Z }.

Definition zero_conf : conf_input :=
  ConfInput 0 (rep 11 0) (ProvStart 0 0 0 0 0) (rep 64 0) (rep 64 0).
(** [g_new0(struct prov_data, 1)] *)
Definition zero_prov : prov_data :=
  ProvData 0 0 0 (rep 32 0) (rep 32 0) zero_conf (rep 32 0) (rep 16 0) (rep 16 0) (rep 16 0) (rep 16 0).

Definition set_state (v : Z) (p : prov_data) : prov_data :=
  ProvData (pv_net_idx p) (new_addr p) v (eph_priv_key p) (ecdh_secret p) (conf_in p) (rand_auth p)
    (salt p) (conf_key p) (mesh_conf p) (pv_dev_key p).
Definition set_new_addr (v : Z) (p : prov_data) : prov_data :=
  ProvData (pv_net_idx p) v (pv_state p) (eph_priv_key p) (ecdh_secret p) (conf_in p) (rand_auth p)
    (salt p) (conf_key p) (mesh_conf p) (pv_dev_key p).
Definition set_eph_priv_key (v : list Z) (p : prov_data) : prov_data :=
  ProvData (pv_net_idx p) (new_addr p) (pv_state p) v (ecdh_secret p) (conf_in p) (rand_auth p)
    (salt p) (conf_key p) (mesh_conf p) (pv_dev_key p).
Definition set_ecdh_secret (v : list Z) (p : prov_data) : prov_data :=
  ProvData (pv_net_idx p) (new_addr p) (pv_state p) (eph_priv_key p) v (conf_in p) (rand_auth p)
    (salt p) (conf_key p) (mesh_conf p) (pv_dev_key p).
Definition set_conf_in (v : conf_input) (p : prov_data) : prov_data :=
  ProvData (pv_net_idx p) (new_addr p) (pv_state p) (eph_priv_key p) (ecdh_secret p) v (rand_auth p)
    (salt p) (conf_key p) (mesh_conf p) (pv_dev_key p).
Definition set_rand_auth (v : list Z) (p : prov_data) : prov_data :=
  ProvData (pv_net_idx p) (new_addr p) (pv_state p) (eph_priv_key p) (ecdh_secret p) (conf_in p) v
    (salt p) (conf_key p) (mesh_conf p) (pv_dev_key p).
Definition set_salt (v : list Z) (p : prov_data) : prov_data :=
  ProvData (pv_net_idx p) (new_addr p) (pv_state p) (eph_priv_key p) (ecdh_secret p) (conf_in p)
    (rand_auth p) v (conf_key p) (mesh_conf p) (pv_dev_key p).
Definition set_conf_key (v : list Z) (p : prov_data) : prov_data :=
  ProvData (pv_net_idx p) (new_addr p) (pv_state p) (eph_priv_key p) (ecdh_secret p) (conf_in p)
    (rand_auth p) (salt p) v (mesh_conf p) (pv_dev_key p).
Definition set_mesh_conf (v : list Z) (p : prov_data) : prov_data :=
  ProvData (pv_net_idx p) (new_addr p) (pv_state p) (eph_priv_key p) (ecdh_secret p) (conf_in p)
    (rand_auth p) (salt p) (conf_key p) v (pv_dev_key p).
Definition set_pv_dev_key (v : list Z) (p : prov_data) : prov_data :=
  ProvData (pv_net_idx p) (new_addr p) (pv_state p) (eph_priv_key p) (ecdh_secret p) (conf_in p)
    (rand_auth p) (salt p) (conf_key p) (mesh_conf p) v.

Definition set_caps (v : list Z) (c : conf_input) : conf_input :=
  ConfInput (attention c) v (start c) (prv_pub_key c) (dev_pub_key c).
Definition set_start (v : prov_start) (c : conf_input) : conf_input :=
  ConfInput (attention c) (caps c) v (prv_pub_key c) (dev_pub_key c).
Definition set_prv_pub_key (v : list Z) (c : conf_input) : conf_input :=
  ConfInput (attention c) (caps c) (start c) v (dev_pub_key c).
Definition set_dev_pub_key (v : list Z) (c : conf_input) : conf_input :=
  ConfInput (attention c) (caps c) (start c) (prv_pub_key c) v.

(** *** The agent *)

Inductive oob_type := NONE | HEXADECIMAL | DECIMAL | ASCII | OUTPUT.
#[export] Instance oob_type_eq_dec : EqDecision oob_type.
Proof. solve_decision. Defined.

(** The two callbacks [prov.c] gives the agent, with the node they are for. *)
Inductive agent_cb := CbOutOob (node : Z) | CbPubKey (node : Z).
Record input_request := InputRequest { rq_type : oob_type; rq_len : Z; rq_cb : option agent_cb }.
Definition no_request : input_request := InputRequest NONE 0 None.

(** The function the shell calls with the next line. *)
Inductive response := RespHex | RespDecimal | RespAscii | RespOutput.

(** A line typed by the user. *)
Definition line : Type := list Z.

(** *** The world *)

(** The completion callbacks of [mesh_gatt_write]. *)
Inductive gatt_cb := CbNone | CbStartCmplt | CbCalcEcdh.

(** [ps_provs] holds the live [struct prov_data] by address; [ps_prompt] is the
    shell's saved prompt function; [ps_pending] the writes that wait for the pipe to
    be acquired; [ps_bytes] what the coming reads of /dev/urandom return, and
    [ps_draws] those of the elliptic curve code. *)
Record prov_state := ProvState {
  ps_world : world node_store; ps_provs : list (Z * prov_data); ps_next : Z;
  ps_request : input_request; ps_prompt : option response;
  ps_pending : list (list Z * gatt_cb * Z); ps_level : Z;
  ps_bytes : list (list Z); ps_draws : random_source }.

Definition set_world (v : world node_store) (s : prov_state) : prov_state :=
  ProvState v (ps_provs s) (ps_next s) (ps_request s) (ps_prompt s) (ps_pending s) (ps_level s)
    (ps_bytes s) (ps_draws s).
Definition set_provs (v : list (Z * prov_data)) (s : prov_state) : prov_state :=
  ProvState (ps_world s) v (ps_next s) (ps_request s) (ps_prompt s) (ps_pending s) (ps_level s)
    (ps_bytes s) (ps_draws s).
Definition set_request (v : input_request) (s : prov_state) : prov_state :=
  ProvState (ps_world s) (ps_provs s) (ps_next s) v (ps_prompt s) (ps_pending s) (ps_level s)
    (ps_bytes s) (ps_draws s).
Definition set_prompt (v : option response) (s : prov_state) : prov_state :=
  ProvState (ps_world s) (ps_provs s) (ps_next s) (ps_request s) v (ps_pending s) (ps_level s)
    (ps_bytes s) (ps_draws s).
Definition set_pending (v : list (list Z * gatt_cb * Z)) (s : prov_state) : prov_state :=
  ProvState (ps_world s) (ps_provs s) (ps_next s) (ps_request s) (ps_prompt s) v (ps_level s)
    (ps_bytes s) (ps_draws s).
Definition set_level (v : Z) (s : prov_state) : prov_state :=
  ProvState (ps_world s) (ps_provs s) (ps_next s) (ps_request s) (ps_prompt s) (ps_pending s) v
    (ps_bytes s) (ps_draws s).
Definition set_bytes (v : list (list Z)) (s : prov_state) : prov_state :=
  ProvState (ps_world s) (ps_provs s) (ps_next s) (ps_request s) (ps_prompt s) (ps_pending s)
    (ps_level s) v (ps_draws s).
Definition set_draws (v : random_source) (s : prov_state) : prov_state :=
  ProvState (ps_world s) (ps_provs s) (ps_next s) (ps_request s) (ps_prompt s) (ps_pending s)
    (ps_level s) (ps_bytes s) v.

(** ** Handlers *)

Definition PM (A : Type) : Type := St prov_state A.

Section Prov.
Context `{Alg}.

Definition on_world {A} (h : NM A) : PM A := fun s =>
  match h (ps_world s) with Ok (a, w) => Ok (a, set_world w s) | Fault e => Fault e end.

(** [node_get_prov(node)] and [*prov]. *)
Definition get_prov (node : Z) : PM Z := on_world (node_get_prov (Some node)).
Definition is_prov (a : Z) (x : Z * prov_data) : bool := x.1 =? a.
Definition prov_ref (a : Z) : PM prov_data :=
  s ← get;
  if a =? 0 then fail NullDeref else
  lift (of_option UseAfterFree (snd <$> find_first (is_prov a) (ps_provs s))).
Definition prov_set (a : Z) (f : prov_data -> prov_data) : PM unit :=
  _ ← prov_ref a;
  modify (fun s => set_provs (update_first (is_prov a) (fun x => (x.1, f x.2)) (ps_provs s)) s).
Definition prov_free (a : Z) : PM unit :=
  _ ← prov_ref a; modify (fun s => set_provs (remove_first (is_prov a) (ps_provs s)) s).
Definition prov_conf (a : Z) (f : conf_input -> conf_input) : PM unit :=
  prov_set a (fun p => set_conf_in (f (conf_in p)) p).

(** [mesh_get_random_bytes]: the read of /dev/urandom is complete. *)
Definition random_bytes (n : Z) : PM (list Z) :=
  s ← get;
  let '(d, rest) := match ps_bytes s with [] => ([], []) | d :: rest => (d, rest) end in
  _ ← modify (set_bytes rest);
  mret (take (Z.to_nat n) (d ++ rep n 0)).

(** [mesh_gatt_write]: with the pipe acquired [run], the completion callback, is
    called before the write returns; otherwise the write waits. *)
Definition gatt_send (data : list Z) (cb : gatt_cb) (node : Z) (run : PM unit) : PM bool :=
  s ← get;
  if w_sync (ps_world s) then
    _ ← on_world (emit (GattWrite data)); _ ← run; mret true
  else
    _ ← modify (fun s => set_pending (ps_pending s ++ [(data, cb, node)]) s); mret true.

(** ** Agent *)

Definition reset_input_request : PM unit := modify (set_request no_request).

(** [bt_shell_prompt_input] of the shell: a second prompt is ignored. *)
Definition prompt_input (r : response) : PM unit :=
  s ← get;
  match ps_prompt s with
  | Some _ => mret tt
  | None => modify (set_prompt (Some r))
  end.

Definition agent_completion : PM bool :=
  s ← get; mret (negb (bool_decide (rq_type (ps_request s) = NONE))).

Definition request_hexadecimal (len : Z) : PM bool :=
  if MAX_HEXADECIMAL_OOB_LEN <? len then mret false else _ ← prompt_input RespHex; mret true.
Definition request_decimal (len : Z) : PM bool := _ ← prompt_input RespDecimal; mret true.
Definition request_ascii (len : Z) : PM bool :=
  if MAX_ASCII_OOB_LEN <? len then mret false else _ ← prompt_input RespAscii; mret true.

Definition agent_input_request (type : oob_type) (max_len : Z) (cb : agent_cb) : PM bool :=
  s ← get;
  if bool_decide (rq_type (ps_request s) <> NONE) then mret false else
  result ← (match type with
            | HEXADECIMAL => request_hexadecimal max_len
            | DECIMAL => request_decimal max_len
            | ASCII => request_ascii max_len
            | NONE | OUTPUT => mret false
            end);
  if (result : bool) then
    _ ← modify (set_request (InputRequest type max_len (Some cb))); mret true
  else mret false.

Definition agent_output_request : PM bool :=
  s ← get;
  if bool_decide (rq_type (ps_request s) <> NONE) then mret false else
  _ ← modify (fun s => set_request (InputRequest OUTPUT (rq_len (ps_request s)) (rq_cb (ps_request s))) s);
  _ ← prompt_input RespOutput;
  mret true.

(** ** Completion *)

Definition mesh_prov_done (node status : Z) : PM unit :=
  if truth status then
    _ ← on_world (node_free (Some node)); on_world (emit Disconnect)
  else
    n ← on_world (node_deref node);
    _ ← on_world (emit (Db (DbNewNode node (nd_primary n))));
    on_world (emit Disconnect).

Definition release_address (addr n : Z) : PM unit :=
  on_world (mod_net (fun net => set_address_pool (net_release_address addr n (address_pool net)) net)).

Definition prov_complete (node status : Z) : PM bool :=
  a ← get_prov node;
  if a =? 0 then mret false else
  p ← prov_ref a;
  _ ← (if truth status && truth (new_addr p) && truth (num_ele (conf_in p))
       then release_address (new_addr p) (num_ele (conf_in p)) else mret tt);
  _ ← (if negb (truth status) then
         _ ← on_world (node_set_num_elements (Some node) (num_ele (conf_in p)));
         _ ← on_world (node_set_primary (Some node) (new_addr p));
         _ ← on_world (node_set_device_key (Some node) (Some (pv_dev_key p)));
         _ ← on_world (node_net_key_add (Some node) (pv_net_idx p));
         mret tt
       else mret tt);
  _ ← prov_free a;
  _ ← on_world (node_set_prov (Some node) 0);
  _ ← mesh_prov_done node status;
  mret true.

(** ** Opening *)

(** The new session: [g_new0] and the assignments that follow. *)
Definition opened (net_idx : Z) : prov_data :=
  let conf := ConfInput 0x10 (caps zero_conf) (start zero_conf) (prv_pub_key zero_conf)
                (dev_pub_key zero_conf) in
  ProvData net_idx 0 PROV_INVITE (eph_priv_key zero_prov) (ecdh_secret zero_prov) conf
    (rand_auth zero_prov) (salt zero_prov) (conf_key zero_prov) (mesh_conf zero_prov)
    (pv_dev_key zero_prov).

Definition prov_open (node net_idx : Z) : PM bool :=
  a ← get_prov node;
  if negb (a =? 0) then mret false else
  s ← get;
  let a := ps_next s in
  _ ← modify (fun s => ProvState (ps_world s) (ps_provs s ++ [(a, opened net_idx)]) (a + 1)
        (ps_request s) (ps_prompt s) (ps_pending s) (ps_level s) (ps_bytes s) (ps_draws s));
  _ ← on_world (node_set_prov (Some node) a);
  gatt_send [PROXY_PROVISIONING_PDU; PROV_INVITE; 0x10] CbNone node (mret tt).

(** ** Messages *)

(** A key or nonce on the stack: indeterminate where the derivation has not
    assigned it. *)
Definition assigned (l : list Z) : PM (list Z) := if bool_decide (l = []) then fail Uninit else mret l.

(** The provisioning data before encryption. *)
Definition prov_payload (key : list Z) (net_idx flags iv addr : Z) : list Z :=
  key ++ to_be 2 net_idx ++ [flags] ++ to_be 4 iv ++ to_be 2 addr.

Definition prov_send_prov_data (node : Z) : PM bool :=
  a ← get_prov node;
  if a =? 0 then mret false else
  p ← prov_ref a;
  let key := (mesh_crypto_session_key (ecdh_secret p) (salt p) []).2 in
  let nonce := (mesh_crypto_nonce (ecdh_secret p) (salt p) []).2 in
  _ ← prov_set a (set_pv_dev_key (mesh_crypto_device_key (ecdh_secret p) (salt p) (pv_dev_key p)).2);
  s ← get;
  let w := ps_world s in
  match net_get_key (w_keys w) (pv_net_idx p) with
  | None => mret false
  | Some net_key =>
      let flags := default 0 (net_get_flags (w_keys w) (iv_update (w_net w)) (pv_net_idx p)) in
      let data := prov_payload net_key (pv_net_idx p) flags (iv_index (w_net w)) (new_addr p) in
      key ← assigned key;
      nonce ← assigned nonce;
      '(_, io) ← lift (mesh_crypto_aes_ccm_encrypt nonce key [] 0 25 8 (InPlace (data ++ rep 8 0) 0));
      let out := match io with InPlace b _ => b | Separate _ _ d _ => d | NoOut b _ => b end in
      _ ← prov_set a (set_state PROV_DATA);
      gatt_send ([PROXY_PROVISIONING_PDU; PROV_DATA] ++ out) CbNone node (mret tt)
  end.

Definition prov_send_confirm (node : Z) : PM bool :=
  a ← get_prov node;
  if a =? 0 then mret false else
  r ← random_bytes 16;
  _ ← prov_set a (fun p => set_rand_auth (r ++ drop 16 (rand_auth p)) p);
  p ← prov_ref a;
  let conf := (mesh_crypto_aes_cmac (conf_key p) (rand_auth p) (rep 16 0)).2 in
  _ ← prov_set a (set_state PROV_CONFIRM);
  gatt_send ([PROXY_PROVISIONING_PDU; PROV_CONFIRM] ++ conf) CbNone node (mret tt).

(** [memcpy(prov->rand_auth + off, buf, len)]: the rest of the structure follows
    the array, which the model does not write into. *)
Definition set_auth (a off : Z) (buf : list Z) : PM unit :=
  p ← prov_ref a;
  r ← lift (wr_range (rand_auth p) off buf);
  prov_set a (set_rand_auth r).

(** [prov_complete] does not return from this function. *)
Definition prov_out_oob_done (type : oob_type) (buf : list Z) (node : Z) : PM unit :=
  a ← get_prov node;
  if a =? 0 then mret tt else
  match type with
  | NONE | OUTPUT => _ ← prov_complete node PROV_ERR_INVALID_PDU; mret tt
  | ASCII | HEXADECIMAL =>
      _ ← (if 16 <? len buf then _ ← prov_complete node PROV_ERR_INVALID_PDU; mret tt else mret tt);
      _ ← set_auth a 16 buf;
      _ ← prov_send_confirm node; mret tt
  | DECIMAL =>
      _ ← (if negb (len buf =? 4) then _ ← prov_complete node PROV_ERR_INVALID_PDU; mret tt else mret tt);
      _ ← set_auth a 28 buf;
      _ ← prov_send_confirm node; mret tt
  end.

(** A random octet as a digit or letter. *)
Definition ascii_char (b : Z) : Z :=
  let x := b mod (26 * 2 + 10) in
  if 10 + 26 <=? x then x + (97 - (10 + 26)) else if 10 <=? x then x + (65 - 10) else x + 48.

(** Both halves of a public key reversed. *)
Definition swap_key (k : list Z) : res (list Z) :=
  x ← swap_u256_bytes (take 32 k); y ← swap_u256_bytes (drop 32 k); mret (x ++ y).

(** The value the user is to enter on the device. *)
Definition input_oob (a action size : Z) : PM unit :=
  if action <=? 2 then
    r ← random_bytes 4;
    set_auth a 28 (to_be 4 (of_le r mod power_ten size))
  else
    r ← random_bytes size;
    if 8 <? size then fail Oob else
    set_auth a 16 (ascii_char <$> r).

Definition prov_calc_ecdh (node : Z) : PM unit :=
  a ← get_prov node;
  p ← prov_ref a;
  let action := auth_action (start (conf_in p)) in
  let size := auth_size (start (conf_in p)) in
  tmp ← lift (swap_key (dev_pub_key (conf_in p)));
  s ← get;
  '(_, secret, draws) ← lift (ecdh_shared_secret (ps_draws s) tmp (eph_priv_key p) (ecdh_secret p));
  _ ← modify (set_draws draws);
  secret ← lift (swap_u256_bytes secret);
  let sal := (mesh_crypto_s1 (conf_bytes (conf_in p)) (salt p)).2 in
  let ck := (mesh_crypto_prov_conf_key secret sal (conf_key p)).2 in
  _ ← prov_set a (fun p => set_conf_key ck (set_salt sal (set_ecdh_secret secret p)));
  let method := auth_method (start (conf_in p)) in
  if method =? PROV_NO_OOB then _ ← prov_send_confirm node; mret tt
  else if method =? PROV_STATIC_OOB then
    _ ← agent_input_request HEXADECIMAL 16 (CbOutOob node); mret tt
  else if method =? PROV_OUTPUT_OOB then
    _ ← agent_input_request (if action <=? 3 then DECIMAL else ASCII) size (CbOutOob node); mret tt
  else if method =? PROV_INPUT_OOB then
    _ ← input_oob a action size;
    _ ← agent_output_request; mret tt
  else _ ← prov_complete node PROV_ERR_INVALID_PDU; mret tt.

Definition prov_send_pub_key (node : Z) : PM unit :=
  a ← get_prov node;
  if a =? 0 then mret tt else
  p ← prov_ref a;
  let oob := truth (pub_key (start (conf_in p))) in
  _ ← prov_set a (set_state PROV_PUB_KEY);
  _ ← gatt_send ([PROXY_PROVISIONING_PDU; PROV_PUB_KEY] ++ prv_pub_key (conf_in p))
        (if oob then CbCalcEcdh else CbNone) node (if oob then prov_calc_ecdh node else mret tt);
  mret tt.

(** [memcpy(prov->conf_in.dev_pub_key, buf, 64)] *)
Definition prov_oob_pub_key (buf : list Z) (node : Z) : PM unit :=
  a ← get_prov node;
  if a =? 0 then mret tt else
  k ← lift (rd_range buf 0 64);
  _ ← prov_conf a (set_dev_pub_key k);
  prov_send_pub_key node.

Definition prov_start_cmplt (node : Z) : PM unit :=
  a ← get_prov node;
  if a =? 0 then mret tt else
  p ← prov_ref a;
  if truth (pub_key (start (conf_in p))) then
    _ ← agent_input_request HEXADECIMAL 64 (CbPubKey node); mret tt
  else prov_send_pub_key node.

(** The completion callback of a write. *)
Definition run_gatt_cb (cb : gatt_cb) (node : Z) : PM unit :=
  match cb with
  | CbNone => mret tt
  | CbStartCmplt => prov_start_cmplt node
  | CbCalcEcdh => prov_calc_ecdh node
  end.

(** The reply to [AcquireWrite]: the first write that waits is done. *)
Definition acquire_reply : PM unit :=
  s ← get;
  match ps_pending s with
  | [] => mret tt
  | (data, cb, node) :: rest =>
      _ ← modify (set_pending rest);
      _ ← modify (fun s => let w := ps_world s in
            set_world (World (w_net w) (w_keys w) (w_nodes w) (w_next w) (w_timers w) true (w_out w)) s);
      _ ← on_world (emit (GattWrite data));
      run_gatt_cb cb node
  end.
(** ** The user's answers *)

(** [pending_request.cb(type, buf, len, user_data)] *)
Definition request_cb (type : oob_type) (buf : list Z) : PM unit :=
  s ← get;
  match rq_cb (ps_request s) with
  | None => mret tt
  | Some (CbOutOob node) => prov_out_oob_done type buf node
  | Some (CbPubKey node) => prov_oob_pub_key buf node
  end.

Definition response_hexadecimal (input : line) : PM unit :=
  s ← get;
  match str2hex input (u16 (len input)) (rq_len (ps_request s)) with
  | None => mret tt
  | Some buf => _ ← request_cb HEXADECIMAL buf; reset_input_request
  end.
Definition response_decimal (input : line) : PM unit :=
  s ← get;
  if rq_len (ps_request s) <? len input then mret tt else
  _ ← request_cb DECIMAL (to_be 4 (u32 (atoi input)));
  reset_input_request.
Definition response_ascii (input : line) : PM unit :=
  _ ← request_cb ASCII (take (Z.to_nat (u16 (len input))) input);
  reset_input_request.
Definition response_output : PM unit := reset_input_request.

(** [bt_shell_release_prompt] forgets the saved function before it calls it. *)
Definition bt_shell_release_prompt (input : line) : PM bool :=
  s ← get;
  match ps_prompt s with
  | None => mret false
  | Some r =>
      _ ← modify (set_prompt None);
      _ ← match r with
          | RespHex => response_hexadecimal input
          | RespDecimal => response_decimal input
          | RespAscii => response_ascii input
          | RespOutput => response_output
          end;
      mret true
  end.

(** A line reaches the saved prompt function, unless it is empty. *)
Definition user_line (input : line) : PM unit :=
  if len input =? 0 then mret tt else _ ← bt_shell_release_prompt input; mret tt.
Definition agent_output_request_cancel : PM unit :=
  s ← get;
  if bool_decide (rq_type (ps_request s) <> OUTPUT) then mret tt else
  _ ← modify (fun s => set_request (InputRequest NONE (rq_len (ps_request s)) (rq_cb (ps_request s))) s);
  _ ← bt_shell_release_prompt [];
  mret tt.

(** ** The state machine *)

Definition prov_set_sec_level (level : Z) : PM bool :=
  if MESH_PROV_SEC_HIGH <? level then mret false else _ ← modify (set_level level); mret true.
Definition prov_get_sec_level : PM Z := s ← get; mret (ps_level s).

(** The checks of the device's capabilities against the security level, and of
    their values. *)
Definition level_ok (level : Z) (c : conf_input) : bool :=
  if level =? MESH_PROV_SEC_HIGH then (pub_type c =? 1) || (static_type c =? 1)
  else if level =? MESH_PROV_SEC_MED then
    (pub_type c =? 1) || (static_type c =? 1) || negb (input_size c =? 0) || negb (output_size c =? 0)
  else true.
Definition caps_ok (level : Z) (c : conf_input) : res bool :=
  alg ← get_be16 (caps c) 1;
  mret (level_ok level c && negb (num_ele c =? 0) && truth (Z.land alg 0x0001) &&
        negb ((1 <? pub_type c) || (1 <? static_type c))).

(** The start message, "based on most secure values". *)
Definition choose_start (c : conf_input) : res prov_start :=
  let st := start c in
  if truth (static_type c) then
    mret (ProvStart 0 (pub_type c) PROV_STATIC_OOB (auth_action st) (auth_size st))
  else if input_size c <? output_size c then
    a ← get_be16 (caps c) 6; h ← u16_highest_bit a;
    mret (ProvStart 0 (pub_type c) PROV_OUTPUT_OOB h (output_size c))
  else if 0 <? input_size c then
    a ← get_be16 (caps c) 9; h ← u16_highest_bit a;
    mret (ProvStart 0 (pub_type c) PROV_INPUT_OOB h (input_size c))
  else mret (ProvStart 0 (pub_type c) (auth_method st) (auth_action st) (auth_size st)).

Definition obtain_address (n : Z) : PM Z :=
  s ← get;
  let '(addr, pool) := net_obtain_address n (address_pool (w_net (ps_world s))) in
  _ ← on_world (mod_net (set_address_pool pool));
  mret addr.

(** The state [PROV_INVITE]; [msg] is the message from its type on. *)
Definition on_invite (node a : Z) (msg : list Z) : PM bool :=
  t ← lift (rd msg 0);
  if negb (t =? PROV_CAPS) then prov_complete node PROV_ERR_INVALID_PDU else
  _ ← prov_conf a (set_caps (drop 1 msg));
  p ← prov_ref a;
  level ← prov_get_sec_level;
  ok ← lift (caps_ok level (conf_in p));
  if negb ok then prov_complete node PROV_ERR_INVALID_PDU else
  addr ← obtain_address (num_ele (conf_in p));
  _ ← prov_set a (set_new_addr addr);
  if addr =? 0 then prov_complete node PROV_ERR_INVALID_PDU else
  st ← lift (choose_start (conf_in p));
  _ ← prov_conf a (set_start st);
  if 8 <? auth_size st then prov_complete node PROV_ERR_INVALID_PDU else
  _ ← prov_set a (set_state PROV_START);
  p ← prov_ref a;
  s ← get;
  '(_, pub, priv, draws) ← lift (ecc_make_key (ps_draws s) (prv_pub_key (conf_in p)) (eph_priv_key p));
  _ ← modify (set_draws draws);
  pub ← lift (swap_key pub);
  _ ← prov_set a (fun p => set_eph_priv_key priv (set_conf_in (set_prv_pub_key pub (conf_in p)) p));
  gatt_send ([PROXY_PROVISIONING_PDU; PROV_START] ++ start_bytes st) CbStartCmplt node
    (prov_start_cmplt node).

Definition on_pub_key (node a : Z) (msg : list Z) : PM bool :=
  p ← prov_ref a;
  t ← lift (rd msg 0);
  if (t =? PROV_PUB_KEY) && negb (truth (pub_key (start (conf_in p)))) then
    k ← lift (rd_range msg 1 64);
    _ ← prov_conf a (set_dev_pub_key k);
    _ ← prov_calc_ecdh node;
    mret true
  else if t =? PROV_INP_CMPLT then
    _ ← agent_output_request_cancel;
    prov_send_confirm node
  else prov_complete node PROV_ERR_INVALID_PDU.

Definition on_confirm (node a : Z) (msg : list Z) : PM bool :=
  t ← lift (rd msg 0);
  if negb (t =? PROV_CONFIRM) then prov_complete node PROV_ERR_INVALID_PDU else
  c ← lift (rd_range msg 1 16);
  _ ← prov_set a (set_mesh_conf c);
  p ← prov_ref a;
  _ ← prov_set a (set_state PROV_RANDOM);
  gatt_send ([PROXY_PROVISIONING_PDU; PROV_RANDOM] ++ take 16 (rand_auth p)) CbNone node (mret tt).

Definition on_random (node a : Z) (msg : list Z) : PM bool :=
  t ← lift (rd msg 0);
  if negb (t =? PROV_RANDOM) then prov_complete node PROV_ERR_INVALID_PDU else
  r ← lift (rd_range msg 1 16);
  p ← prov_ref a;
  let sal := (mesh_crypto_prov_prov_salt (salt p) (take 16 (rand_auth p)) r (salt p)).2 in
  let ra := r ++ drop 16 (rand_auth p) in
  _ ← prov_set a (fun p => set_rand_auth ra (set_salt sal p));
  let conf := (mesh_crypto_aes_cmac (conf_key p) ra (rep 16 0)).2 in
  if negb (bool_decide (conf = mesh_conf p)) then prov_complete node PROV_ERR_INVALID_PDU else
  _ ← prov_send_prov_data node;
  mret true.

Definition on_data (node : Z) (msg : list Z) : PM bool :=
  t ← lift (rd msg 0);
  if negb (t =? PROV_COMPLETE) then prov_complete node PROV_ERR_INVALID_PDU else
  prov_complete node 0.

(** [len] is an octet. *)
Definition prov_data_ready (node : Z) (buf : list Z) : PM bool :=
  a ← get_prov node;
  if (a =? 0) || (len buf <? 2) then mret false else
  let msg := drop 1 buf in
  t ← lift (rd msg 0);
  if (PROV_FAILED <? t) || negb (nth (Z.to_nat t) expected_pdu_size 0 =? len msg) then
    prov_complete node PROV_ERR_INVALID_PDU
  else if t =? PROV_FAILED then r ← lift (rd msg 1); prov_complete node r
  else
    p ← prov_ref a;
    let st := pv_state p in
    if st =? PROV_INVITE then on_invite node a msg
    else if st =? PROV_PUB_KEY then on_pub_key node a msg
    else if st =? PROV_CONFIRM then on_confirm node a msg
    else if st =? PROV_RANDOM then on_random node a msg
    else if st =? PROV_DATA then on_data node msg
    else prov_complete node PROV_ERR_INVALID_PDU.
End Prov.
