(* ===== verification/ProvFacts.v ===== *)
(** * Provisioning: what the protocol does

    A session is followed through the handlers of Prov.v: when it ends, what it
    sends, whether it completes, and where the checks of the protocol are missed. *)

From S2P Require Import Prelude Bytes Util Alg Ccm Crypto AddrPool Pdu Keys NetState Send Beacon Recv Node NodeFacts Vli VliMod Ecc Prov.

(** ** Sessions *)

(** The node [id] is [n], and the address its [prov] holds is that of [p]. *)
Record session (id : Z) (n : mesh_node) (p : prov_data) (s : prov_state) : Prop := {
  se_store : store_wf (w_nodes (ps_world s));
  se_node : find_first (is_node id) (ns_nodes (w_nodes (ps_world s))) = Some n;
  se_some : nd_prov n <> 0;
  se_prov : find_first (is_prov (nd_prov n)) (ps_provs s) = Some (nd_prov n, p) }.

(** [*prov = f( *prov)] on the state. *)
Definition upd_prov (a : Z) (f : prov_data -> prov_data) (s : prov_state) : prov_state :=
  set_provs (update_first (is_prov a) (fun x => (x.1, f x.2)) (ps_provs s)) s.

Section Rules.
Context `{Alg}.
Implicit Types s : prov_state.

Lemma session_upd id n p f s : session id n p s -> session id n (f p) (upd_prov (nd_prov n) f s).
Proof.
  intros [Hw Hn Ha Hp]. constructor; try done. cbn [upd_prov ps_provs set_provs].
  by rewrite (find_update_first (is_prov (nd_prov n)) (fun x => (x.1, f x.2)) _ (nd_prov n, p)).
Qed.

(** A state with the same nodes and sessions. *)
Lemma session_same id n p s s' : session id n p s ->
  w_nodes (ps_world s') = w_nodes (ps_world s) -> ps_provs s' = ps_provs s -> session id n p s'.
Proof. intros [Hw Hn Ha Hp] E1 E2. constructor; rewrite ?E1, ?E2; done. Qed.

Lemma wp_on_world {A} (h : NM A) (Q : A -> prov_state -> Prop) s :
  wp h (fun a w => Q a (set_world w s)) (ps_world s) -> wp (on_world h) Q s.
Proof. unfold wp, on_world. by destruct (h (ps_world s)) as [[a w] | e]. Qed.

Lemma set_world_same s : set_world (ps_world s) s = s.
Proof. by destruct s. Qed.

Lemma get_prov_wp id n p s (Q : Z -> prov_state -> Prop) :
  session id n p s -> Q (nd_prov n) s -> wp (get_prov id) Q s.
Proof.
  intros [Hw Hn Ha Hp] HQ. apply wp_on_world. unfold node_get_prov, nonnull_or_fault.
  apply wp_bind. eapply node_deref_wp; [apply Hw | exact Hn |]. apply wp_ret. by rewrite set_world_same.
Qed.

Lemma prov_ref_wp id n p s (Q : prov_data -> prov_state -> Prop) :
  session id n p s -> Q p s -> wp (prov_ref (nd_prov n)) Q s.
Proof.
  intros [Hw Hn Ha Hp] HQ. unfold prov_ref. apply wp_bind, wp_get.
  rewrite (proj2 (Z.eqb_neq (nd_prov n) 0)), Hp by done. by apply (wp_lift _ p).
Qed.

Lemma prov_set_wp id n p f s (Q : unit -> prov_state -> Prop) :
  session id n p s -> Q tt (upd_prov (nd_prov n) f s) -> wp (prov_set (nd_prov n) f) Q s.
Proof.
  intros Hs HQ. unfold prov_set. apply wp_bind. eapply prov_ref_wp; [exact Hs|]. by apply wp_modify.
Qed.

Lemma prov_free_wp id n p s (Q : unit -> prov_state -> Prop) :
  session id n p s -> Q tt (set_provs (remove_first (is_prov (nd_prov n)) (ps_provs s)) s) ->
  wp (prov_free (nd_prov n)) Q s.
Proof.
  intros Hs HQ. unfold prov_free. apply wp_bind. eapply prov_ref_wp; [exact Hs|]. by apply wp_modify.
Qed.

(** ** How a session ends *)

(** The addresses that [prov_complete] gives back. *)
Definition released (p : prov_data) (pool : list Z) : list Z :=
  if truth (new_addr p) && truth (num_ele (conf_in p))
  then net_release_address (new_addr p) (num_ele (conf_in p)) pool else pool.

Definition pool_of s : list Z := address_pool (w_net (ps_world s)).
Definition out_of s : list event := w_out (ps_world s).
Definition nodes_of s : list mesh_node := ns_nodes (w_nodes (ps_world s)).

(** The session failed: it and the node are released, its addresses return to the
    pool, and the link is closed. *)
Record failed (id : Z) (n : mesh_node) (p : prov_data) s s' : Prop := {
  fa_provs : ps_provs s' = remove_first (is_prov (nd_prov n)) (ps_provs s);
  fa_node : find_first (is_node id) (nodes_of s') = None;
  fa_others : ∀ j, j <> id -> find_first (is_node j) (nodes_of s') = find_first (is_node j) (nodes_of s);
  fa_pool : pool_of s' = released p (pool_of s);
  fa_out : out_of s' = out_of s ++ [Disconnect];
  fa_agent : ps_request s' = ps_request s /\ ps_prompt s' = ps_prompt s }.

Lemma release_wp (p : prov_data) status s (Q : unit -> prov_state -> Prop) : truth status = true ->
  (∀ s', w_nodes (ps_world s') = w_nodes (ps_world s) -> ps_provs s' = ps_provs s ->
     pool_of s' = released p (pool_of s) -> out_of s' = out_of s ->
     ps_request s' = ps_request s /\ ps_prompt s' = ps_prompt s -> Q tt s') ->
  wp (if truth status && truth (new_addr p) && truth (num_ele (conf_in p))
      then release_address (new_addr p) (num_ele (conf_in p)) else mret tt) Q s.
Proof.
  intros -> HQ. unfold released in HQ. cbn [andb]. case_goal.
  - apply wp_on_world, wp_modify. by apply HQ.
  - apply wp_ret. by apply HQ.
Qed.

Lemma set_prov_wp id n s v (Q : unit -> prov_state -> Prop) :
  store_wf (w_nodes (ps_world s)) -> find_first (is_node id) (nodes_of s) = Some n ->
  Q tt (set_world (on_store (upd_node id (set_nd_prov v)) (ps_world s)) s) ->
  wp (on_world (node_set_prov (Some id) v)) Q s.
Proof.
  intros Hw Hn HQ. apply wp_on_world. unfold node_set_prov, nonnull_or_fault.
  by eapply node_assign_wp; [apply Hw | exact Hn|].
Qed.

Lemma complete_fails id n p status s : session id n p s -> truth status = true ->
  wp (prov_complete id status) (fun r s' => r = true /\ failed id n p s s') s.
Proof.
  intros Hs Ht. unfold prov_complete. apply wp_bind. eapply get_prov_wp; [exact Hs|].
  rewrite (proj2 (Z.eqb_neq (nd_prov n) 0)) by apply Hs. apply wp_bind. eapply prov_ref_wp; [exact Hs|].
  apply wp_bind, release_wp; [done|]. intros s1 En Ep Epool Eout [Er Epr].
  assert (Hs1 : session id n p s1) by by eapply session_same. rewrite Ht. cbn [negb].
  apply wp_bind, wp_ret, wp_bind. eapply prov_free_wp; [exact Hs1|]. destruct Hs1 as [Hw Hn Ha Hp].
  apply wp_bind. eapply set_prov_wp; [done | exact Hn |].
  apply wp_bind. unfold mesh_prov_done. rewrite Ht. apply wp_bind, wp_on_world.
  unfold node_free, nonnull. apply wp_bind.
  eapply node_deref_wp; [apply Hw | apply find_upd; [done | exact Hn] |].
  apply wp_modify, wp_on_world, wp_modify, wp_ret. split; [done|].
  destruct Hw as [_ Hnd _ _ _]. constructor; cbn.
  - by rewrite Ep.
  - apply (find_remove_first _ nd_id id); [intros y; apply Z.eqb_eq|]. by rewrite map_update_first.
  - intros j Hj. rewrite find_remove_first_other, find_update_first_other; [by unfold nodes_of; rewrite En | |].
    all: intros y; unfold is_node; rewrite Z.eqb_eq; intros Hy; cbn; rewrite ?(proj2 (Z.eqb_neq (nd_id y) j)) by congruence; done.
  - exact Epool.
  - unfold out_of in *. cbn. by rewrite Eout.
  - done.
Qed.

Definition with_key (i : Z) (n : mesh_node) : mesh_node :=
  if in_list i (nd_net_keys n) then n else set_nd_net_keys (nd_net_keys n ++ [i]) n.

(** The session succeeded: the node has its address, key and network, and goes to
    the database. *)
Definition provisioned (p : prov_data) (n : mesh_node) : mesh_node :=
  set_nd_prov 0 (with_key (pv_net_idx p) (set_nd_dev_key (pv_dev_key p)
    (set_nd_primary (new_addr p) (set_nd_num_ele (num_ele (conf_in p)) n)))).

Record completed (id : Z) (n : mesh_node) (p : prov_data) s s' : Prop := {
  co_provs : ps_provs s' = remove_first (is_prov (nd_prov n)) (ps_provs s);
  co_node : find_first (is_node id) (nodes_of s') = Some (provisioned p n);
  co_pool : pool_of s' = pool_of s;
  co_out : out_of s' = out_of s ++ [Db (DbNewNode id (new_addr p)); Disconnect];
  co_agent : ps_request s' = ps_request s /\ ps_prompt s' = ps_prompt s;
  co_valid : ns_valid (w_nodes (ps_world s')) = true }.

(** A state that differs in the node [id] only, which has become [n]. *)
Record node_only (id : Z) (n : mesh_node) s s' : Prop := {
  no_valid : ns_valid (w_nodes (ps_world s')) = true;
  no_node : find_first (is_node id) (nodes_of s') = Some n;
  no_provs : ps_provs s' = ps_provs s;
  no_pool : pool_of s' = pool_of s;
  no_out : out_of s' = out_of s;
  no_agent : ps_request s' = ps_request s /\ ps_prompt s' = ps_prompt s }.

Lemma only_assign id n f s s1 (Q : unit -> prov_state -> Prop) :
  node_only id n s s1 -> (∀ n, nd_id (f n) = nd_id n) ->
  (∀ s', node_only id (f n) s s' -> Q tt s') ->
  wp (on_world (node_assign id f)) Q s1.
Proof.
  intros [Hv Hn Hp Hpl Ho Ha] Hid HQ. apply wp_on_world. eapply node_assign_wp; [done | exact Hn |].
  apply HQ. constructor; try done. by apply find_upd.
Qed.

Lemma net_key_wp id n i s s1 (Q : bool -> prov_state -> Prop) :
  node_only id n s s1 -> (∀ b s', node_only id (with_key i n) s s' -> Q b s') ->
  wp (on_world (node_net_key_add (Some id) i)) Q s1.
Proof.
  intros Hn HQ. apply wp_on_world. wp_step. eapply node_deref_wp; [apply Hn | apply Hn |].
  unfold with_key in HQ. case_goal.
  - apply wp_ret. rewrite set_world_same. by apply HQ.
  - apply wp_bind. eapply node_assign_wp; [apply Hn | apply Hn |]. apply wp_ret, HQ.
    destruct Hn as [? Hm ? ? ? ?]. constructor; try done.
    by apply (find_upd id (fun n0 => set_nd_net_keys (nd_net_keys n0 ++ [i]) n0)).
Qed.

Lemma complete_succeeds id n p s : session id n p s ->
  wp (prov_complete id 0) (fun r s' => r = true /\ completed id n p s s') s.
Proof.
  intros Hs. unfold prov_complete. apply wp_bind. eapply get_prov_wp; [exact Hs|].
  rewrite (proj2 (Z.eqb_neq (nd_prov n) 0)) by apply Hs. apply wp_bind. eapply prov_ref_wp; [exact Hs|].
  change (truth 0) with false. cbn [andb negb]. apply wp_bind, wp_ret, wp_bind.
  destruct Hs as [Hw Hn Ha Hp]. unfold node_set_num_elements, node_set_primary, node_set_device_key,
    nonnull_or_fault, nonnull.
  assert (Hs : node_only id n s s) by (constructor; first [done | apply Hw]).
  do 3 (apply wp_bind; eapply (only_assign _ _ _ s); [exact Hs | done |]; clear Hs; intros ? Hs).
  apply wp_bind. eapply net_key_wp; [exact Hs|]. clear Hs. intros _ s1 Hs.
  pose proof Hs as [Hv1 Hn1 Hp1 Hpl1 Ho1 [Hr1 Hq1]].
  apply wp_ret, wp_bind. unfold prov_free. apply wp_bind. unfold prov_ref. apply wp_bind, wp_get.
  rewrite (proj2 (Z.eqb_neq (nd_prov n) 0)), Hp1, Hp by done. apply (wp_lift _ p); [done|].
  apply wp_modify, wp_bind. eapply (only_assign _ _ _ (set_provs (remove_first (is_prov (nd_prov n)) (ps_provs s)) s)).
  { constructor; [exact Hv1 | exact Hn1 | cbn; by rewrite Hp1 | done..]. } { done. }
  intros s2 [Hv2 Hn2 Hp2 Hpl2 Ho2 [Hr2 Hq2]].
  apply wp_bind. unfold mesh_prov_done. change (truth 0) with false. cbn [negb].
  apply wp_bind, wp_on_world. eapply node_deref_wp; [done | exact Hn2 |].
  apply wp_bind, wp_on_world, wp_modify, wp_on_world, wp_modify, wp_ret. split; [done|].
  constructor; try done. unfold out_of in *. cbn in *. rewrite Ho2, <-app_assoc. do 3 f_equal.
  unfold with_key. by case_match.
Qed.

(** ** Unexpected messages *)

(** The messages the device may send next. *)
Definition next_pdus (p : prov_data) : list Z :=
  let st := pv_state p in
  if st =? PROV_INVITE then [PROV_CAPS]
  else if st =? PROV_PUB_KEY then
    (if truth (pub_key (start (conf_in p))) then [] else [PROV_PUB_KEY]) ++ [PROV_INP_CMPLT]
  else if st =? PROV_CONFIRM then [PROV_CONFIRM]
  else if st =? PROV_RANDOM then [PROV_RANDOM]
  else if st =? PROV_DATA then [PROV_COMPLETE] else [].

(** The message [t :: rest] has the size of its type. *)
Definition right_size (t : Z) (rest : list Z) : bool :=
  (t <=? PROV_FAILED) && (nth (Z.to_nat t) expected_pdu_size 0 =? len (t :: rest)).

Definition unexpected (p : prov_data) (t : Z) (rest : list Z) : bool :=
  negb (right_size t rest) ||
  (if t =? PROV_FAILED then negb (nth 0 rest 0 =? 0) else negb (in_list t (next_pdus p))).

Lemma rd_head x l : rd (x :: l) 0 = Ok x.
Proof. done. Qed.

(** The front of [prov_data_ready]. *)
Definition on_state (id a : Z) (msg : list Z) (p : prov_data) : PM bool :=
  let st := pv_state p in
  if st =? PROV_INVITE then on_invite id a msg
  else if st =? PROV_PUB_KEY then on_pub_key id a msg
  else if st =? PROV_CONFIRM then on_confirm id a msg
  else if st =? PROV_RANDOM then on_random id a msg
  else if st =? PROV_DATA then on_data id msg
  else prov_complete id PROV_ERR_INVALID_PDU.

Lemma data_ready_wp id n p s x t rest (Q : bool -> prov_state -> Prop) : session id n p s ->
  wp (if negb (right_size t rest) then prov_complete id PROV_ERR_INVALID_PDU
      else if t =? PROV_FAILED then prov_complete id (nth 0 rest 0)
      else on_state id (nd_prov n) (t :: rest) p) Q s ->
  wp (prov_data_ready id (x :: t :: rest)) Q s.
Proof.
  intros Hs HQ. unfold prov_data_ready. apply wp_bind. eapply get_prov_wp; [exact Hs|].
  rewrite (proj2 (Z.eqb_neq (nd_prov n) 0)) by apply Hs.
  rewrite (proj2 (Z.ltb_ge (len (x :: t :: rest)) 2)) by (rewrite !len_cons; pose proof (len_nonneg rest); lia).
  cbn [orb drop]. apply wp_bind. apply (wp_lift _ t); [apply rd_head|].
  unfold right_size in HQ. rewrite negb_andb, <-Z.ltb_antisym in HQ. case_goal.
  - done.
  - destruct (Z.eqb_spec t PROV_FAILED) as [-> | Ht].
    + apply wp_bind. destruct rest as [|r rest]; [by rewrite orb_true_r in Heqb|].
      by apply (wp_lift _ r).
    + apply wp_bind. by eapply prov_ref_wp; [exact Hs|].
Qed.

Lemma unexpected_wp id n p s x t rest : session id n p s -> unexpected p t rest = true ->
  wp (prov_data_ready id (x :: t :: rest)) (fun r s' => r = true /\ failed id n p s s') s.
Proof.
  intros Hs Hu. eapply data_ready_wp; [exact Hs|]. unfold unexpected in Hu.
  destruct (negb (right_size t rest)); [by apply complete_fails|].
  cbn [orb] in Hu. destruct (t =? PROV_FAILED).
  { apply complete_fails; [done|]. unfold truth. done. }
  unfold next_pdus in Hu. unfold on_state.
  assert (Hc : wp (prov_complete id PROV_ERR_INVALID_PDU) (fun r s' => r = true /\ failed id n p s s') s)
    by by apply complete_fails.
  assert (Hne : ∀ c l, negb (in_list t (c :: l)) = true -> (t =? c) = false /\ negb (in_list t l) = true).
  { intros c l Hn. rewrite negb_true_iff in *. unfold in_list in *. rewrite bool_decide_eq_false in *.
    apply not_elem_of_cons in Hn as [??]. by rewrite Z.eqb_neq. }
  destruct (pv_state p =? PROV_INVITE); [|destruct (pv_state p =? PROV_PUB_KEY);
    [|destruct (pv_state p =? PROV_CONFIRM); [|destruct (pv_state p =? PROV_RANDOM);
    [|destruct (pv_state p =? PROV_DATA); [|done]]]]].
  all: unfold on_invite, on_pub_key, on_confirm, on_random, on_data.
  2: apply wp_bind; eapply prov_ref_wp; [exact Hs|].
  all: apply wp_bind, (wp_lift _ t); [done|].
  1, 3-5: destruct (Hne _ _ Hu) as [-> _]; done.
  destruct (truth (pub_key _)); cbn [app] in Hu.
  - destruct (Hne _ _ Hu) as [-> _]. by rewrite andb_false_r.
  - destruct (Hne _ _ Hu) as [-> Hu']. by destruct (Hne _ _ Hu') as [-> _].
Qed.
End Rules.

(** ** What is sent

    The provisioning data carries the network key.  [data_sent] counts the messages
    that carry it, written or waiting to be written. *)
Definition is_data_pdu (d : list Z) : bool :=
  (nth 0 d 0 =? PROXY_PROVISIONING_PDU) && (nth 1 d 0 =? PROV_DATA).
Definition is_data_event (e : event) : bool :=
  match e with GattWrite d => is_data_pdu d | _ => false end.
Definition data_sent (s : prov_state) : nat :=
  (length (List.filter is_data_event (w_out (ps_world s))) +
   length (List.filter (fun x => is_data_pdu x.1.1) (ps_pending s)))%nat.

(** [h] sends none. *)
Definition quiet {A} (h : PM A) : Prop := ∀ s a s', h s = Ok (a, s') -> data_sent s' = data_sent s.
(** [h] sends nothing. *)
Definition silent {A} (h : NM A) : Prop := ∀ w a w', h w = Ok (a, w') -> w_out w' = w_out w.

Create HintDb quiet.

Section Quiet.
Context `{Alg}.

Lemma silent_bind {A B} (m : NM A) (f : A -> NM B) : silent m -> (∀ a, silent (f a)) -> silent (m ≫= f).
Proof.
  intros Hm Hf w b w' E. apply st_bind_ok in E as (a & w1 & E1 & E2).
  by rewrite (Hf _ _ _ _ E2), (Hm _ _ _ E1).
Qed.
Lemma silent_ret {A} (a : A) : silent (mret a).
Proof. by intros w b w' [= <- <-]. Qed.
Lemma silent_fail {A} e : silent (A := A) (fail e).
Proof. by intros w b w' E. Qed.
Lemma silent_store : silent store.
Proof. by intros w b w' [= <- <-]. Qed.
Lemma silent_mod_store f : silent (mod_store f).
Proof. by intros w b w' [= <- <-]. Qed.
Lemma silent_mod_net f : silent (mod_net f).
Proof. by intros w b w' [= <- <-]. Qed.
Lemma silent_lift {A} (r : res A) : silent (lift r).
Proof. intros w b w'. destruct r; [by intros [= <- <-] | done]. Qed.

Lemma quiet_bind {A B} (m : PM A) (f : A -> PM B) : quiet m -> (∀ a, quiet (f a)) -> quiet (m ≫= f).
Proof.
  intros Hm Hf s b s' E. apply st_bind_ok in E as (a & s1 & E1 & E2).
  by rewrite (Hf _ _ _ _ E2), (Hm _ _ _ E1).
Qed.
Lemma quiet_ret {A} (a : A) : quiet (mret a).
Proof. by intros w b w' [= <- <-]. Qed.
Lemma quiet_fail {A} e : quiet (A := A) (fail e).
Proof. by intros w b w' E. Qed.
Lemma quiet_get : quiet get.
Proof. by intros w b w' [= <- <-]. Qed.
Lemma quiet_lift {A} (r : res A) : quiet (lift r).
Proof. intros w b w'. destruct r; [by intros [= <- <-] | done]. Qed.
Lemma quiet_modify f : (∀ s, w_out (ps_world (f s)) = w_out (ps_world s) /\ ps_pending (f s) = ps_pending s) ->
  quiet (modify f).
Proof. intros Hf s b s' [= <- <-]. unfold data_sent. by destruct (Hf s) as [-> ->]. Qed.
Lemma quiet_on_world {A} (h : NM A) : silent h -> quiet (on_world h).
Proof.
  intros Hh s b s'. unfold on_world. destruct (h (ps_world s)) as [[a w]|] eqn:E; [|done].
  intros [= <- <-]. unfold data_sent. cbn. by rewrite (Hh _ _ _ E).
Qed.
Lemma quiet_emit e : is_data_event e = false -> quiet (on_world (emit e)).
Proof.
  intros He s b s' [= <- <-]. unfold data_sent. cbn. rewrite List.filter_app. cbn [List.filter].
  by rewrite He, app_nil_r.
Qed.
Lemma quiet_send data cb node run : is_data_pdu data = false -> quiet run ->
  quiet (gatt_send data cb node run).
Proof.
  intros Hd Hr. unfold gatt_send. apply quiet_bind; [apply quiet_get|]. intros s. case_goal.
  - apply quiet_bind; [by apply quiet_emit|]. intros _. apply quiet_bind; [done|]. intros _. apply quiet_ret.
  - apply quiet_bind; [|intros _; apply quiet_ret]. intros s1 b s2 [= <- <-]. unfold data_sent. cbn.
    rewrite List.filter_app. cbn [List.filter fst]. by rewrite Hd, app_nil_r.
Qed.
End Quiet.

#[export] Hint Resolve silent_ret silent_fail silent_store silent_mod_store silent_mod_net silent_lift
  quiet_ret quiet_fail quiet_get quiet_lift quiet_on_world : quiet.

(** Goes through a handler. *)
Ltac quiet_run :=
  repeat first
    [ progress intros
    | solve [auto with quiet]
    | apply quiet_send; [reflexivity|]
    | apply silent_bind | apply quiet_bind
    | apply quiet_emit; reflexivity | apply quiet_on_world | apply quiet_modify; done
    | case_goal ].

Section QuietHandlers.
Context `{Alg}.

Lemma silent_deref id : silent (node_deref id).
Proof. unfold node_deref. quiet_run. Qed.
Hint Resolve silent_deref : quiet.
Lemma silent_assign id f : silent (node_assign id f).
Proof. unfold node_assign. quiet_run. Qed.
Hint Resolve silent_assign : quiet.

Lemma quiet_get_prov id : quiet (get_prov id).
Proof. unfold get_prov, node_get_prov, nonnull_or_fault. quiet_run. Qed.
Hint Resolve quiet_get_prov : quiet.
Lemma quiet_prov_ref a : quiet (prov_ref a).
Proof. unfold prov_ref. quiet_run. Qed.
Hint Resolve quiet_prov_ref : quiet.
Lemma quiet_prov_set a f : quiet (prov_set a f).
Proof. unfold prov_set. quiet_run. Qed.
Hint Resolve quiet_prov_set : quiet.
Lemma quiet_prov_conf a f : quiet (prov_conf a f).
Proof. unfold prov_conf. quiet_run. Qed.
Lemma quiet_prov_free a : quiet (prov_free a).
Proof. unfold prov_free. quiet_run. Qed.
Lemma quiet_random_bytes k : quiet (random_bytes k).
Proof. unfold random_bytes. quiet_run. Qed.
Lemma quiet_set_auth a off b : quiet (set_auth a off b).
Proof. unfold set_auth. quiet_run. Qed.
Hint Resolve quiet_prov_conf quiet_prov_free quiet_random_bytes quiet_set_auth : quiet.

Lemma quiet_complete id status : quiet (prov_complete id status).
Proof.
  unfold prov_complete, mesh_prov_done, release_address, node_set_num_elements, node_set_primary,
    node_set_device_key, node_net_key_add, node_set_prov, node_free, nonnull, nonnull_or_fault.
  quiet_run.
Qed.
Hint Resolve quiet_complete : quiet.

Lemma quiet_send_confirm id : quiet (prov_send_confirm id).
Proof. unfold prov_send_confirm. quiet_run. Qed.
Hint Resolve quiet_send_confirm : quiet.
Lemma quiet_out_oob_done t b id : quiet (prov_out_oob_done t b id).
Proof. unfold prov_out_oob_done. quiet_run. Qed.

Lemma quiet_prompt r : quiet (prompt_input r).
Proof. unfold prompt_input. quiet_run. Qed.
Hint Resolve quiet_out_oob_done quiet_prompt : quiet.
Lemma quiet_input_request t k cb : quiet (agent_input_request t k cb).
Proof. unfold agent_input_request, request_hexadecimal, request_decimal, request_ascii. quiet_run. Qed.
Lemma quiet_output_request : quiet agent_output_request.
Proof. unfold agent_output_request. quiet_run. Qed.
Lemma quiet_input_oob a x y : quiet (input_oob a x y).
Proof. unfold input_oob. quiet_run. Qed.
Hint Resolve quiet_input_request quiet_output_request quiet_input_oob : quiet.
Lemma quiet_calc_ecdh id : quiet (prov_calc_ecdh id).
Proof. unfold prov_calc_ecdh. quiet_run. Qed.
Hint Resolve quiet_calc_ecdh : quiet.
Lemma quiet_send_pub_key id : quiet (prov_send_pub_key id).
Proof. unfold prov_send_pub_key. quiet_run. Qed.
Hint Resolve quiet_send_pub_key : quiet.
Lemma quiet_oob_pub_key b id : quiet (prov_oob_pub_key b id).
Proof. unfold prov_oob_pub_key. quiet_run. Qed.
Lemma quiet_start_cmplt id : quiet (prov_start_cmplt id).
Proof. unfold prov_start_cmplt. quiet_run. Qed.
Hint Resolve quiet_oob_pub_key quiet_start_cmplt : quiet.
Lemma quiet_release_prompt l : quiet (bt_shell_release_prompt l).
Proof.
  unfold bt_shell_release_prompt, response_hexadecimal, response_decimal, response_ascii,
    response_output, reset_input_request, request_cb. quiet_run.
Qed.
Hint Resolve quiet_release_prompt : quiet.
Lemma quiet_user_line l : quiet (user_line l).
Proof. unfold user_line. quiet_run. Qed.
Lemma quiet_obtain_address k : quiet (obtain_address k).
Proof. unfold obtain_address. quiet_run. Qed.
Hint Resolve quiet_obtain_address : quiet.
Lemma quiet_on_invite id a msg : quiet (on_invite id a msg).
Proof. unfold on_invite, prov_get_sec_level. quiet_run. Qed.
Lemma quiet_on_pub_key id a msg : quiet (on_pub_key id a msg).
Proof. unfold on_pub_key, agent_output_request_cancel. quiet_run. Qed.
Lemma quiet_on_confirm id a msg : quiet (on_confirm id a msg).
Proof. unfold on_confirm. quiet_run. Qed.
Lemma quiet_on_data id msg : quiet (on_data id msg).
Proof. unfold on_data. quiet_run. Qed.
Lemma quiet_open id idx : quiet (prov_open id idx).
Proof. unfold prov_open, node_set_prov, nonnull_or_fault. quiet_run. Qed.
Hint Resolve quiet_on_invite quiet_on_pub_key quiet_on_confirm quiet_on_data quiet_open : quiet.

Lemma quiet_acquire : quiet acquire_reply.
Proof.
  intros s u s' (s0 & s1 & [= <- <-] & E0)%st_bind_ok. revert E0. destruct (ps_pending s) as [|[[data cb] id] rest] eqn:E.
  { by intros [= <- <-]. }
  intros (u1 & s1' & [= <- <-] & E1)%st_bind_ok. apply st_bind_ok in E1 as (u2 & s2 & [= <- <-] & E2).
  apply st_bind_ok in E2 as (u3 & s3 & [= <- <-] & E3).
  assert (Hq : quiet (run_gatt_cb cb id)) by (unfold run_gatt_cb; quiet_run). rewrite (Hq _ _ _ E3).
  unfold data_sent. cbn. rewrite E, List.filter_app, length_app. cbn [List.filter fst is_data_event].
  destruct (is_data_pdu data); cbn [length]; lia.
Qed.

(** [h] sends at most one. *)
Definition once {A} (h : PM A) : Prop :=
  ∀ s a s', h s = Ok (a, s') -> data_sent s' = data_sent s \/ data_sent s' = S (data_sent s).
Lemma once_quiet {A} (h : PM A) : quiet h -> once h.
Proof. intros Hh s a s' E. left. by apply Hh in E. Qed.
Lemma once_bind {A B} (m : PM A) (f : A -> PM B) : quiet m -> (∀ a, once (f a)) -> once (m ≫= f).
Proof.
  intros Hm Hf s b s' E. apply st_bind_ok in E as (a & s1 & E1 & E2).
  rewrite <-(Hm _ _ _ E1). by apply Hf in E2.
Qed.
Lemma once_send data node : once (gatt_send data CbNone node (mret tt)).
Proof.
  intros s b s' (s0 & s1 & [= <- <-] & E0)%st_bind_ok. revert E0. unfold data_sent. destruct (w_sync (ps_world s)).
  - intros [= <- <-]. cbn. rewrite List.filter_app, length_app. cbn.
    destruct (is_data_pdu data); cbn; lia.
  - intros [= <- <-]. cbn. rewrite List.filter_app, length_app. cbn.
    destruct (is_data_pdu data); cbn; lia.
Qed.
Lemma once_send_prov_data id : once (prov_send_prov_data id).
Proof.
  unfold prov_send_prov_data, assigned.
  repeat first [ progress intros | apply once_send | apply once_bind; [solve [quiet_run]|]
    | solve [apply once_quiet; quiet_run] | case_goal ].
Qed.

(** The message in [buf] is the device's random value, and with it the device has
    shown that it knew the confirmation key and the authentication value when it sent
    its confirmation. *)
Definition confirmed (id : Z) (buf : list Z) (s : prov_state) : Prop :=
  exists a p r, get_prov id s = Ok (a, s) /\ prov_ref a s = Ok (p, s) /\ pv_state p = PROV_RANDOM /\
    rd (drop 1 buf) 0 = Ok PROV_RANDOM /\ rd_range (drop 1 buf) 1 16 = Ok r /\
    (mesh_crypto_aes_cmac (conf_key p) (r ++ drop 16 (rand_auth p)) (rep 16 0)).2 = mesh_conf p.

(** [get_prov] and [prov_ref] only read. *)
Lemma get_prov_reads id s a s' : get_prov id s = Ok (a, s') -> s' = s.
Proof.
  unfold get_prov, on_world, node_get_prov, nonnull_or_fault.
  destruct ((n ← node_deref id; mret (nd_prov n)) (ps_world s)) as [[b w]|] eqn:E; [|done].
  intros [= <- <-]. apply st_bind_ok in E as (n & w1 & E1 & [= <- <-]).
  unfold node_deref, store in E1. apply st_bind_ok in E1 as (n1 & w2 & [= <- <-] & E2).
  unfold lift in E2. destruct (node_ref _ id); [|done]. injection E2 as <- <-. apply set_world_same.
Qed.
Lemma prov_ref_reads a s p s' : prov_ref a s = Ok (p, s') -> s' = s.
Proof.
  intros (s0 & s1 & [= <- <-] & E)%st_bind_ok. destruct (a =? 0); [done|].
  unfold lift in E. destruct (of_option _ _); [|done]. by injection E as <- <-.
Qed.
Lemma lift_reads {A} (r : res A) (s s' : prov_state) a : lift r s = Ok (a, s') -> r = Ok a /\ s' = s.
Proof. unfold lift. destruct r; [by intros [= <- <-] | done]. Qed.

Lemma on_random_sends id a buf p s b s' : get_prov id s = Ok (a, s) -> prov_ref a s = Ok (p, s) ->
  pv_state p = PROV_RANDOM -> on_random id a (drop 1 buf) s = Ok (b, s') ->
  data_sent s' = data_sent s \/ data_sent s' = S (data_sent s) /\ confirmed id buf s.
Proof.
  intros Ha Hp Hst (t & s1 & [Et ->]%lift_reads & E)%st_bind_ok.
  destruct (Z.eqb_spec t PROV_RANDOM) as [-> | Ht]; cbn [negb] in E;
    [|left; by apply quiet_complete in E].
  apply st_bind_ok in E as (r & s2 & [Er ->]%lift_reads & E).
  apply st_bind_ok in E as (p' & s3 & E3 & E). pose proof (prov_ref_reads _ _ _ _ E3) as ->.
  rewrite Hp in E3. injection E3 as <-.
  apply st_bind_ok in E as (u & s4 & E4 & E). apply quiet_prov_set in E4.
  case_bool_decide as Hc; cbn [negb] in E; [|left; rewrite <-E4; by apply quiet_complete in E].
  apply st_bind_ok in E as (c & s5 & E5 & [= <- <-]). apply once_send_prov_data in E5.
  rewrite E4 in E5. destruct E5 as [E5|E5]; [by left|]. right. split; [done|]. by exists a, p, r.
Qed.

Lemma data_ready_sends id buf s b s' : prov_data_ready id buf s = Ok (b, s') ->
  data_sent s' = data_sent s \/ data_sent s' = S (data_sent s) /\ confirmed id buf s.
Proof.
  intros (a & s1 & Ea & E)%st_bind_ok. pose proof (get_prov_reads _ _ _ _ Ea) as ->.
  destruct (_ || _); [injection E as <- <-; by left|].
  apply st_bind_ok in E as (t & s2 & [Et ->]%lift_reads & E).
  destruct (_ || _); [left; by apply quiet_complete in E|].
  destruct (t =? PROV_FAILED).
  { apply st_bind_ok in E as (r & s3 & [Er ->]%lift_reads & E). left. by apply quiet_complete in E. }
  apply st_bind_ok in E as (p & s3 & Ep & E). pose proof (prov_ref_reads _ _ _ _ Ep) as ->.
  cbv zeta in E. destruct (pv_state p =? PROV_INVITE); [left; by apply quiet_on_invite in E|].
  destruct (pv_state p =? PROV_PUB_KEY); [left; by apply quiet_on_pub_key in E|].
  destruct (pv_state p =? PROV_CONFIRM); [left; by apply quiet_on_confirm in E|].
  destruct (Z.eqb_spec (pv_state p) PROV_RANDOM); [by eapply on_random_sends|].
  destruct (pv_state p =? PROV_DATA); [left; by apply quiet_on_data in E|].
  left; by apply quiet_complete in E.
Qed.

(** Everything that happens to the provisioner. *)
Inductive prov_input :=
| InOpen (id net_idx : Z)
| InMessage (id : Z) (buf : list Z)
| InLine (l : line)
| InAcquired
| InLevel (level : Z).

Definition prov_step (i : prov_input) : PM unit :=
  match i with
  | InOpen id net_idx => _ ← prov_open id net_idx; mret tt
  | InMessage id buf => _ ← prov_data_ready id buf; mret tt
  | InLine l => user_line l
  | InAcquired => acquire_reply
  | InLevel level => _ ← prov_set_sec_level level; mret tt
  end.

Definition confirms (i : prov_input) (s : prov_state) : Prop :=
  match i with InMessage id buf => confirmed id buf s | _ => False end.

Lemma prov_step_sends i s s' : prov_step i s = Ok (tt, s') ->
  data_sent s' = data_sent s \/ data_sent s' = S (data_sent s) /\ confirms i s.
Proof.
  destruct i; cbn [prov_step confirms].
  - intros E. left. revert E. apply (quiet_bind (prov_open id net_idx)); quiet_run.
  - intros (b & s1 & E & [= <-])%st_bind_ok. by apply data_ready_sends in E.
  - intros E. left. revert E. apply quiet_user_line.
  - intros E. left. revert E. apply quiet_acquire.
  - intros E. left. revert E. unfold prov_set_sec_level.
    assert (Hq : quiet (_ ← prov_set_sec_level level; mret tt)) by (unfold prov_set_sec_level; quiet_run).
    apply Hq.
Qed.
End QuietHandlers.

(** ** Theorems *)

Section Theorems.
Context `{Alg}.
Implicit Types s : prov_state.

(** C23: every message that has the wrong size for its type, or that the phase of the
    session does not allow, or that reports a failure with a code other than 0, ends
    the session: the session and the node are freed, every other node stays, exactly
    the addresses that had been obtained go back to the pool, and the link is closed. *)
Theorem unexpected_pdu_ends_session id n p s x t rest :
  session id n p s -> unexpected p t rest = true ->
  exists s', prov_data_ready id (x :: t :: rest) s = Ok (true, s') /\ failed id n p s s'.
Proof. intros Hs Hu. by apply wp_true, unexpected_wp. Qed.

(** C4: over every sequence of events - sessions opened, messages from devices, lines
    typed by the user, writes that complete - if provisioning data, which carries the
    network key, has been sent between two states, then at some point in between a
    message arrived that revealed a random value matching the device's earlier
    confirmation under the session's key and authentication value.  As this holds
    from every state, each transmission has its own such message. *)
Theorem data_only_after_confirmation l s s' :
  mapM_ prov_step l s = Ok (tt, s') -> data_sent s <> data_sent s' ->
  exists l1 i l2 s1 s2, l = l1 ++ i :: l2 /\ mapM_ prov_step l1 s = Ok (tt, s1) /\ confirms i s1 /\
    prov_step i s1 = Ok (tt, s2) /\ data_sent s2 = S (data_sent s).
Proof.
  revert s. induction l as [|i l IH]; cbn [mapM_]; intros s E Hn; [by injection E as <-|].
  apply st_bind_ok in E as ([] & s1 & E1 & E). destruct (prov_step_sends _ _ _ E1) as [Hd | [Hd Hc]].
  - rewrite <-Hd in Hn |- *. destruct (IH s1 E Hn) as (l1 & j & l2 & s2 & s3 & -> & E2 & H').
    exists (i :: l1), j, l2, s2, s3. split; [done|]. split; [|done]. cbn [mapM_].
    unfold mbind, st_bind. by rewrite E1.
  - by exists [], i, l, s, s1.
Qed.

(** The message [PROV_FAILED] with code 0 completes the session successfully in
    every phase, whatever has been exchanged: the node is stored with the address and
    device key the session holds - both zero before the capabilities and before
    the confirmation - and goes to the database. *)
Theorem failed_zero_completes id n p s x :
  session id n p s ->
  exists s', prov_data_ready id [x; PROV_FAILED; 0] s = Ok (true, s') /\ completed id n p s s'.
Proof.
  intros Hs. apply wp_true. eapply data_ready_wp; [exact Hs|]. by apply complete_succeeds.
Qed.
End Theorems.

(** *** A session with a new node *)

Definition demo_new : mesh_node := set_nd_prov 1 (zero_node 3).
Definition demo_pool_net : mesh_net :=
  set_address_pool [0x7fff0100] demo_net.
Definition demo_prov_world : world node_store :=
  World demo_pool_net demo_keys (NodeStore [demo_local; demo_remote; demo_new] (Some 1) true 4 start_statics)
    1 [] true [].
Definition demo_draws : random_source := [Some [2; 0; 0; 0]; Some [5; 0; 0; 0]].
Definition demo_prov : prov_state :=
  ProvState demo_prov_world [(1, opened 0)] 2 no_request None [] MESH_PROV_SEC_LOW [rep 16 17] demo_draws.

Lemma demo_session : session 3 demo_new (opened 0) demo_prov.
Proof.
  constructor; try done. split.
  - done.
  - apply (bool_decide_unpack _). by vm_compute.
  - repeat constructor; cbn; try (apply (bool_decide_unpack _); by vm_compute); lia.
  - by repeat constructor.
  - intros l [= <-]. by exists demo_local.
Qed.

Lemma unexpected_pdu_ends_session_witness :
  exists s', prov_data_ready (H := toy_alg) 3 (0x03 :: PROV_CONFIRM :: rep 16 1) demo_prov = Ok (true, s') /\
    failed 3 demo_new (opened 0) demo_prov s'.
Proof.
  by apply (unexpected_pdu_ends_session (H := toy_alg) 3 demo_new (opened 0) demo_prov 0x03 PROV_CONFIRM (rep 16 1)
    demo_session).
Defined.

Lemma failed_zero_completes_witness :
  exists s', prov_data_ready (H := toy_alg) 3 [0x03; PROV_FAILED; 0] demo_prov = Ok (true, s') /\
    completed 3 demo_new (opened 0) demo_prov s'.
Proof. by apply (failed_zero_completes (H := toy_alg) 3 demo_new (opened 0) demo_prov 0x03 demo_session). Defined.

(** The session whose device has sent the confirmation of the random value 34. *)
Definition demo_revealing : prov_data :=
  set_mesh_conf (mesh_crypto_aes_cmac (H := toy_alg) (rep 16 0) (rep 16 34 ++ rep 16 0) (rep 16 0)).2
    (set_state PROV_RANDOM (opened 0)).
Definition demo_gate : prov_state :=
  ProvState demo_prov_world [(1, demo_revealing)] 2 no_request None [] MESH_PROV_SEC_LOW [] demo_draws.
Definition demo_inputs : list prov_input := [InLevel 1; InMessage 3 (0x03 :: PROV_RANDOM :: rep 16 34)].
Definition demo_sent : prov_state := Eval vm_compute in
  match mapM_ (prov_step (H := toy_alg)) demo_inputs demo_gate with Ok (_, s) => s | Fault _ => demo_gate end.

Lemma data_only_after_confirmation_witness :
  exists l1 i l2 s1 s2, demo_inputs = l1 ++ i :: l2 /\
    mapM_ (prov_step (H := toy_alg)) l1 demo_gate = Ok (tt, s1) /\ confirms (H := toy_alg) i s1 /\
    prov_step (H := toy_alg) i s1 = Ok (tt, s2) /\ data_sent s2 = S (data_sent demo_gate).
Proof.
  apply (data_only_after_confirmation (H := toy_alg) demo_inputs demo_gate demo_sent); [by vm_compute|].
  vm_compute. discriminate.
Defined.
