(* ===== verification/ProvRun.v ===== *)
(** * Provisioning: runs of the protocol

    A session over a pipe that is open, so that a write is done when it returns.  The
    run of a device that follows the protocol completes; runs of devices that do not
    know the authentication value, or have exchanged no key, are accepted as well. *)

From Stdlib Require Import String.
From S2P Require Import Prelude Bytes Util Alg Ccm Crypto AddrPool Pdu Keys NetState Send Beacon Recv Node NodeFacts Vli VliMod Ecc Prov ProvFacts.

(** ** What a session sees *)

(** Everything in the state that a session reads or changes, but for itself. *)
Record view := View {
  vw_out : list event; vw_pool : list Z; vw_draws : random_source; vw_bytes : list (list Z);
  vw_keys : key_store; vw_iv : Z; vw_update : bool; vw_level : Z; vw_request : input_request;
  vw_prompt : option response }.

Definition view_of_state (s : prov_state) : view :=
  View (w_out (ps_world s)) (address_pool (w_net (ps_world s))) (ps_draws s) (ps_bytes s)
    (w_keys (ps_world s)) (iv_index (w_net (ps_world s))) (iv_update (w_net (ps_world s)))
    (ps_level s) (ps_request s) (ps_prompt s).

Definition sends (es : list event) (v : view) : view :=
  View (vw_out v ++ es) (vw_pool v) (vw_draws v) (vw_bytes v) (vw_keys v) (vw_iv v) (vw_update v)
    (vw_level v) (vw_request v) (vw_prompt v).
Definition with_pool (l : list Z) (v : view) : view :=
  View (vw_out v) l (vw_draws v) (vw_bytes v) (vw_keys v) (vw_iv v) (vw_update v)
    (vw_level v) (vw_request v) (vw_prompt v).
Definition with_draws (d : random_source) (v : view) : view :=
  View (vw_out v) (vw_pool v) d (vw_bytes v) (vw_keys v) (vw_iv v) (vw_update v)
    (vw_level v) (vw_request v) (vw_prompt v).
Definition with_bytes (b : list (list Z)) (v : view) : view :=
  View (vw_out v) (vw_pool v) (vw_draws v) b (vw_keys v) (vw_iv v) (vw_update v)
    (vw_level v) (vw_request v) (vw_prompt v).

(** The session of node [id] is [p], the rest is [v], and the pipe is open. *)
Record sees (id : Z) (n : mesh_node) (p : prov_data) (v : view) (s : prov_state) : Prop := {
  ss_session : session id n p s;
  ss_view : view_of_state s = v;
  ss_sync : w_sync (ps_world s) = true }.

Section Rules.
Context `{Alg}.
Implicit Types s : prov_state.

Lemma sees_get id n p v s (Q : Z -> prov_state -> Prop) :
  sees id n p v s -> Q (nd_prov n) s -> wp (get_prov id) Q s.
Proof. intros [Hs _ _]. by eapply get_prov_wp. Qed.

Lemma sees_ref id n p v s (Q : prov_data -> prov_state -> Prop) :
  sees id n p v s -> Q p s -> wp (prov_ref (nd_prov n)) Q s.
Proof. intros [Hs _ _]. by eapply prov_ref_wp. Qed.

Lemma sees_nonzero id n p v s : sees id n p v s -> (nd_prov n =? 0) = false.
Proof. intros [[_ _ Ha _] _ _]. by apply Z.eqb_neq. Qed.

Lemma sees_set id n p v f s (Q : unit -> prov_state -> Prop) :
  sees id n p v s -> (∀ s', sees id n (f p) v s' -> Q tt s') -> wp (prov_set (nd_prov n) f) Q s.
Proof.
  intros [Hs Hv Hy] HQ. eapply prov_set_wp; [exact Hs|]. apply HQ. by constructor; [apply session_upd| |].
Qed.

(** A change of the state outside nodes and sessions. *)
Lemma sees_modify id n p v v' f s (Q : unit -> prov_state -> Prop) :
  sees id n p v s -> w_nodes (ps_world (f s)) = w_nodes (ps_world s) -> ps_provs (f s) = ps_provs s ->
  w_sync (ps_world (f s)) = w_sync (ps_world s) -> view_of_state (f s) = v' ->
  (∀ s', sees id n p v' s' -> Q tt s') -> wp (modify f) Q s.
Proof.
  intros [Hs Hv Hy] E1 E2 E3 E4 HQ. apply wp_modify, HQ.
  constructor; [by eapply session_same | done | by rewrite E3].
Qed.

Lemma sees_random id n p v k s (Q : list Z -> prov_state -> Prop) :
  sees id n p v s ->
  (∀ s', sees id n p (with_bytes (tail (vw_bytes v)) v) s' ->
     Q (take (Z.to_nat k) (default [] (head (vw_bytes v)) ++ rep k 0)) s') ->
  wp (random_bytes k) Q s.
Proof.
  intros Hs HQ. unfold random_bytes. apply wp_bind, wp_get. pose proof (ss_view _ _ _ _ _ Hs) as <-.
  cbn [view_of_state vw_bytes] in HQ. destruct (ps_bytes s) as [|x b] eqn:E; cbn [head tail default] in HQ.
  - apply wp_bind. eapply (sees_modify _ _ _ _ (with_bytes [] (view_of_state s))); [exact Hs | done.. |].
    intros s' Hs'. by apply wp_ret, HQ.
  - apply wp_bind. eapply (sees_modify _ _ _ _ (with_bytes b (view_of_state s))); [exact Hs | done.. |].
    intros s' Hs'. by apply wp_ret, HQ.
Qed.

Lemma sees_send id n p v data cb node run s (Q : bool -> prov_state -> Prop) :
  sees id n p v s ->
  (∀ s', sees id n p (sends [GattWrite data] v) s' -> wp run (fun _ => Q true) s') ->
  wp (gatt_send data cb node run) Q s.
Proof.
  intros [Hs Hv Hy] HQ. unfold gatt_send. apply wp_bind, wp_get. rewrite Hy.
  apply wp_bind, wp_on_world, wp_modify, wp_bind.
  eapply wp_mono; [apply HQ|intros; by apply wp_ret].
  constructor; [by eapply session_same | by rewrite <-Hv | done].
Qed.
End Rules.

(** ** Steps *)

(** With a backend that works, the MAC is a function of key and message. *)
Section Steps.
Context {A : Alg} {AO : AlgOk A} {AT : AlgTotal A}.
Implicit Types s : prov_state.

Lemma cmac_eq k m res : len k = 16 -> len m <= 145 -> mesh_crypto_aes_cmac k m res = (true, cmac k m).
Proof. apply aes_cmac_one_ok. Qed.

(** [prov_send_confirm] on the session. *)
Definition confirming (r : list Z) (p : prov_data) : prov_data :=
  set_state PROV_CONFIRM (set_rand_auth (r ++ drop 16 (rand_auth p)) p).
Definition confirm_msg (r : list Z) (p : prov_data) : list Z :=
  [PROXY_PROVISIONING_PDU; PROV_CONFIRM] ++ cmac (conf_key p) (r ++ drop 16 (rand_auth p)).

Lemma send_confirm_sees id n p v s r b (Q : bool -> prov_state -> Prop) :
  sees id n p v s -> vw_bytes v = r :: b -> len r = 16 -> len (rand_auth p) = 32 -> len (conf_key p) = 16 ->
  (∀ s', sees id n (confirming r p) (sends [GattWrite (confirm_msg r p)] (with_bytes b v)) s' -> Q true s') ->
  wp (prov_send_confirm id) Q s.
Proof.
  intros Hs Hb Hr Hra Hk HQ. unfold prov_send_confirm. apply wp_bind. eapply sees_get; [exact Hs|].
  rewrite (sees_nonzero _ _ _ _ _ Hs). apply wp_bind. eapply sees_random; [exact Hs|].
  rewrite Hb. cbn [head tail default]. intros s1 Hs1. rewrite (take_app_length' r) by (unfold len in Hr; lia).
  apply wp_bind. eapply sees_set; [exact Hs1|]. intros s2 Hs2.
  apply wp_bind. eapply sees_ref; [exact Hs2|].
  apply wp_bind. eapply sees_set; [exact Hs2|]. intros s3 Hs3.
  eapply sees_send; [exact Hs3|]. intros s4 Hs4. apply wp_ret, HQ. revert Hs4.
  cbn [set_rand_auth conf_key rand_auth]. rewrite cmac_eq; [done | done |].
  rewrite len_app. unfold len in *. rewrite length_drop. lia.
Qed.

(** The device's confirmation arrives: the random value is revealed. *)
Definition revealing (c : list Z) (p : prov_data) : prov_data := set_state PROV_RANDOM (set_mesh_conf c p).

Lemma confirm_step id n p v s x c : sees id n p v s -> pv_state p = PROV_CONFIRM -> len c = 16 ->
  wp (prov_data_ready id (x :: PROV_CONFIRM :: c)) (fun r s' => r = true /\
    sees id n (revealing c p)
      (sends [GattWrite ([PROXY_PROVISIONING_PDU; PROV_RANDOM] ++ take 16 (rand_auth p))] v) s') s.
Proof.
  intros Hs Hp Hc. eapply data_ready_wp; [apply Hs|]. unfold right_size. rewrite len_cons, Hc. cbn [negb].
  unfold on_state. rewrite Hp. unfold on_confirm. apply wp_bind, (wp_lift _ PROV_CONFIRM); [done|].
  apply wp_bind, (wp_lift _ c).
  { rewrite rd_range_ok by (rewrite ?len_cons, ?Hc; lia). cbn [drop Z.to_nat]. change (drop (Z.to_nat 1) (PROV_CONFIRM :: c)) with c. rewrite take_ge; [done|]. unfold len in Hc. lia. }
  apply wp_bind. eapply sees_set; [exact Hs|]. intros s1 Hs1. apply wp_bind. eapply sees_ref; [exact Hs1|].
  apply wp_bind. eapply sees_set; [exact Hs1|]. intros s2 Hs2. eapply sees_send; [exact Hs2|].
  intros s3 Hs3. by apply wp_ret.
Qed.

(** *** The keys of the end of the protocol, from the secret and the salt *)

Definition session_key (secret sal : list Z) : list Z := k1_of secret sal (octets "prsk").
Definition session_nonce (secret sal : list Z) : list Z := drop 3 (k1_of secret sal (octets "prsn")).
Definition device_key (secret sal : list Z) : list Z := k1_of secret sal (octets "prdk").
Definition conf_key_of (secret sal : list Z) : list Z := k1_of secret sal (octets "prck").

Lemma two_macs secret sal l o : len sal = 16 -> len secret = 32 -> (length l <= 100)%nat ->
  (let '(ok, k) := aes_cmac_one sal secret o in
   if negb ok then (false, k) else aes_cmac_one k l k) = (true, k1_of secret sal l).
Proof.
  intros Hs Hz Hl. rewrite aes_cmac_one_ok by lia. cbn [negb].
  apply aes_cmac_one_ok; [by apply cmac_ok | unfold len; lia].
Qed.

Lemma session_key_eq secret sal o : len sal = 16 -> len secret = 32 ->
  mesh_crypto_session_key secret sal o = (true, session_key secret sal).
Proof. intros. by apply two_macs; [..|vm_compute; lia]. Qed.
Lemma device_key_eq secret sal o : len sal = 16 -> len secret = 32 ->
  mesh_crypto_device_key secret sal o = (true, device_key secret sal).
Proof. intros. by apply two_macs; [..|vm_compute; lia]. Qed.
Lemma conf_key_eq secret sal o : len sal = 16 -> len secret = 32 ->
  mesh_crypto_prov_conf_key secret sal o = (true, conf_key_of secret sal).
Proof. intros. by apply two_macs; [..|vm_compute; lia]. Qed.
Lemma session_nonce_eq secret sal o : len sal = 16 -> len secret = 32 ->
  mesh_crypto_nonce secret sal o = (true, session_nonce secret sal).
Proof.
  intros Hs Hz. unfold mesh_crypto_nonce. rewrite aes_cmac_one_ok by lia. cbn [negb].
  rewrite aes_cmac_one_ok; [done | by apply cmac_ok | by vm_compute].
Qed.

Lemma k1_len secret sal l : len sal = 16 -> len (k1_of secret sal l) = 16.
Proof. intros Hs. by apply cmac_ok, cmac_ok. Qed.
Lemma session_nonce_len secret sal : len sal = 16 -> len (session_nonce secret sal) = 13.
Proof.
  intros Hs. pose proof (k1_len secret sal (octets "prsn") Hs). unfold session_nonce, len in *.
  rewrite length_drop. lia.
Qed.

(** *** The device reveals its random value *)

Definition final_salt (r : list Z) (p : prov_data) : list Z :=
  cmac (rep 16 0) (salt p ++ take 16 (rand_auth p) ++ r).
Definition finishing (r : list Z) (p : prov_data) : prov_data :=
  set_state PROV_DATA (set_pv_dev_key (device_key (ecdh_secret p) (final_salt r p))
    (set_rand_auth (r ++ drop 16 (rand_auth p)) (set_salt (final_salt r p) p))).

(** What the device is told. *)
Definition payload (p : prov_data) (key : list Z) (v : view) : list Z :=
  prov_payload key (pv_net_idx p) (default 0 (net_get_flags (vw_keys v) (vw_update v) (pv_net_idx p)))
    (vw_iv v) (new_addr p).
Definition data_msg (r : list Z) (p : prov_data) (key : list Z) (v : view) : list Z :=
  [PROXY_PROVISIONING_PDU; PROV_DATA] ++
    sealed_msg (session_key (ecdh_secret p) (final_salt r p))
      (session_nonce (ecdh_secret p) (final_salt r p)) [] (payload p key v) 8.

(** The arrays of a session have their sizes. *)
Record sized (p : prov_data) : Prop := {
  sz_secret : len (ecdh_secret p) = 32; sz_rand : len (rand_auth p) = 32; sz_salt : len (salt p) = 16;
  sz_key : len (conf_key p) = 16; sz_priv : len (eph_priv_key p) = 32 }.

Lemma assigned_wp l s (Q : list Z -> prov_state -> Prop) : 0 < len l -> Q l s -> wp (assigned l) Q s.
Proof. intros Hl HQ. unfold assigned. case_bool_decide as E; [by rewrite E in Hl | done]. Qed.

(** Encryption in place, with room for the MIC behind the message. *)
Lemma seal_in_place key nonce msg : len key = 16 -> len nonce = 13 -> 1 <= len msg < 0x10000 ->
  mesh_crypto_aes_ccm_encrypt nonce key [] 0 (len msg) 8 (InPlace (msg ++ rep 8 0) 0) =
  Ok (Some (ref_tag (ecb_of key) nonce [] msg 8), InPlace (sealed_msg key nonce [] msg 8) 0).
Proof.
  intros Hk Hn Hm.
  pose proof (ccm_encrypt_eq key Hk nonce [] msg 8 (FIn [] (rep 8 0)) Hn (or_introl eq_refl) Hm
    (or_intror eq_refl) ltac:(by vm_compute)) as E.
  cbn [io_of io_done app] in E. change (drop (length (@nil Z)) msg) with (drop 0 msg) in E.
  rewrite drop_0 in E. change (len []) with 0 in E. rewrite E. unfold sealed_msg. do 3 f_equal.
  assert (Ht : len (ref_tag (ecb_of key) nonce [] msg 8) = 16) by by apply ref_tag_len.
  rewrite drop_ge, app_nil_r; [done|]. unfold len in Ht. rewrite length_take.
  change (length (rep 8 0)) with 8%nat. change (Z.to_nat 8) with 8%nat. lia.
Qed.

Lemma payload_len key idx flags iv addr : len key = 16 -> len (prov_payload key idx flags iv addr) = 25.
Proof.
  intros Hk. unfold prov_payload. rewrite !len_app, Hk.
  by rewrite !len_to_be.
Qed.

Lemma send_data_sees id n p v key s : sees id n p v s -> len (salt p) = 16 -> len (ecdh_secret p) = 32 ->
  net_get_key (vw_keys v) (pv_net_idx p) = Some key -> len key = 16 ->
  wp (prov_send_prov_data id) (fun _ s' =>
    sees id n (set_state PROV_DATA (set_pv_dev_key (device_key (ecdh_secret p) (salt p)) p))
      (sends [GattWrite ([PROXY_PROVISIONING_PDU; PROV_DATA] ++
         sealed_msg (session_key (ecdh_secret p) (salt p)) (session_nonce (ecdh_secret p) (salt p)) []
           (payload p key v) 8)] v) s') s.
Proof.
  intros Hs Hsl Hz Hk Hkl. unfold prov_send_prov_data. apply wp_bind. eapply sees_get; [exact Hs|].
  rewrite (sees_nonzero _ _ _ _ _ Hs). apply wp_bind. eapply sees_ref; [exact Hs|].
  rewrite session_key_eq, session_nonce_eq, device_key_eq by done. cbn [snd].
  apply wp_bind. eapply sees_set; [exact Hs|]. intros s1 Hs1. apply wp_bind, wp_get.
  pose proof (ss_view _ _ _ _ _ Hs1) as <-. cbn [view_of_state vw_keys] in Hk. rewrite Hk.
  pose proof (k1_len (ecdh_secret p) (salt p) (octets "prsk") Hsl) as Lk.
  pose proof (session_nonce_len (ecdh_secret p) (salt p) Hsl) as Ln.
  assert (Lp : len (payload p key (view_of_state s1)) = 25) by by apply payload_len.
  apply wp_bind, assigned_wp; [unfold session_key; rewrite Lk; done|]. apply wp_bind, assigned_wp; [by rewrite Ln|].
  apply wp_bind. pose proof (seal_in_place _ _ (payload p key (view_of_state s1)) Lk Ln ltac:(lia)) as E.
  rewrite Lp in E. eapply wp_lift; [exact E|].
  apply wp_bind. eapply sees_set; [exact Hs1|]. intros s2 Hs2.
  eapply sees_send; [exact Hs2|]. intros s3 Hs3. by apply wp_ret.
Qed.

Lemma random_step id n p v key s x r : sees id n p v s -> pv_state p = PROV_RANDOM -> len r = 16 ->
  sized p -> cmac (conf_key p) (r ++ drop 16 (rand_auth p)) = mesh_conf p ->
  net_get_key (vw_keys v) (pv_net_idx p) = Some key -> len key = 16 ->
  wp (prov_data_ready id (x :: PROV_RANDOM :: r)) (fun b s' => b = true /\
    sees id n (finishing r p) (sends [GattWrite (data_msg r p key v)] v) s') s.
Proof.
  intros Hs Hp Hr [Hz Hra Hsl Hck _] Hc Hk Hkl. eapply data_ready_wp; [apply Hs|]. unfold right_size.
  rewrite len_cons, Hr. cbn [negb]. unfold on_state. rewrite Hp. unfold on_random.
  apply wp_bind, (wp_lift _ PROV_RANDOM); [done|]. apply wp_bind, (wp_lift _ r).
  { rewrite rd_range_ok by (rewrite ?len_cons, ?Hr; lia).
    change (drop (Z.to_nat 1) (PROV_RANDOM :: r)) with r. rewrite take_ge; [done|]. unfold len in Hr. lia. }
  apply wp_bind. eapply sees_ref; [exact Hs|]. unfold mesh_crypto_prov_prov_salt.
  assert (Hl1 : len (salt p ++ take 16 (rand_auth p) ++ r) <= 145).
  { rewrite !len_app, Hsl, Hr. unfold len in *. rewrite length_take. lia. }
  assert (Hl2 : len (r ++ drop 16 (rand_auth p)) <= 145).
  { rewrite len_app, Hr. unfold len in *. rewrite length_drop. lia. }
  rewrite (aes_cmac_one_ok (rep 16 0)) by (done || by vm_compute). cbn [snd]. fold (final_salt r p).
  apply wp_bind. eapply sees_set; [exact Hs|]. intros s1 Hs1.
  rewrite cmac_eq by done. cbn [snd]. rewrite bool_decide_true by done. cbn [negb].
  apply wp_bind. eapply wp_mono.
  { apply (send_data_sees _ _ _ _ key _ Hs1); [by apply cmac_ok | done..]. }
  cbn beta. intros _ s2 Hs2. by apply wp_ret.
Qed.

(** *** Capabilities *)

(** The session before and after the capabilities [c] of a device without an
    out-of-band public key: the address [addr], the start message [st] and the key
    pair of the provisioner. *)
Definition asked (c : list Z) (p : prov_data) : conf_input := set_caps c (conf_in p).
Definition started (c : list Z) (addr : Z) (st : prov_start) (pub priv : list Z) (p : prov_data) : prov_data :=
  set_state PROV_PUB_KEY (set_eph_priv_key priv (set_conf_in (set_prv_pub_key pub
    (set_start st (asked c p))) (set_state PROV_START (set_new_addr addr (set_conf_in (asked c p) p))))).

(** [net_obtain_address] and [ecc_make_key] succeed. *)
Record resources (c : list Z) (p : prov_data) (v : view) (addr : Z) (pool : list Z) (st : prov_start)
    (pub priv : list Z) (d : random_source) : Prop := {
  rs_caps : caps_ok (vw_level v) (asked c p) = Ok true;
  rs_addr : net_obtain_address (num_ele (asked c p)) (vw_pool v) = (addr, pool);
  rs_some : addr <> 0;
  rs_start : choose_start (asked c p) = Ok st;
  rs_size : auth_size st <= 8;
  rs_key : exists k, ecc_make_key (vw_draws v) (prv_pub_key (conf_in p)) (eph_priv_key p) =
             Ok (true, k, priv, d) /\ swap_key k = Ok pub }.

Definition start_msgs (st : prov_start) (pub : list Z) : list event :=
  [GattWrite ([PROXY_PROVISIONING_PDU; PROV_START] ++ start_bytes st);
   GattWrite ([PROXY_PROVISIONING_PDU; PROV_PUB_KEY] ++ pub)].

Lemma obtain_sees id n p v k addr pool s (Q : Z -> prov_state -> Prop) : sees id n p v s ->
  net_obtain_address k (vw_pool v) = (addr, pool) ->
  (∀ s', sees id n p (with_pool pool v) s' -> Q addr s') -> wp (obtain_address k) Q s.
Proof.
  intros [Hs <- Hy] Ha HQ. unfold obtain_address. apply wp_bind, wp_get.
  cbn [view_of_state vw_pool] in Ha. rewrite Ha. apply wp_bind, wp_on_world, wp_modify, wp_ret, HQ.
  constructor; [by eapply session_same | done | done].
Qed.

Lemma sends_app es fs v : sends fs (sends es v) = sends (es ++ fs) v.
Proof. unfold sends. cbn. by rewrite app_assoc. Qed.

(** The start message is out, and with it the public key. *)
Lemma start_cmplt_sees id n p v s : sees id n p v s -> pub_key (start (conf_in p)) = 0 ->
  wp (prov_start_cmplt id) (fun _ s' => sees id n (set_state PROV_PUB_KEY p)
    (sends [GattWrite ([PROXY_PROVISIONING_PDU; PROV_PUB_KEY] ++ prv_pub_key (conf_in p))] v) s') s.
Proof.
  intros Hs Hk. unfold prov_start_cmplt, prov_send_pub_key.
  apply wp_bind. eapply sees_get; [exact Hs|]. rewrite (sees_nonzero _ _ _ _ _ Hs).
  apply wp_bind. eapply sees_ref; [exact Hs|]. rewrite Hk. change (truth 0) with false. cbn iota.
  apply wp_bind. eapply sees_get; [exact Hs|]. rewrite (sees_nonzero _ _ _ _ _ Hs).
  apply wp_bind. eapply sees_ref; [exact Hs|]. rewrite Hk. change (truth 0) with false. cbn iota.
  apply wp_bind. eapply sees_set; [exact Hs|]. intros s1 Hs1.
  apply wp_bind. eapply sees_send; [exact Hs1|]. intros s2 Hs2. by apply wp_ret, wp_ret.
Qed.

Lemma caps_step id n p v s x c addr pool st pub priv d : sees id n p v s -> pv_state p = PROV_INVITE ->
  len c = 11 -> resources c p v addr pool st pub priv d -> pub_key st = 0 ->
  wp (prov_data_ready id (x :: PROV_CAPS :: c)) (fun b s' => b = true /\
    sees id n (started c addr st pub priv p)
      (sends (start_msgs st pub) (with_draws d (with_pool pool v))) s') s.
Proof.
  intros Hs Hp Hc [Hok Ha Hne Hst Hsz (k & Hk & Hpub)] Hpk. eapply data_ready_wp; [apply Hs|].
  unfold right_size. rewrite len_cons, Hc. cbn [negb]. unfold on_state. rewrite Hp. unfold on_invite.
  apply wp_bind, (wp_lift _ PROV_CAPS); [done|]. change (negb (PROV_CAPS =? PROV_CAPS)) with false.
  change (drop 1 (PROV_CAPS :: c)) with c. cbn iota. apply wp_bind. eapply sees_set; [exact Hs|]. intros s1 Hs1. fold (asked c p) in Hs1.
  apply wp_bind. eapply sees_ref; [exact Hs1|]. unfold prov_get_sec_level.
  apply wp_bind, wp_bind, wp_get, wp_ret. pose proof (ss_view _ _ _ _ _ Hs1) as Hv1.
  apply wp_bind, (wp_lift _ true); [by rewrite <-Hv1 in Hok|]. cbn [negb].
  apply wp_bind. eapply obtain_sees; [exact Hs1 | exact Ha|]. intros s2 Hs2.
  apply wp_bind. eapply sees_set; [exact Hs2|]. intros s3 Hs3. rewrite (proj2 (Z.eqb_neq addr 0)) by done.
  apply wp_bind. eapply wp_lift; [exact Hst|]. apply wp_bind. eapply sees_set; [exact Hs3|]. intros s4 Hs4.
  rewrite (proj2 (Z.ltb_ge 8 _)) by done. apply wp_bind. eapply sees_set; [exact Hs4|]. intros s5 Hs5.
  apply wp_bind. eapply sees_ref; [exact Hs5|]. apply wp_bind, wp_get.
  pose proof (ss_view _ _ _ _ _ Hs5) as Hv5. apply wp_bind.
  eapply wp_lift; [rewrite (f_equal vw_draws Hv5 : ps_draws s5 = vw_draws v); exact Hk|].
  apply wp_bind. eapply (sees_modify _ _ _ _ (with_draws d (with_pool pool v))); [exact Hs5 | done.. | |].
  { by rewrite <-Hv5. }
  intros s6 Hs6. apply wp_bind. eapply wp_lift; [exact Hpub|].
  apply wp_bind. eapply sees_set; [exact Hs6|]. intros s7 Hs7.
  eapply sees_send; [exact Hs7|]. intros s8 Hs8. eapply wp_mono.
  { eapply start_cmplt_sees; [exact Hs8 | exact Hpk]. }
  cbn beta. intros _ s9 Hs9. split; [done|]. by rewrite sends_app in Hs9.
Qed.

(** *** The device's public key *)

Definition agreed (k secret : list Z) (p : prov_data) : prov_data :=
  let c := set_dev_pub_key k (conf_in p) in
  let sal := cmac (rep 16 0) (conf_bytes c) in
  set_conf_key (conf_key_of secret sal) (set_salt sal (set_ecdh_secret secret (set_conf_in c p))).

(** The code's elliptic curve functions give [secret] for the device's key [k]. *)
Definition shares (k : list Z) (p : prov_data) (draws d : random_source) (secret : list Z) : Prop :=
  exists tmp b z, swap_key k = Ok tmp /\
    ecdh_shared_secret draws tmp (eph_priv_key p) (ecdh_secret p) = Ok (b, z, d) /\
    swap_u256_bytes z = Ok secret.

Lemma pub_key_step id n p v s x k secret d r b : sees id n p v s -> pv_state p = PROV_PUB_KEY ->
  pub_key (start (conf_in p)) = 0 -> auth_method (start (conf_in p)) = PROV_NO_OOB ->
  len k = 64 -> len (rand_auth p) = 32 -> len (conf_bytes (set_dev_pub_key k (conf_in p))) = 145 ->
  shares k p (vw_draws v) d secret -> len secret = 32 -> vw_bytes v = r :: b -> len r = 16 ->
  wp (prov_data_ready id (x :: PROV_PUB_KEY :: k)) (fun b1 s' => b1 = true /\
    sees id n (confirming r (agreed k secret p))
      (sends [GattWrite (confirm_msg r (agreed k secret p))] (with_bytes b (with_draws d v))) s') s.
Proof.
  intros Hs Hp Hpk Hm Hk Hra Hcl (tmp & b0 & z & Htmp & Hz & Hsec) Hsl Hb Hr.
  eapply data_ready_wp; [apply Hs|]. unfold right_size. rewrite len_cons, Hk. cbn [negb].
  unfold on_state. rewrite Hp. unfold on_pub_key. apply wp_bind. eapply sees_ref; [exact Hs|].
  apply wp_bind, (wp_lift _ PROV_PUB_KEY); [done|]. rewrite Hpk.
  apply wp_bind, (wp_lift _ k).
  { rewrite rd_range_ok by (rewrite ?len_cons, ?Hk; lia).
    change (drop (Z.to_nat 1) (PROV_PUB_KEY :: k)) with k. rewrite take_ge; [done|]. unfold len in Hk. lia. }
  apply wp_bind. eapply sees_set; [exact Hs|]. intros s1 Hs1. apply wp_bind. unfold prov_calc_ecdh.
  apply wp_bind. eapply sees_get; [exact Hs1|]. apply wp_bind. eapply sees_ref; [exact Hs1|].
  apply wp_bind. eapply wp_lift; [exact Htmp|]. apply wp_bind, wp_get. apply wp_bind.
  eapply wp_lift; [rewrite (f_equal vw_draws (ss_view _ _ _ _ _ Hs1) : ps_draws s1 = vw_draws v); exact Hz|].
  apply wp_bind. eapply (sees_modify _ _ _ _ (with_draws d v)); [exact Hs1 | done.. | |].
  { by rewrite <-(ss_view _ _ _ _ _ Hs1). }
  intros s2 Hs2. apply wp_bind. eapply wp_lift; [exact Hsec|].
  set (c := set_dev_pub_key k (conf_in p)) in *.
  assert (Hsal : len (cmac (rep 16 0) (conf_bytes c)) = 16) by by apply cmac_ok.
  unfold mesh_crypto_s1. rewrite (aes_cmac_one_ok (rep 16 0) (conf_bytes c)) by (done || by rewrite Hcl).
  cbn [snd]. rewrite conf_key_eq by done. cbn [snd].
  apply wp_bind. eapply sees_set; [exact Hs2|]. intros s3 Hs3. cbn [conf_in set_conf_in start set_dev_pub_key c].
  rewrite Hm. apply wp_bind.
  eapply (send_confirm_sees _ _ _ _ _ r b); [exact Hs3 | exact Hb | done | exact Hra | by apply k1_len |].
  intros s4 Hs4. by do 2 apply wp_ret.
Qed.

(** *** "Input complete" *)

Lemma inp_cmplt_step id n p v s x r b : sees id n p v s -> pv_state p = PROV_PUB_KEY ->
  rq_type (vw_request v) <> OUTPUT -> len (rand_auth p) = 32 -> len (conf_key p) = 16 ->
  vw_bytes v = r :: b -> len r = 16 ->
  wp (prov_data_ready id [x; PROV_INP_CMPLT]) (fun b1 s' => b1 = true /\
    sees id n (confirming r p) (sends [GattWrite (confirm_msg r p)] (with_bytes b v)) s') s.
Proof.
  intros Hs Hp Hrq Hra Hck Hb Hr. eapply data_ready_wp; [apply Hs|]. cbn [right_size negb].
  unfold on_state. rewrite Hp. unfold on_pub_key. apply wp_bind. eapply sees_ref; [exact Hs|].
  apply wp_bind, (wp_lift _ PROV_INP_CMPLT); [done|]. cbn [andb].
  unfold agent_output_request_cancel. apply wp_bind, wp_bind, wp_get.
  rewrite bool_decide_true by (by rewrite <-(ss_view _ _ _ _ _ Hs) in Hrq). apply wp_ret.
  by eapply send_confirm_sees.
Qed.

(** *** Completion *)

Lemma complete_step id n p v s x : sees id n p v s -> pv_state p = PROV_DATA ->
  wp (prov_data_ready id [x; PROV_COMPLETE]) (fun b s' => b = true /\ completed id n p s s') s.
Proof.
  intros Hs Hp. eapply data_ready_wp; [apply Hs|]. cbn [right_size negb].
  unfold on_state. rewrite Hp. unfold on_data. apply wp_bind, (wp_lift _ PROV_COMPLETE); [done|].
  apply complete_succeeds, Hs.
Qed.
End Steps.

(** ** Runs *)

Section Runs.
Context {A : Alg} {AO : AlgOk A} {AT : AlgTotal A}.
Implicit Types s : prov_state.

Definition messages (id : Z) (l : list (list Z)) : PM unit := mapM_ prov_step (InMessage id <$> l).

Lemma run_cons id m l (R : prov_state -> Prop) (Q : unit -> prov_state -> Prop) s :
  wp (prov_data_ready id m) (fun b s' => b = true /\ R s') s ->
  (∀ s', R s' -> wp (messages id l) Q s') -> wp (messages id (m :: l)) Q s.
Proof.
  intros Hm Hl. unfold messages. rewrite fmap_cons. cbn [mapM_ prov_step].
  apply wp_bind, wp_bind. eapply wp_mono; [exact Hm|]. intros b s' [_ HR]. by apply wp_ret, Hl.
Qed.

Lemma wp_run3 {B C} (h : PM unit) (P : prov_state -> B -> C -> Prop) s :
  wp h (fun _ s' => exists x y, P s' x y) s -> exists s' x y, h s = Ok (tt, s') /\ P s' x y.
Proof. intros ([] & s' & E & x & y & HP)%wp_ok. by exists s', x, y. Qed.

(** What the device sends after the keys are agreed: its confirmation and its random
    value, for the authentication value [auth]. *)
Definition device_confirm (ck r auth : list Z) : list Z := cmac ck (r ++ auth).

Lemma len_16 (l : list Z) : len l = 16 -> length l = 16%nat.
Proof. unfold len. lia. Qed.

(** From the provisioner's confirmation on. *)
Lemma check_run id n p v key ck auth r r' s l (Q : unit -> prov_state -> Prop) :
  sees id n (confirming r p) v s -> conf_key p = ck -> drop 16 (rand_auth p) = auth ->
  len r = 16 -> len r' = 16 -> sized p ->
  net_get_key (vw_keys v) (pv_net_idx p) = Some key -> len key = 16 ->
  (∀ s', let p' := revealing (device_confirm ck r' auth) (confirming r p) in
     sees id n (finishing r' p') (sends [GattWrite ([PROXY_PROVISIONING_PDU; PROV_RANDOM] ++ r);
       GattWrite (data_msg r' p' key v)] v) s' -> wp (messages id l) Q s') ->
  wp (messages id (([PROXY_PROVISIONING_PDU; PROV_CONFIRM] ++ device_confirm ck r' auth) ::
      ([PROXY_PROVISIONING_PDU; PROV_RANDOM] ++ r') :: l)) Q s.
Proof.
  intros Hs <- <- Hr Hr' [Hz Hra Hsl Hck Hpv] Hk Hkl HQ. set (c := device_confirm _ _ _) in *.
  assert (Ht : take 16 (r ++ drop 16 (rand_auth p)) = r) by (apply take_app_length'; by rewrite len_16).
  assert (Hd : drop 16 (r ++ drop 16 (rand_auth p)) = drop 16 (rand_auth p))
    by (apply drop_app_length'; by rewrite len_16).
  eapply run_cons; [eapply confirm_step; [exact Hs | done | by apply cmac_ok]|].
  intros s1 Hs1. cbn [confirming rand_auth set_state set_rand_auth] in Hs1. rewrite Ht in Hs1.
  eapply run_cons; [eapply (random_step _ _ _ _ key); [exact Hs1 | done | done | | | exact Hk | exact Hkl]|].
  - constructor; cbn; try done. rewrite len_app, Hr. unfold len in *. rewrite length_drop. lia.
  - cbn. by rewrite Hd.
  - intros s2 Hs2. apply HQ. by rewrite sends_app in Hs2.
Qed.

(** The device reads the provisioning data with the keys it derives itself. *)
Definition device_reads (secret sal enc data : list Z) : Prop :=
  exists tag, mesh_crypto_aes_ccm_decrypt (session_nonce secret sal) (session_key secret sal) [] 0 33 8
    false (Separate enc 0 (rep 33 0) 0) = Ok (Some (true, tag), Separate enc 0 (data ++ rep 8 0) 0).

Lemma sealed_read secret sal data : len sal = 16 -> len data = 25 ->
  device_reads secret sal
    (sealed_msg (session_key secret sal) (session_nonce secret sal) [] data 8) data.
Proof.
  intros Hs Hd. eexists.
  pose proof (ccm_unseal (session_key secret sal) (k1_len _ _ _ Hs) (session_nonce secret sal) [] data 8
    (rep 25 0) (rep 8 0) [] (session_nonce_len _ _ Hs) (or_introl eq_refl) ltac:(lia) ltac:(lia)
    (or_intror eq_refl) ltac:(unfold len in Hd; change (length (rep 25 0)) with 25%nat; lia) ltac:(by vm_compute)) as E.
  cbn zeta in E. rewrite Hd, app_nil_r in E. exact E.
Qed.

Lemma opened_sized idx : sized (opened idx).
Proof. by constructor; vm_compute. Qed.

Lemma agreed_sized k secret p : sized p -> len secret = 32 -> sized (agreed k secret p).
Proof.
  intros [Hz Hra Hsl Hck Hpv] Hsec. constructor; cbn; try done; [by apply cmac_ok|].
  apply k1_len. by apply cmac_ok.
Qed.

Lemma agreed_key k secret p : conf_key (agreed k secret p) =
  conf_key_of secret (cmac (rep 16 0) (conf_bytes (set_dev_pub_key k (conf_in p)))).
Proof. done. Qed.

Lemma agreed_auth k secret c addr st pub priv idx :
  drop 16 (rand_auth (agreed k secret (started c addr st pub priv (opened idx)))) = rep 16 0.
Proof. done. Qed.

Lemma started_sized c addr st pub priv idx : len priv = 32 -> sized (started c addr st pub priv (opened idx)).
Proof. intros Hp. constructor; first [done | by vm_compute]. Qed.

Lemma started_conf_len c addr st pub priv idx k : len c = 11 -> len pub = 64 -> len k = 64 ->
  len (conf_bytes (set_dev_pub_key k (conf_in (started c addr st pub priv (opened idx))))) = 145.
Proof.
  intros Hc Hp Hk. unfold conf_bytes. cbn [started asked set_state set_eph_priv_key set_conf_in set_prv_pub_key
    set_start set_caps set_new_addr set_dev_pub_key conf_in caps start prv_pub_key dev_pub_key attention].
  rewrite !len_app, Hc, Hp, Hk. done.
Qed.

Lemma completed_node id n p s s' : completed id n p s s' ->
  exists m, find_first (is_node id) (nodes_of s') = Some m /\ nd_primary m = new_addr p /\
    nd_num_ele m = num_ele (conf_in p) /\ nd_dev_key m = pv_dev_key p /\
    nd_net_keys m = nd_net_keys (with_key (pv_net_idx p) n) /\ ns_valid (w_nodes (ps_world s')) = true.
Proof.
  intros [_ Hn _ _ _ Hv]. eexists. split; [exact Hn|]. unfold provisioned, with_key, in_list.
  cbn [nd_net_keys set_nd_dev_key set_nd_primary set_nd_num_ele]. case_bool_decide; by split_and!.
Qed.
Lemma with_key_in i n : i ∈ nd_net_keys (with_key i n).
Proof. unfold with_key, in_list. case_bool_decide; [done|]. apply elem_of_app. right. by left. Qed.

(** From the provisioner's confirmation to the end: the device's confirmation, its
    random value, and "complete". *)
Lemma end_run id n p v key ck auth r r' s : sees id n (confirming r p) v s ->
  conf_key p = ck -> drop 16 (rand_auth p) = auth -> len r = 16 -> len r' = 16 -> sized p ->
  net_get_key (vw_keys v) (pv_net_idx p) = Some key -> len key = 16 ->
  let sal' := cmac (rep 16 0) (salt p ++ r ++ r') in
  wp (messages id [[PROXY_PROVISIONING_PDU; PROV_CONFIRM] ++ device_confirm ck r' auth;
        [PROXY_PROVISIONING_PDU; PROV_RANDOM] ++ r'; [PROXY_PROVISIONING_PDU; PROV_COMPLETE]])
    (fun _ s' => exists enc m,
      out_of s' = vw_out v ++ [GattWrite ([PROXY_PROVISIONING_PDU; PROV_RANDOM] ++ r);
        GattWrite ([PROXY_PROVISIONING_PDU; PROV_DATA] ++ enc);
        Db (DbNewNode id (new_addr p)); Disconnect] /\
      device_reads (ecdh_secret p) sal' enc (payload p key v) /\
      find_first (is_node id) (nodes_of s') = Some m /\ nd_primary m = new_addr p /\
      nd_num_ele m = num_ele (conf_in p) /\ nd_dev_key m = device_key (ecdh_secret p) sal' /\
      nd_net_keys m = nd_net_keys (with_key (pv_net_idx p) n) /\ ns_valid (w_nodes (ps_world s')) = true) s.
Proof.
  intros Hs Hck Hau Hr Hr' Hz Hkey Hkl sal'.
  eapply (check_run _ _ _ _ key); [exact Hs | exact Hck | exact Hau | done | done | done | exact Hkey | done|].
  intros s1 p1 Hs1. assert (Es : final_salt r' p1 = sal').
  { unfold final_salt. change (rand_auth p1) with (r ++ drop 16 (rand_auth p)).
    by rewrite (take_app_length' r) by by rewrite len_16. }
  unfold data_msg in Hs1. rewrite Es in Hs1.
  eapply run_cons; [by eapply complete_step|]. intros s2 Hc2.
  apply wp_ret. destruct (completed_node _ _ _ _ _ Hc2) as (m & Hm1 & Hm2 & Hm3 & Hm4 & Hm5 & Hm6).
  cbn [finishing pv_dev_key set_state set_pv_dev_key] in Hm4. rewrite Es in Hm4.
  eexists (sealed_msg _ _ _ _ _), m. split; [|split; [apply sealed_read |
    split_and!; [exact Hm1 | exact Hm2 | exact Hm3 | exact Hm4 | exact Hm5 | exact Hm6]]].
  - rewrite (co_out _ _ _ _ _ Hc2). change (out_of s1) with (vw_out (view_of_state s1)).
    rewrite (ss_view _ _ _ _ _ Hs1). cbn [sends vw_out]. by rewrite <-app_assoc.
  - by apply cmac_ok.
  - by apply payload_len.
Qed.
End Runs.

(** ** Theorems *)

Section Theorems.
Context {A : Alg} {AO : AlgOk A} {AT : AlgTotal A}.
Implicit Types s : prov_state.

(** From the capabilities to the end. *)
Lemma completes_run id n idx v s c addr pool st pub priv d k secret d' r r' b key :
  sees id n (opened idx) v s -> len c = 11 -> resources c (opened idx) v addr pool st pub priv d ->
  pub_key st = 0 -> auth_method st = PROV_NO_OOB -> len k = 64 -> len pub = 64 -> len priv = 32 ->
  let p1 := started c addr st pub priv (opened idx) in
  shares k p1 d d' secret -> len secret = 32 -> vw_bytes v = r :: b -> len r = 16 -> len r' = 16 ->
  net_get_key (vw_keys v) idx = Some key -> len key = 16 ->
  let conf := set_dev_pub_key k (conf_in p1) in
  let sal := cmac (rep 16 0) (conf_bytes conf) in
  let ck := conf_key_of secret sal in
  let sal' := cmac (rep 16 0) (sal ++ r ++ r') in
  let flags := default 0 (net_get_flags (vw_keys v) (vw_update v) idx) in
  exists s' enc m,
    messages id [[PROXY_PROVISIONING_PDU; PROV_CAPS] ++ c; [PROXY_PROVISIONING_PDU; PROV_PUB_KEY] ++ k;
      [PROXY_PROVISIONING_PDU; PROV_CONFIRM] ++ device_confirm ck r' (rep 16 0);
      [PROXY_PROVISIONING_PDU; PROV_RANDOM] ++ r'; [PROXY_PROVISIONING_PDU; PROV_COMPLETE]] s = Ok (tt, s') /\
    out_of s' = vw_out v ++ start_msgs st pub ++
      [GattWrite ([PROXY_PROVISIONING_PDU; PROV_CONFIRM] ++ cmac ck (r ++ rep 16 0));
       GattWrite ([PROXY_PROVISIONING_PDU; PROV_RANDOM] ++ r);
       GattWrite ([PROXY_PROVISIONING_PDU; PROV_DATA] ++ enc); Db (DbNewNode id addr); Disconnect] /\
    device_reads secret sal' enc (prov_payload key idx flags (vw_iv v) addr) /\
    find_first (is_node id) (nodes_of s') = Some m /\ nd_primary m = addr /\ nd_num_ele m = nth 0 c 0 /\
    nd_dev_key m = device_key secret sal' /\ nd_net_keys m = nd_net_keys (with_key idx n) /\
    ns_valid (w_nodes (ps_world s')) = true.
Proof.
  intros Hs Hc Hres Hpk Hm Hk Hpub Hpriv p1 Hsh Hsec Hb Hr Hr' Hkey Hkl conf sal ck sal' flags.
  assert (Hz : sized (agreed k secret p1)) by by apply agreed_sized; [apply started_sized|].
  apply wp_run3. eapply run_cons; [by eapply caps_step|]. intros s1 Hs1.
  eapply run_cons.
  { eapply (pub_key_step _ _ _ _ _ _ k secret d' r b); [exact Hs1 | done.. | by apply started_conf_len |
      exact Hsh | done | exact Hb | done]. }
  intros s2 Hs2.
  eapply wp_mono.
  { eapply (end_run _ _ _ _ key); [exact Hs2 | apply agreed_key | apply agreed_auth | done | done | done |
      exact Hkey | done]. }
  cbn beta. intros _ s3 (enc & m & Ho & Hrd & Hm1 & Hm2 & Hm3 & Hm4 & Hm5 & Hm6). exists enc, m.
  split_and!; [|exact Hrd | exact Hm1 | exact Hm2 | exact Hm3 | exact Hm4 | exact Hm5 | exact Hm6].
  rewrite Ho. cbn [sends vw_out with_bytes with_draws with_pool]. rewrite <-!app_assoc.
  unfold confirm_msg. by rewrite agreed_auth, agreed_key.
Qed.

(** C2: the protocol completes.  In a newly opened session over an open pipe, let a
    device without out-of-band data send acceptable capabilities, its public key, the
    confirmation of its random value under the secret of the key agreement, the
    random value, and "complete".  Then no step faults or fails; the provisioner has
    sent its start message, public key, confirmation, random value and the
    provisioning data, which the device decrypts with the keys it derives itself; the
    node ends up with the address, the number of elements, the network key index and
    the device key the device derives; and it goes to the database before the link is
    closed. *)
Theorem provisioning_completes id n idx v s c addr pool st pub priv d k secret d' r r' b key :
  sees id n (opened idx) v s -> len c = 11 -> resources c (opened idx) v addr pool st pub priv d ->
  pub_key st = 0 -> auth_method st = PROV_NO_OOB -> len k = 64 -> len pub = 64 -> len priv = 32 ->
  let p1 := started c addr st pub priv (opened idx) in
  shares k p1 d d' secret -> len secret = 32 -> vw_bytes v = r :: b -> len r = 16 -> len r' = 16 ->
  net_get_key (vw_keys v) idx = Some key -> len key = 16 ->
  let conf := set_dev_pub_key k (conf_in p1) in
  let sal := cmac (rep 16 0) (conf_bytes conf) in
  let ck := conf_key_of secret sal in
  let sal' := cmac (rep 16 0) (sal ++ r ++ r') in
  let flags := default 0 (net_get_flags (vw_keys v) (vw_update v) idx) in
  exists s' enc m,
    messages id [[PROXY_PROVISIONING_PDU; PROV_CAPS] ++ c; [PROXY_PROVISIONING_PDU; PROV_PUB_KEY] ++ k;
      [PROXY_PROVISIONING_PDU; PROV_CONFIRM] ++ device_confirm ck r' (rep 16 0);
      [PROXY_PROVISIONING_PDU; PROV_RANDOM] ++ r'; [PROXY_PROVISIONING_PDU; PROV_COMPLETE]] s = Ok (tt, s') /\
    out_of s' = vw_out v ++ start_msgs st pub ++
      [GattWrite ([PROXY_PROVISIONING_PDU; PROV_CONFIRM] ++ cmac ck (r ++ rep 16 0));
       GattWrite ([PROXY_PROVISIONING_PDU; PROV_RANDOM] ++ r);
       GattWrite ([PROXY_PROVISIONING_PDU; PROV_DATA] ++ enc); Db (DbNewNode id addr); Disconnect] /\
    device_reads secret sal' enc (prov_payload key idx flags (vw_iv v) addr) /\
    find_first (is_node id) (nodes_of s') = Some m /\ nd_primary m = addr /\ nd_num_ele m = nth 0 c 0 /\
    nd_dev_key m = device_key secret sal' /\ idx ∈ nd_net_keys m.
Proof.
  intros Hs Hc Hres Hpk Hm Hk Hpub Hpriv p1 Hsh Hsec Hb Hr Hr' Hkey Hkl conf sal ck sal' flags.
  destruct (completes_run id n idx v s c addr pool st pub priv d k secret d' r r' b key Hs Hc Hres Hpk Hm Hk Hpub Hpriv
    Hsh Hsec Hb Hr Hr' Hkey Hkl) as (s' & enc & m & H1 & H2 & H3 & H4 & H5 & H6 & H7 & H8 & _).
  exists s', enc, m. repeat (split; [assumption|]). rewrite H8. apply with_key_in.
Qed.

(** The key exchange and the authentication can be skipped.  Whatever
    authentication the start message asks for, a device that answers the provisioner's
    public key with "input complete" has its confirmation checked under a confirmation
    key of zeros, and is sent the provisioning data, with the network key in it, under
    a session key derived from a secret of zeros and from the two random values, which
    are sent in the clear; its node goes to the database. *)
Theorem key_exchange_skipped id n idx v s c addr pool st pub priv d r r' b key :
  sees id n (opened idx) v s -> len c = 11 -> resources c (opened idx) v addr pool st pub priv d ->
  pub_key st = 0 -> len priv = 32 -> rq_type (vw_request v) <> OUTPUT ->
  vw_bytes v = r :: b -> len r = 16 -> len r' = 16 ->
  net_get_key (vw_keys v) idx = Some key -> len key = 16 ->
  let zero_secret := rep 32 0 in
  let sal' := cmac (rep 16 0) (rep 16 0 ++ r ++ r') in
  let flags := default 0 (net_get_flags (vw_keys v) (vw_update v) idx) in
  exists s' enc m,
    messages id [[PROXY_PROVISIONING_PDU; PROV_CAPS] ++ c; [PROXY_PROVISIONING_PDU; PROV_INP_CMPLT];
      [PROXY_PROVISIONING_PDU; PROV_CONFIRM] ++ device_confirm (rep 16 0) r' (rep 16 0);
      [PROXY_PROVISIONING_PDU; PROV_RANDOM] ++ r'; [PROXY_PROVISIONING_PDU; PROV_COMPLETE]] s = Ok (tt, s') /\
    out_of s' = vw_out v ++ start_msgs st pub ++
      [GattWrite ([PROXY_PROVISIONING_PDU; PROV_CONFIRM] ++ cmac (rep 16 0) (r ++ rep 16 0));
       GattWrite ([PROXY_PROVISIONING_PDU; PROV_RANDOM] ++ r);
       GattWrite ([PROXY_PROVISIONING_PDU; PROV_DATA] ++ enc); Db (DbNewNode id addr); Disconnect] /\
    device_reads zero_secret sal' enc (prov_payload key idx flags (vw_iv v) addr) /\
    find_first (is_node id) (nodes_of s') = Some m /\ nd_primary m = addr /\
    nd_dev_key m = device_key zero_secret sal'.
Proof.
  intros Hs Hc Hres Hpk Hpriv Hrq Hb Hr Hr' Hkey Hkl z sal' flags.
  pose proof (started_sized c addr st pub priv idx Hpriv) as Hz.
  apply wp_run3. eapply run_cons; [by eapply caps_step|]. intros s1 Hs1.
  eapply run_cons; [by eapply (inp_cmplt_step _ _ _ _ _ _ r b); [exact Hs1 | done | | apply Hz..| |]|].
  intros s2 Hs2.
  eapply wp_mono; [by eapply (end_run _ _ _ _ key); [exact Hs2 | reflexivity | reflexivity | ..]|].
  cbn beta. intros _ s3 (enc & m & Ho & Hrd & Hm1 & Hm2 & Hm3 & Hm4 & Hm5 & _). exists enc, m.
  split_and!; [|exact Hrd | exact Hm1 | exact Hm2 | exact Hm4].
  rewrite Ho. cbn [sends vw_out with_bytes with_draws with_pool]. rewrite <-!app_assoc.
  unfold confirm_msg. by do 3 f_equal.
Qed.

(** The provisioner's own confirmation and random value, sent back to it, are
    accepted: a device that shares the secret of the key agreement but does not know
    the authentication value is sent the provisioning data. *)
Theorem reflection_accepted id n p v s r key :
  sees id n (confirming r p) v s -> sized p -> len r = 16 ->
  net_get_key (vw_keys v) (pv_net_idx p) = Some key -> len key = 16 ->
  let own := cmac (conf_key p) (r ++ drop 16 (rand_auth p)) in
  let sal' := cmac (rep 16 0) (salt p ++ r ++ r) in
  confirm_msg r p = [PROXY_PROVISIONING_PDU; PROV_CONFIRM] ++ own /\
  exists s' enc, messages id [[PROXY_PROVISIONING_PDU; PROV_CONFIRM] ++ own;
      [PROXY_PROVISIONING_PDU; PROV_RANDOM] ++ r] s = Ok (tt, s') /\
    out_of s' = vw_out v ++ [GattWrite ([PROXY_PROVISIONING_PDU; PROV_RANDOM] ++ r);
      GattWrite ([PROXY_PROVISIONING_PDU; PROV_DATA] ++ enc)] /\
    device_reads (ecdh_secret p) sal' enc (payload p key v).
Proof.
  intros Hs Hz Hr Hkey Hkl own sal'. split; [done|].
  enough (W : wp (messages id [[PROXY_PROVISIONING_PDU; PROV_CONFIRM] ++ own;
      [PROXY_PROVISIONING_PDU; PROV_RANDOM] ++ r]) (fun _ s' => exists enc,
    out_of s' = vw_out v ++ [GattWrite ([PROXY_PROVISIONING_PDU; PROV_RANDOM] ++ r);
      GattWrite ([PROXY_PROVISIONING_PDU; PROV_DATA] ++ enc)] /\
    device_reads (ecdh_secret p) sal' enc (payload p key v)) s).
  { apply wp_ok in W as ([] & s' & E & enc & H'). by exists s', enc. }
  eapply (check_run _ _ _ _ key); [exact Hs | reflexivity | reflexivity | done | done | done | exact Hkey | done|].
  intros s1 p1 Hs1. apply wp_ret. assert (Es : final_salt r p1 = sal').
  { unfold final_salt. change (rand_auth p1) with (r ++ drop 16 (rand_auth p)).
    by rewrite (take_app_length' r) by by rewrite len_16. }
  unfold data_msg in Hs1. rewrite Es in Hs1. eexists. split.
  - change (out_of s1) with (vw_out (view_of_state s1)). by rewrite (ss_view _ _ _ _ _ Hs1).
  - apply sealed_read; [by apply cmac_ok | by apply payload_len].
Qed.

(** An answer that is too long is copied into a session that has been freed.  When
    the user is asked for a value of letters and types more than 16 characters, the
    session is ended with an error, as it should be, and then written to. *)
Theorem long_answer_use_after_free id n p v s l k :
  sees id n p v s -> vw_prompt v = Some RespAscii -> vw_request v = InputRequest ASCII k (Some (CbOutOob id)) ->
  16 < len l < 0x10000 -> NoDup (ps_provs s).*1 -> user_line l s = Fault UseAfterFree.
Proof.
  intros Hs Hpr Hrq Hl Hnd. unfold user_line. rewrite (proj2 (Z.eqb_neq (len l) 0)) by lia.
  apply bind_fault. unfold bt_shell_release_prompt. apply wp_bind_fault, wp_get.
  rewrite (f_equal vw_prompt (ss_view _ _ _ _ _ Hs) : ps_prompt s = vw_prompt v), Hpr.
  apply wp_bind_fault, wp_modify. pose proof (ss_session _ _ _ _ _ Hs) as Hss.
  assert (Hs1 : session id n p (set_prompt None s)) by by eapply session_same.
  apply bind_fault. unfold response_ascii, request_cb. apply bind_fault, wp_bind_fault, wp_get.
  rewrite (f_equal vw_request (ss_view _ _ _ _ _ Hs) :
    ps_request (set_prompt None s) = vw_request v), Hrq. cbn [rq_cb].
  rewrite u16_small, take_ge by (unfold len in *; lia).
  unfold prov_out_oob_done. apply wp_bind_fault. eapply get_prov_wp; [exact Hs1|].
  rewrite (sees_nonzero _ _ _ _ _ Hs), (proj2 (Z.ltb_lt 16 (len l))) by lia.
  apply wp_bind_fault, wp_bind. eapply wp_mono; [by apply complete_fails|].
  intros b s2 [_ [Hpv _ _ _ _ _]]. apply wp_ret, bind_fault. unfold set_auth. apply bind_fault.
  unfold prov_ref. apply wp_bind_fault, wp_get. rewrite (sees_nonzero _ _ _ _ _ Hs), Hpv.
  cbn [set_prompt ps_provs]. rewrite (find_remove_first _ fst (nd_prov n)); [done | | done].
  intros y. apply Z.eqb_eq.
Qed.

(** A wrong answer leaves the agent waiting for ever.  When the user is asked for
    hexadecimal digits and types a line that does not hold them, the shell has already
    forgotten whom to call, but the request stays: from then on no line the user types
    changes anything, and every request for a value is refused. *)
Theorem wrong_answer_stalls s l k cb :
  ps_prompt s = Some RespHex -> ps_request s = InputRequest HEXADECIMAL k cb -> l <> [] ->
  str2hex l (u16 (len l)) k = None ->
  exists s', user_line l s = Ok (tt, s') /\ ps_provs s' = ps_provs s /\ ps_world s' = ps_world s /\
    (∀ l', user_line l' s' = Ok (tt, s')) /\
    (∀ t k' cb', agent_input_request t k' cb' s' = Ok (false, s')) /\ agent_output_request s' = Ok (false, s').
Proof.
  intros Hp Hr Hl Hx. exists (set_prompt None s).
  assert (Hne : (len l =? 0) = false).
  { apply Z.eqb_neq. destruct l; [done|]. rewrite len_cons. pose proof (len_nonneg l). lia. }
  split_and!; try done.
  - unfold user_line. rewrite Hne. unfold bt_shell_release_prompt, response_hexadecimal.
    apply wp_eq, wp_bind, wp_bind, wp_get. rewrite Hp. apply wp_bind, wp_modify, wp_bind, wp_bind, wp_get.
    cbn [ps_request set_prompt]. rewrite Hr. cbn [rq_len]. rewrite Hx. by do 3 apply wp_ret.
  - intros l'. unfold user_line. by case_goal.
  - intros t k' cb'. apply wp_eq. unfold agent_input_request. apply wp_bind, wp_get.
    cbn [ps_request set_prompt]. rewrite Hr. by apply wp_ret.
  - apply wp_eq. unfold agent_output_request. apply wp_bind, wp_get.
    cbn [ps_request set_prompt]. rewrite Hr. by apply wp_ret.
Qed.
End Theorems.

(** *** A device without out-of-band data, over the concrete backend *)

Definition demo_view : view := view_of_state demo_prov.

(** Two elements, the algorithm, nothing else. *)
Definition demo_caps : list Z := [2; 0; 1; 0; 0; 0; 0; 0; 0; 0; 0].
Definition demo_start : prov_start := ProvStart 0 0 PROV_NO_OOB 0 0.

Definition ok_or {X} (x : X) (r : res X) : X := match r with Ok y => y | Fault _ => x end.
Definition demo_pub : list Z := Eval vm_compute in
  ok_or [] (swap_key (public_of [2; 0; 0; 0])).
Definition demo_priv : list Z := Eval vm_compute in ecc_native2bytes [2; 0; 0; 0].
(** The device's private key is 3. *)
Definition demo_device_pub : list Z := Eval vm_compute in
  ok_or [] (swap_key (public_of [3; 0; 0; 0])).
Definition demo_secret : list Z := Eval vm_compute in
  ok_or [] ('(_, z, _) ← ecdh_shared_secret [Some [5; 0; 0; 0]] (public_of [3; 0; 0; 0]) demo_priv (rep 32 0);
            swap_u256_bytes z).

Lemma demo_prov_sees : sees 3 demo_new (opened 0) demo_view demo_prov.
Proof. constructor; [apply demo_session | done | done]. Qed.

Lemma demo_resources :
  resources demo_caps (opened 0) demo_view 0x100 [2147418370] demo_start demo_pub demo_priv
    [Some [5; 0; 0; 0]].
Proof.
  constructor; [by vm_compute | by vm_compute | done | done | done |].
  eexists. split; [vm_compute; reflexivity | by vm_compute].
Qed.

Lemma demo_shares :
  shares demo_device_pub (started demo_caps 0x100 demo_start demo_pub demo_priv (opened 0))
    [Some [5; 0; 0; 0]] [] demo_secret.
Proof.
  eexists _, _, _. split; [vm_compute; reflexivity|]. split; [vm_compute; reflexivity | by vm_compute].
Qed.

Lemma provisioning_completes_witness :
  let p1 := started demo_caps 0x100 demo_start demo_pub demo_priv (opened 0) in
  let conf := set_dev_pub_key demo_device_pub (conf_in p1) in
  let sal := cmac (A := toy_alg) (rep 16 0) (conf_bytes conf) in
  let ck := conf_key_of (A := toy_alg) demo_secret sal in
  let sal' := cmac (A := toy_alg) (rep 16 0) (sal ++ rep 16 17 ++ rep 16 34) in
  let flags := default 0 (net_get_flags (vw_keys demo_view) (vw_update demo_view) 0) in
  exists s' enc m,
    messages (A := toy_alg) 3 [[PROXY_PROVISIONING_PDU; PROV_CAPS] ++ demo_caps;
      [PROXY_PROVISIONING_PDU; PROV_PUB_KEY] ++ demo_device_pub;
      [PROXY_PROVISIONING_PDU; PROV_CONFIRM] ++ device_confirm (A := toy_alg) ck (rep 16 34) (rep 16 0);
      [PROXY_PROVISIONING_PDU; PROV_RANDOM] ++ rep 16 34; [PROXY_PROVISIONING_PDU; PROV_COMPLETE]] demo_prov =
      Ok (tt, s') /\
    out_of s' = vw_out demo_view ++ start_msgs demo_start demo_pub ++
      [GattWrite ([PROXY_PROVISIONING_PDU; PROV_CONFIRM] ++ cmac (A := toy_alg) ck (rep 16 17 ++ rep 16 0));
       GattWrite ([PROXY_PROVISIONING_PDU; PROV_RANDOM] ++ rep 16 17);
       GattWrite ([PROXY_PROVISIONING_PDU; PROV_DATA] ++ enc); Db (DbNewNode 3 0x100); Disconnect] /\
    device_reads (A := toy_alg) demo_secret sal' enc (prov_payload (rep 16 1) 0 flags 5 0x100) /\
    find_first (is_node 3) (nodes_of s') = Some m /\ nd_primary m = 0x100 /\ nd_num_ele m = 2 /\
    nd_dev_key m = device_key (A := toy_alg) demo_secret sal' /\ 0 ∈ nd_net_keys m.
Proof.
  apply (provisioning_completes (A := toy_alg) 3 demo_new 0 demo_view demo_prov demo_caps 0x100 [2147418370]
    demo_start demo_pub demo_priv [Some [5; 0; 0; 0]] demo_device_pub demo_secret [] (rep 16 17) (rep 16 34)
    [] (rep 16 1) demo_prov_sees eq_refl demo_resources eq_refl eq_refl eq_refl eq_refl eq_refl demo_shares);
    by vm_compute.
Defined.

Lemma key_exchange_skipped_witness :
  let sal' := cmac (A := toy_alg) (rep 16 0) (rep 16 0 ++ rep 16 17 ++ rep 16 34) in
  let flags := default 0 (net_get_flags (vw_keys demo_view) (vw_update demo_view) 0) in
  exists s' enc m,
    messages (A := toy_alg) 3 [[PROXY_PROVISIONING_PDU; PROV_CAPS] ++ demo_caps;
      [PROXY_PROVISIONING_PDU; PROV_INP_CMPLT];
      [PROXY_PROVISIONING_PDU; PROV_CONFIRM] ++ device_confirm (A := toy_alg) (rep 16 0) (rep 16 34) (rep 16 0);
      [PROXY_PROVISIONING_PDU; PROV_RANDOM] ++ rep 16 34; [PROXY_PROVISIONING_PDU; PROV_COMPLETE]] demo_prov =
      Ok (tt, s') /\
    out_of s' = vw_out demo_view ++ start_msgs demo_start demo_pub ++
      [GattWrite ([PROXY_PROVISIONING_PDU; PROV_CONFIRM] ++ cmac (A := toy_alg) (rep 16 0) (rep 16 17 ++ rep 16 0));
       GattWrite ([PROXY_PROVISIONING_PDU; PROV_RANDOM] ++ rep 16 17);
       GattWrite ([PROXY_PROVISIONING_PDU; PROV_DATA] ++ enc); Db (DbNewNode 3 0x100); Disconnect] /\
    device_reads (A := toy_alg) (rep 32 0) sal' enc (prov_payload (rep 16 1) 0 flags 5 0x100) /\
    find_first (is_node 3) (nodes_of s') = Some m /\ nd_primary m = 0x100 /\
    nd_dev_key m = device_key (A := toy_alg) (rep 32 0) sal'.
Proof.
  apply (key_exchange_skipped (A := toy_alg) 3 demo_new 0 demo_view demo_prov demo_caps 0x100 [2147418370]
    demo_start demo_pub demo_priv [Some [5; 0; 0; 0]] (rep 16 17) (rep 16 34) [] (rep 16 1)
    demo_prov_sees eq_refl demo_resources eq_refl eq_refl); by vm_compute.
Defined.

(** The session [p] after its confirmation has been sent, and a state that holds it. *)
Definition demo_confirming : prov_data := set_conf_key (rep 16 7) (set_ecdh_secret demo_secret (opened 0)).
Definition holding (p : prov_data) (r : option response) (q : input_request) : prov_state :=
  ProvState demo_prov_world [(1, p)] 2 q r [] MESH_PROV_SEC_LOW [rep 16 17] demo_draws.

Lemma holding_sees p r q : sees 3 demo_new p (view_of_state (holding p r q)) (holding p r q).
Proof. constructor; [|done|done]. by destruct demo_session as [Hw Hn Ha _]; constructor. Qed.

Lemma reflection_accepted_witness :
  let s := holding (confirming (rep 16 17) demo_confirming) None no_request in
  let own := cmac (A := toy_alg) (rep 16 7) (rep 16 17 ++ rep 16 0) in
  confirm_msg (A := toy_alg) (rep 16 17) demo_confirming = [PROXY_PROVISIONING_PDU; PROV_CONFIRM] ++ own /\
  exists s' enc, messages (A := toy_alg) 3 [[PROXY_PROVISIONING_PDU; PROV_CONFIRM] ++ own;
      [PROXY_PROVISIONING_PDU; PROV_RANDOM] ++ rep 16 17] s = Ok (tt, s') /\
    out_of s' = vw_out (view_of_state s) ++ [GattWrite ([PROXY_PROVISIONING_PDU; PROV_RANDOM] ++ rep 16 17);
      GattWrite ([PROXY_PROVISIONING_PDU; PROV_DATA] ++ enc)] /\
    device_reads (A := toy_alg) demo_secret (cmac (A := toy_alg) (rep 16 0) (rep 16 0 ++ rep 16 17 ++ rep 16 17))
      enc (payload demo_confirming (rep 16 1) (view_of_state s)).
Proof.
  apply (reflection_accepted (A := toy_alg) 3 demo_new demo_confirming _ _ (rep 16 17) (rep 16 1)
    (holding_sees _ _ _)); [constructor; by vm_compute | by vm_compute..].
Defined.

Lemma long_answer_use_after_free_witness :
  user_line (H := toy_alg) (rep 17 65) (holding (opened 0) (Some RespAscii)
    (InputRequest ASCII 8 (Some (CbOutOob 3)))) = Fault UseAfterFree.
Proof.
  apply (long_answer_use_after_free (A := toy_alg) 3 demo_new (opened 0) _ _ (rep 17 65) 8 (holding_sees _ _ _));
    [done | done | by vm_compute | by apply NoDup_singleton].
Defined.

Lemma wrong_answer_stalls_witness :
  let s := holding (opened 0) (Some RespHex) (InputRequest HEXADECIMAL 16 (Some (CbOutOob 3))) in
  exists s', user_line (H := toy_alg) [97; 98] s = Ok (tt, s') /\ ps_provs s' = ps_provs s /\
    ps_world s' = ps_world s /\ (∀ l', user_line (H := toy_alg) l' s' = Ok (tt, s')) /\
    (∀ t k' cb', agent_input_request t k' cb' s' = Ok (false, s')) /\ agent_output_request s' = Ok (false, s').
Proof. by apply (wrong_answer_stalls (A := toy_alg) _ [97; 98] 16 (Some (CbOutOob 3))). Defined.
