(* ===== verification/ProvStored.v ===== *)
(** * A device that is provisioned is known at the next start

    The run of the protocol, the call into the database that ends it, and the start of
    the program that reads it, put together. *)

From stdpp Require Import gmap strings.
From S2P Require Import Prelude Bytes Util AddrPool Alg Ccm Crypto Pdu Keys NetState Send Recv Reassembly Node NodeFacts NodeOps Composition ConfigModel Gatt Ecc Prov ProvFacts ProvRun Json JsonFacts ProvDb ProvDbFacts ProvRead DbComposition DbNodes DbFacts.

Open Scope string_scope.
Open Scope list_scope.
Open Scope Z_scope.

Lemma db_ok_world {J : JsonC} w s : db_ok s -> db_ok (set_db_world w s).
Proof. intros [Hf Hn]. by split. Qed.

Section Stored.
Context {A : Alg} {AO : AlgOk A} {AT : AlgTotal A} {J : JsonC} {L : JsonLaws J} {MC : ModelCode}.

Lemma device_key_ok secret sal : len sal = 16 -> len (device_key secret sal) = 16 /\ bytes (device_key secret sal).
Proof. intros Hs. by apply cmac_ok, cmac_ok. Qed.

(** The events of a run: what is written to the device does not concern the database. *)
Lemma run_stored id st pub m1 m2 m3 addr s (d : db_state) :
  db_events (start_msgs st pub ++ [GattWrite m1; GattWrite m2; GattWrite m3; Db (DbNewNode id addr); Disconnect]) d = Ok (tt, s) <->
  (exists b, prov_db_add_new_node (Some id) d = Ok (b, s)).
Proof.
  unfold db_events, start_msgs. cbn [app mapM_ db_event db_call]. cbv beta iota delta [mbind st_bind mret st_ret].
  destruct (prov_db_add_new_node (Some id) d) as [[b s']|].
  - split; [intros [= <-]; by exists b | by intros [? [= _ <-]]].
  - split; [done | by intros [? ?]].
Qed.
End Stored.

(** C3: a device that has been provisioned is known at the next start, by the
    device key it derived itself.  In a newly opened session for a node without keys, let
    a device without out-of-band data follow the protocol, as in
    [provisioning_completes].  What the run emits, run against a database that can be
    written, goes through; and when the file is read again, in another run of the
    program, it makes a node with the address that was given to the device, its
    number of elements, the network key index and the device key that the device derives
    from the secret, and the addresses leave the pool. *)
Theorem provisioned_node_kept (A : Alg) (AO : AlgOk A) (AT : AlgTotal A) (J : JsonC) (L : JsonLaws J) (MC : ModelCode)
    id n idx v s c addr pool st pub priv d k secret d' r r' b key j0 db w0 junk pool' :
  sees id n (opened idx) v s -> len c = 11 -> resources c (opened idx) v addr pool st pub priv d ->
  pub_key st = 0 -> auth_method st = PROV_NO_OOB -> len k = 64 -> len pub = 64 -> len priv = 32 ->
  let p1 := started c addr st pub priv (opened idx) in
  shares k p1 d d' secret -> len secret = 32 -> vw_bytes v = r :: b -> len r = 16 -> len r' = 16 ->
  net_get_key (vw_keys v) idx = Some key -> len key = 16 ->
  nd_net_keys n = [] -> 0 <= idx < 10 -> 0 < nth 0 c 0 < 0x100 -> 0 < addr < 0x10000 ->
  db_ok db -> holds false db j0 -> writable_db false db -> store_wf (w_nodes w0) -> len junk = 16 ->
  net_reserve_address_range addr (nth 0 c 0) (address_pool (w_net w0)) = (true, pool') ->
  let sal := cmac (rep 16 0) (conf_bytes (set_dev_pub_key k (conf_in p1))) in
  let ck := conf_key_of secret sal in
  let sal' := cmac (rep 16 0) (sal ++ r ++ r') in
  exists s' evs db' r1 r2 x,
    messages id [[PROXY_PROVISIONING_PDU; PROV_CAPS] ++ c; [PROXY_PROVISIONING_PDU; PROV_PUB_KEY] ++ k;
      [PROXY_PROVISIONING_PDU; PROV_CONFIRM] ++ device_confirm ck r' (rep 16 0);
      [PROXY_PROVISIONING_PDU; PROV_RANDOM] ++ r'; [PROXY_PROVISIONING_PDU; PROV_COMPLETE]] s = Ok (tt, s') /\
    out_of s' = vw_out v ++ evs /\ db_events evs (set_db_world (ps_world s') db) = Ok (tt, db') /\
    load (prov_filename db') (set_db_world w0 db') = Ok (true, r1) /\
    parse_node junk [Key "nodes"; Idx (length (DbNodes.nodes_of j0))] false r1 = Ok (true, r2) /\
    ns_nodes (w_nodes (db_world r2)) = ns_nodes (w_nodes w0) ++ [x] /\
    address_pool (w_net (db_world r2)) = pool' /\ nd_primary x = addr /\ nd_num_ele x = nth 0 c 0 /\
    nd_dev_key x = device_key secret sal' /\ nd_net_keys x = [idx].
Proof.
  intros Hs Hc Hres Hpk Hm Hk Hpub Hpriv p1 Hsh Hsec Hb Hr Hr' Hkey Hkl Hnk Hidx Hnum Haddr Hdb Hj0 Hw Hw0 Hj Hpool sal ck sal'.
  destruct (completes_run id n idx v s c addr pool st pub priv d k secret d' r r' b key Hs Hc Hres Hpk Hm Hk Hpub Hpriv
    Hsh Hsec Hb Hr Hr' Hkey Hkl) as (s' & enc & m & H1 & H2 & _ & H4 & H5 & H6 & H7 & H8 & H9).
  assert (Hkeys : nd_net_keys m = [idx]).
  { rewrite H8. unfold with_key. rewrite Hnk. done. }
  assert (Hdk : len (nd_dev_key m) = 16 /\ bytes (nd_dev_key m)) by (rewrite H7; apply device_key_ok; by apply cmac_ok).
  pose proof (new_node_run J L A MC id m j0 (set_db_world (ps_world s') db) w0 junk pool') as Hrun.
  destruct Hrun as (db' & r1 & r2 & x & G1 & G2 & G3 & G4 & G5 & G6 & G7 & G8 & G9); try done.
  - by apply db_ok_world.
  - by split; [| rewrite H6 | rewrite H5].
  - by rewrite Hkeys.
  - rewrite Hkeys. apply NoDup_singleton.
  - rewrite Hkeys. by repeat constructor; lia.
  - by rewrite H5, H6.
  - exists s'. eexists. exists db', r1, r2, x. split; [exact H1|]. split; [exact H2|].
    split; [apply run_stored; by eexists|]. do 4 (split; [done|]).
    split; [by rewrite G8|]. split; [by rewrite G7|]. split; [by rewrite G6 | by rewrite G9].
Qed.

(** *** The demonstration device, stored *)
Lemma provisioned_node_kept_witness :
  let p1 := started demo_caps 0x100 demo_start demo_pub demo_priv (opened 0) in
  let sal := cmac (A := toy_alg) (rep 16 0) (conf_bytes (set_dev_pub_key demo_device_pub (conf_in p1))) in
  let ck := conf_key_of (A := toy_alg) demo_secret sal in
  let sal' := cmac (A := toy_alg) (rep 16 0) (sal ++ rep 16 17 ++ rep 16 34) in
  exists s' evs db' r1 r2 x,
    messages (A := toy_alg) 3 [[PROXY_PROVISIONING_PDU; PROV_CAPS] ++ demo_caps;
      [PROXY_PROVISIONING_PDU; PROV_PUB_KEY] ++ demo_device_pub;
      [PROXY_PROVISIONING_PDU; PROV_CONFIRM] ++ device_confirm (A := toy_alg) ck (rep 16 34) (rep 16 0);
      [PROXY_PROVISIONING_PDU; PROV_RANDOM] ++ rep 16 34; [PROXY_PROVISIONING_PDU; PROV_COMPLETE]] demo_prov =
      Ok (tt, s') /\
    out_of s' = vw_out demo_view ++ evs /\
    db_events evs (set_db_world (ps_world s') (demo_db_of demo_nodes)) = Ok (tt, db') /\
    load (prov_filename db') (set_db_world demo_restart db') = Ok (true, r1) /\
    parse_node (MC := noting_models) (rep 16 0) [Key "nodes"; Idx 1] false r1 = Ok (true, r2) /\
    ns_nodes (w_nodes (db_world r2)) = ns_nodes (w_nodes demo_restart) ++ [x] /\
    address_pool (w_net (db_world r2)) = [mk_range 0x102 0x7fff] /\ nd_primary x = 0x100 /\ nd_num_ele x = 2 /\
    nd_dev_key x = device_key (A := toy_alg) demo_secret sal' /\ nd_net_keys x = [0].
Proof.
  apply (provisioned_node_kept toy_alg toy_alg_ok toy_alg_total toy_json toy_json_laws noting_models
    3 demo_new 0 demo_view demo_prov demo_caps 0x100 [2147418370]
    demo_start demo_pub demo_priv [Some [5; 0; 0; 0]] demo_device_pub demo_secret [] (rep 16 17) (rep 16 34)
    [] (rep 16 1) demo_prov_file (demo_db_of demo_nodes) demo_restart (rep 16 0) [mk_range 0x102 0x7fff]
    demo_prov_sees eq_refl demo_resources eq_refl eq_refl eq_refl eq_refl eq_refl demo_shares).
  1-6, 15-16: by vm_compute.
  - done.
  - lia.
  - by vm_compute.
  - lia.
  - apply demo_db_ok.
  - apply (demo_holds false).
  - apply demo_writable.
  - apply demo_store_wf.
Defined.
