(* ===== verification/Events.v ===== *)
(** * Events for the graphical interface

    [sendEventToJava] and the end of [mesh_init] in [src/blueZ/mesh/main.c], which
    run in the thread of the mesh tool, and the loop of
    [Java_meshgui_Home_eventCallback] in [src/jni/Home.c], which runs in a thread of
    the Java virtual machine.  They hand over one event at a time through shared
    variables, two semaphores and a lock; the model interleaves their steps. *)

From stdpp Require Import relations.
From S2P Require Import Prelude Bytes.

Inductive event_key := NO_EVENT | NAME | UUID | END_OF_LIST.
#[export] Instance event_key_eq_dec : EqDecision event_key.
Proof. solve_decision. Defined.

(** An event and its string, without the final NUL. *)
Definition java_event : Type := event_key * list Z.

(** ** State *)

(** Where the thread of the mesh tool is: between events, at a statement of
    [sendEventToJava], at a statement behind [mainloop_run] in [mesh_init]. *)
Inductive main_pc :=
| Call
| SemEmpty (ev : java_event) | Lock (ev : java_event) | SetEvent (ev : java_event) | Copy (ev : java_event)
| Unlock | PostFull
| Free | ExitSemEmpty | ExitLock | SetExit | ExitUnlock | ExitPostFull | DestroyFull | DestroyEmpty
| Ended.

(** Where the thread of the virtual machine is in [eventCallback]. *)
Inductive java_pc := Enter | SemFull | JLock | Handle | JUnlock | PostEmpty | Loop | Left.

(** A semaphore or the buffer is [None] once it has been destroyed or freed.
    [st_todo] is what the main loop will still send; [st_delivered] what the virtual
    machine has been called with. *)
Record ev_state := EvState {
  st_empty : option Z; st_full : option Z; st_lock : bool; st_key : event_key;
  st_buf : option (list Z); st_exit : bool; st_main : main_pc; st_java : java_pc;
  st_todo : list java_event; st_delivered : list java_event }.

Definition set_empty (v : option Z) (s : ev_state) : ev_state :=
  EvState v (st_full s) (st_lock s) (st_key s) (st_buf s) (st_exit s) (st_main s) (st_java s) (st_todo s) (st_delivered s).
Definition set_full (v : option Z) (s : ev_state) : ev_state :=
  EvState (st_empty s) v (st_lock s) (st_key s) (st_buf s) (st_exit s) (st_main s) (st_java s) (st_todo s) (st_delivered s).
Definition set_lock (v : bool) (s : ev_state) : ev_state :=
  EvState (st_empty s) (st_full s) v (st_key s) (st_buf s) (st_exit s) (st_main s) (st_java s) (st_todo s) (st_delivered s).
Definition set_key (v : event_key) (s : ev_state) : ev_state :=
  EvState (st_empty s) (st_full s) (st_lock s) v (st_buf s) (st_exit s) (st_main s) (st_java s) (st_todo s) (st_delivered s).
Definition set_buf (v : option (list Z)) (s : ev_state) : ev_state :=
  EvState (st_empty s) (st_full s) (st_lock s) (st_key s) v (st_exit s) (st_main s) (st_java s) (st_todo s) (st_delivered s).
Definition set_exit (v : bool) (s : ev_state) : ev_state :=
  EvState (st_empty s) (st_full s) (st_lock s) (st_key s) (st_buf s) v (st_main s) (st_java s) (st_todo s) (st_delivered s).
Definition set_main (v : main_pc) (s : ev_state) : ev_state :=
  EvState (st_empty s) (st_full s) (st_lock s) (st_key s) (st_buf s) (st_exit s) v (st_java s) (st_todo s) (st_delivered s).
Definition set_java (v : java_pc) (s : ev_state) : ev_state :=
  EvState (st_empty s) (st_full s) (st_lock s) (st_key s) (st_buf s) (st_exit s) (st_main s) v (st_todo s) (st_delivered s).
Definition set_todo (v : list java_event) (s : ev_state) : ev_state :=
  EvState (st_empty s) (st_full s) (st_lock s) (st_key s) (st_buf s) (st_exit s) (st_main s) (st_java s) v (st_delivered s).
Definition set_delivered (v : list java_event) (s : ev_state) : ev_state :=
  EvState (st_empty s) (st_full s) (st_lock s) (st_key s) (st_buf s) (st_exit s) (st_main s) (st_java s) (st_todo s) v.

(** The size of [stringBuff]. *)
Definition BUFF_LEN : Z := 512.

(** After the first lines of [mesh_init], with the other thread about to enter
    [eventCallback]. *)
Definition start (todo : list java_event) : ev_state :=
  EvState (Some 1) (Some 0) false NO_EVENT (Some (rep BUFF_LEN 0)) false Call Enter todo [].

(** ** Steps

    [None] is a thread that is blocked or has ended. *)

Definition sem_wait (sem : option Z) (k : option Z -> ev_state) : option (res ev_state) :=
  match sem with
  | None => Some (Fault UseAfterFree)
  | Some v => if v =? 0 then None else Some (Ok (k (Some (v - 1))))
  end.
Definition sem_post (sem : option Z) (k : option Z -> ev_state) : option (res ev_state) :=
  match sem with
  | None => Some (Fault UseAfterFree)
  | Some v => Some (Ok (k (Some (v + 1))))
  end.
Definition mutex_lock (s k : ev_state) : option (res ev_state) :=
  if st_lock s then None else Some (Ok (set_lock true k)).

Definition main_step (s : ev_state) : option (res ev_state) :=
  match st_main s with
  | Call =>
      match st_todo s with
      | ev :: todo => Some (Ok (set_main (SemEmpty ev) (set_todo todo s)))
      | [] => Some (Ok (set_main Free s))
      end
  | SemEmpty ev => sem_wait (st_empty s) (fun v => set_main (Lock ev) (set_empty v s))
  | Lock ev => mutex_lock s (set_main (SetEvent ev) s)
  | SetEvent ev => Some (Ok (set_main (Copy ev) (set_key (fst ev) s)))
  | Copy ev =>
      Some (match st_buf s with
            | None => Fault UseAfterFree
            | Some b => b' ← wr_range b 0 (snd ev); mret (set_main Unlock (set_buf (Some b') s))
            end)
  | Unlock => Some (Ok (set_main PostFull (set_lock false s)))
  | PostFull => sem_post (st_full s) (fun v => set_main Call (set_full v s))
  | Free => Some (Ok (set_main ExitSemEmpty (set_buf None s)))
  | ExitSemEmpty => sem_wait (st_empty s) (fun v => set_main ExitLock (set_empty v s))
  | ExitLock => mutex_lock s (set_main SetExit s)
  | SetExit => Some (Ok (set_main ExitUnlock (set_exit true s)))
  | ExitUnlock => Some (Ok (set_main ExitPostFull (set_lock false s)))
  | ExitPostFull => sem_post (st_full s) (fun v => set_main DestroyFull (set_full v s))
  | DestroyFull => Some (Ok (set_main DestroyEmpty (set_full None s)))
  | DestroyEmpty => Some (Ok (set_main Ended (set_empty None s)))
  | Ended => None
  end.

(** [NewStringUTF(env, stringBuff)] reads up to the first NUL. *)
Fixpoint read_string (b : list Z) : res (list Z) :=
  match b with
  | [] => Fault Oob
  | c :: b' => if c =? 0 then mret [] else s ← read_string b'; mret (c :: s)
  end.

(** The body under the lock. *)
Definition handle_event (s : ev_state) : res ev_state :=
  if st_exit s then mret s else
  match st_buf s with
  | None => Fault UseAfterFree
  | Some b =>
      evs ← (match st_key s with
             | NAME | UUID => str ← read_string b; mret [(st_key s, str)]
             | _ => mret []
             end);
      b' ← wr_range b 0 (rep BUFF_LEN 0);
      mret (set_delivered (st_delivered s ++ evs) (set_buf (Some b') s))
  end.

Definition java_step (s : ev_state) : option (res ev_state) :=
  match st_java s with
  | Enter => Some (Ok (set_java SemFull (set_exit false s)))
  | SemFull => sem_wait (st_full s) (fun v => set_java JLock (set_full v s))
  | JLock => mutex_lock s (set_java Handle s)
  | Handle => Some (set_java JUnlock <$> handle_event s)
  | JUnlock => Some (Ok (set_java PostEmpty (set_lock false s)))
  | PostEmpty => sem_post (st_empty s) (fun v => set_java Loop (set_empty v s))
  | Loop => Some (Ok (set_java (if st_exit s then Left else SemFull) s))
  | Left => None
  end.

(** A schedule: whose turn it is; a thread that cannot move passes. *)
Inductive thread := Main | Java.
Definition thread_step (t : thread) (s : ev_state) : option (res ev_state) :=
  match t with Main => main_step s | Java => java_step s end.
Fixpoint run_schedule (ts : list thread) (s : ev_state) : res ev_state :=
  match ts with
  | [] => mret s
  | t :: ts => s' ← default (Ok s) (thread_step t s); run_schedule ts s'
  end.

(** Some thread takes a step, the main loop not having been left. *)
Definition running (s : ev_state) : Prop :=
  match st_main s with
  | Call | SemEmpty _ | Lock _ | SetEvent _ | Copy _ | Unlock | PostFull => True
  | _ => False
  end.
Inductive step (s : ev_state) : ev_state -> Prop :=
| step_thread t s' : thread_step t s = Some (Ok s') -> running s' -> step s s'.

(** ** The hand-over *)

(** A string without NUL that fits, of an event the callback knows. *)
Definition event_ok (ev : java_event) : Prop :=
  (ev.1 = NAME \/ ev.1 = UUID) /\ (0 ∉ ev.2) /\ (len ev.2 < BUFF_LEN).

(** The event the main thread is sending. *)
Definition current (pc : main_pc) : list java_event :=
  match pc with SemEmpty ev | Lock ev | SetEvent ev | Copy ev => [ev] | _ => [] end.
Definition main_holds (pc : main_pc) : Z :=
  match pc with Lock _ | SetEvent _ | Copy _ | Unlock | PostFull => 1 | _ => 0 end.
Definition main_filled (pc : main_pc) : Z := match pc with Unlock | PostFull => 1 | _ => 0 end.
Definition main_locked (pc : main_pc) : bool :=
  match pc with SetEvent _ | Copy _ | Unlock => true | _ => false end.
Definition java_holds (pc : java_pc) : Z :=
  match pc with JLock | Handle | JUnlock | PostEmpty => 1 | _ => 0 end.
Definition java_filled (pc : java_pc) : Z := match pc with JLock | Handle => 1 | _ => 0 end.
Definition java_locked (pc : java_pc) : bool := match pc with Handle | JUnlock => true | _ => false end.

(** What the buffer holds when [slot] is handed over. *)
Definition buffer_of (slot : list java_event) : list Z :=
  match slot with
  | ev :: _ => ev.2 ++ rep (BUFF_LEN - len ev.2) 0
  | [] => rep BUFF_LEN 0
  end.

(** One token goes round: a semaphore or a thread has it.  [slot] is the event in
    the buffer. *)
Record hand_over (all : list java_event) (s : ev_state) (e f : Z) (slot : list java_event) : Prop := {
  ho_sems : st_empty s = Some e /\ st_full s = Some f;
  ho_token : e + f + main_holds (st_main s) + java_holds (st_java s) = 1 /\ 0 <= e /\ 0 <= f;
  ho_lock : st_lock s = main_locked (st_main s) || java_locked (st_java s);
  ho_exit : st_exit s = false /\ running s /\ st_java s <> Left;
  ho_slot : Z.of_nat (length slot) = f + main_filled (st_main s) + java_filled (st_java s);
  ho_key : Forall (fun ev => ev.1 = st_key s) slot /\ ∀ ev, st_main s = Copy ev -> st_key s = ev.1;
  ho_buf : st_buf s = Some (buffer_of slot);
  ho_all : st_delivered s ++ slot ++ current (st_main s) ++ st_todo s = all;
}.

Lemma start_hand_over all : hand_over all (start all) 1 0 [].
Proof. constructor; cbn; repeat split; try done; try lia; auto. Qed.

Lemma read_string_padded str n : 0 ∉ str -> (0 < n)%nat -> read_string (str ++ replicate n 0) = Ok str.
Proof.
  intros Hs Hn. induction str as [|c str IH]; [destruct n; [lia | done]|].
  apply not_elem_of_cons in Hs as [Hc Hs]. cbn [app read_string].
  rewrite (proj2 (Z.eqb_neq c 0)) by done. by rewrite (IH Hs).
Qed.

Lemma len_buffer ev : len ev.2 < BUFF_LEN -> len (buffer_of [ev]) = BUFF_LEN.
Proof. intros H. cbn [buffer_of]. rewrite len_app, len_rep by (pose proof (len_nonneg ev.2); lia). lia. Qed.

(** A thread without the token is outside its critical section. *)
Lemma java_outside pc : java_holds pc = 0 -> java_filled pc = 0 /\ java_locked pc = false.
Proof. by destruct pc. Qed.
Lemma main_outside pc : main_holds pc = 0 -> main_filled pc = 0 /\ main_locked pc = false.
Proof. by destruct pc. Qed.
Lemma java_holds_range pc : 0 <= java_holds pc <= 1.
Proof. destruct pc; cbn; lia. Qed.
Lemma main_holds_range pc : 0 <= main_holds pc <= 1.
Proof. destruct pc; cbn; lia. Qed.

Lemma Forall_middle {A} (P : A -> Prop) l1 l2 x l3 : Forall P (l1 ++ l2 ++ x :: l3) -> P x.
Proof. rewrite !Forall_app, Forall_cons. tauto. Qed.

Lemma copy_buffer (ev : java_event) : len ev.2 < BUFF_LEN -> wr_range (buffer_of []) 0 ev.2 = Ok (buffer_of [ev]).
Proof.
  intros H. pose proof (len_nonneg ev.2). cbn [buffer_of].
  replace (rep BUFF_LEN 0) with (rep (len ev.2) 0 ++ rep (BUFF_LEN - len ev.2) 0).
  - apply wr_range_begin. unfold rep, len. rewrite length_replicate. lia.
  - unfold rep. rewrite <-replicate_add. f_equal. lia.
Qed.

Section Proofs.
Context (all : list java_event) (Hall : Forall event_ok all).

Implicit Types s : ev_state.

Ltac hand_over_tac := constructor; cbn in *; subst; repeat split; try done; try lia; eauto.

(** A step of a thread succeeds, and unless it leaves the main loop the event is
    still handed over. *)
Definition steps_well (r : res ev_state) : Prop :=
  exists s', r = Ok s' /\ (running s' -> exists e f slot, hand_over all s' e f slot).

Lemma hand_over_main s e f slot r : hand_over all s e f slot -> main_step s = Some r -> steps_well r.
Proof.
  destruct s as [em fu lk ky bf ex mn jv td dl].
  intros [[He Hf] [Ht [He0 Hf0]] Hl [Hx [Hr Hj]] Hs [Hk Hkc] Hb Ha] Hstep. cbn in *. subst.
  unfold main_step, mutex_lock, sem_wait, sem_post in Hstep.
  assert (Hempty : main_holds mn = 1 -> main_filled mn = 0 -> slot = [] /\ java_locked jv = false).
  { intros H1 H2. pose proof (java_holds_range jv). destruct (java_outside jv) as [H3 H4]; [lia|].
    split; [destruct slot; [done | cbn in *; lia] | done]. }
  assert (Hout : main_holds mn = 1 -> java_locked jv = false).
  { intros H1. apply java_outside. pose proof (java_holds_range jv). lia. }
  destruct mn as [|ev|ev|ev|ev| | | | | | | | | | |]; try done; cbn in *.
  - destruct td as [|ev td]; injection Hstep as <-; (eexists; split; [done|]); [done|].
    intros _. exists e, f, slot. hand_over_tac.
  - case_in Hstep; [done|]. bool_hyps. injection Hstep as <-. eexists; split; [done|].
    intros _. exists (e - 1), f, slot. hand_over_tac.
  - case_in Hstep; [done|]. injection Hstep as <-. eexists; split; [done|].
    intros _. exists e, f, slot. hand_over_tac.
  - destruct (Hempty eq_refl eq_refl) as [-> Hjl]. injection Hstep as <-. eexists; split; [done|].
    intros _. exists e, f, []. hand_over_tac. by intros ? [= <-].
  - destruct (Hempty eq_refl eq_refl) as [-> Hjl]. clear Hempty.
    assert (event_ok ev) as (_ & _ & Hlen) by (rewrite <-Ha in Hall; exact (Forall_middle _ dl [] ev _ Hall)).
    rewrite copy_buffer in Hstep by done. injection Hstep as <-. eexists; split; [done|].
    intros _. exists e, f, [ev]. hand_over_tac. constructor; [symmetry; by apply Hkc | constructor].
  - specialize (Hout eq_refl). injection Hstep as <-. eexists; split; [done|].
    intros _. exists e, f, slot. hand_over_tac.
  - injection Hstep as <-. eexists; split; [done|]. intros _. exists e, (f + 1), slot. hand_over_tac.
Qed.

(** The callback gets the event in the buffer. *)
Lemma handle_slot s ev : st_exit s = false -> st_buf s = Some (buffer_of [ev]) -> st_key s = ev.1 -> event_ok ev ->
  handle_event s = Ok (set_delivered (st_delivered s ++ [ev]) (set_buf (Some (buffer_of [])) s)).
Proof.
  intros Hx Hb Hk (Hkey & Hnul & Hlen). unfold handle_event. rewrite Hx, Hb, Hk.
  assert (Hread : read_string (buffer_of [ev]) = Ok ev.2).
  { apply read_string_padded; [done|]. unfold BUFF_LEN in *. lia. }
  assert (Hclear : wr_range (buffer_of [ev]) 0 (rep BUFF_LEN 0) = Ok (buffer_of [])).
  { rewrite <-(app_nil_r (buffer_of [ev])). rewrite wr_range_begin; [by rewrite app_nil_r|].
    pose proof (len_buffer ev Hlen) as H. unfold rep, len, BUFF_LEN in *. rewrite length_replicate. apply Nat2Z.inj. rewrite Z2Nat.id by done. exact H. }
  rewrite Hread, Hclear. destruct ev as [k str]; cbn in *. by destruct Hkey as [-> | ->].
Qed.

#[local] Arguments handle_event : simpl never.

Lemma hand_over_java s e f slot r : hand_over all s e f slot -> java_step s = Some r -> steps_well r.
Proof.
  destruct s as [em fu lk ky bf ex mn jv td dl].
  intros [[He Hf] [Ht [He0 Hf0]] Hl [Hx [Hr Hj]] Hs [Hk Hkc] Hb Ha] Hstep. cbn in *. subst.
  unfold java_step, mutex_lock, sem_wait, sem_post in Hstep.
  assert (Hmain : java_holds jv = 1 -> e = 0 /\ f = 0 /\ main_filled mn = 0 /\ main_locked mn = false).
  { intros H1. pose proof (main_holds_range mn). destruct (main_outside mn) as [H3 H4]; [lia|]. split_and!; done || lia. }
  destruct jv; try done; cbn in *.
  - injection Hstep as <-. eexists; split; [done|]. intros _. exists e, f, slot. hand_over_tac.
  - case_in Hstep; [done|]. bool_hyps. injection Hstep as <-. eexists; split; [done|].
    intros _. exists e, (f - 1), slot. hand_over_tac.
  - case_in Hstep; [done|]. injection Hstep as <-. eexists; split; [done|].
    intros _. exists e, f, slot. hand_over_tac.
  - destruct (Hmain eq_refl) as (-> & -> & Hmf & Hml). rewrite Hmf in Hs.
    destruct slot as [|ev [|]]; [done | | cbn in Hs; lia].
    assert (Hev : event_ok ev) by (rewrite <-Ha in Hall; exact (Forall_middle _ dl [] ev _ Hall)).
    pose proof (Forall_inv Hk) as Hkey. cbn in Hkey. rewrite (handle_slot _ ev) in Hstep by done.
    injection Hstep as <-. eexists; split; [done|]. intros _. exists 0, 0, []. hand_over_tac.
    by rewrite <-app_assoc.
  - destruct (Hmain eq_refl) as (-> & -> & Hmf & Hml). injection Hstep as <-. eexists; split; [done|].
    intros _. exists 0, 0, slot. hand_over_tac. by rewrite Hml.
  - destruct (Hmain eq_refl) as (-> & -> & Hmf & Hml). injection Hstep as <-. eexists; split; [done|].
    intros _. exists 1, 0, slot. hand_over_tac.
  - injection Hstep as <-. eexists; split; [done|]. intros _. exists e, f, slot. hand_over_tac.
Qed.

Lemma hand_over_step s e f slot t r : hand_over all s e f slot -> thread_step t s = Some r -> steps_well r.
Proof. destruct t; [apply hand_over_main | apply hand_over_java]. Qed.

Lemma steps_hand_over s : rtc step (start all) s -> exists e f slot, hand_over all s e f slot.
Proof.
  intros H. apply (rtc_ind_r (R := step) (fun s => exists e f slot, hand_over all s e f slot) (start all)); [|clear s H|done].
  - eexists _, _, _. apply start_hand_over.
  - intros s s' _ [t ? Hs Hr] (e & f & slot & Ho). destruct (hand_over_step _ _ _ _ _ _ Ho Hs) as (? & [= <-] & H).
    by apply H.
Qed.

(** *** Every step makes progress *)

(** The steps the threads still have before them. *)
Definition main_left (pc : main_pc) : nat :=
  match pc with
  | SemEmpty _ => 12 | Lock _ => 11 | SetEvent _ => 10 | Copy _ => 9 | Unlock => 8 | PostFull => 7 | _ => 0
  end.
Definition java_left (pc : java_pc) : nat :=
  match pc with
  | JLock => 5 | Handle => 4 | JUnlock => 3 | PostEmpty => 2 | Loop | Enter => 1 | SemFull | Left => 0
  end.
Definition steps_left s : nat :=
  13 * length (st_todo s) + main_left (st_main s) + java_left (st_java s) + 6 * Z.to_nat (default 0 (st_full s)).

Lemma handle_frame s s' : handle_event s = Ok s' ->
  st_todo s' = st_todo s /\ st_main s' = st_main s /\ st_full s' = st_full s.
Proof.
  unfold handle_event. case_goal; [by intros [= <-]|]. destruct (st_buf s) as [b|]; [|done].
  intros (evs & _ & H)%res_bind_ok. apply res_bind_ok in H as (b' & _ & H). by injection H as <-.
Qed.

#[local] Arguments Nat.mul : simpl never.

Lemma step_counts s s' : st_exit s = false -> 0 <= default 0 (st_full s) -> step s s' ->
  steps_left s = S (steps_left s').
Proof.
  intros Hx Hf [t ? Hs Hr]. destruct s as [em fu lk ky bf ex mn jv td dl]. cbn in Hx, Hf. subst ex.
  destruct t; unfold thread_step, main_step, java_step, mutex_lock, sem_wait, sem_post in Hs; cbn in Hs.
  - destruct mn; try done; repeat case_in Hs; try done; bool_hyps; simplify_eq; unfold steps_left in *; cbn in *;
      try lia. apply res_bind_ok in Hs as (b' & _ & [= <-]). cbn. lia.
  - destruct jv; try done; repeat case_in Hs; try done; bool_hyps; simplify_eq; unfold steps_left in *; cbn in *;
      try lia. set (s0 := EvState _ _ _ _ _ _ _ _ _ _) in Hs. destruct (handle_event s0) as [s1|] eqn:E; [|done].
    apply handle_frame in E as (H1 & H2 & H3). injection Hs as <-. cbn in *. rewrite H1, H2, H3. lia.
Qed.

(** *** Nothing is stuck before everything has been delivered *)

Lemma java_keeps_main s s' : java_step s = Some (Ok s') -> st_main s' = st_main s.
Proof.
  destruct s as [em fu lk ky bf ex mn jv td dl]. unfold java_step, mutex_lock, sem_wait, sem_post. cbn.
  set (s0 := EvState _ _ _ _ _ _ _ _ _ _). intros Hs.
  destruct jv; try done; repeat case_in Hs; try done; simplify_eq; try done.
  destruct (handle_event s0) as [s1|] eqn:E; [|done]. apply handle_frame in E as (_ & H & _). by injection Hs as <-.
Qed.

Lemma java_moves s e f slot : hand_over all s e f slot -> main_locked (st_main s) = false ->
  f + java_holds (st_java s) = 1 -> exists s', thread_step Java s = Some (Ok s') /\ running s'.
Proof.
  intros Ho Hml Hf. assert (H : exists r, java_step s = Some r).
  { destruct Ho as [[_ Hfu] _ Hl [_ [_ Hj]] _ _ _ _]. unfold java_step, sem_wait, sem_post, mutex_lock.
    rewrite Hfu. rewrite Hml in Hl. destruct (st_java s) eqn:E; cbn in *; try done; try by eexists.
    - rewrite (proj2 (Z.eqb_neq f 0)) by lia. by eexists.
    - rewrite Hl. by eexists.
    - destruct (st_empty s); by eexists. }
  destruct H as [r Hr]. destruct (hand_over_java _ _ _ _ _ Ho Hr) as (s' & -> & _).
  exists s'. split; [done|]. unfold running. rewrite (java_keeps_main _ _ Hr). apply Ho.
Qed.

Lemma main_moves s e f slot : hand_over all s e f slot -> (st_main s = Call -> st_todo s <> []) ->
  (∀ ev, st_main s = SemEmpty ev -> e <> 0) -> exists s', thread_step Main s = Some (Ok s') /\ running s'.
Proof.
  intros Ho Hc He. assert (H : exists r, main_step s = Some r /\ ∀ s', r = Ok s' -> running s').
  { destruct s as [em fu lk ky bf ex mn jv td dl].
    destruct Ho as [[He1 Hf1] [Ht [He0 Hf0]] Hl [Hx [Hr Hj]] _ _ Hb _]. cbn in *. subst em fu lk ex bf.
    unfold main_step, sem_wait, sem_post, mutex_lock. cbn. pose proof (java_holds_range jv).
    destruct mn as [|ev|ev|ev|ev| | | | | | | | | | |]; try done; cbn in *;
      try (eexists; split; [done|]; by intros ? [= <-]).
    - destruct td; [by specialize (Hc eq_refl)|]. eexists; split; [done|]. by intros ? [= <-].
    - rewrite (proj2 (Z.eqb_neq e 0)) by by eapply He. eexists; split; [done|]. by intros ? [= <-].
    - destruct (java_outside jv) as [_ ->]; [lia|]. eexists; split; [done|]. by intros ? [= <-].
    - eexists; split; [done|]. intros s' (b & _ & H')%res_bind_ok. by injection H' as <-. }
  destruct H as (r & Hr & Hrun). destruct (hand_over_main _ _ _ _ _ Ho Hr) as (s' & -> & _).
  exists s'. split; [done | by apply Hrun].
Qed.

Lemma not_stuck s e f slot : hand_over all s e f slot -> st_delivered s <> all -> exists s', step s s'.
Proof.
  intros Ho Hd. pose proof Ho as [_ [Ht [He0 Hf0]] _ _ Hs _ _ Ha].
  assert (H : (exists s', thread_step Main s = Some (Ok s') /\ running s') \/
    exists s', thread_step Java s = Some (Ok s') /\ running s').
  { destruct (st_main s) as [|ev|ev|ev|ev| | | | | | | | | | |] eqn:E; cbn in *;
      try (left; by eapply main_moves; [exact Ho | by rewrite E..]).
    - destruct (st_todo s) eqn:Etd; [|left; eapply main_moves; [exact Ho | by rewrite Etd | by rewrite E]].
      right. eapply java_moves; [exact Ho | by rewrite E |].
      destruct slot as [|ev slot]; [by rewrite !app_nil_r in Ha|]. cbn in Hs.
      pose proof (java_holds_range (st_java s)). assert (java_filled (st_java s) <= java_holds (st_java s)) by by destruct (st_java s).
      lia.
    - destruct (decide (e = 0)) as [->|Hne].
      + right. eapply java_moves; [exact Ho | by rewrite E | lia].
      + left. eapply main_moves; [exact Ho | by rewrite E | done]. }
  destruct H as [(s' & H1 & H2)|(s' & H1 & H2)]; exists s'; by econstructor.
Qed.

Lemma steps_bounded n s : nsteps step n (start all) s ->
  (exists e f slot, hand_over all s e f slot) /\ (n + steps_left s = 13 * length all + 1)%nat.
Proof.
  intros H. split; [apply steps_hand_over, rtc_nsteps; by exists n|].
  assert (Hrun : ∀ s1, nsteps step n s1 s -> (exists e f slot, hand_over all s1 e f slot) ->
    (n + steps_left s = steps_left s1)%nat).
  { clear H. induction n as [|n IH]; intros s1 H Ho; inversion H as [|? ? s2 ? Hstep Hn]; subst; [done|].
    destruct Ho as (e & f & slot & Ho). pose proof Ho as [[_ Hf] [_ [_ Hf0]] _ [Hx _] _ _ _ _].
    rewrite (step_counts s1 s2); [|done | by rewrite Hf | done]. rewrite <-(IH s2); [done | done|].
    destruct Hstep as [t ? Ht Hr]. destruct (hand_over_step _ _ _ _ _ _ Ho Ht) as (? & [= <-] & Hs). by apply Hs. }
  rewrite (Hrun (start all)); [|done | eexists _, _, _; apply start_hand_over].
  unfold steps_left. cbn. lia.
Qed.
End Proofs.

(** ** Theorems *)

(** C19: events reach the graphical interface once each and in order.  While the main
    loop runs, whatever the interleaving of the two threads: no step touches a freed
    buffer or leaves it, what the virtual machine has been called with is a prefix of
    what was sent, some thread can move until all of it has been delivered, and after
    at most thirteen steps for each event - seven of the sender, six of the
    receiver - it has been. *)
Theorem events_delivered (all : list java_event) n s :
  Forall event_ok all -> nsteps step n (start all) s ->
  (∀ t r, thread_step t s = Some r -> exists s', r = Ok s') /\
  (exists rest, st_delivered s ++ rest = all) /\
  (st_delivered s <> all -> exists s', step s s') /\
  (n <= 13 * length all + 1)%nat /\
  (n = 13 * length all + 1 -> st_delivered s = all)%nat.
Proof.
  intros Hall Hn. destruct (steps_bounded all Hall n s Hn) as [(e & f & slot & Ho) Hc].
  assert (Hmove : st_delivered s <> all -> exists s', step s s') by by eapply not_stuck.
  split_and!.
  - intros t r Hr. destruct (hand_over_step _ Hall _ _ _ _ _ _ Ho Hr) as (s' & -> & _). by exists s'.
  - eexists. apply Ho.
  - done.
  - lia.
  - intros ->. destruct (decide (st_delivered s = all)) as [|Hne]; [done|].
    destruct (Hmove Hne) as [s' Hs']. assert (Hn' : nsteps step (S (13 * length all + 1)) (start all) s').
    { replace (S _) with (13 * length all + 1 + 1)%nat by lia. eapply nsteps_trans; [exact Hn | by apply nsteps_once]. }
    destruct (steps_bounded all Hall _ _ Hn') as [_ Hc']. lia.
Qed.

(** The buffer is freed under the receiver.  When the main loop ends while the
    last event is still in the buffer, [mesh_init] frees the buffer before it waits
    for the receiver, and there is a schedule in which the receiver then reads it.
    The same happens if the receiver enters [eventCallback] after the end, which
    takes the request to leave back. *)
Theorem buffer_freed_early (all : list java_event) s :
  Forall event_ok all -> rtc step (start all) s ->
  st_main s = Call -> st_todo s = [] -> st_full s = Some 1 ->
  (exists ts, run_schedule ts s = Fault UseAfterFree) /\
  run_schedule (replicate 7 Main ++ replicate 4 Java) (start []) = Fault UseAfterFree.
Proof.
  intros Hall Hs Hm Ht Hf. split; [|by vm_compute].
  destruct (steps_hand_over all Hall s Hs) as (e & f & slot & [[_ Hf'] [Htok [He _]] Hl [Hx [_ Hj]] _ _ _ _]).
  destruct s as [em fu lk ky bf ex mn jv td dl]. cbn in *. subst. injection Hf' as <-.
  destruct jv; cbn in *; try lia; try done.
  - exists [Main; Main; Java; Java; Java; Java]. done.
  - exists [Main; Main; Java; Java; Java]. done.
  - exists [Main; Main; Java; Java; Java; Java]. done.
Qed.

Definition demo_events : list java_event := [(NAME, [72; 105]); (UUID, [48; 49; 50])].
Lemma demo_events_ok : Forall event_ok demo_events.
Proof.
  repeat apply List.Forall_cons; [..|constructor]; (split; [auto | split; [|done]]);
    by apply (bool_decide_unpack _); vm_compute.
Qed.

(** A schedule in which nobody passes and the main loop runs. *)
Definition runs (s : ev_state) : bool :=
  match st_main s with
  | Call | SemEmpty _ | Lock _ | SetEvent _ | Copy _ | Unlock | PostFull => true
  | _ => false
  end.
Fixpoint steps_along (ts : list thread) (s : ev_state) : option ev_state :=
  match ts with
  | [] => Some s
  | t :: ts =>
      match thread_step t s with
      | Some (Ok s') => if runs s' then steps_along ts s' else None
      | _ => None
      end
  end.
Lemma steps_along_steps ts s s' : steps_along ts s = Some s' -> nsteps step (length ts) s s'.
Proof.
  revert s. induction ts as [|t ts IH]; cbn; intros s; [intros [= <-]; constructor|].
  destruct (thread_step t s) as [[s1|]|] eqn:E; try done. destruct (runs s1) eqn:Er; [|done]. intros H.
  apply nsteps_l with s1; [|by apply IH]. econstructor; [exact E|]. unfold runs, running in *. by destruct (st_main s1).
Qed.

Definition hand_over_once : list thread := replicate 7 Main ++ replicate 6 Java.
Definition after (ts : list thread) (s : ev_state) : ev_state := default s (steps_along ts s).

Lemma events_delivered_witness :
  let s := after (Java :: hand_over_once ++ hand_over_once) (start demo_events) in
  (∀ t r, thread_step t s = Some r -> exists s', r = Ok s') /\
  (exists rest, st_delivered s ++ rest = demo_events) /\
  (st_delivered s <> demo_events -> exists s', step s s') /\
  (27 <= 13 * length demo_events + 1)%nat /\
  (27 = 13 * length demo_events + 1 -> st_delivered s = demo_events)%nat.
Proof.
  apply (events_delivered demo_events 27); [apply demo_events_ok|].
  apply (steps_along_steps (Java :: hand_over_once ++ hand_over_once)). by vm_compute.
Defined.

Lemma buffer_freed_early_witness :
  (exists ts, run_schedule ts (after (hand_over_once ++ [Java] ++ replicate 7 Main) (start demo_events)) = Fault UseAfterFree) /\
  run_schedule (replicate 7 Main ++ replicate 4 Java) (start []) = Fault UseAfterFree.
Proof.
  apply (buffer_freed_early demo_events); [apply demo_events_ok | | by vm_compute..].
  apply (rtc_nsteps_2 21). apply (steps_along_steps (hand_over_once ++ [Java] ++ replicate 7 Main)). by vm_compute.
Defined.
