(* ===== verification/Session.v ===== *)
(** * Devices and connections

    [src/blueZ/mesh/main.c]: adapters and the devices found by a scan, the
    connection to a device, the advertised service data, the commands of the
    graphical interface; and the notifications of [src/blueZ/mesh/gatt.c].

    The D-Bus proxies of [gdbus] stand for objects of the Bluetooth daemon: a proxy
    is a number, its properties and the success of a method call are a parameter,
    and the replies are operations of their own. *)

From Stdlib Require Import String.
From S2P Require Import Prelude Bytes Util Words Gatt Alg Crypto AddrPool Pdu Keys NetState Send Beacon Recv Node ConfigModel Prov Events.

(** ** The bus *)

(** Interfaces of the daemon's objects, and the UUIDs in their 16-bit form. *)
Inductive interface := Device1 | Adapter1 | GattService1 | GattCharacteristic1 | OtherInterface.
Definition MESH_PROV_SVC_UUID : Z := 0x1827.
Definition MESH_PROXY_SVC_UUID : Z := 0x1828.
Definition MESH_PROV_DATA_IN_UUID : Z := 0x2adb.
Definition MESH_PROV_DATA_OUT_UUID : Z := 0x2adc.
Definition MESH_PROXY_DATA_IN_UUID : Z := 0x2add.
Definition MESH_PROXY_DATA_OUT_UUID : Z := 0x2ade.
Definition NET_IDX_PRIMARY : Z := 0x0000.
Definition CONN_TYPE_NETWORK : Z := 0x00.
Definition CONN_TYPE_IDENTITY : Z := 0x01.
Definition CONN_TYPE_PROVISION : Z := 0x02.
Definition CONN_TYPE_INVALID : Z := 0xff.

(** The callbacks that are passed along with a call: of [disconnect] and of
    [mesh_gatt_notify]. *)
Inductive disc_cb := DiscNone | ProvDisconnReply (node : Z) | DisconnReply (device : option Z).
Inductive notify_cb := NotifyNone | NotifyProvOut (node : option Z) | NotifyProxyOut | DiscNotify (cb : disc_cb).
(** [struct notify_data]. *)
Record notify_data := NotifyData { no_proxy : Z; no_enable : bool; no_cb : notify_cb; no_node : option Z }.

Inductive bus_method :=
| Connect (proxy : Z)
| DisconnectDevice (proxy : Z) (cb : disc_cb)
| StartDiscovery (adapter : Z) | StopDiscovery (adapter : Z)
| SetDiscoveryFilter (adapter uuid : Z)
| AcquireNotify (data : notify_data) | StartNotify (data : notify_data) | StopNotify (data : notify_data).

(** [bus_parent] is the proxy whose path is the property "Adapter", "Device" or
    "Service" of a proxy; [bus_call] whether [g_dbus_proxy_method_call] returns TRUE. *)
Class Bus := {
  bus_interface : Z -> interface;
  bus_uuid : Z -> option Z;
  bus_parent : Z -> option Z;
  bus_address : Z -> option (list Z);
  bus_alias : Z -> option (list Z);
  bus_service_data : Z -> option (list (Z * list Z));
  bus_notifying : Z -> bool;
  bus_notify_acquired : Z -> bool;
  bus_value : Z -> option (list Z);
  bus_call : bus_method -> bool;
}.

(** ** State *)

Record connection := Connection {
  cn_device : option Z; cn_service : option Z; cn_data_in : option Z; cn_data_out : option Z;
  cn_session_open : bool; cn_unicast : Z; cn_net_idx : Z; cn_dev_uuid : list Z; cn_type : Z }.
(** The static variable before [main], and after [memset]. *)
Definition zero_connection : connection := Connection None None None None false 0 0 (rep 16 0) 0.

(** [struct mesh_device] and [struct adapter], each with its address. *)
Record mesh_device := MeshDevice { dv_id : Z; dv_proxy : Z; dv_uuid : list Z; dv_hide : bool }.
Record adapter := Adapter { ad_id : Z; ad_proxy : Z; ad_devices : list mesh_device }.

(** [pipe_read_prov] with its node, [pipe_read_proxy], or none. *)
Inductive notify_handler := ReadProv (node : option Z) | ReadProxy | ReadNothing.

(** [ms_default] is the address of [default_ctrl]; [ms_notify] is [notify_io], by
    its read handler; [ms_calls] are the method calls made and [ms_events] what was sent to the graphical interface. *)
Record main_state := MainState {
  ms_prov : prov_state; ms_sar : gatt_rx; ms_conn : connection; ms_adapters : list adapter;
  ms_default : option Z; ms_next : Z; ms_discovering : bool; ms_discover_mesh : bool;
  ms_net_key_index : Z; ms_services : list Z; ms_chars : list Z; ms_notify : option notify_handler;
  ms_calls : list bus_method; ms_events : list java_event }.

Definition set_ms_prov (v : prov_state) (s : main_state) : main_state :=
  MainState v (ms_sar s) (ms_conn s) (ms_adapters s) (ms_default s) (ms_next s)
    (ms_discovering s) (ms_discover_mesh s) (ms_net_key_index s) (ms_services s) (ms_chars
    s) (ms_notify s) (ms_calls s) (ms_events s).
Definition set_sar (v : gatt_rx) (s : main_state) : main_state :=
  MainState (ms_prov s) v (ms_conn s) (ms_adapters s) (ms_default s) (ms_next s)
    (ms_discovering s) (ms_discover_mesh s) (ms_net_key_index s) (ms_services s) (ms_chars
    s) (ms_notify s) (ms_calls s) (ms_events s).
Definition set_conn (v : connection) (s : main_state) : main_state :=
  MainState (ms_prov s) (ms_sar s) v (ms_adapters s) (ms_default s) (ms_next s)
    (ms_discovering s) (ms_discover_mesh s) (ms_net_key_index s) (ms_services s) (ms_chars
    s) (ms_notify s) (ms_calls s) (ms_events s).
Definition set_adapters (v : list adapter) (s : main_state) : main_state :=
  MainState (ms_prov s) (ms_sar s) (ms_conn s) v (ms_default s) (ms_next s)
    (ms_discovering s) (ms_discover_mesh s) (ms_net_key_index s) (ms_services s) (ms_chars
    s) (ms_notify s) (ms_calls s) (ms_events s).
Definition set_default (v : option Z) (s : main_state) : main_state :=
  MainState (ms_prov s) (ms_sar s) (ms_conn s) (ms_adapters s) v (ms_next s)
    (ms_discovering s) (ms_discover_mesh s) (ms_net_key_index s) (ms_services s) (ms_chars
    s) (ms_notify s) (ms_calls s) (ms_events s).
Definition set_next (v : Z) (s : main_state) : main_state :=
  MainState (ms_prov s) (ms_sar s) (ms_conn s) (ms_adapters s) (ms_default s) v
    (ms_discovering s) (ms_discover_mesh s) (ms_net_key_index s) (ms_services s) (ms_chars
    s) (ms_notify s) (ms_calls s) (ms_events s).
Definition set_discovering (v : bool) (s : main_state) : main_state :=
  MainState (ms_prov s) (ms_sar s) (ms_conn s) (ms_adapters s) (ms_default s) (ms_next s)
    v (ms_discover_mesh s) (ms_net_key_index s) (ms_services s) (ms_chars s) (ms_notify s)
    (ms_calls s) (ms_events s).
Definition set_discover_mesh (v : bool) (s : main_state) : main_state :=
  MainState (ms_prov s) (ms_sar s) (ms_conn s) (ms_adapters s) (ms_default s) (ms_next s)
    (ms_discovering s) v (ms_net_key_index s) (ms_services s) (ms_chars s) (ms_notify s)
    (ms_calls s) (ms_events s).
Definition set_services (v : list Z) (s : main_state) : main_state :=
  MainState (ms_prov s) (ms_sar s) (ms_conn s) (ms_adapters s) (ms_default s) (ms_next s)
    (ms_discovering s) (ms_discover_mesh s) (ms_net_key_index s) v (ms_chars s) (ms_notify
    s) (ms_calls s) (ms_events s).
Definition set_chars (v : list Z) (s : main_state) : main_state :=
  MainState (ms_prov s) (ms_sar s) (ms_conn s) (ms_adapters s) (ms_default s) (ms_next s)
    (ms_discovering s) (ms_discover_mesh s) (ms_net_key_index s) (ms_services s) v
    (ms_notify s) (ms_calls s) (ms_events s).
Definition set_notify (v : option notify_handler) (s : main_state) : main_state :=
  MainState (ms_prov s) (ms_sar s) (ms_conn s) (ms_adapters s) (ms_default s) (ms_next s)
    (ms_discovering s) (ms_discover_mesh s) (ms_net_key_index s) (ms_services s) (ms_chars
    s) v (ms_calls s) (ms_events s).
Definition set_calls (v : list bus_method) (s : main_state) : main_state :=
  MainState (ms_prov s) (ms_sar s) (ms_conn s) (ms_adapters s) (ms_default s) (ms_next s)
    (ms_discovering s) (ms_discover_mesh s) (ms_net_key_index s) (ms_services s) (ms_chars
    s) (ms_notify s) v (ms_events s).
Definition set_events (v : list java_event) (s : main_state) : main_state :=
  MainState (ms_prov s) (ms_sar s) (ms_conn s) (ms_adapters s) (ms_default s) (ms_next s)
    (ms_discovering s) (ms_discover_mesh s) (ms_net_key_index s) (ms_services s) (ms_chars
    s) (ms_notify s) (ms_calls s) v.
Definition set_cn_device (v : option Z) (c : connection) : connection :=
  Connection v (cn_service c) (cn_data_in c) (cn_data_out c) (cn_session_open c)
    (cn_unicast c) (cn_net_idx c) (cn_dev_uuid c) (cn_type c).
Definition set_cn_service (v : option Z) (c : connection) : connection :=
  Connection (cn_device c) v (cn_data_in c) (cn_data_out c) (cn_session_open c)
    (cn_unicast c) (cn_net_idx c) (cn_dev_uuid c) (cn_type c).
Definition set_cn_data_in (v : option Z) (c : connection) : connection :=
  Connection (cn_device c) (cn_service c) v (cn_data_out c) (cn_session_open c)
    (cn_unicast c) (cn_net_idx c) (cn_dev_uuid c) (cn_type c).
Definition set_cn_data_out (v : option Z) (c : connection) : connection :=
  Connection (cn_device c) (cn_service c) (cn_data_in c) v (cn_session_open c) (cn_unicast
    c) (cn_net_idx c) (cn_dev_uuid c) (cn_type c).
Definition set_cn_session_open (v : bool) (c : connection) : connection :=
  Connection (cn_device c) (cn_service c) (cn_data_in c) (cn_data_out c) v (cn_unicast c)
    (cn_net_idx c) (cn_dev_uuid c) (cn_type c).
Definition set_cn_unicast (v : Z) (c : connection) : connection :=
  Connection (cn_device c) (cn_service c) (cn_data_in c) (cn_data_out c) (cn_session_open
    c) v (cn_net_idx c) (cn_dev_uuid c) (cn_type c).
Definition set_cn_net_idx (v : Z) (c : connection) : connection :=
  Connection (cn_device c) (cn_service c) (cn_data_in c) (cn_data_out c) (cn_session_open
    c) (cn_unicast c) v (cn_dev_uuid c) (cn_type c).
Definition set_cn_dev_uuid (v : list Z) (c : connection) : connection :=
  Connection (cn_device c) (cn_service c) (cn_data_in c) (cn_data_out c) (cn_session_open
    c) (cn_unicast c) (cn_net_idx c) v (cn_type c).
Definition set_cn_type (v : Z) (c : connection) : connection :=
  Connection (cn_device c) (cn_service c) (cn_data_in c) (cn_data_out c) (cn_session_open
    c) (cn_unicast c) (cn_net_idx c) (cn_dev_uuid c) v.

(** ** Helpers *)

Definition MM (A : Type) : Type := St main_state A.

(** A device of a scan, and its list. *)
Definition is_device (id : Z) (d : mesh_device) : bool := dv_id d =? id.
Definition is_adapter (id : Z) (a : adapter) : bool := ad_id a =? id.
Definition set_ad_devices (v : list mesh_device) (a : adapter) : adapter := Adapter (ad_id a) (ad_proxy a) v.
Definition find_device_by_uuid (source : list mesh_device) (uuid : list Z) : option mesh_device :=
  find_first (fun dev => bool_decide (dv_uuid dev = uuid)) source.
(** The parameter [proxy] is hidden by a variable of the same name in the loop. *)
Definition find_device_by_proxy (source : list mesh_device) (proxy : Z) : option mesh_device :=
  find_first (fun dev => let proxy := dv_proxy dev in dv_proxy dev =? proxy) source.

(** [struct prov_svc_data]. *)
Record prov_svc_data := ProvSvcData { sd_uuid : list Z; sd_oob : Z }.
Definition parse_prov_service_data (data : list Z) : res (option prov_svc_data) :=
  if len data <? 18 then mret None else
  uuid ← rd_range data 0 16; oob ← get_be16 data 16; mret (Some (ProvSvcData uuid oob)).

(** The text of an UUID: [sprintf] with [%2.2x] for each octet. *)
Definition uuid_text (uuid : list Z) : list Z := hex_text uuid.

Section Main.
Context {A : Alg} {MC : ModelCode} {B : Bus}.

Definition conn : MM connection := gets ms_conn.
Definition mod_conn (f : connection -> connection) : MM unit := modify (fun s => set_conn (f (ms_conn s)) s).
Definition send_java (ev : java_event) : MM unit := modify (fun s => set_events (ms_events s ++ [ev]) s).
(** [g_dbus_proxy_method_call]. *)
Definition call (m : bus_method) : MM bool :=
  if bus_call m then _ ← modify (fun s => set_calls (ms_calls s ++ [m]) s); mret true else mret false.

Definition has_address (proxy : Z) : bool := match bus_address proxy with Some _ => true | None => false end.

Definition service_is_mesh (proxy : Z) (target_uuid : option Z) : bool :=
  match bus_uuid proxy with
  | None => false
  | Some uuid =>
      match target_uuid with
      | Some target => uuid =? target
      | None => negb (uuid =? MESH_PROV_SVC_UUID) || negb (uuid =? MESH_PROXY_SVC_UUID)
      end
  end.
Definition char_is_mesh (proxy : Z) (target_uuid : option Z) : bool :=
  match bus_uuid proxy with
  | None => false
  | Some uuid =>
      match target_uuid with
      | Some target => uuid =? target
      | None => (uuid =? MESH_PROV_DATA_IN_UUID) || (uuid =? MESH_PROV_DATA_OUT_UUID) ||
                (uuid =? MESH_PROXY_DATA_IN_UUID) || (uuid =? MESH_PROXY_DATA_OUT_UUID)
      end
  end.

(** A child of an object is one whose property is the path of the object. *)
Definition device_is_child (device master : Z) : bool := bool_decide (bus_parent device = Some master).
Definition mesh_gatt_is_child (proxy : Z) (parent : option Z) : bool :=
  match parent with None => false | Some p => bool_decide (bus_parent proxy = Some p) end.
Definition find_parent (adapters : list adapter) (device : Z) : option adapter :=
  find_first (fun a => device_is_child device (ad_proxy a)) adapters.

(** [*default_ctrl]. *)
Definition default_ctrl : MM adapter :=
  s ← get;
  match ms_default s with
  | None => fail NullDeref
  | Some id => lift (of_option UseAfterFree (find_first (is_adapter id) (ms_adapters s)))
  end.
Definition mod_adapter (id : Z) (f : adapter -> adapter) : MM unit :=
  modify (fun s => set_adapters (update_first (is_adapter id) f (ms_adapters s)) s).
Definition forget_mesh_devices : MM unit := a ← default_ctrl; mod_adapter (ad_id a) (set_ad_devices []).

(** The handlers of the layers below. *)
Definition on_nodes {X} (h : NM X) : MM X := fun s =>
  match on_world h (ms_prov s) with Ok (x, p) => Ok (x, set_ms_prov p s) | Fault e => Fault e end.
Definition nodes : MM node_store := s ← get; mret (w_nodes (ps_world (ms_prov s))).
Definition find_node (uuid : list Z) : MM (option Z) :=
  ns ← nodes; n ← lift (node_find_by_uuid ns uuid); mret (option_map nd_id n).

(** ** Notifications *)

Definition disconnect (cb : disc_cb) : MM unit :=
  c ← conn;
  match cn_device c with
  | None => mret tt
  | Some proxy =>
      ok ← call (DisconnectDevice proxy cb);
      if negb ok then mret tt
      else if has_address proxy then mret tt else fail Uninit
  end.

Definition notify_io_destroy : MM unit := modify (set_notify None).

(** With a pipe in place, stopping calls back at once; it is called with
    [disc_notify_cb] or without a callback. *)
Definition mesh_gatt_notify (proxy : option Z) (enable : bool) (cb : notify_cb) (node : option Z) : MM bool :=
  s ← get;
  match enable, ms_notify s with
  | false, Some _ =>
      _ ← notify_io_destroy;
      _ ← (match cb with DiscNotify c => disconnect c | _ => mret tt end);
      mret true
  | _, _ =>
      match proxy with
      | None => mret false
      | Some p =>
          let data := NotifyData p enable cb node in
          call (if enable then if bus_notify_acquired p then AcquireNotify data else StartNotify data
                else StopNotify data)
      end
  end.

Definition data_out_notify (proxy : option Z) (enable : bool) (cb : option Z -> notify_cb) : MM unit :=
  c ← conn;
  node ← find_node (cn_dev_uuid c);
  _ ← mesh_gatt_notify proxy enable (cb node) node;
  mret tt.

Definition disconnect_device (cb : disc_cb) : MM unit :=
  c ← conn;
  _ ← on_nodes (net_session_close (cn_data_in c));
  match cn_data_out c with
  | Some out =>
      if bus_notifying out then
        ok ← mesh_gatt_notify (Some out) false (DiscNotify cb) None;
        if (ok : bool) then mret tt else disconnect cb
      else disconnect cb
  | None => disconnect cb
  end.

Definition session_open_cb (fuel : nat) (status : Z) : MM unit :=
  if truth status then disconnect_device DiscNone
  else
    c ← conn;
    if cn_type c =? CONN_TYPE_IDENTITY then
      _ ← on_nodes (config_client_get_composition fuel (cn_unicast c)); mret tt
    else mret tt.

(** The calls of [disconnect_device] and of [session_open_cb] by the layers below
    are events; a successful end of provisioning has just stored the node. *)
Fixpoint react (fuel : nat) (new_node : option Z) (evs : list event) : MM unit :=
  match evs with
  | [] => mret tt
  | Db (DbNewNode node _) :: evs => react fuel (Some node) evs
  | Disconnect :: evs =>
      _ ← disconnect_device (match new_node with Some n => ProvDisconnReply n | None => DiscNone end);
      react fuel None evs
  | OpenCb status :: evs => _ ← session_open_cb fuel status; react fuel None evs
  | _ :: evs => react fuel None evs
  end.
Definition on_prov {X} (fuel : nat) (h : PM X) : MM X :=
  s ← get;
  let old := w_out (ps_world (ms_prov s)) in
  x ← (fun s => match h (ms_prov s) with Ok (x, p) => Ok (x, set_ms_prov p s) | Fault e => Fault e end);
  s' ← get;
  _ ← react fuel None (drop (length old) (w_out (ps_world (ms_prov s'))));
  mret x.

(** ** Replies *)

Definition notify_prov_out_cb (fuel : nat) (error : bool) (node : option Z) : MM unit :=
  c ← conn;
  if error then mret tt
  else if negb (cn_type c =? CONN_TYPE_PROVISION) then mret tt
  else match cn_data_in c, node with
       | Some _, Some node =>
           s ← get;
           ok ← on_prov fuel (prov_open node (ms_net_key_index s));
           if (ok : bool) then mret tt
           else _ ← on_nodes (node_free (Some node)); disconnect_device DiscNone
       | _, _ => mret tt
       end.

Definition notify_proxy_out_cb (error : bool) : MM unit :=
  c ← conn;
  if error then mret tt
  else if negb (cn_type c =? CONN_TYPE_IDENTITY) && negb (cn_type c =? CONN_TYPE_NETWORK) then mret tt
  else match cn_data_in c with
       | None => mret tt
       | Some p => _ ← on_nodes (net_session_open (Some p) true true); mod_conn (set_cn_session_open true)
       end.

(** [data->cb(message, data->user_data)]. *)
Definition run_notify_cb (fuel : nat) (cb : notify_cb) (error : bool) : MM unit :=
  match cb with
  | NotifyNone => mret tt
  | NotifyProvOut node => notify_prov_out_cb fuel error node
  | NotifyProxyOut => notify_proxy_out_cb error
  | DiscNotify c => disconnect c
  end.

Definition notify_reply (fuel : nat) (data : notify_data) (error : bool) : MM unit :=
  run_notify_cb fuel (no_cb data) error.

(** The reply to [AcquireNotify]: an error, arguments of other types, a pipe. *)
Inductive acquired := AcquireError | AcquireOther | AcquirePipe.
Definition acquire_notify_reply (fuel : nat) (data : notify_data) (reply : acquired) : MM unit :=
  match reply with
  | AcquireError => _ ← call (StartNotify data); mret tt
  | AcquireOther => _ ← notify_io_destroy; _ ← call (StartNotify data); mret tt
  | AcquirePipe =>
      _ ← notify_io_destroy;
      _ ← (match bus_uuid (no_proxy data) with
           | None => mret tt
           | Some uuid =>
               modify (set_notify (Some
                 (if uuid =? MESH_PROV_DATA_OUT_UUID then ReadProv (no_node data)
                  else if uuid =? MESH_PROXY_DATA_OUT_UUID then ReadProxy else ReadNothing)))
           end);
      run_notify_cb fuel (no_cb data) false
  end.

(** [set_connected_device]: the property "Alias" is read where there is none if the
    connection is to a mesh. *)
Definition set_connected_device (proxy : option Z) : MM unit :=
  _ ← mod_conn (set_cn_device proxy);
  match proxy with
  | None => mod_conn (fun _ => set_cn_type CONN_TYPE_INVALID zero_connection)
  | Some p =>
      c ← conn;
      let mesh := (cn_type c =? CONN_TYPE_IDENTITY) || (cn_type c =? CONN_TYPE_NETWORK) in
      match bus_alias p with
      | Some _ => mret tt
      | None => if mesh then fail Uninit else mret tt
      end
  end.

Definition connect_reply (proxy : Z) (error : bool) : MM unit :=
  if error then set_connected_device None else set_connected_device (Some proxy).

Definition set_scan_filter_uuids (uuid : Z) : MM unit :=
  a ← default_ctrl; _ ← call (SetDiscoveryFilter (ad_proxy a) uuid); mret tt.

Definition prov_disconn_reply (node : Z) (error : bool) : MM unit :=
  if error then mret tt else
  _ ← set_connected_device None;
  _ ← set_scan_filter_uuids MESH_PROXY_SVC_UUID;
  _ ← modify (set_discover_mesh true);
  _ ← mod_conn (fun c => set_cn_type CONN_TYPE_IDENTITY (set_cn_data_in None (set_cn_data_out None c)));
  unicast ← on_nodes (node_primary (Some node));
  _ ← mod_conn (set_cn_unicast unicast);
  a ← default_ctrl;
  _ ← call (StartDiscovery (ad_proxy a));
  mret tt.

Definition disconn_reply (device : option Z) (error : bool) : MM unit :=
  if error then mret tt else
  c ← conn;
  if bool_decide (device = cn_device c) then set_connected_device None else mret tt.

(** The reply to the method Disconnect. *)
Definition disconnect_reply (cb : disc_cb) (error : bool) : MM unit :=
  match cb with
  | DiscNone => mret tt
  | ProvDisconnReply node => prov_disconn_reply node error
  | DisconnReply device => disconn_reply device error
  end.

(** ** Advertisements *)

Definition parse_mesh_service_data (data : list Z) : MM bool :=
  t ← (if (len data =? 9) || (len data =? 17) then b ← lift (rd data 0); mret b else mret 0);
  if negb ((len data =? 9) && (t =? 0x00)) && negb ((len data =? 17) && (t =? 0x01)) then mret false else
  c ← conn;
  if negb (t =? cn_type c) then mret false else
  s ← get;
  let keys := w_keys (ps_world (ms_prov s)) in
  if t =? CONN_TYPE_IDENTITY then
    if cn_unicast c =? UNASSIGNED then mret false else
    match keys_net_key_get keys (ms_net_key_index s) true with
    | None => mret false
    | Some key => mret (mesh_crypto_identity_check key (cn_unicast c) (drop 1 data))
    end
  else if t =? CONN_TYPE_NETWORK then
    let net_idx := net_validate_proxy_beacon keys (drop 1 data) in
    mret (negb ((net_idx =? NET_IDX_INVALID) || negb (net_idx =? cn_net_idx c)))
  else mret true.

(** [parse_service_data] for the two services. *)
Fixpoint find_service (entries : list (Z * list Z)) (target : Z) : option (list Z) :=
  match entries with
  | [] => None
  | (uuid, data) :: entries => if uuid =? target then Some data else find_service entries target
  end.
Definition parse_service_data_prov (proxy : Z) : MM (option prov_svc_data) :=
  match bus_service_data proxy with
  | None => mret None
  | Some entries =>
      match find_service entries MESH_PROV_SVC_UUID with
      | None => mret None
      | Some data => lift (parse_prov_service_data data)
      end
  end.
Definition parse_service_data_proxy (proxy : Z) : MM bool :=
  match bus_service_data proxy with
  | None => mret false
  | Some entries =>
      match find_service entries MESH_PROXY_SVC_UUID with
      | None => mret false
      | Some data => parse_mesh_service_data data
      end
  end.

Definition print_device (proxy : Z) : MM unit :=
  if has_address proxy then send_java (NAME, default (octets "<unknown>") (bus_alias proxy)) else mret tt.
Definition print_prov_service (data : prov_svc_data) : MM unit := send_java (UUID, uuid_text (sd_uuid data)).

Definition add_device (adapter_id proxy : Z) (uuid : list Z) : MM unit :=
  s ← get;
  let dev := MeshDevice (ms_next s) proxy uuid (ms_discovering s) in
  _ ← modify (set_next (ms_next s + 1));
  mod_adapter adapter_id (fun a => set_ad_devices (ad_devices a ++ [dev]) a).

Definition update_device_info (proxy : Z) : MM unit :=
  s ← get;
  match find_parent (ms_adapters s) proxy with
  | None => mret tt
  | Some adapter =>
      if negb (bool_decide (Some (ad_id adapter) = ms_default s)) then mret tt
      else if negb (has_address proxy) then mret tt else
      data ← parse_service_data_prov proxy;
      match data with
      | Some data =>
          let dev := find_device_by_uuid (ad_devices adapter) (sd_uuid data) in
          _ ← (if ms_discovering s && (match dev with Some d => negb (dv_hide d) | None => true end)
               then print_prov_service data else mret tt);
          match dev with
          | Some dev =>
              mod_adapter (ad_id adapter) (fun a => set_ad_devices (update_first (is_device (dv_id dev))
                (fun d => MeshDevice (dv_id d) proxy (dv_uuid d) (ms_discovering s)) (ad_devices a)) a)
          | None =>
              _ ← add_device (ad_id adapter) proxy (sd_uuid data);
              _ ← print_device proxy;
              _ ← on_nodes (node_create_new (sd_oob data) (sd_uuid data));
              mret tt
          end
      | None =>
          found ← parse_service_data_proxy proxy;
          if (found : bool) && ms_discover_mesh s then
            a ← default_ctrl;
            _ ← call (StopDiscovery (ad_proxy a));
            _ ← modify (set_discover_mesh false);
            _ ← forget_mesh_devices;
            _ ← call (Connect proxy);
            mret tt
          else mret tt
      end
  end.

(** ** Objects of the daemon come and go *)

Definition adapter_added (proxy : Z) : MM unit :=
  s ← get;
  let id := ms_next s in
  _ ← modify (set_next (id + 1));
  _ ← modify (fun s => set_adapters (ms_adapters s ++ [Adapter id proxy []]) s);
  match ms_default s with None => modify (set_default (Some id)) | Some _ => mret tt end.

Definition get_characteristic (device : option Z) (char_uuid : Z) : MM (option Z) :=
  s ← get;
  let svc_uuid := if cn_type (ms_conn s) =? CONN_TYPE_PROVISION then MESH_PROV_SVC_UUID
                  else MESH_PROXY_SVC_UUID in
  match find_first (fun l => mesh_gatt_is_child l device && service_is_mesh l (Some svc_uuid)) (ms_services s) with
  | None => mret None
  | Some service =>
      mret (find_first (fun l => mesh_gatt_is_child l (Some service) && char_is_mesh l (Some char_uuid)) (ms_chars s))
  end.

(** The two branches of [mesh_session_setup]. *)
Definition setup_with (proxy : option Z) (in_uuid out_uuid : Z) (cb : option Z -> notify_cb) : MM unit :=
  i ← get_characteristic proxy in_uuid;
  _ ← mod_conn (set_cn_data_in i);
  match i with
  | None => mret tt
  | Some _ =>
      o ← get_characteristic proxy out_uuid;
      _ ← mod_conn (set_cn_data_out o);
      match o with None => mret tt | Some _ => data_out_notify o true cb end
  end.
Definition mesh_session_setup (proxy : option Z) : MM unit :=
  c ← conn;
  if cn_type c =? CONN_TYPE_PROVISION then
    setup_with proxy MESH_PROV_DATA_IN_UUID MESH_PROV_DATA_OUT_UUID NotifyProvOut
  else if negb (cn_type c =? CONN_TYPE_INVALID) then
    setup_with proxy MESH_PROXY_DATA_IN_UUID MESH_PROXY_DATA_OUT_UUID (fun _ => NotifyProxyOut)
  else mret tt.

Definition proxy_added (proxy : Z) : MM unit :=
  match bus_interface proxy with
  | Device1 => update_device_info proxy
  | Adapter1 => adapter_added proxy
  | GattService1 =>
      if service_is_mesh proxy None then modify (fun s => set_services (ms_services s ++ [proxy]) s) else mret tt
  | GattCharacteristic1 =>
      if char_is_mesh proxy None then modify (fun s => set_chars (ms_chars s ++ [proxy]) s) else mret tt
  | OtherInterface => mret tt
  end.

Definition device_removed (proxy : Z) : MM unit :=
  s ← get;
  match find_parent (ms_adapters s) proxy with
  | None => mret tt
  | Some adapter =>
      _ ← (match find_device_by_proxy (ad_devices adapter) proxy with
           | Some dev => mod_adapter (ad_id adapter) (fun a => set_ad_devices (remove_first (is_device (dv_id dev)) (ad_devices a)) a)
           | None => mret tt
           end);
      _ ← print_device proxy;
      c ← conn;
      if bool_decide (cn_device c = Some proxy) then set_connected_device None else mret tt
  end.

Definition adapter_removed (proxy : Z) : MM unit :=
  s ← get;
  match find_first (fun a => ad_proxy a =? proxy) (ms_adapters s) with
  | None => mret tt
  | Some adapter =>
      _ ← (match ms_default s with
           | None => mret tt
           | Some _ =>
               d ← default_ctrl;
               if ad_proxy d =? proxy then _ ← modify (set_default None); set_connected_device None else mret tt
           end);
      modify (fun s => set_adapters (remove_first (is_adapter (ad_id adapter)) (ms_adapters s)) s)
  end.

Definition proxy_removed (proxy : Z) : MM unit :=
  match bus_interface proxy with
  | Device1 => device_removed proxy
  | Adapter1 => adapter_removed proxy
  | GattService1 =>
      c ← conn;
      _ ← (if bool_decide (cn_service c = Some proxy) then
             _ ← (if service_is_mesh proxy (Some MESH_PROXY_SVC_UUID) then
                    _ ← data_out_notify (cn_data_out c) false (fun _ => NotifyNone);
                    on_nodes (net_session_close (cn_data_in c))
                  else mret tt);
             mod_conn (fun c => set_cn_data_out None (set_cn_data_in None (set_cn_service None c)))
           else mret tt);
      modify (fun s => set_services (remove_first (Z.eqb proxy) (ms_services s)) s)
  | GattCharacteristic1 => modify (fun s => set_chars (remove_first (Z.eqb proxy) (ms_chars s)) s)
  | OtherInterface => mret tt
  end.

(** [disconnect_handler]: the daemon is gone. *)
Definition disconnect_handler : MM unit := modify (fun s => set_default None (set_adapters [] s)).

(** ** Incoming data *)

(** The copy to a buffer of [size] octets on the stack. *)
Definition get_characteristic_value (value : list Z) (size : Z) : res Z :=
  _ ← wr_range (rep size 0) 0 value; mret (s32 (len value)).

(** [mesh_gatt_sar(&res, len)].  The packet is then decrypted where it is, in
    [gatt_pkt]; what that leaves there is read only if a frame continues a PDU that
    was complete, and is not kept here. *)
Definition gatt_sar (data : list Z) : MM (option (list Z)) :=
  s ← get;
  '(n, res, rx) ← lift (mesh_gatt_sar data (len data) (ms_sar s));
  _ ← modify (set_sar rx);
  mret (if n =? 0 then None else Some (take (Z.to_nat n) res)).

Definition deliver_net (fuel : nat) (pdu : list Z) : MM bool :=
  on_prov fuel (on_world (net_data_ready fuel pdu (len pdu))).
Definition deliver_prov (fuel : nat) (node : option Z) (pdu : list Z) : MM bool :=
  match node with
  | Some id => on_prov fuel (prov_data_ready id pdu)
  | None => fail NullDeref
  end.

Definition process_mesh_characteristic (fuel : nat) (proxy : Z) : MM bool :=
  match bus_uuid proxy, bus_value proxy with
  | Some uuid, Some value =>
      let is_prov := uuid =? MESH_PROV_DATA_OUT_UUID in
      if is_prov || (uuid =? MESH_PROXY_DATA_OUT_UUID) then
        l ← lift (get_characteristic_value value 256);
        let len := u16 l in
        if (len =? 0) || (69 <? len) then mret false else
        pdu ← gatt_sar value;
        match pdu with
        | None => mret false
        | Some pdu =>
            if is_prov then
              c ← conn;
              node ← find_node (cn_dev_uuid c);
              match node with
              | None => mret false
              | Some _ => deliver_prov fuel node pdu
              end
            else deliver_net fuel pdu
        end
      else mret false
  | _, _ => mret false
  end.

(** [pipe_read]: what [read] returns, at most 512 octets each time, until there is
    no more or the pipe is closed; a handler may close it. *)
Fixpoint pipe_read_loop (fuel : nat) (h : notify_handler) (frames : list (list Z)) : MM unit :=
  match frames with
  | [] => mret tt
  | f :: frames =>
      if len f =? 0 then mret tt else
      pdu ← gatt_sar (take 512 f);
      _ ← (match pdu, h with
           | Some pdu, ReadProv node => _ ← deliver_prov fuel node pdu; mret tt
           | Some pdu, _ => _ ← deliver_net fuel pdu; mret tt
           | None, _ => mret tt
           end);
      s ← get;
      match ms_notify s with None => mret tt | Some _ => pipe_read_loop fuel h frames end
  end.
Definition pipe_read (fuel : nat) (frames : list (list Z)) : MM unit :=
  s ← get;
  match ms_notify s with
  | None | Some ReadNothing => mret tt
  | Some h => pipe_read_loop fuel h frames
  end.
Definition pipe_hup : MM unit := notify_io_destroy.

(** ** Changes of properties *)

Inductive property :=
| PConnected (b : bool) | PAlias | PServiceData | PServicesResolved (b : bool)
| PDiscovering (v : Z) | PValue | POther.

Definition device_changed (proxy : Z) (name : property) : MM unit :=
  c ← conn;
  match name with
  | PConnected connected =>
      if connected && bool_decide (cn_device c = None) then set_connected_device (Some proxy)
      else if negb connected && bool_decide (cn_device c = Some proxy) then
        _ ← on_nodes (net_session_close (cn_data_in c)); set_connected_device None
      else mret tt
  | PAlias => if bool_decide (cn_device c = Some proxy) then set_connected_device (Some proxy) else mret tt
  | PServiceData => update_device_info proxy
  | PServicesResolved resolved => if resolved then mesh_session_setup (cn_device c) else mret tt
  | _ => mret tt
  end.

Definition property_changed (fuel : nat) (proxy : Z) (name : property) : MM unit :=
  match bus_interface proxy with
  | Device1 =>
      s ← get;
      match ms_default s with
      | None => mret tt
      | Some _ =>
          d ← default_ctrl;
          if device_is_child proxy (ad_proxy d) then device_changed proxy name else mret tt
      end
  | Adapter1 => match name with PDiscovering v => modify (set_discovering (truth v)) | _ => mret tt end
  | GattCharacteristic1 =>
      c ← conn;
      match name with
      | PValue =>
          if (cn_type c =? CONN_TYPE_PROVISION) || cn_session_open c then
            _ ← process_mesh_characteristic fuel proxy; mret tt
          else mret tt
      | _ => mret tt
      end
  | _ => mret tt
  end.

(** ** Commands *)

Definition has_default_ctrl : MM bool := s ← get; mret (match ms_default s with Some _ => true | None => false end).

Definition find_ctrl_by_address (source : list adapter) (address : list Z) : option adapter :=
  find_first (fun a => bool_decide (bus_address (ad_proxy a) = Some address)) source.
Definition cmd_select (address : list Z) : MM unit :=
  s ← get;
  match find_ctrl_by_address (ms_adapters s) address with
  | None => mret tt
  | Some adapter =>
      same ← (match ms_default s with
              | None => mret false
              | Some _ => d ← default_ctrl; mret (ad_proxy d =? ad_proxy adapter)
              end);
      if (same : bool) then mret tt
      else _ ← forget_mesh_devices; modify (set_default (Some (ad_id adapter)))
  end.

Definition cmd_scan_unprovisioned (onoff : Z) : MM unit :=
  _ ← (if onoff =? 1 then
         _ ← modify (set_discover_mesh false); set_scan_filter_uuids MESH_PROV_SVC_UUID
       else mret tt);
  a ← default_ctrl;
  _ ← call (if onoff =? 1 then StartDiscovery (ad_proxy a) else StopDiscovery (ad_proxy a));
  mret tt.

Definition cmd_security (lvl : Z) : MM unit := _ ← on_prov 0 (prov_set_sec_level (u8 lvl)); mret tt.

Definition look_for (net_idx unicast : Z) : MM unit :=
  _ ← mod_conn (fun c => set_cn_unicast unicast (set_cn_net_idx net_idx c));
  a ← default_ctrl;
  s ← get;
  _ ← (if ms_discovering s then _ ← call (StopDiscovery (ad_proxy a)); mret tt else mret tt);
  _ ← set_scan_filter_uuids MESH_PROXY_SVC_UUID;
  _ ← modify (set_discover_mesh true);
  _ ← mod_conn (set_cn_type (if unicast =? UNASSIGNED then CONN_TYPE_NETWORK else CONN_TYPE_IDENTITY));
  ok ← call (StartDiscovery (ad_proxy a));
  if negb ok then mret tt else _ ← call (StartDiscovery (ad_proxy a)); mret tt.
(** [argv] from its second element on. *)
Definition cmd_connect (argv : list (list Z)) : MM unit :=
  ok ← has_default_ctrl;
  if negb ok then mret tt else
  _ ← mod_conn (fun _ => zero_connection);
  match argv with
  | [] | [] :: _ => look_for NET_IDX_PRIMARY UNASSIGNED
  | arg :: args =>
      let '(v, n) := strtol 16 arg in
      if n =? 0 then mod_conn (set_cn_net_idx NET_IDX_INVALID)
      else look_for (u16 v) (match args with [] => UNASSIGNED | a :: _ => u16 (strtol 16 a).1 end)
  end.

Definition cmd_disconn : MM unit :=
  c ← conn;
  _ ← (if cn_type c =? CONN_TYPE_PROVISION then
         node ← find_node (cn_dev_uuid c);
         match node with Some n => on_nodes (node_free (Some n)) | None => mret tt end
       else mret tt);
  c ← conn;
  disconnect_device (DisconnReply (cn_device c)).

(** [uuid] is without its final NUL; [connection.dev_uuid] has 16 octets. *)
Definition cmd_start_prov (uuid : list Z) : MM unit :=
  let n := Z.to_nat (len uuid / 2) in
  _ ← disconnect_device DiscNone;
  id ← lift (wr_range (rep 16 0) 0 (fst (hex_written n uuid)));
  _ ← mod_conn (set_cn_dev_uuid id);
  node ← find_node id;
  match node with
  | None => mret tt
  | Some _ =>
      provisioned ← on_nodes (node_is_provisioned node);
      if (provisioned : bool) then mret tt else
      a ← default_ctrl;
      match find_device_by_uuid (ad_devices a) id with
      | None => mod_conn (set_cn_dev_uuid (rep 16 0))
      | Some dev =>
          s ← get;
          _ ← (if ms_discovering s then _ ← call (StopDiscovery (ad_proxy a)); mret tt else mret tt);
          _ ← forget_mesh_devices;
          _ ← mod_conn (set_cn_type CONN_TYPE_PROVISION);
          _ ← call (Connect (dv_proxy dev));
          print_device (dv_proxy dev)
      end
  end.

(** ** What the main loop runs

    Signals of the daemon, its replies, data on the notification pipe, and the
    commands that the graphical interface or the shell calls. *)
Inductive main_op :=
| OpAdded (proxy : Z) | OpRemoved (proxy : Z) | OpChanged (proxy : Z) (name : property) | OpGone
| OpConnectReply (proxy : Z) (error : bool) | OpDisconnectReply (cb : disc_cb) (error : bool)
| OpNotifyReply (data : notify_data) (error : bool) | OpAcquired (data : notify_data) (reply : acquired)
| OpPipe (frames : list (list Z)) | OpHup
| OpScan (onoff : Z) | OpSelect (address : list Z) | OpSecurity (lvl : Z)
| OpConnect (argv : list (list Z)) | OpDisconn | OpStartProv (uuid : list Z).

Definition run_main_op (fuel : nat) (op : main_op) : MM unit :=
  match op with
  | OpAdded proxy => proxy_added proxy
  | OpRemoved proxy => proxy_removed proxy
  | OpChanged proxy name => property_changed fuel proxy name
  | OpGone => disconnect_handler
  | OpConnectReply proxy error => connect_reply proxy error
  | OpDisconnectReply cb error => disconnect_reply cb error
  | OpNotifyReply data error => notify_reply fuel data error
  | OpAcquired data reply => acquire_notify_reply fuel data reply
  | OpPipe frames => pipe_read fuel frames
  | OpHup => pipe_hup
  | OpScan onoff => cmd_scan_unprovisioned onoff
  | OpSelect address => cmd_select address
  | OpSecurity lvl => cmd_security lvl
  | OpConnect argv => cmd_connect argv
  | OpDisconn => cmd_disconn
  | OpStartProv uuid => cmd_start_prov uuid
  end.
End Main.
