(* ===== verification/SessionFacts.v ===== *)
(** * Devices and connections: what they do

    The end of a session in [net.c]; the rules for the handlers of [main.c]; what a
    scan finds, and how a device that was found comes to be provisioned. *)

From Stdlib Require Import String.
From S2P Require Import Prelude Bytes Util Words Gatt Alg Ccm Crypto AddrPool Pdu Keys NetState Send Beacon Recv Node NodeFacts ConfigModel Prov ProvFacts Events Session.

(** ** The end of a session *)

(** The timers a message has set. *)
Definition sar_timers (s : mesh_sar_msg) : list Z := List.filter truth [msg_to s; ack_to s].

Lemma filter_everything {X} (P : X -> Prop) `{∀ x, Decision (P x)} (l : list X) : (∀ x, P x) -> filter P l = l.
Proof.
  intros HP. induction l as [|x l IH]; [done|]. by rewrite filter_cons_True, IH.
Qed.

Section Close.
Implicit Types w : world node_store.

Definition without_timers (l : list Z) (w : world node_store) : world node_store :=
  with_timers (filter (fun t => t ∉ l)) w.

Lemma source_remove_unset v w : (if truth v then source_remove v else mret tt) w =
  Ok (tt, without_timers (List.filter truth [v]) w).
Proof.
  unfold without_timers, with_timers. cbn [List.filter]. destruct (truth v).
  - unfold source_remove, modify, with_timers. do 2 f_equal. f_equal. apply list_filter_iff.
    intros t. by rewrite list_elem_of_singleton.
  - rewrite filter_everything; [by destruct w|]. intros x. apply not_elem_of_nil.
Qed.

Lemma without_twice l1 l2 w : without_timers l2 (without_timers l1 w) = without_timers (l1 ++ l2) w.
Proof.
  unfold without_timers, with_timers. cbn [w_net w_keys w_nodes w_next w_timers w_sync w_out]. f_equal.
  rewrite list_filter_filter. apply list_filter_iff. intros t. rewrite elem_of_app. tauto.
Qed.

Lemma without_on_net l f w : without_timers l (on_net f w) = on_net f (without_timers l w).
Proof. done. Qed.
Lemma without_none w : without_timers [] w = w.
Proof.
  unfold without_timers, with_timers. rewrite filter_everything; [by destruct w|]. intros x. apply not_elem_of_nil.
Qed.

Lemma set_get_list k n : set_list k (get_list k n) n = n.
Proof. by destruct k, n. Qed.
Lemma get_set_list k l n : get_list k (set_list k l n) = l.
Proof. by destruct k, n. Qed.
Lemma set_set_list k l1 l2 n : set_list k l2 (set_list k l1 n) = set_list k l2 n.
Proof. by destruct k, n. Qed.

(** The first message of a list goes, with its timers. *)
Lemma flush_sar_head k s l w : get_list k (w_net w) = s :: l ->
  flush_sar k (sar_id s) w = Ok (tt, without_timers (sar_timers s) (on_net (set_list k l) w)).
Proof.
  intros Hl. unfold sar_timers. change [msg_to s; ack_to s] with ([msg_to s] ++ [ack_to s]).
  rewrite List.filter_app, <-without_twice. apply wp_eq. unfold flush_sar. apply wp_bind, wp_bind, wp_gets.
  apply (wp_lift _ s). { unfold find_sar. rewrite Hl. cbn. by rewrite Z.eqb_refl. }
  apply wp_bind, wp_modify. apply wp_bind. eapply wp_of_ok; [apply source_remove_unset|].
  eapply wp_of_ok; [apply source_remove_unset|]. cbn [fst snd].
  do 3 f_equal. unfold on_net. f_equal. rewrite Hl. cbn. by rewrite Z.eqb_refl.
Qed.

Lemma flush_sar_all k w : flush_sar_list k w =
  Ok (tt, without_timers (concat (sar_timers <$> get_list k (w_net w))) (on_net (set_list k []) w)).
Proof.
  unfold flush_sar_list. unfold mbind, st_bind, net_of, gets.
  remember (get_list k (w_net w)) as l eqn:Hl. symmetry in Hl. revert w Hl.
  induction l as [|s l IH]; intros w Hl; cbn [length flush_sar_loop].
  - unfold mbind, st_bind, net_of, gets. rewrite Hl. cbn. rewrite without_none. do 2 f_equal.
    destruct w; unfold on_net; cbn in *. f_equal. by rewrite <-Hl, set_get_list.
  - unfold mbind at 1, st_bind at 1, net_of, gets. rewrite Hl. unfold mbind, st_bind.
    rewrite (flush_sar_head k s l w Hl). rewrite IH by apply get_set_list.
    rewrite <-without_on_net, without_twice. do 3 f_equal. unfold on_net. f_equal. apply set_set_list.
Qed.

(** The state after the two lists of messages have been emptied. *)
Definition closed (data_in : option Z) (w : world node_store) : world node_store :=
  let n := w_net w in
  without_timers (concat (sar_timers <$> sar_in n ++ msg_out n))
    (on_net (fun n => set_msg_out [] (set_sar_in []
       (if bool_decide (proxy_in n = data_in) then set_proxy_in None n else n))) w).

Lemma close_run data_in w : net_session_close data_in w = flush_pkt_list (closed data_in w).
Proof.
  unfold net_session_close, net_of. unfold mbind at 1, st_bind at 1, gets at 1.
  unfold closed. destruct (bool_decide _) eqn:E.
  all: unfold mod_net, modify, mret, st_ret, mbind, st_bind; rewrite !flush_sar_all; f_equal.
  all: cbn [w_net on_net without_timers with_timers get_list set_list].
  all: rewrite <-without_on_net, without_twice, fmap_app, concat_app; f_equal.
  all: unfold on_net; cbn; by rewrite ?E.
Qed.

Lemma session_close_run data_in w :
  net_session_close data_in w =
  if bool_decide (pkt_out (w_net w) = []) then Ok (tt, closed data_in w) else Fault UseAfterFree.
Proof.
  rewrite close_run. unfold flush_pkt_list, mbind, st_bind, net_of, gets.
  assert (E : pkt_out (w_net (closed data_in w)) = pkt_out (w_net w)).
  { unfold closed. cbn. by destruct (bool_decide (proxy_in _ = _)). }
  rewrite E. destruct (pkt_out (w_net w)); [by rewrite bool_decide_true | by rewrite bool_decide_false].
Qed.

(** Ending a session empties both lists of messages and cancels exactly the timers those messages had set, when no
    packet is waiting to be written; when one is, the loop that frees the packets does not advance, and the program
    reads the list after it has been freed. *)
Theorem session_close_exact data_in w :
  net_session_close data_in w =
  if bool_decide (pkt_out (w_net w) = []) then Ok (tt, closed data_in w) else Fault UseAfterFree.
Proof. apply session_close_run. Qed.
End Close.

(** ** Rules *)

Definition main_world (s : main_state) : world node_store := ps_world (ms_prov s).
Definition nodes_in (s : main_state) : list mesh_node := ns_nodes (w_nodes (main_world s)).
Definition with_world (w : world node_store) (s : main_state) : main_state :=
  set_ms_prov (set_world w (ms_prov s)) s.

(** An adapter is selected and no device connected. *)
Record idle (a : adapter) (s : main_state) : Prop := {
  id_default : ms_default s = Some (ad_id a);
  id_adapter : find_first (is_adapter (ad_id a)) (ms_adapters s) = Some a;
  id_device : cn_device (ms_conn s) = None;
  id_out : cn_data_out (ms_conn s) = None;
  id_store : store_wf (w_nodes (main_world s));
  id_packets : pkt_out (w_net (main_world s)) = [] }.

Section Rules.
Context {A : Alg} {MC : ModelCode} {B : Bus}.
Implicit Types s : main_state.

Lemma wp_on_nodes {X} (h : NM X) (Q : X -> main_state -> Prop) s :
  wp h (fun x w => Q x (with_world w s)) (main_world s) -> wp (on_nodes h) Q s.
Proof.
  unfold wp, on_nodes, on_world, main_world. by destruct (h (ps_world (ms_prov s))) as [[x w] | e].
Qed.
Lemma with_world_same s : with_world (main_world s) s = s.
Proof. destruct s as [p]. by destruct p. Qed.

Lemma default_ctrl_wp a s (Q : adapter -> main_state -> Prop) :
  ms_default s = Some (ad_id a) -> find_first (is_adapter (ad_id a)) (ms_adapters s) = Some a ->
  Q a s -> wp default_ctrl Q s.
Proof.
  intros Hd Ha HQ. unfold default_ctrl. apply wp_bind, wp_get. rewrite Hd, Ha. by apply (wp_lift _ a).
Qed.

Lemma call_wp m (Q : bool -> main_state -> Prop) s :
  (if bus_call m then Q true (set_calls (ms_calls s ++ [m]) s) else Q false s) -> wp (call m) Q s.
Proof. unfold call. destruct (bus_call m); intros HQ; [apply wp_bind, wp_modify|]; by apply wp_ret. Qed.

Lemma wp_on_prov {X} fuel (h : PM X) (Q : X -> main_state -> Prop) s :
  wp h (fun x p => wp (react fuel None (drop (length (w_out (main_world s))) (w_out (ps_world p))))
    (fun _ => Q x) (set_ms_prov p s)) (ms_prov s) -> wp (on_prov fuel h) Q s.
Proof.
  unfold on_prov. intros HQ. apply wp_bind, wp_get, wp_bind. unfold wp at 1. unfold wp at 1 in HQ.
  destruct (h (ms_prov s)) as [[x p] | e]; [|done]. apply wp_bind, wp_get, wp_bind.
  eapply wp_mono; [exact HQ|]. intros ? s' HQ'. by apply wp_ret.
Qed.

(** A call whose result is not looked at. *)
Lemma call_if_wp (b : bool) m (Q : unit -> main_state -> Prop) s :
  (∀ l, Q tt (set_calls l s)) -> wp (if b then _ ← call m; mret tt else mret tt) Q s.
Proof.
  intros HQ. assert (Hs : Q tt s) by (specialize (HQ (ms_calls s)); by destruct s).
  destruct b; [|by apply wp_ret]. apply wp_bind, call_wp. destruct (bus_call m); by apply wp_ret.
Qed.

Lemma print_device_wp proxy (Q : unit -> main_state -> Prop) s :
  Q tt (if has_address proxy
        then set_events (ms_events s ++ [(NAME, default (octets "<unknown>") (bus_alias proxy))]) s else s) ->
  wp (print_device proxy) Q s.
Proof.
  intros HQ. unfold print_device. destruct (has_address proxy); [by apply wp_modify | by apply wp_ret].
Qed.

Lemma find_node_wp uuid s (Q : option Z -> main_state -> Prop) :
  ns_valid (w_nodes (main_world s)) = true ->
  Q (option_map nd_id (find_first (match_device_uuid uuid) (nodes_in s))) s -> wp (find_node uuid) Q s.
Proof.
  intros Hv HQ. unfold find_node, nodes. apply wp_bind, wp_bind, wp_get, wp_ret. apply wp_bind.
  eapply wp_lift; [unfold node_find_by_uuid, all_nodes; fold (main_world s); by rewrite Hv|]. by apply wp_ret.
Qed.

(** Without a connection, disconnecting only closes the session of the network layer. *)
Lemma disconnect_idle a cb s (Q : unit -> main_state -> Prop) : idle a s ->
  Q tt (with_world (closed (cn_data_in (ms_conn s)) (main_world s)) s) -> wp (disconnect_device cb) Q s.
Proof.
  intros [Hd Ha Hc Ho Hs Hp] HQ. unfold disconnect_device, conn. apply wp_bind, wp_gets.
  apply wp_bind, wp_on_nodes. unfold wp at 1. rewrite session_close_run, Hp, bool_decide_true by done.
  rewrite Ho. unfold disconnect, conn. apply wp_bind, wp_gets. cbn [ms_conn with_world set_ms_prov].
  rewrite Hc. by apply wp_ret.
Qed.

Lemma idle_closed a d s : idle a s -> idle a (with_world (closed d (main_world s)) s).
Proof.
  intros [Hd Ha Hc Ho Hs Hp]. constructor; try done. cbn. by destruct (bool_decide _).
Qed.
End Rules.

(** ** From an advertisement to an invitation *)

(** A device that advertises the provisioning service, and the service's two
    characteristics. *)
Record prov_device `{Bus} (ctrl proxy svc cin cout : Z) (uuid : list Z) : Prop := {
  pd_interface : bus_interface proxy = Device1;
  pd_parent : bus_parent proxy = Some ctrl;
  pd_address : has_address proxy = true;
  pd_data : ∃ entries data, bus_service_data proxy = Some entries /\
    find_service entries MESH_PROV_SVC_UUID = Some data /\ 18 <= len data /\ take 16 data = uuid /\ bytes uuid;
  pd_svc : bus_interface svc = GattService1 /\ bus_uuid svc = Some MESH_PROV_SVC_UUID /\
    bus_parent svc = Some proxy;
  pd_in : bus_interface cin = GattCharacteristic1 /\ bus_uuid cin = Some MESH_PROV_DATA_IN_UUID /\
    bus_parent cin = Some svc;
  pd_out : bus_interface cout = GattCharacteristic1 /\ bus_uuid cout = Some MESH_PROV_DATA_OUT_UUID /\
    bus_parent cout = Some svc /\ bus_notify_acquired cout = true;
  pd_calls : ∀ m, bus_call m = true }.

(** The device is listed, with the node [n]. *)
Record listed (a : adapter) (proxy : Z) (uuid : list Z) (n : mesh_node) (s : main_state) : Prop := {
  li_idle : idle a s;
  li_device : ∃ d, find_device_by_uuid (ad_devices a) uuid = Some d /\ dv_proxy d = proxy;
  li_node : find_first (match_device_uuid uuid) (nodes_in s) = Some n;
  li_primary : nd_primary n = UNASSIGNED;
  li_prov : nd_prov n = 0 }.

(** What the steps before the provisioner is started leave alone. *)
Record prov_part := ProvPart {
  pp_provs : list (Z * prov_data); pp_next : Z; pp_pending : list (list Z * gatt_cb * Z); pp_out : list event;
  pp_index : Z }.
Definition prov_side (s : main_state) : prov_part :=
  ProvPart (ps_provs (ms_prov s)) (ps_next (ms_prov s)) (ps_pending (ms_prov s)) (w_out (main_world s))
    (ms_net_key_index s).

(** The device with the node [n] is about to be provisioned over the connection [d]. *)
Record targeted (ctrl : Z) (uuid : list Z) (d : option Z) (n : mesh_node) (s : main_state) : Prop := {
  ta_type : cn_type (ms_conn s) = CONN_TYPE_PROVISION;
  ta_uuid : cn_dev_uuid (ms_conn s) = uuid;
  ta_device : cn_device (ms_conn s) = d;
  ta_node : find_first (match_device_uuid uuid) (nodes_in s) = Some n;
  ta_prov : nd_prov n = 0;
  ta_store : store_wf (w_nodes (main_world s));
  ta_ctrl : ∃ a, ms_default s = Some (ad_id a) /\
    find_first (is_adapter (ad_id a)) (ms_adapters s) = Some a /\ ad_proxy a = ctrl }.

(** The text of an UUID reads back. *)
Lemma uuid_text_written uuid : bytes uuid -> hex_written (length uuid) (uuid_text uuid) = (uuid, true).
Proof. intros Hb. rewrite <-(app_nil_r (uuid_text uuid)). by apply hex_written_text. Qed.
Lemma uuid_text_len uuid : len (uuid_text uuid) = 2 * len uuid.
Proof. apply len_hex_text. Qed.

Section Invite.
Context {A : Alg} {MC : ModelCode} {B : Bus}.
Implicit Types s : main_state.
Variables (ctrl proxy svc cin cout : Z) (uuid : list Z).
Hypothesis Hdev : prov_device ctrl proxy svc cin cout uuid.

Lemma parse_prov_wp (Q : option prov_svc_data -> main_state -> Prop) s :
  (∀ oob, Q (Some (ProvSvcData uuid oob)) s) -> wp (parse_service_data_prov proxy) Q s.
Proof.
  intros HQ. destruct (pd_data _ _ _ _ _ _ Hdev) as (entries & data & He & Hd & Hl & Hu & _).
  unfold parse_service_data_prov. rewrite He, Hd.
  destruct (rd_range_total data 16 2) as (oob & Ho & _); [lia..|].
  apply (wp_lift _ (Some (ProvSvcData uuid (of_be oob)))); [|done]. unfold parse_prov_service_data.
  rewrite (proj2 (Z.ltb_ge _ _)) by lia. rewrite rd_range_ok by lia. unfold get_be16. rewrite Ho. by rewrite <-Hu.
Qed.

Lemma node_create_wp oob s (Q : option Z -> main_state -> Prop) : store_wf (w_nodes (main_world s)) ->
  find_first (match_device_uuid uuid) (nodes_in s) = None ->
  (∀ w n, w_net w = w_net (main_world s) -> w_out w = w_out (main_world s) -> store_wf (w_nodes w) ->
     find_first (match_device_uuid uuid) (ns_nodes (w_nodes w)) = Some n ->
     nd_primary n = UNASSIGNED -> nd_prov n = 0 -> Q (Some (nd_id n)) (with_world w s)) ->
  wp (on_nodes (node_create_new oob uuid)) Q s.
Proof.
  intros Hs Hn HQ. apply wp_on_nodes. unfold node_create_new, store. apply wp_bind, wp_gets. apply wp_bind.
  apply (wp_lift _ None). { unfold node_find_by_uuid, all_nodes. rewrite (store_valid _ Hs). cbn. by rewrite <-Hn. }
  apply wp_bind, wp_modify, wp_ret. unfold nodes_in in Hn.
  apply (HQ _ (set_nd_oob oob (set_nd_dev_uuid uuid (zero_node (ns_next (w_nodes (main_world s))))))); try done.
  - apply push_node_wf; try done. constructor; cbn; try constructor; lia.
  - cbn. rewrite find_first_app, Hn. cbn. unfold match_device_uuid. cbn. by rewrite bool_decide_true.
Qed.

(** The device is new: it is shown, listed and given a node. *)
Lemma found_new a s : idle a s -> ad_proxy a = ctrl -> find_parent (ms_adapters s) proxy = Some a ->
  ms_discovering s = true -> find_device_by_uuid (ad_devices a) uuid = None ->
  find_first (match_device_uuid uuid) (nodes_in s) = None ->
  wp (update_device_info proxy) (fun _ s' =>
    ms_events s' = ms_events s ++ [(UUID, uuid_text uuid);
      (NAME, default (octets "<unknown>") (bus_alias proxy))] /\
    prov_side s' = prov_side s /\ ms_services s' = ms_services s /\ ms_chars s' = ms_chars s /\
    ∃ a' n, listed a' proxy uuid n s' /\ ad_proxy a' = ctrl) s.
Proof.
  intros [Hd Ha Hc Ho Hs Hp] Hctrl Hpar Hdis Hnew Hnode. unfold update_device_info.
  apply wp_bind, wp_get. rewrite Hpar, Hd, bool_decide_true, (pd_address _ _ _ _ _ _ Hdev) by done. cbn [negb].
  apply wp_bind, parse_prov_wp. intros oob. cbn [sd_uuid sd_oob]. rewrite Hnew, Hdis. cbn [andb].
  apply wp_bind. unfold print_prov_service, send_java. apply wp_modify.
  apply wp_bind. unfold add_device. apply wp_bind, wp_get. apply wp_bind, wp_modify. unfold mod_adapter.
  apply wp_modify. apply wp_bind, print_device_wp. rewrite (pd_address _ _ _ _ _ _ Hdev).
  apply wp_bind, node_create_wp; [done..|]. intros w n Hw Hout Hs' Hn' Hpri Hprov. apply wp_ret.
  split; [cbn; by rewrite <-app_assoc|].
  split; [unfold prov_side, main_world in *; cbn in *; by rewrite Hout|]. do 2 (split; [done|]).
  exists (set_ad_devices (ad_devices a ++ [MeshDevice (ms_next s) proxy uuid (ms_discovering s)]) a), n. split; [constructor; [constructor| | | |] |]; try done.
  - cbn. by rewrite (find_update_first _ _ _ a).
  - cbn. by rewrite Hw.
  - exists (MeshDevice (ms_next s) proxy uuid (ms_discovering s)). split; [|done]. cbn. unfold find_device_by_uuid in Hnew |- *.
    rewrite find_first_app, Hnew. cbn. by rewrite bool_decide_true.
Qed.

(** The text that was shown starts the connection to the device. *)
Lemma start_targets a n s : listed a proxy uuid n s -> ad_proxy a = ctrl -> len uuid = 16 ->
  wp (cmd_start_prov (uuid_text uuid)) (fun _ s' => targeted ctrl uuid None n s' /\
    prov_side s' = prov_side s /\ ms_services s' = ms_services s /\ ms_chars s' = ms_chars s /\
    ∃ l, ms_calls s' = l ++ [Connect proxy]) s.
Proof.
  intros [Hi (dv & Hdv & Hpx) Hn Hpri Hprov] Hctrl Hlen. unfold cmd_start_prov.
  destruct (pd_data _ _ _ _ _ _ Hdev) as (_ & _ & _ & _ & _ & _ & Hb).
  apply wp_bind, (disconnect_idle a); [done|]. apply (idle_closed a (cn_data_in (ms_conn s))) in Hi.
  set (s1 := with_world _ s) in *. destruct Hi as [Hd Ha Hc Ho Hs Hp].
  apply wp_bind. apply (wp_lift _ uuid).
  { rewrite uuid_text_len, Z.mul_comm, Z.div_mul by done. unfold len in Hlen |- *. rewrite Nat2Z.id.
    rewrite uuid_text_written by done. cbn [fst]. rewrite <-(app_nil_r (rep 16 0)).
    rewrite wr_range_begin by (change (length (rep 16 0)) with 16%nat; lia). by rewrite app_nil_r. }
  apply wp_bind. unfold mod_conn. apply wp_modify. apply wp_bind, find_node_wp; [apply Hs|].
  change (nodes_in _) with (nodes_in s). rewrite Hn. cbn [option_map].
  apply wp_bind, wp_on_nodes. unfold node_is_provisioned, nonnull_or_fault. apply wp_bind.
  eapply node_deref_wp; [apply Hs | by apply (find_by_id _ _ Hs), (find_first_some _ _ _ Hn)|].
  apply wp_ret. rewrite Hpri. cbn [negb]. rewrite with_world_same.
  apply wp_bind, (default_ctrl_wp a); [done..|]. rewrite Hdv. apply wp_bind, wp_get.
  apply wp_bind, call_if_wp. intros l.
  apply wp_bind. unfold forget_mesh_devices. apply wp_bind, (default_ctrl_wp a); [done..|].
  unfold mod_adapter. apply wp_modify. apply wp_bind, wp_modify. apply wp_bind, call_wp.
  rewrite (pd_calls _ _ _ _ _ _ Hdev), Hpx. apply print_device_wp. rewrite (pd_address _ _ _ _ _ _ Hdev).
  split; [constructor; try done|].
  - exists (set_ad_devices [] a). split; [done|]. split; [|done]. cbn. by rewrite (find_update_first _ _ _ a).
  - do 3 (split; [done|]). by eexists.
Qed.

Lemma connected_targets n s : targeted ctrl uuid None n s ->
  wp (connect_reply proxy false) (fun _ s' => targeted ctrl uuid (Some proxy) n s' /\
    prov_side s' = prov_side s /\ ms_services s' = ms_services s /\ ms_chars s' = ms_chars s) s.
Proof.
  intros [Ht Hu Hd Hn Hp Hs Hc]. unfold connect_reply, set_connected_device, mod_conn, conn.
  apply wp_bind, wp_modify. apply wp_bind, wp_gets. cbn [ms_conn set_conn cn_type set_cn_device]. rewrite Ht.
  cbn. destruct (bus_alias proxy); apply wp_ret; by split; [constructor|].
Qed.

(** The service and its characteristics appear. *)
Lemma services_added d n s : targeted ctrl uuid d n s -> ms_services s = [] -> ms_chars s = [] ->
  wp (mapM_ proxy_added [svc; cin; cout]) (fun _ s' => targeted ctrl uuid d n s' /\
    prov_side s' = prov_side s /\ ms_services s' = [svc] /\ ms_chars s' = [cin; cout]) s.
Proof.
  intros [Ht Hu Hd Hn Hp Hs Hc] H1 H2.
  destruct (pd_svc _ _ _ _ _ _ Hdev) as (Es & Us & _). destruct (pd_in _ _ _ _ _ _ Hdev) as (Ei & Ui & _).
  destruct (pd_out _ _ _ _ _ _ Hdev) as (Eo & Uo & _).
  cbn [mapM_]. apply wp_bind. unfold proxy_added at 1. rewrite Es. unfold service_is_mesh. rewrite Us.
  apply wp_modify. apply wp_bind. unfold proxy_added at 1. rewrite Ei. unfold char_is_mesh. rewrite Ui.
  apply wp_modify. apply wp_bind. unfold proxy_added at 1. rewrite Eo. unfold char_is_mesh. rewrite Uo.
  apply wp_modify. apply wp_ret. split; [by constructor|]. split; [done|]. cbn. by rewrite H1, H2.
Qed.

(** [data] of the call that acquires the notifications. *)
Definition invite_data (n : mesh_node) : notify_data :=
  NotifyData cout true (NotifyProvOut (Some (nd_id n))) (Some (nd_id n)).

Lemma get_characteristic_wp s (Q : option Z -> main_state -> Prop) c (u : Z) :
  cn_type (ms_conn s) = CONN_TYPE_PROVISION -> ms_services s = [svc] ->
  find_first (fun l => mesh_gatt_is_child l (Some svc) && char_is_mesh l (Some u)) (ms_chars s) = c ->
  Q c s -> wp (get_characteristic (Some proxy) u) Q s.
Proof.
  intros Ht Hs Hc HQ. destruct (pd_svc _ _ _ _ _ _ Hdev) as (_ & Us & Ps).
  assert (E : find_first (fun l => mesh_gatt_is_child l (Some proxy) &&
    service_is_mesh l (Some MESH_PROV_SVC_UUID)) [svc] = Some svc).
  { unfold find_first, mesh_gatt_is_child, service_is_mesh. cbn [find]. by rewrite Ps, Us, bool_decide_true. }
  unfold get_characteristic. apply wp_bind, wp_get. rewrite Ht, Hs, Z.eqb_refl, E, Hc. by apply wp_ret.
Qed.

Lemma resolved_acquires fuel n s : targeted ctrl uuid (Some proxy) n s ->
  ms_services s = [svc] -> ms_chars s = [cin; cout] ->
  wp (property_changed fuel proxy (PServicesResolved true)) (fun _ s' =>
    targeted ctrl uuid (Some proxy) n s' /\ prov_side s' = prov_side s /\
    cn_data_in (ms_conn s') = Some cin /\ ms_calls s' = ms_calls s ++ [AcquireNotify (invite_data n)]) s.
Proof.
  intros [Ht Hu Hd Hn Hp Hs (a & Hc & Ha & Hx)] H1 H2. unfold property_changed.
  rewrite (pd_interface _ _ _ _ _ _ Hdev). apply wp_bind, wp_get. rewrite Hc.
  apply wp_bind, (default_ctrl_wp a); [done..|]. unfold device_is_child.
  rewrite (pd_parent _ _ _ _ _ _ Hdev), Hx, bool_decide_true by done.
  destruct (pd_in _ _ _ _ _ _ Hdev) as (_ & Ui & Pi). destruct (pd_out _ _ _ _ _ _ Hdev) as (_ & Uo & Po & No).
  unfold device_changed, conn. apply wp_bind, wp_gets. rewrite Hd.
  unfold mesh_session_setup, conn. apply wp_bind, wp_gets. rewrite Ht. cbn [Z.eqb].
  unfold setup_with, mod_conn. apply wp_bind, (get_characteristic_wp _ _ (Some cin)); [done..| |].
  { rewrite H2. unfold find_first, mesh_gatt_is_child, char_is_mesh. cbn [find].
    by rewrite Pi, Ui, bool_decide_true. }
  apply wp_bind, wp_modify. apply wp_bind, (get_characteristic_wp _ _ (Some cout)); [done..| |].
  { cbn [ms_chars set_conn]. rewrite H2. unfold find_first, mesh_gatt_is_child, char_is_mesh. cbn [find].
    by rewrite Pi, Ui, Po, Uo, !bool_decide_true. }
  apply wp_bind, wp_modify. unfold data_out_notify, conn. apply wp_bind, wp_gets.
  apply wp_bind, find_node_wp; [apply Hs|]. cbn [ms_conn set_conn cn_dev_uuid set_cn_data_out set_cn_data_in].
  rewrite Hu. change (nodes_in _) with (nodes_in s). rewrite Hn. cbn [option_map].
  apply wp_bind. unfold mesh_gatt_notify. apply wp_bind, wp_get. rewrite No. apply call_wp.
  rewrite (pd_calls _ _ _ _ _ _ Hdev). apply wp_ret. split; [by constructor; try done; exists a|].
  done.
Qed.

(** The first message of the protocol. *)
Definition invitation : list Z := [PROXY_PROVISIONING_PDU; PROV_INVITE; 0x10].

Lemma open_wp n idx (p : prov_state) : store_wf (w_nodes (ps_world p)) ->
  find_first (is_node (nd_id n)) (ns_nodes (w_nodes (ps_world p))) = Some n -> nd_prov n = 0 ->
  Forall (fun x => x.1 < ps_next p) (ps_provs p) -> 0 < ps_next p ->
  wp (prov_open (nd_id n) idx) (fun ok p' => ok = true /\
    session (nd_id n) (set_nd_prov (ps_next p) n) (opened idx) p' /\
    (w_out (ps_world p') = w_out (ps_world p) ++ [GattWrite invitation] \/
     w_out (ps_world p') = w_out (ps_world p) /\
     ps_pending p' = ps_pending p ++ [(invitation, CbNone, nd_id n)])) p.
Proof.
  intros Hs Hn Hp Hfr Hpos. unfold prov_open, get_prov. apply wp_bind, wp_on_world.
  unfold node_get_prov, nonnull_or_fault. apply wp_bind. eapply node_deref_wp; [apply Hs | exact Hn|].
  apply wp_ret. rewrite set_world_same, Hp. cbn [Z.eqb negb]. apply wp_bind, wp_get, wp_bind, wp_modify.
  apply wp_bind. apply (set_prov_wp _ n); [done..|].
  set (p1 := set_world _ _). unfold gatt_send. apply wp_bind, wp_get.
  assert (Hse : session (nd_id n) (set_nd_prov (ps_next p) n) (opened idx) p1).
  { constructor; cbn.
    - apply (upd_node_wf _ _ _ n); try done. pose proof (store_nodes _ Hs) as Hall.
      rewrite Forall_forall in Hall. by destruct (Hall n (proj1 (find_first_some _ _ _ Hn))).
    - by apply find_upd.
    - lia.
    - rewrite find_first_app. rewrite (proj2 (find_first_none _ _)).
      + unfold is_prov. cbn. by rewrite Z.eqb_refl.
      + eapply Forall_impl; [exact Hfr|]. intros x Hx. apply Z.eqb_neq. cbn in *. lia. }
  destruct (w_sync (ps_world p1)).
  - apply wp_bind, wp_on_world. apply wp_modify. apply wp_bind, wp_ret, wp_ret. split; [done|].
    split; [|by left]. by eapply session_same.
  - apply wp_bind, wp_modify, wp_ret. split; [done|]. split; [by eapply session_same | by right].
Qed.

(** The invitation has been written, or waits for the pipe to be acquired. *)
Definition invited (node : Z) (s s' : main_state) : Prop :=
  w_out (main_world s') = w_out (main_world s) ++ [GattWrite invitation] \/
  ps_pending (ms_prov s') = ps_pending (ms_prov s) ++ [(invitation, CbNone, node)].

Lemma opened_invites n s : targeted ctrl uuid (Some proxy) n s -> cn_data_in (ms_conn s) = Some cin ->
  Forall (fun x => x.1 < ps_next (ms_prov s)) (ps_provs (ms_prov s)) -> 0 < ps_next (ms_prov s) ->
  ∀ fuel, wp (acquire_notify_reply fuel (invite_data n) AcquirePipe) (fun _ s' =>
    session (nd_id n) (set_nd_prov (ps_next (ms_prov s)) n) (opened (ms_net_key_index s)) (ms_prov s') /\
    invited (nd_id n) s s') s.
Proof.
  intros [Ht Hu Hd Hn Hp Hs _] Hin Hfr Hpos fuel. destruct (pd_out _ _ _ _ _ _ Hdev) as (_ & Uo & _).
  unfold acquire_notify_reply, notify_io_destroy. apply wp_bind, wp_modify.
  cbn [no_proxy invite_data]. rewrite Uo. apply wp_bind, wp_modify.
  cbn [no_cb invite_data run_notify_cb]. unfold notify_prov_out_cb, conn. apply wp_bind, wp_gets.
  cbn [ms_conn set_notify]. rewrite Ht, Hin. cbn [Z.eqb negb]. apply wp_bind, wp_get.
  apply wp_bind, wp_on_prov. cbn [ms_prov set_notify ms_net_key_index].
  pose proof (find_by_id _ _ Hs (proj1 (find_first_some _ _ _ Hn))) as Hid.
  eapply wp_mono; [by apply open_wp|]. intros ok p (-> & Hse & Hout). change (main_world (set_notify _ _)) with (main_world s).
  unfold invited. fold (main_world s) in Hout.
  destruct Hout as [Ho | [Ho Hpe]]; rewrite Ho.
  - rewrite drop_app_length. apply wp_ret, wp_ret. split; [done | by left].
  - rewrite drop_ge by done. apply wp_ret, wp_ret. split; [done | by right].
Qed.

Lemma uuid_len : len uuid = 16.
Proof.
  destruct (pd_data _ _ _ _ _ _ Hdev) as (_ & data & _ & _ & Hl & <- & _). unfold len in *.
  rewrite length_take. lia.
Qed.

(** What the user and the daemon do after the device has been shown with [text]. *)
Definition provision_ops (text : list Z) (n : mesh_node) : list main_op :=
  [OpStartProv text; OpConnectReply proxy false; OpAdded svc; OpAdded cin; OpAdded cout;
   OpChanged proxy (PServicesResolved true); OpAcquired (invite_data n) AcquirePipe].

Lemma invited_run fuel a n s : listed a proxy uuid n s -> ad_proxy a = ctrl ->
  ms_services s = [] -> ms_chars s = [] ->
  Forall (fun x => x.1 < ps_next (ms_prov s)) (ps_provs (ms_prov s)) -> 0 < ps_next (ms_prov s) ->
  wp (mapM_ (run_main_op fuel) (provision_ops (uuid_text uuid) n)) (fun _ s' =>
    session (nd_id n) (set_nd_prov (ps_next (ms_prov s)) n) (opened (ms_net_key_index s)) (ms_prov s') /\
    invited (nd_id n) s s') s.
Proof.
  intros Hl Hctrl Hsv Hch Hfr Hpos. cbn [mapM_ provision_ops run_main_op].
  apply wp_bind. eapply wp_mono; [apply (start_targets a n); auto using uuid_len|].
  intros _ s1 (H1 & Hp1 & Hs1 & Hc1 & _). apply wp_bind.
  eapply wp_mono; [by apply connected_targets|]. intros _ s2 (H2 & Hp2 & Hs2 & Hc2).
  pose proof (services_added (Some proxy) n s2 H2) as Hadd. cbn [mapM_] in Hadd.
  apply wp_bind. specialize (Hadd ltac:(congruence) ltac:(congruence)).
  apply wp_bind_inv in Hadd. eapply wp_mono; [exact Hadd|]. cbn beta. intros ? s2' Hadd'.
  apply wp_bind. apply wp_bind_inv in Hadd'. eapply wp_mono; [exact Hadd'|]. cbn beta. intros ? s2'' Hadd''.
  apply wp_bind. apply wp_bind_inv in Hadd''. eapply wp_mono; [exact Hadd''|]. cbn beta.
  intros ? s3 (H3 & Hp3 & Hs3 & Hc3). apply wp_bind.
  eapply wp_mono; [by apply (resolved_acquires fuel n)|]. intros ? s4 (H4 & Hp4 & Hin & _). apply wp_bind.
  assert (Hp : prov_side s4 = prov_side s) by congruence. unfold prov_side in Hp. injection Hp as E1 E2 E3 E4 E5.
  eapply wp_mono; [apply (opened_invites n s4); rewrite ?E1, ?E2; done|]. intros ? s5 (H5 & Hinv). apply wp_ret.
  unfold invited in *. by rewrite <-E2, <-E3, <-E4, <-E5.
Qed.
End Invite.
