(* ===== verification/SessionInv.v ===== *)
(** * Devices and connections in every order of events

    What stays true of the state of [main.c] whatever the daemon signals, whatever
    it replies and whatever the user asks for, and the errors of its handlers. *)

From Stdlib Require Import String.
From S2P Require Import Prelude Bytes Util Words Gatt Alg Ccm Crypto AddrPool Pdu Keys NetState Send Beacon Recv Node NodeFacts ConfigModel Prov ProvFacts Events Session SessionFacts.

(** ** The invariant *)

(** [default_ctrl] is an adapter of the list, and [connection.service] is not set. *)
Record main_inv (s : main_state) : Prop := {
  mi_ids : NoDup (ad_id <$> ms_adapters s);
  mi_fresh : Forall (fun a => ad_id a < ms_next s) (ms_adapters s);
  mi_default : ∀ id, ms_default s = Some id -> ∃ a, find_first (is_adapter id) (ms_adapters s) = Some a;
  mi_service : cn_service (ms_conn s) = None;
  mi_uuid : len (cn_dev_uuid (ms_conn s)) = 16 }.

Definition keeps {X} (m : MM X) : Prop := ∀ s x s', main_inv s -> m s = Ok (x, s') -> main_inv s'.

Create HintDb keeps.

Section Keeps.
Context {A : Alg} {MC : ModelCode} {B : Bus}.

Lemma keeps_bind {X Y} (m : MM X) (f : X -> MM Y) : keeps m -> (∀ x, keeps (f x)) -> keeps (m ≫= f).
Proof. intros Hm Hf s y s'' Hs (x & s' & H1 & H2)%st_bind_ok. eapply Hf; [|exact H2]. by eapply Hm. Qed.
Lemma keeps_ret {X} (x : X) : keeps (mret x).
Proof. by intros s y s' Hs [= _ <-]. Qed.
Lemma keeps_fail {X} e : keeps (X := X) (fail e).
Proof. done. Qed.
Lemma keeps_get : keeps get.
Proof. by intros s y s' Hs [= _ <-]. Qed.
Lemma keeps_gets {X} (f : main_state -> X) : keeps (gets f).
Proof. by intros s y s' Hs [= _ <-]. Qed.
Lemma keeps_lift {X} (r : res X) : keeps (lift r).
Proof. intros s y s' Hs H. unfold lift in H. destruct r; [|done]. by injection H as _ <-. Qed.
Lemma keeps_modify f : (∀ s, main_inv s -> main_inv (f s)) -> keeps (modify f).
Proof. intros Hf s y s' Hs [= _ <-]. auto. Qed.
Lemma keeps_conn f : (∀ c, cn_service c = None -> len (cn_dev_uuid c) = 16 ->
  cn_service (f c) = None /\ len (cn_dev_uuid (f c)) = 16) -> keeps (mod_conn f).
Proof.
  intros Hf. apply keeps_modify. intros s [H1 H2 H3 H4 H5]. destruct (Hf _ H4 H5). by constructor.
Qed.
Lemma keeps_prov_part {X} (h : main_state -> res (X * prov_state)) :
  keeps (fun s => match h s with Ok (x, p) => Ok (x, set_ms_prov p s) | Fault e => Fault e end).
Proof.
  intros s x s' [H1 H2 H3 H4 H5] H. destruct (h s) as [[y p]|]; [|done]. injection H as _ <-. by constructor.
Qed.
Lemma keeps_on_nodes {X} (h : NM X) : keeps (on_nodes h).
Proof. apply (keeps_prov_part (fun s => on_world h (ms_prov s))). Qed.
Lemma keeps_adapter id f : (∀ a, ad_id (f a) = ad_id a) -> keeps (mod_adapter id f).
Proof.
  intros Hf. apply keeps_modify. intros s [H1 H2 H3 H4 H5]. constructor; cbn; try done.
  - by rewrite (map_update_first ad_id).
  - apply Forall_update_first; [|done]. intros a Ha _. by rewrite Hf.
  - intros d Hd. destruct (H3 d Hd) as [a Ha].
    destruct (find_first (is_adapter d) (update_first (is_adapter id) f (ms_adapters s))) eqn:E; [by eexists|].
    exfalso. apply find_first_none in E. apply find_first_some in Ha as [Hin Hid].
    assert (Hi : ad_id a ∈ ad_id <$> update_first (is_adapter id) f (ms_adapters s)).
    { rewrite (map_update_first ad_id) by done. by apply list_elem_of_fmap_2. }
    apply list_elem_of_fmap in Hi as (b & Hb & Hin'). rewrite Forall_forall in E. specialize (E b Hin').
    unfold is_adapter in *. rewrite <-Hb in E. congruence.
Qed.
End Keeps.

#[export] Hint Resolve keeps_ret keeps_fail keeps_get keeps_gets keeps_lift keeps_on_nodes : keeps.
#[export] Hint Extern 1 (main_inv _) => (let H := fresh in intros; destruct select (main_inv _) as []; by constructor) : keeps.

(** Goes through a handler. *)
Ltac keeps_tac := repeat (cbn beta; match goal with
  | |- ∀ _, _ => intro
  | |- keeps (_ ≫= _) => apply keeps_bind
  | |- keeps (match ?x with _ => _ end) => destruct x
  | |- keeps (mod_conn _) => apply keeps_conn; intros; by split
  | |- keeps (modify _) => apply keeps_modify
  | |- keeps _ => solve [auto with keeps]
  end).

Section Handlers.
Context {A : Alg} {MC : ModelCode} {B : Bus}.

Lemma keeps_default_ctrl : keeps default_ctrl.
Proof. unfold default_ctrl. keeps_tac. Qed.
Lemma keeps_call m : keeps (call m).
Proof. unfold call. keeps_tac; auto with keeps. Qed.
Hint Resolve keeps_default_ctrl keeps_call : keeps.

Lemma keeps_forget : keeps forget_mesh_devices.
Proof. unfold forget_mesh_devices. keeps_tac. by apply keeps_adapter. Qed.
Lemma keeps_find_node u : keeps (find_node u).
Proof. unfold find_node, nodes. keeps_tac. Qed.
Lemma keeps_disconnect cb : keeps (disconnect cb).
Proof. unfold disconnect, conn. keeps_tac. Qed.
Lemma keeps_destroy : keeps notify_io_destroy.
Proof. apply keeps_modify. auto with keeps. Qed.
Hint Resolve keeps_forget keeps_find_node keeps_disconnect keeps_destroy : keeps.

Lemma keeps_gatt_notify p e cb n : keeps (mesh_gatt_notify p e cb n).
Proof. unfold mesh_gatt_notify. keeps_tac. Qed.
Hint Resolve keeps_gatt_notify : keeps.
Lemma keeps_out_notify p e cb : keeps (data_out_notify p e cb).
Proof. unfold data_out_notify, conn. keeps_tac. Qed.
Lemma keeps_disconnect_device cb : keeps (disconnect_device cb).
Proof. unfold disconnect_device, conn. keeps_tac. Qed.
Hint Resolve keeps_out_notify keeps_disconnect_device : keeps.
Lemma keeps_open_cb fuel st : keeps (session_open_cb fuel st).
Proof. unfold session_open_cb, conn. keeps_tac. Qed.
Hint Resolve keeps_open_cb : keeps.
Lemma keeps_react fuel evs : ∀ n, keeps (react fuel n evs).
Proof. induction evs as [|e evs IH]; intros n; cbn [react]; keeps_tac. Qed.
Hint Resolve keeps_react : keeps.
Lemma keeps_on_prov {X} fuel (h : PM X) : keeps (on_prov fuel h).
Proof. unfold on_prov. keeps_tac. apply (keeps_prov_part (fun s => h (ms_prov s))). Qed.
Hint Resolve keeps_on_prov : keeps.

Lemma keeps_connected p : keeps (set_connected_device p).
Proof. unfold set_connected_device, conn. keeps_tac. Qed.
Lemma keeps_filter u : keeps (set_scan_filter_uuids u).
Proof. unfold set_scan_filter_uuids. keeps_tac. Qed.
Lemma keeps_prov_out fuel e n : keeps (notify_prov_out_cb fuel e n).
Proof. unfold notify_prov_out_cb, conn. keeps_tac. Qed.
Lemma keeps_proxy_out e : keeps (notify_proxy_out_cb e).
Proof. unfold notify_proxy_out_cb, conn. keeps_tac. Qed.
Hint Resolve keeps_connected keeps_filter keeps_prov_out keeps_proxy_out : keeps.
Lemma keeps_notify_cb fuel cb e : keeps (run_notify_cb fuel cb e).
Proof. unfold run_notify_cb. keeps_tac. Qed.
Hint Resolve keeps_notify_cb : keeps.
Lemma keeps_acquired fuel d r : keeps (acquire_notify_reply fuel d r).
Proof. unfold acquire_notify_reply. keeps_tac; auto with keeps. Qed.
Lemma keeps_disconnect_reply cb e : keeps (disconnect_reply cb e).
Proof. unfold disconnect_reply, prov_disconn_reply, disconn_reply, conn. keeps_tac; auto with keeps. Qed.

Lemma keeps_print p : keeps (print_device p).
Proof. unfold print_device, send_java. keeps_tac; auto with keeps. Qed.
Lemma keeps_print_service d : keeps (print_prov_service d).
Proof. unfold print_prov_service, send_java. keeps_tac; auto with keeps. Qed.
Lemma keeps_parse_prov p : keeps (parse_service_data_prov p).
Proof. unfold parse_service_data_prov. keeps_tac. Qed.
Lemma keeps_parse_proxy p : keeps (parse_service_data_proxy p).
Proof. unfold parse_service_data_proxy, parse_mesh_service_data, conn. cbn zeta. keeps_tac. Qed.
Lemma inv_next s n : main_inv s -> ms_next s <= n -> main_inv (set_next n s).
Proof.
  intros [H1 H2 H3 H4 H5] Hn. constructor; try done. cbn. eapply Forall_impl; [exact H2|]. cbn. lia.
Qed.
Lemma keeps_next : keeps (modify (fun s => set_next (ms_next s + 1) s)).
Proof. apply keeps_modify. intros s Hs. apply inv_next; [done | lia]. Qed.
Hint Resolve keeps_acquired keeps_disconnect_reply keeps_print keeps_print_service keeps_parse_prov
  keeps_parse_proxy : keeps.
Lemma keeps_add_device a p u : keeps (add_device a p u).
Proof.
  intros s x s' Hs (s0 & s1 & Hg & H)%st_bind_ok. injection Hg as -> <-.
  apply st_bind_ok in H as (y & s2 & Hm & H). injection Hm as _ <-.
  apply (keeps_adapter a) in H; [done | done |]. apply inv_next; [done | lia].
Qed.
Hint Resolve keeps_add_device : keeps.
Lemma keeps_update p : keeps (update_device_info p).
Proof. unfold update_device_info. keeps_tac; auto with keeps; by apply keeps_adapter. Qed.
Hint Resolve keeps_update : keeps.

(** A new adapter has a fresh address. *)
Lemma keeps_adapter_added p : keeps (adapter_added p).
Proof.
  intros s x s' [H1 H2 H3 H4 H5] H. unfold adapter_added, mbind, st_bind, get, modify in H. cbn in H.
  set (new := Adapter (ms_next s) p []) in *.
  assert (Hf : ∀ d, (∃ a, find_first (is_adapter d) (ms_adapters s) = Some a) ->
    ∃ a, find_first (is_adapter d) (ms_adapters s ++ [new]) = Some a).
  { intros d [a Ha]. exists a. by rewrite find_first_app, Ha. }
  assert (Hi : ∀ m, ms_adapters m = ms_adapters s ++ [new] -> ms_next m = ms_next s + 1 ->
    ms_conn m = ms_conn s -> (∀ id, ms_default m = Some id ->
      ∃ a, find_first (is_adapter id) (ms_adapters m) = Some a) -> main_inv m).
  { intros m E1 E2 E3 E4. constructor; rewrite ?E1, ?E2, ?E3; try done; [| |by rewrite <-E1].
    - apply NoDup_snoc_elem; [done|]. intros (a & Ha & Hin)%list_elem_of_fmap.
      rewrite Forall_forall in H2. specialize (H2 a Hin). cbn in Ha. lia.
    - apply Forall_app. split; [|by repeat constructor; cbn; lia]. eapply Forall_impl; [exact H2|]. cbn. lia. }
  destruct (ms_default s) as [d|] eqn:Ed; injection H as _ <-; apply Hi; try done.
  - cbn. rewrite Ed. intros id [= <-]. by auto.
  - cbn. intros id [= <-]. rewrite find_first_app. destruct (find_first _ (ms_adapters s)); [by eexists|].
    exists new. unfold is_adapter, new. cbn. by rewrite Z.eqb_refl.
Qed.

(** The selected adapter is not the one that goes, or is no longer selected. *)
Lemma keeps_adapter_removed p : keeps (adapter_removed p).
Proof.
  intros s x s' Hs H. unfold adapter_removed in H. apply st_bind_ok in H as (? & ? & Hg & H). injection Hg as <- <-.
  destruct (find_first (fun a => ad_proxy a =? p) (ms_adapters s)) as [a|] eqn:Ea; [|by injection H as _ <-].
  apply st_bind_ok in H as (y & s1 & H & Hrm). injection Hrm as _ <-.
  assert (Hrem : main_inv s1 -> ms_adapters s1 = ms_adapters s -> ms_default s1 <> Some (ad_id a) ->
    main_inv (set_adapters (remove_first (is_adapter (ad_id a)) (ms_adapters s1)) s1)).
  { intros [H1 H2 H3 H4 H5] _ Hne. constructor; cbn; try done.
    - by apply NoDup_remove_first.
    - by apply Forall_remove_first.
    - intros id Hid. rewrite find_remove_first_other; [by apply H3|]. assert (id <> ad_id a) by congruence.
      intros b. unfold is_adapter. rewrite Z.eqb_eq, Z.eqb_neq. lia. }
  destruct (ms_default s) as [d|] eqn:Ed.
  - apply st_bind_ok in H as (b & s2 & Hd & H).
    assert (s2 = s /\ find_first (is_adapter d) (ms_adapters s) = Some b) as [-> Hb].
    { unfold default_ctrl, mbind, st_bind, get in Hd. rewrite Ed in Hd. unfold lift in Hd.
      destruct (find_first (is_adapter d) _) as [b'|]; [|done]. by injection Hd as <- <-. }
    destruct (Z.eqb_spec (ad_proxy b) p) as [Hp | Hp].
    + unfold mbind, st_bind, modify in H. cbn in H. injection H as _ <-. destruct Hs as [H1 H2 H3 H4 H5]. by apply Hrem; [constructor | |].
    + injection H as _ <-. apply Hrem; [done..|]. rewrite Ed. intros [= ->].
      pose proof (find_first_some _ _ _ Ea) as [Hina Hpa%Z.eqb_eq].
      destruct Hs as [H1 _ _ _ _]. pose proof (find_first_key ad_id _ _ H1 Hina) as E.
      unfold is_adapter in Hb. rewrite E in Hb. congruence.
  - injection H as _ <-. apply Hrem; [done..|]. by rewrite Ed.
Qed.
Hint Resolve keeps_adapter_added keeps_adapter_removed : keeps.

Lemma keeps_characteristic p u : keeps (get_characteristic p u).
Proof. unfold get_characteristic. cbn zeta. keeps_tac. Qed.
Hint Resolve keeps_characteristic : keeps.
Lemma keeps_setup p : keeps (mesh_session_setup p).
Proof. unfold mesh_session_setup, setup_with, conn. keeps_tac. Qed.
Lemma keeps_proxy_added p : keeps (proxy_added p).
Proof. unfold proxy_added. keeps_tac; auto with keeps. Qed.
Lemma keeps_device_removed p : keeps (device_removed p).
Proof. unfold device_removed, conn. keeps_tac; by apply keeps_adapter. Qed.
Hint Resolve keeps_setup keeps_proxy_added keeps_device_removed : keeps.
Lemma keeps_proxy_removed p : keeps (proxy_removed p).
Proof. unfold proxy_removed, conn. keeps_tac; auto with keeps. Qed.
Lemma keeps_gone : keeps disconnect_handler.
Proof.
  apply keeps_modify. intros s [H1 H2 H3 H4 H5]. by constructor; cbn; try constructor.
Qed.

Lemma keeps_sar d : keeps (gatt_sar d).
Proof. unfold gatt_sar. keeps_tac; auto with keeps. Qed.
Lemma keeps_net fuel pdu : keeps (deliver_net fuel pdu).
Proof. unfold deliver_net. auto with keeps. Qed.
Lemma keeps_prov fuel n pdu : keeps (deliver_prov fuel n pdu).
Proof. unfold deliver_prov. keeps_tac. Qed.
Hint Resolve keeps_proxy_removed keeps_gone keeps_sar keeps_net keeps_prov : keeps.
Lemma keeps_process fuel p : keeps (process_mesh_characteristic fuel p).
Proof. unfold process_mesh_characteristic, conn. cbn zeta. keeps_tac. Qed.
Lemma keeps_pipe_loop fuel h l : keeps (pipe_read_loop fuel h l).
Proof. induction l as [|f l IH]; cbn [pipe_read_loop]; keeps_tac; auto with keeps. Qed.
Hint Resolve keeps_process keeps_pipe_loop : keeps.
Lemma keeps_pipe fuel l : keeps (pipe_read fuel l).
Proof. unfold pipe_read. keeps_tac. Qed.
Lemma keeps_changed fuel p n : keeps (property_changed fuel p n).
Proof. unfold property_changed, device_changed, conn. keeps_tac; auto with keeps. Qed.
Hint Resolve keeps_pipe keeps_changed : keeps.

Lemma keeps_look_for i u : keeps (look_for i u).
Proof. unfold look_for. keeps_tac; auto with keeps. Qed.
Hint Resolve keeps_look_for : keeps.
Lemma keeps_connect argv : keeps (cmd_connect argv).
Proof. unfold cmd_connect, has_default_ctrl. keeps_tac. Qed.
Lemma keeps_disconn : keeps cmd_disconn.
Proof. unfold cmd_disconn, conn. keeps_tac. Qed.
Lemma keeps_scan b : keeps (cmd_scan_unprovisioned b).
Proof. unfold cmd_scan_unprovisioned. keeps_tac; auto with keeps. Qed.
Lemma keeps_security b : keeps (cmd_security b).
Proof. unfold cmd_security. keeps_tac. Qed.

Lemma keeps_bind_lift {X Y} (r : res X) (f : X -> MM Y) : (∀ x, r = Ok x -> keeps (f x)) -> keeps (lift r ≫= f).
Proof.
  intros Hf s y s' Hs (x & s1 & H1 & H2)%st_bind_ok. unfold lift in H1. destruct r as [x'|]; [|done].
  injection H1 as -> <-. by eapply Hf.
Qed.
Lemma keeps_start_prov u : keeps (cmd_start_prov u).
Proof.
  unfold cmd_start_prov. cbn zeta. apply keeps_bind; [auto with keeps|]. intros _. apply keeps_bind_lift.
  intros id Hid%wr_range_len. assert (Hl : len id = 16) by (rewrite Hid; by apply len_rep).
  apply keeps_bind; [by apply keeps_conn|]. intros _. keeps_tac; auto with keeps.
Qed.

(** The adapter that is selected stays in the list while the devices of the old one are forgotten. *)
Lemma forget_ids s x s' : forget_mesh_devices s = Ok (x, s') ->
  ad_id <$> ms_adapters s' = ad_id <$> ms_adapters s.
Proof.
  unfold forget_mesh_devices. intros (a & s1 & H1 & H2)%st_bind_ok. injection H2 as _ <-.
  assert (s1 = s) as ->.
  { revert H1. unfold default_ctrl, mbind, st_bind, get. destruct (ms_default s) as [d|]; [|done].
    unfold lift. by destruct (of_option _ _); [intros [= _ ->]|]. }
  by apply (map_update_first ad_id).
Qed.
Lemma has_adapter id l : id ∈ ad_id <$> l -> ∃ a, find_first (is_adapter id) l = Some a.
Proof.
  intros (a & -> & Hin)%list_elem_of_fmap. destruct (find_first _ _) eqn:E; [by eexists|].
  apply find_first_none in E. rewrite Forall_forall in E. specialize (E a Hin).
  unfold is_adapter in E. by rewrite Z.eqb_refl in E.
Qed.
Lemma keeps_select addr : keeps (cmd_select addr).
Proof.
  intros s x s' Hs H. unfold cmd_select in H. apply st_bind_ok in H as (? & ? & Hg & H). injection Hg as <- <-.
  destruct (find_ctrl_by_address _ _) as [a|] eqn:Ea; [|by injection H as _ <-].
  apply st_bind_ok in H as (same & s1 & Hsame & H).
  assert (s1 = s) as ->.
  { revert Hsame. destruct (ms_default s) as [d|] eqn:Ed; [|by intros [= _ ->]].
    unfold default_ctrl, mbind, st_bind, get. rewrite Ed. unfold lift.
    by destruct (of_option _ _); [intros [= _ ->]|]. }
  destruct same; [by injection H as _ <-|]. apply st_bind_ok in H as (y & s2 & Hf & H). injection H as _ <-.
  pose proof (forget_ids _ _ _ Hf) as Hids. pose proof (keeps_forget _ _ _ Hs Hf) as [H1 H2 H3 H4 H5].
  constructor; try done. cbn. intros id [= <-]. apply has_adapter. rewrite Hids.
  apply list_elem_of_fmap_2. by apply (find_first_some _ _ _ Ea).
Qed.
Hint Resolve keeps_acquired keeps_disconnect_reply keeps_connect keeps_disconn keeps_scan keeps_security
  keeps_start_prov keeps_select : keeps.

Lemma keeps_op fuel op : keeps (run_main_op fuel op).
Proof.
  destruct op; cbn [run_main_op]; auto with keeps.
  - unfold connect_reply. keeps_tac.
  - unfold notify_reply. auto with keeps.
Qed.
End Handlers.

(** ** Reachable states *)

(** The static variables before any event; the layers below are in any state. *)
Definition main_start (p : prov_state) (rx : gatt_rx) : main_state :=
  MainState p rx zero_connection [] None 1 false false NET_IDX_PRIMARY [] [] None [] [].

(** Handlers that return, one after the other, with the daemon's answers changing
    between them. *)
Inductive main_reach {A : Alg} {MC : ModelCode} : main_state -> Prop :=
| main_reach_start p rx : main_reach (main_start p rx)
| main_reach_step (B : Bus) fuel op s s' :
    main_reach s -> run_main_op fuel op s = Ok (tt, s') -> main_reach s'.

Lemma main_reach_inv `{A : Alg} {MC : ModelCode} s : main_reach s -> main_inv s.
Proof.
  induction 1 as [p rx | B fuel op s s' _ IH Hop].
  - by constructor; cbn; try constructor.
  - by eapply keeps_op.
Qed.

(** ** Theorems *)

(** C29: in every order of signals, replies and commands the selected adapter is one of the list, so it is never
    used after it has been freed; it is NULL exactly when none is selected. *)
Theorem selected_adapter_live (A : Alg) (MC : ModelCode) (s : main_state) : main_reach s ->
  match ms_default s with
  | None => default_ctrl s = Fault NullDeref
  | Some id => ∃ a, default_ctrl s = Ok (a, s) /\ a ∈ ms_adapters s /\ ad_id a = id
  end.
Proof.
  intros Hs%main_reach_inv. destruct (ms_default s) as [id|] eqn:Ed.
  - destruct (mi_default _ Hs id Ed) as [a Ha]. exists a.
    pose proof (find_first_some _ _ _ Ha) as [Hin Hid%Z.eqb_eq]. split; [|done].
    unfold default_ctrl, mbind, st_bind, get. by rewrite Ed, Ha.
  - unfold default_ctrl, mbind, st_bind, get. by rewrite Ed.
Qed.

(** [connection.service] is not set by any handler, so the removal of a service or characteristic leaves the
    connection as it is: data goes on to be written to proxies that are gone. *)
Theorem removed_service_stays (A : Alg) (MC : ModelCode) (B : Bus) fuel proxy (s : main_state) : main_reach s ->
  bus_interface proxy = GattService1 \/ bus_interface proxy = GattCharacteristic1 ->
  ∃ s', run_main_op fuel (OpRemoved proxy) s = Ok (tt, s') /\ ms_conn s' = ms_conn s /\
    ms_prov s' = ms_prov s.
Proof.
  intros Hs%main_reach_inv Hi. cbn [run_main_op]. unfold proxy_removed.
  destruct Hi as [-> | ->]; [|by eexists]. unfold conn, mbind, st_bind, gets.
  rewrite (mi_service _ Hs), bool_decide_false by done. by eexists.
Qed.

(** ** Errors *)

Section Errors.
Context {A : Alg} {MC : ModelCode} {B : Bus}.
Implicit Types s : main_state.

(** Digits are read one pair at a time. *)
Definition is_hex (c : Z) : Prop := is_Some (hex_digit c).
Lemma is_hex_plain c : is_hex c -> is_space c = false /\ is_sign c = false.
Proof.
  intros [v Hv]. unfold hex_digit, is_digit in Hv. unfold is_space, is_sign.
  repeat case_match; bool_hyps; try done; split; zbool; lia.
Qed.
Lemma scan_hex_pair c d l : is_hex c -> is_hex d -> is_Some (scan_hex (c :: d :: l)).
Proof.
  intros Hc Hd. unfold scan_hex. cbn [skip_spaces]. destruct (is_hex_plain c Hc) as [-> ->].
  destruct Hc as [v ->], Hd as [w ->]. by eexists.
Qed.
Lemma hex_written_len n str : Forall is_hex str -> (2 * n <= length str)%nat ->
  length (hex_written n str).1 = n.
Proof.
  revert str. induction n as [|n IH]; intros str Hs Hn; [done|]. cbn [hex_written].
  destruct str as [|c [|d l]]; cbn [length] in Hn; [lia..|].
  apply Forall_cons in Hs as [Hc Hs]. apply Forall_cons in Hs as [Hd Hs].
  destruct (scan_hex_pair c d l Hc Hd) as [v ->]. change (drop 2 (c :: d :: l)) with (drop 0 l). rewrite drop_0.
  specialize (IH l Hs ltac:(lia)). destruct (hex_written n l). cbn in IH |- *. by rewrite IH.
Qed.

(** What the copy of a value and [str2hex] do outside their buffers. *)
Lemma start_prov_overflow a str s : idle a s -> Forall is_hex str -> 34 <= len str ->
  cmd_start_prov str s = Fault Oob.
Proof.
  intros Hi Hh Hl. unfold cmd_start_prov. apply wp_bind_fault, (disconnect_idle a); [done|].
  apply bind_fault. unfold lift. rewrite wr_range_oob; [done|].
  assert (H : (2 * Z.to_nat (len str / 2) <= length str)%nat) by (unfold len in *; zlia).
  pose proof (hex_written_len _ _ Hh H) as E. unfold len at 2. rewrite E. change (len (rep 16 0)) with 16.
  zlia.
Qed.

Lemma value_len v : len v <= 256 -> get_characteristic_value v 256 = Ok (len v).
Proof.
  intros Hl. unfold get_characteristic_value. pose proof (len_nonneg v).
  rewrite wr_range_ok; [|done|rewrite len_rep by done; lia]. cbn. f_equal. unfold s32.
  rewrite u32_small by lia. by rewrite (proj2 (Z.ltb_lt _ _)) by lia.
Qed.

(** The list of a device's adapter after one of its devices has been removed. *)
Lemma removed_first a proxy s : find_parent (ms_adapters s) proxy = Some a ->
  find_first (is_adapter (ad_id a)) (ms_adapters s) = Some a ->
  wp (device_removed proxy) (fun _ s' =>
    find_first (is_adapter (ad_id a)) (ms_adapters s') = Some (set_ad_devices (drop 1 (ad_devices a)) a)) s.
Proof.
  intros Hp Ha. unfold device_removed. apply wp_bind, wp_get. rewrite Hp.
  set (Q := fun s' : main_state => find_first (is_adapter (ad_id a)) (ms_adapters s') =
    Some (set_ad_devices (drop 1 (ad_devices a)) a)).
  apply wp_bind. apply (wp_mono _ (fun _ => Q)).
  - unfold find_device_by_proxy, find_first. destruct (ad_devices a) as [|d l] eqn:Ed; cbn [find].
    + apply wp_ret. unfold Q. rewrite Ha. f_equal. destruct a. cbn in *. by subst.
    + rewrite Z.eqb_refl. apply wp_modify. unfold Q. cbn. rewrite (find_update_first _ _ _ a) by done.
      f_equal. f_equal. rewrite Ed. cbn. unfold is_device. by rewrite Z.eqb_refl.
  - intros _ s' HQ. apply wp_bind, print_device_wp. unfold conn. apply wp_bind, wp_gets.
    assert (HQ' : Q (if has_address proxy then set_events (ms_events s' ++
      [(NAME, default (octets "<unknown>") (bus_alias proxy))]) s' else s')) by (by destruct (has_address proxy)).
    destruct (bool_decide _); [|by apply wp_ret]. by apply wp_bind, wp_modify, wp_modify.
Qed.
End Errors.

(** ** After provisioning *)

(** A node that advertises its identity. *)
Record identity_device `{Bus} (ctrl proxy : Z) (id : list Z) : Prop := {
  ip_interface : bus_interface proxy = Device1;
  ip_parent : bus_parent proxy = Some ctrl;
  ip_address : has_address proxy = true;
  ip_data : ∃ entries, bus_service_data proxy = Some entries /\
    find_service entries MESH_PROV_SVC_UUID = None /\
    find_service entries MESH_PROXY_SVC_UUID = Some (CONN_TYPE_IDENTITY :: id);
  ip_calls : ∀ m, bus_call m = true }.

Section Reconnect.
Context {A : Alg} {MC : ModelCode} {B : Bus}.
Implicit Types s : main_state.

(** Looking for the node at [addr]. *)
Record seeking (a : adapter) (addr : Z) s : Prop := {
  sk_default : ms_default s = Some (ad_id a);
  sk_adapter : find_first (is_adapter (ad_id a)) (ms_adapters s) = Some a;
  sk_type : cn_type (ms_conn s) = CONN_TYPE_IDENTITY;
  sk_unicast : cn_unicast (ms_conn s) = addr;
  sk_discover : ms_discover_mesh s = true }.

Lemma call_true_wp m (Q : bool -> main_state -> Prop) s : (∀ m, bus_call m = true) ->
  Q true (set_calls (ms_calls s ++ [m]) s) -> wp (call m) Q s.
Proof. intros Hc HQ. apply call_wp. by rewrite Hc. Qed.

Lemma provisioned_seeks a id n s : (∀ m, bus_call m = true) ->
  ms_default s = Some (ad_id a) -> find_first (is_adapter (ad_id a)) (ms_adapters s) = Some a ->
  ns_valid (w_nodes (main_world s)) = true -> find_first (is_node id) (nodes_in s) = Some n ->
  wp (disconnect_reply (ProvDisconnReply id) false) (fun _ s' => seeking a (nd_primary n) s' /\
    main_world s' = main_world s /\ ms_adapters s' = ms_adapters s /\ ms_net_key_index s' = ms_net_key_index s /\
    ms_calls s' = ms_calls s ++ [SetDiscoveryFilter (ad_proxy a) MESH_PROXY_SVC_UUID; StartDiscovery (ad_proxy a)]) s.
Proof.
  intros Hc Hd Ha Hv Hn. cbn [disconnect_reply]. unfold prov_disconn_reply, set_connected_device, mod_conn.
  apply wp_bind, wp_bind, wp_modify, wp_modify. unfold set_scan_filter_uuids.
  apply wp_bind, wp_bind, (default_ctrl_wp a); [done..|]. apply wp_bind, call_true_wp; [done|]. apply wp_ret.
  apply wp_bind, wp_modify. apply wp_bind, wp_modify. apply wp_bind, wp_on_nodes. unfold node_primary, nonnull.
  apply wp_bind. eapply node_deref_wp; [exact Hv | exact Hn|]. apply wp_ret. rewrite with_world_same.
  apply wp_bind, wp_modify. apply wp_bind, (default_ctrl_wp a); [done..|].
  apply wp_bind, call_true_wp; [done|]. apply wp_ret. split; [by constructor|].
  do 3 (split; [done|]). cbn. by rewrite <-app_assoc.
Qed.

(** What an advertisement is compared with. *)
Lemma identity_wp key addr id s (Q : bool -> main_state -> Prop) :
  cn_type (ms_conn s) = CONN_TYPE_IDENTITY -> cn_unicast (ms_conn s) = addr -> addr <> UNASSIGNED ->
  len id = 16 -> keys_net_key_get (w_keys (main_world s)) (ms_net_key_index s) true = Some key ->
  Q (mesh_crypto_identity_check key addr id) s ->
  wp (parse_mesh_service_data (CONN_TYPE_IDENTITY :: id)) Q s.
Proof.
  intros Ht Hu Hne Hl Hk HQ. unfold parse_mesh_service_data. rewrite len_cons, Hl.
  apply wp_bind. change (1 + 16) with 17. cbn [Z.eqb Pos.eqb orb]. apply wp_bind. eapply wp_lift; [apply rd_0|]. apply wp_ret. cbn [Z.eqb andb negb].
  unfold conn. apply wp_bind, wp_gets. rewrite Ht. cbn [Z.eqb negb]. apply wp_bind, wp_get.
  rewrite Hu, (proj2 (Z.eqb_neq addr UNASSIGNED) Hne). unfold main_world in Hk. rewrite Hk. by apply wp_ret.
Qed.

Lemma advertised_connects a key addr proxy id s : identity_device (ad_proxy a) proxy id ->
  seeking a addr s -> find_parent (ms_adapters s) proxy = Some a -> addr <> UNASSIGNED -> len id = 16 ->
  keys_net_key_get (w_keys (main_world s)) (ms_net_key_index s) true = Some key ->
  wp (proxy_added proxy) (fun _ s' => ms_calls s' = ms_calls s ++
    (if mesh_crypto_identity_check key addr id then [StopDiscovery (ad_proxy a); Connect proxy] else []) /\
    ms_conn s' = ms_conn s) s.
Proof.
  intros [Hi Hpar Haddr (es & He & Hn & Hp) Hc] [Hd Ha Ht Hu Hdm] Hf Hne Hl Hk. unfold proxy_added. rewrite Hi.
  unfold update_device_info. apply wp_bind, wp_get. rewrite Hf, Hd, bool_decide_true, Haddr by done. cbn [negb].
  apply wp_bind. unfold parse_service_data_prov. rewrite He, Hn. apply wp_ret.
  apply wp_bind. unfold parse_service_data_proxy. rewrite He, Hp. apply (identity_wp key addr); [done..|].
  rewrite Hdm. destruct (mesh_crypto_identity_check key addr id); cbn [andb]; [|apply wp_ret; by rewrite app_nil_r].
  apply wp_bind, (default_ctrl_wp a); [done..|]. apply wp_bind, call_true_wp; [done|].
  apply wp_bind, wp_modify. apply wp_bind. unfold forget_mesh_devices. apply wp_bind, (default_ctrl_wp a); [done..|].
  apply wp_modify. apply wp_bind, call_true_wp; [done|]. apply wp_ret. cbn. by rewrite <-app_assoc.
Qed.
End Reconnect.

(** C30: once the daemon has disconnected a device that was provisioned, the node is looked for, and the advertisement of
    its identity, made of the network key, its address and a random value, is recognised: the connection to it
    is asked for, and to no device whose advertisement does not pass the check. *)
Theorem provisioned_node_reconnected (A : Alg) (AO : AlgOk A) (MC : ModelCode) (B : Bus) fuel a id n key proxy adv
    (s : main_state) :
  identity_device (ad_proxy a) proxy adv -> len adv = 16 ->
  ms_default s = Some (ad_id a) -> find_first (is_adapter (ad_id a)) (ms_adapters s) = Some a ->
  find_parent (ms_adapters s) proxy = Some a ->
  ns_valid (w_nodes (main_world s)) = true -> find_first (is_node id) (nodes_in s) = Some n ->
  nd_primary n <> UNASSIGNED ->
  keys_net_key_get (w_keys (main_world s)) (ms_net_key_index s) true = Some key ->
  wp (mapM_ (run_main_op fuel) [OpDisconnectReply (ProvDisconnReply id) false; OpAdded proxy]) (fun _ s' =>
    ms_calls s' = ms_calls s ++ [SetDiscoveryFilter (ad_proxy a) MESH_PROXY_SVC_UUID; StartDiscovery (ad_proxy a)] ++
      (if mesh_crypto_identity_check key (nd_primary n) adv then [StopDiscovery (ad_proxy a); Connect proxy] else []) /\
    cn_type (ms_conn s') = CONN_TYPE_IDENTITY /\ cn_unicast (ms_conn s') = nd_primary n) s /\
  (∀ random id0, len random = 8 -> len id0 = 16 ->
     mesh_crypto_identity key (nd_primary n) random id0 = (true, adv) ->
     mesh_crypto_identity_check key (nd_primary n) adv = true).
Proof.
  intros Hdev Hl Hd Ha Hf Hv Hn Hne Hk. split.
  - cbn [mapM_ run_main_op]. apply wp_bind. eapply wp_mono; [apply (provisioned_seeks a id n); [apply Hdev | done..]|].
    intros _ s1 (H1 & Hw & Had & Hki & Hcl). apply wp_bind.
    eapply wp_mono; [by apply (advertised_connects a key (nd_primary n) proxy adv); rewrite ?Had, ?Hw, ?Hki|].
    intros _ s2 [Hcl2 Hconn]. apply wp_ret. rewrite Hcl2, Hcl, Hconn, <-app_assoc.
    split; [done|]. split; apply H1.
  - intros random id0 Hr H0 Hid. by apply (identity_check_accepts A AO key (nd_primary n) random id0).
Qed.

(** The value of a characteristic is copied to a buffer of 256 octets before its length is looked at: a longer
    one is written past the end of the buffer, one of more than 69 octets is then dropped. *)
Theorem value_copied_unchecked (A : Alg) (MC : ModelCode) (B : Bus) fuel proxy uuid value s :
  bus_uuid proxy = Some uuid -> uuid = MESH_PROV_DATA_OUT_UUID \/ uuid = MESH_PROXY_DATA_OUT_UUID ->
  bus_value proxy = Some value -> 69 < len value ->
  process_mesh_characteristic fuel proxy s = if 256 <? len value then Fault Oob else Ok (false, s).
Proof.
  intros Hu Hd Hv Hl. unfold process_mesh_characteristic. rewrite Hu, Hv.
  replace (_ || _) with true by (by destruct Hd as [-> | ->]). unfold mbind at 1, st_bind at 1, lift.
  destruct (Z.ltb_spec 256 (len value)).
  - unfold get_characteristic_value. by rewrite wr_range_oob by (rewrite len_rep by done; lia).
  - rewrite value_len, u16_small by lia. rewrite (proj2 (Z.ltb_lt 69 _)) by lia. by rewrite orb_true_r.
Qed.

(** The text of an UUID is only said to be of a wrong size: of more than 33 hexadecimal digits, seventeen octets or
    more are written to the sixteen of [connection.dev_uuid]. *)
Theorem long_uuid_overflows (A : Alg) (MC : ModelCode) (B : Bus) fuel a str s :
  idle a s -> Forall is_hex str -> 34 <= len str ->
  run_main_op fuel (OpStartProv str) s = Fault Oob.
Proof. apply start_prov_overflow. Qed.

(** Whichever device the daemon removes, it is the first of the adapter's list that is forgotten. *)
Theorem removed_device_first (A : Alg) (MC : ModelCode) (B : Bus) fuel a proxy s : main_reach s ->
  bus_interface proxy = Device1 -> find_parent (ms_adapters s) proxy = Some a ->
  ∃ s' a', run_main_op fuel (OpRemoved proxy) s = Ok (tt, s') /\
    find_first (is_adapter (ad_id a)) (ms_adapters s') = Some a' /\ ad_devices a' = drop 1 (ad_devices a).
Proof.
  intros Hs%main_reach_inv Hi Hp.
  assert (Ha : find_first (is_adapter (ad_id a)) (ms_adapters s) = Some a).
  { apply (find_first_key ad_id); [apply Hs | apply (find_first_some _ _ _ Hp)]. }
  pose proof (removed_first a proxy s Hp Ha) as H. apply wp_ok in H as ([] & s' & Hr & Hd).
  exists s', (set_ad_devices (drop 1 (ad_devices a)) a). split; [|done]. cbn [run_main_op].
  unfold proxy_removed. by rewrite Hi.
Qed.

(** When no adapter is selected - none has appeared, the daemon is gone, or the selected one was removed -, scanning
    dereferences NULL, and so does selecting one of those that are left; only asking for a connection is refused. *)
Theorem commands_without_adapter (A : Alg) (MC : ModelCode) (B : Bus) fuel s : ms_default s = None ->
  (∀ onoff, run_main_op fuel (OpScan onoff) s = Fault NullDeref) /\
  (∀ address a, find_ctrl_by_address (ms_adapters s) address = Some a ->
     run_main_op fuel (OpSelect address) s = Fault NullDeref) /\
  (∀ argv, run_main_op fuel (OpConnect argv) s = Ok (tt, s)).
Proof.
  intros Hd. cbn [run_main_op].
  assert (Hf : ∀ s, ms_default s = None -> default_ctrl s = Fault NullDeref).
  { intros s' Hd'. unfold default_ctrl, mbind, st_bind, get. by rewrite Hd'. }
  split; [|split].
  - intros onoff. unfold cmd_scan_unprovisioned. destruct (onoff =? 1).
    + apply bind_fault, wp_bind_fault, wp_modify. unfold set_scan_filter_uuids. apply bind_fault. by apply Hf.
    + apply wp_bind_fault, wp_ret. by apply bind_fault, Hf.
  - intros address a Ha. unfold cmd_select, mbind, st_bind, get. rewrite Ha, Hd. cbn.
    unfold forget_mesh_devices, mbind, st_bind. by rewrite Hf.
  - intros argv. unfold cmd_connect, has_default_ctrl, mbind, st_bind, get. by rewrite Hd.
Qed.

(** C8: a device that advertises itself unprovisioned is shown with the text of its UUID and its name; when the
    user picks that text and the daemon connects, reports the provisioning service and grants the
    notifications, a provisioning session with the node created for the device is open and the invitation is
    on its way, and none of this faults. *)
Theorem advertised_device_invited (A : Alg) (MC : ModelCode) (B : Bus) ctrl proxy svc cin cout uuid a s fuel :
  prov_device ctrl proxy svc cin cout uuid -> idle a s -> ad_proxy a = ctrl ->
  find_parent (ms_adapters s) proxy = Some a -> ms_discovering s = true ->
  find_device_by_uuid (ad_devices a) uuid = None -> find_first (match_device_uuid uuid) (nodes_in s) = None ->
  ms_services s = [] -> ms_chars s = [] ->
  Forall (fun x => x.1 < ps_next (ms_prov s)) (ps_provs (ms_prov s)) -> 0 < ps_next (ms_prov s) ->
  ∃ s1 text name n, run_main_op fuel (OpAdded proxy) s = Ok (tt, s1) /\
    ms_events s1 = ms_events s ++ [(UUID, text); (NAME, name)] /\
    wp (mapM_ (run_main_op fuel) (provision_ops proxy svc cin cout text n)) (fun _ s' =>
      session (nd_id n) (set_nd_prov (ps_next (ms_prov s)) n) (opened (ms_net_key_index s)) (ms_prov s') /\
      invited (nd_id n) s s') s1.
Proof.
  intros Hdev Hi Hctrl Hpar Hdis Hnew Hnode Hsv Hch Hfr Hpos.
  pose proof (found_new _ _ _ _ _ _ Hdev a s Hi Hctrl Hpar Hdis Hnew Hnode) as Hf.
  apply wp_ok in Hf as ([] & s1 & Hrun & Hev & Hp & Hs & Hc & a' & n & Hl & Ha').
  unfold prov_side in Hp. injection Hp as E1 E2 E3 E4 E5.
  eexists s1, _, _, n. split; [cbn; unfold proxy_added; by rewrite (pd_interface _ _ _ _ _ _ Hdev)|].
  split; [exact Hev|]. eapply wp_mono; [apply (invited_run _ _ _ _ _ _ Hdev fuel a' n s1); rewrite ?E1, ?E2; congruence|].
  intros ? s' [Hse Hinv]. unfold invited in *. by rewrite <-E2, <-E3, <-E4, <-E5.
Qed.

(** *** An adapter, a device without and a node with a place in the network *)

Definition demo_prov : prov_state := ProvState demo_nodes [] 1 no_request None [] 0 [] [].
Definition demo_adv : list Z := (mesh_crypto_identity (H := toy_alg) (rep 16 1) 0x100 (rep 8 7) (rep 16 0)).2.
Definition demo_bus : Bus := {|
  bus_interface p := if p =? 10 then Adapter1 else if (p =? 20) || (p =? 21) then Device1
    else if p =? 30 then GattService1 else GattCharacteristic1;
  bus_uuid p := if p =? 30 then Some MESH_PROV_SVC_UUID else if p =? 31 then Some MESH_PROV_DATA_IN_UUID
    else if p =? 32 then Some MESH_PROV_DATA_OUT_UUID else None;
  bus_parent p := if (p =? 20) || (p =? 21) then Some 10 else if p =? 30 then Some 20 else Some 30;
  bus_address p := if (p =? 10) || (p =? 20) || (p =? 21) then Some [p] else None;
  bus_alias p := if p =? 20 then Some [76; 97; 109; 112] else None;
  bus_service_data p := if p =? 20 then Some [(MESH_PROV_SVC_UUID, rep 16 7 ++ [0; 0])]
    else if p =? 21 then Some [(MESH_PROXY_SVC_UUID, CONN_TYPE_IDENTITY :: demo_adv)] else None;
  bus_notifying p := true;
  bus_notify_acquired p := true;
  bus_value p := Some (rep 300 0);
  bus_call m := true |}.
Definition demo_adapter : adapter := Adapter 1 10 [].
Definition demo_main : main_state :=
  MainState demo_prov gatt_rx_init zero_connection [demo_adapter] (Some 1) 2 true false 0 [] [] None [] [].

Lemma demo_reach : @main_reach toy_alg noting_models demo_main.
Proof.
  apply (main_reach_step demo_bus 0 (OpChanged 10 (PDiscovering 1)) (set_discovering false demo_main)); [|done].
  apply (main_reach_step demo_bus 0 (OpAdded 10) (main_start demo_prov gatt_rx_init)); [constructor | done].
Qed.
Lemma demo_idle : idle demo_adapter demo_main.
Proof. constructor; try done. apply demo_store_wf. Qed.
Lemma demo_device : @prov_device demo_bus 10 20 30 31 32 (rep 16 7).
Proof.
  constructor; try done. exists [(MESH_PROV_SVC_UUID, rep 16 7 ++ [0; 0])], (rep 16 7 ++ [0; 0]).
  do 4 (split; [done|]). by repeat constructor.
Qed.

Lemma selected_adapter_live_witness :
  ∃ a, @default_ctrl demo_main = Ok (a, demo_main) /\ a ∈ ms_adapters demo_main /\ ad_id a = 1.
Proof. exact (selected_adapter_live toy_alg noting_models demo_main demo_reach). Defined.

Lemma removed_service_stays_witness :
  ∃ s', run_main_op (A := toy_alg) (MC := noting_models) (B := demo_bus) 0 (OpRemoved 30) demo_main = Ok (tt, s') /\
    ms_conn s' = ms_conn demo_main /\ ms_prov s' = ms_prov demo_main.
Proof. apply (removed_service_stays toy_alg noting_models demo_bus 0 30 demo_main demo_reach). by left. Defined.

Lemma provisioned_node_reconnected_witness :
  wp (mapM_ (run_main_op (A := toy_alg) (MC := noting_models) (B := demo_bus) 0)
        [OpDisconnectReply (ProvDisconnReply 2) false; OpAdded 21]) (fun _ s' =>
    ms_calls s' = ms_calls demo_main ++ [SetDiscoveryFilter 10 MESH_PROXY_SVC_UUID; StartDiscovery 10] ++
      (if mesh_crypto_identity_check (H := toy_alg) (rep 16 1) 0x100 demo_adv
       then [StopDiscovery 10; Connect 21] else []) /\
    cn_type (ms_conn s') = CONN_TYPE_IDENTITY /\ cn_unicast (ms_conn s') = 0x100) demo_main /\
  (∀ random id0, len random = 8 -> len id0 = 16 ->
     mesh_crypto_identity (H := toy_alg) (rep 16 1) 0x100 random id0 = (true, demo_adv) ->
     mesh_crypto_identity_check (H := toy_alg) (rep 16 1) 0x100 demo_adv = true).
Proof.
  apply (provisioned_node_reconnected toy_alg _ noting_models demo_bus 0 demo_adapter 2 demo_remote (rep 16 1) 21); try done.
  constructor; try done. exists [(MESH_PROXY_SVC_UUID, CONN_TYPE_IDENTITY :: demo_adv)]. done.
Defined.

Lemma value_copied_unchecked_witness :
  process_mesh_characteristic (A := toy_alg) (MC := noting_models) (B := demo_bus) 0 32 demo_main = Fault Oob.
Proof.
  apply (value_copied_unchecked toy_alg noting_models demo_bus 0 32 MESH_PROV_DATA_OUT_UUID (rep 300 0) demo_main);
    [done | by left | done | done].
Defined.

Lemma long_uuid_overflows_witness :
  run_main_op (A := toy_alg) (MC := noting_models) (B := demo_bus) 0 (OpStartProv (rep 34 48)) demo_main = Fault Oob.
Proof.
  apply (long_uuid_overflows toy_alg noting_models demo_bus 0 demo_adapter (rep 34 48) demo_main);
    [apply demo_idle | by apply Forall_replicate; exists 0 | done].
Defined.

Lemma removed_device_first_witness :
  ∃ s' a', run_main_op (A := toy_alg) (MC := noting_models) (B := demo_bus) 0 (OpRemoved 20) demo_main = Ok (tt, s') /\
    find_first (is_adapter 1) (ms_adapters s') = Some a' /\ ad_devices a' = drop 1 (ad_devices demo_adapter).
Proof.
  apply (removed_device_first toy_alg noting_models demo_bus 0 demo_adapter 20 demo_main demo_reach); done.
Defined.

Lemma commands_without_adapter_witness :
  let s := main_start demo_prov gatt_rx_init in
  (∀ onoff, run_main_op (A := toy_alg) (MC := noting_models) (B := demo_bus) 0 (OpScan onoff) s = Fault NullDeref) /\
  (∀ address a, find_ctrl_by_address (B := demo_bus) (ms_adapters s) address = Some a ->
     run_main_op (A := toy_alg) (MC := noting_models) (B := demo_bus) 0 (OpSelect address) s = Fault NullDeref) /\
  (∀ argv, run_main_op (A := toy_alg) (MC := noting_models) (B := demo_bus) 0 (OpConnect argv) s = Ok (tt, s)).
Proof. apply (commands_without_adapter toy_alg noting_models demo_bus 0 (main_start demo_prov gatt_rx_init)). done. Defined.

Lemma advertised_device_invited_witness :
  ∃ s1 text name n, run_main_op (A := toy_alg) (MC := noting_models) (B := demo_bus) 0 (OpAdded 20) demo_main =
      Ok (tt, s1) /\
    ms_events s1 = ms_events demo_main ++ [(UUID, text); (NAME, name)] /\
    wp (mapM_ (run_main_op (A := toy_alg) (MC := noting_models) (B := demo_bus) 0)
          (provision_ops 20 30 31 32 text n)) (fun _ s' =>
      session (nd_id n) (set_nd_prov 1 n) (opened 0) (ms_prov s') /\ invited (nd_id n) demo_main s') s1.
Proof.
  apply (advertised_device_invited toy_alg noting_models demo_bus 10 20 30 31 32 (rep 16 7) demo_adapter demo_main 0);
    [apply demo_device | apply demo_idle | done..| constructor | done].
Defined.
